(* ===== verification/_CoqProject ===== *)
-Q . S2P
Prelude.v
Sham.v
ShamFacts.v
ShamSystem.v
Chat.v
ChatFacts.v
Bakery.v
BakeryFacts.v
BakeryTime.v
Proc.v
ProcFacts.v
ProcSafe.v
ProcSched.v
ProcStarve.v
Mem.v
MemFacts.v
Vm.v
PageTable.v
VmMap.v
KallocSpec.v
VmSpec.v
VmSwap.v
VmPaging.v
Shell.v
ShellFacts.v
ShellRun.v
Jobs.v
JobsFacts.v
Pipe.v
PipeFacts.v
Buf.v
Bio.v
BioFacts.v
Log.v
LogFacts.v
LogSpace.v
Fs.v
FsFacts.v
FsBytes.v
Dir.v
DirFacts.v
DirLookup.v
Mkfs.v
MkfsFacts.v
MkfsFiles.v
MkfsRun.v
Cshark.v
CsharkFacts.v
Grep.v
GrepFacts.v
Umalloc.v
UmallocFacts.v
UmallocRun.v
File.v
Sysfile.v
FileFacts.v
FileRun.v
FileWrite.v
Sh.v
ShFacts.v
ShRun.v
Printf.v
PrintfFacts.v
Syscall.v
Exec.v
ExecFacts.v
ExecImage.v
Spinlock.v
SpinlockFacts.v
Console.v
ConsoleFacts.v
ConsoleRun.v
Sleeplock.v
SleeplockFacts.v
Virtio.v
VirtioFacts.v
VirtioRun.v
