(* ===== verification/Prelude.v ===== *)
(** * systems-suite: a verification development

    The repository holds six programs that share nothing but their author's
    subject, systems programming: a bakery simulation with threads
    (bakery-simulator), a reliable transport over UDP
    (reliable-transport-protocol), a packet sniffer (packet-sniffer), a shell
    (posix-shell), and two versions of the xv6 kernel with their user programs:
    one with new schedulers (xv6-scheduling), one with demand paging and
    swapping (xv6-memory-management).  The files the two kernels have in common
    are modelled once, from xv6-memory-management.

    ** How the code is modelled

    A C function is a function on an explicit state, with its name, its guards
    and its order of effects.  [outcome] (this file) is a result, [Panic] where
    the code calls panic, or [Undef] where the code would do what the model does
    not define: a load outside an object, a wait that nothing modelled can end,
    or a loop out of fuel.  Integers are [Z] with the wrap-around of their C type
    written where an operation can leave it ([wrapu], [i32], [i64]).  Threads,
    the network, the scheduler and crashes are step relations, and the theorems
    about them are about every reachable state or every continuation.  What other
    software answers (the network, libpcap, read and write, kill and waitpid,
    copyin in the file calls) is an argument of the definitions that ask.

    ** The parts

    A name in brackets is a module: that of the file of the same name, or, for
    [FsFile], [SwapFile], [FsRun], [LogCrash], [LogRun], [BioRep], [CsharkRun],
    [VmFrame] and [ExecRun], one that shares a file with the module it continues.

    - The transport.  [Sham] has sham.h, client.c and server.c: headers,
      checksum, handshake, the loop bodies of both ends in the data phase, the
      teardown.  [ShamFacts] and [ShamSystem] close them with a network that
      loses, duplicates and reorders, and in which copies of the handshake's and the
      file name's datagrams may still be under way when the data phase begins.  The
      output is always a prefix of the input.  A client that leaves its loop has
      delivered the whole file, and the oldest segment can always be recovered,
      except after a copy of the handshake's SYN-ACK, which the client takes for an
      acknowledgment ([sham_stale_synack_ends_transfer]); a zero window stops the
      transfer for good.  [Chat] has the command lines and the chat mode,
      [ChatFacts] what a chat prints over a network that duplicates as well.
    - The bakery.  [Bakery] has bakery.c, a step per critical section of a thread;
      [BakeryFacts] and [BakeryTime]: capacity, seating order, the chefs' choices,
      the times between the stages of a visit, and a shutdown that never happens.
    - The schedulers.  [Proc] has the process table and the schedulers of
      xv6-scheduling (proc.c, trap.c), against the class [proc_env] of what the
      memory and file systems do for fork and exit.  A step goes from one point at
      which the kernel can switch away from a process to the next: kfork and kexit,
      which have such points inside, are sequences of steps.  [ProcFacts] and
      [ProcSafe] are the table's invariant, [ProcSched] the table in every reachable
      state, exits and first-come order, [ProcStarve] who runs next and who never
      starves, with example runs.
    - Memory.  [Mem]: bytes, page-table entries and kalloc.c; [Vm]: vm.c with
      demand paging, page replacement and swapping.  [KallocSpec] refines the
      allocator to a stack, [PageTable], [VmMap], [VmSpec] the page tables to
      maps and copyin and copyout to byte sequences; [VmSwap] and [VmPaging]
      are about victims, eviction and faults, with example machines, [MemFacts]
      about memory and page-table entries.
    - The shell.  [Shell] has parser.c and the dispatch of shell.c, [Jobs] has
      jobs.c, intrinsics.c and the parent's part of execute.c; [ShellFacts],
      [ShellRun] and [JobsFacts] have the theorems.
    - Storage.  [Buf] is the interface of the buffer cache, a class with its
      laws; [Virtio] is the disk driver below it, with its rings and a device that
      serves requests in any order and may report that one failed, which makes the
      interrupt handler panic; [VirtioFacts] and [VirtioRun]: its correctness.
      [Bio] is bio.c's linked list, which [BioFacts] refines to a sequence
      and [BioRep] proves to satisfy the laws.  [Log] is log.c over any
      such cache; [LogFacts], [LogCrash], [LogSpace] and [LogRun] prove
      transactions atomic under crashes and the space check a reservation.  [Fs]
      is fs.c on the disk a transaction sees, with readi and writei over any copy to
      or from the other side, which can fail when that is user memory; [Dir] directories, path names and
      the swap files of proc.c; [FsFacts], [FsFile] and [FsBytes] prove that an
      inode is a byte sequence, which discharges what [Vm] assumes of readi and
      writei; [DirFacts], [SwapFile] and [FsRun] the rest.  [DirLookup] refines a
      directory to a finite map of names.  [Mkfs] is mkfs.c, the host's program that
      writes the first image: its iappend is shown to be the kernel's writei on the
      image seen with its free map ([MkfsFacts], [MkfsFiles]), so that the kernel
      reads back every file mkfs was given ([MkfsRun]).
    - Open files.  [Pipe] is pipe.c, a run between two sleeps per function, with
      [PipeFacts]; [File] is file.c, pipealloc and the descriptors, [Sysfile] the
      system calls on path names and the step relation of all the file calls, on
      top of [Pipe], [Fs] and [Dir].  [FileFacts], [FileRun]: reference counts;
      [FileWrite]: reading and writing through an offset, with user addresses that
      may be bad.
    - Locks and the console.  [Spinlock]: spinlock.c on several harts, a step per
      access to shared memory; [Sleeplock]: sleeplock.c with sleep and wakeup of
      proc.c over spin locks; [SpinlockFacts] and [SleeplockFacts].  [Console]:
      console.c and uart.c, with [ConsoleFacts] and [ConsoleRun]: line editing, reads,
      and output through the transmitter's interrupts.
    - System calls and exec.  [Syscall] is syscall.c; [Exec] is exec.c with
      sys_exec, on [Vm] and [Fs].  [VmFrame] is about the steps of a page table's
      construction, [ExecFacts], [ExecImage] and [ExecRun] about the stack of
      arguments, the headers and a failing exec.
    - Formatted output.  [Printf] has both printfs, [PrintfFacts] compares them.
    - User programs.  [Umalloc] is umalloc.c with the free list inside the free
      blocks, [UmallocFacts] and [UmallocRun] its safety in every sequence of
      calls; [Grep] is grep.c, [GrepFacts] its matcher against the language of a
      pattern and its output.
      [Sh] is the shell sh.c: its parser on indices into the line and the tree of
      system calls a command makes; [ShFacts] and [ShRun]: the parser ends, reads back
      every command, and every program gets the descriptors its place says.
    - The packet sniffer.  [Cshark] has the decoders, the stored session and the
      inspection of cshark.c; [CsharkFacts] and [CsharkRun]: loads stay in the packet,
      what is displayed of a frame, and what a session keeps.

    ** Theorems

    A theorem with a claim id in its comment is one of the main ones; a lemma
    of the same name with the suffix _witness applies it at a concrete state.
    Besides the safety theorems there are refinements of abstract
    specifications (a stack of pages, maps, queues, byte sequences, the last
    fifteen entries, a least recently used list), round trips
    (copyout and copyin, swapping out and in, command lines, frames), and
    theorems that state what the code does where that is not what it means to do.

    ** Fuel

    Loops that are not structural take fuel, and their callers pass a bound that
    the theorems show to be enough: the length of the file for [client_fill]; the
    number of buffered packets for [drain]; the number of pages of a range for
    [map_loop], [unmap_loop], [copyout] and [copyin]; one turn of the clock for
    [clock_scan]; the number of bytes for [readi_loop], [writei_loop] and
    [write_chunks] (each turn moves at least one); the number of entries for
    [scan_dir]; the length of the path for [namex_loop] ([namex_splits_path]);
    the number of buffers for [scan]; the length of the line for both shells' parsers
    and [match_lines]; 63 digits for [put_digits] (a 64-bit number in base 2 or more
    has no more); the number of program headers for [load_loop]; the bytes wanted for
    [Console.read_loop] and to be appended for [iappend_loop] and the length of the line for [kill_loop]; the entries of
    the used ring for [intr_loop] and the NUM descriptors for [free_chain].  [grep]'s
    fuel counts its reads, and [grep_prints_matching_lines] says how many are enough.

    ** Not modelled

    Machine code, the saving of registers, boot code and the interrupt controller.
    Except in the files on spin and sleep locks, a critical section is one step, on
    one hart, which [spinlock_mutual_exclusion] and [sleeplock_exclusion] justify.
    The scans of the process table by allocproc and kkill, which lock one slot after
    the other, are one step too.  The buffer cache is not between [Fs] and the disk:
    bytes that a failing writei leaves in a buffer without logging it are in the
    block from then on, while the code loses them when the buffer is reused.
    A file call runs to its end: two calls interleave only in [PipeFacts].  What
    device registers read as is an argument.  The shell's signal handlers and the
    children it forks; the transport's log; the sniffer's menus.  Test programs and
    build scripts. *)
From stdpp Require Export base tactics functions list numbers option strings gmap relations.
From Stdlib Require Export ZArith Lia.

#[local] Open Scope Z_scope.

(** ** Machine integers

    A C integer is a [Z] kept in range by writing the wrap-around at every
    place where the code's arithmetic can leave the type.  [wrapu w] is the
    conversion to an unsigned [w]-bit type, [i32] the (implementation-defined,
    two's-complement) conversion to [int]. *)

Definition wrapu (w : Z) (z : Z) : Z := z mod 2 ^ w.
Abbreviation u8 := (wrapu 8).
Abbreviation u16 := (wrapu 16).
Abbreviation u32 := (wrapu 32).
Abbreviation u64 := (wrapu 64).
Definition i32 (z : Z) : Z := (z + 2 ^ 31) mod 2 ^ 32 - 2 ^ 31.
Definition i64 (z : Z) : Z := (z + 2 ^ 63) mod 2 ^ 64 - 2 ^ 63.

Lemma wrapu_range w z : 0 <= w -> 0 <= wrapu w z < 2 ^ w.
Proof. intros Hw. apply Z.mod_pos_bound. lia. Qed.

Lemma wrapu_small w z : 0 <= z < 2 ^ w -> wrapu w z = z.
Proof. apply Z.mod_small. Qed.

Lemma wrapu_wrapu w z : 0 <= w -> wrapu w (wrapu w z) = wrapu w z.
Proof. intros Hw. apply wrapu_small, wrapu_range, Hw. Qed.

Lemma i32_small z : - 2 ^ 31 <= z < 2 ^ 31 -> i32 z = z.
Proof. intros Hz. unfold i32. rewrite Z.mod_small; lia. Qed.

Lemma i32_range z : - 2 ^ 31 <= i32 z < 2 ^ 31.
Proof.
  unfold i32. pose proof (Z.mod_pos_bound (z + 2 ^ 31) (2 ^ 32)). lia.
Qed.

Lemma i64_small z : - 2 ^ 63 <= z < 2 ^ 63 -> i64 z = z.
Proof. intros Hz. unfold i64. rewrite Z.mod_small; lia. Qed.

(** C's test of a flag mask, [x & m]. *)
Definition has_flag (x m : Z) : bool := negb (Z.land x m =? 0).

(** ** Outcomes

    A call returns, panics (the kernel's [panic], a program's [exit(1)] on an
    internal error), or has undefined behaviour (an out-of-bounds access).
    The theorems that rule out the last two are proved, never assumed. *)

Inductive outcome (A : Type) : Type :=
| Ret (a : A)
| Panic (msg : string)
| Undef (why : string).
Arguments Ret {A} a.
Arguments Panic {A} msg.
Arguments Undef {A} why.

#[export] Instance outcome_ret : MRet outcome := fun A a => Ret a.
#[export] Instance outcome_bind : MBind outcome := fun A B f o =>
  match o with Ret a => f a | Panic m => Panic m | Undef w => Undef w end.

Lemma outcome_bind_inv {A B} (m : outcome A) (f : A -> outcome B) b :
  mbind f m = Ret b -> exists a, m = Ret a /\ f a = Ret b.
Proof. destruct m as [a| |]; [|done|done]. intros H. by exists a. Qed.

Definition returns {A} (o : outcome A) : bool :=
  match o with Ret _ => true | _ => false end.

(** State passing over outcomes. *)
Definition M (S A : Type) : Type := S -> outcome (A * S).

#[export] Instance M_ret {S} : MRet (M S) := fun A a s => Ret (a, s).
#[export] Instance M_bind {S} : MBind (M S) := fun A B f m s =>
  match m s with
  | Ret (a, s') => f a s'
  | Panic e => Panic e
  | Undef w => Undef w
  end.
Definition mget {S} : M S S := fun s => Ret (s, s).
Definition mput {S} (s : S) : M S unit := fun _ => Ret (tt, s).
Definition mgets {S A} (f : S -> A) : M S A := fun s => Ret (f s, s).
Definition mmod {S} (f : S -> S) : M S unit := fun s => Ret (tt, f s).
Definition mpanic {S A} (e : string) : M S A := fun _ => Panic e.

Lemma M_bind_ret_inv {S A B} (m : M S A) (f : A -> M S B) s b s'' :
  mbind f m s = Ret (b, s'') ->
  exists a s', m s = Ret (a, s') /\ f a s' = Ret (b, s'').
Proof. unfold mbind, M_bind. destruct (m s) as [[a s']| |]; naive_solver. Qed.

Lemma M_bind_eq {S A B} (m : M S A) (f : A -> M S B) s a s' :
  m s = Ret (a, s') -> mbind f m s = f a s'.
Proof. unfold mbind, M_bind. by intros ->. Qed.

(** ** Reachability *)

Lemma rtc_invariant {S} (R : relation S) (I : S -> Prop) :
  (forall s s', I s -> R s s' -> I s') ->
  forall s s', rtc R s s' -> I s -> I s'.
Proof. intros Hstep s s' Hrtc. induction Hrtc; eauto. Qed.

(** ** Lists: the scans the code's [for] loops perform *)

Section scans.
Context {A : Type}.
Implicit Types (P f : A -> bool) (l : list A).

(** [for (i = 0; i < N; i++) if (P(a[i])) return i;] *)
Fixpoint find_idx P l : option nat :=
  match l with
  | [] => None
  | x :: l' => if P x then Some 0%nat else S <$> find_idx P l'
  end.

Lemma find_idx_Some P l i :
  find_idx P l = Some i <->
  (exists x, l !! i = Some x /\ P x = true) /\
  (forall j y, (j < i)%nat -> l !! j = Some y -> P y = false).
Proof.
  revert i. induction l as [|x l IH]; intros i; simpl.
  { split; [done|]. intros [(y & Hy & _) _]. done. }
  destruct (P x) eqn:Px.
  - split.
    + intros [= <-]. split; [by exists x|]. intros j y Hj. lia.
    + intros [_ Hfst]. destruct i as [|i]; [done|].
      specialize (Hfst 0%nat x ltac:(lia) eq_refl). congruence.
  - destruct i as [|i].
    + split; [by destruct (find_idx P l)|].
      intros [(y & Hy & HP) _]. simplify_eq/=. congruence.
    + split.
      * destruct (find_idx P l) as [k|] eqn:Hk; [|done]. simpl.
        intros [= ->]. destruct (IH i) as [[(y & Hy & HPy) Hj] _]; [done|].
        split; [by exists y|]. intros [|j] z Hlt Hz; simplify_eq/=; [done|].
        apply (Hj j); [lia|done].
      * intros [Hex Hfst]. destruct (IH i) as [_ IH2]. rewrite IH2; [done|].
        split; [done|]. intros j y Hj Hy. apply (Hfst (S j)); [lia|done].
Qed.

Lemma find_idx_None P l :
  find_idx P l = None <-> forall j y, l !! j = Some y -> P y = false.
Proof.
  induction l as [|x l IH]; simpl; [by split|].
  destruct (P x) eqn:Px.
  - split; [done|]. intros H. specialize (H 0%nat x eq_refl). congruence.
  - rewrite fmap_None, IH. split.
    + intros H [|j] y Hy; simplify_eq/=; [done|by eapply H].
    + intros H j y Hy. apply (H (S j)). done.
Qed.

Lemma find_idx_lt P l i : find_idx P l = Some i -> (i < length l)%nat.
Proof.
  intros [(x & Hx & _) _]%find_idx_Some. by eapply lookup_lt_Some.
Qed.

Lemma find_idx_hit P l i : find_idx P l = Some i -> exists x, l !! i = Some x /\ P x = true.
Proof. by intros [? _]%find_idx_Some. Qed.

(** The number of elements a predicate holds of. *)
Definition countb f l : nat := length (List.filter f l).

Lemma countb_nil f : countb f [] = 0%nat.
Proof. done. Qed.

Lemma countb_cons f x l : countb f (x :: l) = (Nat.b2n (f x) + countb f l)%nat.
Proof. unfold countb. simpl. by destruct (f x). Qed.

Lemma countb_app f l k : countb f (l ++ k) = (countb f l + countb f k)%nat.
Proof. unfold countb. by rewrite List.filter_app, length_app. Qed.

Lemma countb_le_length f l : (countb f l <= length l)%nat.
Proof. apply List.filter_length_le. Qed.

Lemma countb_insert f l i x y :
  l !! i = Some x ->
  (countb f (<[i:=y]> l) + Nat.b2n (f x) = countb f l + Nat.b2n (f y))%nat.
Proof.
  revert i. induction l as [|z l IH]; intros [|i] Hi; simplify_eq/=.
  - rewrite !countb_cons. lia.
  - rewrite !countb_cons. specialize (IH _ Hi). lia.
Qed.

Lemma countb_pos f l i x : l !! i = Some x -> f x = true -> (0 < countb f l)%nat.
Proof.
  revert i. induction l as [|z l IH]; intros [|i] Hi Hf; simplify_eq/=;
    rewrite countb_cons.
  - rewrite Hf. simpl. lia.
  - specialize (IH _ Hi Hf). lia.
Qed.

Lemma countb_pos_inv f l : (0 < countb f l)%nat -> exists i x, l !! i = Some x /\ f x = true.
Proof.
  induction l as [|y l IH]; [rewrite countb_nil; lia|]. rewrite countb_cons. destruct (f y) eqn:E.
  - intros _. by exists 0%nat, y.
  - intros H. destruct (IH H) as (i & x & Hi & Hx). by exists (S i), x.
Qed.

Lemma countb_zero f l : (forall i x, l !! i = Some x -> f x = false) -> countb f l = 0%nat.
Proof.
  induction l as [|z l IH]; intros H; [done|].
  rewrite countb_cons, (H 0%nat z eq_refl), IH; [done|].
  intros i x Hx. by apply (H (S i)).
Qed.

Lemma countb_mono f g l :
  (forall x, f x = true -> g x = true) -> (countb f l <= countb g l)%nat.
Proof.
  intros H. induction l as [|z l IH]; [done|]. rewrite !countb_cons.
  specialize (H z). destruct (f z), (g z); simpl; lia.
Qed.
End scans.

(** The argmin scan
    [for (i...) if (elig(a[i]) && (best == none || key(a[i]) < key(best))) best = i]
    shared by the schedulers, the bakery's chefs and the page replacement. *)
Section scan_min.
Context {A : Type} (elig : A -> bool) (key : A -> Z).

Fixpoint scan_min (i : nat) (best : option (nat * A)) (l : list A) : option (nat * A) :=
  match l with
  | [] => best
  | x :: l' =>
      let better := match best with None => true | Some (_, b) => key x <? key b end in
      scan_min (S i) (if elig x && better then Some (i, x) else best) l'
  end.

(** [b] is the first eligible element of least key in [l]. *)
Definition is_first_min (l : list A) (i : nat) (b : A) : Prop :=
  l !! i = Some b /\ elig b = true /\
  (forall j y, l !! j = Some y -> elig y = true -> key b <= key y) /\
  (forall j y, (j < i)%nat -> l !! j = Some y -> elig y = true -> key b < key y).

Lemma is_first_min_snoc_keep l x i b :
  is_first_min l i b -> (elig x = true -> key b <= key x) ->
  is_first_min (l ++ [x]) i b.
Proof.
  intros (Hi & He & Hall & Hfst) Hx. pose proof (lookup_lt_Some _ _ _ Hi) as Hlt.
  repeat split; [by apply lookup_app_l_Some|done| |].
  - intros j y [Hj|[Hj Hy]]%lookup_app_Some Hey; [by eapply Hall|].
    apply list_lookup_singleton_Some in Hy as [_ ->]. auto.
  - intros j y Hj Hy Hey. rewrite lookup_app_l in Hy by lia. by eapply Hfst.
Qed.

Lemma is_first_min_snoc_new l x :
  elig x = true ->
  (forall j y, l !! j = Some y -> elig y = true -> key x < key y) ->
  is_first_min (l ++ [x]) (length l) x.
Proof.
  intros He Hall. repeat split; [by rewrite lookup_app_r, Nat.sub_diag|done| |].
  - intros j y [Hj|[Hj Hy]]%lookup_app_Some Hey.
    + specialize (Hall _ _ Hj Hey). lia.
    + apply list_lookup_singleton_Some in Hy as [_ ->]. lia.
  - intros j y Hj Hy Hey. rewrite lookup_app_l in Hy by lia. by eapply Hall.
Qed.

Lemma scan_min_spec_gen l pre best :
  match best with
  | None => forall j y, pre !! j = Some y -> elig y = false
  | Some (i, b) => is_first_min pre i b
  end ->
  match scan_min (length pre) best l with
  | None => forall j y, (pre ++ l) !! j = Some y -> elig y = false
  | Some (i, b) => is_first_min (pre ++ l) i b
  end.
Proof.
  revert pre best. induction l as [|x l IH]; intros pre best Hb; simpl.
  { rewrite app_nil_r. by destruct best as [[i b]|]. }
  replace (pre ++ x :: l) with ((pre ++ [x]) ++ l) by by rewrite <- app_assoc.
  replace (S (length pre)) with (length (pre ++ [x])) by (rewrite length_app; simpl; lia).
  apply IH. destruct (elig x) eqn:Ex; simpl.
  - destruct best as [[i b]|]; simpl.
    + destruct (key x <? key b) eqn:Hk.
      * apply is_first_min_snoc_new; [done|]. intros j y Hj Hey.
        destruct Hb as (_ & _ & Hall & _). specialize (Hall _ _ Hj Hey). lia.
      * apply is_first_min_snoc_keep; [done|]. lia.
    + apply is_first_min_snoc_new; [done|]. intros j y Hj Hey.
      specialize (Hb _ _ Hj). congruence.
  - destruct best as [[i b]|].
    + apply is_first_min_snoc_keep; [done|congruence].
    + intros j y [Hj|[Hj Hy]]%lookup_app_Some; [by eapply Hb|].
      apply list_lookup_singleton_Some in Hy as [_ ->]. done.
Qed.

Lemma scan_min_Some l i b : scan_min 0 None l = Some (i, b) -> is_first_min l i b.
Proof.
  intros H. pose proof (scan_min_spec_gen l [] None) as Hs. simpl in Hs.
  rewrite H in Hs. apply Hs. done.
Qed.

Lemma scan_min_None l :
  scan_min 0 None l = None <-> forall j y, l !! j = Some y -> elig y = false.
Proof.
  pose proof (scan_min_spec_gen l [] None) as Hs. simpl in Hs.
  split.
  - intros H. rewrite H in Hs. apply Hs. done.
  - intros H. destruct (scan_min 0 None l) as [[i b]|]; [|done].
    destruct (Hs ltac:(done)) as (Hi & He & _). specialize (H _ _ Hi). congruence.
Qed.

Lemma is_first_min_unique l i b j c :
  is_first_min l i b -> is_first_min l j c -> i = j /\ b = c.
Proof.
  intros (Hi & Hei & Halli & Hfi) (Hj & Hej & Hallj & Hfj).
  assert (i = j) as ->; [|naive_solver].
  destruct (lt_eq_lt_dec i j) as [[H|H]|H]; [|done|].
  - specialize (Hfj _ _ H Hi Hei). specialize (Halli _ _ Hj Hej). lia.
  - specialize (Hfi _ _ H Hj Hej). specialize (Hallj _ _ Hi Hei). lia.
Qed.
End scan_min.

(** ** Tactics *)

(** Case analysis on the boolean tests of a definition, in hypotheses and goal. *)
Ltac case_ifs :=
  repeat match goal with
  | H : context [if ?b then _ else _] |- _ =>
      lazymatch type of b with bool => destruct b eqn:? end; simplify_eq/=
  | |- context [if ?b then _ else _] =>
      lazymatch type of b with bool => destruct b eqn:? end; simplify_eq/=
  end.

(** Turn boolean facts into propositions. *)
Ltac to_prop :=
  repeat match goal with
  | H : _ && _ = true |- _ => apply andb_true_iff in H as [? ?]
  | H : _ || _ = false |- _ => apply orb_false_iff in H as [? ?]
  | H : negb _ = true |- _ => apply negb_true_iff in H
  | H : negb _ = false |- _ => apply negb_false_iff in H
  | H : bool_decide _ = true |- _ => apply bool_decide_eq_true in H
  | H : bool_decide _ = false |- _ => apply bool_decide_eq_false in H
  end.

(** Split a successful monadic bind in a hypothesis. *)
Ltac inv_bind H :=
  let a := fresh "r" in let s := fresh "st" in let H1 := fresh "Hstep" in
  apply M_bind_ret_inv in H as (a & s & H1 & H).

(** The same for a call that returned: all the calls before it returned. *)
Ltac inv_ret H :=
  repeat lazymatch type of H with
  | mbind _ _ = Ret _ =>
      let a := fresh "r" in let H1 := fresh "Hcall" in
      apply outcome_bind_inv in H as (a & H1 & H)
  end.

Create HintDb cmodel.
#[export] Hint Resolve wrapu_range find_idx_lt : cmodel.
#[export] Hint Rewrite @countb_cons @countb_app @countb_nil : cmodel.
