(* ===== verification/Sham.v ===== *)
(** * The S.H.A.M. transport: wire format, handshake, teardown, checksum and
    the two ends of the data phase (reliable-transport-protocol/).

    [client] and [server] are the local variables of the two [main] functions
    in the data phase; one [Definition] per loop body.  What the kernel hands
    to the programs (received datagrams, clock readings, the outcome of the
    loss simulation) is an argument. *)
From S2P Require Import Prelude.

#[local] Open Scope Z_scope.

Module Sham.

(** ** sham.h *)

Definition SHAM_SYN : Z := 1.
Definition SHAM_ACK : Z := 2.
Definition SHAM_FIN : Z := 4.
Definition SHAM_DATA_SIZE : Z := 1024.
Definition HEADER_SIZE : Z := 12.

Record header := mk_header {
  seq_num : Z;      (* uint32_t *)
  ack_num : Z;      (* uint32_t *)
  flags : Z;        (* uint16_t *)
  window_size : Z   (* uint16_t *)
}.

Record packet := mk_packet { hdr : header; data : list Z (* SHAM_DATA_SIZE bytes *) }.

(** A datagram on the wire: the struct and how many of its bytes are sent. *)
Definition datagram : Type := packet * Z.

(** ** The handshake (client.c 214-280, server.c 191-258)

    Packets are built in uninitialised stack variables; [junk] is the stale
    header whose fields the code does not set. *)

Definition syn_packet (junk : header) : header :=
  {| junk with flags := SHAM_SYN; seq_num := 1000 |}.

(** The server's answer to the first datagram; [None]: handshake failed. *)
Definition server_on_syn (junk : header) (p : header) : option header :=
  if has_flag (flags p) SHAM_SYN then
    Some {| junk with flags := Z.lor SHAM_SYN SHAM_ACK; seq_num := 5000;
                      ack_num := u32 (seq_num p + 1) |}
  else None.

(** The client's test of the answer, and its final ACK. *)
Definition client_on_synack (junk syn p : header) : option header :=
  if has_flag (flags p) (Z.lor SHAM_SYN SHAM_ACK) && (ack_num p =? u32 (seq_num syn + 1)) then
    Some {| junk with flags := SHAM_ACK; ack_num := u32 (seq_num p + 1) |}
  else None.

Definition server_on_ack (p : header) : bool :=
  has_flag (flags p) SHAM_ACK && (ack_num p =? 5001).

(** ** The output file name (client.c 244-272, server.c 210-240)

    [strncpy(dst, src, SHAM_DATA_SIZE - 1)] of a C string without its NUL,
    then [dst[SHAM_DATA_SIZE - 1] = 0]: the name the server ends up with. *)

Definition filename_packet (junk : header) (name : list Z) : header * list Z :=
  ({| junk with flags := 0; seq_num := 0 |}, take 1023 name).

Definition server_on_filename (p : header * list Z) : option (list Z) :=
  if seq_num (fst p) =? 0 then Some (take 1023 (snd p)) else None.

Definition filename_ack (junk : header) : header := {| junk with flags := SHAM_ACK; ack_num := 1 |}.

(** ** Teardown (client.c 497-571, server.c 508-564) *)

Definition client_fin (junk : header) (next_seq_num : Z) : header :=
  {| junk with flags := SHAM_FIN; seq_num := next_seq_num |}.

Definition server_ack_of_fin (junk : header) (client_fin_seq : Z) : header :=
  {| junk with flags := SHAM_ACK; ack_num := u32 (client_fin_seq + 1) |}.

Definition server_fin (junk : header) : header :=
  {| junk with flags := SHAM_FIN; seq_num := 9000 |}.

(** The polling loops of the client: at most [tries] receive results, each a
    packet or nothing; the first one carrying [flag] ends the loop. *)
Fixpoint poll_for (flag : Z) (tries : nat) (rs : list (option header)) : option header :=
  match tries, rs with
  | S tries', Some p :: rs' =>
      if has_flag (flags p) flag then Some p else poll_for flag tries' rs'
  | S tries', None :: rs' => poll_for flag tries' rs'
  | _, _ => None
  end.

Definition client_final_ack (junk : header) (got_fin : option header) : header :=
  match got_fin with
  | Some p => {| junk with flags := SHAM_ACK; ack_num := u32 (seq_num p + 1) |}
  | None => {| junk with flags := SHAM_ACK; ack_num := 9001 |}
  end.

Definition server_accepts_final (sfin p : header) : bool :=
  has_flag (flags p) SHAM_ACK && (ack_num p =? u32 (seq_num sfin + 1)).

(** ** The file checksum (client.c 51-68, server.c 55-72)

    [unsigned long] is 64 bits; [sprintf("%08lx")] prints at least eight
    hexadecimal digits, more when the value needs them. *)

Definition checksum_step (checksum ch : Z) : Z :=
  u64 (u64 (Z.shiftl checksum 5 + checksum) + ch).

Definition calculate_file_checksum (file : list Z) : Z :=
  fold_left checksum_step file 0.

Definition hex_digits (n : Z) : Z := if n =? 0 then 1 else Z.log2 n / 4 + 1.

(** Characters [sprintf(buf, "%08lx", n)] stores, terminator included. *)
Definition sprintf_08lx_size (n : Z) : Z := Z.max 8 (hex_digits n) + 1.

(** [char checksum[9]] in both callers. *)
Definition CHECKSUM_BUF : Z := 9.

(** ** The sender (client.c 75-80, 411-495) *)

Definition CONGESTION_WINDOW_SIZE : Z := 10.
Definition TIMEOUT_MS : Z := 500.

Record timeval := mk_timeval { tv_sec : Z; tv_usec : Z }.

Record in_flight_packet := mk_in_flight {
  is_valid : bool;
  pkt : packet;
  packet_size : Z;
  time_sent : timeval
}.

Record client := mk_client {
  base : Z;                 (* uint32_t *)
  next_seq_num : Z;         (* uint32_t *)
  file_read_complete : bool;
  window_buffer : list in_flight_packet;
  server_window : Z;        (* uint16_t *)
  last_acked : Z;           (* uint32_t *)
  input_file : list Z       (* what fread has not consumed yet *)
}.

Definition zero_header : header := mk_header 0 0 0 0.
Definition zero_packet : packet := mk_packet zero_header (replicate 1024 0).
Definition zero_in_flight : in_flight_packet :=
  mk_in_flight false zero_packet 0 (mk_timeval 0 0).

Definition client_init (file : list Z) : client :=
  {| base := 1; next_seq_num := 1; file_read_complete := false;
     window_buffer := replicate 10 zero_in_flight; server_window := 65535;
     last_acked := 0; input_file := file |}.

(** [fread(buf, 1, SHAM_DATA_SIZE, f)]: what is read and what is left. *)
Definition fread (file : list Z) : list Z * list Z := (take 1024 file, drop 1024 file).

Definition fill_guard (c : client) : bool :=
  (next_seq_num c <? u32 (base c + CONGESTION_WINDOW_SIZE * SHAM_DATA_SIZE))
  && (u32 (next_seq_num c - base c) <? server_window c)
  && negb (file_read_complete c).

Definition buffer_index (c : client) : nat :=
  Z.to_nat (u32 (next_seq_num c - 1) / SHAM_DATA_SIZE mod CONGESTION_WINDOW_SIZE).

(** One iteration of the inner send loop. *)
Definition fill_step (now : timeval) (c : client) : client * list datagram :=
  let '(chunk, rest) := fread (input_file c) in
  let i := buffer_index c in
  let slot := default zero_in_flight (window_buffer c !! i) in
  let bytes_read := Z.of_nat (length chunk) in
  if 0 <? bytes_read then
    let h0 := hdr (pkt slot) in
    let h := {| h0 with seq_num := next_seq_num c; flags := 0 |} in
    let p := mk_packet h (chunk ++ drop (length chunk) (data (pkt slot))) in
    let slot' := mk_in_flight true p (HEADER_SIZE + bytes_read) now in
    ({| c with window_buffer := <[i := slot']> (window_buffer c);
               next_seq_num := u32 (next_seq_num c + bytes_read);
               input_file := rest |},
     [(p, HEADER_SIZE + bytes_read)])
  else ({| c with file_read_complete := true |}, []).

(** The inner loop; every iteration consumes input or ends it.  [now i] is what
    iteration [i] reads from the clock. *)
Fixpoint client_fill (fuel : nat) (now : nat -> timeval) (c : client) : client * list datagram :=
  match fuel with
  | O => (c, [])
  | S fuel' =>
      if fill_guard c then
        let '(c1, out1) := fill_step (now 0%nat) c in
        let '(c2, out2) := client_fill fuel' (fun i => now (S i)) c1 in
        (c2, out1 ++ out2)
      else (c, [])
  end.

Definition fill_fuel (c : client) : nat := S (length (input_file c)).

(** [recvfrom] on the non-blocking socket: a packet with its size, or -1. *)
Definition client_recv_ack (r : option datagram) (c : client) : client :=
  match r with
  | Some (p, ack_bytes) =>
      if (0 <? ack_bytes) && has_flag (flags (hdr p)) SHAM_ACK then
        let a := ack_num (hdr p) in
        if (base c <? a) && (last_acked c <? a) then
          {| c with base := a; server_window := window_size (hdr p); last_acked := a |}
        else c
      else c
  | None => c
  end.

Definition elapsed_ms (now sent : timeval) : Z :=
  (tv_sec now - tv_sec sent) * 1000 + Z.quot (tv_usec now - tv_usec sent) 1000.

(** The body of the retransmission sweep for one slot; [later] is the second
    clock reading. *)
Definition sweep_slot (b : Z) (now later : timeval) (s : in_flight_packet)
    : in_flight_packet * list datagram :=
  let s := if is_valid s && (seq_num (hdr (pkt s)) <? b)
           then {| s with is_valid := false |} else s in
  if is_valid s && (b <=? seq_num (hdr (pkt s))) && (TIMEOUT_MS <? elapsed_ms now (time_sent s))
  then ({| s with time_sent := later |}, [(pkt s, packet_size s)])
  else (s, []).

Fixpoint sweep (b : Z) (now : timeval) (later : nat -> timeval) (i : nat)
    (l : list in_flight_packet) : list in_flight_packet * list datagram :=
  match l with
  | [] => ([], [])
  | s :: l' =>
      let '(s', out) := sweep_slot b now (later i) s in
      let '(l'', out') := sweep b now later (S i) l' in
      (s' :: l'', out ++ out')
  end.

Definition client_sweep (now : timeval) (later : nat -> timeval) (c : client)
    : client * list datagram :=
  let '(wb, out) := sweep (base c) now later 0 (window_buffer c) in
  ({| c with window_buffer := wb |}, out).

(** The outer loop's test, and its body. *)
Definition client_running (c : client) : bool :=
  negb (file_read_complete c) || (base c <? next_seq_num c).

Definition client_iter (sent_at : nat -> timeval) (now : timeval) (later : nat -> timeval)
    (r : option datagram) (c : client) : client * list datagram :=
  let '(c1, out1) := client_fill (fill_fuel c) sent_at c in
  let c2 := client_recv_ack r c1 in
  let '(c3, out2) := client_sweep now later c2 in
  (c3, out1 ++ out2).

(** ** The receiver (server.c 43-47, 413-493) *)

Definition MAX_BUFFERED_PACKETS : Z := 50.
Definition RECEIVER_BUFFER_SIZE : Z := 20480.

Record buffered_packet := mk_buffered {
  b_valid : bool;
  b_packet : packet;
  b_size : Z     (* ssize_t *)
}.

Record server := mk_server {
  expected_seq_num : Z;     (* uint32_t *)
  packet_buffer : list buffered_packet;
  bytes_in_buffer : Z;      (* size_t *)
  output_file : list Z
}.

Definition server_init : server :=
  {| expected_seq_num := 1;
     packet_buffer := replicate 50 (mk_buffered false zero_packet 0);
     bytes_in_buffer := 0; output_file := [] |}.

(** [bytes_received - sizeof(struct sham_header)], a [size_t]. *)
Definition payload_size (bytes_received : Z) : Z := u64 (bytes_received - HEADER_SIZE).

(** [fwrite(p.data, 1, n, output_file)]: reading past the array is undefined. *)
Definition fwrite (d : list Z) (n : Z) (out : list Z) : outcome (list Z) :=
  if SHAM_DATA_SIZE <? n then Undef "fwrite past packet.data"
  else Ret (out ++ take (Z.to_nat n) d).

Definition next_in_buffer (sv : server) : option nat :=
  find_idx (fun s => b_valid s && (seq_num (hdr (b_packet s)) =? expected_seq_num sv))
           (packet_buffer sv).

(** The loop that writes out buffered packets which have become in order. *)
Fixpoint drain (fuel : nat) (sv : server) : outcome server :=
  match next_in_buffer sv with
  | None => Ret sv
  | Some i =>
      match fuel, packet_buffer sv !! i with
      | S fuel', Some s =>
          let n := payload_size (b_size s) in
          out ← fwrite (data (b_packet s)) n (output_file sv);
          drain fuel'
            {| expected_seq_num := u32 (expected_seq_num sv + n);
               packet_buffer := <[i := {| s with b_valid := false |}]> (packet_buffer sv);
               bytes_in_buffer := u64 (bytes_in_buffer sv - n);
               output_file := out |}
      | _, _ => Undef "drain: fuel"
      end
  end.

Definition drain_fuel (sv : server) : nat := length (packet_buffer sv).

(** The out-of-order branch: the first free slot keeps the packet. *)
Definition buffer_packet (p : packet) (bytes_received : Z) (sv : server) : server :=
  let total := u64 (bytes_in_buffer sv + payload_size bytes_received) in
  match find_idx (fun s => negb (b_valid s)) (packet_buffer sv) with
  | Some i =>
      {| sv with packet_buffer := <[i := mk_buffered true p bytes_received]> (packet_buffer sv);
                 bytes_in_buffer := total |}
  | None => {| sv with bytes_in_buffer := total |}
  end.

Definition advertised_window (bytes_in_buffer : Z) : Z :=
  u16 (if bytes_in_buffer <? RECEIVER_BUFFER_SIZE
       then RECEIVER_BUFFER_SIZE - bytes_in_buffer else 0).

Definition server_ack (junk : header) (sv : server) : header :=
  {| junk with flags := SHAM_ACK; ack_num := expected_seq_num sv;
               window_size := advertised_window (bytes_in_buffer sv) |}.

Inductive server_event :=
| SFin (client_fin_seq : Z)          (* leaves the receive loop *)
| SDropped                           (* simulated loss *)
| SAcked (sv : server) (ack : header).

(** The state change for a data packet that was not dropped. *)
Definition server_accept (p : packet) (bytes_received : Z) (sv : server) : outcome server :=
  if seq_num (hdr p) =? expected_seq_num sv then
    out ← fwrite (data p) (payload_size bytes_received) (output_file sv);
    let sv := {| sv with output_file := out;
                   expected_seq_num := u32 (expected_seq_num sv + payload_size bytes_received) |} in
    drain (drain_fuel sv) sv
  else if expected_seq_num sv <? seq_num (hdr p) then Ret (buffer_packet p bytes_received sv)
  else Ret sv.

(** One iteration of the receive loop; [drop] is the outcome of
    [loss_rate > 0 && should_drop_packet(loss_rate)]. *)
Definition server_recv (junk : header) (drop : bool) (p : packet) (bytes_received : Z)
    (sv : server) : outcome server_event :=
  if has_flag (flags (hdr p)) SHAM_FIN then Ret (SFin (seq_num (hdr p)))
  else if drop then Ret SDropped
  else
    sv' ← server_accept p bytes_received sv;
    Ret (SAcked sv' (server_ack junk sv')).

End Sham.
