(* ===== verification/ShamFacts.v ===== *)
(** * S.H.A.M.: reliable delivery over a lossy, duplicating, reordering network

    The data phase as a transition system: the client's loop body, the
    server's loop body, and a network that keeps every datagram ever sent and
    may deliver any of them, any number of times, in any order, or never. *)
From S2P Require Import Prelude Sham.
Import Sham.

#[local] Open Scope Z_scope.
#[local] Arguments Nat.mul : simpl never.
#[local] Arguments firstn : simpl never.
#[local] Arguments skipn : simpl never.
#[local] Ltac Zify.zify_post_hook ::= Z.div_mod_to_equations.

(** ** The retransmission sweep, slot by slot *)

Lemma sweep_lookup b now later i l j :
  (sweep b now later i l).1 !! j = (fun s => (sweep_slot b now (later (i + j)%nat) s).1) <$> l !! j.
Proof.
  revert i j. induction l as [|s l IH]; intros i j; [done|]. simpl.
  destruct (sweep_slot b now (later i) s) as [s' o] eqn:Hs.
  destruct (sweep b now later (S i) l) as [l' o'] eqn:Hl. simpl.
  destruct j as [|j]; simpl.
  - by rewrite Nat.add_0_r, Hs.
  - specialize (IH (S i) j). rewrite Hl in IH. simpl in IH. rewrite IH.
    by replace (i + S j)%nat with (S (i + j)) by lia.
Qed.

Lemma sweep_length b now later i l : length (sweep b now later i l).1 = length l.
Proof.
  revert i. induction l as [|s l IH]; intros i; [done|]. simpl.
  destruct (sweep_slot b now (later i) s) as [s' o].
  specialize (IH (S i)). destruct (sweep b now later (S i) l) as [l' o']. simpl in *. by f_equal.
Qed.

Lemma sweep_out b now later i l d :
  d ∈ (sweep b now later i l).2 <->
  exists j s, l !! j = Some s /\ d ∈ (sweep_slot b now (later (i + j)%nat) s).2.
Proof.
  revert i. induction l as [|s l IH]; intros i; simpl.
  { split; [by intros ?%not_elem_of_nil|by intros (? & ? & ? & ?)]. }
  destruct (sweep_slot b now (later i) s) as [s' o] eqn:Hs.
  specialize (IH (S i)). destruct (sweep b now later (S i) l) as [l' o'] eqn:Hl.
  simpl in *. rewrite elem_of_app, IH. split.
  - intros [Hd|(j & s1 & Hj & Hd)].
    + exists 0%nat, s. by rewrite Nat.add_0_r, Hs.
    + exists (S j), s1. by replace (i + S j)%nat with (S (i + j)) by lia.
  - intros ([|j] & s1 & Hj & Hd); simplify_eq/=.
    + rewrite Nat.add_0_r, Hs in Hd. by left.
    + right. exists j, s1. by replace (S (i + j)) with (i + S j)%nat by lia.
Qed.

Lemma sweep_slot_spec b now later s :
  let '(s', o) := sweep_slot b now later s in
  pkt s' = pkt s /\ packet_size s' = packet_size s /\
  is_valid s' = is_valid s && (b <=? seq_num (hdr (pkt s))) /\
  (forall d, d ∈ o -> is_valid s = true /\ d = (pkt s, packet_size s)).
Proof.
  destruct s as [v p ps ts]. unfold sweep_slot. simpl. rewrite !Z.leb_antisym.
  destruct v, (seq_num (hdr p) <? b) eqn:Hlt; simpl; rewrite ?Hlt; simpl;
    try destruct (TIMEOUT_MS <? _); simpl; split_and!; try reflexivity;
    intros d Hd; first [by apply not_elem_of_nil in Hd | by apply list_elem_of_singleton in Hd].
Qed.

(** ** What the two ends agree on: segments of the file *)
Section transfer.
(** The file, short enough for 32-bit sequence numbers not to wrap. *)
Context (F : list Z) (HF : Z.of_nat (length F) + 10241 < 2 ^ 32).

Definition segment (k : nat) : list Z := take 1024 (drop (1024 * k) F).

Lemma segment_length k : length (segment k) = Nat.min 1024 (length F - 1024 * k).
Proof. unfold segment. rewrite length_take, length_drop. done. Qed.

(** Where an in-order prefix of the file can end. *)
Definition boundary (m : nat) : Prop :=
  (m <= length F)%nat /\ (m mod 1024 = 0 \/ m = length F)%nat.

(** [d] carries a segment that ends at or before byte [r]. *)
Definition genuine (r : nat) (d : datagram) : Prop :=
  exists k, (1024 * k < length F)%nat /\ (1024 * k + length (segment k) <= r)%nat /\
    seq_num (hdr d.1) = 1 + 1024 * Z.of_nat k /\ flags (hdr d.1) = 0 /\
    d.2 = HEADER_SIZE + Z.of_nat (length (segment k)) /\
    take (length (segment k)) (data d.1) = segment k.

Lemma genuine_mono r r' d : (r <= r')%nat -> genuine r d -> genuine r' d.
Proof. intros Hr (k & ? & ? & ?). exists k. split; [done|]. split; [lia|done]. Qed.

Lemma boundary_next k :
  (1024 * k < length F)%nat -> boundary (1024 * k + length (segment k)).
Proof.
  intros Hk. rewrite segment_length. split; [lia|].
  destruct (Nat.le_gt_cases 1024 (length F - 1024 * k)) as [Hf|Hf]; [left|right; lia].
  rewrite Nat.min_l by done. replace (1024 * k + 1024)%nat with (S k * 1024)%nat by lia.
  apply Nat.Div0.mod_mul.
Qed.

Lemma boundary_open m : boundary m -> (m < length F)%nat -> exists k, m = (1024 * k)%nat.
Proof. intros [_ [H|H]] Hlt; [|lia]. exists (m / 1024)%nat. by apply Nat.Div0.div_exact. Qed.

Lemma take_segment k :
  take (1024 * k + length (segment k)) F = take (1024 * k) F ++ segment k.
Proof.
  rewrite segment_length. unfold segment. rewrite take_take_drop.
  destruct (Nat.le_gt_cases 1024 (length F - 1024 * k)).
  - by rewrite Nat.min_l by lia.
  - rewrite !take_ge; [done|lia..].
Qed.

(** ** The receiver *)

(** What the setup of the connection may have left in the network: datagrams
    without payload (SYN, ACK), and the file name, with sequence number 0. *)
Definition stray (d : datagram) : Prop :=
  has_flag (flags (hdr d.1)) SHAM_FIN = false /\ (d.2 = HEADER_SIZE \/ seq_num (hdr d.1) = 0).

Definition slots_genuine (r : nat) (l : list buffered_packet) : Prop :=
  forall i s, l !! i = Some s -> b_valid s = true -> genuine r (b_packet s, b_size s) \/ b_size s = HEADER_SIZE.

(** The output is the first [m] bytes of the file and the next expected
    sequence number is [1 + m]. *)
Record server_at (r m : nat) (sv : server) : Prop := {
  at_boundary : boundary m;
  at_sent : (m <= r)%nat;
  at_output : output_file sv = take m F;
  at_expected : expected_seq_num sv = 1 + Z.of_nat m;
  at_slots : slots_genuine r (packet_buffer sv)
}.

Lemma payload_genuine r p n :
  genuine r (p, n) -> exists k, seq_num (hdr p) = 1 + 1024 * Z.of_nat k /\
    (1024 * k < length F)%nat /\ (1024 * k + length (segment k) <= r)%nat /\
    payload_size n = Z.of_nat (length (segment k)) /\
    fwrite (data p) (payload_size n) (take (1024 * k) F) =
      Ret (take (1024 * k + length (segment k)) F).
Proof.
  intros (k & Hk & Hr & Hseq & _ & Hn & Hd). cbn [fst snd] in *. exists k.
  assert (payload_size n = Z.of_nat (length (segment k))) as Hp.
  { unfold payload_size. rewrite Hn. rewrite wrapu_small; [lia|].
    rewrite segment_length. unfold HEADER_SIZE in *. lia. }
  split; [done|]. split; [done|]. split; [done|]. split; [done|].
  unfold fwrite. rewrite Hp. destruct (Z.ltb_spec SHAM_DATA_SIZE (Z.of_nat (length (segment k)))).
  - rewrite segment_length in *. unfold SHAM_DATA_SIZE in *. lia.
  - rewrite Nat2Z.id, Hd, take_segment. done.
Qed.

Lemma slots_genuine_insert r l i s :
  slots_genuine r l -> (b_valid s = true -> genuine r (b_packet s, b_size s) \/ b_size s = HEADER_SIZE) ->
  slots_genuine r (<[i := s]> l).
Proof.
  intros Hl Hs j s' Hj Hv. apply list_lookup_insert_Some in Hj as [(-> & -> & _)|[_ Hj]]; auto.
  by eapply Hl.
Qed.

(** Writing the in-order segment [p] advances the prefix. *)
Lemma in_order_advance r m sv p n :
  server_at r m sv -> genuine r (p, n) -> seq_num (hdr p) = expected_seq_num sv ->
  exists m' out, (m < m')%nat /\
    fwrite (data p) (payload_size n) (output_file sv) = Ret out /\
    forall pb bb, slots_genuine r pb ->
      server_at r m' (mk_server (u32 (expected_seq_num sv + payload_size n)) pb bb out).
Proof.
  intros [Hm Hmr Ho He Hs] Hg Hseq.
  destruct (payload_genuine _ _ _ Hg) as (k & Hk & Hkl & Hkr & Hp & Hw).
  assert (m = 1024 * k)%nat as -> by lia.
  rewrite Ho. exists (1024 * k + length (segment k))%nat. eexists.
  split; [rewrite segment_length; lia|]. split; [exact Hw|]. intros pb bb Hpb.
  split; simpl; [by apply boundary_next|lia|done| |done].
  rewrite Hp, He, wrapu_small; [lia|]. pose proof (segment_length k). lia.
Qed.

(** An in-order datagram without payload changes nothing but the buffer. *)
Lemma empty_advance r m sv d :
  server_at r m sv ->
  fwrite d (payload_size HEADER_SIZE) (output_file sv) = Ret (output_file sv) /\
  forall pb bb, slots_genuine r pb ->
    server_at r m (mk_server (u32 (expected_seq_num sv + payload_size HEADER_SIZE)) pb bb (output_file sv)).
Proof.
  intros [Hm Hmr Ho He Hs]. change (payload_size HEADER_SIZE) with 0. split.
  - unfold fwrite. simpl. by rewrite app_nil_r.
  - intros pb bb Hpb. split; try done. simpl. rewrite Z.add_0_r, He, wrapu_small; [done|]. destruct Hm. lia.
Qed.

Lemma advance r m sv p n :
  server_at r m sv -> genuine r (p, n) \/ n = HEADER_SIZE -> seq_num (hdr p) = expected_seq_num sv ->
  exists m' out, (m <= m')%nat /\ (genuine r (p, n) -> (m < m')%nat) /\
    fwrite (data p) (payload_size n) (output_file sv) = Ret out /\
    forall pb bb, slots_genuine r pb ->
      server_at r m' (mk_server (u32 (expected_seq_num sv + payload_size n)) pb bb out).
Proof.
  intros Hinv [Hg| ->] Hseq.
  - destruct (in_order_advance r m sv p n Hinv Hg Hseq) as (m' & out & Hm & H). exists m', out.
    split; [lia|]. by split.
  - destruct (empty_advance r m sv (data p) Hinv) as [Hw H]. exists m, (output_file sv).
    split_and!; [done| |done|done]. intros (k & Hk & _ & _ & _ & Hn & _). pose proof (segment_length k).
    cbn in Hn. unfold HEADER_SIZE in Hn. lia.
Qed.

Lemma drain_inv fuel r m sv :
  server_at r m sv -> (countb b_valid (packet_buffer sv) <= fuel)%nat ->
  exists sv' m', drain fuel sv = Ret sv' /\ server_at r m' sv' /\ (m <= m')%nat /\
    length (packet_buffer sv') = length (packet_buffer sv) /\ next_in_buffer sv' = None.
Proof.
  revert m sv. induction fuel as [|fuel IH]; intros m sv Hinv Hc; simpl.
  - destruct (next_in_buffer sv) as [i|] eqn:Hi; [exfalso|eauto 10].
    apply find_idx_hit in Hi as (s & Hs & [Hv _]%andb_true_iff).
    pose proof (countb_pos _ _ _ _ Hs Hv). lia.
  - destruct (next_in_buffer sv) as [i|] eqn:Hi; [|eauto 10].
    pose proof Hi as (s & Hs & Hv)%find_idx_hit. rewrite Hs.
    apply andb_true_iff in Hv as [Hv Hseq]. apply Z.eqb_eq in Hseq.
    pose proof (at_slots _ _ _ Hinv) as Hsl.
    destruct (advance r m sv _ _ Hinv (Hsl _ _ Hs Hv) Hseq) as (m1 & out & Hm1 & _ & -> & Hadv).
    simpl. match goal with |- context [drain fuel ?x] =>
      destruct (IH m1 x) as (sv' & m' & Hd & Hinv' & Hm' & Hlen & Hn) end.
    + apply Hadv. apply slots_genuine_insert; [done|]. intros [=].
    + simpl. pose proof (countb_insert b_valid _ _ _ {| s with b_valid := false |} Hs) as Hci.
      rewrite Hv in Hci. simpl in Hci. lia.
    + exists sv', m'. split; [exact Hd|]. rewrite Hlen. simpl. rewrite length_insert.
      split_and!; [done|lia|done|done].
Qed.

Lemma server_accept_inv r m p n sv :
  server_at r m sv -> genuine r (p, n) \/ stray (p, n) ->
  exists sv' m', server_accept p n sv = Ret sv' /\ server_at r m' sv' /\ (m <= m')%nat /\
    (genuine r (p, n) -> seq_num (hdr p) = expected_seq_num sv -> (m < m')%nat) /\
    length (packet_buffer sv') = length (packet_buffer sv).
Proof.
  intros Hinv Hg. pose proof (at_slots _ _ _ Hinv) as Hsl. pose proof (at_expected _ _ _ Hinv) as Hexp.
  assert (genuine r (p, n) \/ n = HEADER_SIZE \/ seq_num (hdr p) = 0) as Hg' by (destruct Hg as [|[_ ?]]; auto).
  unfold server_accept.
  destruct (Z.eqb_spec (seq_num (hdr p)) (expected_seq_num sv)) as [Heq|Hne].
  - destruct (advance r m sv p n Hinv) as (m1 & out & Hm1 & Hlt & -> & Hadv); [|done|].
    { destruct Hg' as [|[|H0]]; auto. lia. }
    simpl. edestruct (drain_inv (length (packet_buffer sv))) as (sv' & m' & Hd & Hinv' & Hm' & Hlen & _).
    + by apply (Hadv (packet_buffer sv) (bytes_in_buffer sv)).
    + apply countb_le_length.
    + exists sv', m'. split_and!; [exact Hd|done|lia| |done]. intros Hgn _. specialize (Hlt Hgn). lia.
  - destruct (Z.ltb_spec (expected_seq_num sv) (seq_num (hdr p))).
    + eexists _, m. split; [done|]. unfold buffer_packet.
      destruct Hinv as [Hm Hmr Ho He _].
      destruct (find_idx _ _) as [i|]; simpl; rewrite ?length_insert; split_and!; auto; try done;
        split; simpl; auto. apply slots_genuine_insert; [done|]. intros _. destruct Hg' as [|[|H0]]; auto. lia.
    + eexists _, m. split_and!; eauto. done.
Qed.

(** ** The sender *)

Definition window_genuine (r : nat) (wb : list in_flight_packet) : Prop :=
  forall i s, wb !! i = Some s -> is_valid s = true -> genuine r (pkt s, packet_size s).

(** Every segment sent and not acknowledged is still in its window slot. *)
Definition retained (b r : nat) (wb : list in_flight_packet) : Prop :=
  forall k, (b <= 1024 * k)%nat -> (1024 * k < r)%nat ->
    exists s, wb !! (k mod 10)%nat = Some s /\ is_valid s = true /\
              seq_num (hdr (pkt s)) = 1 + 1024 * Z.of_nat k.

(** [r] bytes have been sent. *)
Record client_sent (r : nat) (c : client) : Prop := {
  cl_boundary : boundary r;
  cl_input : input_file c = drop r F;
  cl_next : next_seq_num c = 1 + Z.of_nat r;
  cl_complete : file_read_complete c = true -> r = length F;
  cl_window : length (window_buffer c) = 10%nat;
  cl_genuine : window_genuine r (window_buffer c)
}.

(** The first [b] bytes are acknowledged, the others still in the window. *)
Record client_at (r b : nat) (c : client) : Prop := {
  cl_sent : client_sent r c;
  cl_base_boundary : boundary b;
  cl_base : base c = 1 + Z.of_nat b;
  cl_le : (b <= r)%nat;
  cl_retained : retained b r (window_buffer c)
}.

Lemma client_init_at : client_at 0 0 (client_init F).
Proof.
  split; [split| | | |]; simpl; auto; try done.
  - split; [lia|by left].
  - intros i s Hs. do 10 (destruct i as [|i]; [naive_solver|]). done.
  - split; [lia|by left].
  - intros k. lia.
Qed.

Lemma window_genuine_insert r r' wb i s :
  (r <= r')%nat -> window_genuine r wb ->
  (is_valid s = true -> genuine r' (pkt s, packet_size s)) ->
  window_genuine r' (<[i := s]> wb).
Proof.
  intros Hr Hwb Hs j s' Hj Hv.
  apply list_lookup_insert_Some in Hj as [(-> & -> & _)|[_ Hj]]; [auto|].
  eapply genuine_mono; [exact Hr|]. by eapply Hwb.
Qed.

(** The slot a new segment goes into holds no unacknowledged segment. *)
Lemma retained_insert b k wb s :
  length wb = 10%nat -> (1024 * k < b + 1024 * 10)%nat ->
  is_valid s = true -> seq_num (hdr (pkt s)) = 1 + 1024 * Z.of_nat k ->
  retained b (1024 * k) wb ->
  retained b (1024 * k + length (segment k)) (<[(k mod 10)%nat := s]> wb).
Proof.
  intros Hlen Hwin Hv Hseq Hr j Hbj Hj. rewrite segment_length in Hj.
  assert (k mod 10 < 10)%nat by (apply Nat.mod_upper_bound; lia).
  destruct (decide (j = k)) as [->|Hne].
  - exists s. split; [|done]. apply list_lookup_insert_eq. lia.
  - assert (j < k)%nat as Hjk by lia.
    destruct (Hr j Hbj ltac:(lia)) as (s' & Hs' & ?). exists s'. split; [|done].
    rewrite list_lookup_insert_ne; [done|]. intros Hmod.
    pose proof (Nat.div_mod_eq k 10). pose proof (Nat.div_mod_eq j 10). lia.
Qed.

(** What only acknowledgments change. *)
Definition acked (c : client) : Z * Z * Z := (base c, server_window c, last_acked c).

Lemma fill_step_sent r c now c' out :
  client_sent r c -> fill_guard c = true -> fill_step now c = (c', out) ->
  exists r', (r <= r')%nat /\ client_sent r' c' /\ Forall (genuine r') out /\ acked c' = acked c /\
    (file_read_complete c' = true \/ (length (input_file c') < length (input_file c))%nat) /\
    (forall b, client_at r b c -> client_at r' b c').
Proof.
  intros Hc Hg Hstep. pose proof Hc as [Hbr Hin Hnx Hco Hwl Hge].
  unfold fill_guard in Hg. apply andb_true_iff in Hg as [[Hg1 _]%andb_true_iff Hnc].
  unfold CONGESTION_WINDOW_SIZE, SHAM_DATA_SIZE in Hg1.
  assert (r <= length F)%nat as HrF by apply Hbr.
  unfold fill_step, fread in Hstep. rewrite Hin in Hstep.
  destruct (decide (r = length F)) as [->|Hlt].
  { rewrite drop_ge in Hstep by lia. simplify_eq/=. exists (length F).
    set (c1 := mk_client _ _ _ _ _ _ _).
    assert (client_sent (length F) c1) as Hc' by (split; simpl; auto; by rewrite drop_ge).
    split_and!; [done|done|by constructor|done|by left|]. intros b []. by split. }
  destruct (boundary_open r Hbr ltac:(lia)) as [k ->].
  change (take 1024 (drop (1024 * k) F)) with (segment k) in Hstep.
  assert (0 < length (segment k))%nat as Hpos by (rewrite segment_length; lia).
  destruct (Z.ltb_spec 0 (Z.of_nat (length (segment k)))) as [_|]; [|lia].
  assert (buffer_index c = k mod 10)%nat as Hidx.
  { unfold buffer_index, SHAM_DATA_SIZE, CONGESTION_WINDOW_SIZE.
    rewrite Hnx, wrapu_small by lia.
    replace (1 + Z.of_nat (1024 * k) - 1) with (Z.of_nat k * 1024) by lia.
    rewrite Z.div_mul by lia. change 10 with (Z.of_nat 10) at 1.
    rewrite <- Nat2Z.inj_mod. by rewrite Nat2Z.id. }
  simplify_eq/=. rewrite Hidx. set (p := mk_packet _ _).
  assert (genuine (1024 * k + length (segment k))
            (p, HEADER_SIZE + Z.of_nat (length (segment k)))) as Hgp.
  { exists k. subst p. cbn [fst snd hdr data flags seq_num]. split_and!; try done; try lia.
    by rewrite take_app_length. }
  assert (1024 * k + length (segment k) <= length F)%nat.
  { rewrite segment_length. lia. }
  exists (1024 * k + length (segment k))%nat. set (c' := mk_client _ _ _ _ _ _ _).
  assert (client_sent (1024 * k + length (segment k)) c') as Hc'.
  { split; cbn -[Nat.mul p]; try done.
    - apply boundary_next. lia.
    - rewrite drop_drop. rewrite segment_length.
      destruct (Nat.le_gt_cases 1024 (length F - 1024 * k)).
      + by rewrite Nat.min_l by lia.
      + rewrite !drop_ge by lia. done.
    - rewrite Hnx, wrapu_small; lia.
    - intros Hfc. rewrite Hfc in Hnc. done.
    - by rewrite length_insert.
    - eapply window_genuine_insert; [|exact Hge|done]. lia. }
  split_and!; [lia|done|by constructor|done| |].
  - right. simpl. rewrite Hin, !length_drop. lia.
  - intros b [_ Hbb Hba Hle Hre]. rewrite Hba, wrapu_small, Hnx in Hg1 by (destruct Hbb; lia). apply Z.ltb_lt in Hg1.
    split; [done|done|done|lia|]. apply retained_insert; cbn -[Nat.mul]; [done|lia|done|lia|done].
Qed.

Definition fill_needed (c : client) : nat :=
  length (input_file c) + (if file_read_complete c then 0 else 1).

Lemma client_fill_sent fuel : forall now r c c' out,
  client_sent r c -> (fill_needed c <= fuel)%nat -> client_fill fuel now c = (c', out) ->
  exists r', (r <= r')%nat /\ client_sent r' c' /\ Forall (genuine r') out /\ acked c' = acked c /\
    fill_guard c' = false /\ (forall b, client_at r b c -> client_at r' b c').
Proof.
  induction fuel as [|fuel IH]; intros now r c c' out Hc Hf Hrun; simpl in Hrun.
  - simplify_eq. exists r. split_and!; [done|done|by constructor|done| |done].
    unfold fill_needed in Hf. unfold fill_guard. destruct (file_read_complete c'); [|lia].
    by rewrite andb_false_r.
  - destruct (fill_guard c) eqn:Hg; simplify_eq.
    2:{ exists r. split_and!; [done|done|by constructor|done|done|done]. }
    destruct (fill_step (now 0%nat) c) as [c1 out1] eqn:Hs.
    destruct (client_fill fuel _ c1) as [c2 out2] eqn:Hr. simplify_eq.
    destruct (fill_step_sent _ _ _ _ _ Hc Hg Hs) as (r1 & Hr1 & Hc1 & Ho1 & Hb1 & Hless & Hat1).
    assert (fill_needed c1 <= fuel)%nat as Hn1;
      [|destruct (IH _ r1 c1 _ _ Hc1 Hn1 Hr) as (r2 & Hr2 & Hc2 & Ho2 & Hb2 & Hg2 & Hat2)].
    + unfold fill_guard in Hg. unfold fill_needed in *.
      destruct (file_read_complete c); [by rewrite andb_false_r in Hg|].
      destruct (file_read_complete c1) eqn:?; [|destruct Hless; [done|lia]].
      destruct Hless as [_|]; [|lia].
      rewrite (cl_input _ _ Hc1), (cl_complete _ _ Hc1), drop_ge by done. simpl. lia.
    + exists r2. split_and!; [lia|done| |congruence|done|by auto].
      apply Forall_app. split; [|done]. eapply Forall_impl; [exact Ho1|].
      intros d Hd. by eapply genuine_mono.
Qed.

Definition honest_ack (r : nat) (h : header) : Prop :=
  exists m, boundary m /\ (m <= r)%nat /\ ack_num h = 1 + Z.of_nat m.

Lemma client_recv_ack_sent r c o : client_sent r c -> client_sent r (client_recv_ack o c).
Proof. intros []. destruct o as [[p n]|]; simpl; [|by split]. case_ifs; by split. Qed.

Lemma client_recv_ack_at r b q c o :
  client_at r b c -> (b <= q <= r)%nat ->
  (forall p n, o = Some (p, n) -> honest_ack q (hdr p) \/ ack_num (hdr p) = 1) ->
  exists b', (b <= b' <= q)%nat /\ client_at r b' (client_recv_ack o c).
Proof.
  intros Hc Hq Ho. pose proof (client_recv_ack_sent r c o (cl_sent _ _ _ Hc)) as Hs.
  assert (exists b', (b <= b' <= q)%nat /\ client_at r b' c) as Hkeep by (exists b; split; [lia|done]).
  destruct o as [[p n]|]; simpl in *; [|done].
  case_ifs; try done. pose proof (cl_base _ _ _ Hc) as Hbase. to_prop.
  destruct (Ho p n eq_refl) as [(m & Hm & Hmr & Ha)|Ha]; [|lia].
  destruct Hc as [_ ? ? ? Hret]. exists m. split; [lia|]. split; simpl; auto; try lia.
  intros k Hk1 Hk2. apply Hret; [|done]. lia.
Qed.

Lemma client_sweep_sent r c now later c' out :
  client_sent r c -> client_sweep now later c = (c', out) ->
  client_sent r c' /\ Forall (genuine r) out /\ base c' = base c /\
  (forall b, client_at r b c -> client_at r b c').
Proof.
  intros Hc Hs. unfold client_sweep in Hs.
  pose proof (sweep_lookup (base c) now later 0 (window_buffer c)) as Hlk.
  pose proof (sweep_out (base c) now later 0 (window_buffer c)) as Hout.
  pose proof (sweep_length (base c) now later 0 (window_buffer c)) as Hlen.
  destruct (sweep _ _ _ _ _) as [wb o]. simplify_eq. simpl in Hlk, Hout, Hlen.
  destruct Hc as [H1 H2 H3 H4 H5 Hge].
  assert (client_sent r {| c with window_buffer := wb |}) as Hc'.
  { split; simpl; auto; [by rewrite Hlen|].
    intros i s Hi Hv. rewrite Hlk in Hi.
    apply fmap_Some in Hi as (s0 & Hs0 & ->).
    pose proof (sweep_slot_spec (base c) now (later i) s0) as Hsp.
    destruct (sweep_slot _ _ _ s0) as [s1 o1]. simpl in *.
    destruct Hsp as (-> & -> & Hv' & _). rewrite Hv' in Hv. to_prop. by eapply Hge. }
  split_and!; [done| |done|].
  - apply Forall_forall. intros d Hd. apply Hout in Hd as (j & s & Hj & Hd).
    pose proof (sweep_slot_spec (base c) now (later j) s) as Hsp.
    destruct (sweep_slot _ _ _ s) as [s1 o1]. simpl in *.
    destruct Hsp as (_ & _ & _ & Ho). destruct (Ho d Hd) as [Hv ->]. by eapply Hge.
  - intros b [_ Hbb Hba Hle Hret]. split; [done..|].
    intros k Hk1 Hk2. destruct (Hret k Hk1 Hk2) as (s & Hs & Hv & Hseq).
    cbn [window_buffer]. rewrite Hlk, Hs. simpl. eexists. split; [done|].
    pose proof (sweep_slot_spec (base c) now (later (k mod 10)%nat) s) as Hsp.
    destruct (sweep_slot _ _ _ s) as [s1 o1]. simpl in *.
    destruct Hsp as (-> & _ & -> & _). rewrite Hv, Hseq. split; [|done]. lia.
Qed.
End transfer.
