(* ===== verification/ShamSystem.v ===== *)
(** * S.H.A.M.: the two programs and the network, and what they guarantee *)
From S2P Require Import Prelude Sham ShamFacts.
Import Sham.

#[local] Open Scope Z_scope.
#[local] Arguments Nat.mul : simpl never.
#[local] Arguments firstn : simpl never.
#[local] Arguments skipn : simpl never.

(** ** The system *)

Record sys := mk_sys {
  s_client : client;
  s_server : server;
  s_data : list datagram;   (* every datagram the client ever sent *)
  s_acks : list header      (* every acknowledgment the server ever sent *)
}.

(** The data phase starts with what the setup left in the network: duplicates of
    its datagrams, which may still arrive. *)
Definition sys_init (F : list Z) (dn : list datagram) (an : list header) : sys :=
  mk_sys (client_init F) server_init dn an.

Inductive leftover_data : datagram -> Prop :=
| left_syn j p : hdr p = syn_packet j -> leftover_data (p, HEADER_SIZE)
| left_ack j0 j h p : client_on_synack j (syn_packet j0) h = Some (hdr p) -> leftover_data (p, HEADER_SIZE)
| left_filename j name p n : hdr p = fst (filename_packet j name) -> leftover_data (p, n).

Inductive leftover_ack : header -> Prop :=
| left_synack j0 j h : server_on_syn j (syn_packet j0) = Some h -> leftover_ack h
| left_filename_ack j : leftover_ack (filename_ack j).

Lemma leftover_stray d : leftover_data d -> stray d.
Proof.
  intros [j p E|j0 j h p E|j name p n E]; split; cbn [fst snd]; try (by left).
  - by rewrite E.
  - unfold client_on_synack in E. destruct (_ && _); [|done]. injection E as <-. done.
  - by rewrite E.
  - right. by rewrite E.
Qed.

(** The SYN-ACK acknowledges sequence number 1000, the file name's ACK nothing. *)
Lemma leftover_ack_num h : leftover_ack h ->
  ack_num h = 1001 /\ has_flag (flags h) SHAM_SYN = true \/ ack_num h = 1.
Proof. intros [j0 j h' E|j]; [left|by right]. unfold server_on_syn in E. simpl in E. by injection E as <-. Qed.

(** What [recvfrom] leaves in the server's [packet] variable: the bytes of
    the datagram, over whatever was there before. *)
Definition received (d : datagram) (p : packet) : Prop :=
  hdr p = hdr d.1 /\
  take (Z.to_nat (d.2 - HEADER_SIZE)) (data p) = take (Z.to_nat (d.2 - HEADER_SIZE)) (data d.1).

Inductive sys_step : relation sys :=
| step_client c sv dn an r sent_at now later c' out :
    client_running c = true ->
    (forall p n, r = Some (p, n) -> hdr p ∈ an) ->
    client_iter sent_at now later r c = (c', out) ->
    sys_step (mk_sys c sv dn an) (mk_sys c' sv (dn ++ out) an)
| step_server_ack c sv dn an d p junk sv' ack :
    d ∈ dn -> received d p ->
    server_recv junk false p d.2 sv = Ret (SAcked sv' ack) ->
    sys_step (mk_sys c sv dn an) (mk_sys c sv' dn (ack :: an))
| step_server_drop c sv dn an d p junk :
    d ∈ dn -> received d p ->
    server_recv junk true p d.2 sv = Ret SDropped ->
    sys_step (mk_sys c sv dn an) (mk_sys c sv dn an).

Section guarantees.
Context (F : list Z) (HF : Z.of_nat (length F) + 10241 < 2 ^ 32).

Definition sent (r : nat) (d : datagram) : Prop := genuine F r d \/ stray d.

(** An acknowledgment of data the server has written. *)
Definition honest (m : nat) (h : header) : Prop :=
  exists m', boundary F m' /\ (m' <= m)%nat /\ ack_num h = 1 + Z.of_nat m'.

(** In every run: [base] is what a server acknowledged, or 1001. *)
Record sys_inv (s : sys) : Prop := {
  inv_ex : exists r m, client_sent F r (s_client s) /\ server_at F r m (s_server s) /\
    Forall (sent r) (s_data s) /\ Forall (fun h => honest m h \/ leftover_ack h) (s_acks s) /\
    (base (s_client s) = 1001 \/ exists b, (b <= m)%nat /\ base (s_client s) = 1 + Z.of_nat b)
}.

(** In runs without a SYN-ACK left over. *)
Record sys_quiet (s : sys) : Prop := {
  quiet_ex : exists r b m, client_at F r b (s_client s) /\ (b <= m)%nat /\ server_at F r m (s_server s) /\
    Forall (sent r) (s_data s) /\ Forall (fun h => honest m h \/ ack_num h = 1) (s_acks s)
}.

Lemma server_at_init : server_at F 0 0 server_init.
Proof.
  split; [split; [simpl; lia|by left]|done|done|done|].
  intros i s Hs Hv. by apply lookup_replicate_1 in Hs as [-> _].
Qed.

Lemma server_at_mono r r' m sv : (r <= r')%nat -> server_at F r m sv -> server_at F r' m sv.
Proof.
  intros Hr []. split; auto; [lia|]. intros i s Hs Hv.
  destruct (at_slots i s Hs Hv); [left|by right]. by eapply genuine_mono.
Qed.

Lemma sent_mono r r' d : (r <= r')%nat -> sent r d -> sent r' d.
Proof. intros Hr [H|H]; [left|by right]. by eapply genuine_mono. Qed.

Lemma honest_mono m m' h : (m <= m')%nat -> honest m h -> honest m' h.
Proof. intros Hm (k & ? & ? & ?). exists k. split_and!; [done|lia|done]. Qed.

Lemma data_grows r r' dn o1 o2 :
  (r <= r')%nat -> Forall (sent r) dn -> Forall (genuine F r') o1 -> Forall (genuine F r') o2 ->
  Forall (sent r') (dn ++ o1 ++ o2).
Proof.
  intros Hr Hd H1 H2. apply Forall_app. split; [eapply Forall_impl; [exact Hd|]; intros d; by apply sent_mono|].
  apply Forall_app. split; (eapply Forall_impl; [done|]); by left.
Qed.

Lemma sent_received r d p : sent r d -> received d p -> sent r (p, d.2) /\ (genuine F r d -> genuine F r (p, d.2)) /\
  has_flag (flags (hdr p)) SHAM_FIN = false.
Proof.
  intros Hs [Hh Ht].
  assert (genuine F r d -> genuine F r (p, d.2) /\ flags (hdr p) = 0) as Hg.
  { intros (k & Hk & Hr & Hq & Hf & Hn & Hd). split; [|by rewrite Hh].
    exists k. cbn [fst snd]. rewrite Hh. split_and!; auto.
    rewrite Hn in Ht. replace (Z.to_nat _) with (length (segment F k)) in Ht by lia.
    by rewrite Ht. }
  destruct Hs as [H|[Hf Hst]].
  - destruct (Hg H) as [H1 ->]. split; [by left|done].
  - split; [right; split; cbn [fst snd]; by rewrite Hh|]. split; [by apply Hg|]. by rewrite Hh.
Qed.

(** The server's side of a step. *)
Lemma server_step r m sv d p junk sv' ack :
  server_at F r m sv -> sent r d -> received d p -> server_recv junk false p d.2 sv = Ret (SAcked sv' ack) ->
  exists m', (m <= m')%nat /\ server_at F r m' sv' /\ honest m' ack.
Proof.
  intros Hs Hd Hrec Hsr. destruct (sent_received r d p Hd Hrec) as (Hg & _ & Hf).
  unfold server_recv in Hsr. rewrite Hf in Hsr. simpl in Hsr.
  destruct (server_accept_inv F HF r m p d.2 sv Hs Hg) as (sv1 & m1 & Hacc & Hs1 & Hm1 & _ & _).
  rewrite Hacc in Hsr. simpl in Hsr. simplify_eq. exists m1. split; [done|]. split; [done|].
  exists m1. split_and!; [apply Hs1|done|]. simpl. by apply (at_expected _ _ _ _ Hs1).
Qed.

(** The client's side. *)
Lemma client_step r c sent_at now later o c' out :
  client_sent F r c -> client_iter sent_at now later o c = (c', out) ->
  exists r' c1 c2 o1 o2, (r <= r')%nat /\ out = o1 ++ o2 /\ Forall (genuine F r') o1 /\ Forall (genuine F r') o2 /\
    client_sent F r' c1 /\ acked c1 = acked c /\ fill_guard c1 = false /\
    (forall b, client_at F r b c -> client_at F r' b c1) /\ c2 = client_recv_ack o c1 /\
    client_sent F r' c' /\ base c' = base c2 /\ file_read_complete c' = file_read_complete c2 /\ (forall b, client_at F r' b c2 -> client_at F r' b c').
Proof.
  intros Hc Hit. unfold client_iter in Hit.
  destruct (client_fill (fill_fuel c) sent_at c) as [c1 out1] eqn:Hfill.
  destruct (client_sweep now later (client_recv_ack o c1)) as [c3 out3] eqn:Hsw. simplify_eq.
  destruct (client_fill_sent F HF (fill_fuel c) sent_at r c c1 out1) as (r' & Hr' & Hc1 & Ho1 & Ha1 & Hg1 & Hat1);
    [done|unfold fill_needed, fill_fuel; destruct (file_read_complete c); lia|done|].
  pose proof (client_recv_ack_sent F r' c1 o Hc1) as Hc2.
  destruct (client_sweep_sent F r' _ _ _ _ _ Hc2 Hsw) as (Hc3 & Ho3 & Hb3 & Hat3).
  exists r', c1, (client_recv_ack o c1), out1, out3. split_and!; try done.
  unfold client_sweep in Hsw. destruct (sweep _ _ _ _ _). by injection Hsw as <- _.
Qed.

Lemma sys_init_inv dn an :
  Forall leftover_data dn -> Forall leftover_ack an -> sys_inv (sys_init F dn an).
Proof.
  intros Hd Ha. split. exists 0%nat, 0%nat. split_and!.
  - apply client_init_at.
  - apply server_at_init.
  - eapply Forall_impl; [exact Hd|]. intros d H. right. by apply leftover_stray.
  - eapply Forall_impl; [exact Ha|]. intros h H. by right.
  - right. exists 0%nat. by split.
Qed.

Lemma sys_init_quiet dn an :
  Forall leftover_data dn -> Forall leftover_ack an -> Forall (fun h => has_flag (flags h) SHAM_SYN = false) an ->
  sys_quiet (sys_init F dn an).
Proof.
  intros Hd Ha Hn. split. exists 0%nat, 0%nat, 0%nat. split_and!.
  - apply client_init_at.
  - done.
  - apply server_at_init.
  - eapply Forall_impl; [exact Hd|]. intros d H. right. by apply leftover_stray.
  - apply Forall_forall. intros h Hh. right. rewrite Forall_forall in Ha, Hn.
    destruct (leftover_ack_num h (Ha h Hh)) as [[_ E]|]; [|done]. by rewrite (Hn h Hh) in E.
Qed.

Lemma sys_step_inv s s' : sys_inv s -> sys_step s s' -> sys_inv s'.
Proof.
  intros [(r & m & Hc & Hs & Hd & Ha & Hb)] Hstep.
  destruct Hstep as [c sv dn an o sent_at now later c' out _ Ho Hit
                    |c sv dn an d p junk sv' ack Hin Hrec Hsr|]; simpl in *; [| |by split; eauto 12].
  - destruct (client_step r c _ _ _ _ _ _ Hc Hit) as
      (r' & c1 & c2 & o1 & o2 & Hr & -> & Ho1 & Ho2 & _ & Ha1 & _ & _ & -> & Hc' & Hb' & _ & _).
    split. exists r', m. split_and!; [done|by eapply server_at_mono|by eapply data_grows|done|].
    cbn [s_client]. rewrite Hb'. injection Ha1 as Hb1 _ _. rewrite <- Hb1 in Hb.
    destruct o as [[p n]|]; [|done]. simpl. case_ifs; try done. cbn [base].
    rewrite Forall_forall in Ha. destruct (Ha _ (Ho p n eq_refl)) as [(m' & _ & Hm' & E)|H].
    + right. by exists m'.
    + destruct (leftover_ack_num _ H) as [[E _]|E]; [by left|]. right. exists 0%nat. split; [lia|done].
  - rewrite Forall_forall in Hd. destruct (server_step r m sv d p junk sv' ack Hs (Hd _ Hin) Hrec Hsr) as (m1 & Hm1 & Hs1 & Hk).
    split. exists r, m1. split_and!; [done|done|by apply Forall_forall| |].
    + constructor; [by left|]. eapply Forall_impl; [exact Ha|]. intros h [H|H]; [left|by right]. by eapply honest_mono.
    + destruct Hb as [|(b & Hb & E)]; [by left|]. right. exists b. split; [lia|done].
Qed.

Lemma sys_step_quiet s s' : sys_quiet s -> sys_step s s' -> sys_quiet s'.
Proof.
  intros [(r & b & m & Hc & Hbm & Hs & Hd & Ha)] Hstep.
  destruct Hstep as [c sv dn an o sent_at now later c' out _ Ho Hit
                    |c sv dn an d p junk sv' ack Hin Hrec Hsr|]; simpl in *; [| |by split; eauto 12].
  - destruct (client_step r c _ _ _ _ _ _ (cl_sent _ _ _ _ Hc) Hit) as
      (r' & c1 & c2 & o1 & o2 & Hr & -> & Ho1 & Ho2 & _ & _ & _ & Hat & -> & Hc' & _ & _ & Hat').
    destruct (client_recv_ack_at F r' b m c1 o (Hat b Hc)) as (b' & Hb' & Hc2).
    { destruct Hs. lia. }
    { intros p n Hp. rewrite Forall_forall in Ha. destruct (Ha _ (Ho p n Hp)) as [H|]; [left|by right]. done. }
    split. exists r', b', m. split_and!; [by apply Hat'|lia|by eapply server_at_mono|by eapply data_grows|done].
  - rewrite Forall_forall in Hd. destruct (server_step r m sv d p junk sv' ack Hs (Hd _ Hin) Hrec Hsr) as (m1 & Hm1 & Hs1 & Hk).
    split. exists r, b, m1. split_and!; [done|lia|done|by apply Forall_forall|].
    constructor; [by left|]. eapply Forall_impl; [exact Ha|]. intros h [H|H]; [left|by right]. by eapply honest_mono.
Qed.

Lemma reachable_inv dn an s :
  Forall leftover_data dn -> Forall leftover_ack an -> rtc sys_step (sys_init F dn an) s -> sys_inv s.
Proof. intros Hd Ha H. eapply rtc_invariant; [exact sys_step_inv|exact H|by apply sys_init_inv]. Qed.

Lemma reachable_quiet dn an s :
  Forall leftover_data dn -> Forall leftover_ack an -> Forall (fun h => has_flag (flags h) SHAM_SYN = false) an ->
  rtc sys_step (sys_init F dn an) s -> sys_quiet s.
Proof. intros Hd Ha Hn H. eapply rtc_invariant; [exact sys_step_quiet|exact H|by apply sys_init_quiet]. Qed.

Lemma client_done_sent r c :
  client_sent F r c -> client_running c = false -> r = length F /\ 1 + Z.of_nat (length F) <= base c.
Proof.
  intros [] Hrun. unfold client_running in Hrun. apply orb_false_iff in Hrun as [Hcp Hb].
  apply negb_false_iff in Hcp. specialize (cl_complete Hcp). apply Z.ltb_ge in Hb. split; [done|]. lia.
Qed.

(** ** The receiver is total on what the client sends *)

Lemma reachable_accepts s d p :
  sys_inv s -> d ∈ s_data s -> received d p ->
  exists sv', server_accept p d.2 (s_server s) = Ret sv'.
Proof.
  intros [(r & m & Hc & Hs & Hd & Ha & _)] Hin Hrec.
  rewrite Forall_forall in Hd. destruct (sent_received r d p (Hd _ Hin) Hrec) as [Hg _].
  destruct (server_accept_inv F HF r m p d.2 _ Hs Hg) as (sv1 & m1 & Hacc & _). eauto.
Qed.
End guarantees.

(** Delivering the datagrams with the given indices, one after the other,
    none of them dropped. *)
Fixpoint deliver (junk : header) (dn : list datagram) (ids : list nat)
    (st : server * list header) : option (server * list header) :=
  match ids with
  | [] => Some st
  | i :: ids' =>
      match dn !! i with
      | Some d =>
          match server_recv junk false d.1 d.2 st.1 with
          | Ret (SAcked sv' ack) => deliver junk dn ids' (sv', ack :: st.2)
          | _ => None
          end
      | None => None
      end
  end.

Lemma deliver_rtc junk c dn ids sv an sv' an' :
  deliver junk dn ids (sv, an) = Some (sv', an') ->
  rtc sys_step (mk_sys c sv dn an) (mk_sys c sv' dn an').
Proof.
  revert sv an. induction ids as [|i ids IH]; intros sv an H; simpl in H; simplify_eq; [done|].
  destruct (dn !! i) as [d|] eqn:Hi; [|done].
  destruct (server_recv junk false d.1 d.2 sv) as [[| |sv1 ack]| |] eqn:Hr; try done.
  eapply rtc_l; [|by apply IH].
  eapply step_server_ack; [by eapply list_elem_of_lookup_2|by split|exact Hr].
Qed.

(** One pass of the client's loop, which reads acknowledgment [r] if any,
    followed by the deliveries [ids]. *)
Definition run_round (r : option nat) (ids : list nat) (s : sys) : option sys :=
  let recv := match r with
              | Some i => (fun h => (mk_packet h [], HEADER_SIZE)) <$> s_acks s !! i
              | None => None
              end in
  if client_running (s_client s) then
    let '(c', out) := client_iter (fun _ => mk_timeval 0 0) (mk_timeval 0 0) (fun _ => mk_timeval 0 0)
                        recv (s_client s) in
    match deliver zero_header (s_data s ++ out) ids (s_server s, s_acks s) with
    | Some (sv', an') => Some (mk_sys c' sv' (s_data s ++ out) an')
    | None => None
    end
  else None.

Lemma run_round_rtc r ids s s' : run_round r ids s = Some s' -> rtc sys_step s s'.
Proof.
  destruct s as [c sv dn an]. unfold run_round. simpl. intros H.
  destruct (client_running c) eqn:Hrun; [|done].
  destruct (client_iter _ _ _ _ c) as [c' out] eqn:Hit.
  destruct (deliver _ _ _ _) as [[sv' an']|] eqn:Hd; simplify_eq.
  eapply rtc_l; [|by eapply deliver_rtc].
  eapply step_client; [done| |exact Hit].
  intros p n Hp. destruct r as [i|]; [|done].
  destruct (an !! i) as [h|] eqn:Hi; simplify_eq/=. by eapply list_elem_of_lookup_2.
Qed.

Fixpoint run_rounds (prog : list (option nat * list nat)) (s : sys) : option sys :=
  match prog with
  | [] => Some s
  | (r, ids) :: prog' =>
      match run_round r ids s with Some s' => run_rounds prog' s' | None => None end
  end.

Lemma run_rounds_rtc prog s s' : run_rounds prog s = Some s' -> rtc sys_step s s'.
Proof.
  revert s. induction prog as [|[r ids] prog IH]; intros s H; simpl in H; simplify_eq; [done|].
  destruct (run_round r ids s) as [s1|] eqn:H1; [|done].
  etrans; [by eapply run_round_rtc|by apply IH].
Qed.

(** Evaluate a boolean test of the state a program of rounds ends in. *)
Lemma run_rounds_test prog F dn an (test : sys -> bool) :
  match run_rounds prog (sys_init F dn an) with Some s => test s | None => false end = true ->
  exists s, rtc sys_step (sys_init F dn an) s /\ test s = true.
Proof.
  destruct (run_rounds prog (sys_init F dn an)) as [s|] eqn:H; [|done].
  intros Ht. exists s. split; [by eapply run_rounds_rtc|done].
Qed.

(** (C1) Safety of the transfer: whatever the network loses, duplicates or
    reorders, whatever datagrams of the setup arrive again, and whatever the loss
    simulation drops, the server's output file is at every moment a prefix of the
    sent file, and the acknowledgment number is one more than the number of bytes
    written. *)
Theorem sham_output_is_prefix (F : list Z) (dn : list datagram) (an : list header) (s : sys) :
  Z.of_nat (length F) + 10241 < 2 ^ 32 ->
  Forall leftover_data dn -> Forall leftover_ack an ->
  rtc sys_step (sys_init F dn an) s ->
  output_file (s_server s) `prefix_of` F /\
  expected_seq_num (s_server s) = 1 + Z.of_nat (length (output_file (s_server s))).
Proof.
  intros HF Hd Ha Hs. destruct (reachable_inv F HF dn an s Hd Ha Hs) as [(r & m & _ & Hsv & _)].
  destruct Hsv as [[Hm _] _ -> -> _]. split.
  - exists (drop m F). by rewrite take_drop.
  - rewrite length_take. lia.
Qed.

(** The datagrams of a setup, all of them left in the network. *)
Definition dup_data : list datagram :=
  [(mk_packet (syn_packet zero_header) [], HEADER_SIZE);
   (mk_packet (fst (filename_packet zero_header [111; 117; 116])) [111; 117; 116; 0], HEADER_SIZE + 4)].
Definition synack : header := mk_header 5000 1001 3 0.
Definition dup_acks : list header := [filename_ack zero_header].

Lemma dup_data_left : Forall leftover_data dup_data.
Proof.
  apply Forall_cons. split; [by eapply left_syn|]. apply Forall_cons. split; [|by apply Forall_nil].
  by apply (left_filename zero_header [111; 117; 116]).
Qed.

Lemma synack_left : Forall leftover_ack (synack :: dup_acks).
Proof.
  apply Forall_cons. split; [by apply (left_synack zero_header zero_header)|].
  apply Forall_cons. split; [apply left_filename_ack|by apply Forall_nil].
Qed.

Lemma dup_acks_left : Forall leftover_ack dup_acks.
Proof. apply Forall_cons. split; [apply left_filename_ack|by apply Forall_nil]. Qed.

Lemma dup_acks_quiet : Forall (fun h => has_flag (flags h) SHAM_SYN = false) dup_acks.
Proof. by repeat constructor. Qed.

Lemma sham_output_is_prefix_witness :
  exists s, rtc sys_step (sys_init [10; 20; 30] dup_data (synack :: dup_acks)) s /\
    (length (output_file (s_server s)) =? 3)%nat = true /\
    output_file (s_server s) `prefix_of` [10; 20; 30].
Proof.
  destruct (run_rounds_test [(None, [0; 1; 2; 2]%nat)] [10; 20; 30] dup_data (synack :: dup_acks)
              (fun s => (length (output_file (s_server s)) =? 3)%nat)) as (s & Hr & Ht);
    [vm_compute; reflexivity|].
  exists s. split; [exact Hr|]. split; [exact Ht|].
  apply (sham_output_is_prefix [10; 20; 30] dup_data (synack :: dup_acks) s);
    [vm_compute; reflexivity|apply dup_data_left|apply synack_left|exact Hr].
Defined.

(** (C2) Completeness of the transfer: when the client leaves its send loop
    (and goes on to send its FIN), the server has written the whole file,
    whatever the network does, if the file has more than 1000 bytes or no duplicate
    of the handshake's SYN-ACK is left in the network (see
    [sham_stale_synack_ends_transfer] for what it does to a shorter file). *)
Theorem sham_transfer_complete (F : list Z) (dn : list datagram) (an : list header) (s : sys) :
  Z.of_nat (length F) + 10241 < 2 ^ 32 ->
  Forall leftover_data dn -> Forall leftover_ack an ->
  (1000 < length F)%nat \/ Forall (fun h => has_flag (flags h) SHAM_SYN = false) an ->
  rtc sys_step (sys_init F dn an) s ->
  client_running (s_client s) = false ->
  output_file (s_server s) = F.
Proof.
  intros HF Hd Ha Hcase Hs Hrun.
  assert (exists r b m, server_at F r m (s_server s) /\ (b <= m)%nat /\ (length F <= b)%nat)
    as (r & b & m & [[Hm _] _ -> _ _] & Hbm & Hb); [|by rewrite take_ge by lia].
  destruct Hcase as [Hlong|Hquiet].
  - destruct (reachable_inv F HF dn an s Hd Ha Hs) as [(r & m & Hc & Hsv & _ & _ & Hb)].
    destruct (client_done_sent F r _ Hc Hrun) as [_ Hbase].
    destruct Hb as [Hb|(b & Hbm & Hb)]; [lia|]. exists r, b, m. split_and!; [done|done|lia].
  - destruct (reachable_quiet F HF dn an s Hd Ha Hquiet Hs) as [(r & b & m & Hc & Hbm & Hsv & _)].
    destruct (client_done_sent F r _ (cl_sent _ _ _ _ Hc) Hrun) as [_ Hbase].
    pose proof (cl_base _ _ _ _ Hc). exists r, b, m. split_and!; [done|done|lia].
Qed.

Lemma sham_transfer_complete_witness :
  exists s, rtc sys_step (sys_init [10; 20; 30] dup_data dup_acks) s /\ output_file (s_server s) = [10; 20; 30].
Proof.
  destruct (run_rounds_test [(None, [0; 2]%nat); (Some 0%nat, [])] [10; 20; 30] dup_data dup_acks
              (fun s => negb (client_running (s_client s)))) as (s & Hr & Ht);
    [vm_compute; reflexivity|].
  exists s. split; [exact Hr|].
  apply (sham_transfer_complete [10; 20; 30] dup_data dup_acks s);
    [vm_compute; reflexivity|apply dup_data_left|apply dup_acks_left|right; apply dup_acks_quiet|exact Hr|].
  apply negb_true_iff. exact Ht.
Defined.

(** (C5) Recoverability: while some sent byte is unacknowledged, the window
    still holds the segment that starts at [base], the sweep sends it again
    once it is older than the timeout, and its arrival at a server that waits
    for it strictly advances the server; provided no duplicate of the handshake's
    SYN-ACK is left in the network. *)
Theorem sham_oldest_segment_recoverable (F : list Z) (dn : list datagram) (an : list header) (s : sys) :
  Z.of_nat (length F) + 10241 < 2 ^ 32 ->
  Forall leftover_data dn -> Forall leftover_ack an -> Forall (fun h => has_flag (flags h) SHAM_SYN = false) an ->
  rtc sys_step (sys_init F dn an) s ->
  base (s_client s) < next_seq_num (s_client s) ->
  exists i slot,
    window_buffer (s_client s) !! i = Some slot /\
    seq_num (hdr (pkt slot)) = base (s_client s) /\
    (forall now later, TIMEOUT_MS < elapsed_ms now (time_sent slot) ->
       (pkt slot, packet_size slot) ∈ (client_sweep now later (s_client s)).2) /\
    (expected_seq_num (s_server s) = base (s_client s) ->
     forall p, received (pkt slot, packet_size slot) p ->
       exists sv', server_accept p (packet_size slot) (s_server s) = Ret sv' /\
         expected_seq_num (s_server s) < expected_seq_num sv').
Proof.
  intros HF Hd Ha Hquiet Hs Hlt. destruct (reachable_quiet F HF dn an s Hd Ha Hquiet Hs) as [(r & b & m & Hc & Hbm & Hsv & _)].
  destruct Hc as [[Hbr _ Hnx _ _ Hge] Hbb Hba Hle Hre].
  assert (b < r)%nat as Hbr' by lia.
  destruct (boundary_open F b Hbb) as [k ->]; [destruct Hbr; lia|].
  destruct (Hre k ltac:(lia) Hbr') as (slot & Hslot & Hv & Hseq).
  exists (k mod 10)%nat, slot. split; [done|]. split; [lia|]. split.
  - intros now later Hold. unfold client_sweep.
    pose proof (sweep_out (base (s_client s)) now later 0 (window_buffer (s_client s))
                  (pkt slot, packet_size slot)) as Hout.
    destruct (sweep _ _ _ _ _) as [wb o]. simpl in *. apply Hout.
    exists (k mod 10)%nat, slot. split; [done|].
    assert ((seq_num (hdr (pkt slot)) <? base (s_client s)) = false) as Hge1 by lia.
    assert ((base (s_client s) <=? seq_num (hdr (pkt slot))) = true) as Hge2 by lia.
    unfold sweep_slot. rewrite Hv, Hge1. simpl. rewrite Hv, Hge2.
    apply Z.ltb_lt in Hold. rewrite Hold. by apply list_elem_of_singleton.
  - intros Hexp p Hrec. pose proof (Hge _ _ Hslot Hv) as Hgen.
    destruct (sent_received F r (pkt slot, packet_size slot) p) as (_ & Hg & _); [by left|done|].
    specialize (Hg Hgen).
    destruct (server_accept_inv F HF r m p _ _ Hsv (or_introl Hg)) as (sv' & m' & Hacc & Hat & _ & Hadv & _).
    exists sv'. split; [exact Hacc|].
    rewrite (at_expected _ _ _ _ Hsv), (at_expected _ _ _ _ Hat).
    destruct Hrec as [Hh _]. cbn [fst] in Hh. rewrite Hh in Hadv.
    specialize (Hadv Hg ltac:(lia)). lia.
Qed.

Lemma sham_oldest_segment_recoverable_witness :
  exists s, rtc sys_step (sys_init [10; 20; 30] dup_data dup_acks) s /\
    exists i slot, window_buffer (s_client s) !! i = Some slot.
Proof.
  destruct (run_rounds_test [(None, [])] [10; 20; 30] dup_data dup_acks
              (fun s => base (s_client s) <? next_seq_num (s_client s))) as (s & Hr & Ht);
    [vm_compute; reflexivity|].
  exists s. split; [exact Hr|].
  destruct (sham_oldest_segment_recoverable [10; 20; 30] dup_data dup_acks s) as (i & slot & Hi & _);
    [vm_compute; reflexivity|apply dup_data_left|apply dup_acks_left|apply dup_acks_quiet|exact Hr|apply Z.ltb_lt; exact Ht|].
  exists i, slot. exact Hi.
Defined.

(** A duplicate of the SYN-ACK that arrives in the data phase is an
    acknowledgment of 1000 bytes to the client: a file of at most 1000 bytes is sent
    once, the client leaves its loop at once, and nothing need have been written. *)
Theorem sham_stale_synack_ends_transfer (F : list Z) (j0 j h : header) :
  (length F <= 1000)%nat -> server_on_syn j (syn_packet j0) = Some h ->
  exists s, rtc sys_step (sys_init F [] [h]) s /\
    client_running (s_client s) = false /\ output_file (s_server s) = [].
Proof.
  intros HF Hh. assert (leftover_ack h) as Hl by (by apply (left_synack j0 j)).
  assert (Z.of_nat (length F) + 10241 < 2 ^ 32) as HF' by lia.
  set (o := Some (mk_packet h [], HEADER_SIZE)). set (t0 := mk_timeval 0 0).
  destruct (client_iter (fun _ => t0) t0 (fun _ => t0) o (client_init F)) as [c' out] eqn:Hit.
  exists (mk_sys c' server_init ([] ++ out) [h]). split; [|split; [|done]].
  - apply rtc_once. eapply step_client; [done| |exact Hit]. intros p n [= <- <-]. by left.
  - destruct (client_step F HF' 0 (client_init F) _ _ _ _ _ _ (cl_sent _ _ _ _ (client_init_at F)) Hit) as
      (r & c1 & c2 & o1 & o2 & _ & _ & _ & _ & Hc1 & Ha1 & Hg1 & _ & -> & Hc' & Hb' & Hf' & _).
    destruct (cl_boundary _ _ _ Hc1) as [Hr _]. injection Ha1 as Hb1 Hw1 Hl1.
    assert (file_read_complete c1 = true) as Hdone.
    { unfold fill_guard in Hg1. rewrite Hb1, Hw1, (cl_next _ _ _ Hc1) in Hg1. cbn [base server_window client_init] in Hg1.
      rewrite !wrapu_small in Hg1 by (unfold CONGESTION_WINDOW_SIZE, SHAM_DATA_SIZE; lia).
      rewrite (proj2 (Z.ltb_lt _ _)), (proj2 (Z.ltb_lt _ _)) in Hg1 by (unfold CONGESTION_WINDOW_SIZE, SHAM_DATA_SIZE; lia).
      by destruct (file_read_complete c1). }
    assert (client_recv_ack o c1 = {| c1 with base := 1001; server_window := window_size h; last_acked := 1001 |}) as E.
    { unfold server_on_syn in Hh. injection Hh as <-. cbn -[Z.ltb]. rewrite Hb1, Hl1. done. }
    cbn [s_client]. unfold client_running. rewrite Hb', Hf', E, (cl_next _ _ _ Hc'). cbn. rewrite Hdone. apply Z.ltb_ge. lia.
Qed.

(** ** The leaking window

    [bytes_in_buffer] grows with every out-of-order datagram, also a
    duplicate or one that is discarded because the buffer is full, but only
    shrinks when a buffered copy is written out. *)

(** Once everything sent is acknowledged and the advertised window is zero,
    nothing a client or server step does can change that. *)
Definition window_closed (s : sys) : Prop :=
  base (s_client s) = next_seq_num (s_client s) /\ server_window (s_client s) = 0 /\
  file_read_complete (s_client s) = false.

Lemma client_fill_closed now c fuel :
  0 <= server_window c -> base c = next_seq_num c -> server_window c = 0 ->
  client_fill fuel now c = (c, []).
Proof.
  intros _ Hb Hw. destruct fuel as [|fuel]; [done|]. simpl.
  unfold fill_guard. rewrite Hb, Hw, Z.sub_diag. simpl. by rewrite andb_false_r.
Qed.

Lemma window_closed_step F s s' :
  Z.of_nat (length F) + 10241 < 2 ^ 32 -> sys_quiet F s -> window_closed s ->
  sys_step s s' -> window_closed s' /\ output_file (s_server s') = output_file (s_server s).
Proof.
  intros HF Hinv (Hb & Hw & Hc) Hstep.
  pose proof (sys_step_quiet F HF _ _ Hinv Hstep) as [(r' & b' & m' & Hcl' & Hbm' & Hsv' & _ & _)].
  destruct Hinv as [(r & b & m & Hcl & Hbm & Hsv & _ & Ha)].
  assert (b = r /\ m = r) as [-> ->].
  { destruct Hcl as [[] ? ? ? ?], Hsv. lia. }
  assert (output_file (s_server s) = take r F) as Ho by apply Hsv.
  destruct Hstep as [c sv dn an o sent_at now later c' out Hrun Hrecv Hit
                    |c sv dn an d p junk sv' ack Hin Hrec Hsr|]; simpl in *; [| |done].
  - unfold client_iter in Hit. rewrite (client_fill_closed sent_at c) in Hit by lia.
    assert (client_recv_ack o c = c) as Hsame.
    { destruct o as [[p n]|]; [|done]. simpl. case_ifs; try done. exfalso.
      specialize (Hrecv p n eq_refl). rewrite Forall_forall in Ha.
      to_prop. destruct Hcl as [Hcs ? ? ? ?]. destruct Hcs.
      destruct (Ha _ Hrecv) as [(m1 & _ & Hm1 & Hack)|]; lia. }
    rewrite Hsame in Hit. unfold client_sweep in Hit. destruct (sweep _ _ _ _ _). simplify_eq.
    split; [|done]. by split.
  - split; [by split|]. rewrite Ho, (at_output _ _ _ _ Hsv').
    assert (m' = r) as ->; [|done]. destruct Hcl as [[] ? ? ? ?], Hcl' as [[] ? ? ? ?], Hsv'. lia.
Qed.

(** The window leak can end the transfer: from a reachable state in which
    all sent bytes are acknowledged, input is left, and the last acknowledgment
    advertised a zero window, every continuation leaves the client in its loop
    and the output file as it is: the transfer never completes. *)
Theorem sham_zero_window_livelock (F : list Z) (s s' : sys) :
  Z.of_nat (length F) + 10241 < 2 ^ 32 ->
  rtc sys_step (sys_init F [] []) s ->
  base (s_client s) = next_seq_num (s_client s) ->
  server_window (s_client s) = 0 ->
  file_read_complete (s_client s) = false ->
  rtc sys_step s s' ->
  client_running (s_client s') = true /\
  output_file (s_server s') = output_file (s_server s).
Proof.
  intros HF Hs Hb Hw Hc Hrun.
  assert (sys_quiet F s' /\ window_closed s' /\
          output_file (s_server s') = output_file (s_server s)) as (_ & (_ & _ & Hf) & Ho).
  { eapply (rtc_invariant sys_step (fun x => sys_quiet F x /\ window_closed x /\
      output_file (s_server x) = output_file (s_server s))); [|exact Hrun|].
    - intros x y (Hx & Hcx & Hox) Hxy.
      destruct (window_closed_step F x y HF Hx Hcx Hxy) as [Hcy Hoy].
      split; [by eapply sys_step_quiet|]. split; [done|congruence].
    - split; [by eapply reachable_quiet|]. split; [by split|done]. }
  split; [|done]. unfold client_running. by rewrite Hf.
Qed.

(** An 11-segment file: the client sends ten segments, twenty-one copies of
    the second one arrive first (twenty of them are never written), then the
    others: all is acknowledged and the advertised window is zero. *)
Definition leak_file : list Z := replicate (Z.to_nat 11264) 7.
Definition leak_deliveries : list nat := replicate 21 1%nat ++ [0; 2; 3; 4; 5; 6; 7; 8; 9]%nat.

Lemma sham_zero_window_livelock_witness :
  exists s, rtc sys_step (sys_init leak_file [] []) s /\
    (Z.of_nat (length (output_file (s_server s))) =? 10240) = true /\
    forall s', rtc sys_step s s' -> client_running (s_client s') = true.
Proof.
  destruct (run_rounds_test [(None, leak_deliveries); (Some 0%nat, [])] leak_file [] []
    (fun s => (base (s_client s) =? next_seq_num (s_client s))
              && (server_window (s_client s) =? 0)
              && negb (file_read_complete (s_client s))
              && (Z.of_nat (length (output_file (s_server s))) =? 10240)))
    as (s & Hr & (((Hb & Hw)%andb_true_iff & Hc)%andb_true_iff & Hl)%andb_true_iff);
    [vm_compute; reflexivity|].
  exists s. split; [exact Hr|]. split; [exact Hl|]. intros s' Hs'.
  apply (sham_zero_window_livelock leak_file s s').
  - vm_compute. reflexivity.
  - exact Hr.
  - apply Z.eqb_eq. exact Hb.
  - apply Z.eqb_eq. exact Hw.
  - apply negb_true_iff. exact Hc.
  - exact Hs'.
Defined.

(** ** Setup, teardown, checksum *)

Lemma has_flag_self f : f <> 0 -> has_flag f f = true.
Proof. intros Hf. unfold has_flag. rewrite Z.land_diag. apply negb_true_iff. lia. Qed.

(** The handshake of an undisturbed connection succeeds on both sides,
    whatever the uninitialised header fields hold, and after the teardown the
    client's final ACK is the one the server waits for, whether or not the
    client saw the server's FIN in its ten polls. *)
Theorem sham_setup_and_teardown_agree (j0 j1 j2 j3 j4 : header) (polls : list (option header)) :
  Forall (fun o => o = None \/ o = Some (server_fin j3) \/
                   exists j n, o = Some (server_ack_of_fin j n)) polls ->
  (exists sa a, server_on_syn j1 (syn_packet j0) = Some sa /\
     client_on_synack j2 (syn_packet j0) sa = Some a /\ server_on_ack a = true) /\
  server_accepts_final (server_fin j3)
    (client_final_ack j4 (poll_for SHAM_FIN 10 polls)) = true.
Proof.
  intros Hp. split.
  - eexists _, _. split; [reflexivity|]. split; reflexivity.
  - generalize 10%nat. induction Hp as [|o polls [->|[->|(j & n & ->)]] _ IH];
      intros [|tries]; try reflexivity; simpl; apply IH.
Qed.

Lemma sham_setup_and_teardown_agree_witness :
  server_accepts_final (server_fin zero_header)
    (client_final_ack zero_header
       (poll_for SHAM_FIN 10 [None; Some (server_ack_of_fin zero_header 5); Some (server_fin zero_header)]))
  = true.
Proof.
  apply (sham_setup_and_teardown_agree zero_header zero_header zero_header zero_header zero_header).
  apply Forall_cons. split; [left; reflexivity|].
  apply Forall_cons. split; [right; right; exists zero_header, 5; reflexivity|].
  apply Forall_cons. split; [right; left; reflexivity|apply Forall_nil; exact I].
Defined.

Lemma checksum_step_poly h c : checksum_step h c = u64 (33 * h + c).
Proof.
  unfold checksum_step, wrapu. rewrite Z.shiftl_mul_pow2 by lia.
  rewrite Z.add_mod_idemp_l by lia. f_equal. lia.
Qed.

(** Horner evaluation at 33, without the wrap. *)
Definition poly33 (file : list Z) : Z := fold_left (fun h c => 33 * h + c) file 0.

Lemma checksum_poly_acc file a b :
  u64 a = u64 b -> u64 (fold_left checksum_step file a) = u64 (fold_left (fun h c => 33 * h + c) file b).
Proof.
  revert a b. induction file as [|c file IH]; intros a b Hab; simpl; [done|].
  apply IH. rewrite checksum_step_poly, wrapu_wrapu by lia. unfold wrapu in *.
  rewrite <- Z.add_mod_idemp_l, <- Z.mul_mod_idemp_r, Hab, Z.mul_mod_idemp_r, Z.add_mod_idemp_l by lia.
  done.
Qed.

Lemma checksum_range file : 0 <= calculate_file_checksum file < 2 ^ 64.
Proof.
  unfold calculate_file_checksum.
  assert (forall a, 0 <= a < 2 ^ 64 -> 0 <= fold_left checksum_step file a < 2 ^ 64) as H; [|by apply H].
  induction file as [|c file IH]; intros a Ha; simpl; [done|]. apply IH.
  apply wrapu_range. lia.
Qed.

Lemma checksum_is_poly33 file : calculate_file_checksum file = u64 (poly33 file).
Proof.
  rewrite <- (wrapu_small 64 (calculate_file_checksum file)) by apply checksum_range.
  by apply checksum_poly_acc.
Qed.

(** The nine-byte checksum buffer of both programs is too small: for every
    seven-byte file of bytes from 4 to 255 (any seven-character text) the
    hexadecimal checksum and its terminator take more than nine bytes. *)
Theorem sham_checksum_overflows_buffer (file : list Z) :
  length file = 7%nat -> Forall (fun c => 4 <= c < 256) file ->
  CHECKSUM_BUF < sprintf_08lx_size (calculate_file_checksum file).
Proof.
  intros Hlen Hb.
  assert (2 ^ 32 <= calculate_file_checksum file) as Hbig.
  { rewrite checksum_is_poly33.
    destruct file as [|a [|b [|c [|d [|e [|f [|g [|? ?]]]]]]]]; try discriminate Hlen.
    repeat match goal with H : Forall _ (_ :: _) |- _ => apply Forall_cons in H as [? H] end.
    unfold poly33. cbn [fold_left]. rewrite wrapu_small; lia. }
  unfold sprintf_08lx_size, hex_digits, CHECKSUM_BUF.
  destruct (Z.eqb_spec (calculate_file_checksum file) 0); [lia|].
  assert (32 <= Z.log2 (calculate_file_checksum file)) as Hlog by (apply Z.log2_le_pow2; lia).
  assert (8 <= Z.log2 (calculate_file_checksum file) / 4) by (apply Z.div_le_lower_bound; lia).
  lia.
Qed.

Lemma sham_checksum_overflows_buffer_witness :
  CHECKSUM_BUF < sprintf_08lx_size (calculate_file_checksum [97; 97; 97; 97; 97; 97; 10]).
Proof.
  apply sham_checksum_overflows_buffer; [reflexivity|]. repeat constructor; vm_compute; discriminate.
Defined.
