(* ===== verification/Chat.v ===== *)
(** * The S.H.A.M. transport: command lines and the chat mode (reliable-transport-protocol/)

    The two [main] functions up to the choice of mode, and their chat loops.  C
    strings are lists of bytes without the NUL.  What select, fgets, recvfrom and
    atof give, and the outcome of the loss simulation, are arguments. *)
From S2P Require Import Prelude Sham.
Import Sham.

#[local] Open Scope Z_scope.

Module Chat.

(** ** Command lines *)

Definition str (s : string) : list Z := (fun a => Z.of_nat (Ascii.nat_of_ascii a)) <$> String.list_ascii_of_string s.

Definition is_chat_mode (s : list Z) : bool := bool_decide (s = str "--chat").

(** [strncmp(s, t, strlen(t)) == 0] *)
Definition has_prefix (t s : list Z) : bool := bool_decide (take (length t) s = t).

Definition is_verbose (s : list Z) : bool := has_prefix (str "--verbose") s || has_prefix (str "-v") s.

Section Arguments.
Context {F : Type} (atof : list Z -> F) (lt0 gt1 : F -> bool) (f0 f1 : F).

Definition parse_loss_rate (s : list Z) : F :=
  let r := atof s in
  let r := if lt0 r then f0 else r in
  if gt1 r then f1 else r.

Record options := mk_options { verbose : bool; loss_rate : F }.

(** The loops over the optional arguments. *)
Fixpoint parse_options (args : list (list Z)) (o : options) : options :=
  match args with
  | [] => o
  | a :: args =>
      parse_options args (if is_verbose a then {| o with verbose := true |} else {| o with loss_rate := parse_loss_rate a |})
  end.

Definition no_options : options := mk_options false f0.

Inductive mode := ChatMode (o : options) | FileMode (input output : list Z) (o : options).

(** [None]: the usage message and exit(1).  [argv] holds the program's name first. *)
Definition client_args (argv : list (list Z)) : option mode :=
  if (length argv <? 3)%nat then None
  else
    match drop 3 argv with
    | a :: rest =>
        if is_chat_mode a then Some (ChatMode (parse_options rest no_options))
        else match rest with
             | output :: rest => Some (FileMode a output (parse_options rest no_options))
             | [] => None
             end
    | [] => None
    end.

(** The server: whether it chats, and its options. *)
Definition server_args (argv : list (list Z)) : option (bool * options) :=
  if (length argv <? 2)%nat then None
  else
    match drop 2 argv with
    | a :: rest =>
        if is_chat_mode a then Some (true, parse_options rest no_options)
        else Some (false, parse_options (a :: rest) no_options)
    | [] => Some (false, no_options)
    end.

End Arguments.

(** ** The wait after the data phase (client.c 480-495)

    [rs]: what recvfrom gives, one per turn; the wait ends with the list. *)
Fixpoint final_wait (rs : list (option datagram)) (wait_count : Z) (c : client) : client :=
  if (base c <? next_seq_num c) && (wait_count <? 5000) then
    match rs with
    | [] => c
    | Some (p, ack_bytes) :: rs =>
        if (0 <? ack_bytes) && has_flag (flags (hdr p)) SHAM_ACK then
          final_wait rs wait_count (if base c <? ack_num (hdr p) then {| c with base := ack_num (hdr p) |} else c)
        else final_wait rs (wait_count + 1) c
    | None :: rs => final_wait rs (wait_count + 1) c
    end
  else c.

(** ** Messages *)

Definition CHAT_BUFFER_SIZE : Z := 1024.
Definition NL : Z := 10.

(** What fgets leaves in [chat_buffer], without the newline at its end. *)
Definition strip_newline (line : list Z) : list Z :=
  match last line with Some c => if c =? NL then take (length line - 1) line else line | None => line end.

(** A message: the header, the data after memset and strncpy, and the bytes sent. *)
Definition chat_packet (msg : list Z) : datagram :=
  let d := take 1023 msg in
  (mk_packet (mk_header 1 0 0 0) (d ++ replicate (1024 - length d) 0), HEADER_SIZE + Z.of_nat (length msg) + 1).

(** The string at the start of a buffer: [strlen], [printf("%s")]. *)
Fixpoint c_string (bytes : list Z) : list Z :=
  match bytes with [] => [] | c :: bytes => if c =? 0 then [] else c :: c_string bytes end.

(** [received_packet.data]: what arrived over what the stack held. *)
Definition received_data (stack : list Z) (dg : datagram) : list Z :=
  let n := Z.to_nat (snd dg - HEADER_SIZE) in take n (data (fst dg)) ++ drop n stack.

(** ** One turn of the loop *)

Inductive role := Client | Server.

(** What a turn does: the datagrams sent, the message printed, whether it was the last. *)
Record turn := mk_turn { sent : list datagram; printed : option (list Z); stop : bool }.

Definition nothing : turn := mk_turn [] None false.

(** Both descriptors are tested once each; [junk] is the stale header of the packets
    whose fields the code does not all set, [drop] what the loss simulation says. *)
Definition on_stdin (line : list Z) : turn :=
  let msg := strip_newline line in
  if bool_decide (msg = str "/quit") then mk_turn [] None true
  else mk_turn [chat_packet msg] None false.

Definition header_only (h : header) : datagram := (mk_packet h [], HEADER_SIZE).

Definition on_packet (me : role) (junk : header) (stack : list Z) (drop : bool) (dg : datagram) : turn :=
  let h := hdr (fst dg) in
  if negb (0 <? snd dg) then nothing
  else if (flags h =? 0) && drop then nothing
  else if flags h =? 0 then mk_turn [] (Some (c_string (received_data stack dg))) false
  else if has_flag (flags h) SHAM_FIN then
    match me with
    | Client => mk_turn [] None true
    | Server => mk_turn [header_only (server_ack_of_fin junk (seq_num h)); header_only (server_fin junk)] None true
    end
  else nothing.

Definition chat_turn (me : role) (junk : header) (stack : list Z) (stdin : option (list Z)) (sock : option (datagram * bool)) : turn :=
  let t1 := match stdin with Some line => on_stdin line | None => nothing end in
  if stop t1 then t1
  else
    let t2 := match sock with Some (dg, drop) => on_packet me junk stack drop dg | None => nothing end in
    mk_turn (sent t1 ++ sent t2) (printed t2) (stop t2).

(** After the loop: the client's FIN, and the server's one look for the final ACK. *)
Definition chat_fin (junk : header) : datagram := header_only {| junk with flags := SHAM_FIN; seq_num := 1000 |}.

Definition is_final_ack (dg : datagram) : bool := (0 <? snd dg) && has_flag (flags (hdr (fst dg))) SHAM_ACK.

(** ** A session

    The network loses, reorders and duplicates; what can still be delivered is in
    [to_server] and [to_client], which start with what the handshake left there, and
    the copies the network made are noted in [s_copies] and [c_copies]. *)
Inductive client_at := CLoop | CClosed.
Inductive server_at := SLoop | SWait | SClosed.

#[export] Instance client_at_eq_dec : EqDecision client_at.
Proof. solve_decision. Defined.

Record session := mk_session {
  c_at : client_at; s_at : server_at;
  to_server : list datagram; to_client : list datagram;
  c_typed : list (list Z); s_typed : list (list Z);       (* the lines typed *)
  c_printed : list (list Z); s_printed : list (list Z);   (* the messages printed *)
  s_copies : list datagram; c_copies : list datagram;
  acked : bool                                            (* Received final ACK *)
}.

Definition typed_line (stdin : option (list Z)) : list (list Z) :=
  match stdin with Some line => [strip_newline line] | None => [] end.

Definition client_turn (junk : header) (t : turn) (stdin : option (list Z)) (net : list datagram) (s : session) : session :=
  {| s with c_at := if stop t then CClosed else CLoop; to_client := net;
            to_server := to_server s ++ sent t ++ (if stop t then [chat_fin junk] else []);
            c_typed := c_typed s ++ typed_line stdin; c_printed := c_printed s ++ option_list (printed t) |}.

Definition server_turn (t : turn) (stdin : option (list Z)) (net : list datagram) (s : session) : session :=
  {| s with s_at := if stop t then SWait else SLoop; to_server := net; to_client := to_client s ++ sent t;
            s_typed := s_typed s ++ typed_line stdin; s_printed := s_printed s ++ option_list (printed t) |}.

(** A line fgets can return in [chat_buffer]. *)
Definition is_line (line : list Z) : Prop := (length line < 1024)%nat /\ Forall (fun c => 0 < c < 256) line.

Inductive chat_step : relation session :=
| ch_client s junk stack stdin sock net :
    c_at s = CLoop -> (forall line, stdin = Some line -> is_line line) ->
    (match sock with Some (dg, _) => to_client s ≡ₚ dg :: net | None => net = to_client s end) ->
    chat_step s (client_turn junk (chat_turn Client junk stack stdin sock) stdin net s)
| ch_server s junk stack stdin sock net :
    s_at s = SLoop -> (forall line, stdin = Some line -> is_line line) ->
    (match sock with Some (dg, _) => to_server s ≡ₚ dg :: net | None => net = to_server s end) ->
    chat_step s (server_turn (chat_turn Server junk stack stdin sock) stdin net s)
| ch_wait s dg net :
    s_at s = SWait -> to_server s ≡ₚ dg :: net ->
    chat_step s {| s with s_at := SClosed; to_server := net; acked := is_final_ack dg |}
| ch_nowait s : s_at s = SWait -> chat_step s {| s with s_at := SClosed |}
| ch_lose_s s dg net : to_server s ≡ₚ dg :: net -> chat_step s {| s with to_server := net |}
| ch_lose_c s dg net : to_client s ≡ₚ dg :: net -> chat_step s {| s with to_client := net |}
| ch_dup_s s dg : dg ∈ to_server s ->
    chat_step s {| s with to_server := dg :: to_server s; s_copies := dg :: s_copies s |}
| ch_dup_c s dg : dg ∈ to_client s ->
    chat_step s {| s with to_client := dg :: to_client s; c_copies := dg :: c_copies s |}.

Definition chat_start (dn an : list datagram) : session := mk_session CLoop SLoop dn an [] [] [] [] [] [] false.

(** What the handshake leaves: headers with its flags. *)
Definition left_to_server (dg : datagram) : Prop :=
  snd dg = HEADER_SIZE /\ (flags (hdr (fst dg)) = SHAM_SYN \/ flags (hdr (fst dg)) = SHAM_ACK).
Definition left_to_client (dg : datagram) : Prop :=
  snd dg = HEADER_SIZE /\ flags (hdr (fst dg)) = Z.lor SHAM_SYN SHAM_ACK.

End Chat.
