(* ===== verification/ChatFacts.v ===== *)
(** * The S.H.A.M. chat: what arrives was typed, and who learns of a quit *)
From S2P Require Import Prelude Sham Chat.
Import Sham Chat.

#[local] Open Scope Z_scope.

Module ChatFacts.

(** The wait after the data phase never waits: its test is false when the loop before
    it has ended. *)
Lemma final_wait_never rs n c : client_running c = false -> final_wait rs n c = c.
Proof. unfold client_running. intros [_ H]%orb_false_iff. destruct rs; cbn; by rewrite H. Qed.

(** A message chat can carry. *)
Definition message (msg : list Z) : Prop := (length msg < 1024)%nat /\ Forall (fun c => c <> 0) msg.

Lemma strip_message line : is_line line -> message (strip_newline line).
Proof.
  intros [Hl Hc]. assert (Forall (fun c => c <> 0) line) as Hn by (eapply Forall_impl; [exact Hc|]; cbn; lia).
  unfold strip_newline. destruct (last line) as [c|]; [|done]. destruct (c =? NL); [|done].
  split; [rewrite length_take; lia|by apply Forall_take].
Qed.

Lemma c_string_app msg rest : Forall (fun c => c <> 0) msg -> c_string (msg ++ 0 :: rest) = msg.
Proof. induction 1 as [|c msg Hc Hm IH]; [done|]. cbn. rewrite (proj2 (Z.eqb_neq _ _) Hc). by rewrite IH. Qed.

(** The string a packet carries, if it is a message. *)
Definition content (dg : datagram) : option (list Z) :=
  if flags (hdr (fst dg)) =? 0 then Some (c_string (data (fst dg))) else None.

Lemma chat_data msg : message msg -> data (fst (chat_packet msg)) = msg ++ 0 :: replicate (1023 - length msg) 0.
Proof.
  intros [Hl _]. unfold chat_packet. cbn -[replicate]. rewrite take_ge by lia.
  by replace (1024 - length msg)%nat with (S (1023 - length msg)) by lia.
Qed.

Lemma content_chat msg : message msg -> content (chat_packet msg) = Some msg.
Proof. intros H. unfold content. rewrite chat_data by done. cbn [chat_packet fst hdr flags Z.eqb]. by rewrite c_string_app by apply H. Qed.

(** Whatever the receiver's stack held, it prints the message. *)
Lemma received_chat stack msg : message msg -> c_string (received_data stack (chat_packet msg)) = msg.
Proof.
  intros H. unfold received_data. rewrite chat_data by done. cbn [chat_packet snd].
  replace (Z.to_nat (HEADER_SIZE + Z.of_nat (length msg) + 1 - HEADER_SIZE)) with (length msg + 1)%nat by lia.
  rewrite firstn_app_2. cbn. rewrite <- (assoc_L (++)). cbn. apply c_string_app, H.
Qed.

(** A datagram of the chat: a message, or a header with one of the flags [fl]. *)
Definition chat_dg (fl : list Z) (dg : datagram) : Prop :=
  (exists msg, message msg /\ dg = chat_packet msg) \/ (snd dg = HEADER_SIZE /\ flags (hdr (fst dg)) ∈ fl).

(** ** One turn *)

(** What a turn does with the socket. *)
Inductive read_case (me : role) (sock : option (datagram * bool)) : turn -> Prop :=
| rc_none : read_case me sock nothing
| rc_lost dg m : sock = Some (dg, true) -> content dg = Some m -> read_case me sock nothing
| rc_shown dg dr m : sock = Some (dg, dr) -> content dg = Some m -> read_case me sock (mk_turn [] (Some m) false)
| rc_fin_c dg dr : me = Client -> sock = Some (dg, dr) -> has_flag (flags (hdr (fst dg))) SHAM_FIN = true ->
    read_case me sock (mk_turn [] None true)
| rc_fin_s dg dr h1 h2 : me = Server -> sock = Some (dg, dr) -> has_flag (flags (hdr (fst dg))) SHAM_FIN = true ->
    flags h1 = SHAM_ACK -> flags h2 = SHAM_FIN -> read_case me sock (mk_turn [header_only h1; header_only h2] None true).

Lemma on_packet_case me junk stack dr dg fl :
  chat_dg fl dg -> 0 ∉ fl -> read_case me (Some (dg, dr)) (on_packet me junk stack dr dg).
Proof.
  intros Hdg Hfl. unfold on_packet. destruct Hdg as [(msg & Hm & ->)|[Hs Hf]].
  - cbn [chat_packet fst snd hdr flags]. rewrite (proj2 (Z.ltb_lt _ _)) by (unfold HEADER_SIZE; lia). cbn [negb Z.eqb andb].
    destruct dr; [by eapply rc_lost; [|apply content_chat]|]. rewrite received_chat by done.
    eapply rc_shown; [done|by apply content_chat].
  - rewrite Hs. change (negb (0 <? HEADER_SIZE)) with false. cbn iota.
    assert (flags (hdr (fst dg)) <> 0) as Hne by (intros E; by rewrite E in Hf).
    rewrite (proj2 (Z.eqb_neq _ _) Hne). cbn [andb].
    destruct (has_flag _ _) eqn:E; [|constructor]. destruct me; [by eapply rc_fin_c|by eapply rc_fin_s].
Qed.

(** A turn stops on /quit, or sends what was typed and reads the socket. *)
Lemma turn_cases me junk stack stdin sock fl :
  (forall line, stdin = Some line -> is_line line) -> (forall dg dr, sock = Some (dg, dr) -> chat_dg fl dg) -> 0 ∉ fl ->
  let t := chat_turn me junk stack stdin sock in
  (typed_line stdin = [str "/quit"] /\ t = mk_turn [] None true) \/
  (Forall message (typed_line stdin) /\ exists r, read_case me sock r /\
     t = mk_turn ((chat_packet <$> typed_line stdin) ++ sent r) (printed r) (stop r)).
Proof.
  intros Hl Hs Hfl. unfold chat_turn, typed_line.
  assert (exists r, read_case me sock r /\ match sock with Some (dg, dr) => on_packet me junk stack dr dg | None => nothing end = r) as (r & Hr & Er).
  { destruct sock as [[dg dr]|]; eexists; (split; [|reflexivity]); [|constructor]. eapply on_packet_case; [by eapply Hs|done]. }
  destruct stdin as [line|].
  - unfold on_stdin. case_bool_decide as Hq; cbn [stop]; [left; by rewrite Hq|]. right.
    split; [constructor; [by apply strip_message, Hl|constructor]|]. exists r. split; [done|]. by rewrite Er.
  - right. split; [constructor|]. exists r. split; [done|]. by rewrite Er.
Qed.

(** ** The session *)

(** The flags of what the handshake left for the server and the client; the first
    list is empty in the runs where nothing was left. *)
Definition flags_c : list Z := [Z.lor SHAM_SYN SHAM_ACK].

Section session.
Context (fs : list Z) (Hfs : fs ⊆ [SHAM_SYN; SHAM_ACK]).

Record inv (s : session) : Prop := {
  (* what is on its way *)
  i_to_s : Forall (chat_dg (fs ++ if decide (c_at s = CLoop) then [] else [SHAM_FIN])) (to_server s);
  i_to_c : Forall (chat_dg (flags_c ++ if decide (c_at s = CLoop) then [] else [SHAM_ACK; SHAM_FIN])) (to_client s);
  (* what was typed, copied, printed and is on its way *)
  i_server : s_printed s ++ omap content (to_server s) ⊆+ omap content (s_copies s) ++ c_typed s;
  i_client : c_printed s ++ omap content (to_client s) ⊆+ omap content (c_copies s) ++ s_typed s;
  i_copies_s : omap content (s_copies s) ⊆ c_typed s;
  i_copies_c : omap content (c_copies s) ⊆ s_typed s;
  i_quit : c_at s = CClosed -> str "/quit" ∈ c_typed s;
  i_acked : fs = [] -> acked s = false
}.

Lemma omap_content_chat msgs : Forall message msgs -> omap content (chat_packet <$> msgs) = msgs.
Proof. induction 1 as [|m msgs Hm _ IH]; [done|]. cbn [fmap list_fmap]. cbn [omap list_omap]. rewrite content_chat by done. by f_equal. Qed.

Lemma chat_dg_mono fl fl' dg : (forall x, x ∈ fl -> x ∈ fl') -> chat_dg fl dg -> chat_dg fl' dg.
Proof. intros H [Hm|[H1 H2]]; [by left|right; auto]. Qed.

Lemma chat_msgs fl msgs : Forall message msgs -> Forall (chat_dg fl) (chat_packet <$> msgs).
Proof. intros H. apply Forall_fmap. eapply Forall_impl; [exact H|]. intros m Hm. left. by exists m. Qed.

Lemma no_fin fl dg : (forall x, x ∈ fl -> has_flag x SHAM_FIN = false) -> chat_dg fl dg -> has_flag (flags (hdr (fst dg))) SHAM_FIN = false.
Proof. intros Hfl [(m & _ & ->)|[_ H]]; [done|by apply Hfl]. Qed.

Lemma fs_no_fin x : x ∈ fs ++ [] -> has_flag x SHAM_FIN = false.
Proof. rewrite app_nil_r. intros H. apply Hfs in H. rewrite !elem_of_cons, elem_of_nil in H. by destruct_or! H; subst. Qed.

Lemma flags_c_no_fin x : x ∈ flags_c ++ [] -> has_flag x SHAM_FIN = false.
Proof. intros ->%list_elem_of_singleton. done. Qed.

Lemma fs_no_0 l : 0 ∉ l -> 0 ∉ fs ++ l.
Proof. intros Hl [H|H]%elem_of_app; [apply Hfs in H; rewrite !elem_of_cons, elem_of_nil in H; by destruct_or! H|done]. Qed.

(** A message on its way was typed. *)
Lemma copied_typed (printed on_way copies typed : list (list Z)) m :
  printed ++ on_way ⊆+ copies ++ typed -> copies ⊆ typed -> m ∈ printed ++ on_way -> m ∈ typed.
Proof. intros Hs Hc Hm. apply (elem_of_submseteq _ (copies ++ typed)) in Hm; [|done]. set_solver. Qed.

(** A turn's view of the network: the datagram read, and what is left. *)
Definition reads (net0 : list datagram) (sock : option (datagram * bool)) (net : list datagram) : Prop :=
  match sock with Some (dg, _) => net0 ≡ₚ dg :: net | None => net = net0 end.

Lemma reads_dg fl net0 sock net :
  reads net0 sock net -> Forall (chat_dg fl) net0 ->
  Forall (chat_dg fl) net /\ (forall dg dr, sock = Some (dg, dr) -> chat_dg fl dg).
Proof.
  unfold reads. destruct sock as [[dg dr]|]; [|intros ->; split; [done|done]]. intros -> H.
  apply Forall_cons in H as [H1 H2]. split; [done|]. by intros ? ? [= <- <-].
Qed.

(** What is printed was on its way. *)
Lemma reads_printed me net0 sock net r old :
  reads net0 sock net -> read_case me sock r ->
  old ++ option_list (printed r) ++ omap content net ⊆+ old ++ omap content net0.
Proof.
  unfold reads. intros Hn Hr.
  assert (forall dg dr, sock = Some (dg, dr) -> omap content net0 ≡ₚ option_list (content dg) ++ omap content net) as Hp.
  { intros dg dr ->. rewrite Hn. cbn. by destruct (content dg). }
  assert (omap content net ⊆+ omap content net0) as Hsub.
  { destruct sock as [[dg dr]|]; [|by subst]. rewrite (Hp dg dr eq_refl). by apply submseteq_inserts_l. }
  apply submseteq_skips_l. destruct Hr as [|dg m Hs Hc|dg dr m Hs Hc|dg dr _ Hs _|dg dr h1 h2 _ Hs _ _ _]; cbn [printed nothing option_list app]; try done.
  by rewrite (Hp _ _ Hs), Hc.
Qed.

Lemma client_inv s junk stack stdin sock net :
  inv s -> c_at s = CLoop -> (forall line, stdin = Some line -> is_line line) -> reads (to_client s) sock net ->
  inv (client_turn junk (chat_turn Client junk stack stdin sock) stdin net s).
Proof.
  intros [Is Ic Ips Ipc Ids Idc Iq Ia] Hat Hl Hn. rewrite decide_True in Is, Ic by done.
  destruct (reads_dg _ _ _ _ Hn Ic) as [Hnet Hdg].
  destruct (turn_cases Client junk stack stdin sock (flags_c ++ []) Hl Hdg) as [[Hty ->]|(Hm & r & Hr & ->)];
    [by intros H%list_elem_of_singleton|..].
  - constructor; cbn [client_turn c_at to_server to_client c_typed s_typed c_printed s_printed s_copies c_copies acked stop sent printed option_list].
    + rewrite decide_False by done. cbn [app]. apply Forall_app. split.
      * eapply Forall_impl; [exact Is|]. intros dg. apply chat_dg_mono. set_solver.
      * constructor; [|constructor]. right. cbn. split; [done|]. apply elem_of_app. right. left.
    + rewrite decide_False by done. eapply Forall_impl; [exact Hnet|]. intros dg. apply chat_dg_mono. set_solver.
    + rewrite Hty, !omap_app. cbn. rewrite app_nil_r, (assoc_L (++)). etransitivity; [exact Ips|]. by apply submseteq_inserts_r.
    + rewrite app_nil_r. etransitivity; [|exact Ipc]. apply (reads_printed Client (to_client s) sock net nothing _ Hn). constructor.
    + set_solver.
    + done.
    + intros _. rewrite Hty. set_solver.
    + done.
  - assert (stop r = false) as Hst.
    { destruct Hr as [| | |dg dr _ Hs Hf|dg dr h1 h2 Hc _ _ _ _]; try done.
      rewrite (no_fin _ dg flags_c_no_fin) in Hf; [done|by eapply Hdg]. }
    assert (sent r = []) as Hse by (by destruct Hr).
    rewrite Hst, Hse. constructor; cbn [client_turn c_at to_server to_client c_typed s_typed c_printed s_printed s_copies c_copies acked stop sent printed].
    + rewrite decide_True by done. rewrite !app_nil_r in *. apply Forall_app. split; [done|by apply chat_msgs].
    + by rewrite decide_True.
    + rewrite !app_nil_r, omap_app, omap_content_chat by done. rewrite !(assoc_L (++)). by apply submseteq_skips_r.
    + etransitivity; [|exact Ipc]. rewrite <- (assoc_L (++)). by eapply reads_printed.
    + set_solver.
    + done.
    + done.
    + done.
Qed.

Lemma server_inv s junk stack stdin sock net :
  inv s -> (forall line, stdin = Some line -> is_line line) -> reads (to_server s) sock net ->
  inv (server_turn (chat_turn Server junk stack stdin sock) stdin net s).
Proof.
  intros [Is Ic Ips Ipc Ids Idc Iq Ia] Hl Hn. destruct (reads_dg _ _ _ _ Hn Is) as [Hnet Hdg].
  destruct (turn_cases Server junk stack stdin sock _ Hl Hdg) as [[Hty ->]|(Hm & r & Hr & ->)].
  { apply fs_no_0. case_decide; set_solver. }
  - constructor; cbn [server_turn c_at to_server to_client c_typed s_typed c_printed s_printed s_copies c_copies acked stop sent printed option_list]; try done.
    + by rewrite app_nil_r.
    + rewrite app_nil_r. etransitivity; [|exact Ips]. apply (reads_printed Server (to_server s) sock net nothing _ Hn). constructor.
    + rewrite !app_nil_r, (assoc_L (++)). etransitivity; [exact Ipc|]. by apply submseteq_inserts_r.
    + set_solver.
  - assert (Forall (chat_dg (flags_c ++ if decide (c_at s = CLoop) then [] else [SHAM_ACK; SHAM_FIN])) (sent r) /\ omap content (sent r) = []) as [Hse Hom].
    { destruct Hr as [| | |dg dr Hc _ _|dg dr h1 h2 _ Hs Hf E1 E2]; try by split.
      destruct (decide (c_at s = CLoop)) as [Hat|Hat]; [rewrite (no_fin _ dg fs_no_fin) in Hf; [done|by eapply Hdg]|].
      split; [|cbn; unfold content; cbn; by rewrite E1, E2].
      constructor; [|constructor; [|constructor]]; right; cbn; [rewrite E1|rewrite E2]; (split; [done|set_solver]). }
    constructor; cbn [server_turn c_at to_server to_client c_typed s_typed c_printed s_printed s_copies c_copies acked stop sent printed]; try done.
    + apply Forall_app. split; [done|]. apply Forall_app. split; [by apply chat_msgs|done].
    + etransitivity; [|exact Ips]. rewrite <- (assoc_L (++)). by eapply reads_printed.
    + rewrite !omap_app, omap_content_chat, Hom, app_nil_r by done. rewrite !(assoc_L (++)). by apply submseteq_skips_r.
    + set_solver.
Qed.

Lemma lose_omap net0 net dg old typed : net0 ≡ₚ dg :: net -> old ++ omap content net0 ⊆+ typed -> old ++ omap content net ⊆+ typed.
Proof.
  intros Hn H. etransitivity; [|exact H]. apply submseteq_skips_l. rewrite Hn. cbn. destruct (content dg); [by apply submseteq_cons|done].
Qed.

(** A copy of a datagram on its way. *)
Lemma copy_omap (old : list (list Z)) net copies typed dg :
  dg ∈ net -> old ++ omap content net ⊆+ omap content copies ++ typed -> omap content copies ⊆ typed ->
  old ++ omap content (dg :: net) ⊆+ omap content (dg :: copies) ++ typed /\ omap content (dg :: copies) ⊆ typed.
Proof.
  intros Hdg Hs Hc. cbn. destruct (content dg) as [m|] eqn:E; [|done]. split.
  - rewrite <- Permutation_middle. cbn. by apply submseteq_skip.
  - intros x [->|Hx]%elem_of_cons; [|by apply Hc]. eapply copied_typed; [exact Hs|exact Hc|].
    apply elem_of_app. right. apply list_elem_of_omap. by exists dg.
Qed.

Lemma chat_step_inv s s' : inv s -> chat_step s s' -> inv s'.
Proof.
  intros I Hs. destruct Hs as [s junk stack stdin sock net Hat Hl Hn|s junk stack stdin sock net Hat Hl Hn|s dg net Hat Hn|s Hat|s dg net Hn|s dg net Hn|s dg Hd|s dg Hd].
  - by apply client_inv.
  - by apply server_inv.
  - destruct I as [Is Ic Ips Ipc Ids Idc Iq Ia]. rewrite Hn in Is. apply Forall_cons in Is as [Hdg Is].
    constructor; cbn; try done; [by eapply lose_omap|]. unfold is_final_ack. intros ->.
    destruct Hdg as [(m & _ & ->)|[_ Hf]]; [by rewrite andb_false_r|].
    case_decide; [set_solver|]. apply list_elem_of_singleton in Hf. rewrite Hf. by rewrite andb_false_r.
  - destruct I. by constructor.
  - destruct I as [Is Ic Ips Ipc Ids Idc Iq Ia]. rewrite Hn in Is. apply Forall_cons in Is as [_ Is]. constructor; cbn; try done. by eapply lose_omap.
  - destruct I as [Is Ic Ips Ipc Ids Idc Iq Ia]. rewrite Hn in Ic. apply Forall_cons in Ic as [_ Ic]. constructor; cbn; try done. by eapply lose_omap.
  - destruct I as [Is Ic Ips Ipc Ids Idc Iq Ia]. destruct (copy_omap _ _ _ _ dg Hd Ips Ids) as [H1 H2].
    constructor; try done. cbn. constructor; [|done]. by eapply Forall_forall in Is.
  - destruct I as [Is Ic Ips Ipc Ids Idc Iq Ia]. destruct (copy_omap _ _ _ _ dg Hd Ipc Idc) as [H1 H2].
    constructor; try done. cbn. constructor; [|done]. by eapply Forall_forall in Ic.
Qed.

(** Handshake headers carry no message. *)
Lemma no_content (fl : list Z) l : 0 ∉ fl -> Forall (fun dg => flags (hdr (fst dg)) ∈ fl) l -> omap content l = [].
Proof.
  intros Hfl. induction 1 as [|dg l Hd _ IH]; [done|]. cbn. unfold content at 1.
  rewrite (proj2 (Z.eqb_neq _ _)); [done|]. intros E. by rewrite E in Hd.
Qed.

Lemma chat_start_inv dn an :
  Forall (fun dg => snd dg = HEADER_SIZE /\ flags (hdr (fst dg)) ∈ fs) dn -> Forall left_to_client an -> inv (chat_start dn an).
Proof.
  intros Hd Ha. constructor; cbn; try done.
  - eapply Forall_impl; [exact Hd|]. intros dg [H1 H2]. right. split; [done|]. apply elem_of_app. by left.
  - eapply Forall_impl; [exact Ha|]. intros dg [H1 H2]. right. split; [done|]. rewrite H2. left.
  - rewrite (no_content fs); [done| |eapply Forall_impl; [exact Hd|]; by intros ? []].
    intros H. apply (fs_no_0 []); [set_solver|]. set_solver.
  - rewrite (no_content flags_c); [done|intros H; by apply list_elem_of_singleton in H|].
    eapply Forall_impl; [exact Ha|]. intros dg [_ H]. rewrite H. left.
Qed.

Lemma chat_runs_inv dn an s :
  Forall (fun dg => snd dg = HEADER_SIZE /\ flags (hdr (fst dg)) ∈ fs) dn -> Forall left_to_client an ->
  rtc chat_step (chat_start dn an) s -> inv s.
Proof.
  intros Hd Ha H. eapply rtc_invariant; [|exact H|by apply chat_start_inv]. intros ? ? Hi Hs. by eapply chat_step_inv.
Qed.

End session.

Lemma left_flags dn : Forall left_to_server dn -> Forall (fun dg => snd dg = HEADER_SIZE /\ flags (hdr (fst dg)) ∈ [SHAM_SYN; SHAM_ACK]) dn.
Proof.
  intros H. eapply Forall_impl; [exact H|]. intros dg [H1 H2]. split; [done|]. rewrite !elem_of_cons. tauto.
Qed.

(** (C40) What a chat prints was typed: whatever the network loses, reorders or
    duplicates, whatever the handshake left in it and whatever the loss simulation
    drops, every message an end prints was typed at the other, byte for byte; and each
    is printed at most once for every time it was typed and every copy of it the
    network made. *)
Theorem chat_prints_what_was_typed dn an s :
  Forall left_to_server dn -> Forall left_to_client an -> rtc chat_step (chat_start dn an) s ->
  (s_printed s ⊆ c_typed s /\ s_printed s ⊆+ omap content (s_copies s) ++ c_typed s) /\
  (c_printed s ⊆ s_typed s /\ c_printed s ⊆+ omap content (c_copies s) ++ s_typed s).
Proof.
  intros Hd Ha H. destruct (chat_runs_inv [SHAM_SYN; SHAM_ACK] ltac:(done) dn an s (left_flags dn Hd) Ha H) as [_ _ Ips Ipc Ids Idc _ _].
  split; (split; [intros m Hm; eapply copied_typed; [done..|set_solver]|]);
    [etransitivity; [|exact Ips]|etransitivity; [|exact Ipc]]; by apply submseteq_inserts_r.
Qed.

(** Only the client's user can end a chat: in every session the client leaves
    its loop only after its own /quit, whatever was typed at the server, whose /quit
    sends nothing; and the final ACK the server waits for is never sent: what it can
    take for one is only a duplicate of the handshake's. *)
Theorem chat_server_quit_unseen dn an s :
  Forall left_to_server dn -> Forall left_to_client an -> rtc chat_step (chat_start dn an) s ->
  (c_at s = CClosed -> str "/quit" ∈ c_typed s) /\ (dn = [] -> acked s = false) /\
  (c_at s = CLoop -> forall dg, dg ∈ to_client s -> has_flag (flags (hdr (fst dg))) SHAM_FIN = false).
Proof.
  intros Hd Ha H. destruct (chat_runs_inv [SHAM_SYN; SHAM_ACK] ltac:(done) dn an s (left_flags dn Hd) Ha H) as [_ Ic _ _ _ _ Iq _].
  split_and!; [done| |].
  - intros ->. by destruct (chat_runs_inv [] ltac:(set_solver) [] an s ltac:(constructor) Ha H) as [_ _ _ _ _ _ _ Ia]; apply Ia.
  - intros Hat dg Hdg. rewrite decide_True in Ic by done. apply (no_fin _ dg flags_c_no_fin). by eapply Forall_forall in Ic.
Qed.

(** A chat: the client says hi, the server answers and quits. *)
Definition hi : list Z := [104; 105; 10].
Definition quit : list Z := str "/quit" ++ [10].
Definition after_hi : session :=
  client_turn zero_header (chat_turn Client zero_header [] (Some hi) None) (Some hi) [] (chat_start [] []).
Definition after_answer : session :=
  server_turn (chat_turn Server zero_header [] (Some hi) (Some (chat_packet [104; 105], false))) (Some hi) [] after_hi.
Definition after_quit : session :=
  server_turn (chat_turn Server zero_header [] (Some quit) None) (Some quit) [] after_answer.

Lemma is_line_hi : is_line hi.
Proof. split; [cbn; lia|repeat constructor; lia]. Qed.

Lemma is_line_quit : is_line quit.
Proof. split; [cbn; lia|]. repeat constructor; done. Qed.

Lemma after_quit_reached : rtc chat_step (chat_start [] []) after_quit.
Proof.
  apply (rtc_l _ _ after_hi); [apply ch_client; [done| |done]; intros ? [= <-]; apply is_line_hi|].
  apply (rtc_l _ _ after_answer); [apply ch_server; [done| |]|].
  { intros ? [= <-]. apply is_line_hi. }
  { reflexivity. }
  apply rtc_once, ch_server; [done| |done]. intros ? [= <-]. apply is_line_quit.
Qed.

Lemma chat_prints_what_was_typed_witness : s_printed after_quit = [[104; 105]] /\ s_printed after_quit ⊆ c_typed after_quit.
Proof. split; [vm_compute; reflexivity|]. apply (chat_prints_what_was_typed [] [] after_quit (Forall_nil_2 _) (Forall_nil_2 _) after_quit_reached). Defined.

Lemma chat_server_quit_unseen_witness :
  s_at after_quit = SWait /\ c_at after_quit = CLoop /\ acked after_quit = false.
Proof. split; [reflexivity|]. split; [reflexivity|].
  apply (chat_server_quit_unseen [] [] after_quit (Forall_nil_2 _) (Forall_nil_2 _) after_quit_reached). reflexivity. Defined.

End ChatFacts.
