(* ===== verification/Bakery.v ===== *)
(** * The office bakery simulator (bakery-simulator/bakery.c)

    Every thread is a program counter; every critical section of
    [shop_mutex], together with the busy-wait that precedes it, is one atomic
    step.  The busy-waits read [current_time] or one field of the thread's own
    customer without the lock; they appear as the guard of the step. *)
From S2P Require Import Prelude.

#[local] Open Scope Z_scope.

Module Bakery.

Definition MAX_CAPACITY : Z := 25.
Definition SOFA_CAPACITY : Z := 4.
Definition NUM_CHEFS : nat := 4.

Record Customer := mk_customer {
  id : Z;
  arrival_time : Z;
  enter_time : Z;
  sit_time : Z;
  request_time : Z;
  baking_start_time : Z;
  pay_time : Z;
  payment_accepted_time : Z;
  chef_id : Z
}.

(** Where a customer thread is: the busy-wait it is about to leave. *)
Inductive customer_pc :=
| AtDoor          (* while (current_time < arrival_time) *)
| Entered         (* while (current_time < enter_time + 1) *)
| Standing        (* while (1), looking itself up in standing_customers *)
| Seated          (* while (current_time < sit_time + 1) *)
| WaitCake        (* while (baking_start_time == 0) *)
| WaitBaked       (* while (current_time < baking_start_time + 2) *)
| WaitAccept      (* while (payment_accepted_time == 0) *)
| WaitReceipt     (* while (current_time < payment_accepted_time + 2) *)
| TurnedAway      (* returned: the shop was full *)
| Left.           (* returned *)

Inductive chef_pc :=
| ChefLoop                   (* at the top of while (1) *)
| ChefBusy                   (* while (current_time < chef_busy_until[chef_id]) *)
| ChefCheck                  (* before the all_done scan *)
| ChefDecide (all_done : bool)
| ChefExit.

#[export] Instance customer_pc_eq_dec : EqDecision customer_pc.
Proof. solve_decision. Defined.
#[export] Instance chef_pc_eq_dec : EqDecision chef_pc.
Proof. solve_decision. Defined.

(** Lines [print_event] writes. *)
Inductive event :=
| EEnters (time id : Z) | ESits (time id : Z) | ERequests (time id : Z)
| EPays (time id : Z) | ELeaves (time id : Z)
| EAccepts (time chef cust : Z) | EBakes (time chef cust : Z).

Record shop := mk_shop {
  current_time : Z;
  customers_in_shop : Z;
  customers_on_sofa : Z;
  standing_customers : list nat;       (* indices into all_customers *)
  all_customers : list Customer;
  chef_busy_until : list Z;            (* indices 0..NUM_CHEFS *)
  cash_register_busy_until : Z;
  customer_pcs : list customer_pc;
  chef_pcs : list chef_pc;             (* chef_id - 1 *)
  printed : list event                 (* latest first *)
}.

(** [standing_customers] has room for MAX_CAPACITY - SOFA_CAPACITY pointers. *)
Definition standing_capacity : Z := MAX_CAPACITY - SOFA_CAPACITY.

Definition new_customer (time cid : Z) : Customer :=
  mk_customer cid time 0 0 0 0 0 0 0.

(** The loop of main that reads the input: a pointer a line is stored in an array of
    1000 without a check. *)
Fixpoint read_input (customer_count : Z) (input : list (Z * Z)) : outcome (list Customer) :=
  match input with
  | [] => Ret []
  | (time, cid) :: input =>
      if 1000 <=? customer_count then Undef "all_customers overflow"
      else cs ← read_input (customer_count + 1) input; Ret (new_customer time cid :: cs)
  end.

(** The state when main has read an input that fits ([read_input]) and started all
    threads.  The clock is an int that wraps after 2^31 ticks of 10 ms, 248 days;
    the model's does not. *)
Definition shop_init (input : list (Z * Z)) : shop :=
  {| current_time := 0; customers_in_shop := 0; customers_on_sofa := 0;
     standing_customers := [];
     all_customers := (fun '(time, cid) => new_customer time cid) <$> input;
     chef_busy_until := replicate (S NUM_CHEFS) 0;
     cash_register_busy_until := 0;
     customer_pcs := replicate (length input) AtDoor;
     chef_pcs := replicate NUM_CHEFS ChefLoop;
     printed := [] |}.

Definition set_customer (i : nat) (c : Customer) (s : shop) : shop :=
  {| s with all_customers := <[i := c]> (all_customers s) |}.
Definition set_pc (i : nat) (pc : customer_pc) (s : shop) : shop :=
  {| s with customer_pcs := <[i := pc]> (customer_pcs s) |}.
Definition print_event (e : event) (s : shop) : shop :=
  {| s with printed := e :: printed s |}.

(** ** customer_thread *)

Definition enter (i : nat) (c : Customer) (s : shop) : shop :=
  if MAX_CAPACITY <=? customers_in_shop s then set_pc i TurnedAway s
  else
    let s := {| s with customers_in_shop := customers_in_shop s + 1 |} in
    let s := set_customer i {| c with enter_time := current_time s |} s in
    set_pc i Entered (print_event (EEnters (current_time s) (id c)) s).

Definition sit (i : nat) (c : Customer) (s : shop) : shop :=
  let s := set_customer i {| c with sit_time := current_time s |} s in
  set_pc i Seated (print_event (ESits (current_time s) (id c)) s).

Definition sit_or_stand (i : nat) (c : Customer) (s : shop) : outcome shop :=
  if customers_on_sofa s <? SOFA_CAPACITY then
    Ret (sit i c {| s with customers_on_sofa := customers_on_sofa s + 1 |})
  else if Z.of_nat (length (standing_customers s)) <? standing_capacity then
    Ret (set_pc i Standing {| s with standing_customers := standing_customers s ++ [i] |})
  else Undef "standing_customers overflow".

Definition leave (i : nat) (c : Customer) (s : shop) : shop :=
  let s := print_event (ELeaves (current_time s) (id c)) s in
  let s := {| s with customers_in_shop := customers_in_shop s - 1;
                     customers_on_sofa := customers_on_sofa s - 1 |} in
  let s := match standing_customers s with
           | [] => s
           | _ :: rest => {| s with standing_customers := rest;
                                    customers_on_sofa := customers_on_sofa s + 1 |}
           end in
  set_pc i Left s.

(** One step of customer [i]; [Ret None]: it keeps waiting or has returned. *)
Definition customer_step (i : nat) (s : shop) : outcome (option shop) :=
  match all_customers s !! i, customer_pcs s !! i with
  | Some c, Some pc =>
      let now := current_time s in
      match pc with
      | AtDoor => Ret (if now <? arrival_time c then None else Some (enter i c s))
      | Entered =>
          if now <? enter_time c + 1 then Ret None
          else s' ← sit_or_stand i c s; Ret (Some s')
      | Standing =>
          Ret (if bool_decide (i ∈ standing_customers s) then None else Some (sit i c s))
      | Seated =>
          Ret (if now <? sit_time c + 1 then None
               else Some (set_pc i WaitCake (print_event (ERequests now (id c))
                            (set_customer i {| c with request_time := now |} s))))
      | WaitCake => Ret (if baking_start_time c =? 0 then None else Some (set_pc i WaitBaked s))
      | WaitBaked =>
          Ret (if now <? baking_start_time c + 2 then None
               else Some (set_pc i WaitAccept (print_event (EPays now (id c))
                            (set_customer i {| c with pay_time := now |} s))))
      | WaitAccept =>
          Ret (if payment_accepted_time c =? 0 then None else Some (set_pc i WaitReceipt s))
      | WaitReceipt =>
          Ret (if now <? payment_accepted_time c + 2 then None else Some (leave i c s))
      | TurnedAway | Left => Ret None
      end
  | _, _ => Ret None
  end.

(** ** chef_thread *)

(** The scan for a payment to accept: [best] and [earliest] are the loop's
    variables [payment_customer] and [earliest_pay_time]. *)
Fixpoint payment_scan (now register : Z) (i : nat) (best : option nat) (earliest : Z)
    (l : list Customer) : option nat :=
  match l with
  | [] => best
  | cust :: l' =>
      if (0 <? pay_time cust) && (payment_accepted_time cust =? 0)
         && ((pay_time cust + 1 <=? now) && (register <=? now))
         && ((earliest =? -1) || (pay_time cust <? earliest))
      then payment_scan now register (S i) (Some i) (pay_time cust) l'
      else payment_scan now register (S i) best earliest l'
  end.

Fixpoint bake_scan (now busy : Z) (i : nat) (best : option nat) (earliest : Z)
    (l : list Customer) : option nat :=
  match l with
  | [] => best
  | cust :: l' =>
      if (0 <? request_time cust) && (baking_start_time cust =? 0)
         && ((request_time cust + 1 <=? now) && (busy <=? now))
         && ((earliest =? -1) || (request_time cust <? earliest))
      then bake_scan now busy (S i) (Some i) (request_time cust) l'
      else bake_scan now busy (S i) best earliest l'
  end.

Definition set_chef (j : nat) (pc : chef_pc) (s : shop) : shop :=
  {| s with chef_pcs := <[j := pc]> (chef_pcs s) |}.

Definition accept_payment (j : nat) (i : nat) (cust : Customer) (s : shop) : shop :=
  let now := current_time s in
  let s := set_customer i {| cust with payment_accepted_time := now |} s in
  let s := {| s with cash_register_busy_until := now + 2;
                     chef_busy_until := <[S j := now + 2]> (chef_busy_until s) |} in
  set_chef j ChefBusy (print_event (EAccepts now (Z.of_nat (S j)) (id cust)) s).

Definition bake (j : nat) (i : nat) (cust : Customer) (s : shop) : shop :=
  let now := current_time s in
  let s := set_customer i {| cust with baking_start_time := now;
                                       chef_id := Z.of_nat (S j) |} s in
  let s := {| s with chef_busy_until := <[S j := now + 2]> (chef_busy_until s) |} in
  set_chef j ChefBusy (print_event (EBakes now (Z.of_nat (S j)) (id cust)) s).

(** The main critical section of chef [j + 1]: payment first, then baking. *)
Definition chef_section (j : nat) (s : shop) : shop :=
  let now := current_time s in
  let busy := default 0 (chef_busy_until s !! S j) in
  match payment_scan now (cash_register_busy_until s) 0 None (-1) (all_customers s) with
  | Some i =>
      match all_customers s !! i with
      | Some cust => accept_payment j i cust s
      | None => s
      end
  | None =>
      match bake_scan now busy 0 None (-1) (all_customers s) with
      | Some i =>
          match all_customers s !! i with
          | Some cust => bake j i cust s
          | None => s
          end
      | None => set_chef j ChefCheck s
      end
  end.

(** The scan that decides whether the chef may go home. *)
Definition all_done (s : shop) : bool :=
  forallb (fun c => negb ((payment_accepted_time c =? 0)
                          || (current_time s <? payment_accepted_time c + 2)))
          (all_customers s).

Definition chef_step (j : nat) (s : shop) : option shop :=
  match chef_pcs s !! j with
  | Some ChefLoop => Some (chef_section j s)
  | Some ChefBusy =>
      if current_time s <? default 0 (chef_busy_until s !! S j) then None
      else Some (set_chef j ChefLoop s)
  | Some ChefCheck => Some (set_chef j (ChefDecide (all_done s)) s)
  | Some (ChefDecide done) =>
      Some (set_chef j (if done && (customers_in_shop s =? 0) then ChefExit else ChefLoop) s)
  | Some ChefExit | None => None
  end.

(** ** timer_thread, and the interleaving of all threads *)

Definition timer_step (s : shop) : shop := {| s with current_time := current_time s + 1 |}.

Inductive shop_step : relation shop :=
| step_customer i s s' : customer_step i s = Ret (Some s') -> shop_step s s'
| step_chef j s s' : chef_step j s = Some s' -> shop_step s s'
| step_timer s : shop_step s (timer_step s).

End Bakery.
