(* ===== verification/BakeryFacts.v ===== *)
(** * The bakery: capacity, seating order, timing, mutual exclusion, shutdown *)
From S2P Require Import Prelude Bakery.
Import Bakery.

#[local] Open Scope Z_scope.

(** ** Capacity *)

Definition in_shop (pc : customer_pc) : bool :=
  match pc with AtDoor | TurnedAway | Left => false | _ => true end.
(** Past the sofa-or-stand decision. *)
Definition past_entry (pc : customer_pc) : bool :=
  match pc with AtDoor | TurnedAway | Left | Entered => false | _ => true end.

Record capacity_inv (s : shop) : Prop := {
  cap_in : customers_in_shop s = Z.of_nat (countb in_shop (customer_pcs s));
  cap_seats : customers_on_sofa s + Z.of_nat (length (standing_customers s))
              = Z.of_nat (countb past_entry (customer_pcs s));
  cap_sofa : 0 <= customers_on_sofa s <= SOFA_CAPACITY;
  cap_full : standing_customers s <> [] -> customers_on_sofa s = SOFA_CAPACITY;
  cap_max : customers_in_shop s <= MAX_CAPACITY
}.

Lemma past_entry_in_shop l : (countb past_entry l <= countb in_shop l)%nat.
Proof. apply countb_mono. by intros []. Qed.

Lemma capacity_init input : capacity_inv (shop_init input).
Proof.
  split; simpl; try done.
  - rewrite countb_zero; [done|]. intros i x Hx. by apply lookup_replicate_1 in Hx as [-> _].
  - rewrite countb_zero; [done|]. intros i x Hx. by apply lookup_replicate_1 in Hx as [-> _].
Qed.

(** Customer [i] moves from [pc] to [pc'] within the same counting class. *)
Lemma capacity_same s s' i pc pc' :
  capacity_inv s -> customer_pcs s !! i = Some pc ->
  in_shop pc' = in_shop pc -> past_entry pc' = past_entry pc ->
  customer_pcs s' = <[i := pc']> (customer_pcs s) ->
  customers_in_shop s' = customers_in_shop s ->
  customers_on_sofa s' = customers_on_sofa s ->
  standing_customers s' = standing_customers s -> capacity_inv s'.
Proof.
  intros [Hin Hse Hso Hfu Hmx] Hpc Hi Hp Hl H1 H2 H3.
  pose proof (countb_insert in_shop _ _ _ pc' Hpc) as Ci.
  pose proof (countb_insert past_entry _ _ _ pc' Hpc) as Cp.
  rewrite Hi in Ci. rewrite Hp in Cp. split; rewrite ?Hl, ?H1, ?H2, ?H3; auto; lia.
Qed.

Lemma sit_or_stand_capacity s i c :
  capacity_inv s -> customer_pcs s !! i = Some Entered ->
  exists s', sit_or_stand i c s = Ret s' /\ capacity_inv s'.
Proof.
  intros [Hin Hse [Hs0 Hs4] Hfu Hmx] Hpc. unfold sit_or_stand.
  pose proof (countb_insert in_shop _ _ _ Seated Hpc) as Ci.
  pose proof (countb_insert past_entry _ _ _ Seated Hpc) as Cp. simpl in Ci, Cp.
  pose proof (past_entry_in_shop (<[i:=Seated]> (customer_pcs s))) as Hle.
  destruct (Z.ltb_spec (customers_on_sofa s) SOFA_CAPACITY) as [Hlt|Hge].
  - eexists. split; [done|]. split; simpl; auto; try lia.
    intros H. specialize (Hfu H). lia.
  - destruct (Z.ltb_spec (Z.of_nat (length (standing_customers s))) standing_capacity) as [_|Hov].
    + eexists. split; [done|].
      pose proof (countb_insert in_shop _ _ _ Standing Hpc) as Ci'.
      pose proof (countb_insert past_entry _ _ _ Standing Hpc) as Cp'. simpl in Ci', Cp'.
      split; simpl; rewrite ?length_app; simpl; auto; lia.
    + exfalso. unfold standing_capacity, MAX_CAPACITY, SOFA_CAPACITY in *. lia.
Qed.

Lemma leave_capacity s i c :
  capacity_inv s -> customer_pcs s !! i = Some WaitReceipt -> capacity_inv (leave i c s).
Proof.
  intros [Hin Hse [Hs0 Hs4] Hfu Hmx] Hpc.
  pose proof (countb_insert in_shop _ _ _ Left Hpc) as Ci.
  pose proof (countb_insert past_entry _ _ _ Left Hpc) as Cp. simpl in Ci, Cp.
  unfold leave. simpl. destruct (standing_customers s) as [|h rest] eqn:Hst; simpl in *.
  - split; simpl; rewrite ?Hst; simpl; try done; lia.
  - specialize (Hfu ltac:(done)). split; simpl; try lia.
Qed.

Lemma customer_step_capacity i s :
  capacity_inv s -> exists o, customer_step i s = Ret o /\
    forall s', o = Some s' -> capacity_inv s'.
Proof.
  intros Hinv. unfold customer_step.
  destruct (all_customers s !! i) as [c|] eqn:Hc; [|by eexists].
  destruct (customer_pcs s !! i) as [pc|] eqn:Hpc; [|by eexists].
  destruct pc; try (eexists; split; [reflexivity|]; intros s' Hs'; case_ifs; try done).
  - (* AtDoor *)
    destruct Hinv as [Hin Hse Hso Hfu Hmx]. unfold enter.
    pose proof (countb_insert in_shop _ _ _ TurnedAway Hpc) as Ci1.
    pose proof (countb_insert past_entry _ _ _ TurnedAway Hpc) as Cp1.
    pose proof (countb_insert in_shop _ _ _ Entered Hpc) as Ci2.
    pose proof (countb_insert past_entry _ _ _ Entered Hpc) as Cp2. simpl in *.
    destruct (Z.leb_spec MAX_CAPACITY (customers_in_shop s)); split; simpl; auto; lia.
  - (* Entered *)
    case_ifs; [by eexists|].
    destruct (sit_or_stand_capacity s i c Hinv Hpc) as (s1 & -> & H1).
    eexists. split; [done|]. by intros s' [= <-].
  - by eapply (capacity_same s _ i Standing Seated).
  - by eapply (capacity_same s _ i Seated WaitCake).
  - by eapply (capacity_same s _ i WaitCake WaitBaked).
  - by eapply (capacity_same s _ i WaitBaked WaitAccept).
  - by eapply (capacity_same s _ i WaitAccept WaitReceipt).
  - by apply leave_capacity.
Qed.

(** The fields a chef step or a clock tick leaves alone. *)
Definition same_floor (s s' : shop) : Prop :=
  customers_in_shop s' = customers_in_shop s /\ customers_on_sofa s' = customers_on_sofa s /\
  standing_customers s' = standing_customers s /\ customer_pcs s' = customer_pcs s.

Lemma same_floor_capacity s s' : same_floor s s' -> capacity_inv s -> capacity_inv s'.
Proof. intros (H1 & H2 & H3 & H4) []. split; rewrite ?H1, ?H2, ?H3, ?H4; auto. Qed.

(** What the chef's critical section can do. *)
Lemma chef_section_cases j s :
  let now := current_time s in
  let l := all_customers s in
  let busy := default 0 (chef_busy_until s !! S j) in
  (exists i c, payment_scan now (cash_register_busy_until s) 0 None (-1) l = Some i /\
     l !! i = Some c /\ chef_section j s = accept_payment j i c s) \/
  (payment_scan now (cash_register_busy_until s) 0 None (-1) l = None /\
   exists i c, bake_scan now busy 0 None (-1) l = Some i /\ l !! i = Some c /\
     chef_section j s = bake j i c s) \/
  (payment_scan now (cash_register_busy_until s) 0 None (-1) l = None /\
   bake_scan now busy 0 None (-1) l = None /\ chef_section j s = set_chef j ChefCheck s) \/
  chef_section j s = s.
Proof.
  simpl. unfold chef_section.
  destruct (payment_scan _ _ _ _ _ _) as [i|] eqn:Hp.
  - destruct (all_customers s !! i) as [c|] eqn:Hc; [left; eauto|by right; right; right].
  - destruct (bake_scan _ _ _ _ _ _) as [i|] eqn:Hb.
    + destruct (all_customers s !! i) as [c|] eqn:Hc; [right; left; eauto 6|by right; right; right].
    + right. right. by left.
Qed.

Lemma chef_step_floor j s s' : chef_step j s = Some s' -> same_floor s s'.
Proof.
  unfold chef_step. intros H. destruct (chef_pcs s !! j) as [[| | |dn|]|]; try discriminate H;
    [|case_ifs; by repeat split|simplify_eq; by repeat split|simplify_eq; by repeat split].
  injection H as <-. destruct (chef_section_cases j s)
    as [(i & c & _ & _ & ->)|[(_ & i & c & _ & _ & ->)|[(_ & _ & ->)| ->]]]; by repeat split.
Qed.

Lemma shop_step_capacity s s' : capacity_inv s -> shop_step s s' -> capacity_inv s'.
Proof.
  intros Hinv Hstep. destruct Hstep as [i s s' H|j s s' H|s].
  - destruct (customer_step_capacity i s Hinv) as (o & Ho & Hall). apply Hall. congruence.
  - eapply same_floor_capacity; [by eapply chef_step_floor|done].
  - eapply same_floor_capacity; [|done]. by repeat split.
Qed.

Lemma reachable_capacity input s : rtc shop_step (shop_init input) s -> capacity_inv s.
Proof.
  intros H. eapply rtc_invariant; [exact shop_step_capacity|exact H|apply capacity_init].
Qed.

(** ** Who is on the sofa *)

(** Customer [i] has a seat: past the sofa-or-stand decision and not (or no longer)
    among the standing. *)
Definition has_seat (s : shop) (i : nat) : bool :=
  match customer_pcs s !! i with Some pc => past_entry pc | None => false end
  && negb (bool_decide (i ∈ standing_customers s)).
Definition on_sofa (s : shop) : list nat := List.filter (has_seat s) (seq 0 (length (customer_pcs s))).

(** The standing customers are distinct and wait to be seated. *)
Record queue_inv (s : shop) : Prop := {
  q_nodup : NoDup (standing_customers s);
  q_pc : forall i, i ∈ standing_customers s -> customer_pcs s !! i = Some Standing
}.

Lemma queue_init input : queue_inv (shop_init input).
Proof. split; [constructor|set_solver]. Qed.

Lemma queue_floor s s' : same_floor s s' -> queue_inv s -> queue_inv s'.
Proof. intros (_ & _ & E1 & E2) [H1 H2]. split; by rewrite ?E1, ?E2. Qed.

(** A customer who is not queueing moves on; the head of the queue may be seated. *)
Lemma queue_move s s' i pc' :
  queue_inv s -> i ∉ standing_customers s -> customer_pcs s' = <[i := pc']> (customer_pcs s) ->
  (exists h, standing_customers s = h ++ standing_customers s') -> queue_inv s'.
Proof.
  intros [H1 H2] Hi Hpc [h Hst]. rewrite Hst in H1, H2, Hi. apply NoDup_app in H1 as (_ & _ & H1). split; [done|].
  intros k Hk. rewrite Hpc, list_lookup_insert_ne by set_solver. apply H2. set_solver.
Qed.

Lemma customer_step_queue i s s' : queue_inv s -> customer_step i s = Ret (Some s') -> queue_inv s'.
Proof.
  intros Q Hs. unfold customer_step in Hs.
  destruct (all_customers s !! i) as [c|]; [|done].
  destruct (customer_pcs s !! i) as [pc|] eqn:Hpc; [|done].
  assert (pc <> Standing -> i ∉ standing_customers s) as Hni by (intros Hne Hi; apply (q_pc s Q) in Hi; congruence).
  assert (exists h, standing_customers s = h ++ standing_customers s) as Hsame by (by exists []).
  destruct pc; case_ifs; try done; try specialize (Hni ltac:(done)).
  - unfold enter. case_ifs; by eapply (queue_move s).
  - unfold sit_or_stand in Hs. case_ifs; [by eapply (queue_move s)|]. destruct Q as [H1 H2]. split; cbn.
    + apply NoDup_app. split_and!; [done|set_solver|apply NoDup_singleton].
    + intros k [Hk|Hk]%elem_of_app.
      * rewrite list_lookup_insert_ne by (intros ->; done). by apply H2.
      * apply list_elem_of_singleton in Hk as ->. apply list_lookup_insert_eq. by eapply lookup_lt_Some.
  - eapply (queue_move s); [done| |reflexivity|done]. by eapply bool_decide_eq_false_1.
  - by eapply (queue_move s).
  - by eapply (queue_move s).
  - by eapply (queue_move s).
  - by eapply (queue_move s).
  - unfold leave. eapply (queue_move s); [done..|cbn; by destruct (standing_customers s)|]. cbn.
    destruct (standing_customers s) as [|h rest] eqn:E; cbn; [rewrite ?E; by exists []|by exists [h]].
Qed.

Lemma reachable_queue input s : rtc shop_step (shop_init input) s -> queue_inv s.
Proof.
  intros H. eapply rtc_invariant; [|exact H|apply queue_init].
  intros x y Q Hs. destruct Hs as [i s0 s' H0|j s0 s' H0|s0].
  - by eapply customer_step_queue.
  - eapply queue_floor; [by eapply chef_step_floor|done].
  - eapply queue_floor; [|done]. by repeat split.
Qed.

Lemma countb_positions {A} (f : A -> bool) (l : list A) :
  countb f l = length (List.filter (fun i => match l !! i with Some x => f x | None => false end) (seq 0 (length l))).
Proof.
  induction l as [|x l IH] using rev_ind; [done|].
  rewrite countb_app, IH, length_app, Nat.add_1_r, seq_S, List.filter_app, length_app. f_equal.
  - f_equal. apply List.filter_ext_in. intros i Hi. apply in_seq in Hi. by rewrite lookup_app_l by lia.
  - simpl. rewrite lookup_app_r, Nat.sub_diag by lia. unfold countb. simpl. by destruct (f x).
Qed.

Lemma sofa_count s : capacity_inv s -> queue_inv s -> customers_on_sofa s = Z.of_nat (length (on_sofa s)).
Proof.
  intros [_ Hse _ _ _] [Hnd Hpc]. rewrite countb_positions in Hse.
  set (P := fun i => match customer_pcs s !! i with Some x => past_entry x | None => false end) in *.
  assert (List.filter P (seq 0 (length (customer_pcs s))) ≡ₚ standing_customers s ++ on_sofa s) as Hperm.
  { apply NoDup_Permutation.
    - apply NoDup_ListNoDup, List.NoDup_filter, seq_NoDup.
    - apply NoDup_app. split_and!; [done| |apply NoDup_ListNoDup, List.NoDup_filter, seq_NoDup].
      intros i Hi H%list_elem_of_In%List.filter_In. destruct H as [_ H]. unfold has_seat in H.
      rewrite bool_decide_eq_true_2 in H by done. by rewrite andb_false_r in H.
    - intros i. unfold on_sofa. rewrite elem_of_app, !list_elem_of_In, !List.filter_In. unfold has_seat. fold (P i).
      destruct (decide (i ∈ standing_customers s)) as [Hi|Hi].
      + split; [intros _; left; by apply list_elem_of_In|]. intros _. pose proof (Hpc i Hi) as E. split.
        * apply in_seq. apply lookup_lt_Some in E. lia.
        * unfold P. by rewrite E.
      + rewrite bool_decide_eq_false_2, andb_true_r by done. split; [tauto|]. intros [H|H]; [|done].
        by apply list_elem_of_In in H. }
  rewrite Hperm, length_app in Hse. lia.
Qed.

(** (C6) Capacity: in every reachable state at most 25 customers are inside and
    at most 4 on the sofa, each counter is the number of customers whose threads are
    there, the standing customers are distinct and waiting to be seated, and
    no customer thread can write outside the 21-entry [standing_customers]
    array (or misbehave otherwise). *)
Theorem bakery_capacity (input : list (Z * Z)) (s : shop) (i : nat) :
  rtc shop_step (shop_init input) s ->
  customers_in_shop s = Z.of_nat (countb in_shop (customer_pcs s)) /\
  customers_in_shop s <= MAX_CAPACITY /\
  customers_on_sofa s = Z.of_nat (length (on_sofa s)) /\
  0 <= customers_on_sofa s <= SOFA_CAPACITY /\
  (NoDup (standing_customers s) /\ forall k, k ∈ standing_customers s -> customer_pcs s !! k = Some Standing) /\
  Z.of_nat (length (standing_customers s)) <= standing_capacity /\
  returns (customer_step i s) = true.
Proof.
  intros H. apply reachable_capacity in H as Hinv. apply reachable_queue in H as Q.
  destruct (customer_step_capacity i s Hinv) as (o & -> & _).
  pose proof (past_entry_in_shop (customer_pcs s)). pose proof (sofa_count s Hinv Q).
  destruct Hinv as [Hin Hse Hso Hfu Hmx], Q as [Q1 Q2]. split_and!; try done; try lia.
  unfold standing_capacity, MAX_CAPACITY, SOFA_CAPACITY in *.
  destruct (standing_customers s); simpl in *; [lia|]. specialize (Hfu ltac:(done)). lia.
Qed.

(** Seating order: a customer who sits down directly does so while nobody
    stands, and the standing customers form a queue: each step leaves it
    unchanged, appends one customer, or gives the seat of a leaving customer
    to its head. *)
Theorem bakery_seating_is_fifo (input : list (Z * Z)) (s s' : shop) :
  rtc shop_step (shop_init input) s -> shop_step s s' ->
  (customers_on_sofa s' = customers_on_sofa s + 1 -> standing_customers s = []) /\
  (standing_customers s' = standing_customers s \/
   (exists i, customer_pcs s !! i = Some Entered /\
      standing_customers s' = standing_customers s ++ [i] /\
      customers_on_sofa s' = customers_on_sofa s) \/
   (exists h, standing_customers s = h :: standing_customers s' /\
      customers_on_sofa s' = customers_on_sofa s)).
Proof.
  intros H Hstep. apply reachable_capacity in H as [_ _ Hso Hfu _].
  destruct Hstep as [i s s' Hs|j s s' Hs|s]; [| |split; [simpl; lia|by left]].
  2:{ destruct (chef_step_floor _ _ _ Hs) as (_ & -> & -> & _). split; [lia|by left]. }
  unfold customer_step in Hs.
  destruct (all_customers s !! i) as [c|]; [|done].
  destruct (customer_pcs s !! i) as [pc|] eqn:Hpc; [|done].
  destruct pc; case_ifs; try (split; [simpl; lia|by left]); try done.
  - unfold enter in *. case_ifs; split; try (simpl; lia); by left.
  - unfold sit_or_stand in Hs. case_ifs.
    + split; [|by left]. intros _. destruct (standing_customers s); [done|].
      specialize (Hfu ltac:(done)). lia.
    + split; [simpl; lia|]. right. left. by exists i.
  - unfold leave. simpl. destruct (standing_customers s) as [|h rest]; simpl.
    + split; [lia|by left].
    + split; [lia|]. right. right. exists h. split; [done|lia].
Qed.
