(* ===== verification/BakeryTime.v ===== *)
(** * The bakery: timing, the chefs' choices, the cash register, shutdown *)
From S2P Require Import Prelude Bakery BakeryFacts.
Import Bakery.

#[local] Open Scope Z_scope.

(** ** The chefs' scans are argmin scans *)

Definition payable (now register : Z) (c : Customer) : bool :=
  (0 <? pay_time c) && (payment_accepted_time c =? 0)
  && ((pay_time c + 1 <=? now) && (register <=? now)).

Definition bakeable (now busy : Z) (c : Customer) : bool :=
  (0 <? request_time c) && (baking_start_time c =? 0)
  && ((request_time c + 1 <=? now) && (busy <=? now)).

Lemma payment_scan_gen now reg l i best earliest :
  match best with
  | None => earliest = -1
  | Some (_, b) => earliest = pay_time b /\ 0 < pay_time b
  end ->
  payment_scan now reg i (fst <$> best) earliest l
  = fst <$> scan_min (payable now reg) pay_time i best l.
Proof.
  revert i best earliest. induction l as [|c l IH]; intros i best earliest He; [done|].
  cbn [payment_scan scan_min]. fold (payable now reg c).
  destruct (payable now reg c) eqn:Hp; cbn [andb]; [|by apply IH].
  assert (0 < pay_time c) by (unfold payable in Hp; to_prop; lia).
  destruct best as [[k b]|]; simpl.
  - destruct He as [-> Hb].
    destruct (Z.eqb_spec (pay_time b) (-1)); [lia|]. cbn [orb].
    destruct (pay_time c <? pay_time b); [by apply (IH _ (Some (i, c)))|by apply (IH _ (Some (k, b)))].
  - rewrite He. simpl. by apply (IH _ (Some (i, c))).
Qed.

Lemma bake_scan_gen now busy l i best earliest :
  match best with
  | None => earliest = -1
  | Some (_, b) => earliest = request_time b /\ 0 < request_time b
  end ->
  bake_scan now busy i (fst <$> best) earliest l
  = fst <$> scan_min (bakeable now busy) request_time i best l.
Proof.
  revert i best earliest. induction l as [|c l IH]; intros i best earliest He; [done|].
  cbn [bake_scan scan_min]. fold (bakeable now busy c).
  destruct (bakeable now busy c) eqn:Hp; cbn [andb]; [|by apply IH].
  assert (0 < request_time c) by (unfold bakeable in Hp; to_prop; lia).
  destruct best as [[k b]|]; simpl.
  - destruct He as [-> Hb].
    destruct (Z.eqb_spec (request_time b) (-1)); [lia|]. cbn [orb].
    destruct (request_time c <? request_time b);
      [by apply (IH _ (Some (i, c)))|by apply (IH _ (Some (k, b)))].
  - rewrite He. simpl. by apply (IH _ (Some (i, c))).
Qed.

Lemma payment_scan_spec now reg l :
  payment_scan now reg 0 None (-1) l = fst <$> scan_min (payable now reg) pay_time 0 None l.
Proof. by apply (payment_scan_gen now reg l 0 None). Qed.

Lemma bake_scan_spec now busy l :
  bake_scan now busy 0 None (-1) l = fst <$> scan_min (bakeable now busy) request_time 0 None l.
Proof. by apply (bake_scan_gen now busy l 0 None). Qed.

Lemma payment_scan_hit now reg l i :
  payment_scan now reg 0 None (-1) l = Some i ->
  exists c, is_first_min (payable now reg) pay_time l i c.
Proof.
  rewrite payment_scan_spec. destruct (scan_min _ _ _ _ _) as [[k c]|] eqn:Hs; [|done].
  intros [= <-]. exists c. by apply scan_min_Some.
Qed.

Lemma bake_scan_hit now busy l i :
  bake_scan now busy 0 None (-1) l = Some i ->
  exists c, is_first_min (bakeable now busy) request_time l i c.
Proof.
  rewrite bake_scan_spec. destruct (scan_min _ _ _ _ _) as [[k c]|] eqn:Hs; [|done].
  intros [= <-]. exists c. by apply scan_min_Some.
Qed.

(** The chef's choice: if some payment is ready the chef accepts the one
    that was made first (the first in the list among equals); only otherwise,
    if some cake can be baked, it bakes the one requested first; otherwise it
    goes on to the shutdown check. *)
Theorem bakery_chef_priority (j : nat) (s : shop) :
  let now := current_time s in
  let ready := payable now (cash_register_busy_until s) in
  let wanted := bakeable now (default 0 (chef_busy_until s !! S j)) in
  (exists i c, is_first_min ready pay_time (all_customers s) i c /\
     chef_section j s = accept_payment j i c s) \/
  ((forall i c, all_customers s !! i = Some c -> ready c = false) /\
   exists i c, is_first_min wanted request_time (all_customers s) i c /\
     chef_section j s = bake j i c s) \/
  ((forall i c, all_customers s !! i = Some c -> ready c = false) /\
   (forall i c, all_customers s !! i = Some c -> wanted c = false) /\
   chef_section j s = set_chef j ChefCheck s).
Proof.
  intros now ready wanted. unfold chef_section. fold now.
  destruct (payment_scan _ _ _ _ _ _) as [i|] eqn:Hp.
  - left. destruct (payment_scan_hit _ _ _ _ Hp) as [c Hc]. exists i, c.
    split; [exact Hc|]. destruct Hc as [-> _]. done.
  - right.
    assert (forall i c, all_customers s !! i = Some c -> ready c = false) as Hno.
    { rewrite payment_scan_spec in Hp. apply fmap_None in Hp.
      exact (proj1 (scan_min_None _ _ _) Hp). }
    destruct (bake_scan _ _ _ _ _ _) as [i|] eqn:Hb.
    + left. split; [done|]. destruct (bake_scan_hit _ _ _ _ Hb) as [c Hc]. exists i, c.
      split; [exact Hc|]. destruct Hc as [-> _]. done.
    + right. split; [done|]. split; [|done].
      rewrite bake_scan_spec in Hb. apply fmap_None in Hb.
      exact (proj1 (scan_min_None _ _ _) Hb).
Qed.

(** ** The life of a customer *)

(** The time stamps a customer thread has set when it is at [pc]; [0] is the
    code's "not yet". *)
Definition stage_ok (now : Z) (c : Customer) (pc : customer_pc) : Prop :=
  let entered := 0 <= enter_time c /\ arrival_time c <= enter_time c <= now in
  let sat := entered /\ enter_time c + 1 <= sit_time c <= now in
  let asked := sat /\ sit_time c + 1 <= request_time c <= now in
  let baked := asked /\ request_time c + 1 <= baking_start_time c <= now in
  let paid := baked /\ baking_start_time c + 2 <= pay_time c <= now in
  let done := paid /\ pay_time c + 1 <= payment_accepted_time c <= now in
  match pc with
  | AtDoor | TurnedAway =>
      request_time c = 0 /\ baking_start_time c = 0 /\ pay_time c = 0 /\ payment_accepted_time c = 0
  | Entered =>
      entered /\ request_time c = 0 /\ baking_start_time c = 0 /\ pay_time c = 0 /\
      payment_accepted_time c = 0
  | Standing =>
      (entered /\ enter_time c + 1 <= now) /\ request_time c = 0 /\ baking_start_time c = 0 /\
      pay_time c = 0 /\ payment_accepted_time c = 0
  | Seated =>
      sat /\ request_time c = 0 /\ baking_start_time c = 0 /\ pay_time c = 0 /\
      payment_accepted_time c = 0
  | WaitCake =>
      asked /\ pay_time c = 0 /\ payment_accepted_time c = 0 /\
      (baking_start_time c = 0 \/ baked)
  | WaitBaked => baked /\ pay_time c = 0 /\ payment_accepted_time c = 0
  | WaitAccept => paid /\ (payment_accepted_time c = 0 \/ done)
  | WaitReceipt => done
  | Left => done /\ payment_accepted_time c + 2 <= now
  end.

Record time_inv (s : shop) : Prop := {
  time_now : 0 <= current_time s;
  time_len : length (customer_pcs s) = length (all_customers s);
  time_stage : forall i c pc, all_customers s !! i = Some c -> customer_pcs s !! i = Some pc ->
    stage_ok (current_time s) c pc
}.

Lemma stage_ok_later now now' c pc : now <= now' -> stage_ok now c pc -> stage_ok now' c pc.
Proof. intros Hle. destruct pc; simpl; lia. Qed.

(** Update of customer [i] and of its program counter. *)
Lemma time_inv_update s s' i c' pc' :
  time_inv s -> current_time s' = current_time s ->
  all_customers s' = <[i := c']> (all_customers s) ->
  customer_pcs s' = <[i := pc']> (customer_pcs s) ->
  stage_ok (current_time s) c' pc' -> time_inv s'.
Proof.
  intros [Hn Hl Hs] Ht Hc Hp Hok. split; rewrite ?Ht, ?Hc, ?Hp; [done|by rewrite !length_insert|].
  intros k c pc Hk Hkp.
  apply list_lookup_insert_Some in Hk as [(-> & <- & Hlt)|[Hne Hk]].
  - rewrite list_lookup_insert_eq in Hkp by lia. by simplify_eq.
  - rewrite list_lookup_insert_ne in Hkp by done. by eapply Hs.
Qed.

Lemma leave_frame i c s :
  current_time (leave i c s) = current_time s /\ all_customers (leave i c s) = all_customers s /\
  customer_pcs (leave i c s) = <[i := Left]> (customer_pcs s).
Proof. unfold leave. simpl. by destruct (standing_customers s). Qed.

Lemma customer_step_time i s s' :
  time_inv s -> customer_step i s = Ret (Some s') -> time_inv s'.
Proof.
  intros Hinv Hs. pose proof Hinv as [Hn _ Hst]. unfold customer_step in Hs.
  destruct (all_customers s !! i) as [c|] eqn:Hc; [|done].
  destruct (customer_pcs s !! i) as [pc|] eqn:Hpc; [|done].
  specialize (Hst _ _ _ Hc Hpc). simpl in Hst.
  assert (all_customers s = <[i:=c]> (all_customers s)) as Hid by (by rewrite list_insert_id).
  destruct (decide (pc = WaitReceipt)) as [->|Hpc'].
  { simpl in Hst. case_ifs. destruct (leave_frame i c s) as (Hl1 & Hl2 & Hl3).
    eapply time_inv_update; [exact Hinv|exact Hl1|by rewrite Hl2; exact Hid|exact Hl3|].
    simpl. lia. }
  destruct pc; simpl in Hst; case_ifs; try done;
    unfold enter, sit_or_stand, sit in *; case_ifs; simplify_eq/=;
    (eapply time_inv_update; [exact Hinv|reflexivity|first [exact Hid|reflexivity]|reflexivity|];
     simpl; lia).
Qed.

Lemma chef_step_time j s s' : time_inv s -> chef_step j s = Some s' -> time_inv s'.
Proof.
  intros Hinv Hs. pose proof Hinv as [Hn Hl Hst]. unfold chef_step in Hs.
  destruct (chef_pcs s !! j) as [[| | |dn|]|]; try discriminate Hs;
    [|case_ifs; by split|simplify_eq; by split|simplify_eq; by split].
  injection Hs as <-.
  assert (forall i c c' s1, all_customers s !! i = Some c -> current_time s1 = current_time s ->
    all_customers s1 = <[i:=c']> (all_customers s) -> customer_pcs s1 = customer_pcs s ->
    (forall pc, stage_ok (current_time s) c pc -> stage_ok (current_time s) c' pc) ->
    time_inv s1) as Hupd.
  { intros i c c' s1 Hc Ht Ha Hp Hok.
    destruct (customer_pcs s !! i) as [pc|] eqn:Hpc.
    2:{ apply lookup_ge_None in Hpc. apply lookup_lt_Some in Hc. lia. }
    eapply (time_inv_update s s1 i c' pc); [done|done|done|by rewrite Hp, list_insert_id|].
    by apply Hok, (Hst i). }
  destruct (chef_section_cases j s)
    as [(i & c & Hp & Hc & ->)|[(_ & i & c & Hb & Hc & ->)|[(_ & _ & ->)| ->]]]; try by split.
  - eapply Hupd; [exact Hc|reflexivity..|].
    destruct (payment_scan_hit _ _ _ _ Hp) as (c' & Hc' & He & _). simplify_eq.
    unfold payable in He. to_prop. intros []; simpl; lia.
  - eapply Hupd; [exact Hc|reflexivity..|].
    destruct (bake_scan_hit _ _ _ _ Hb) as (c' & Hc' & He & _). simplify_eq.
    unfold bakeable in He. to_prop. intros []; simpl; lia.
Qed.

Lemma shop_step_time s s' : time_inv s -> shop_step s s' -> time_inv s'.
Proof.
  intros Hinv Hstep. destruct Hstep as [i s s' H|j s s' H|s].
  - by eapply customer_step_time.
  - by eapply chef_step_time.
  - destruct Hinv as [Hn Hl Hst]. split; simpl; [lia|done|]. intros i c pc Hc Hpc.
    eapply stage_ok_later; [|by eapply Hst]. lia.
Qed.

Lemma time_init input : time_inv (shop_init input).
Proof.
  split; simpl; [done|by rewrite length_replicate, length_fmap|].
  intros i c pc Hc Hpc. apply lookup_replicate_1 in Hpc as [-> _].
  apply list_lookup_fmap_Some in Hc as ([t k] & -> & _). done.
Qed.

Lemma reachable_time input s : rtc shop_step (shop_init input) s -> time_inv s.
Proof. intros H. eapply rtc_invariant; [exact shop_step_time|exact H|apply time_init]. Qed.

(** (C14) Timing: every customer who has left entered no earlier than its
    arrival, sat at least 1 unit after entering, asked at least 1 after
    sitting, was served at least 1 after asking, paid at least 2 after baking
    began, had the payment accepted at least 1 after paying, and left at least
    2 after that. *)
Theorem bakery_timeline (input : list (Z * Z)) (s : shop) (i : nat) (c : Customer) :
  rtc shop_step (shop_init input) s ->
  all_customers s !! i = Some c -> customer_pcs s !! i = Some Left ->
  arrival_time c <= enter_time c /\ enter_time c + 1 <= sit_time c /\
  sit_time c + 1 <= request_time c /\ request_time c + 1 <= baking_start_time c /\
  baking_start_time c + 2 <= pay_time c /\ pay_time c + 1 <= payment_accepted_time c /\
  payment_accepted_time c + 2 <= current_time s.
Proof.
  intros H Hc Hpc. destruct (reachable_time input s H) as [_ _ Hst].
  specialize (Hst _ _ _ Hc Hpc). simpl in Hst. lia.
Qed.

(** ** One register, one action per chef at a time *)

(** Whatever [what] selects from the printed events happens at least two time
    units apart ([printed] has the latest event first). *)
Definition two_apart (what : event -> option Z) (log : list event) : Prop :=
  forall i k e e' t t', (i < k)%nat -> log !! i = Some e -> log !! k = Some e' ->
    what e = Some t -> what e' = Some t' -> t' + 2 <= t.

Definition register_use (e : event) : option Z :=
  match e with EAccepts t _ _ => Some t | _ => None end.
Definition chef_action (j : nat) (e : event) : option Z :=
  match e with
  | EAccepts t k _ | EBakes t k _ => if k =? Z.of_nat (S j) then Some t else None
  | _ => None
  end.

Lemma two_apart_cons what log e :
  two_apart what log ->
  (forall t e' t', what e = Some t -> e' ∈ log -> what e' = Some t' -> t' + 2 <= t) ->
  two_apart what (e :: log).
Proof.
  intros Hl He i k a b t t' Hik Hi Hk Ha Hb.
  destruct k as [|k]; [lia|]. destruct i as [|i]; simplify_eq/=.
  - eapply He; [done|by eapply list_elem_of_lookup_2|done].
  - eapply (Hl i k); [lia|done..].
Qed.

Lemma two_apart_cons_other what log e : what e = None -> two_apart what log -> two_apart what (e :: log).
Proof. intros He Hl. apply two_apart_cons; [done|]. intros t e' t' Ht. congruence. Qed.

Record exclusive_inv (s : shop) : Prop := {
  ex_len : length (chef_pcs s) = NUM_CHEFS /\ length (chef_busy_until s) = S NUM_CHEFS;
  ex_register : two_apart register_use (printed s);
  ex_register_busy : forall e t, e ∈ printed s -> register_use e = Some t ->
    t + 2 <= cash_register_busy_until s;
  ex_chef : forall j, two_apart (chef_action j) (printed s);
  ex_chef_busy : forall j e t b, e ∈ printed s -> chef_action j e = Some t ->
    chef_busy_until s !! S j = Some b -> t + 2 <= b;
  ex_free : forall j pc b, chef_pcs s !! j = Some pc -> pc <> ChefBusy ->
    chef_busy_until s !! S j = Some b -> b <= current_time s
}.

(** Events of the customers concern neither the register nor a chef. *)
Definition customer_event (e : event) : Prop :=
  register_use e = None /\ forall j, chef_action j e = None.

Lemma customer_step_frame i s s' :
  customer_step i s = Ret (Some s') ->
  current_time s' = current_time s /\ chef_busy_until s' = chef_busy_until s /\
  cash_register_busy_until s' = cash_register_busy_until s /\ chef_pcs s' = chef_pcs s /\
  (printed s' = printed s \/ exists e, customer_event e /\ printed s' = e :: printed s).
Proof.
  intros Hs. unfold customer_step in Hs.
  destruct (all_customers s !! i) as [c|] eqn:Hc; [|done].
  destruct (customer_pcs s !! i) as [pc|] eqn:Hpc; [|done].
  destruct pc; unfold enter, sit_or_stand, sit, leave in Hs; case_ifs; try done;
    try (destruct (standing_customers s); simplify_eq/=);
    split_and!; try done; try (by left); right; eexists; by repeat split.
Qed.

Lemma exclusive_frame s s' :
  exclusive_inv s -> current_time s <= current_time s' -> chef_busy_until s' = chef_busy_until s ->
  cash_register_busy_until s' = cash_register_busy_until s -> chef_pcs s' = chef_pcs s ->
  (printed s' = printed s \/ exists e, customer_event e /\ printed s' = e :: printed s) ->
  exclusive_inv s'.
Proof.
  intros [Hl Hr Hrb Hch Hcb Hf] Ht Hb Hreg Hp [Hlog|(e & [He1 He2] & Hlog)];
    split; rewrite ?Hb, ?Hreg, ?Hp, ?Hlog; auto;
    try (by apply two_apart_cons_other);
    try (intros j; by apply two_apart_cons_other);
    try (intros j pc b H1 H2 H3; specialize (Hf _ _ _ H1 H2 H3); lia).
  - intros e' t [->|Hin]%elem_of_cons Hu; [congruence|by eapply Hrb].
  - intros j e' t b [->|Hin]%elem_of_cons Hu; [by rewrite He2 in Hu|by eapply Hcb].
Qed.

(** A chef action at [now] by chef [j], logged as [e]. *)
Lemma exclusive_act s s' j e :
  exclusive_inv s -> chef_pcs s !! j = Some ChefLoop ->
  current_time s' = current_time s ->
  printed s' = e :: printed s ->
  chef_busy_until s' = <[S j := current_time s + 2]> (chef_busy_until s) ->
  chef_pcs s' = <[j := ChefBusy]> (chef_pcs s) ->
  (forall k, chef_action k e = if Nat.eqb k j then Some (current_time s) else None) ->
  (register_use e = None /\ cash_register_busy_until s' = cash_register_busy_until s \/
   register_use e = Some (current_time s) /\ cash_register_busy_until s <= current_time s /\
   cash_register_busy_until s' = current_time s + 2) ->
  exclusive_inv s'.
Proof.
  intros [[Hl1 Hl2] Hr Hrb Hch Hcb Hf] Hpc Ht Hlog Hb Hp He Hreg.
  pose proof (lookup_lt_Some _ _ _ Hpc) as Hj.
  destruct (lookup_lt_is_Some_2 (chef_busy_until s) (S j)) as [b0 Hb0]; [lia|].
  assert (b0 <= current_time s) as Hfree by (by eapply (Hf j ChefLoop)).
  assert (two_apart register_use (printed s')) as Hr'.
  { rewrite Hlog. destruct Hreg as [[Hn _]|(Hu & Hle & _)]; [by apply two_apart_cons_other|].
    apply two_apart_cons; [done|]. intros t e' t' Hte Hin Hu'.
    specialize (Hrb _ _ Hin Hu'). rewrite Hu in Hte. simplify_eq. lia. }
  assert (forall k, two_apart (chef_action k) (printed s')) as Hch'.
  { intros k. rewrite Hlog. pose proof (He k) as Hek. destruct (Nat.eqb k j) eqn:Hkj;
      [apply Nat.eqb_eq in Hkj; subst k|by apply two_apart_cons_other].
    apply two_apart_cons; [done|]. intros t e' t' Hte Hin Hu'.
    specialize (Hcb _ _ _ _ Hin Hu' Hb0). rewrite Hek in Hte. simplify_eq. lia. }
  split; [by rewrite Hp, Hb, !length_insert|done| |done| |].
  - intros e' t Hin Hu. rewrite Hlog in Hin.
    apply elem_of_cons in Hin as [->|Hin]; [destruct Hreg; naive_solver lia|].
    specialize (Hrb _ _ Hin Hu). destruct Hreg as [[_ ->]|(_ & Hle & ->)]; lia.
  - intros k e' t b Hin Hu Hkb. rewrite Hlog in Hin. rewrite Hb in Hkb.
    apply list_lookup_insert_Some in Hkb as [(Heq & <- & _)|[Hne Hkb]].
    + assert (k = j) as -> by lia.
      apply elem_of_cons in Hin as [->|Hin].
      * rewrite (He j), Nat.eqb_refl in Hu. simplify_eq. lia.
      * specialize (Hcb _ _ _ _ Hin Hu Hb0). lia.
    + apply elem_of_cons in Hin as [->|Hin]; [|by eapply Hcb].
      rewrite (He k) in Hu. destruct (Nat.eqb k j) eqn:Hkj; [|done].
      apply Nat.eqb_eq in Hkj. lia.
  - intros k pc b Hk Hnb Hkb. rewrite Hp in Hk. rewrite Hb in Hkb. rewrite Ht.
    apply list_lookup_insert_Some in Hk as [(-> & <- & _)|[Hne Hk]]; [done|].
    rewrite list_lookup_insert_ne in Hkb by lia. by eapply Hf.
Qed.

(** A chef changes its program counter and nothing else. *)
Lemma exclusive_move s s' j pc :
  exclusive_inv s -> current_time s' = current_time s -> printed s' = printed s ->
  chef_busy_until s' = chef_busy_until s ->
  cash_register_busy_until s' = cash_register_busy_until s ->
  chef_pcs s' = <[j := pc]> (chef_pcs s) ->
  (forall b, chef_busy_until s !! S j = Some b -> b <= current_time s) -> exclusive_inv s'.
Proof.
  intros [[Hl1 Hl2] Hr Hrb Hch Hcb Hf] Ht Hlog Hb Hreg Hp Hok.
  split; rewrite ?Ht, ?Hlog, ?Hb, ?Hreg, ?Hp, ?length_insert; auto.
  intros k pc' b Hk Hnb Hkb.
  apply list_lookup_insert_Some in Hk as [(-> & <- & _)|[Hne Hk]]; [by apply Hok|by eapply Hf].
Qed.

Lemma chef_action_event now j cid e k :
  (e = EAccepts now (Z.of_nat (S j)) cid \/ e = EBakes now (Z.of_nat (S j)) cid) ->
  chef_action k e = if Nat.eqb k j then Some now else None.
Proof.
  intros [->| ->]; unfold chef_action;
    destruct (Z.eqb_spec (Z.of_nat (S j)) (Z.of_nat (S k))), (Nat.eqb_spec k j); try done; lia.
Qed.

Lemma chef_step_exclusive j s s' :
  exclusive_inv s -> chef_step j s = Some s' -> exclusive_inv s'.
Proof.
  intros Hinv Hs. unfold chef_step in Hs.
  destruct (chef_pcs s !! j) as [pc|] eqn:Hpc; [|done].
  assert (pc <> ChefBusy -> forall b, chef_busy_until s !! S j = Some b -> b <= current_time s) as Hfree.
  { intros Hne b Hb. by eapply (ex_free s Hinv j pc). }
  destruct pc as [| | |dn|]; try discriminate Hs.
  - injection Hs as <-. specialize (Hfree ltac:(done)).
    destruct (chef_section_cases j s)
      as [(i & c & Hp & Hc & ->)|[(_ & i & c & Hb & Hc & ->)|[(_ & _ & ->)| ->]]]; [| | |done].
    + eapply exclusive_act; [exact Hinv|exact Hpc|reflexivity..| |].
      * intros k. eapply chef_action_event. by left.
      * right. destruct (payment_scan_hit _ _ _ _ Hp) as (c' & _ & He & _).
        unfold payable in He. to_prop. split; [done|]. split; [lia|done].
    + eapply exclusive_act; [exact Hinv|exact Hpc|reflexivity..| |by left].
      intros k. eapply chef_action_event. by right.
    + by eapply exclusive_move.
  - case_ifs. eapply exclusive_move; [exact Hinv|reflexivity..|].
    intros b Hb. rewrite Hb in *. simpl in *. lia.
  - simplify_eq. eapply exclusive_move; [exact Hinv|reflexivity..|auto].
  - simplify_eq. eapply exclusive_move; [exact Hinv|reflexivity..|auto].
Qed.

Lemma shop_step_exclusive s s' : exclusive_inv s -> shop_step s s' -> exclusive_inv s'.
Proof.
  intros Hinv Hstep. destruct Hstep as [i s s' H|j s s' H|s].
  - destruct (customer_step_frame _ _ _ H) as (H1 & H2 & H3 & H4 & H5).
    eapply exclusive_frame; eauto. lia.
  - by eapply chef_step_exclusive.
  - eapply exclusive_frame; [done|simpl; lia|done..|by left].
Qed.

Lemma exclusive_init input : exclusive_inv (shop_init input).
Proof.
  split.
  - done.
  - intros i k e e' t t' _ Hi. done.
  - by intros e t ?%not_elem_of_nil.
  - intros j i k e e' t t' _ Hi. done.
  - by intros j e t b ?%not_elem_of_nil.
  - intros j pc b _ _ Hb. change (chef_busy_until (shop_init input)) with (replicate 5 0) in Hb.
    apply (lookup_replicate_1 5 (0:Z)) in Hb as [-> _]. done.
Qed.

Lemma reachable_exclusive input s : rtc shop_step (shop_init input) s -> exclusive_inv s.
Proof.
  intros H. eapply rtc_invariant; [exact shop_step_exclusive|exact H|apply exclusive_init].
Qed.

(** Mutual exclusion: any two payment acceptances are at least two time
    units apart (one register), and so are any two actions of one chef. *)
Theorem bakery_register_and_chefs_exclusive (input : list (Z * Z)) (s : shop) :
  rtc shop_step (shop_init input) s ->
  two_apart register_use (printed s) /\ forall j, two_apart (chef_action j) (printed s).
Proof. intros H. apply reachable_exclusive in H as []. done. Qed.

(** ** Shutdown *)

(** A customer that has left is done for good; so is one turned away. *)
Lemma pc_final_step s s' i pc :
  shop_step s s' -> customer_pcs s !! i = Some pc -> (pc = Left \/ pc = TurnedAway) ->
  customer_pcs s' !! i = Some pc.
Proof.
  intros Hstep Hpc Hfin. destruct Hstep as [k s s' Hs|j s s' Hs|s]; [| |done].
  - destruct (decide (k = i)) as [->|Hne].
    { unfold customer_step in Hs. destruct (all_customers s !! i); [|done].
      rewrite Hpc in Hs. by destruct Hfin as [-> | ->]. }
    unfold customer_step in Hs. destruct (all_customers s !! k) as [c|]; [|done].
    destruct (customer_pcs s !! k) as [pc'|]; [|done].
    destruct pc'; unfold enter, sit_or_stand, sit, leave in Hs; case_ifs; try done;
      simpl; try destruct (standing_customers s); simpl;
      by rewrite list_lookup_insert_ne by done.
  - by destruct (chef_step_floor _ _ _ Hs) as (_ & _ & _ & ->).
Qed.

Record shutdown_inv (s : shop) : Prop := {
  sd_decide : forall j, chef_pcs s !! j = Some (ChefDecide true) ->
    forall i c, all_customers s !! i = Some c -> payment_accepted_time c <> 0;
  sd_exit : forall j, chef_pcs s !! j = Some ChefExit ->
    forall i pc, customer_pcs s !! i = Some pc -> pc = Left
}.

(** Served customers stay served. *)
Lemma accepted_step s s' i c' :
  time_inv s -> shop_step s s' -> all_customers s' !! i = Some c' ->
  exists c, all_customers s !! i = Some c /\
    (payment_accepted_time c <> 0 -> payment_accepted_time c' <> 0).
Proof.
  intros Hinv Hstep Hc'. destruct Hstep as [k s s' Hs|j s s' Hs|s]; [| |eauto].
  - unfold customer_step in Hs. destruct (all_customers s !! k) as [c|] eqn:Hc; [|done].
    destruct (customer_pcs s !! k) as [pc|]; [|done].
    destruct pc; unfold enter, sit_or_stand, sit, leave in Hs; case_ifs; try done; simpl in Hc';
      try (by eauto); try (destruct (standing_customers s); simpl in Hc'; by eauto);
      apply list_lookup_insert_Some in Hc' as [(-> & <- & _)|[_ Hc']]; eauto.
  - unfold chef_step in Hs. destruct (chef_pcs s !! j) as [[| | |dn|]|]; try discriminate Hs;
      [|case_ifs; by eauto|simplify_eq; by eauto|simplify_eq; by eauto].
    injection Hs as <-.
    destruct (chef_section_cases j s)
      as [(k & c & Hp & Hc & Heq)|[(_ & k & c & Hb & Hc & Heq)|[(_ & _ & Heq)|Heq]]];
      rewrite Heq in Hc'; simpl in Hc'; eauto;
      apply list_lookup_insert_Some in Hc' as [(-> & <- & _)|[_ Hc']]; eauto.
    exists c. split; [done|]. simpl. intros _.
    destruct (payment_scan_hit _ _ _ _ Hp) as (c0 & _ & He & _).
    unfold payable in He. to_prop. lia.
Qed.

Lemma all_done_accepted s i c :
  all_done s = true -> all_customers s !! i = Some c -> payment_accepted_time c <> 0.
Proof.
  unfold all_done. intros Ha Hc. rewrite forallb_forall in Ha.
  specialize (Ha c). apply list_elem_of_lookup_2, list_elem_of_In in Hc.
  specialize (Ha Hc). to_prop. lia.
Qed.

(** When everyone is accepted and nobody is inside, everyone has left. *)
Lemma all_left s i pc :
  capacity_inv s -> time_inv s ->
  (forall i c, all_customers s !! i = Some c -> payment_accepted_time c <> 0) ->
  customers_in_shop s = 0 -> customer_pcs s !! i = Some pc -> pc = Left.
Proof.
  intros Hcap Htm Hacc H0 Hpc. destruct Hcap as [Hin _ _ _ _]. destruct Htm as [_ Hlen Hst].
  destruct (all_customers s !! i) as [c|] eqn:Hc.
  2:{ apply lookup_ge_None in Hc. apply lookup_lt_Some in Hpc. lia. }
  specialize (Hst _ _ _ Hc Hpc). specialize (Hacc _ _ Hc).
  assert (in_shop pc = false) as Hout.
  { destruct (in_shop pc) eqn:He; [|done]. pose proof (countb_pos _ _ _ _ Hpc He). lia. }
  destruct pc; try done; simpl in Hst; lia.
Qed.

(** How a chef can come to have decided to leave, and to have left. *)
Lemma chef_pc_step s s' j :
  shop_step s s' ->
  (chef_pcs s' !! j = Some (ChefDecide true) ->
     chef_pcs s !! j = Some (ChefDecide true) \/ all_done s' = true) /\
  (chef_pcs s' !! j = Some ChefExit ->
     chef_pcs s !! j = Some ChefExit \/
     chef_pcs s !! j = Some (ChefDecide true) /\ customers_in_shop s = 0).
Proof.
  intros Hstep. destruct Hstep as [k s s' Hs|k s s' Hs|s]; [| |by split; left].
  { destruct (customer_step_frame _ _ _ Hs) as (_ & _ & _ & <- & _). by split; left. }
  assert (exists pc', chef_pcs s' = <[k := pc']> (chef_pcs s) /\
    (pc' = ChefDecide true -> all_done s' = true) /\
    (pc' = ChefExit -> chef_pcs s !! k = Some (ChefDecide true) /\ customers_in_shop s = 0))
    as (pc' & -> & Hd & Hx).
  { unfold chef_step in Hs. destruct (chef_pcs s !! k) as [[| | |dn|]|] eqn:Hk; try discriminate Hs.
    - injection Hs as <-.
      destruct (chef_section_cases k s)
        as [(i & c & _ & _ & ->)|[(_ & i & c & _ & _ & ->)|[(_ & _ & ->)| ->]]];
        [exists ChefBusy|exists ChefBusy|exists ChefCheck|exists ChefLoop]; split_and!; try done.
      by rewrite list_insert_id.
    - case_ifs. by exists ChefLoop.
    - simplify_eq. exists (ChefDecide (all_done s)). split_and!; try done. by intros [= ?].
    - simplify_eq. exists (if dn && (customers_in_shop s =? 0) then ChefExit else ChefLoop).
      split; [done|]. destruct dn; simpl; [|done].
      destruct (Z.eqb_spec (customers_in_shop s) 0); done. }
  split; intros [(-> & Heq & _)|[_ Hj]]%list_lookup_insert_Some;
    first [by left|right; by auto].
Qed.

Lemma pcs_length_step s s' :
  shop_step s s' -> length (customer_pcs s') = length (customer_pcs s).
Proof.
  intros Hstep. destruct Hstep as [k s s' Hs|k s s' Hs|s]; [| |done].
  - unfold customer_step in Hs. destruct (all_customers s !! k) as [c|]; [|done].
    destruct (customer_pcs s !! k) as [pc'|]; [|done].
    destruct pc'; unfold enter, sit_or_stand, sit, leave in Hs; case_ifs; try done;
      simpl; try destruct (standing_customers s); simpl; by rewrite length_insert.
  - by destruct (chef_step_floor _ _ _ Hs) as (_ & _ & _ & ->).
Qed.

Lemma shutdown_step s s' :
  capacity_inv s -> time_inv s -> shutdown_inv s -> shop_step s s' -> shutdown_inv s'.
Proof.
  intros Hcap Htm [Hd Hx] Hstep. split; intros j Hj; destruct (chef_pc_step s s' j Hstep) as [H1 H2].
  - intros i c' Hc'. destruct (H1 Hj) as [Hold|Hall]; [|by eapply all_done_accepted].
    destruct (accepted_step s s' i c' Htm Hstep Hc') as (c & Hc & Himp).
    apply Himp. by eapply Hd.
  - intros i pc Hpc.
    assert (forall k pc0, customer_pcs s !! k = Some pc0 -> pc0 = Left) as Hall.
    { destruct (H2 Hj) as [Hold|[Hdec H0]]; [by eapply Hx|].
      intros k pc0. apply all_left; auto. by eapply Hd. }
    destruct (customer_pcs s !! i) as [pc0|] eqn:Hpc0.
    + rewrite (Hall _ _ Hpc0) in Hpc0.
      pose proof (pc_final_step s s' i Left Hstep Hpc0 ltac:(by left)). congruence.
    + apply lookup_ge_None in Hpc0. apply lookup_lt_Some in Hpc.
      rewrite (pcs_length_step s s' Hstep) in Hpc. lia.
Qed.

Lemma reachable_shutdown input s : rtc shop_step (shop_init input) s -> shutdown_inv s.
Proof.
  intros H. apply (rtc_invariant shop_step
    (fun s => capacity_inv s /\ time_inv s /\ shutdown_inv s)) in H as (_ & _ & Hs); [done| |].
  - intros x y (Hc & Ht & Hs) Hxy. split; [by eapply shop_step_capacity|].
    split; [by eapply shop_step_time|by eapply shutdown_step].
  - split; [apply capacity_init|]. split; [apply time_init|].
    split; simpl; intros j Hj; by apply (lookup_replicate_1 4) in Hj as [? _].
Qed.

(** Shutdown is safe but not live: a chef thread exits only when every
    customer has left after being served.  Hence once any customer was turned
    away at the full shop, no chef ever exits, in any continuation, and
    main's join of the chefs never returns. *)
Theorem bakery_turned_away_blocks_shutdown (input : list (Z * Z)) (s s' : shop) (i j : nat) :
  rtc shop_step (shop_init input) s -> customer_pcs s !! i = Some TurnedAway ->
  rtc shop_step s s' ->
  chef_pcs s' !! j <> Some ChefExit.
Proof.
  intros Hs Hpc Hrun Hexit.
  assert (customer_pcs s' !! i = Some TurnedAway) as Hpc'.
  { eapply (rtc_invariant shop_step (fun x => customer_pcs x !! i = Some TurnedAway));
      [|exact Hrun|exact Hpc]. intros x y Hx Hxy. by eapply pc_final_step; [| |right]. }
  assert (rtc shop_step (shop_init input) s') as Hr by (by etrans).
  apply reachable_shutdown in Hr as [_ Hx]. specialize (Hx j Hexit i _ Hpc'). done.
Qed.

(** ** Concrete executions *)

Inductive action := ACustomer (i : nat) | AChef (j : nat) | ATick.

Definition do_action (a : action) (s : shop) : option shop :=
  match a with
  | ACustomer i => match customer_step i s with Ret o => o | _ => None end
  | AChef j => chef_step j s
  | ATick => Some (timer_step s)
  end.

Fixpoint do_actions (l : list action) (s : shop) : option shop :=
  match l with
  | [] => Some s
  | a :: l' => match do_action a s with Some s' => do_actions l' s' | None => None end
  end.

Lemma do_actions_rtc l s s' : do_actions l s = Some s' -> rtc shop_step s s'.
Proof.
  revert s. induction l as [|a l IH]; intros s H; simpl in H; simplify_eq; [done|].
  destruct (do_action a s) as [s1|] eqn:Ha; [|done]. apply IH in H.
  eapply rtc_l; [|exact H]. destruct a as [i|j|]; simpl in Ha.
  - destruct (customer_step i s) eqn:Hc; simplify_eq. by eapply step_customer.
  - by eapply step_chef.
  - simplify_eq. apply step_timer.
Qed.

Lemma do_actions_test l input (test : shop -> bool) :
  match do_actions l (shop_init input) with Some s => test s | None => false end = true ->
  exists s, rtc shop_step (shop_init input) s /\ test s = true.
Proof.
  destruct (do_actions l (shop_init input)) as [s|] eqn:H; [|done].
  intros Ht. exists s. split; [by eapply do_actions_rtc|done].
Qed.

(** One customer from the door to the street. *)
Definition one_customer_day : list action :=
  [ACustomer 0; ATick; ACustomer 0; ATick; ACustomer 0; ATick; AChef 0; ACustomer 0; ATick; ATick;
   ACustomer 0; AChef 0; ATick; AChef 1; ACustomer 0; ATick; ATick; ACustomer 0]%nat.

Lemma bakery_capacity_witness :
  exists s, rtc shop_step (shop_init [(0, 1)]) s /\ (customers_in_shop s =? 1) = true /\
    customers_in_shop s <= MAX_CAPACITY.
Proof.
  destruct (do_actions_test [ACustomer 0] [(0, 1)] (fun s => customers_in_shop s =? 1))
    as (s & Hr & Ht); [vm_compute; reflexivity|].
  exists s. split; [exact Hr|]. split; [exact Ht|].
  apply (bakery_capacity [(0, 1)] s 0%nat). exact Hr.
Defined.

Lemma bakery_seating_is_fifo_witness :
  exists s, rtc shop_step (shop_init [(0, 1)]) s /\
    (customers_on_sofa (timer_step s) = customers_on_sofa s + 1 -> standing_customers s = []).
Proof.
  exists (shop_init [(0, 1)]). split; [apply rtc_refl|].
  apply (bakery_seating_is_fifo [(0, 1)] (shop_init [(0, 1)])); [apply rtc_refl|apply step_timer].
Defined.

Lemma bakery_timeline_witness :
  exists s c, rtc shop_step (shop_init [(0, 1)]) s /\
    all_customers s !! 0%nat = Some c /\ payment_accepted_time c + 2 <= current_time s.
Proof.
  destruct (do_actions_test one_customer_day [(0, 1)]
    (fun s => match customer_pcs s !! 0%nat, all_customers s !! 0%nat with
              | Some Left, Some _ => true | _, _ => false end)) as (s & Hr & Ht);
    [vm_compute; reflexivity|].
  destruct (customer_pcs s !! 0%nat) as [pc|] eqn:Hpc; [|discriminate Ht].
  destruct (all_customers s !! 0%nat) as [c|] eqn:Hc; [|destruct pc; discriminate Ht].
  exists s, c. split; [exact Hr|]. split; [exact Hc|].
  assert (pc = Left) as Hleft by (destruct pc; congruence).
  apply (bakery_timeline [(0, 1)] s 0%nat c); [exact Hr|exact Hc|].
  rewrite Hpc, Hleft. reflexivity.
Defined.

Lemma bakery_register_and_chefs_exclusive_witness :
  exists s, rtc shop_step (shop_init [(0, 1)]) s /\
    (2 <=? length (List.filter (fun e => match chef_action 0 e with Some _ => true | None => false end)
                  (printed s)))%nat = false /\
    two_apart register_use (printed s).
Proof.
  destruct (do_actions_test one_customer_day [(0, 1)] (fun s =>
     negb (2 <=? length (List.filter (fun e => match chef_action 0 e with Some _ => true | None => false end)
                  (printed s)))%nat)) as (s & Hr & Ht); [vm_compute; reflexivity|].
  exists s. split; [exact Hr|]. split; [apply negb_true_iff; exact Ht|].
  apply (bakery_register_and_chefs_exclusive [(0, 1)] s). exact Hr.
Defined.

(** Twenty-six customers at the same moment: the last one is turned away. *)
Definition crowd : list (Z * Z) := (fun n => (0, Z.of_nat n)) <$> seq 1 26.

Lemma bakery_turned_away_blocks_shutdown_witness :
  exists s, rtc shop_step (shop_init crowd) s /\
    forall s' j, rtc shop_step s s' -> chef_pcs s' !! j <> Some ChefExit.
Proof.
  destruct (do_actions_test (ACustomer <$> seq 0 26) crowd
    (fun s => match customer_pcs s !! 25%nat with Some TurnedAway => true | _ => false end))
    as (s & Hr & Ht); [vm_compute; reflexivity|].
  exists s. split; [exact Hr|]. intros s' j Hrun.
  apply (bakery_turned_away_blocks_shutdown crowd s s' 25 j); [exact Hr| |exact Hrun].
  destruct (customer_pcs s !! 25%nat) as [pc|]; [|discriminate Ht].
  destruct pc; try discriminate Ht. reflexivity.
Defined.
