(* ===== verification/Proc.v ===== *)
(** * Processes and the three schedulers (xv6-scheduling/xv6-riscv/kernel/proc.c)

    One hart (the Makefile's default, CPUS := 1).  What a process does between
    two points at which the kernel can switch away from it is one step of the
    model; it holds a lock there, and so runs with interrupts off, or touches
    only what is its own.  [kfork], which lets go of the child's lock twice
    before the child can run, and [kexit], which can sleep while it closes the
    files, are sequences of steps: [inside] records how far a process is in
    one.  The scans of the table by [allocproc] and [kkill], which take and
    release one lock after the other, are part of the step that finds a slot.  The scheduler, which runs when no process does, takes
    its own steps.  Page tables, memory, files and inodes are behind the
    [proc_env] interface. *)
From S2P Require Import Prelude.

#[local] Open Scope Z_scope.

(** What proc.c asks of vm.c, kalloc.c, file.c and fs.c.  [W] is their state;
    pointers are addresses, 0 the null pointer. *)
Class proc_env (W : Type) := {
  kalloc : W -> option (Z * W);
  kfree : Z -> W -> W;
  proc_pagetable : Z -> W -> option (Z * W);         (* of a trapframe *)
  proc_freepagetable : Z -> Z -> W -> W;             (* page table, size *)
  uvmcopy : Z -> Z -> Z -> W -> bool * W;            (* old, new, size *)
  uvmalloc : Z -> Z -> Z -> W -> Z * W;              (* page table, old, new size *)
  uvmdealloc : Z -> Z -> Z -> W -> Z * W;
  copyout_int : Z -> Z -> Z -> W -> bool * W;        (* page table, address, int *)
  copy_trapframe : Z -> Z -> W -> W;                 (* from, to; a0 := 0 *)
  filedup : Z -> W -> W;
  fileclose : Z -> W -> W;
  idup : Z -> W -> W;
  iput_op : Z -> W -> W;                             (* begin_op; iput; end_op *)
  root_inode : W -> Z * W                            (* namei("/") *)
}.

Module Proc.

(** ** param.h, proc.h *)

Definition NPROC : nat := 64.
Definition NOFILE : nat := 16.
Definition TARGET_LATENCY : Z := 48.
Definition MIN_TIME_SLICE : Z := 3.

Definition nice_to_weight : list Z :=
  [88761; 71755; 56364; 46273; 36421; 29156; 23257; 18705; 14949;
   11916; 9548; 7620; 6100; 4875; 3904; 3121; 2501; 1991; 1586;
   1277; 1024; 820; 655; 526; 423; 335; 272; 215; 172; 137; 110;
   87; 70; 56; 45; 36; 29; 23; 18; 15].

Inductive procstate := UNUSED | USED | SLEEPING | RUNNABLE | RUNNING | ZOMBIE.
#[global] Instance procstate_eq_dec : EqDecision procstate.
Proof. solve_decision. Defined.

(** Wait channels: the null pointer, the address of a process slot ([kwait]),
    the address of anything else. *)
Inductive channel := NoChan | ChanProc (i : nat) | ChanAddr (a : Z).
#[global] Instance channel_eq_dec : EqDecision channel.
Proof. solve_decision. Defined.

Record proc := mk_proc {
  state : procstate;
  chan : channel;
  killed : Z;
  xstate : Z;
  pid : Z;
  parent : option nat;
  sz : Z;
  pagetable : Z;
  trapframe : Z;
  ofile : list Z;
  cwd : Z;
  name : list Z;
  creation_time : Z;
  nice : Z;
  weight : Z;
  vruntime : Z;
  time_slice : Z
}.

(** A slot of the zero-initialised table. *)
Definition zero_proc : proc :=
  {| state := UNUSED; chan := NoChan; killed := 0; xstate := 0; pid := 0; parent := None;
     sz := 0; pagetable := 0; trapframe := 0; ofile := replicate NOFILE 0; cwd := 0; name := [];
     creation_time := 0; nice := 0; weight := 0; vruntime := 0; time_slice := 0 |}.

(** Which scheduler the kernel was compiled with. *)
Inductive policy := CFS | FCFS | RR.
#[global] Instance policy_eq_dec : EqDecision policy.
Proof. solve_decision. Defined.

(** Where a process is inside a kernel operation that it can be switched away
    from: [kfork] after the child's lock was released, without and with the
    child's parent set; [kexit], with the number of files and of the current
    directory that are done. *)
Inductive activity := Forking (child : nat) (parented : bool) | Exiting (status : Z) (done : nat).

(** &ticks, the channel of [sys_pause]. *)
Definition ticks_chan : channel := ChanAddr 1.

Section kernel.
Context {W : Type} `{!proc_env W}.

Record kernel := mk_kernel {
  procs : list proc;
  nextpid : Z;
  next_creation_time : Z;
  initproc : option nat;
  cpu_proc : option nat;      (* c->proc *)
  rr_pos : nat;               (* the round-robin loop's position in the table *)
  inside : gmap nat activity; (* the operations in progress, on the kernel stacks *)
  ticks : Z;
  world : W
}.

Definition set_proc (i : nat) (p : proc) (k : kernel) : kernel :=
  {| k with procs := <[i := p]> (procs k) |}.
Definition set_world (w : W) (k : kernel) : kernel := {| k with world := w |}.
Definition enter (me : nat) (a : activity) (k : kernel) : kernel :=
  {| k with inside := <[me := a]> (inside k) |}.
Definition leave (me : nat) (k : kernel) : kernel :=
  {| k with inside := delete me (inside k) |}.

(** procinit *)
Definition procinit (w : W) : kernel :=
  {| procs := replicate NPROC zero_proc; nextpid := 1; next_creation_time := 1;
     initproc := None; cpu_proc := None; rr_pos := 0; inside := ∅; ticks := 0; world := w |}.

(** The processes the schedulers and the fairness computations consider. *)
Definition runnable_user (p : proc) : bool :=
  bool_decide (state p = RUNNABLE) && (2 <? pid p).

(** ** Allocation *)

Definition allocpid (k : kernel) : Z * kernel :=
  (nextpid k, {| k with nextpid := i32 (nextpid k + 1) |}).

Definition freed (p : proc) : proc :=
  {| p with trapframe := 0; pagetable := 0; sz := 0; pid := 0; parent := None; name := [];
            chan := NoChan; killed := 0; xstate := 0; creation_time := 0; state := UNUSED |}.

Definition freeproc (i : nat) (p : proc) (k : kernel) : kernel :=
  let w := world k in
  let w := if trapframe p =? 0 then w else kfree (trapframe p) w in
  let w := if pagetable p =? 0 then w else proc_freepagetable (pagetable p) (sz p) w in
  set_proc i (freed p) (set_world w k).

(** The least virtual runtime [allocproc] computes. *)
Definition alloc_vruntime (l : list proc) : Z :=
  let m := match scan_min runnable_user vruntime 0 None l with
           | Some (_, p) => vruntime p
           | None => 0
           end in
  if m =? 2 ^ 64 - 1 then 0 else m.

(** Returns the slot with its lock held, or [None]. *)
Definition allocproc (k : kernel) : option nat * kernel :=
  let min_vruntime := alloc_vruntime (procs k) in
  match find_idx (fun p => bool_decide (state p = UNUSED)) (procs k) with
  | None => (None, k)
  | Some i =>
      match procs k !! i with
      | None => (None, k)
      | Some p =>
          let '(np, k) := allocpid k in
          let p := {| p with pid := np; state := USED; nice := 0;
                             weight := default 0 (nice_to_weight !! 20%nat);
                             vruntime := min_vruntime; time_slice := 0;
                             creation_time := next_creation_time k |} in
          let k := {| k with next_creation_time := u64 (next_creation_time k + 1) |} in
          match kalloc (world k) with
          | None =>
              let p := {| p with trapframe := 0 |} in
              (None, freeproc i p (set_proc i p k))
          | Some (tf, w) =>
              let p := {| p with trapframe := tf |} in
              let k := set_world w k in
              match proc_pagetable tf (world k) with
              | None =>
                  let p := {| p with pagetable := 0 |} in
                  (None, freeproc i p (set_proc i p k))
              | Some (pt, w) =>
                  let p := {| p with pagetable := pt |} in
                  (Some i, set_proc i p (set_world w k))
              end
          end
      end
  end.

Definition userinit (k : kernel) : outcome kernel :=
  match allocproc k with
  | (Some i, k) =>
      match procs k !! i with
      | Some p =>
          let '(root, w) := root_inode (world k) in
          let k := {| k with initproc := Some i; world := w |} in
          Ret (set_proc i {| p with cwd := root; state := RUNNABLE |} k)
      | None => Undef "allocproc: slot"
      end
  | (None, _) => Undef "userinit: null dereference"
  end.

(** The process on the CPU. *)
Definition myproc (k : kernel) : option (nat * proc) :=
  i ← cpu_proc k; p ← procs k !! i; Some (i, p).

(** ** Memory size *)

Definition growproc (n : Z) (me : nat) (p : proc) (k : kernel) : Z * kernel :=
  if 0 <? n then
    let '(sz', w) := uvmalloc (pagetable p) (sz p) (u64 (sz p + n)) (world k) in
    if sz' =? 0 then (-1, set_world w k)
    else (0, set_proc me {| p with sz := sz' |} (set_world w k))
  else if n <? 0 then
    let '(sz', w) := uvmdealloc (pagetable p) (sz p) (u64 (sz p + n)) (world k) in
    (0, set_proc me {| p with sz := sz' |} (set_world w k))
  else (0, set_proc me {| p with sz := sz p |} k).

(** ** Fork *)

(** [min_vruntime] of [kfork], with its all-ones "none yet" value. *)
Definition fork_vruntime (l : list proc) (own : Z) : Z :=
  let none := 2 ^ 64 - 1 in
  let m := fold_left (fun m p =>
             if runnable_user p && ((m =? none) || (vruntime p <? m)) then vruntime p else m)
             l none in
  if m =? none then own else m.

(** Duplicate the open files. *)
Definition dup_files (fs : list Z) (w : W) : W :=
  fold_left (fun w f => if f =? 0 then w else filedup f w) fs w.

(** [kfork] up to the release of the child's lock; -1 or the pid it will
    return.  The child is not runnable yet and has no parent. *)
Definition kfork (me : nat) (p : proc) (k : kernel) : Z * kernel :=
  match allocproc k with
  | (None, k) => (-1, k)
  | (Some i, k) =>
      match procs k !! i with
      | None => (-1, k)
      | Some np =>
          let '(ok, w) := uvmcopy (pagetable p) (pagetable np) (sz p) (world k) in
          let k := set_world w k in
          if negb ok then (-1, freeproc i np k)
          else
            let np := {| np with sz := sz p; nice := nice p; weight := weight p;
                                 vruntime := fork_vruntime (procs k) (vruntime p) |} in
            let w := copy_trapframe (trapframe p) (trapframe np) (world k) in
            let w := dup_files (ofile p) w in
            let w := idup (cwd p) w in
            let np := {| np with
                           ofile := zip_with (fun f g => if f =? 0 then g else f)
                                             (ofile p) (ofile np);
                           cwd := cwd p; name := name p |} in
            (pid np, enter me (Forking i false) (set_proc i np (set_world w k)))
      end
  end.

(** Under [wait_lock]. *)
Definition kfork_parent (me i : nat) (np : proc) (k : kernel) : kernel :=
  enter me (Forking i true) (set_proc i {| np with parent := Some me |} k).

(** Under the child's lock again; then [kfork] returns. *)
Definition kfork_run (me i : nat) (np : proc) (k : kernel) : kernel :=
  leave me (set_proc i {| np with state := RUNNABLE |} k).

(** ** Sleep and wakeup *)

(** [wakeup]: every process but the current one. *)
Definition wake (c : channel) (self : option nat) (i : nat) (p : proc) : proc :=
  if negb (bool_decide (Some i = self)) && bool_decide (state p = SLEEPING)
     && bool_decide (chan p = c)
  then {| p with state := RUNNABLE |} else p.

Definition wakeup (c : channel) (k : kernel) : kernel :=
  {| k with procs := imap (wake c (cpu_proc k)) (procs k) |}.

(** ** The schedulers *)

Definition num_runnable (k : kernel) : Z := Z.of_nat (countb runnable_user (procs k)).

Definition cfs_slice (n : Z) : Z :=
  let slice := if 0 <? n then Z.quot TARGET_LATENCY n else TARGET_LATENCY in
  if slice <? MIN_TIME_SLICE then MIN_TIME_SLICE else slice.

Definition cfs_pick (l : list proc) : option nat :=
  match scan_min runnable_user vruntime 0 None l with
  | Some (i, _) => Some i
  | None => find_idx (fun p => bool_decide (state p = RUNNABLE)) l
  end.

Definition fcfs_pick (l : list proc) : option nat :=
  fst <$> scan_min runnable_user creation_time 0 None l.

Definition dispatch (i : nat) (p : proc) (k : kernel) : kernel :=
  let k := set_proc i {| p with state := RUNNING |} k in
  {| k with cpu_proc := Some i |}.

Definition next_rr (i : nat) : nat := if (S i <? NPROC)%nat then S i else 0%nat.

(** One pass of the scheduler's loop up to the context switch; [k] itself
    when it would wait for an interrupt.  The round-robin pass examines the
    slot at its loop position. *)
Definition scheduler_pass (pol : policy) (k : kernel) : kernel :=
  match pol with
  | CFS =>
      match cfs_pick (procs k) with
      | Some i =>
          match procs k !! i with
          | Some p => dispatch i {| p with time_slice := cfs_slice (num_runnable k) |} k
          | None => k
          end
      | None => k
      end
  | FCFS =>
      match fcfs_pick (procs k) with
      | Some i => match procs k !! i with Some p => dispatch i p k | None => k end
      | None => k
      end
  | RR =>
      match procs k !! rr_pos k with
      | Some p => if runnable_user p then dispatch (rr_pos k) p k
                  else {| k with rr_pos := next_rr (rr_pos k) |}
      | None => {| k with rr_pos := next_rr (rr_pos k) |}
      end
  end.

(** What the scheduler adds to the virtual runtime after the switch back. *)
Definition charge (p : proc) : Z :=
  u64 (vruntime p + Z.quot (time_slice p * 1024) (weight p)).

(** The rest of the pass, when process [i] has switched back. *)
Definition scheduler_return (pol : policy) (i : nat) (k : kernel) : kernel :=
  let k := {| k with cpu_proc := None |} in
  match pol with
  | CFS => match procs k !! i with
           | Some p => set_proc i {| p with vruntime := charge p |} k
           | None => k
           end
  | FCFS => k
  | RR => {| k with rr_pos := next_rr (rr_pos k) |}
  end.

Definition sched (pol : policy) (me : nat) (k : kernel) : outcome kernel :=
  match procs k !! me with
  | Some p => if bool_decide (state p = RUNNING) then Panic "sched RUNNING"
              else Ret (scheduler_return pol me k)
  | None => Undef "sched: no process"
  end.

Definition yield (pol : policy) (me : nat) (p : proc) (k : kernel) : outcome kernel :=
  sched pol me (set_proc me {| p with state := RUNNABLE |} k).

(** [sleep] up to the switch; [resume] is what it does when scheduled again. *)
Definition sleep (pol : policy) (c : channel) (me : nat) (p : proc) (k : kernel)
    : outcome kernel :=
  sched pol me (set_proc me {| p with chan := c; state := SLEEPING |} k).

Definition resume (me : nat) (p : proc) (k : kernel) : kernel :=
  set_proc me {| p with chan := NoChan |} k.

(** ** Exit and wait *)

Definition is_child (me : nat) (p : proc) : bool := bool_decide (parent p = Some me).

(** [reparent]: children go to init, which is woken for each. *)
Definition reparent_at (me : nat) (k : kernel) (i : nat) : kernel :=
  match procs k !! i with
  | Some pp =>
      if is_child me pp then
        let k := set_proc i {| pp with parent := initproc k |} k in
        wakeup (match initproc k with Some j => ChanProc j | None => NoChan end) k
      else k
  | None => k
  end.

Definition reparent (me : nat) (k : kernel) : kernel :=
  fold_left (reparent_at me) (seq 0 (length (procs k))) k.

(** [kexit] begins. *)
Definition kexit (status : Z) (me : nat) (k : kernel) : outcome kernel :=
  if bool_decide (initproc k = Some me) then Panic "init exiting"
  else Ret (enter me (Exiting status 0) k).

(** The rest, when [wait_lock] is taken: the children go to init, the parent is
    woken, and the process is a zombie when the lock is released. *)
Definition kexit_finish (pol : policy) (status : Z) (me : nat) (k : kernel) : outcome kernel :=
  match procs k !! me with
  | Some p =>
      let k := reparent me k in
      let k := wakeup (match parent p with Some j => ChanProc j | None => NoChan end) k in
      match procs k !! me with
      | Some p => sched pol me (leave me (set_proc me {| p with xstate := status; state := ZOMBIE |} k))
      | None => Undef "kexit: no process"
      end
  | None => Undef "kexit: no process"
  end.

(** The next step of [kexit]: close file [n], then let go of the current
    directory, then finish. *)
Definition kexit_step (pol : policy) (status : Z) (n : nat) (me : nat) (p : proc) (k : kernel)
    : outcome kernel :=
  if (n <? NOFILE)%nat then
    let f := default 0 (ofile p !! n) in
    let w := if f =? 0 then world k else fileclose f (world k) in
    Ret (enter me (Exiting status (S n)) (set_proc me {| p with ofile := <[n := 0]> (ofile p) |} (set_world w k)))
  else if (n =? NOFILE)%nat then
    let w := iput_op (cwd p) (world k) in
    Ret (enter me (Exiting status (S n)) (set_proc me {| p with cwd := 0 |} (set_world w k)))
  else kexit_finish pol status me k.

(** One round of [kwait]'s loop: the scan, then return or sleep. *)
Inductive wait_result := Waited (pid : Z) | Slept.

Definition kwait (pol : policy) (addr : Z) (me : nat) (p : proc) (k : kernel)
    : outcome (wait_result * kernel) :=
  match find_idx (fun pp => is_child me pp && bool_decide (state pp = ZOMBIE)) (procs k) with
  | Some i =>
      match procs k !! i with
      | Some pp =>
          if addr =? 0 then Ret (Waited (pid pp), freeproc i pp k)
          else
            let '(ok, w) := copyout_int (pagetable p) addr (xstate pp) (world k) in
            let k := set_world w k in
            if ok then Ret (Waited (pid pp), freeproc i pp k) else Ret (Waited (-1), k)
      | None => Undef "kwait: slot"
      end
  | None =>
      let havekids := match find_idx (is_child me) (procs k) with Some _ => true | None => false end in
      if negb havekids || negb (killed p =? 0) then Ret (Waited (-1), k)
      else k' ← sleep pol (ChanProc me) me p k; Ret (Slept, k')
  end.

(** ** Kill *)

Definition kkill (n : Z) (k : kernel) : Z * kernel :=
  match find_idx (fun p => pid p =? n) (procs k) with
  | Some i =>
      match procs k !! i with
      | Some p =>
          let p := {| p with killed := 1 |} in
          let p := if bool_decide (state p = SLEEPING) then {| p with state := RUNNABLE |} else p in
          (0, set_proc i p k)
      | None => (-1, k)
      end
  | None => (-1, k)
  end.

Definition setkilled (i : nat) (p : proc) (k : kernel) : kernel :=
  set_proc i {| p with killed := 1 |} k.

(** ** The timer (trap.c) *)

Definition clockintr (k : kernel) : kernel :=
  let k := {| k with ticks := u32 (ticks k + 1) |} in
  wakeup ticks_chan k.

(** Whether a timer interrupt makes the current process give up the CPU. *)
Definition timer_yields (pol : policy) (p : proc) : bool :=
  match pol with FCFS => pid p <=? 2 | _ => true end.

(** A timer interrupt in user space ([usertrap]): a killed process exits. *)
Definition usertrap_timer (pol : policy) (me : nat) (k : kernel) : outcome kernel :=
  let k := clockintr k in
  match procs k !! me with
  | Some p =>
      if negb (killed p =? 0) then kexit (-1) me k
      else if timer_yields pol p then yield pol me p k else Ret k
  | None => Undef "usertrap: no process"
  end.

(** A timer interrupt in the kernel ([kerneltrap]), on behalf of a process or
    in the idle scheduler. *)
Definition kerneltrap_timer (pol : policy) (k : kernel) : outcome kernel :=
  let k := clockintr k in
  match myproc k with
  | Some (me, p) => if timer_yields pol p then yield pol me p k else Ret k
  | None => Ret k
  end.

(** ** The kernel as a transition system *)

(** The current process, past the tidying-up of [sleep]; it may start an
    operation when it is not inside another. *)
Definition on_cpu (k : kernel) (me : nat) (p : proc) : Prop :=
  myproc k = Some (me, p) /\ chan p = NoChan.
Definition acting (k : kernel) (me : nat) (p : proc) : Prop :=
  on_cpu k me p /\ inside k !! me = None.

(** Where a process can sleep: not in [kfork]. *)
Definition may_sleep (k : kernel) (me : nat) : Prop :=
  match inside k !! me with Some (Forking _ _) => False | _ => True end.

Inductive kstep (pol : policy) : relation kernel :=
| k_scheduler k : cpu_proc k = None -> kstep pol k (scheduler_pass pol k)
| k_idle_timer k k' : cpu_proc k = None -> kerneltrap_timer pol k = Ret k' -> kstep pol k k'
| k_resume k me p : myproc k = Some (me, p) -> chan p <> NoChan -> kstep pol k (resume me p k)
| k_fork k me p r k' : acting k me p -> kfork me p k = (r, k') -> kstep pol k k'
| k_fork_parent k me p i np :
    on_cpu k me p -> inside k !! me = Some (Forking i false) -> procs k !! i = Some np ->
    kstep pol k (kfork_parent me i np k)
| k_fork_run k me p i np :
    on_cpu k me p -> inside k !! me = Some (Forking i true) -> procs k !! i = Some np ->
    kstep pol k (kfork_run me i np k)
| k_exit k me p status k' : acting k me p -> kexit status me k = Ret k' -> kstep pol k k'
| k_exit_step k me p status n k' :
    on_cpu k me p -> inside k !! me = Some (Exiting status n) ->
    kexit_step pol status n me p k = Ret k' -> kstep pol k k'
| k_wait k me p addr r k' : acting k me p -> kwait pol addr me p k = Ret (r, k') -> kstep pol k k'
| k_sleep k me p a k' :
    on_cpu k me p -> may_sleep k me -> sleep pol (ChanAddr a) me p k = Ret k' -> kstep pol k k'
| k_kill k me p n r k' : acting k me p -> kkill n k = (r, k') -> kstep pol k k'
| k_grow k me p n r k' : acting k me p -> growproc n me p k = (r, k') -> kstep pol k k'
| k_fault k me p : acting k me p -> kstep pol k (setkilled me p k)
| k_user_timer k me p k' : acting k me p -> usertrap_timer pol me k = Ret k' -> kstep pol k k'
| k_kernel_timer k me p k' : on_cpu k me p -> kerneltrap_timer pol k = Ret k' -> kstep pol k k'
| k_wakeup k a : kstep pol k (wakeup (ChanAddr a) k).

End kernel.
Arguments kernel : clear implicits.
End Proc.
