(* ===== verification/ProcFacts.v ===== *)
(** * The process table: the invariant and its preservation by every operation *)
From S2P Require Import Prelude Proc.
Import Proc.

#[local] Open Scope Z_scope.

Section facts.
Context {W : Type} `{!proc_env W}.
Implicit Types (k : kernel W) (p q : proc) (i j me : nat).

Definition live p : Prop := state p <> UNUSED /\ state p <> ZOMBIE.

(** [kwait] of process [i] is asleep. *)
Definition own_sleep i p : Prop := state p = SLEEPING /\ chan p = ChanProc i.

(** What is known of a process inside an operation: the child of a fork is USED
    and has the forking process as its parent, or none yet; init does not
    exit. *)
Definition inside_ok k me (a : activity) : Prop :=
  exists p, procs k !! me = Some p /\ live p /\
  match a with
  | Forking c par => c <> me /\ initproc k <> Some c /\ exists np, procs k !! c = Some np /\
      state np = USED /\ parent np = (if par then Some me else None)
  | Exiting _ _ => initproc k <> Some me
  end.

Definition forked (a : activity) : option nat :=
  match a with Forking c _ => Some c | Exiting _ _ => None end.

Record kinv k : Prop := {
  ki_len : length (procs k) = NPROC;
  ki_time : next_creation_time k = nextpid k /\ 0 < nextpid k < 2 ^ 31;
  ki_cpu : forall i p, procs k !! i = Some p -> (state p = RUNNING <-> cpu_proc k = Some i);
  ki_cpu_lt : forall i, cpu_proc k = Some i -> is_Some (procs k !! i);
  ki_unused : forall i p, procs k !! i = Some p -> state p = UNUSED ->
    pid p = 0 /\ parent p = None /\ chan p = NoChan;
  ki_used : forall i p, procs k !! i = Some p -> state p = USED ->
    exists me par, inside k !! me = Some (Forking i par);
  ki_inside : forall me a, inside k !! me = Some a -> inside_ok k me a;
  ki_forked : forall me me' a a' c, inside k !! me = Some a -> inside k !! me' = Some a' ->
    forked a = Some c -> forked a' = Some c -> me = me';
  ki_pid : forall i p, procs k !! i = Some p -> state p <> UNUSED ->
    0 < pid p < nextpid k /\ creation_time p = pid p /\ nice p = 0 /\ weight p = 1024;
  ki_inj : forall i j p q, procs k !! i = Some p -> procs k !! j = Some q ->
    state p <> UNUSED -> pid p = pid q -> i = j;
  ki_chan : forall i j p, procs k !! i = Some p -> chan p = ChanProc j -> j = i;
  ki_init : exists i p, initproc k = Some i /\ procs k !! i = Some p /\ live p /\ parent p = None;
  ki_parent : forall i p, procs k !! i = Some p -> state p <> UNUSED -> initproc k <> Some i ->
    (exists j q, parent p = Some j /\ j <> i /\ procs k !! j = Some q /\ live q) \/
    (state p = USED /\ parent p = None);
  ki_wait : forall i j p q, procs k !! i = Some p -> own_sleep i p ->
    procs k !! j = Some q -> parent q = Some i -> state q <> ZOMBIE
}.

(** A change that keeps every process's identity: only states other than
    UNUSED and ZOMBIE, channels, run times and private data move. *)
Record moved (c : option nat) i p p' : Prop := {
  mv_pid : pid p' = pid p;
  mv_parent : parent p' = parent p;
  mv_time : creation_time p' = creation_time p;
  mv_nice : nice p' = nice p /\ weight p' = weight p;
  mv_unused : state p' = UNUSED <-> state p = UNUSED;
  mv_unused_chan : state p' = UNUSED -> chan p' = chan p;
  mv_zombie : state p' = ZOMBIE <-> state p = ZOMBIE;
  mv_used : state p' = USED <-> state p = USED;
  mv_running : state p' = RUNNING <-> c = Some i;
  mv_chan : forall j, chan p' = ChanProc j -> j = i
}.

Lemma moved_live c i p p' : moved c i p p' -> live p -> live p'.
Proof. intros [] []. split; tauto. Qed.

Lemma moved_live_inv c i p p' : moved c i p p' -> live p' -> live p.
Proof. intros [] []. split; tauto. Qed.

(** A process left alone by a step that does not change who runs. *)
Lemma moved_refl k i p : kinv k -> procs k !! i = Some p -> moved (cpu_proc k) i p p.
Proof.
  intros Hk Hp. split; try done; [by eapply ki_cpu|intros j; by eapply ki_chan].
Qed.

Definition no_zombie_child k i : Prop :=
  forall j q, procs k !! j = Some q -> parent q = Some i -> state q <> ZOMBIE.

Lemma kinv_move k k' :
  kinv k -> inside k' = inside k -> length (procs k') = length (procs k) -> nextpid k' = nextpid k ->
  next_creation_time k' = next_creation_time k -> initproc k' = initproc k ->
  (forall i, cpu_proc k' = Some i -> is_Some (procs k !! i)) ->
  (forall i p', procs k' !! i = Some p' -> exists p, procs k !! i = Some p /\
     moved (cpu_proc k') i p p' /\
     (own_sleep i p' -> own_sleep i p \/ no_zombie_child k i)) ->
  kinv k'.
Proof.
  intros Hk Hin Hlen Hn Ht Hi Hc Hm.
  assert (forall i p, procs k !! i = Some p ->
            exists p', procs k' !! i = Some p' /\ moved (cpu_proc k') i p p') as Hm'.
  { intros i p Hp. destruct (lookup_lt_is_Some_2 (procs k') i) as [p' Hp'].
    { rewrite Hlen. by eapply lookup_lt_Some. }
    destruct (Hm _ _ Hp') as (p0 & Hp0 & Hmv & _). simplify_eq. by exists p'. }
  split.
  - rewrite Hlen. apply Hk.
  - rewrite Hn, Ht. apply Hk.
  - intros i p' Hp'. destruct (Hm _ _ Hp') as (p & Hp & Hmv & _). apply Hmv.
  - intros i Hi'. destruct (Hc i Hi') as [p Hp]. destruct (Hm' _ _ Hp) as (p' & -> & _). done.
  - intros i p' Hp' Hu. destruct (Hm _ _ Hp') as (p & Hp & Hmv & _).
    rewrite (mv_pid _ _ _ _ Hmv), (mv_parent _ _ _ _ Hmv), (mv_unused_chan _ _ _ _ Hmv Hu).
    eapply ki_unused; [done..|]. by apply Hmv.
  - intros i p' Hp' Hu. destruct (Hm _ _ Hp') as (p & Hp & Hmv & _). rewrite Hin.
    apply (ki_used k Hk i p Hp). by apply Hmv.
  - intros me a. rewrite Hin. intros Ha. destruct (ki_inside k Hk me a Ha) as (p & Hp & Hl & Hx).
    destruct (Hm' _ _ Hp) as (p' & Hp' & Hmv). exists p'. split; [done|].
    split; [by eapply moved_live|]. rewrite Hi. destruct a as [c par|]; [|done].
    destruct Hx as (? & ? & np & Hnp & Hu & Hpar). destruct (Hm' _ _ Hnp) as (np' & Hnp' & Hmn).
    split; [done|]. split; [done|]. exists np'. split; [done|]. rewrite (mv_parent _ _ _ _ Hmn).
    split; [by apply Hmn|done].
  - rewrite Hin. apply Hk.
  - intros i p' Hp' Hu. destruct (Hm _ _ Hp') as (p & Hp & Hmv & _).
    destruct (mv_nice _ _ _ _ Hmv) as [-> ->].
    rewrite (mv_pid _ _ _ _ Hmv), (mv_time _ _ _ _ Hmv), Hn. eapply ki_pid; [done..|].
    by rewrite <- (mv_unused _ _ _ _ Hmv).
  - intros i j p' q' Hp' Hq' Hu Hpid.
    destruct (Hm _ _ Hp') as (p & Hp & Hmp & _). destruct (Hm _ _ Hq') as (q & Hq & Hmq & _).
    eapply (ki_inj k Hk i j p q); [done..| |].
    + by rewrite <- (mv_unused _ _ _ _ Hmp).
    + by rewrite <- (mv_pid _ _ _ _ Hmp), <- (mv_pid _ _ _ _ Hmq).
  - intros i j p' Hp'. destruct (Hm _ _ Hp') as (p & _ & Hmv & _). apply Hmv.
  - destruct (ki_init k Hk) as (i & p & Hip & Hp & Hl & Hpar).
    destruct (Hm' _ _ Hp) as (p' & Hp' & Hmv). exists i, p'. split; [congruence|].
    split; [done|]. split; [by eapply moved_live|]. by rewrite (mv_parent _ _ _ _ Hmv).
  - intros i p' Hp' Hu Hne. destruct (Hm _ _ Hp') as (p & Hp & Hmv & _).
    rewrite (mv_parent _ _ _ _ Hmv), (mv_used _ _ _ _ Hmv).
    destruct (ki_parent k Hk i p Hp) as [(j & q & Hpq & Hji & Hq & Hl)|Hnone]; [| | |by right].
    { by rewrite <- (mv_unused _ _ _ _ Hmv). }
    { by rewrite <- Hi. }
    left. destruct (Hm' _ _ Hq) as (q' & Hq' & Hmq). exists j, q'.
    repeat split; try done; by eapply (moved_live _ _ q).
  - intros i j p' q' Hp' Hs Hq' Hpar Hz.
    destruct (Hm _ _ Hp') as (p & Hp & _ & Hown). destruct (Hm _ _ Hq') as (q & Hq & Hmq & _).
    rewrite (mv_parent _ _ _ _ Hmq) in Hpar. apply (mv_zombie _ _ _ _ Hmq) in Hz.
    destruct (Hown Hs) as [Hs'|Hno]; [|by eapply (Hno j q)].
    by eapply (ki_wait k Hk i j p q).
Qed.

(** One slot changes, in place. *)
Lemma kinv_set k k' i p p' :
  kinv k -> inside k' = inside k -> procs k !! i = Some p -> procs k' = <[i := p']> (procs k) ->
  nextpid k' = nextpid k -> next_creation_time k' = next_creation_time k ->
  initproc k' = initproc k ->
  (cpu_proc k' = cpu_proc k \/ cpu_proc k' = Some i \/ cpu_proc k = Some i /\ cpu_proc k' = None) ->
  (cpu_proc k' = Some i -> forall j, cpu_proc k = Some j -> j = i) ->
  moved (cpu_proc k') i p p' ->
  (own_sleep i p' -> own_sleep i p \/ no_zombie_child k i) ->
  kinv k'.
Proof.
  intros Hk Hin Hp Hps Hn Ht Hi Hcpu Hone Hmv Hown.
  apply (kinv_move k k'); try done.
  - by rewrite Hps, length_insert.
  - intros j Hj. destruct Hcpu as [He|[He|[_ He]]]; rewrite He in Hj; simplify_eq; [|done].
    by apply (ki_cpu_lt k Hk).
  - intros j q Hq. rewrite Hps in Hq.
    apply list_lookup_insert_Some in Hq as [(-> & <- & _)|[Hne Hq]]; [by eauto|].
    exists q. split; [done|]. split; [|by left].
    assert (cpu_proc k' = Some j <-> cpu_proc k = Some j) as Hsame.
    { destruct Hcpu as [He|[He|[He He']]].
      - by rewrite He.
      - rewrite He. split; intros H; [by simplify_eq|].
        rewrite (Hone He _ H) in Hne. done.
      - rewrite He, He'. split; intros H; simplify_eq. }
    destruct (moved_refl k j q Hk Hq). split; try done. by rewrite Hsame.
Qed.

(** ** Wakeups and the scheduler *)

Lemma wake_moved k c i p :
  kinv k -> procs k !! i = Some p -> moved (cpu_proc k) i p (wake c (cpu_proc k) i p).
Proof.
  intros Hk Hp. pose proof (moved_refl k i p Hk Hp) as Hm. unfold wake.
  destruct (_ && _) eqn:He; [|done]. to_prop. destruct Hm as [? ? ? ? ? ? ? ? Hr ?].
  split; simpl; try done; try (intuition congruence).
Qed.

Lemma own_sleep_wake c self i p : own_sleep i (wake c self i p) -> own_sleep i p.
Proof. unfold wake. destruct (_ && _); [|done]. intros [Hs _]. done. Qed.

Lemma kinv_wakeup c k : kinv k -> kinv (wakeup c k).
Proof.
  intros Hk. apply (kinv_move k); simpl; try done.
  - by rewrite length_imap.
  - apply (ki_cpu_lt k Hk).
  - intros i p' (p & Hp & ->)%list_lookup_imap_Some. exists p. split; [done|].
    split; [by apply wake_moved|]. intros Hs. left. by eapply own_sleep_wake.
Qed.

Lemma wakeup_spec c k i :
  procs (wakeup c k) !! i = wake c (cpu_proc k) i <$> procs k !! i.
Proof. unfold wakeup. simpl. by rewrite list_lookup_imap. Qed.

Lemma wakeup_self c k me : cpu_proc k = Some me -> procs (wakeup c k) !! me = procs k !! me.
Proof.
  intros Hc. rewrite wakeup_spec. destruct (procs k !! me) as [p|]; simpl; [|done].
  unfold wake. rewrite Hc, bool_decide_eq_true_2 by done. done.
Qed.

(** After [wakeup] nobody but the current process sleeps on the channel. *)
Lemma wakeup_no_sleeper c k i p :
  procs (wakeup c k) !! i = Some p -> cpu_proc k <> Some i ->
  state p = SLEEPING -> chan p <> c.
Proof.
  rewrite wakeup_spec. intros (q & Hq & ->)%fmap_Some Hc Hs. unfold wake in *.
  rewrite (bool_decide_eq_false_2 (Some i = cpu_proc k)) in * by congruence. simpl in *.
  destruct (bool_decide (state q = SLEEPING)) eqn:He; simpl in *; to_prop; [|done].
  destruct (bool_decide (chan q = c)) eqn:Hch; simpl in *; to_prop; done.
Qed.

Lemma kinv_clockintr k : kinv k -> kinv (clockintr k).
Proof.
  intros Hk. unfold clockintr. apply kinv_wakeup. by destruct Hk; split.
Qed.

Lemma kinv_rr n k : kinv k -> kinv {| k with rr_pos := n |}.
Proof. intros Hk. by destruct Hk; split. Qed.

Lemma kinv_world w k : kinv k -> kinv (set_world w k).
Proof. intros Hk. by destruct Hk; split. Qed.

(** Private data of one process. *)
Record private p p' : Prop := {
  pv_state : state p' = state p;
  pv_chan : chan p' = chan p;
  pv_ids : pid p' = pid p /\ parent p' = parent p /\ creation_time p' = creation_time p;
  pv_nice : nice p' = nice p /\ weight p' = weight p
}.

Lemma kinv_private k k' i p p' :
  kinv k -> inside k' = inside k -> procs k !! i = Some p -> private p p' ->
  procs k' = <[i := p']> (procs k) ->
  nextpid k' = nextpid k -> next_creation_time k' = next_creation_time k ->
  initproc k' = initproc k -> cpu_proc k' = cpu_proc k -> kinv k'.
Proof.
  intros Hk Hin Hp [Hs Hc (H1 & H2 & H3) H4] Hps Hn Ht Hi Hcpu.
  eapply (kinv_set k k' i p p'); try done; [by left|congruence| |].
  - destruct (moved_refl k i p Hk Hp).
    split; rewrite ?Hcpu, ?Hs, ?Hc; try done.
  - intros [H5 H6]. left. split; congruence.
Qed.

Lemma kinv_dispatch k i p p0 :
  kinv k -> cpu_proc k = None -> procs k !! i = Some p0 -> private p0 p ->
  state p0 = RUNNABLE -> kinv (dispatch i p k).
Proof.
  intros Hk Hc Hp [Hs Hch (H1 & H2 & H3) H4] Hr.
  eapply (kinv_set k _ i p0); try done; simpl.
  - by right; left.
  - by rewrite Hc.
  - split; simpl; try done; rewrite ?Hr, ?Hch; try done.
    intros j. by apply (ki_chan k Hk i j p0).
  - by intros [? _].
Qed.

Lemma private_slice p n : private p {| p with time_slice := n |}.
Proof. by repeat split. Qed.

Lemma cfs_pick_runnable l i : cfs_pick l = Some i -> exists p, l !! i = Some p /\ state p = RUNNABLE.
Proof.
  unfold cfs_pick. destruct (scan_min _ _ _ _ _) as [[j q]|] eqn:Hs.
  - intros [= ->]. apply scan_min_Some in Hs as (Hi & He & _). exists q.
    unfold runnable_user in He. by to_prop.
  - intros (p & Hp & He)%find_idx_hit. exists p. by to_prop.
Qed.

Lemma fcfs_pick_runnable l i :
  fcfs_pick l = Some i -> exists p, l !! i = Some p /\ state p = RUNNABLE /\ 2 < pid p.
Proof.
  unfold fcfs_pick. intros ([j q] & Hs & ->)%fmap_Some.
  apply scan_min_Some in Hs as (Hi & He & _). exists q. unfold runnable_user in He. to_prop.
  split_and!; [done..|lia].
Qed.

Lemma kinv_scheduler_pass pol k : kinv k -> cpu_proc k = None -> kinv (scheduler_pass pol k).
Proof.
  intros Hk Hc. unfold scheduler_pass. destruct pol.
  - destruct (cfs_pick _) as [i|] eqn:Hpick; [|done].
    destruct (cfs_pick_runnable _ _ Hpick) as (p & Hp & Hr). rewrite Hp.
    by eapply kinv_dispatch.
  - destruct (fcfs_pick _) as [i|] eqn:Hpick; [|done].
    destruct (fcfs_pick_runnable _ _ Hpick) as (p & Hp & Hr & _). rewrite Hp.
    by eapply kinv_dispatch.
  - destruct (procs k !! rr_pos k) as [p|] eqn:Hp; [|by apply kinv_rr].
    destruct (runnable_user p) eqn:He; [|by apply kinv_rr].
    unfold runnable_user in He. to_prop. by eapply kinv_dispatch.
Qed.

(** ** Leaving the CPU *)

(** [sched]: the process left RUNNING; it is charged its slice. *)
Lemma sched_spec pol me k k' :
  sched pol me k = Ret k' ->
  exists p p', procs k !! me = Some p /\ state p <> RUNNING /\ private p p' /\
    procs k' = <[me := p']> (procs k) /\
    nextpid k' = nextpid k /\ next_creation_time k' = next_creation_time k /\
    initproc k' = initproc k /\ cpu_proc k' = None /\ world k' = world k /\ xstate p' = xstate p /\
    inside k' = inside k.
Proof.
  unfold sched. destruct (procs k !! me) as [p|] eqn:Hp; [|done].
  destruct (bool_decide (state p = RUNNING)) eqn:Hr; [done|]. to_prop. intros [= <-].
  assert (procs k = <[me := p]> (procs k)) as Hid by by rewrite list_insert_id.
  destruct pol; simpl; [rewrite Hp|..].
  - exists p, {| p with vruntime := charge p |}. by repeat split.
  - exists p, p. by repeat split.
  - exists p, p. by repeat split.
Qed.

Lemma kinv_leave pol k k' me p p1 :
  sched pol me (set_proc me p1 k) = Ret k' ->
  kinv k -> procs k !! me = Some p -> cpu_proc k = Some me -> state p1 <> RUNNING ->
  moved None me p p1 -> (own_sleep me p1 -> no_zombie_child k me) -> kinv k'.
Proof.
  intros Hs Hk Hp Hc Hr Hmv Hown.
  destruct (sched_spec _ _ _ _ Hs) as (q & q' & Hq & _ & Hpv & Hps' & Hn' & Ht' & Hi' & Hc' & _ & _ & Hin').
  simpl in *. rewrite list_lookup_insert_eq in Hq by (by eapply lookup_lt_Some).
  simplify_eq. rewrite list_insert_insert_eq in Hps'.
  destruct Hpv as [Hps1 Hpc1 (Hp1 & Hp2 & Hp3) [Hp4 Hp5]].
  eapply (kinv_set k k' me p q'); rewrite ?Hn', ?Ht', ?Hi'; try done.
  - by right; right.
  - by rewrite Hc'.
  - rewrite Hc'. destruct Hmv as [? ? ? [? ?] ? ? ? ? ? ?].
    split; rewrite ?Hps1, ?Hpc1, ?Hp1, ?Hp2, ?Hp3, ?Hp4, ?Hp5; try done.
  - intros [Ho1 Ho2]. right. apply Hown. split; congruence.
Qed.

Lemma running_state k me p :
  kinv k -> cpu_proc k = Some me -> procs k !! me = Some p -> state p = RUNNING.
Proof. intros Hk Hc Hp. by apply (ki_cpu k Hk me p Hp). Qed.

Lemma kinv_yield pol k k' me p :
  kinv k -> cpu_proc k = Some me -> procs k !! me = Some p -> yield pol me p k = Ret k' -> kinv k'.
Proof.
  intros Hk Hc Hp Hy. pose proof (running_state _ _ _ Hk Hc Hp) as Hr.
  refine (kinv_leave pol k k' me p _ Hy Hk Hp Hc _ _ _); [done| |].
  - split; simpl; try done; rewrite ?Hr; try done. intros j. by apply (ki_chan k Hk me j p).
  - by intros [? _].
Qed.

Lemma kinv_sleep pol c k k' me p :
  kinv k -> cpu_proc k = Some me -> procs k !! me = Some p ->
  (forall j, c = ChanProc j -> j = me) -> (c = ChanProc me -> no_zombie_child k me) ->
  sleep pol c me p k = Ret k' -> kinv k'.
Proof.
  intros Hk Hc Hp Hch Hz Hs. pose proof (running_state _ _ _ Hk Hc Hp) as Hr.
  refine (kinv_leave pol k k' me p _ Hs Hk Hp Hc _ _ _); [done| |].
  - split; simpl; try done; by rewrite ?Hr.
  - intros [_ Ho]. by apply Hz.
Qed.

Lemma kinv_resume k me p : kinv k -> procs k !! me = Some p -> cpu_proc k = Some me ->
  kinv (resume me p k).
Proof.
  intros Hk Hp Hc. pose proof (running_state _ _ _ Hk Hc Hp) as Hr.
  eapply (kinv_set k _ me p); try done; simpl.
  - by left.
  - congruence.
  - destruct (moved_refl k me p Hk Hp). by split; simpl; try done; rewrite ?Hr in *.
  - by intros [_ ?].
Qed.

(** ** Slots that are taken and given back *)

Lemma kinv_free_slot k k' i p p' :
  kinv k -> procs k !! i = Some p -> (state p = UNUSED \/ state p = ZOMBIE) ->
  procs k' = <[i := p']> (procs k) -> state p' = UNUSED -> pid p' = 0 -> parent p' = None ->
  chan p' = NoChan -> nextpid k <= nextpid k' < 2 ^ 31 ->
  next_creation_time k' = nextpid k' ->
  initproc k' = initproc k -> cpu_proc k' = cpu_proc k -> inside k' = inside k -> kinv k'.
Proof.
  intros Hk Hp Hu Hps Hu' Hpid Hpar Hch Hn Ht Hi Hc Hin.
  assert (forall j q, procs k' !! j = Some q -> (j = i /\ q = p') \/ procs k !! j = Some q) as Hany.
  { intros j q Hq. rewrite Hps in Hq.
    apply list_lookup_insert_Some in Hq as [(-> & <- & _)|[? ?]]; auto. }
  assert (forall j q, procs k' !! j = Some q -> state q <> UNUSED -> procs k !! j = Some q) as Hold.
  { intros j q Hq Hne. by destruct (Hany j q Hq) as [[_ ->]|?]. }
  assert (forall j q, procs k !! j = Some q -> live q -> procs k' !! j = Some q) as Hnew.
  { intros j q Hq [? ?]. rewrite Hps, list_lookup_insert_ne; [done|].
    intros ->. destruct Hu; congruence. }
  split.
  - rewrite Hps, length_insert. apply Hk.
  - pose proof (ki_time k Hk). lia.
  - intros j q Hq. rewrite Hc. destruct (Hany j q Hq) as [[-> ->]|Hq']; [|by apply (ki_cpu k Hk)].
    rewrite <- (ki_cpu k Hk i p Hp). destruct Hu; split; congruence.
  - intros j Hj. rewrite Hc in Hj. destruct (ki_cpu_lt k Hk j Hj) as [q Hq].
    rewrite Hps. apply lookup_lt_is_Some. rewrite length_insert. by eapply lookup_lt_Some.
  - intros j q Hq Hqu. destruct (Hany j q Hq) as [[-> ->]|Hq']; [done|].
    by apply (ki_unused k Hk j q Hq').
  - intros j q Hq Hqu. destruct (Hany j q Hq) as [[-> ->]|Hq']; [congruence|].
    rewrite Hin. by apply (ki_used k Hk j q Hq').
  - intros me a. rewrite Hin. intros Ha. destruct (ki_inside k Hk me a Ha) as (q & Hq & Hl & Hx).
    exists q. split; [by apply Hnew|]. split; [done|]. rewrite Hi. destruct a as [c par|]; [|done].
    destruct Hx as (? & ? & np & Hnp & Hst & Hpn). split; [done|]. split; [done|]. exists np.
    split; [|done]. apply Hnew; [done|]. split; congruence.
  - rewrite Hin. apply Hk.
  - intros j q Hq Hne. destruct (ki_pid k Hk j q (Hold j q Hq Hne) Hne) as (? & ? & ? & ?).
    split_and!; try done; lia.
  - intros j j' q q' Hq Hq' Hne Heq. pose proof (Hold j q Hq Hne) as Hqk.
    pose proof (ki_pid k Hk j q Hqk Hne) as (? & _).
    destruct (Hany j' q' Hq') as [[-> ->]|Hqk']; [lia|]. by eapply (ki_inj k Hk).
  - intros j j' q Hq Hcq. destruct (Hany j q Hq) as [[-> ->]|Hq']; [congruence|].
    by apply (ki_chan k Hk j j' q).
  - destruct (ki_init k Hk) as (j & q & Hj & Hq & Hl & Hpq).
    exists j, q. rewrite Hi. split_and!; try done. by apply Hnew.
  - intros j q Hq Hne Hinit. pose proof (Hold j q Hq Hne) as Hqk. rewrite Hi in Hinit.
    destruct (ki_parent k Hk j q Hqk Hne Hinit) as [(x & r & Hx & Hxj & Hr & Hl)|Hnone]; [left|by right].
    exists x, r. split_and!; try done. by apply Hnew.
  - intros j x q r Hq [Hs1 Hs2] Hr Hpr Hz.
    apply (ki_wait k Hk j x q r); [apply Hold|split|apply Hold| |]; congruence.
Qed.

(** [kwait] frees a zombie. *)
Lemma kinv_free_zombie k i p :
  kinv k -> procs k !! i = Some p -> state p = ZOMBIE -> kinv (freeproc i p k).
Proof.
  intros Hk Hp Hz. pose proof (ki_time k Hk).
  eapply (kinv_free_slot k _ i p); try done; simpl; [by right|lia..].
Qed.

End facts.
