(* ===== verification/ProcSafe.v ===== *)
(** * Fork, exit, wait and kill keep the process-table invariant *)
From S2P Require Import Prelude Proc ProcFacts.
Import Proc.

#[local] Open Scope Z_scope.

Section safe.
Context {W : Type} `{!proc_env W}.
Implicit Types (k : kernel W) (p q : proc) (i j me : nat).

(** The pid counter is not about to wrap. *)
Definition pids_left k : Prop := nextpid k < 2 ^ 31 - 1.

(** ** allocproc *)

(** What a freshly allocated slot looks like. *)
Record fresh k p0 p : Prop := {
  fr_state : state p = USED;
  fr_ids : pid p = nextpid k /\ creation_time p = nextpid k;
  fr_nice : nice p = 0 /\ weight p = 1024;
  fr_kept : parent p = parent p0 /\ chan p = chan p0 /\ killed p = killed p0;
  fr_vruntime : vruntime p = alloc_vruntime (procs k) /\ time_slice p = 0
}.

Lemma allocproc_spec k o k' :
  kinv k -> pids_left k -> allocproc k = (o, k') ->
  match o with
  | None => kinv k' /\ cpu_proc k' = cpu_proc k /\ initproc k' = initproc k /\ inside k' = inside k
  | Some i => exists p0 p, procs k !! i = Some p0 /\ state p0 = UNUSED /\ fresh k p0 p /\
      procs k' = <[i := p]> (procs k) /\ nextpid k' = nextpid k + 1 /\
      next_creation_time k' = nextpid k' /\ initproc k' = initproc k /\ cpu_proc k' = cpu_proc k /\
      inside k' = inside k
  end.
Proof.
  intros Hk Hpid. pose proof (ki_time k Hk) as [Ht Hn]. unfold pids_left in Hpid. unfold allocproc.
  destruct (find_idx _ (procs k)) as [i|] eqn:Hi; [|by intros [= <- <-]].
  apply find_idx_hit in Hi as (p0 & Hp0 & Hu). to_prop. rewrite Hp0. simpl.
  assert (i32 (nextpid k + 1) = nextpid k + 1) as Hi32 by (apply i32_small; lia).
  assert (u64 (next_creation_time k + 1) = nextpid k + 1) as Hu64
    by (rewrite Ht; apply wrapu_small; lia).
  destruct (ki_unused k Hk i p0 Hp0 Hu) as (Hpid0 & Hpar0 & Hch0).
  assert (forall (w : W) p, kinv
    (set_proc i (freed p) {| procs := <[i := p]> (procs k); nextpid := i32 (nextpid k + 1);
       next_creation_time := u64 (next_creation_time k + 1); initproc := initproc k;
       cpu_proc := cpu_proc k; rr_pos := rr_pos k; inside := inside k; ticks := ticks k; world := w |})) as Hfail.
  { intros w p. eapply (kinv_free_slot k _ i p0 (freed p)); try done; simpl.
    - by left.
    - by rewrite list_insert_insert_eq.
    - rewrite Hi32. lia.
    - congruence. }
  destruct (kalloc (world k)) as [[tf w]|].
  - destruct (proc_pagetable tf w) as [[pt w']|]; intros [= <- <-].
    + eexists p0, _. split; [done|]. split; [done|].
      refine (conj _ (conj eq_refl _)); [by split|].
      simpl. rewrite Hi32, Hu64. done.
    + split; [|done]. unfold freeproc, set_world. simpl. by apply Hfail.
  - intros [= <- <-]. split; [|done]. unfold freeproc, set_world. simpl. by apply Hfail.
Qed.

(** ** kfork *)

Lemma kinv_new_slot k k' i p0 p me pm :
  kinv k -> procs k !! i = Some p0 -> state p0 = UNUSED ->
  procs k !! me = Some pm -> live pm ->
  procs k' = <[i := p]> (procs k) -> state p = USED ->
  pid p = nextpid k -> creation_time p = pid p -> nice p = 0 /\ weight p = 1024 ->
  parent p = None -> chan p = NoChan ->
  nextpid k' = nextpid k + 1 -> nextpid k' < 2 ^ 31 -> next_creation_time k' = nextpid k' ->
  initproc k' = initproc k -> cpu_proc k' = cpu_proc k ->
  inside k !! me = None -> inside k' = <[me := Forking i false]> (inside k) -> kinv k'.
Proof.
  intros Hk Hp0 Hu Hme Hlme Hps Hr Hpid Htm Hnice Hpar Hch Hn Hnr Ht Hi Hc Hout Hin.
  pose proof (ki_time k Hk) as [_ Hn0].
  assert (forall j q, procs k' !! j = Some q -> (j = i /\ q = p) \/ (j <> i /\ procs k !! j = Some q))
    as Hany.
  { intros j q Hq. rewrite Hps in Hq.
    apply list_lookup_insert_Some in Hq as [(-> & <- & _)|[? ?]]; auto. }
  assert (forall j q, procs k !! j = Some q -> live q -> procs k' !! j = Some q) as Hnew.
  { intros j q Hq [? ?]. rewrite Hps, list_lookup_insert_ne; [done|]. congruence. }
  assert (me <> i) as Hmi by (intros ->; destruct Hlme; congruence).
  split.
  - rewrite Hps, length_insert. apply Hk.
  - lia.
  - intros j q Hq. rewrite Hc. destruct (Hany j q Hq) as [[-> ->]|[_ Hq']]; [|by apply (ki_cpu k Hk)].
    rewrite <- (ki_cpu k Hk i p0 Hp0). split; congruence.
  - intros j Hj. rewrite Hc in Hj. destruct (ki_cpu_lt k Hk j Hj) as [q Hq].
    rewrite Hps. apply lookup_lt_is_Some. rewrite length_insert. by eapply lookup_lt_Some.
  - intros j q Hq Hqu. destruct (Hany j q Hq) as [[-> ->]|[_ Hq']]; [congruence|].
    by apply (ki_unused k Hk j q Hq').
  - intros j q Hq Hqu. rewrite Hin. destruct (Hany j q Hq) as [[-> ->]|[_ Hq']].
    { exists me, false. by rewrite lookup_insert_eq. }
    destruct (ki_used k Hk j q Hq' Hqu) as (m & par & Hm). exists m, par.
    rewrite lookup_insert_ne; [done|congruence].
  - intros m a. rewrite Hin. intros [[-> <-]|[_ Ha]]%lookup_insert_Some.
    { exists pm. split; [by apply Hnew|]. split; [done|]. split; [done|]. rewrite Hi. split.
      - destruct (ki_init k Hk) as (j & q & Hj & Hq & [Hl _] & _). congruence.
      - exists p. rewrite Hps, list_lookup_insert_eq by (by eapply lookup_lt_Some). done. }
    destruct (ki_inside k Hk m a Ha) as (q & Hq & Hl & Hx).
    exists q. split; [by apply Hnew|]. split; [done|]. rewrite Hi. destruct a as [c par|]; [|done].
    destruct Hx as (? & ? & np & Hnp & Hst & Hpn). split; [done|]. split; [done|]. exists np.
    split; [|done]. apply Hnew; [done|]. split; congruence.
  - assert (forall m a, inside k !! m = Some a -> forked a <> Some i) as Hnf.
    { intros m [c par|] Ha; [|done]. intros [= ->].
      destruct (ki_inside k Hk m _ Ha) as (_ & _ & _ & _ & _ & np & Hnp & Hst & _). congruence. }
    intros m m' a a' c. rewrite Hin.
    intros [[-> <-]|[Hm Ha]]%lookup_insert_Some [[-> <-]|[Hm' Ha']]%lookup_insert_Some; simpl; intros H1 H2;
      simplify_eq; try done; [by apply Hnf in Ha'|by apply Hnf in Ha|].
    by apply (ki_forked k Hk m m' a a' c).
  - intros j q Hq Hne. destruct (Hany j q Hq) as [[-> ->]|[_ Hq']].
    + split_and!; try done; try lia; apply Hnice.
    + destruct (ki_pid k Hk j q Hq' Hne) as (? & ? & ? & ?). split_and!; try done; lia.
  - intros j j' q q' Hq Hq' Hne Heq.
    assert (forall x r, procs k !! x = Some r -> pid r < nextpid k) as Hlt.
    { intros x r Hr'. destruct (decide (state r = UNUSED)) as [Hru|Hru].
      - destruct (ki_unused k Hk x r Hr' Hru) as (-> & _). lia.
      - apply (ki_pid k Hk x r Hr' Hru). }
    destruct (Hany j q Hq) as [[-> ->]|[Hj Hqk]], (Hany j' q' Hq') as [[-> ->]|[Hj' Hqk']];
      [done| | |by eapply (ki_inj k Hk)].
    + specialize (Hlt _ _ Hqk'). lia.
    + specialize (Hlt _ _ Hqk). lia.
  - intros j j' q Hq Hcq. destruct (Hany j q Hq) as [[-> ->]|[_ Hq']]; [congruence|].
    by apply (ki_chan k Hk j j' q).
  - destruct (ki_init k Hk) as (j & q & Hj & Hq & Hl & Hpq).
    exists j, q. rewrite Hi. split_and!; try done. by apply Hnew.
  - intros j q Hq Hne Hinit. destruct (Hany j q Hq) as [[-> ->]|[_ Hqk]].
    { by right. }
    rewrite Hi in Hinit.
    destruct (ki_parent k Hk j q Hqk Hne Hinit) as [(x & r & Hx & Hxj & Hr' & Hl)|Hnone]; [left|by right].
    exists x, r. split_and!; try done. by apply Hnew.
  - intros j x q r Hq [Hs1 Hs2] Hr' Hpr.
    destruct (Hany x r Hr') as [[-> ->]|[_ Hrk]]; [congruence|].
    destruct (Hany j q Hq) as [[-> ->]|[_ Hqk]]; [congruence|].
    by apply (ki_wait k Hk j x q r).
Qed.

Lemma running_live k me p :
  kinv k -> cpu_proc k = Some me -> procs k !! me = Some p -> live p.
Proof. intros Hk Hc Hp. pose proof (running_state _ _ _ Hk Hc Hp) as Hr. split; congruence. Qed.

Lemma kinv_fork k me p r k' :
  kinv k -> pids_left k -> cpu_proc k = Some me -> procs k !! me = Some p ->
  inside k !! me = None -> kfork me p k = (r, k') -> kinv k'.
Proof.
  intros Hk Hpid Hc Hp Hout Hf. unfold kfork in Hf. destruct (allocproc k) as [o ka] eqn:Ha.
  pose proof (allocproc_spec k o ka Hk Hpid Ha) as Hs.
  destruct o as [i|]; [|by simplify_eq; destruct Hs].
  destruct Hs as (p0 & np & Hp0 & Hu & [Hst [Hpd Htm] [Hni Hwe] (Hpar & Hch & _) _]
                  & Hps & Hn & Ht & Hi & Hcp & Hin).
  unfold pids_left in Hpid. pose proof (ki_time k Hk) as [_ Hn0].
  assert (i < length (procs k))%nat as Hlt by by eapply lookup_lt_Some.
  destruct (ki_unused k Hk i p0 Hp0 Hu) as (_ & Hpar0 & Hch0).
  rewrite Hps, list_lookup_insert_eq in Hf by done.
  destruct (uvmcopy _ _ _ _) as [[] w]; simpl in Hf; simplify_eq.
  - match goal with |- kinv (enter _ _ (set_proc _ ?q _)) => apply (kinv_new_slot k _ i p0 q me p) end;
      simpl; try done.
    + by eapply running_live.
    + by rewrite Hps, list_insert_insert_eq.
    + simpl. congruence.
    + simpl. destruct (ki_pid k Hk me p Hp) as (_ & _ & ? & ?); [|done].
      pose proof (running_state _ _ _ Hk Hc Hp). congruence.
    + simpl. congruence.
    + simpl. congruence.
    + lia.
    + simpl. congruence.
  - eapply (kinv_free_slot k _ i p0 (freed np)); simpl; try done; try lia.
    + by left.
    + by rewrite Hps, list_insert_insert_eq.
Qed.

(** The forking process and its child. *)
Lemma forking_child k me c par np :
  kinv k -> inside k !! me = Some (Forking c par) -> procs k !! c = Some np ->
  c <> me /\ initproc k <> Some c /\ state np = USED /\ parent np = (if par then Some me else None) /\
  (exists pm, procs k !! me = Some pm /\ live pm) /\
  (forall m par', inside k !! m = Some (Forking c par') -> m = me).
Proof.
  intros Hk Ha Hnp. destruct (ki_inside k Hk me _ Ha) as (pm & Hpm & Hl & Hcm & Hci & np0 & Hnp0 & Hu & Hpar).
  simplify_eq. split_and!; [done..|by exists pm|]. intros m par' Hm. by apply (ki_forked k Hk m me _ _ c Hm Ha).
Qed.

(** The child of a fork gets its parent ([fin] = false), then runs. *)
Lemma kinv_child k k' me c par np np' (fin : bool) :
  kinv k -> cpu_proc k = Some me -> inside k !! me = Some (Forking c par) -> procs k !! c = Some np ->
  procs k' = <[c := np']> (procs k) -> nextpid k' = nextpid k ->
  next_creation_time k' = next_creation_time k -> initproc k' = initproc k -> cpu_proc k' = cpu_proc k ->
  pid np' = pid np /\ chan np' = chan np /\ creation_time np' = creation_time np /\
    nice np' = nice np /\ weight np' = weight np ->
  parent np' = Some me -> state np' = (if fin then RUNNABLE else USED) ->
  inside k' = (if fin then delete me (inside k) else <[me := Forking c true]> (inside k)) -> kinv k'.
Proof.
  intros Hk Hc Ha Hnp Hps Hn Ht Hi Hcp (Hpid & Hch & Htm & Hni & Hwe) Hpar Hst Hin.
  destruct (forking_child k me c par np Hk Ha Hnp) as (Hcm & Hci & Hu & Hpar0 & (pm & Hpm & Hlm) & Honly).
  assert (forall j q', procs k' !! j = Some q' -> (j = c /\ q' = np') \/ (j <> c /\ procs k !! j = Some q')) as Hany.
  { intros j q' Hq. rewrite Hps in Hq.
    apply list_lookup_insert_Some in Hq as [(-> & <- & _)|[? ?]]; auto. }
  assert (forall j q, procs k !! j = Some q -> j <> c -> procs k' !! j = Some q) as Hsame.
  { intros j q Hq Hne. by rewrite Hps, list_lookup_insert_ne. }
  assert (procs k' !! c = Some np') as Hnew.
  { rewrite Hps, list_lookup_insert_eq; [done|]. by eapply lookup_lt_Some. }
  assert (live np') as Hl' by (split; rewrite Hst; by destruct fin).
  assert (forall j q, procs k !! j = Some q -> live q -> exists q', procs k' !! j = Some q' /\ live q') as Hlive.
  { intros j q Hq Hl. destruct (decide (j = c)) as [->|Hne]; [by exists np'|]. exists q. split; [by apply Hsame|done]. }
  assert (forall m a, inside k' !! m = Some a ->
    (m = me /\ a = Forking c true /\ fin = false) \/ (m <> me /\ inside k !! m = Some a)) as Hact.
  { intros m a Hm. rewrite Hin in Hm. destruct fin.
    - apply lookup_delete_Some in Hm as [? ?]. by right.
    - apply lookup_insert_Some in Hm as [[-> <-]|[? ?]]; [by left|by right]. }
  split.
  - rewrite Hps, length_insert. apply Hk.
  - rewrite Hn, Ht. apply Hk.
  - intros j q Hq. rewrite Hcp. destruct (Hany j q Hq) as [[-> ->]|[_ Hq']]; [|by apply (ki_cpu k Hk)].
    rewrite Hst, Hc. destruct fin; split; congruence.
  - intros j Hj. rewrite Hcp in Hj. destruct (ki_cpu_lt k Hk j Hj) as [q Hq].
    rewrite Hps. apply lookup_lt_is_Some. rewrite length_insert. by eapply lookup_lt_Some.
  - intros j q Hq Hqu. destruct (Hany j q Hq) as [[-> ->]|[_ Hq']]; [by destruct Hl'|].
    by apply (ki_unused k Hk j q Hq').
  - intros j q Hq Hqu. destruct (Hany j q Hq) as [[-> ->]|[Hj Hq']].
    + exists me, true. rewrite Hin. destruct fin; [congruence|]. by rewrite lookup_insert_eq.
    + destruct (ki_used k Hk j q Hq' Hqu) as (m & b & Hm). exists m, b.
      assert (m <> me) by (intros ->; congruence).
      rewrite Hin. destruct fin; [by rewrite lookup_delete_ne|by rewrite lookup_insert_ne].
  - intros m a Hm. destruct (Hact m a Hm) as [(-> & -> & Hf)|[Hne Hm']].
    + exists pm. split; [by apply Hsame; [|congruence]|]. split; [done|]. split; [done|]. rewrite Hi.
      split; [done|]. exists np'. rewrite Hst, Hf. done.
    + destruct (ki_inside k Hk m a Hm') as (q & Hq & Hl & Hx).
      destruct (Hlive m q Hq Hl) as (q' & Hq' & Hlq'). exists q'. split; [done|]. split; [done|].
      rewrite Hi. destruct a as [d b|]; [|done]. destruct Hx as (? & ? & nq & Hnq & Hux & Hpx).
      split; [done|]. split; [done|]. exists nq. split; [|done]. apply Hsame; [done|].
      intros ->. by apply Hne, (Honly m b).
  - intros m m' a a' d Hm Hm' Hd Hd'.
    destruct (Hact m a Hm) as [(-> & -> & _)|[Hne Hmk]], (Hact m' a' Hm') as [(-> & -> & _)|[Hne' Hmk']].
    + done.
    + simpl in Hd. injection Hd as <-. destruct a'; simplify_eq/=. symmetry. by eapply Honly.
    + simpl in Hd'. injection Hd' as <-. destruct a; simplify_eq/=. by eapply Honly.
    + by apply (ki_forked k Hk m m' a a' d).
  - intros j q Hq Hne. rewrite Hn. destruct (Hany j q Hq) as [[-> ->]|[_ Hq']]; [|by apply (ki_pid k Hk j q)].
    rewrite Hpid, Htm, Hni, Hwe. apply (ki_pid k Hk c np Hnp). congruence.
  - intros j j' q q' Hq Hq' Hne Heq.
    destruct (Hany j q Hq) as [[-> ->]|[_ Hqk]], (Hany j' q' Hq') as [[-> ->]|[_ Hqk']]; [done|..].
    + apply (ki_inj k Hk c j' np q'); congruence.
    + apply (ki_inj k Hk j c q np); congruence.
    + by eapply (ki_inj k Hk).
  - intros j j' q Hq Hcq. destruct (Hany j q Hq) as [[-> ->]|[_ Hq']]; [|by apply (ki_chan k Hk j j' q)].
    rewrite Hch in Hcq. by apply (ki_chan k Hk c j' np).
  - destruct (ki_init k Hk) as (j & q & Hj & Hq & Hl & Hpq). exists j, q. rewrite Hi.
    split_and!; try done. apply Hsame; congruence.
  - intros j q Hq Hne Hinit. rewrite Hi in Hinit. destruct (Hany j q Hq) as [[-> ->]|[_ Hqk]].
    { left. exists me, pm. split_and!; [done|congruence|apply Hsame; congruence|done]. }
    destruct (ki_parent k Hk j q Hqk Hne Hinit) as [(x & r & Hx & Hxj & Hr & Hl)|Hnone]; [left|by right].
    destruct (Hlive x r Hr Hl) as (r' & Hr' & Hlr'). by exists x, r'.
  - intros j x q r Hq [Hs1 Hs2] Hr Hpr.
    destruct (Hany x r Hr) as [[-> ->]|[_ Hrk]]; [rewrite Hst; by destruct fin|].
    destruct (Hany j q Hq) as [[-> ->]|[_ Hqk]]; [rewrite Hst in Hs1; by destruct fin|].
    by apply (ki_wait k Hk j x q r).
Qed.

Lemma kinv_fork_parent k me c np :
  kinv k -> cpu_proc k = Some me -> inside k !! me = Some (Forking c false) -> procs k !! c = Some np ->
  kinv (kfork_parent me c np k).
Proof.
  intros Hk Hc Ha Hnp. pose proof (forking_child k me c false np Hk Ha Hnp) as (_ & _ & Hu & _).
  by eapply (kinv_child k _ me c false np _ false Hk Hc Ha Hnp).
Qed.

Lemma kinv_fork_run k me c np :
  kinv k -> cpu_proc k = Some me -> inside k !! me = Some (Forking c true) -> procs k !! c = Some np ->
  kinv (kfork_run me c np k).
Proof.
  intros Hk Hc Ha Hnp. pose proof (forking_child k me c true np Hk Ha Hnp) as (_ & _ & _ & Hpar & _).
  by eapply (kinv_child k _ me c true np _ true Hk Hc Ha Hnp).
Qed.

(** ** kexit *)

Lemma imap_insert {A B} (f : nat -> A -> B) i x (l : list A) :
  imap f (<[i := x]> l) = <[i := f i x]> (imap f l).
Proof.
  apply list_eq. intros j. rewrite list_lookup_imap. destruct (decide (i = j)) as [->|Hne].
  - destruct (decide (j < length l)%nat) as [Hj|Hj].
    + rewrite !list_lookup_insert_eq by (rewrite ?length_imap; done). done.
    + rewrite !list_insert_ge, list_lookup_imap by (rewrite ?length_imap; lia). done.
  - by rewrite !list_lookup_insert_ne, list_lookup_imap by done.
Qed.

(** A child gets init as its new parent, while init does not sleep in [kwait]. *)
Lemma kinv_reparent k i p i0 :
  kinv k -> procs k !! i = Some p -> state p <> UNUSED -> initproc k = Some i0 -> i <> i0 ->
  (forall p0, procs k !! i0 = Some p0 -> ~ own_sleep i0 p0) -> state p <> USED ->
  kinv (set_proc i {| p with parent := Some i0 |} k).
Proof.
  intros Hk Hp Hu Hi0 Hii Hns Hus.
  set (p' := {| p with parent := Some i0 |}).
  destruct (ki_init k Hk) as (x & px & Hx & Hpx & Hlx & Hparx).
  rewrite Hi0 in Hx. injection Hx as <-.
  assert (forall j q', procs (set_proc i p' k) !! j = Some q' ->
    exists q, procs k !! j = Some q /\ (q' = q /\ j <> i \/ j = i /\ q = p /\ q' = p')) as Hback.
  { intros j q' [(-> & <- & _)|[Hji Hq]]%list_lookup_insert_Some; [exists p|exists q']; auto. }
  assert (forall j q, procs k !! j = Some q -> live q ->
    exists q', procs (set_proc i p' k) !! j = Some q' /\ live q' /\ (j <> i -> q' = q)) as Hfwd.
  { intros j q Hq Hl. destruct (decide (j = i)) as [->|Hji].
    - exists p'. simpl. rewrite list_lookup_insert_eq by (by eapply lookup_lt_Some). by simplify_eq.
    - exists q. simpl. by rewrite list_lookup_insert_ne. }
  split.
  - simpl. rewrite length_insert. apply Hk.
  - apply Hk.
  - intros j q' Hq'. destruct (Hback j q' Hq') as (q & Hq & [[-> _]|(-> & -> & ->)]);
      by apply (ki_cpu k Hk _ _ Hq).
  - intros j Hj. destruct (ki_cpu_lt k Hk j Hj) as [q Hq].
    apply lookup_lt_is_Some. simpl. rewrite length_insert. by eapply lookup_lt_Some.
  - intros j q' Hq' Hqu. destruct (Hback j q' Hq') as (q & Hq & [[-> _]|(-> & -> & ->)]);
      [by apply (ki_unused k Hk j q)|done].
  - intros j q' Hq' Hqu. destruct (Hback j q' Hq') as (q & Hq & [[-> _]|(-> & -> & ->)]);
      by apply (ki_used k Hk _ _ Hq).
  - intros m a Ha. destruct (ki_inside k Hk m a Ha) as (q & Hq & Hl & Hx0).
    destruct (Hfwd m q Hq Hl) as (q' & Hq' & Hl' & _). exists q'. split; [done|]. split; [done|].
    destruct a as [c par|]; [|done]. destruct Hx0 as (? & ? & np & Hnp & Hst & Hpn).
    split; [done|]. split; [done|]. assert (c <> i) as Hci by congruence.
    destruct (Hfwd c np Hnp) as (np' & Hnp' & _ & Hsame); [split; congruence|].
    rewrite (Hsame Hci) in Hnp'. by exists np.
  - apply Hk.
  - intros j q' Hq' Hqu. destruct (Hback j q' Hq') as (q & Hq & [[-> _]|(-> & -> & ->)]);
      by apply (ki_pid k Hk _ _ Hq).
  - intros j j' q1 q2 Hq1 Hq2.
    destruct (Hback j q1 Hq1) as (q & Hq & [[-> _]|(-> & -> & ->)]),
             (Hback j' q2 Hq2) as (q' & Hq' & [[-> _]|(-> & -> & ->)]);
      by apply (ki_inj k Hk _ _ _ _ Hq Hq').
  - intros j j' q' Hq'. destruct (Hback j q' Hq') as (q & Hq & [[-> _]|(-> & -> & ->)]);
      by apply (ki_chan k Hk _ _ _ Hq).
  - destruct (Hfwd i0 px Hpx Hlx) as (q & Hq & Hl & Hsame). exists i0, q.
    rewrite Hsame in * by congruence. done.
  - intros j q' Hq' Hqu Hinit. destruct (Hback j q' Hq') as (q & Hq & [[-> _]|(-> & -> & ->)]).
    + destruct (ki_parent k Hk j q Hq Hqu Hinit) as [(x & r & Hxp & Hxj & Hr & Hl)|Hnone]; [left|by right].
      destruct (Hfwd x r Hr Hl) as (r' & Hr' & Hl' & _). by exists x, r'.
    + left. destruct (Hfwd i0 px Hpx Hlx) as (r' & Hr' & Hl' & _). exists i0, r'. by split_and!.
  - intros j x q' r' Hq' Hs Hr' Hpr.
    destruct (Hback j q' Hq') as (q & Hq & Hcq), (Hback x r' Hr') as (r & Hr & Hcr).
    assert (own_sleep j q) as Hs0 by (by destruct Hcq as [[-> _]|(-> & -> & ->)]).
    destruct Hcr as [[-> _]|(-> & -> & ->)].
    + by apply (ki_wait k Hk j x _ _ Hq Hs0 Hr).
    + simpl in Hpr. simplify_eq. by destruct (Hns _ Hpx).
Qed.

Lemma wake_parent c self i p par :
  wake c self i {| p with parent := par |} =
  let p1 := wake c self i p in {| p1 with parent := par |}.
Proof. unfold wake. simpl. destruct (_ && _); reflexivity. Qed.

Lemma reparent_at_alt me k i pp i0 :
  procs k !! i = Some pp -> is_child me pp = true -> initproc k = Some i0 ->
  reparent_at me k i =
  let p1 := wake (ChanProc i0) (cpu_proc k) i pp in
  set_proc i {| p1 with parent := Some i0 |} (wakeup (ChanProc i0) k).
Proof.
  intros Hp Hch Hi0. unfold reparent_at. rewrite Hp, Hch, Hi0. unfold wakeup, set_proc. simpl.
  rewrite imap_insert, Hi0, wake_parent. done.
Qed.

Definition not_forking k me : Prop := forall c par, inside k !! me <> Some (Forking c par).

Lemma child_not_used k me i p :
  kinv k -> not_forking k me -> procs k !! i = Some p -> parent p = Some me -> state p <> USED.
Proof.
  intros Hk Hn Hp Hpar Hu. destruct (ki_used k Hk i p Hp Hu) as (m & b & Hm).
  destruct (forking_child k m i b p Hk Hm Hp) as (_ & _ & _ & Hpm & _). rewrite Hpar in Hpm.
  destruct b; simplify_eq. by apply Hn in Hm.
Qed.

Lemma reparent_at_spec k me i :
  kinv k -> cpu_proc k = Some me -> initproc k <> Some me -> not_forking k me ->
  kinv (reparent_at me k i) /\ cpu_proc (reparent_at me k i) = Some me /\
  initproc (reparent_at me k i) = initproc k /\ inside (reparent_at me k i) = inside k /\
  length (procs (reparent_at me k i)) = length (procs k) /\
  procs (reparent_at me k i) !! me = procs k !! me /\
  (forall j q', procs (reparent_at me k i) !! j = Some q' -> parent q' = Some me ->
     j <> i /\ exists q, procs k !! j = Some q /\ parent q = Some me).
Proof.
  intros Hk Hc Hne Hnf.
  assert (forall j q, procs k !! j = Some q -> parent q = Some me ->
            (forall pp, procs k !! i = Some pp -> is_child me pp = false) -> j <> i) as Hnot.
  { intros j q Hq Hpar Hno ->. specialize (Hno q Hq). unfold is_child in Hno. by to_prop. }
  destruct (procs k !! i) as [pp|] eqn:Hp.
  2:{ unfold reparent_at. rewrite Hp. split_and!; try done. intros j q Hq Hpar.
      split; [by eapply Hnot|by exists q]. }
  destruct (is_child me pp) eqn:Hch.
  2:{ unfold reparent_at. rewrite Hp, Hch. split_and!; try done. intros j q Hq Hpar.
      split; [|by exists q]. eapply Hnot; [done..|]. by intros ? [= <-]. }
  destruct (ki_init k Hk) as (i0 & p0 & Hi0 & Hp0 & Hl0 & Hpar0).
  pose proof Hch as Hpp. unfold is_child in Hpp. to_prop.
  assert (i <> me) as Him.
  { pose proof (child_not_used k me i pp Hk Hnf Hp Hpp) as Hnu.
    intros ->. destruct (ki_parent k Hk me pp Hp) as [(j & q & Hj & Hjm & _)|[? _]]; [|congruence..].
    pose proof (running_state _ _ _ Hk Hc Hp). congruence. }
  assert (i <> i0) as Hii by congruence.
  assert (Some i0 <> cpu_proc k) as Him0 by congruence.
  rewrite (reparent_at_alt me k i pp i0 Hp Hch Hi0). cbv zeta.
  assert (procs (wakeup (ChanProc i0) k) !! i = Some (wake (ChanProc i0) (cpu_proc k) i pp)) as Hp1
    by (by rewrite wakeup_spec, Hp).
  split_and!; try done.
  - apply kinv_reparent; try done.
    + by apply kinv_wakeup.
    + destruct (wake_moved k (ChanProc i0) i pp Hk Hp) as [_ _ _ _ Hu _ _ _ _ _].
      intros Hwu. apply Hu in Hwu. destruct (ki_unused k Hk i pp Hp Hwu) as (_ & ? & _). congruence.
    + intros q Hq [Hs1 Hs2]. by eapply wakeup_no_sleeper.
    + destruct (wake_moved k (ChanProc i0) i pp Hk Hp) as [_ _ _ _ _ _ _ Hus _ _].
      intros Hwu. apply Hus in Hwu. by apply (child_not_used k me i pp).
  - simpl. by rewrite length_insert, length_imap.
  - simpl. rewrite list_lookup_insert_ne by done. by apply wakeup_self.
  - intros j q' [(-> & <- & _)|[Hji Hq']]%list_lookup_insert_Some Hpar.
    + simpl in Hpar. congruence.
    + split; [done|]. rewrite wakeup_spec in Hq'. apply fmap_Some in Hq' as (q & Hq & ->).
      exists q. split; [done|]. revert Hpar. unfold wake. by destruct (_ && _).
Qed.

Lemma reparent_spec k me :
  kinv k -> cpu_proc k = Some me -> initproc k <> Some me -> not_forking k me ->
  kinv (reparent me k) /\ cpu_proc (reparent me k) = Some me /\
  initproc (reparent me k) = initproc k /\ inside (reparent me k) = inside k /\ procs (reparent me k) !! me = procs k !! me /\
  (forall j q, procs (reparent me k) !! j = Some q -> parent q <> Some me).
Proof.
  intros Hk Hc Hne Hnf. unfold reparent.
  assert (forall n, (n <= length (procs k))%nat ->
    let k' := fold_left (reparent_at me) (seq 0 n) k in
    kinv k' /\ cpu_proc k' = Some me /\ initproc k' = initproc k /\ inside k' = inside k /\
    procs k' !! me = procs k !! me /\ length (procs k') = length (procs k) /\
    (forall j q, procs k' !! j = Some q -> parent q = Some me -> (n <= j)%nat)) as Hind.
  { induction n as [|n IH]; intros Hn; cbv zeta.
    { simpl. split_and!; try done. intros. lia. }
    rewrite seq_S, fold_left_app. simpl.
    destruct IH as (H1 & H2 & H3 & H3' & H4 & H5 & H6); [lia|].
    set (k1 := fold_left (reparent_at me) (seq 0 n) k) in *.
    destruct (reparent_at_spec k1 me n H1 H2) as (G1 & G2 & G3 & G3' & G4 & G5 & G6);
      [congruence|unfold not_forking; by rewrite H3'|].
    split_and!; try done; try congruence.
    intros j q Hq Hpar. destruct (G6 j q Hq Hpar) as (Hjn & q0 & Hq0 & Hpar0).
    specialize (H6 j q0 Hq0 Hpar0). lia. }
  destruct (Hind (length (procs k)) ltac:(done)) as (H1 & H2 & H3 & H3' & H4 & H5 & H6).
  split_and!; try done. intros j q Hq Hpar. specialize (H6 j q Hq Hpar).
  apply lookup_lt_Some in Hq. lia.
Qed.

(** A running process without children, whose parent is not asleep waiting,
    becomes a zombie. *)
Lemma kinv_zombie k me p p' :
  kinv k -> procs k !! me = Some p -> cpu_proc k = Some me -> initproc k <> Some me ->
  (forall j q, procs k !! j = Some q -> parent q <> Some me) ->
  (forall j q, parent p = Some j -> procs k !! j = Some q -> ~ own_sleep j q) ->
  state p' = ZOMBIE -> pid p' = pid p -> parent p' = parent p -> chan p' = chan p ->
  creation_time p' = creation_time p -> nice p' = nice p /\ weight p' = weight p ->
  not_forking k me ->
  let k1 := leave me (set_proc me p' k) in kinv {| k1 with cpu_proc := None |}.
Proof.
  intros Hk Hp Hc Hinit Hnochild Hnosleep Hz Hpid Hpar Hch Htm [Hni Hwe] Hnf.
  pose proof (running_state _ _ _ Hk Hc Hp) as Hrun.
  assert (forall j q', <[me := p']> (procs k) !! j = Some q' ->
    exists q, procs k !! j = Some q /\ (q' = q /\ j <> me \/ j = me /\ q = p /\ q' = p')) as Hback.
  { intros j q' [(-> & <- & _)|[Hji Hq]]%list_lookup_insert_Some; [exists p|exists q']; auto. }
  assert (forall j q, procs k !! j = Some q -> j <> me -> <[me := p']> (procs k) !! j = Some q) as Hfwd.
  { intros j q Hq Hne. by rewrite list_lookup_insert_ne. }
  split; simpl.
  - rewrite length_insert. apply Hk.
  - apply Hk.
  - intros j q' Hq'. destruct (Hback j q' Hq') as (q & Hq & [[-> Hne]|(-> & -> & ->)]).
    + rewrite (ki_cpu k Hk j _ Hq), Hc. split; congruence.
    + split; congruence.
  - done.
  - intros j q' Hq' Hqu. destruct (Hback j q' Hq') as (q & Hq & [[-> _]|(-> & -> & ->)]);
      [by apply (ki_unused k Hk j _ Hq)|congruence].
  - intros j q' Hq' Hqu. destruct (Hback j q' Hq') as (q & Hq & [[-> _]|(-> & -> & ->)]); [|congruence].
    destruct (ki_used k Hk j _ Hq Hqu) as (m & b & Hm). exists m, b.
    rewrite lookup_delete_ne; [done|]. intros <-. by apply Hnf in Hm.
  - intros m a [Hne Ha]%lookup_delete_Some. destruct (ki_inside k Hk m a Ha) as (q & Hq & Hl & Hx).
    exists q. split; [by apply Hfwd|]. split; [done|]. destruct a as [c par|]; [|done].
    destruct Hx as (? & ? & np & Hnp & Hst & Hpn). split; [done|]. split; [done|]. exists np.
    split; [|done]. apply Hfwd; [done|congruence].
  - intros m m' a a' c [_ Ha]%lookup_delete_Some [_ Ha']%lookup_delete_Some. by apply (ki_forked k Hk m m' a a' c).
  - intros j q' Hq' Hqu. destruct (Hback j q' Hq') as (q & Hq & [[-> _]|(-> & -> & ->)]);
      [by apply (ki_pid k Hk j _ Hq)|].
    rewrite Hpid, Htm, Hni, Hwe. apply (ki_pid k Hk me p Hp). congruence.
  - intros j j' q1 q2 Hq1 Hq2.
    destruct (Hback j q1 Hq1) as (q & Hq & [[-> _]|(-> & -> & ->)]),
             (Hback j' q2 Hq2) as (q' & Hq' & [[-> _]|(-> & -> & ->)]);
      rewrite ?Hpid; intros ??; apply (ki_inj k Hk _ _ _ _ Hq Hq'); congruence.
  - intros j j' q' Hq'. destruct (Hback j q' Hq') as (q & Hq & [[-> _]|(-> & -> & ->)]);
      rewrite ?Hch; by apply (ki_chan k Hk _ _ _ Hq).
  - destruct (ki_init k Hk) as (i0 & p0 & Hi0 & Hp0 & Hl & Hpar0). exists i0, p0.
    split_and!; try done. apply Hfwd; [done|congruence].
  - intros j q' Hq' Hqu Hij. destruct (Hback j q' Hq') as (q & Hq & [[-> _]|(-> & -> & ->)]).
    + destruct (ki_parent k Hk j _ Hq Hqu Hij) as [(x & r & Hx & Hxj & Hr & Hl)|Hnone]; [left|by right].
      exists x, r. split_and!; try done. apply Hfwd; [done|].
      intros ->. by apply (Hnochild _ _ Hq).
    + destruct (ki_parent k Hk me p Hp) as [(x & r & Hx & Hxj & Hr & Hl)|[? _]]; [congruence|done|left|congruence].
      exists x, r. split_and!; try done; [congruence|]. by apply Hfwd.
  - intros j x q' r' Hq' Hs Hr' Hpr.
    destruct (Hback j q' Hq') as (q & Hq & [[-> _]|(-> & -> & ->)]);
      [|destruct Hs; congruence].
    destruct (Hback x r' Hr') as (r & Hr & [[-> _]|(-> & -> & ->)]);
      [by apply (ki_wait k Hk j x _ _ Hq Hs Hr)|].
    rewrite Hpar in Hpr. by destruct (Hnosleep j _ Hpr Hq).
Qed.

Lemma kinv_enter_exit k me a p :
  kinv k -> procs k !! me = Some p -> live p -> initproc k <> Some me -> not_forking k me ->
  (exists st n, a = Exiting st n) -> kinv (enter me a k).
Proof.
  intros Hk Hp Hl Hi Hnf (st & n & ->). destruct Hk as [H1 H2 H3 H4 H5 Hu Hin Hfk H6 H7 H8 H9 H10 H11].
  split; try done.
  - intros i q Hq Hqu. destruct (Hu i q Hq Hqu) as (m & b & Hm). exists m, b. simpl.
    rewrite lookup_insert_ne; [done|]. intros <-. by apply Hnf in Hm.
  - intros m a Ha0. simpl in Ha0. apply lookup_insert_Some in Ha0 as [[<- <-]|[_ Ha]]; [by exists p|by apply Hin].
  - intros m m' a a' c. simpl. intros [[<- <-]|[_ Ha]]%lookup_insert_Some [[<- <-]|[_ Ha']]%lookup_insert_Some; try done.
    by apply (Hfk m m' a a' c).
Qed.

Lemma kinv_exit status k me p k' :
  kinv k -> cpu_proc k = Some me -> procs k !! me = Some p -> inside k !! me = None ->
  kexit status me k = Ret k' -> kinv k'.
Proof.
  intros Hk Hc Hp Hout He. unfold kexit in He. destruct (bool_decide _) eqn:Hi; simplify_eq. to_prop.
  eapply kinv_enter_exit; [done..|by eapply running_live|done| |by eauto]. intros c par. congruence.
Qed.

Lemma exiting k me st n : kinv k -> inside k !! me = Some (Exiting st n) ->
  initproc k <> Some me /\ not_forking k me.
Proof.
  intros Hk Ha. destruct (ki_inside k Hk me _ Ha) as (_ & _ & _ & Hi). split; [done|]. intros c par. congruence.
Qed.

Lemma kinv_exit_finish pol status n k me p k' :
  kinv k -> cpu_proc k = Some me -> procs k !! me = Some p -> inside k !! me = Some (Exiting status n) ->
  kexit_finish pol status me k = Ret k' -> kinv k'.
Proof.
  intros Hk Hc Hp1 Ha He. destruct (exiting k me status n Hk Ha) as [Hi Hnf].
  unfold kexit_finish in He. rewrite Hp1 in He. cbv zeta in He.
  destruct (reparent_spec k me Hk Hc Hi Hnf) as (Hk2 & Hc2 & Hi2 & Hin2 & Hp2 & Hno).
  set (k2 := reparent me k) in *. rewrite Hp1 in Hp2.
  set (c := match parent p with Some j => ChanProc j | None => NoChan end) in *.
  assert (procs (wakeup c k2) !! me = Some p) as Hp3 by (by rewrite wakeup_self).
  rewrite Hp3 in He.
  destruct (sched_spec _ _ _ _ He) as
    (q & q' & Hq & Hqr & [Hs1 Hs2 (Hs3 & Hs4 & Hs5) Hs6] & Hps & Hn & Ht & Hi' & Hc' & _ & _ & Hin').
  simpl in Hq. rewrite list_lookup_insert_eq in Hq by (by eapply lookup_lt_Some).
  injection Hq as <-. simpl in *. rewrite list_insert_insert_eq in Hps.
  assert (let k3 := leave me (set_proc me q' (wakeup c k2)) in kinv {| k3 with cpu_proc := None |}) as Hz.
  { apply (kinv_zombie (wakeup c k2) me p q'); try done.
    - by apply kinv_wakeup.
    - simpl. congruence.
    - intros j r Hr. rewrite wakeup_spec in Hr. apply fmap_Some in Hr as (r0 & Hr0 & ->).
      specialize (Hno j r0 Hr0). unfold wake. by destruct (_ && _).
    - intros j r Hj Hr [Ho1 Ho2]. unfold c in Hr. rewrite Hj in Hr.
      assert (cpu_proc k2 <> Some j) as Hnj.
      { rewrite Hc2. intros [= ->]. pose proof (running_state _ _ _ Hk Hc Hp1) as Hrun.
        destruct (ki_parent k Hk j p Hp1) as [(x & ? & Hx & Hxj & _)|[? _]]; congruence. }
      by apply (wakeup_no_sleeper _ _ _ _ Hr Hnj Ho1).
    - unfold not_forking. simpl. by rewrite Hin2. }
  destruct Hz as [? ? Hz3 ? ? ? ? ? ? ? ? ? ? ?]. simpl in *.
  split; unfold inside_ok in *; rewrite ?Hps, ?Hn, ?Ht, ?Hi', ?Hc', ?Hin'; try done.
Qed.

Lemma kinv_exit_step pol status n k me p k' :
  kinv k -> cpu_proc k = Some me -> procs k !! me = Some p -> inside k !! me = Some (Exiting status n) ->
  kexit_step pol status n me p k = Ret k' -> kinv k'.
Proof.
  intros Hk Hc Hp Ha He. destruct (exiting k me status n Hk Ha) as [Hi Hnf].
  assert (forall w p', private p p' -> kinv (enter me (Exiting status (S n)) (set_proc me p' (set_world w k)))) as Hpriv.
  { intros w p' Hpv. eapply (kinv_enter_exit _ me _ p'); try done; [|simpl| |by eauto].
    - by eapply (kinv_private k _ me p p').
    - rewrite list_lookup_insert_eq; [done|by eapply lookup_lt_Some].
    - destruct (running_live k me p Hk Hc Hp). destruct Hpv. split; congruence. }
  unfold kexit_step in He. destruct (_ <? _)%nat; [simplify_eq; apply Hpriv; by repeat split|].
  destruct (_ =? _)%nat; [simplify_eq; apply Hpriv; by repeat split|]. by eapply kinv_exit_finish.
Qed.

(** ** kwait, kkill, growproc *)

Lemma kinv_wait pol addr k me p r k' :
  kinv k -> cpu_proc k = Some me -> procs k !! me = Some p ->
  kwait pol addr me p k = Ret (r, k') -> kinv k'.
Proof.
  intros Hk Hc Hp Hw. unfold kwait in Hw.
  destruct (find_idx _ (procs k)) as [i|] eqn:Hi.
  - apply find_idx_hit in Hi as (pp & Hpp & He). to_prop. rewrite Hpp in Hw.
    destruct (addr =? 0); [simplify_eq; by apply kinv_free_zombie|].
    destruct (copyout_int _ _ _ _) as [[] w]; simplify_eq.
    + apply kinv_free_zombie; [by apply kinv_world|done|done].
    + by apply kinv_world.
  - assert (no_zombie_child k me) as Hnz.
    { intros j q Hq Hpar Hz. rewrite find_idx_None in Hi. specialize (Hi j q Hq).
      unfold is_child in Hi. rewrite !bool_decide_eq_true_2 in Hi by done. done. }
    destruct (_ || _); [by simplify_eq|].
    destruct (sleep pol (ChanProc me) me p k) as [k1| |] eqn:Hs; simpl in Hw; simplify_eq.
    eapply kinv_sleep; try done. by intros j [= ->].
Qed.

Lemma kinv_kill n k r k' : kinv k -> kkill n k = (r, k') -> kinv k'.
Proof.
  intros Hk He. unfold kkill in He. destruct (find_idx _ _) as [i|]; [|by simplify_eq].
  destruct (procs k !! i) as [p|] eqn:Hp; [|by simplify_eq]. simplify_eq.
  eapply (kinv_set k _ i p); try done; simpl; [by left|congruence| |].
  - destruct (moved_refl k i p Hk Hp).
    destruct (bool_decide (state p = SLEEPING)) eqn:Hs; to_prop; split; simpl; try done;
      intuition congruence.
  - intros [Ho1 Ho2]. left. revert Ho1 Ho2. by destruct (bool_decide _).
Qed.

Lemma kinv_grow n k me p r k' :
  kinv k -> procs k !! me = Some p -> growproc n me p k = (r, k') -> kinv k'.
Proof.
  intros Hk Hp He. unfold growproc in He.
  assert (forall w s, kinv (set_proc me {| p with sz := s |} (set_world w k))) as Hset.
  { intros w s. eapply (kinv_private k); [exact Hk|reflexivity|exact Hp| |reflexivity..]. by repeat split. }
  destruct (0 <? n); [|destruct (n <? 0)].
  - destruct (uvmalloc _ _ _ _) as [s w]. destruct (s =? 0); simplify_eq; [by apply kinv_world|apply Hset].
  - destruct (uvmdealloc _ _ _ _) as [s w]. simplify_eq. apply Hset.
  - simplify_eq. apply (Hset (world k)).
Qed.

Lemma kinv_setkilled k me p : kinv k -> procs k !! me = Some p -> kinv (setkilled me p k).
Proof.
  intros Hk Hp. eapply (kinv_private k); [exact Hk|reflexivity|exact Hp| |reflexivity..]. by repeat split.
Qed.

Lemma clockintr_self k me : cpu_proc k = Some me -> procs (clockintr k) !! me = procs k !! me.
Proof. intros Hc. unfold clockintr. by rewrite wakeup_self. Qed.

Lemma myproc_inv k me p : myproc k = Some (me, p) -> cpu_proc k = Some me /\ procs k !! me = Some p.
Proof.
  unfold myproc. intros H. apply bind_Some in H as (i & Hi & H).
  apply bind_Some in H as (q & Hq & H). by simplify_eq.
Qed.

Lemma kinv_user_timer pol k me k' :
  kinv k -> cpu_proc k = Some me -> inside k !! me = None -> usertrap_timer pol me k = Ret k' -> kinv k'.
Proof.
  intros Hk Hc Hout Ht. unfold usertrap_timer in Ht.
  pose proof (kinv_clockintr k Hk) as Hk1.
  destruct (procs (clockintr k) !! me) as [p|] eqn:Hp; [|done].
  destruct (negb _); [by eapply kinv_exit|].
  destruct (timer_yields pol p); [by eapply kinv_yield|by simplify_eq].
Qed.

Lemma kinv_kernel_timer pol k k' : kinv k -> kerneltrap_timer pol k = Ret k' -> kinv k'.
Proof.
  intros Hk Ht. unfold kerneltrap_timer in Ht. pose proof (kinv_clockintr k Hk) as Hk1.
  destruct (myproc (clockintr k)) as [[me p]|] eqn:Hm; [|by simplify_eq].
  apply myproc_inv in Hm as [Hc Hp].
  destruct (timer_yields pol p); [by eapply kinv_yield|by simplify_eq].
Qed.

Lemma kstep_kinv pol k k' : kinv k -> pids_left k -> kstep pol k k' -> kinv k'.
Proof.
  intros Hk Hpid Hs.
  destruct Hs;
    try (match goal with H : acting _ _ _ |- _ => destruct H as [[[Hc Hp]%myproc_inv _] Hout] end);
    try (match goal with H : on_cpu _ _ _ |- _ => destruct H as [[Hc Hp]%myproc_inv _] end).
  - by apply kinv_scheduler_pass.
  - by eapply kinv_kernel_timer.
  - match goal with H : myproc _ = _ |- _ => apply myproc_inv in H as [Hc Hp] end.
    by apply kinv_resume.
  - by eapply kinv_fork.
  - by apply kinv_fork_parent.
  - by apply kinv_fork_run.
  - by eapply kinv_exit.
  - by eapply kinv_exit_step.
  - by eapply kinv_wait.
  - by apply (kinv_sleep pol (ChanAddr a) k k' me p).
  - by eapply kinv_kill.
  - by eapply kinv_grow.
  - by apply kinv_setkilled.
  - by eapply kinv_user_timer.
  - by eapply kinv_kernel_timer.
  - by apply kinv_wakeup.
Qed.

End safe.
