(* ===== verification/ProcSched.v ===== *)
(** * What the processes and the schedulers guarantee *)
From S2P Require Import Prelude Proc ProcFacts ProcSafe.

Import Proc.

#[local] Open Scope Z_scope.

(** ** Reachable kernel states *)

Section reach.
Context {W : Type} `{!proc_env W}.
Implicit Types (k : kernel W) (p q : proc) (i j me : nat) (w : W).

(** A step taken while the pid counter is not about to wrap. *)
Definition step_ok pol k k' : Prop := pids_left k /\ kstep pol k k'.

Definition reachable pol k : Prop :=
  exists w k0, userinit (procinit w) = Ret k0 /\ rtc (step_ok pol) k0 k.

(** The table after [userinit]: init in slot 0, nothing else. *)
Lemma boot_spec w k0 :
  userinit (procinit w) = Ret k0 ->
  exists p, procs k0 = p :: replicate 63 zero_proc /\ pid p = 1 /\ state p = RUNNABLE /\
    parent p = None /\ chan p = NoChan /\ creation_time p = 1 /\ nice p = 0 /\ weight p = 1024 /\
    nextpid k0 = 2 /\ next_creation_time k0 = 2 /\ initproc k0 = Some 0%nat /\ cpu_proc k0 = None /\
    killed p = 0 /\ inside k0 = ∅.
Proof.
  unfold userinit. destruct (allocproc (procinit w)) as [o k] eqn:Ha.
  unfold allocproc in Ha. simpl in Ha.
  destruct (kalloc w) as [[tf w1]|]; [|by simplify_eq].
  destruct (proc_pagetable tf w1) as [[pt w2]|]; simplify_eq; simpl; [|done].
  destruct (root_inode w2) as [root w3]. intros [= <-]. simpl.
  eexists. split; [reflexivity|]. simpl. by split_and!.
Qed.

Lemma boot_kinv w k0 : userinit (procinit w) = Ret k0 -> kinv k0.
Proof.
  intros H. destruct (boot_spec w k0 H)
    as (p & Hps & Hpid & Hst & Hpar & Hch & Htm & Hni & Hwe & Hn & Ht & Hi & Hc & _ & Hin).
  assert (forall i q, procs k0 !! i = Some q -> i = 0%nat /\ q = p \/ i <> 0%nat /\ q = zero_proc) as Hall.
  { intros [|i] q Hq; rewrite Hps in Hq; simpl in Hq; [left; by simplify_eq|].
    right. by apply (lookup_replicate_1 63) in Hq as [-> _]. }
  assert (forall i q, procs k0 !! i = Some q -> state q <> UNUSED -> i = 0%nat /\ q = p) as Hlive.
  { intros i q Hq Hu. by destruct (Hall i q Hq) as [?|[_ ->]]. }
  split.
  - by rewrite Hps.
  - rewrite Hn, Ht. lia.
  - intros i q Hq. rewrite Hc. destruct (Hall i q Hq) as [[_ ->]|[_ ->]]; [|done]. by rewrite Hst.
  - by rewrite Hc.
  - intros i q Hq Hu. destruct (Hall i q Hq) as [[_ ->]|[_ ->]]; [congruence|done].
  - intros i q Hq Hu. destruct (Hall i q Hq) as [[_ ->]|[_ ->]]; [congruence|done].
  - by rewrite Hin.
  - by rewrite Hin.
  - intros i q Hq Hu. destruct (Hlive i q Hq Hu) as [_ ->]. rewrite Hn. split_and!; first [congruence|lia].
  - intros i j q r Hq Hr Hu Hpq. destruct (Hlive i q Hq Hu) as [-> ->].
    destruct (Hall j r Hr) as [[-> _]|[_ ->]]; [done|]. simpl in Hpq. lia.
  - intros i j q Hq Hcq. destruct (Hall i q Hq) as [[_ ->]|[_ ->]]; [congruence|done].
  - exists 0%nat, p. rewrite Hps. split_and!; try done. split; congruence.
  - intros i q Hq Hu Hne. destruct (Hlive i q Hq Hu) as [-> ->]. done.
  - intros i j q r Hq [Hs _] Hr Hpr. destruct (Hall i q Hq) as [[_ ->]|[_ ->]]; [congruence|done].
Qed.

Lemma reachable_kinv pol k : reachable pol k -> kinv k.
Proof.
  intros (w & k0 & Hb & Hr). eapply (rtc_invariant (step_ok pol)); [|exact Hr|by eapply boot_kinv].
  intros x y Hx [Hp Hs]. by eapply kstep_kinv.
Qed.

(** (C15) The process table is well-formed in every reachable state, with any
    scheduler, wherever a process is preempted or sleeps: pids in use are distinct
    and below the counter, at most one process is RUNNING and it is the one on the
    CPU, and every process in use other than init has a live parent (neither freed
    nor a zombie).  The one exception is the child of a fork in progress, between
    the release of its lock and the setting of its parent: it is USED, so it cannot
    run, it has no parent, and the live process that will become its parent is at
    that point of [kfork]. *)
Theorem proc_table_wellformed pol k i p :
  reachable pol k -> procs k !! i = Some p -> state p <> UNUSED ->
  0 < pid p < nextpid k /\
  (forall j q, procs k !! j = Some q -> pid q = pid p -> i = j) /\
  (state p = RUNNING <-> cpu_proc k = Some i) /\
  (initproc k <> Some i ->
   (exists j q, parent p = Some j /\ procs k !! j = Some q /\ state q <> UNUSED /\ state q <> ZOMBIE) \/
   (state p = USED /\ parent p = None /\
    exists j q, inside k !! j = Some (Forking i false) /\ procs k !! j = Some q /\
      state q <> UNUSED /\ state q <> ZOMBIE)).
Proof.
  intros Hr Hp Hu. apply reachable_kinv in Hr as Hk.
  split; [by apply (ki_pid k Hk i p)|]. split; [|split].
  - intros j q Hq Heq. by eapply (ki_inj k Hk).
  - by apply (ki_cpu k Hk).
  - intros Hne. destruct (ki_parent k Hk i p Hp Hu Hne) as [(j & q & ? & _ & ? & [? ?])|[Hus Hpar]].
    + left. by exists j, q.
    + right. destruct (ki_used k Hk i p Hp Hus) as (m & b & Hm).
      destruct (forking_child k m i b p Hk Hm Hp) as (_ & _ & _ & Hpb & (q & Hq & [? ?]) & _).
      destruct b; [congruence|]. split_and!; [done..|]. by exists m, q.
Qed.

(** (C16) No exit is lost: a process asleep in [kwait] has no zombie child; and
    a process with a zombie child that calls [kwait] does not sleep: when the exit
    status is not asked for or can be copied out, it gets the child's pid and the
    child's slot is free afterwards; with a bad address it gets -1, and the table
    is as before, so the child is there for the next call. *)
Theorem proc_exit_never_lost pol k i p j q :
  reachable pol k -> procs k !! i = Some p -> procs k !! j = Some q ->
  parent q = Some i -> state q = ZOMBIE ->
  (state p = SLEEPING -> chan p <> ChanProc i) /\
  (forall pol' addr, exists j' q' k', procs k !! j' = Some q' /\ parent q' = Some i /\ state q' = ZOMBIE /\
     if (addr =? 0) || fst (copyout_int (pagetable p) addr (xstate q') (world k))
     then kwait pol' addr i p k = Ret (Waited (pid q'), k') /\ procs k' = <[j' := freed q']> (procs k)
     else kwait pol' addr i p k = Ret (Waited (-1), k') /\ procs k' = procs k).
Proof.
  intros Hr Hp Hq Hpar Hz. apply reachable_kinv in Hr as Hk. split.
  - intros Hs Hc. by apply (ki_wait k Hk i j p q).
  - intros pol' addr. unfold kwait.
    destruct (find_idx _ (procs k)) as [j'|] eqn:Hf.
    + apply find_idx_hit in Hf as (q' & Hq' & He). unfold is_child in He. to_prop. rewrite Hq'.
      destruct (addr =? 0); simpl; [by eexists j', q', _|].
      destruct (copyout_int _ _ _ _) as [[] w] eqn:Hcp; eexists j', q', _; by rewrite Hcp.
    + rewrite find_idx_None in Hf. specialize (Hf j q Hq). unfold is_child in Hf.
      by rewrite !bool_decide_eq_true_2 in Hf.
Qed.

(** The first-come-first-served and round-robin kernels never run
    anything: they only consider processes with a pid above 2, init has pid
    1, and nothing else can create processes.  Whatever steps the machine
    takes, init stays RUNNABLE and is never given the CPU. *)
Theorem sched_fcfs_rr_never_start pol k :
  pol <> CFS -> reachable pol k ->
  cpu_proc k = None /\
  exists p, procs k !! 0%nat = Some p /\ pid p = 1 /\ state p = RUNNABLE /\
    forall i q, procs k !! i = Some q -> i <> 0%nat -> state q = UNUSED.
Proof.
  intros Hpol (w & k0 & Hb & Hr).
  set (stuck := fun k => cpu_proc k = None /\ exists p, procs k = p :: replicate 63 zero_proc /\
    pid p = 1 /\ state p = RUNNABLE /\ chan p = NoChan).
  assert (stuck k) as (Hc & p & Hps & Hpid & Hst & _).
  { eapply (rtc_invariant (step_ok pol) stuck); [|exact Hr|].
    - clear -Hpol. intros k k' (Hc & p & Hps & Hpid & Hst & Hch) [_ Hs].
      assert (forall c, procs (wakeup c k) = procs k) as Hwake.
      { intros c. apply list_eq. intros i. rewrite wakeup_spec.
        destruct (procs k !! i) as [q|] eqn:Hq; [|done]. simpl. f_equal. unfold wake.
        rewrite (bool_decide_eq_false_2 (state q = SLEEPING)); [by rewrite andb_false_r|].
        rewrite Hps in Hq. destruct i as [|i]; simpl in Hq; [simplify_eq; congruence|].
        by apply (lookup_replicate_1 63) in Hq as [-> _]. }
      assert (forall i q, procs k !! i = Some q -> runnable_user q = false) as Hnone.
      { intros [|i] q Hq; rewrite Hps in Hq; simpl in Hq; simplify_eq.
        - unfold runnable_user. rewrite Hpid. by rewrite andb_false_r.
        - by apply (lookup_replicate_1 63) in Hq as [-> _]. }
      destruct Hs; try (match goal with H : acting _ _ _ |- _ => destruct H as [[[Hc' _]%myproc_inv _] _] end;
        congruence); try (match goal with H : on_cpu _ _ _ |- _ => destruct H as [[Hc' _]%myproc_inv _] end;
        congruence).
      + destruct pol; [done|..]; unfold scheduler_pass.
        * unfold fcfs_pick. rewrite (proj2 (scan_min_None runnable_user creation_time (procs k)) Hnone).
          split; [done|]. by exists p.
        * destruct (procs k !! rr_pos k) as [q|] eqn:Hq; [rewrite (Hnone _ _ Hq)|];
            (split; [done|]; by exists p).
      + assert (myproc (clockintr k) = None) as Hm by (unfold myproc; simpl; by rewrite Hc).
        match goal with H : kerneltrap_timer _ _ = _ |- _ =>
          unfold kerneltrap_timer in H; rewrite Hm in H; injection H as <- end.
        split; [done|]. exists p.
        change (procs (clockintr k)) with (procs (wakeup ticks_chan k)). by rewrite Hwake.
      + match goal with H : myproc _ = _ |- _ => apply myproc_inv in H as [Hc' _] end. congruence.
      + split; [done|]. exists p. by rewrite Hwake.
    - destruct (boot_spec w k0 Hb) as (p & Hps & Hpid & Hst & _ & Hch & _ & _ & _ & _ & _ & _ & Hc & _).
      split; [done|]. by exists p. }
  split; [done|]. exists p. rewrite Hps. split_and!; try done.
  intros [|i] q Hq Hi; [done|]. by apply (lookup_replicate_1 63) in Hq as [-> _].
Qed.

End reach.

(** ** The schedulers' choices: first-come order, fair shares, no starvation *)
Import Proc.


Section fair.
Context {W : Type} `{!proc_env W}.
Implicit Types (k : kernel W) (p q : proc) (i j me : nat).

(** ** First come, first served *)

Lemma sched_off_cpu pol me k k' q :
  procs k !! me = Some q -> sched pol me k = Ret k' ->
  exists q', procs k' !! me = Some q' /\ state q' = state q.
Proof.
  intros Hq Hs. destruct (sched_spec _ _ _ _ Hs) as (p & p' & Hp & _ & [Hst _ _ _] & -> & _).
  simplify_eq. exists p'. rewrite list_lookup_insert_eq by (by eapply lookup_lt_Some). done.
Qed.

Lemma kexit_zombie pol status n me p k k' :
  kinv k -> cpu_proc k = Some me -> procs k !! me = Some p -> inside k !! me = Some (Exiting status n) ->
  kexit_finish pol status me k = Ret k' ->
  exists q, procs k' !! me = Some q /\ state q = ZOMBIE /\ xstate q = status /\ pid q = pid p.
Proof.
  intros Hk Hc Hp Ha He. destruct (exiting k me status n Hk Ha) as [Hi Hnf]. unfold kexit_finish in He.
  rewrite Hp in He. cbv zeta in He.
  destruct (reparent_spec k me Hk Hc Hi Hnf) as (_ & Hc2 & _ & _ & Hp2 & _).
  rewrite wakeup_self, Hp2, Hp in He by done.
  destruct (sched_spec _ _ _ _ He) as
    (q & q' & Hq & _ & [Hst _ (Hpid & _ & _) _] & Hps & _ & _ & _ & _ & _ & Hx & _).
  simpl in Hq, Hps. rewrite list_lookup_insert_eq in Hq
    by (rewrite length_imap; eapply lookup_lt_Some; by rewrite Hp2).
  injection Hq as <-. exists q'. rewrite Hps, list_lookup_insert_eq; [done|].
  rewrite length_insert, length_imap. eapply lookup_lt_Some. by rewrite Hp2.
Qed.

Lemma allocproc_cpu k o k' : allocproc k = (o, k') -> cpu_proc k' = cpu_proc k.
Proof.
  unfold allocproc. destruct (find_idx _ _) as [x|]; [|by intros [= _ <-]].
  destruct (procs k !! x); [|by intros [= _ <-]]. simpl.
  destruct (kalloc _) as [[tf w]|]; [|by intros [= _ <-]].
  destruct (proc_pagetable _ _) as [[pt w']|]; by intros [= _ <-].
Qed.

(** Nothing but sleeping and exiting takes a user process off the CPU when
    the timer does not preempt. *)
Lemma fcfs_step_keeps k k' i p :
  kinv k -> cpu_proc k = Some i -> procs k !! i = Some p -> 2 < pid p -> kstep FCFS k k' ->
  cpu_proc k' = Some i \/
  exists q, procs k' !! i = Some q /\ (state q = SLEEPING \/ state q = ZOMBIE).
Proof.
  intros Hk Hc Hp Hpid Hs.
  assert (forall pol c p0 k1, procs k !! i = Some p0 -> sleep pol c i p0 k = Ret k1 ->
    exists q, procs k1 !! i = Some q /\ (state q = SLEEPING \/ state q = ZOMBIE)) as Hsleep.
  { intros pol c p0 k1 Hp0 Hsl. unfold sleep in Hsl.
    eapply sched_off_cpu in Hsl as (q & Hq & Hst).
    2:{ simpl. apply list_lookup_insert_eq. by eapply lookup_lt_Some. }
    exists q. by auto. }
  destruct Hs; try congruence;
    try (match goal with H : acting _ _ _ |- _ => destruct H as [[[Hc' Hp']%myproc_inv _] _] end;
         rewrite Hc' in Hc; injection Hc as ->; simplify_eq);
    try (match goal with H : on_cpu _ _ _ |- _ => destruct H as [[Hc' Hp']%myproc_inv _] end;
         rewrite Hc' in Hc; injection Hc as ->; simplify_eq).
  - by left.
  - match goal with H : kfork _ _ _ = _ |- _ => rename H into Hf end. left.
    unfold kfork in Hf. destruct (allocproc k) as [o ka] eqn:Ha.
    pose proof (allocproc_cpu _ _ _ Ha) as Hca. rewrite Hc' in Hca.
    destruct o as [x|]; [|by simplify_eq]. destruct (procs ka !! x); [|by simplify_eq].
    destruct (uvmcopy _ _ _ _) as [[] w]; simpl in Hf; by simplify_eq.
  - by left.
  - by left.
  - left. match goal with H : kexit _ _ _ = _ |- _ => rename H into He end.
    unfold kexit in He. destruct (bool_decide _); by simplify_eq.
  - match goal with H : kexit_step _ _ _ _ _ _ = _ |- _ => rename H into He end.
    unfold kexit_step in He. destruct (_ <? _)%nat; [left; by simplify_eq|].
    destruct (_ =? _)%nat; [left; by simplify_eq|]. right.
    match goal with H : inside _ !! _ = _ |- _ => rename H into Ha end.
    destruct (kexit_zombie _ _ _ _ _ _ _ Hk Hc' Hp Ha He) as (q & Hq & Hz & _). exists q. auto.
  - match goal with H : kwait _ _ _ _ _ = _ |- _ => rename H into Hw end. unfold kwait in Hw.
    destruct (find_idx _ (procs k)) as [j|].
    + left. destruct (procs k !! j); [|done].
      destruct (_ =? 0); [by simplify_eq|]. destruct (copyout_int _ _ _ _) as [[] w]; by simplify_eq.
    + destruct (_ || _); [left; by simplify_eq|].
      destruct (sleep _ _ _ _ _) eqn:Hsl; simpl in Hw; simplify_eq. right. by eapply Hsleep.
  - right. by eapply Hsleep.
  - left. match goal with H : kkill _ _ = _ |- _ => rename H into Hf end. unfold kkill in Hf.
    destruct (find_idx _ _) as [x|]; [|by simplify_eq]. destruct (procs k !! x); simplify_eq; exact Hc'.
  - left. match goal with H : growproc _ _ _ _ = _ |- _ => rename H into Hf end.
    unfold growproc in Hf. destruct (0 <? _); [|destruct (_ <? 0)].
    + destruct (uvmalloc _ _ _ _) as [s w]. destruct (s =? 0); by simplify_eq.
    + destruct (uvmdealloc _ _ _ _) as [s w]. by simplify_eq.
    + by simplify_eq.
  - by left.
  - match goal with H : usertrap_timer _ _ _ = _ |- _ => rename H into Ht end.
    unfold usertrap_timer in Ht. rewrite clockintr_self, Hp in Ht by done.
    destruct (negb _).
    + left. unfold kexit in Ht. destruct (bool_decide _); by simplify_eq.
    + unfold timer_yields in Ht. destruct (Z.leb_spec (pid p) 2); [lia|]. simplify_eq. by left.
  - match goal with H : kerneltrap_timer _ _ = _ |- _ => rename H into Ht end.
    unfold kerneltrap_timer in Ht. destruct (myproc (clockintr k)) as [[me q]|] eqn:Hm.
    + apply myproc_inv in Hm as [Hc2 Hp2]. simpl in Hc2. rewrite Hc' in Hc2. injection Hc2 as <-.
      rewrite clockintr_self, Hp in Hp2 by done. injection Hp2 as <-.
      unfold timer_yields in Ht. destruct (Z.leb_spec (pid p) 2); [lia|]. simplify_eq. by left.
    + simplify_eq. by left.
  - by left.
Qed.

(** First come, first served.  When the CPU is free and some user process
    is runnable, the one created first (least pid) is dispatched; and once
    running, a user process keeps the CPU, whatever the timer does, until it
    sleeps or exits. *)
Theorem sched_fcfs_order k :
  kinv k ->
  (cpu_proc k = None -> (exists j q, procs k !! j = Some q /\ runnable_user q = true) ->
   exists i p, procs k !! i = Some p /\ runnable_user p = true /\
     scheduler_pass FCFS k = dispatch i p k /\
     forall j q, procs k !! j = Some q -> runnable_user q = true -> j <> i -> pid p < pid q) /\
  (forall k' i p, cpu_proc k = Some i -> procs k !! i = Some p -> 2 < pid p -> kstep FCFS k k' ->
   cpu_proc k' = Some i \/
   exists q, procs k' !! i = Some q /\ (state q = SLEEPING \/ state q = ZOMBIE)).
Proof.
  intros Hk. split; [|intros; by eapply fcfs_step_keeps].
  intros Hc (j & q & Hq & He). unfold scheduler_pass, fcfs_pick.
  destruct (scan_min _ _ _ _ _) as [[i p]|] eqn:Hs.
  2:{ rewrite scan_min_None in Hs. specialize (Hs j q Hq). congruence. }
  apply scan_min_Some in Hs as (Hp & Hep & Hmin & _). simpl. exists i, p. rewrite Hp.
  split_and!; try done. intros j' q' Hq' He' Hne. specialize (Hmin j' q' Hq' He').
  assert (forall x r, procs k !! x = Some r -> runnable_user r = true ->
            state r <> UNUSED /\ creation_time r = pid r) as Htm.
  { intros x r Hr Her. unfold runnable_user in Her. to_prop. split; [congruence|].
    apply (ki_pid k Hk x r Hr). congruence. }
  destruct (Htm i p Hp Hep) as [Hu1 Ht1], (Htm j' q' Hq' He') as [Hu2 Ht2].
  destruct (Z.eq_dec (pid p) (pid q')) as [Heq|]; [|lia].
  exfalso. apply Hne. symmetry. by eapply (ki_inj k Hk).
Qed.

End fair.
