(* ===== verification/ProcStarve.v ===== *)
(** * The fair scheduler starves nobody, and keeps run times together *)
From S2P Require Import Prelude Proc ProcFacts ProcSafe ProcSched.

Import Proc.

#[local] Open Scope Z_scope.

(** Sums that decrease pointwise, by [d] in one place. *)
Lemma sum_list_decr (l l' : list nat) (j d : nat) :
  length l = length l' ->
  (forall i x x', l !! i = Some x -> l' !! i = Some x' -> (x' <= x)%nat) ->
  (forall x x', l !! j = Some x -> l' !! j = Some x' -> (x' + d <= x)%nat) ->
  (j < length l)%nat -> (sum_list l' + d <= sum_list l)%nat.
Proof.
  revert l' j. induction l as [|x l IH]; intros [|x' l'] j Hlen Hle Hj Hlt; simpl in *; try lia.
  assert (forall i y y', l !! i = Some y -> l' !! i = Some y' -> (y' <= y)%nat) as Hle'
    by (intros i; apply (Hle (S i))).
  pose proof (Hle 0%nat x x' eq_refl eq_refl) as H0.
  destruct j as [|j].
  - specialize (Hj x x' eq_refl eq_refl). destruct l as [|y l2].
    { destruct l'; simpl in *; lia. }
    destruct l' as [|y' l2']; simpl in Hlen; [lia|].
    specialize (IH (y' :: l2') 0%nat ltac:(simpl in *; lia) Hle').
    assert (sum_list (y' :: l2') + 0 <= sum_list (y :: l2))%nat; [|lia].
    clear -Hle' Hlen. assert (length (y :: l2) = length (y' :: l2')) as Hl by (simpl in *; lia).
    revert Hle' Hl. generalize (y :: l2) (y' :: l2'). clear. intros l.
    induction l as [|a l IH]; intros [|b l'] Hle Hl; simpl in *; try lia.
    pose proof (Hle 0%nat a b eq_refl eq_refl).
    specialize (IH l' (fun i => Hle (S i)) ltac:(lia)). lia.
  - specialize (IH l' j ltac:(lia) Hle' Hj ltac:(lia)). lia.
Qed.

Section starve.
Context {W : Type} `{!proc_env W}.
Implicit Types (k : kernel W) (p q : proc) (i j me : nat).

(** ** Which run times a step changes *)

(** The live processes of [k'] were live before, with the same run time. *)
Definition same_times (skip : option nat) k k' : Prop :=
  forall j p', procs k' !! j = Some p' -> live p' -> skip <> Some j ->
  exists p, procs k !! j = Some p /\ live p /\ pid p' = pid p /\
    vruntime p' = vruntime p /\ time_slice p' = time_slice p.

Lemma same_times_refl s k : same_times s k k.
Proof. intros j p Hp Hl _. by exists p. Qed.

Lemma same_times_trans s k k1 k2 : same_times s k k1 -> same_times s k1 k2 -> same_times s k k2.
Proof.
  intros H1 H2 j p Hp Hl Hs. destruct (H2 j p Hp Hl Hs) as (p1 & Hp1 & Hl1 & ? & ? & ?).
  destruct (H1 j p1 Hp1 Hl1 Hs) as (p0 & ? & ? & ? & ? & ?). exists p0. split_and!; congruence.
Qed.

Lemma same_times_weaken s k k' : same_times None k k' -> same_times s k k'.
Proof. intros H j p Hp Hl _. by apply H. Qed.

Lemma same_times_set s k k' i p p' :
  procs k !! i = Some p -> procs k' = <[i := p']> (procs k) ->
  (live p' -> s = Some i \/ live p /\ pid p' = pid p /\ vruntime p' = vruntime p /\
     time_slice p' = time_slice p) ->
  same_times s k k'.
Proof.
  intros Hp Hps H j q Hq Hl Hs. rewrite Hps in Hq.
  apply list_lookup_insert_Some in Hq as [(-> & <- & _)|[_ Hq]]; [|by exists q].
  destruct (H Hl) as [?|?]; [congruence|]. by exists p.
Qed.

Lemma same_times_wakeup c k : same_times None k (wakeup c k).
Proof.
  intros j p' Hp' Hl _. rewrite wakeup_spec in Hp'. apply fmap_Some in Hp' as (p & Hp & ->).
  exists p. revert Hl. unfold wake. destruct (_ && _) eqn:He; [|done]. to_prop.
  intros _. split_and!; try done. split; congruence.
Qed.

Lemma same_times_reparent me k : same_times None k (reparent me k).
Proof.
  unfold reparent. generalize (seq 0 (length (procs k))). intros l.
  assert (forall k0, same_times None k k0 -> same_times None k (fold_left (reparent_at me) l k0)) as H;
    [|by apply H, same_times_refl].
  induction l as [|i l IH]; intros k0 H0; simpl; [done|]. apply IH.
  eapply same_times_trans; [exact H0|]. unfold reparent_at.
  destruct (procs k0 !! i) as [pp|] eqn:Hp; [|apply same_times_refl].
  destruct (is_child me pp); [|apply same_times_refl].
  eapply same_times_trans; [|apply same_times_wakeup].
  eapply same_times_set; [exact Hp|reflexivity|]. intros Hl. by right.
Qed.

(** The switch back to the fair scheduler charges the slice. *)
Lemma sched_times me k k' p :
  sched CFS me k = Ret k' -> procs k !! me = Some p ->
  same_times (Some me) k k' /\ cpu_proc k' = None /\ length (procs k') = length (procs k) /\
  forall p', procs k' !! me = Some p' -> pid p' = pid p /\ vruntime p' = charge p /\ state p' = state p.
Proof.
  intros Hs Hp. unfold sched in Hs. rewrite Hp in Hs. destruct (bool_decide _); [done|].
  injection Hs as <-. unfold scheduler_return. simpl. rewrite Hp. split_and!; [|done|simpl; by rewrite length_insert|].
  - eapply same_times_set; [exact Hp|reflexivity|]. intros _. by left.
  - simpl. intros p'. rewrite list_lookup_insert_eq by (by eapply lookup_lt_Some). by intros [= <-].
Qed.

(** A step in which the running process [me] leaves the CPU. *)
Definition leaves k k' me p : Prop :=
  cpu_proc k' = None /\ length (procs k') = length (procs k) /\ same_times (Some me) k k' /\
  forall p', procs k' !! me = Some p' -> live p' -> pid p' = pid p /\ vruntime p' = charge p.

Lemma leave_times k k0 k' me p p0 :
  procs k !! me = Some p -> same_times None k k0 -> length (procs k0) = length (procs k) ->
  procs k0 !! me = Some p0 -> pid p0 = pid p -> charge p0 = charge p ->
  sched CFS me k0 = Ret k' -> leaves k k' me p.
Proof.
  intros Hp H0 Hlen Hp0 Hpid Hch Hs. destruct (sched_times _ _ _ _ Hs Hp0) as (Hst & Hc & Hl & Hme).
  split_and!; [done|congruence| |].
  - eapply same_times_trans; [by apply same_times_weaken|exact Hst].
  - intros p' Hp' _. destruct (Hme p' Hp') as (? & ? & _). split; congruence.
Qed.

Lemma yield_leaves k k' me p :
  procs k !! me = Some p -> yield CFS me p k = Ret k' -> state p = RUNNING -> leaves k k' me p.
Proof.
  intros Hp Hy Hr. unfold yield in Hy.
  eapply (leave_times k _ k' me p); [exact Hp| | | | | |exact Hy]; simpl.
  - eapply same_times_set; [exact Hp|reflexivity|]. intros _. right. split_and!; try done.
    split; congruence.
  - by rewrite length_insert.
  - apply list_lookup_insert_eq. by eapply lookup_lt_Some.
  - done.
  - done.
Qed.

Lemma sleep_leaves k k' c me p :
  procs k !! me = Some p -> sleep CFS c me p k = Ret k' -> state p = RUNNING -> leaves k k' me p.
Proof.
  intros Hp Hy Hr. unfold sleep in Hy.
  eapply (leave_times k _ k' me p); [exact Hp| | | | | |exact Hy]; simpl.
  - eapply same_times_set; [exact Hp|reflexivity|]. intros _. right. split_and!; try done.
    split; congruence.
  - by rewrite length_insert.
  - apply list_lookup_insert_eq. by eapply lookup_lt_Some.
  - done.
  - done.
Qed.

Lemma exit_leaves k k' status n me p :
  kinv k -> cpu_proc k = Some me -> procs k !! me = Some p -> inside k !! me = Some (Exiting status n) ->
  kexit_finish CFS status me k = Ret k' -> leaves k k' me p.
Proof.
  intros Hk Hc Hp Ha He. destruct (kexit_zombie _ _ _ _ _ _ _ Hk Hc Hp Ha He) as (z & Hz & Hzs & _).
  unfold kexit_finish in He. rewrite Hp in He. cbv zeta in He.
  set (c := match parent p with Some j => ChanProc j | None => NoChan end) in *.
  set (k2 := wakeup c (reparent me k)) in *.
  assert (same_times None k k2) as H2.
  { eapply same_times_trans; [apply same_times_reparent|apply same_times_wakeup]. }
  destruct (procs k2 !! me) as [p2|] eqn:Hp2; [|done].
  destruct (sched_spec _ _ _ _ He) as (q & q' & Hq & _ & _ & Hps & _ & _ & _ & Hcp & _).
  split_and!; [done| | |].
  - rewrite Hps. simpl. rewrite length_insert, length_insert, length_imap.
    clear. unfold reparent. generalize (seq 0 (length (procs k))). intros l.
    revert k. induction l as [|i l IH]; intros k; simpl; [done|]. rewrite IH.
    unfold reparent_at. destruct (procs k !! i); [|done]. destruct (is_child _ _); [|done].
    simpl. by rewrite length_imap, length_insert.
  - eapply same_times_trans; [by apply same_times_weaken|].
    intros j r Hr Hl Hne. rewrite Hps in Hr. simpl in Hr.
    rewrite list_insert_insert_eq, list_lookup_insert_ne in Hr by congruence.
    by exists r.
  - intros p' Hp' [_ Hnz]. congruence.
Qed.

(** ** Steps that create no process *)

Definition no_new k k' : Prop :=
  forall j p, procs k !! j = Some p -> state p = UNUSED ->
  exists p', procs k' !! j = Some p' /\ state p' = UNUSED.

(** A step of the fair kernel that creates no process. *)
Definition quiet k k' : Prop := pids_left k /\ kstep CFS k k' /\ no_new k k'.

(** The CPU stays with the same process (or stays idle). *)
Definition stays k k' : Prop :=
  cpu_proc k' = cpu_proc k /\ length (procs k') = length (procs k) /\ same_times None k k'.

Lemma stays_set k k' i p p' :
  procs k !! i = Some p -> procs k' = <[i := p']> (procs k) -> cpu_proc k' = cpu_proc k ->
  (live p' -> live p /\ pid p' = pid p /\ vruntime p' = vruntime p /\ time_slice p' = time_slice p) ->
  stays k k'.
Proof.
  intros Hp Hps Hc H. split_and!; [done|by rewrite Hps, length_insert|].
  eapply same_times_set; [exact Hp|exact Hps|]. auto.
Qed.

Lemma stays_refl k k' : procs k' = procs k -> cpu_proc k' = cpu_proc k -> stays k k'.
Proof. intros Hp Hc. split_and!; [done|by rewrite Hp|]. intros j p. rewrite Hp. intros. by exists p. Qed.

Lemma stays_wakeup c k : stays k (wakeup c k).
Proof. split_and!; [done|simpl; by rewrite length_imap|apply same_times_wakeup]. Qed.

Lemma stays_clockintr k : stays k (clockintr k).
Proof.
  destruct (stays_wakeup ticks_chan k) as (H1 & H2 & H3). by split_and!.
Qed.

Lemma not_live_freed p : ~ live (freed p).
Proof. by intros [? _]. Qed.

Lemma stays_alloc_fail k k' : allocproc k = (None, k') -> stays k k'.
Proof.
  unfold allocproc. destruct (find_idx _ _) as [i|]; [|by intros [= <-]; apply stays_refl].
  destruct (procs k !! i) as [p|] eqn:Hp; [|by intros [= <-]; apply stays_refl]. simpl.
  destruct (kalloc _) as [[tf w]|]; [destruct (proc_pagetable _ _) as [[pt w']|]|]; intros [= <-];
    (eapply stays_set; [exact Hp|simpl; apply list_insert_insert_eq|done|];
     intros Hl; by apply not_live_freed in Hl).
Qed.

Lemma stays_fork k me p r k' :
  kinv k -> pids_left k -> kfork me p k = (r, k') -> no_new k k' -> stays k k'.
Proof.
  intros Hk Hpid Hf Hnn. unfold kfork in Hf. destruct (allocproc k) as [o ka] eqn:Ha.
  destruct o as [i|]; [|simplify_eq; by apply stays_alloc_fail].
  destruct (allocproc_spec k (Some i) ka Hk Hpid Ha)
    as (p0 & np & Hp0 & Hu & [Hst _ _ _ _] & Hps & _ & _ & _ & Hcp & _).
  assert (i < length (procs k))%nat as Hlt by by eapply lookup_lt_Some.
  rewrite Hps, list_lookup_insert_eq in Hf by done.
  destruct (uvmcopy _ _ _ _) as [[] w]; simpl in Hf; injection Hf as <- <-.
  - exfalso. destruct (Hnn i p0 Hp0 Hu) as (p' & Hp' & Hu'). simpl in Hp'.
    rewrite list_lookup_insert_eq in Hp' by (by rewrite Hps, length_insert).
    simplify_eq. simpl in Hu'. congruence.
  - eapply stays_set; [exact Hp0|simpl; by rewrite Hps, list_insert_insert_eq|done|].
    intros Hl. by apply not_live_freed in Hl.
Qed.

Lemma stays_wait k addr me p pid0 k' :
  kwait CFS addr me p k = Ret (Waited pid0, k') -> stays k k'.
Proof.
  unfold kwait. destruct (find_idx _ (procs k)) as [i|].
  - destruct (procs k !! i) as [pp|] eqn:Hpp; [|done].
    assert (forall w, stays k (freeproc i pp (set_world w k))) as Hfree.
    { intros w. eapply stays_set; [exact Hpp|reflexivity|done|]. intros Hl. by apply not_live_freed in Hl. }
    destruct (addr =? 0); [intros [= _ <-]; exact (Hfree (world k))|].
    destruct (copyout_int _ _ _ _) as [[] w]; intros [= _ <-]; [apply Hfree|by apply stays_refl].
  - destruct (_ || _); [intros [= _ <-]; by apply stays_refl|].
    destruct (sleep _ _ _ _ _); done.
Qed.

Lemma stays_exit k status me k' : kexit status me k = Ret k' -> stays k k'.
Proof. unfold kexit. destruct (bool_decide _); [done|]. intros [= <-]. by apply stays_refl. Qed.

Lemma leaves_after k k1 k' me p p1 :
  stays k k1 -> procs k !! me = Some p -> procs k1 !! me = Some p1 -> pid p1 = pid p ->
  charge p1 = charge p -> leaves k1 k' me p1 -> leaves k k' me p.
Proof.
  intros (_ & Hlen & Hst) Hp Hp1 Hpid Hch (Hc & Hlen' & Hst' & Hme). split_and!; [done|congruence| |].
  - eapply same_times_trans; [by apply same_times_weaken|done].
  - intros p' Hp' Hl. destruct (Hme p' Hp' Hl). split; congruence.
Qed.

(** What a quiet step can do to the CPU. *)
Lemma quiet_cases k k' :
  kinv k -> quiet k k' ->
  (cpu_proc k = None /\ exists j p, cfs_pick (procs k) = Some j /\ procs k !! j = Some p /\
     k' = dispatch j {| p with time_slice := cfs_slice (num_runnable k) |} k) \/
  stays k k' \/
  (exists me p, cpu_proc k = Some me /\ procs k !! me = Some p /\ leaves k k' me p).
Proof.
  intros Hk (Hpid & Hs & Hnn).
  inversion Hs; subst; clear Hs;
    try (match goal with H : acting _ _ _ |- _ => destruct H as [[[Hc Hp]%myproc_inv _] Hout] end);
    try (match goal with H : on_cpu _ _ _ |- _ => destruct H as [[Hc Hp]%myproc_inv _] end);
    try pose proof (running_state _ _ _ Hk Hc Hp) as Hrun.
  - unfold scheduler_pass in *. destruct (cfs_pick (procs k)) as [j|] eqn:Hj;
      [|right; left; by apply stays_refl].
    destruct (procs k !! j) as [p|] eqn:Hp; [|right; left; by apply stays_refl].
    left. split; [done|]. by exists j, p.
  - right; left. unfold kerneltrap_timer in *.
    destruct (myproc (clockintr k)) as [[me p]|] eqn:Hm.
    { apply myproc_inv in Hm as [Hc _]. simpl in Hc. congruence. }
    simplify_eq. apply stays_clockintr.
  - match goal with H : myproc _ = _ |- _ => apply myproc_inv in H as [Hc Hp] end.
    right; left. eapply stays_set; [exact Hp|reflexivity|done|]. intros Hl. by split_and!.
  - right; left. by eapply stays_fork.
  - right; left. match goal with H : procs _ !! i = _ |- _ => rename H into Hnp end.
    eapply stays_set; [exact Hnp|reflexivity|done|]. intros Hl. by split_and!.
  - right; left. match goal with H : procs _ !! i = _ |- _ => rename H into Hnp end.
    match goal with H : inside _ !! _ = _ |- _ => rename H into Ha end.
    destruct (forking_child k me i true np Hk Ha Hnp) as (_ & _ & Hu & _).
    eapply stays_set; [exact Hnp|reflexivity|done|]. intros _. split; [split; congruence|done].
  - right; left. by eapply stays_exit.
  - match goal with H : kexit_step _ _ _ _ _ _ = _ |- _ => rename H into He end.
    assert (forall w p', private p p' -> vruntime p' = vruntime p -> time_slice p' = time_slice p ->
      stays k (enter me (Exiting status (S n)) (set_proc me p' (set_world w k)))) as Hset.
    { intros w p' [Hst _ (Hpd & _) _] Hv Hts. eapply stays_set; [exact Hp|reflexivity|done|].
      unfold live. rewrite Hst. intros [? ?]. by split_and!. }
    unfold kexit_step in He. destruct (_ <? _)%nat; [right; left; simplify_eq; by apply Hset; repeat split|].
    destruct (_ =? _)%nat; [right; left; simplify_eq; by apply Hset; repeat split|].
    right; right. exists me, p. split_and!; [done|done|]. by eapply exit_leaves.
  - match goal with H : kwait _ _ _ _ _ = _ |- _ => rename H into Hw end.
    destruct r as [x|]; [right; left; by eapply stays_wait|].
    right; right. exists me, p. split_and!; [done|done|]. unfold kwait in Hw.
    destruct (find_idx _ (procs k)) as [i|].
    { destruct (procs k !! i); [|done]. destruct (addr =? 0); [done|].
      by destruct (copyout_int _ _ _ _) as [[] w]. }
    destruct (_ || _); [done|]. destruct (sleep _ _ _ _ _) eqn:Hsl; simpl in Hw; simplify_eq.
    by eapply sleep_leaves.
  - right; right. exists me, p. split_and!; [done|done|]. by eapply sleep_leaves.
  - right; left. match goal with H : kkill _ _ = _ |- _ => rename H into Hf end. unfold kkill in Hf.
    destruct (find_idx _ _) as [i|]; [|simplify_eq; by apply stays_refl].
    destruct (procs k !! i) as [q|] eqn:Hq; [|simplify_eq; by apply stays_refl].
    injection Hf as <- <-. eapply stays_set; [exact Hq|reflexivity|done|].
    unfold live. simpl. destruct (bool_decide (state q = SLEEPING)) eqn:He; simpl; to_prop; [|done].
    intros _. split_and!; congruence.
  - right; left. match goal with H : growproc _ _ _ _ = _ |- _ => rename H into Hf end.
    assert (forall w s, stays k (set_proc me {| p with sz := s |} (set_world w k))) as Hset.
    { intros w s. eapply stays_set; [exact Hp|reflexivity|done|]. intros Hl. by split_and!. }
    unfold growproc in Hf. destruct (0 <? _); [|destruct (_ <? 0)].
    + destruct (uvmalloc _ _ _ _) as [s w]. destruct (s =? 0); simplify_eq; [by apply stays_refl|apply Hset].
    + destruct (uvmdealloc _ _ _ _) as [s w]. simplify_eq. apply Hset.
    + simplify_eq. apply (Hset (world k)).
  - right; left. eapply stays_set; [exact Hp|reflexivity|done|]. intros Hl. by split_and!.
  - match goal with H : usertrap_timer _ _ _ = _ |- _ => rename H into Ht end.
    unfold usertrap_timer in Ht. rewrite clockintr_self, Hp in Ht by done.
    destruct (negb _).
    { right; left. destruct (stays_clockintr k) as (S1 & S2 & S3).
      destruct (stays_exit _ _ _ _ Ht) as (T1 & T2 & T3). split_and!; [congruence|congruence|].
      by eapply same_times_trans. }
    simpl in Ht. right; right. exists me, p. split_and!; [done|done|].
    assert (procs (clockintr k) !! me = Some p) as Hp1 by (by rewrite clockintr_self).
    eapply leaves_after; [apply stays_clockintr|exact Hp|exact Hp1|done|done|].
    by eapply yield_leaves.
  - match goal with H : kerneltrap_timer _ _ = _ |- _ => rename H into Ht end.
    unfold kerneltrap_timer in Ht.
    assert (myproc (clockintr k) = Some (me, p)) as Hm.
    { unfold myproc. simpl. rewrite Hc. simpl.
      change (imap (wake ticks_chan (Some me)) (procs k)) with
        (imap (wake ticks_chan (Some me)) (procs k)).
      pose proof (clockintr_self k me Hc) as He. simpl in He. rewrite Hc in He. by rewrite He, Hp. }
    rewrite Hm in Ht. simpl in Ht. right; right. exists me, p. split_and!; [done|done|].
    assert (procs (clockintr k) !! me = Some p) as Hp1 by (by rewrite clockintr_self).
    eapply leaves_after; [apply stays_clockintr|exact Hp|exact Hp1|done|done|].
    by eapply yield_leaves.
  - right; left. apply stays_wakeup.
Qed.

(** ** How many dispatches can pass a waiting process by *)

Definition liveb p : bool := negb (bool_decide (state p = UNUSED)) && negb (bool_decide (state p = ZOMBIE)).

Lemma liveb_true p : liveb p = true <-> live p.
Proof.
  unfold liveb, live. rewrite andb_true_iff, !negb_true_iff, !bool_decide_eq_false. done.
Qed.

(** The dispatches process [p] can still get before its run time passes [v]. *)
Definition turns (v : Z) p : nat :=
  if liveb p && (2 <? pid p) && (vruntime p <=? v) then S (Z.to_nat ((v - vruntime p) / 3)) else 0%nat.

(** The current dispatch of the running process has been used. *)
Definition turns_left (v : Z) (c : option nat) j p : nat :=
  (turns v p - (if bool_decide (c = Some j) then 1 else 0))%nat.

Definition budget (v : Z) k : nat := sum_list (imap (turns_left v (cpu_proc k)) (procs k)).

Definition dispatched k k' : nat :=
  match cpu_proc k, cpu_proc k' with None, Some _ => 1%nat | _, _ => 0%nat end.

Definition waiting i k : Prop := exists p, procs k !! i = Some p /\ runnable_user p = true.

(** Executions that create no process and during which process [i] waits,
    with the number of dispatches they contain. *)
Inductive waits i : nat -> kernel W -> kernel W -> Prop :=
| waits_refl k : waits i 0 k k
| waits_step n k k1 k2 :
    waits i n k k1 -> quiet k1 k2 -> waiting i k2 -> waits i (n + dispatched k1 k2) k k2.

Record wait_inv i (v : Z) k : Prop := {
  wi_kinv : kinv k;
  wi_me : exists p, procs k !! i = Some p /\ runnable_user p = true /\ vruntime p = v;
  wi_run : forall j q, cpu_proc k = Some j -> procs k !! j = Some q ->
    2 < pid q /\ vruntime q <= v /\ MIN_TIME_SLICE <= time_slice q <= TARGET_LATENCY;
  wi_nonneg : forall j q, procs k !! j = Some q -> live q -> 0 <= vruntime q
}.

Lemma cfs_slice_bounds n : MIN_TIME_SLICE <= cfs_slice n <= TARGET_LATENCY.
Proof.
  unfold cfs_slice, MIN_TIME_SLICE, TARGET_LATENCY. destruct (Z.ltb_spec 0 n).
  - pose proof (Z.quot_le_mono 48 48 n). assert (Z.quot 48 n <= 48) by (apply Z.quot_le_upper_bound; lia).
    destruct (Z.ltb_spec (Z.quot 48 n) 3); lia.
  - destruct (Z.ltb_spec 48 3); lia.
Qed.

(** With equal weights a slice is charged as it is. *)
Lemma charge_slice p :
  weight p = 1024 -> 0 <= vruntime p -> 0 <= time_slice p -> vruntime p + time_slice p < 2 ^ 64 ->
  charge p = vruntime p + time_slice p.
Proof.
  intros Hw Hv Hs Hlt. unfold charge. rewrite Hw, Z.quot_mul by lia. apply wrapu_small. lia.
Qed.

Lemma runnable_live p : runnable_user p = true -> live p /\ 2 < pid p.
Proof. unfold runnable_user. intros H. to_prop. split; [split; congruence|lia]. Qed.

Lemma turns_pos v p : live p -> 2 < pid p -> vruntime p <= v -> (1 <= turns v p)%nat.
Proof.
  intros Hl Hp Hv. unfold turns. rewrite (proj2 (liveb_true p) Hl).
  destruct (Z.ltb_spec 2 (pid p)); [|lia]. destruct (Z.leb_spec (vruntime p) v); simpl; lia.
Qed.

Lemma turns_same v p p' : (live p' -> live p /\ pid p' = pid p /\ vruntime p' = vruntime p) ->
  (turns v p' <= turns v p)%nat.
Proof.
  intros H. unfold turns. destruct (liveb p') eqn:Hl; simpl; [|lia].
  apply liveb_true in Hl. destruct (H Hl) as (Hl' & -> & ->). by rewrite (proj2 (liveb_true p) Hl').
Qed.

(** Three ticks of run time cost a turn. *)
Lemma turns_charged v p p' :
  live p -> 2 < pid p -> vruntime p <= v ->
  (live p' -> pid p' = pid p /\ vruntime p + 3 <= vruntime p') ->
  (turns v p' <= turns v p - 1)%nat.
Proof.
  intros Hl Hp Hv H. unfold turns. rewrite (proj2 (liveb_true p) Hl).
  destruct (liveb p') eqn:Hl'; simpl; [|lia]. apply liveb_true in Hl'. destruct (H Hl') as [-> Hv'].
  destruct (Z.ltb_spec 2 (pid p)); [|lia]. destruct (Z.leb_spec (vruntime p) v); [|lia].
  simpl. destruct (Z.leb_spec (vruntime p') v); [|lia].
  assert ((v - vruntime p') / 3 + 1 <= (v - vruntime p) / 3).
  { rewrite <- Z.div_add by lia. apply Z.div_le_mono; lia. }
  assert (0 <= (v - vruntime p') / 3) by (apply Z.div_pos; lia). lia.
Qed.

Lemma budget_step v k k' j d :
  length (procs k') = length (procs k) -> (j < length (procs k))%nat ->
  (forall i p p', procs k !! i = Some p -> procs k' !! i = Some p' ->
     (turns_left v (cpu_proc k') i p' + (if decide (i = j) then d else 0)
      <= turns_left v (cpu_proc k) i p)%nat) ->
  (budget v k' + d <= budget v k)%nat.
Proof.
  intros Hlen Hj H. unfold budget. apply sum_list_decr with (j := j).
  - by rewrite !length_imap.
  - intros i x x' (p & Hp & ->)%list_lookup_imap_Some (p' & Hp' & ->)%list_lookup_imap_Some.
    specialize (H i p p' Hp Hp'). lia.
  - intros x x' (p & Hp & ->)%list_lookup_imap_Some (p' & Hp' & ->)%list_lookup_imap_Some.
    specialize (H j p p' Hp Hp'). rewrite decide_True in H by done. lia.
  - by rewrite length_imap.
Qed.

Lemma wait_inv_step i v k k' :
  0 <= v -> v + TARGET_LATENCY < 2 ^ 64 ->
  wait_inv i v k -> quiet k k' -> waiting i k' ->
  wait_inv i v k' /\ (budget v k' + dispatched k k' <= budget v k)%nat.
Proof.
  intros Hv0 Hv [Hk (pi & Hpi & Hei & <-) Hrun Hnn] Hq (pi' & Hpi' & Hei').
  assert (kinv k') as Hk' by (destruct Hq as (? & ? & _); by eapply kstep_kinv).
  destruct (runnable_live pi' Hei') as [Hli' _].
  assert (i < length (procs k))%nat as Hilt by by eapply lookup_lt_Some.
  unfold TARGET_LATENCY, MIN_TIME_SLICE in *.
  destruct (quiet_cases k k' Hk Hq) as [(Hc & j & q & Hj & Hqj & ->)|[(Hc & Hlen & Hst)|
    (me & q & Hc & Hqm & Hc' & Hlen & Hst & Hme)]].
  - (* dispatch of the least run time *)
    unfold cfs_pick in Hj. destruct (scan_min _ _ _ _ _) as [[j' q']|] eqn:Hs.
    2:{ rewrite scan_min_None in Hs. specialize (Hs i pi Hpi). congruence. }
    injection Hj as ->. apply scan_min_Some in Hs as (Hq' & Heq & Hmin & _).
    assert (q' = q) as -> by congruence.
    specialize (Hmin i pi Hpi Hei) as Hle. destruct (runnable_live q Heq) as [Hlq Hpidq].
    pose proof (cfs_slice_bounds (num_runnable k)) as Hsl. unfold TARGET_LATENCY, MIN_TIME_SLICE in Hsl.
    simpl in *. assert (j <> i) as Hji.
    { intros ->. rewrite list_lookup_insert_eq in Hpi' by done. injection Hpi' as <-. done. }
    split.
    + split; [done| | |].
      * exists pi. simpl. by rewrite list_lookup_insert_ne.
      * intros x y [= <-]. simpl. rewrite list_lookup_insert_eq by (by eapply lookup_lt_Some).
        intros [= <-]. simpl. unfold TARGET_LATENCY, MIN_TIME_SLICE. lia.
      * intros x y [(-> & <- & _)|[_ Hy]]%list_lookup_insert_Some Hly; simpl; by eapply Hnn.
    + unfold dispatched. rewrite Hc. simpl. apply budget_step with (j := j); simpl.
      * by rewrite length_insert.
      * by eapply lookup_lt_Some.
      * intros x y y' Hy [(-> & <- & _)|[Hne Hy']]%list_lookup_insert_Some.
        -- rewrite decide_True by done. unfold turns_left.
           assert (y = q) as -> by congruence. rewrite Hc.
           rewrite bool_decide_eq_true_2, bool_decide_eq_false_2 by done.
           pose proof (turns_pos (vruntime pi) q Hlq Hpidq Hle).
           match goal with |- (turns ?v ?y1 - _ + _ <= _)%nat =>
             assert (turns v y1 <= turns v q)%nat by (apply turns_same; intros _; by split_and!) end.
           lia.
        -- rewrite decide_False by congruence. unfold turns_left.
           assert (y' = y) as -> by congruence. rewrite Hc.
           rewrite !bool_decide_eq_false_2 by congruence. lia.
  - (* the CPU stays *)
    destruct (Hst i pi' Hpi' Hli' ltac:(done)) as (pi0 & Hpi0 & _ & _ & Hvt & _). simplify_eq.
    split.
    + split; [done| | |].
      * exists pi'. split_and!; congruence.
      * intros x y Hx Hy. rewrite Hc in Hx. pose proof (running_live k' x y Hk' ltac:(congruence) Hy) as Hly.
        destruct (Hst x y Hy Hly ltac:(done)) as (y0 & Hy0 & _ & -> & -> & ->). by eapply Hrun.
      * intros x y Hy Hly. destruct (Hst x y Hy Hly ltac:(done)) as (y0 & Hy0 & Hly0 & _ & -> & _).
        by eapply Hnn.
    + assert (dispatched k k' = 0%nat) as ->.
      { unfold dispatched. rewrite Hc. by destruct (cpu_proc k). }
      apply budget_step with (j := i); [done|done|]. intros x y y' Hy Hy'. rewrite Hc.
      unfold turns_left. assert (turns (vruntime pi) y' <= turns (vruntime pi) y)%nat.
      { apply turns_same. intros Hl. destruct (Hst x y' Hy' Hl ltac:(done)) as (y0 & ? & ? & ? & ? & _).
        by simplify_eq. }
      destruct (decide (x = i)); lia.
  - (* a process leaves the CPU *)
    pose proof (running_live k me q Hk Hc Hqm) as Hlq.
    destruct (Hrun me q Hc Hqm) as (Hpidq & Hvq & Hslq).
    assert (weight q = 1024) as Hwq by (apply (ki_pid k Hk me q Hqm); apply Hlq).
    pose proof (Hnn me q Hqm Hlq) as Hnnq.
    assert (charge q = vruntime q + time_slice q) as Hch by (apply charge_slice; lia).
    assert (me <> i) as Hmi.
    { intros ->. pose proof (running_state _ _ _ Hk Hc Hqm). unfold runnable_user in Hei.
      to_prop. congruence. }
    destruct (Hst i pi' Hpi' Hli' ltac:(congruence)) as (pi0 & Hpi0 & _ & _ & Hvt & _). simplify_eq.
    split.
    + split; [done| | |].
      * exists pi'. split_and!; congruence.
      * intros x y Hx. congruence.
      * intros x y Hy Hly. destruct (decide (me = x)) as [<-|Hne].
        -- destruct (Hme y Hy Hly) as [_ ->]. lia.
        -- destruct (Hst x y Hy Hly ltac:(congruence)) as (y0 & Hy0 & Hly0 & _ & -> & _). by eapply Hnn.
    + assert (dispatched k k' = 0%nat) as -> by (unfold dispatched; by rewrite Hc).
      apply budget_step with (j := i); [done|done|]. intros x y y' Hy Hy'. rewrite Hc, Hc'.
      unfold turns_left. rewrite (bool_decide_eq_false_2 (None = Some x)) by done.
      destruct (decide (me = x)) as [<-|Hne].
      * rewrite bool_decide_eq_true_2 by done. assert (y = q) as -> by congruence.
        pose proof (turns_charged (vruntime pi) q y' Hlq Hpidq Hvq) as Hturn.
        destruct (decide (me = i)); [done|]. rewrite Nat.add_0_r, Nat.sub_0_r. apply Hturn.
        intros Hl. destruct (Hme y' Hy' Hl) as [-> ->]. split; [done|lia].
      * rewrite bool_decide_eq_false_2 by congruence.
        assert (turns (vruntime pi) y' <= turns (vruntime pi) y)%nat.
        { apply turns_same. intros Hl.
          destruct (Hst x y' Hy' Hl ltac:(congruence)) as (y0 & ? & ? & ? & ? & _). by simplify_eq. }
        destruct (decide (x = i)); lia.
Qed.

Lemma waits_budget i v n k k' :
  0 <= v -> v + TARGET_LATENCY < 2 ^ 64 -> waits i n k k' -> wait_inv i v k ->
  wait_inv i v k' /\ (budget v k' + n <= budget v k)%nat.
Proof.
  intros Hv0 Hv Hw Hi. induction Hw as [k|n k k1 k2 Hw IH Hq Hwait]; [split; [done|lia]|].
  destruct (IH Hi) as [Hi1 Hb1].
  destruct (wait_inv_step i v k1 k2 Hv0 Hv Hi1 Hq Hwait) as [Hi2 Hb2]. split; [done|lia].
Qed.

Lemma budget_bound v m k :
  (forall j q, procs k !! j = Some q -> live q -> m <= vruntime q) -> m <= v ->
  (budget v k <= length (procs k) * S (Z.to_nat ((v - m) / 3)))%nat.
Proof.
  intros Hm Hmv. unfold budget. generalize (cpu_proc k) as c. intros c.
  assert (forall l : list nat, (forall x, x ∈ l -> x <= S (Z.to_nat ((v - m) / 3)))%nat ->
            (sum_list l <= length l * S (Z.to_nat ((v - m) / 3)))%nat) as Hsum.
  { induction l as [|x l IH]; intros Hx; simpl; [lia|].
    pose proof (Hx x ltac:(by left)). assert (forall y, y ∈ l -> (y <= S (Z.to_nat ((v - m) / 3)))%nat)
      as Hl by (intros y Hy; apply Hx; by right). specialize (IH Hl). lia. }
  rewrite <- (length_imap (turns_left v c)). apply Hsum.
  intros x (j & Hj)%list_elem_of_lookup. apply list_lookup_imap_Some in Hj as (p & Hp & ->).
  unfold turns_left, turns. destruct (liveb p) eqn:Hl; simpl; [|lia].
  apply liveb_true in Hl. specialize (Hm j p Hp Hl).
  destruct (2 <? pid p); simpl; [|lia]. destruct (vruntime p <=? v) eqn:Hle; [|lia].
  assert ((v - vruntime p) / 3 <= (v - m) / 3) by (apply Z.div_le_mono; lia). lia.
Qed.

(** (C20) No starvation under the fair scheduler.  While a runnable user
    process waits and no process is created, the scheduler dispatches others
    at most 64 ((v - m) / 3 + 1) times, where v is its virtual run time and m
    the least of a live process: however the others run, sleep, wake, are
    killed or exit, the wait is bounded. *)
Theorem sched_cfs_no_starvation k k' i p (m : Z) (n : nat) :
  kinv k -> cpu_proc k = None -> procs k !! i = Some p -> runnable_user p = true ->
  (forall j q, procs k !! j = Some q -> live q -> m <= vruntime q) -> 0 <= m ->
  vruntime p + TARGET_LATENCY < 2 ^ 64 ->
  waits i n k k' ->
  Z.of_nat n <= 64 * ((vruntime p - m) / 3 + 1).
Proof.
  intros Hk Hc Hp He Hm Hm0 Hv Hw. destruct (runnable_live p He) as [Hl _].
  pose proof (Hm i p Hp Hl) as Hmp.
  destruct (waits_budget i (vruntime p) n k k') as [_ Hb]; [lia|done|done| |].
  { split; [done|by exists p|congruence|]. intros j q Hq Hlq. specialize (Hm j q Hq Hlq). lia. }
  pose proof (budget_bound (vruntime p) m k Hm Hmp) as Hbb. rewrite (ki_len k Hk) in Hbb.
  assert (0 <= (vruntime p - m) / 3) by (apply Z.div_pos; lia). unfold NPROC in Hbb. lia.
Qed.

(** The fair scheduler's choice.  Among runnable user processes it
    dispatches the first of least virtual run time, for max(3, 48 / n) ticks
    where n is their number (so up to 16 of them share the 48-tick period),
    and when that process gives up the CPU at a timer tick it is charged
    exactly the slice it was given; only without runnable user processes does
    it dispatch init or the shell, the first RUNNABLE slot of the table. *)
Theorem sched_cfs_choice k :
  kinv k -> cpu_proc k = None ->
  (forall i p, is_first_min runnable_user vruntime (procs k) i p ->
     0 <= vruntime p -> vruntime p + TARGET_LATENCY < 2 ^ 64 ->
     exists slice q k', slice = Z.max MIN_TIME_SLICE (TARGET_LATENCY / num_runnable k) /\
       (num_runnable k <= 16 -> num_runnable k * slice <= TARGET_LATENCY) /\
       scheduler_pass CFS k = dispatch i {| p with time_slice := slice |} k /\
       myproc (scheduler_pass CFS k) = Some (i, q) /\
       yield CFS i q (scheduler_pass CFS k) = Ret k' /\
       (vruntime <$> procs k' !! i) = Some (vruntime p + slice)) /\
  ((forall j q, procs k !! j = Some q -> runnable_user q = false) ->
   forall i p, procs k !! i = Some p -> state p = RUNNABLE ->
   (forall j q, (j < i)%nat -> procs k !! j = Some q -> state q <> RUNNABLE) ->
   cpu_proc (scheduler_pass CFS k) = Some i).
Proof.
  intros Hk Hc. split.
  - intros i p Hmin Hv0 Hv.
    assert (cfs_pick (procs k) = Some i) as Hpick.
    { unfold cfs_pick. destruct (scan_min _ _ _ _ _) as [[j q]|] eqn:Hs.
      - apply scan_min_Some in Hs. f_equal. by destruct (is_first_min_unique _ _ _ _ _ _ _ Hs Hmin).
      - rewrite scan_min_None in Hs. destruct Hmin as (Hp & He & _). specialize (Hs i p Hp). congruence. }
    destruct Hmin as (Hp & He & _). destruct (runnable_live p He) as [Hl Hpid].
    assert (0 < num_runnable k) as Hn.
    { unfold num_runnable. pose proof (countb_pos runnable_user _ _ _ Hp He). lia. }
    assert (cfs_slice (num_runnable k) = Z.max MIN_TIME_SLICE (TARGET_LATENCY / num_runnable k)) as Hsl.
    { unfold cfs_slice, TARGET_LATENCY, MIN_TIME_SLICE. destruct (Z.ltb_spec 0 (num_runnable k)); [|lia].
      rewrite Z.quot_div_nonneg by lia. destruct (Z.ltb_spec (48 / num_runnable k) 3); lia. }
    pose proof (cfs_slice_bounds (num_runnable k)) as Hb. rewrite Hsl in Hb.
    eexists _, _, _. split; [reflexivity|]. unfold scheduler_pass. rewrite Hpick, Hp, Hsl.
    assert (i < length (procs k))%nat as Hlt by by eapply lookup_lt_Some.
    split_and!.
    + intros Hn16. unfold MIN_TIME_SLICE, TARGET_LATENCY in *.
      pose proof (Z.mul_div_le 48 (num_runnable k) Hn).
      assert (3 <= 48 / num_runnable k); [|lia].
      apply Z.div_le_lower_bound; lia.
    + reflexivity.
    + unfold myproc, dispatch. simpl. rewrite list_lookup_insert_eq by done. simpl. reflexivity.
    + unfold yield, sched, dispatch. simpl. rewrite list_insert_insert_eq, list_lookup_insert_eq by done.
      reflexivity.
    + unfold scheduler_return. simpl. rewrite !list_insert_insert_eq, list_lookup_insert_eq by done. simpl.
      f_equal. rewrite charge_slice; simpl; [done| |done|unfold MIN_TIME_SLICE in *; lia|lia].
      apply (ki_pid k Hk i p Hp). apply Hl.
  - intros Hno i p Hp Hr Hfst. unfold scheduler_pass, cfs_pick.
    rewrite (proj2 (scan_min_None runnable_user vruntime (procs k)) Hno).
    assert (find_idx (fun q => bool_decide (state q = RUNNABLE)) (procs k) = Some i) as ->.
    { apply find_idx_Some. split; [exists p; split; [done|by apply bool_decide_eq_true_2]|].
      intros j q Hj Hq. apply bool_decide_eq_false_2. by eapply Hfst. }
    by rewrite Hp.
Qed.

(** [kill(0)] poisons the table: the pid field of a free slot is 0, so the
    call succeeds and marks the first free slot as killed; [allocproc] does
    not clear the mark, and the child of the next fork is born killed, and
    still is when it becomes runnable. *)
Theorem proc_kill_zero_poisons_fork k me p k1 k2 r :
  kinv k -> pids_left k -> cpu_proc k = Some me -> procs k !! me = Some p ->
  (exists i q, procs k !! i = Some q /\ state q = UNUSED) ->
  kkill 0 k = (r, k1) -> 
  r = 0 /\
  forall c, kfork me p k1 = (c, k2) -> c <> -1 ->
  exists i np, procs k2 !! i = Some np /\ inside k2 !! me = Some (Forking i false) /\
    pid np = c /\ killed np = 1 /\
    forall k3, procs k3 !! i = Some np -> exists np', procs (kfork_run me i np k3) !! i = Some np' /\
      pid np' = c /\ state np' = RUNNABLE /\ killed np' = 1.
Proof.
  intros Hk Hpid Hc Hp (i0 & q0 & Hq0 & Hu0) Hkill.
  assert (find_idx (fun p => pid p =? 0) (procs k) =
          find_idx (fun p => bool_decide (state p = UNUSED)) (procs k)) as Hsame.
  { assert (forall (l : list proc) f g, (forall j x, l !! j = Some x -> f x = g x) ->
              find_idx f l = find_idx g l) as Hext.
    { induction l as [|x l IH]; intros f g Hfg; [done|]. simpl. rewrite (Hfg 0%nat x eq_refl).
      by rewrite (IH f g (fun j => Hfg (S j))). }
    apply Hext. intros j x Hx. destruct (decide (state x = UNUSED)) as [Hu|Hu].
    - rewrite bool_decide_eq_true_2 by done. destruct (ki_unused k Hk j x Hx Hu) as (-> & _). done.
    - rewrite bool_decide_eq_false_2 by done. pose proof (ki_pid k Hk j x Hx Hu). lia. }
  unfold kkill in Hkill. rewrite Hsame in Hkill.
  destruct (find_idx _ (procs k)) as [i|] eqn:Hi.
  2:{ rewrite find_idx_None in Hi. specialize (Hi i0 q0 Hq0). rewrite Hu0 in Hi. done. }
  apply find_idx_Some in Hi as [(q & Hq & Hu) Hfst]. to_prop. rewrite Hq in Hkill.
  assert (bool_decide (state q = SLEEPING) = false) as Hns
    by (apply bool_decide_eq_false_2; congruence).
  simpl in Hkill. rewrite Hns in Hkill. injection Hkill as <- <-. split; [done|].
  intros c Hf Hne. set (q1 := {| q with killed := 1 |}) in *.
  assert (kinv (set_proc i q1 k)) as Hk1.
  { eapply (kinv_private k); [exact Hk|reflexivity|exact Hq| |reflexivity..]. by repeat split. }
  assert (i < length (procs k))%nat as Hlt by by eapply lookup_lt_Some.
  unfold kfork in Hf. destruct (allocproc (set_proc i q1 k)) as [o ka] eqn:Ha.
  destruct o as [i1|]; [|congruence].
  assert (i1 = i) as ->.
  { unfold allocproc in Ha.
    assert (find_idx (fun p => bool_decide (state p = UNUSED)) (procs (set_proc i q1 k)) = Some i) as Hfi.
    { apply find_idx_Some. simpl. split.
      - exists q1. rewrite list_lookup_insert_eq by done. by rewrite bool_decide_eq_true_2.
      - intros j y Hj Hy. rewrite list_lookup_insert_ne in Hy by lia. by eapply Hfst. }
    rewrite Hfi in Ha. destruct (procs (set_proc i q1 k) !! i); [|done]. cbv zeta in Ha. simpl in Ha.
    destruct (kalloc _) as [[tf w]|]; [|done]. destruct (proc_pagetable _ _) as [[pt w']|]; congruence. }
  destruct (allocproc_spec _ _ _ Hk1 Hpid Ha) as (p0 & np & Hp0 & _ & [_ _ _ (_ & _ & Hkl) _] & Hps & _).
  simpl in Hp0, Hps. rewrite list_lookup_insert_eq in Hp0 by done. injection Hp0 as <-.
  rewrite Hps, list_insert_insert_eq, list_lookup_insert_eq in Hf by done.
  destruct (uvmcopy _ _ _ _) as [[] w]; simpl in Hf; [|congruence]. injection Hf as <- <-.
  eexists i, _. split; [simpl; apply list_lookup_insert_eq; by rewrite Hps, !length_insert|].
  simpl. split_and!; [by rewrite lookup_insert_eq|done..|]. intros k3 Hk3.
  eexists. rewrite list_lookup_insert_eq by (by eapply lookup_lt_Some). by split_and!.
Qed.

End starve.

(** ** Concrete kernel executions: the witnesses of the process properties *)
Import Proc.


(** An environment in which every request succeeds; its state is the next
    page address. *)
#[local] Instance plenty : proc_env Z := {|
  kalloc := fun w => Some (w, w + 4096);
  kfree := fun _ w => w;
  proc_pagetable := fun _ w => Some (w, w + 4096);
  proc_freepagetable := fun _ _ w => w;
  uvmcopy := fun _ _ _ w => (true, w);
  uvmalloc := fun _ _ n w => (n, w);
  uvmdealloc := fun _ _ n w => (n, w);
  copyout_int := fun _ _ _ w => (true, w);
  copy_trapframe := fun _ _ w => w;
  filedup := fun _ w => w;
  fileclose := fun _ w => w;
  idup := fun _ w => w;
  iput_op := fun _ w => w;
  root_inode := fun w => (1, w)
|}.

Inductive action :=
| ASched | AResume | AFork | AForkParent | AForkRun | AExitStep | AExit (st : Z) | AWait | ASleep (a : Z) | AKill (n : Z)
| AWake (a : Z) | AUser.

(** The process that may act. *)
Definition actor (k : kernel Z) : option (nat * proc) :=
  match myproc k with
  | Some (me, p) => if bool_decide (chan p = NoChan) then Some (me, p) else None
  | None => None
  end.

Definition idle (k : kernel Z) (me : nat) : option unit :=
  match inside k !! me with None => Some tt | Some _ => None end.

Definition ret {A} (o : outcome A) : option A := match o with Ret a => Some a | _ => None end.

Definition do_action (pol : policy) (a : action) (k : kernel Z) : option (kernel Z) :=
  match a with
  | ASched => match cpu_proc k with None => Some (scheduler_pass pol k) | Some _ => None end
  | AResume => match myproc k with
               | Some (me, p) => if bool_decide (chan p = NoChan) then None else Some (resume me p k)
               | None => None
               end
  | AWake a => Some (wakeup (ChanAddr a) k)
  | AFork => '(me, p) ← actor k; _ ← idle k me; Some (kfork me p k).2
  | AForkParent => '(me, p) ← actor k;
      match inside k !! me with
      | Some (Forking i false) => np ← procs k !! i; Some (kfork_parent me i np k)
      | _ => None
      end
  | AForkRun => '(me, p) ← actor k;
      match inside k !! me with
      | Some (Forking i true) => np ← procs k !! i; Some (kfork_run me i np k)
      | _ => None
      end
  | AExit st => '(me, p) ← actor k; _ ← idle k me; ret (kexit st me k)
  | AExitStep => '(me, p) ← actor k;
      match inside k !! me with
      | Some (Exiting st n) => ret (kexit_step pol st n me p k)
      | _ => None
      end
  | AWait => '(me, p) ← actor k; _ ← idle k me; '(_, k') ← ret (kwait pol 0 me p k); Some k'
  | ASleep a => '(me, p) ← actor k; _ ← idle k me; ret (sleep pol (ChanAddr a) me p k)
  | AKill n => '(me, p) ← actor k; _ ← idle k me; Some (kkill n k).2
  | AUser => '(me, p) ← actor k; _ ← idle k me; ret (usertrap_timer pol me k)
  end.

Fixpoint do_actions (pol : policy) (l : list action) (k : kernel Z) : option (kernel Z) :=
  match l with
  | [] => Some k
  | a :: l' =>
      if nextpid k <? 2 ^ 31 - 1 then k1 ← do_action pol a k; do_actions pol l' k1 else None
  end.

Lemma actor_on_cpu k me p : actor k = Some (me, p) -> on_cpu k me p.
Proof.
  unfold actor, on_cpu. destruct (myproc k) as [[me' p']|]; [|done].
  destruct (bool_decide _) eqn:He; [|done]. to_prop. by intros [= -> ->].
Qed.

Lemma idle_out k me u : idle k me = Some u -> inside k !! me = None.
Proof. unfold idle. by destruct (inside k !! me). Qed.

Lemma ret_Some {A} (o : outcome A) a : ret o = Some a -> o = Ret a.
Proof. destruct o; simpl; congruence. Qed.

Lemma do_action_step pol a k k' : do_action pol a k = Some k' -> kstep pol k k'.
Proof.
  destruct a; simpl; intros H;
    try (apply bind_Some in H as ([me p] & Ha%actor_on_cpu & H));
    try (apply bind_Some in H as (u & Hout%idle_out & H); assert (acting k me p) by done).
  - destruct (cpu_proc k) eqn:Hc; simplify_eq. by apply k_scheduler.
  - destruct (myproc k) as [[me p]|] eqn:Hm; [|done]. destruct (bool_decide _) eqn:He; [done|].
    to_prop. simplify_eq. by eapply k_resume.
  - destruct (kfork me p k) as [r k1] eqn:Hf. simplify_eq. by eapply k_fork.
  - destruct (inside k !! me) as [[i []|]|] eqn:Hin; try done.
    apply bind_Some in H as (np & Hnp & H). simplify_eq. by eapply k_fork_parent.
  - destruct (inside k !! me) as [[i []|]|] eqn:Hin; try done.
    apply bind_Some in H as (np & Hnp & H). simplify_eq. by eapply k_fork_run.
  - destruct (inside k !! me) as [[|]|] eqn:Hin; try done. apply ret_Some in H. by eapply k_exit_step.
  - apply ret_Some in H. by eapply k_exit.
  - apply bind_Some in H as ([r k1] & Hw%ret_Some & H). simplify_eq. by eapply k_wait.
  - apply ret_Some in H. eapply k_sleep; [done| |done]. unfold may_sleep. by rewrite Hout.
  - destruct (kkill n k) as [r k1] eqn:Hf. simplify_eq. by eapply k_kill.
  - simplify_eq. apply k_wakeup.
  - apply ret_Some in H. by eapply k_user_timer.
Qed.

Lemma kernel_actions_rtc pol l k k' : do_actions pol l k = Some k' -> rtc (step_ok pol) k k'.
Proof.
  revert k. induction l as [|a l IH]; intros k H; simpl in H; simplify_eq; [done|].
  destruct (Z.ltb_spec (nextpid k) (2 ^ 31 - 1)) as [Hlt|]; [|done].
  apply bind_Some in H as (k1 & Ha & H). eapply rtc_l; [|by apply IH].
  split; [exact Hlt|by eapply do_action_step].
Qed.

Definition run (pol : policy) (l : list action) : option (kernel Z) :=
  k0 ← ret (userinit (procinit 4096)); do_actions pol l k0.

Lemma run_test pol l (test : kernel Z -> bool) :
  match run pol l with Some k => test k | None => false end = true ->
  exists k, run pol l = Some k /\ reachable pol k /\ test k = true.
Proof.
  destruct (run pol l) as [k|] eqn:H; [|done]. intros Ht. exists k. split; [done|]. split; [|done].
  unfold run in H. apply bind_Some in H as (k0 & Hb%ret_Some & H).
  exists 4096, k0. split; [done|]. by eapply kernel_actions_rtc.
Qed.

(** Init forks a child (pid 2) and waits; the child forks pids 3 and 4 and
    waits for them. *)
Definition fork : list action := [AFork; AForkParent; AForkRun].
Definition exit (st : Z) : list action := AExit st :: replicate 18 AExitStep.

Definition family : list action :=
  [ASched] ++ fork ++ [AWait; ASched] ++ fork ++ fork ++ [AWait].

Definition slot_test (k : kernel Z) (i : nat) (t : proc -> bool) : bool :=
  match procs k !! i with Some p => t p | None => false end.

Lemma slot_test_inv k i t : slot_test k i t = true -> exists p, procs k !! i = Some p /\ t p = true.
Proof. unfold slot_test. destruct (procs k !! i) as [p|]; [|done]. by exists p. Qed.

Lemma proc_table_wellformed_witness :
  exists (k : kernel Z) p, reachable CFS k /\ procs k !! 2%nat = Some p /\ pid p = 3 /\
    0 < pid p < nextpid k.
Proof.
  destruct (run_test CFS family (fun k => slot_test k 2 (fun p => (pid p =? 3) &&
              bool_decide (state p = RUNNABLE)))) as (k & _ & Hr & Ht); [vm_compute; reflexivity|].
  apply slot_test_inv in Ht as (p & Hp & [Hpid Hst]%andb_true_iff).
  exists k, p. split; [exact Hr|]. split; [exact Hp|]. split; [by apply Z.eqb_eq|].
  apply (proc_table_wellformed CFS k 2 p); [exact Hr|exact Hp|].
  apply bool_decide_eq_true in Hst. congruence.
Defined.

(** The shell's first child exits while the shell waits. *)
Lemma proc_exit_never_lost_witness :
  exists (k : kernel Z) p q, reachable CFS k /\ procs k !! 1%nat = Some p /\ procs k !! 2%nat = Some q /\
    state q = ZOMBIE /\ (state p = SLEEPING -> chan p <> ChanProc 1).
Proof.
  destruct (run_test CFS (family ++ [ASched] ++ exit 0)
    (fun k => slot_test k 1 (fun p => pid p =? 2) &&
              slot_test k 2 (fun q => bool_decide (state q = ZOMBIE) && bool_decide (parent q = Some 1%nat))))
    as (k & _ & Hr & Ht); [vm_compute; reflexivity|].
  apply andb_true_iff in Ht as [(p & Hp & _)%slot_test_inv (q & Hq & [Hz Hpar]%andb_true_iff)%slot_test_inv].
  apply bool_decide_eq_true in Hz, Hpar.
  exists k, p, q. split_and!; [exact Hr|exact Hp|exact Hq|exact Hz|].
  apply (proc_exit_never_lost CFS k 1 p 2 q); [exact Hr|exact Hp|exact Hq|exact Hpar|exact Hz].
Defined.

Lemma sched_fcfs_rr_never_start_witness :
  exists k : kernel Z, reachable FCFS k /\ cpu_proc k = None.
Proof.
  destruct (run_test FCFS [ASched; ASched; AWake 1; ASched] (fun _ => true))
    as (k & _ & Hr & _); [vm_compute; reflexivity|].
  exists k. split; [exact Hr|]. apply (sched_fcfs_rr_never_start FCFS k); [discriminate|exact Hr].
Defined.

(** A first-come-first-served table: pids 3 and 4 runnable, in slots where the
    later one comes first. *)
Lemma sched_fcfs_order_witness :
  exists (k : kernel Z) i p, cpu_proc k = None /\ procs k !! i = Some p /\
    scheduler_pass FCFS k = dispatch i p k.
Proof.
  destruct (run_test CFS family (fun k => bool_decide (cpu_proc k = None) &&
     slot_test k 2 runnable_user)) as (k & _ & Hr & Ht); [vm_compute; reflexivity|].
  apply andb_true_iff in Ht as [Hc (p & Hp & He)%slot_test_inv]. apply bool_decide_eq_true in Hc.
  destruct (proj1 (sched_fcfs_order k (reachable_kinv CFS k Hr)) Hc) as (i & q & Hq & _ & Hd & _);
    [by exists 2%nat, p|].
  exists k, i, q. split; [exact Hc|]. split; [exact Hq|exact Hd].
Defined.

(** Executions during which a process waits, with their dispatches. *)
Definition no_newb (k k' : kernel Z) : bool :=
  forallb (fun j => negb (slot_test k j (fun p => bool_decide (state p = UNUSED)))
                    || slot_test k' j (fun p => bool_decide (state p = UNUSED))) (seq 0 64).

Fixpoint wait_run (i : nat) (l : list action) (k : kernel Z) : option (nat * kernel Z) :=
  match l with
  | [] => Some (0%nat, k)
  | a :: l' =>
      '(n, k1) ← wait_run i l' k;
      k2 ← do_action CFS a k1;
      if (nextpid k1 <? 2 ^ 31 - 1) && no_newb k1 k2 && slot_test k2 i runnable_user
         && (length (procs k1) =? 64)%nat
      then Some ((n + dispatched k1 k2)%nat, k2) else None
  end.

Lemma wait_run_waits i l k n k' : wait_run i l k = Some (n, k') -> waits i n k k'.
Proof.
  revert n k'. induction l as [|a l IH]; intros n k' H; simpl in H; simplify_eq; [apply waits_refl|].
  apply bind_Some in H as ([n1 k1] & H1 & H). apply bind_Some in H as (k2 & Ha & H).
  destruct (_ && _) eqn:He; [|done]. simplify_eq. to_prop.
  match goal with H : slot_test _ _ _ = true |- _ => apply slot_test_inv in H as (p & Hp & Hrun) end.
  eapply waits_step; [by apply IH| |by exists p]. split; [unfold pids_left; lia|].
  split; [by eapply do_action_step|]. intros j q Hq Hu.
  match goal with H : no_newb _ _ = true |- _ => rename H into Hnn end.
  unfold no_newb in Hnn. rewrite forallb_forall in Hnn. specialize (Hnn j).
  assert (j < 64)%nat as Hj.
  { apply lookup_lt_Some in Hq. match goal with H : (_ =? _)%nat = true |- _ => apply Nat.eqb_eq in H end.
    lia. }
  rewrite orb_true_iff in Hnn. destruct Hnn as [Hnn|Hnn]; [apply in_seq; lia|..].
  - unfold slot_test in Hnn. rewrite Hq, bool_decide_eq_true_2 in Hnn by done. done.
  - apply slot_test_inv in Hnn as (p' & Hp' & Hu'). exists p'. split; [done|].
    by apply bool_decide_eq_true in Hu'.
Qed.

(** Two runnable user processes: pid 4 waits while pid 3 gets a slice. *)
Lemma sched_cfs_no_starvation_witness :
  exists (k k' : kernel Z) p, waits 3 1 k k' /\ procs k !! 3%nat = Some p /\
    Z.of_nat 1 <= 64 * ((vruntime p - 0) / 3 + 1).
Proof.
  destruct (run_test CFS family (fun k => bool_decide (cpu_proc k = None) &&
     slot_test k 3 (fun p => runnable_user p && (vruntime p <? 2 ^ 64 - 48)) &&
     forallb (fun p => 0 <=? vruntime p) (procs k) &&
     match wait_run 3 [AUser; ASched] k with Some (1%nat, _) => true | _ => false end))
    as (k & _ & Hr & Ht); [vm_compute; reflexivity|].
  apply andb_true_iff in Ht as [[[Hc (p & Hp & [He Hv]%andb_true_iff)%slot_test_inv]%andb_true_iff
                                  Hnn]%andb_true_iff Hw].
  apply bool_decide_eq_true in Hc.
  destruct (wait_run 3 [AUser; ASched] k) as [[[|[|n]] k']|] eqn:Hrun; try discriminate Hw.
  apply wait_run_waits in Hrun. exists k, k', p. split; [exact Hrun|]. split; [exact Hp|].
  apply (sched_cfs_no_starvation k k' 3 p 0 1);
    [exact (reachable_kinv CFS k Hr)|exact Hc|exact Hp|exact He| |lia| |exact Hrun].
  - intros j q Hq _. rewrite forallb_forall in Hnn.
    assert (0 <=? vruntime q = true) as Hq0; [|lia].
    apply Hnn, list_elem_of_In. by eapply list_elem_of_lookup_2.
  - unfold TARGET_LATENCY. lia.
Defined.

Lemma sched_cfs_choice_witness :
  exists (k : kernel Z) i, cpu_proc k = None /\ cpu_proc (scheduler_pass CFS k) = Some i.
Proof.
  destruct (run_test CFS [] (fun k => bool_decide (cpu_proc k = None) &&
     slot_test k 0 (fun p => bool_decide (state p = RUNNABLE)) &&
     forallb (fun p => negb (runnable_user p)) (procs k))) as (k & _ & Hr & Ht);
    [vm_compute; reflexivity|].
  apply andb_true_iff in Ht as [[Hc (p & Hp & Hst)%slot_test_inv]%andb_true_iff Hno].
  apply bool_decide_eq_true in Hc, Hst. exists k, 0%nat. split; [exact Hc|].
  apply (proj2 (sched_cfs_choice k (reachable_kinv CFS k Hr) Hc)) with (p := p); [|exact Hp|exact Hst|lia].
  intros j q Hq. rewrite forallb_forall in Hno. apply negb_true_iff, Hno, list_elem_of_In.
  by eapply list_elem_of_lookup_2.
Defined.

Lemma proc_kill_zero_poisons_fork_witness :
  exists (k k1 : kernel Z) r, kkill 0 k = (r, k1) /\ r = 0.
Proof.
  destruct (run_test CFS [ASched] (fun k => bool_decide (cpu_proc k = Some 0%nat) &&
     slot_test k 0 (fun _ => true) && (nextpid k <? 2 ^ 31 - 1) &&
     slot_test k 1 (fun p => bool_decide (state p = UNUSED)))) as (k & _ & Hr & Ht);
    [vm_compute; reflexivity|].
  apply andb_true_iff in Ht as [[[Hc (p & Hp & _)%slot_test_inv]%andb_true_iff Hn]%andb_true_iff
                                 (q & Hq & Hu)%slot_test_inv].
  apply bool_decide_eq_true in Hc, Hu.
  destruct (kkill 0 k) as [r k1] eqn:Hk. exists k, k1, r. split; [exact Hk|].
  apply (proc_kill_zero_poisons_fork k 0 p k1 k r);
    [exact (reachable_kinv CFS k Hr)|unfold pids_left; lia|exact Hc|exact Hp|by exists 1%nat, q|exact Hk].
Defined.
