(* ===== verification/Mem.v ===== *)
(** * Physical memory, page-table entries and the page allocator
    (xv6-memory-management/kernel: riscv.h, memlayout.h, kalloc.c)

    Memory is a map from byte addresses to bytes; 64-bit loads and stores are
    little-endian.  The free list of kalloc.c lives inside the free pages, as
    in the code. *)
From S2P Require Import Prelude.

#[local] Open Scope Z_scope.

Module Mem.

(** ** Bytes and words *)

Definition memory : Type := Z -> Z.

Fixpoint load_le (n : nat) (m : memory) (a : Z) : Z :=
  match n with
  | O => 0
  | S n' => m a + 256 * load_le n' m (a + 1)
  end.

Definition ld (m : memory) (a : Z) : Z := load_le 8 m a.

Definition st (m : memory) (a v : Z) : memory :=
  fun x => if (a <=? x) && (x <? a + 8) then v / 256 ^ (x - a) mod 256 else m x.

Definition memset (m : memory) (a c n : Z) : memory :=
  fun x => if (a <=? x) && (x <? a + n) then c else m x.

Definition memmove (m : memory) (dst src n : Z) : memory :=
  fun x => if (dst <=? x) && (x <? dst + n) then m (src + (x - dst)) else m x.

(** ** riscv.h *)

Definition PGSIZE : Z := 4096.
Definition PGROUNDUP (a : Z) : Z := Z.land (u64 (a + PGSIZE - 1)) (Z.lnot (PGSIZE - 1)).
Definition PGROUNDDOWN (a : Z) : Z := Z.land a (Z.lnot (PGSIZE - 1)).

Definition PTE_V : Z := 1.
Definition PTE_R : Z := 2.
Definition PTE_W : Z := 4.
Definition PTE_X : Z := 8.
Definition PTE_U : Z := 16.
Definition PA2PTE (pa : Z) : Z := u64 (Z.shiftl (Z.shiftr pa 12) 10).
Definition PTE2PA (pte : Z) : Z := u64 (Z.shiftl (Z.shiftr pte 10) 12).
Definition PTE_FLAGS (pte : Z) : Z := Z.land pte 1023.
Definition PX (level va : Z) : Z := Z.land (Z.shiftr va (12 + 9 * level)) 511.
Definition MAXVA : Z := Z.shiftl 1 (9 + 9 + 9 + 12 - 1).
Definition TRAMPOLINE : Z := MAXVA - PGSIZE.
Definition TRAPFRAME : Z := TRAMPOLINE - PGSIZE.

(** memlayout.h *)
Definition KERNBASE : Z := 2147483648.
Definition PHYSTOP : Z := KERNBASE + 128 * 1024 * 1024.

(** ** kalloc.c *)

(** Physical memory and the allocator's head pointer. *)
Record phys := mk_phys { mem : memory; freelist : Z }.

Section kalloc.
(** [kend]: the linker's [end], the first address after the kernel. *)
Context (kend : Z).

Definition kfree (pa : Z) (s : phys) : outcome phys :=
  if negb (pa mod PGSIZE =? 0) || (pa <? kend) || (PHYSTOP <=? pa) then Panic "kfree"
  else
    let m := memset (mem s) pa 1 PGSIZE in
    Ret (mk_phys (st m pa (freelist s)) pa).

(** 0 when there is no memory. *)
Definition kalloc (s : phys) : Z * phys :=
  let r := freelist s in
  if r =? 0 then (0, s)
  else (r, mk_phys (memset (mem s) r 5 PGSIZE) (ld (mem s) r)).

(** [freerange]'s loop from address [p]. *)
Fixpoint freerange (fuel : nat) (p pa_end : Z) (s : phys) : outcome phys :=
  match fuel with
  | O => Undef "freerange: fuel"
  | S fuel' =>
      if p + PGSIZE <=? pa_end then s' ← kfree p s; freerange fuel' (p + PGSIZE) pa_end s'
      else Ret s
  end.

Definition kinit (s : phys) : outcome phys :=
  let p := PGROUNDUP kend in
  freerange (S (Z.to_nat ((PHYSTOP - p) / PGSIZE))) p PHYSTOP (mk_phys (mem s) 0).

End kalloc.
End Mem.
