(* ===== verification/MemFacts.v ===== *)
(** * Lemmas on memory, page-table entries and addresses; the free list as a
    list of distinct pages *)
From S2P Require Import Prelude Mem.
Import Mem.

#[local] Open Scope Z_scope.

(** ** Loads and stores *)

Lemma load_le_ext n m m' a :
  (forall x, a <= x < a + Z.of_nat n -> m x = m' x) -> load_le n m a = load_le n m' a.
Proof.
  revert a. induction n as [|n IH]; intros a H; [done|]. simpl. rewrite (H a), (IH (a + 1)); [done| |lia].
  intros x Hx. apply H. lia.
Qed.

Lemma ld_ext m m' a : (forall x, a <= x < a + 8 -> m x = m' x) -> ld m a = ld m' a.
Proof. intros H. apply load_le_ext. intros x Hx. apply H. lia. Qed.

Lemma load_le_digits n a k v :
  0 <= v -> 0 <= k ->
  load_le n (fun x => v / 256 ^ (x - (a - k)) mod 256) a = v / 256 ^ k mod 256 ^ Z.of_nat n.
Proof.
  revert a k. induction n as [|n IH]; intros a k Hv Hk.
  { simpl. by rewrite Z.mod_1_r. }
  cbn [load_le]. replace (a - (a - k)) with k by lia.
  rewrite (load_le_ext n _ (fun x => v / 256 ^ (x - (a + 1 - (k + 1))) mod 256)).
  2:{ intros x _. do 3 f_equal. lia. }
  rewrite IH by lia. rewrite Z.pow_add_r, Z.pow_1_r by lia. rewrite <- Z.div_div by lia.
  rewrite Nat2Z.inj_succ, Z.pow_succ_r by lia. rewrite Z.rem_mul_r; lia.
Qed.

Lemma ld_st_same m a v : 0 <= v < 2 ^ 64 -> ld (st m a v) a = v.
Proof.
  intros Hv. unfold ld. rewrite (load_le_ext 8 _ (fun x => v / 256 ^ (x - (a - 0)) mod 256)).
  - rewrite load_le_digits by lia. rewrite Z.div_1_r. apply Z.mod_small. lia.
  - intros x Hx. unfold st. rewrite (proj2 (andb_true_iff _ _)); [|split; lia].
    do 3 f_equal. lia.
Qed.

Lemma ld_st_other m a b v : a + 8 <= b \/ b + 8 <= a -> ld (st m a v) b = ld m b.
Proof.
  intros H. apply ld_ext. intros x Hx. unfold st.
  destruct (Z.leb_spec a x), (Z.ltb_spec x (a + 8)); simpl; [lia|done..].
Qed.

Lemma st_other m a v x : x < a \/ a + 8 <= x -> st m a v x = m x.
Proof.
  intros H. unfold st. destruct (Z.leb_spec a x), (Z.ltb_spec x (a + 8)); simpl; [lia|done..].
Qed.

Lemma memset_in m a c n x : a <= x < a + n -> memset m a c n x = c.
Proof. intros H. unfold memset. rewrite (proj2 (andb_true_iff _ _)); [done|split; lia]. Qed.

Lemma memset_out m a c n x : x < a \/ a + n <= x -> memset m a c n x = m x.
Proof.
  intros H. unfold memset. destruct (Z.leb_spec a x), (Z.ltb_spec x (a + n)); simpl; [lia|done..].
Qed.

Lemma memmove_in m d s n x : d <= x < d + n -> memmove m d s n x = m (s + (x - d)).
Proof. intros H. unfold memmove. rewrite (proj2 (andb_true_iff _ _)); [done|split; lia]. Qed.

Lemma memmove_out m d s n x : x < d \/ d + n <= x -> memmove m d s n x = m x.
Proof.
  intros H. unfold memmove. destruct (Z.leb_spec d x), (Z.ltb_spec x (d + n)); simpl; [lia|done..].
Qed.

Lemma ld_memset_zero m a n b : a <= b -> b + 8 <= a + n -> ld (memset m a 0 n) b = 0.
Proof.
  intros H1 H2. unfold ld. rewrite (load_le_ext 8 _ (fun _ => 0)); [done|].
  intros x Hx. apply memset_in. lia.
Qed.

Lemma ld_memset_out m a c n b : b + 8 <= a \/ a + n <= b -> ld (memset m a c n) b = ld m b.
Proof. intros H. apply ld_ext. intros x Hx. apply memset_out. lia. Qed.

(** ** Shifts and masks as arithmetic *)

Lemma shiftr_div a n : 0 <= n -> Z.shiftr a n = a / 2 ^ n.
Proof. intros. by apply Z.shiftr_div_pow2. Qed.

Lemma shiftl_mul a n : 0 <= n -> Z.shiftl a n = a * 2 ^ n.
Proof. intros. by apply Z.shiftl_mul_pow2. Qed.

Lemma land_mask a n : 0 <= n -> Z.land a (2 ^ n - 1) = a mod 2 ^ n.
Proof.
  intros Hn. rewrite <- (Z.land_ones a n Hn). f_equal. rewrite Z.ones_equiv. lia.
Qed.

Lemma land_lnot_mask a n : 0 <= n -> Z.land a (Z.lnot (2 ^ n - 1)) = a - a mod 2 ^ n.
Proof.
  intros Hn. replace (2 ^ n - 1) with (Z.ones n) by (rewrite Z.ones_equiv; lia).
  rewrite <- Z.ldiff_land. rewrite Z.ldiff_ones_r, shiftr_div, shiftl_mul by lia.
  pose proof (Z.div_mod a (2 ^ n)). lia.
Qed.

Lemma rounddown_eq a : PGROUNDDOWN a = a - a mod 4096.
Proof. apply (land_lnot_mask a 12). lia. Qed.

Lemma roundup_eq a : 0 <= a -> a + 4095 < 2 ^ 64 -> PGROUNDUP a = a + 4095 - (a + 4095) mod 4096.
Proof.
  intros H1 H2. unfold PGROUNDUP, PGSIZE. replace (a + 4096 - 1) with (a + 4095) by lia.
  rewrite wrapu_small by lia. apply (land_lnot_mask (a + 4095) 12). lia.
Qed.

Lemma PX_eq l va : 0 <= l -> PX l va = va / 2 ^ (12 + 9 * l) mod 512.
Proof. intros Hl. unfold PX. rewrite shiftr_div by lia. apply (land_mask _ 9). lia. Qed.

Lemma PX_range l va : 0 <= l -> 0 <= PX l va < 512.
Proof. intros Hl. rewrite PX_eq by done. apply Z.mod_pos_bound. lia. Qed.

Lemma MAXVA_eq : MAXVA = 2 ^ 38.
Proof. done. Qed.

(** The three indices determine the page number. *)
Lemma vpn_split va : 0 <= va < MAXVA -> va / 4096 = (PX 2 va * 512 + PX 1 va) * 512 + PX 0 va.
Proof.
  intros Hva. rewrite MAXVA_eq in Hva. rewrite !PX_eq by lia.
  change (2 ^ (12 + 9 * 2)) with (4096 * 512 * 512). change (2 ^ (12 + 9 * 1)) with (4096 * 512).
  change (2 ^ (12 + 9 * 0)) with 4096.
  rewrite <- !Z.div_div by lia.
  set (v := va / 4096). assert (0 <= v < 2 ^ 26) by (unfold v; split; [apply Z.div_pos|apply Z.div_lt_upper_bound]; lia).
  rewrite (Z.mod_small (v / 512 / 512)).
  2:{ split; [repeat apply Z.div_pos; lia|]. repeat apply Z.div_lt_upper_bound; lia. }
  pose proof (Z.div_mod (v / 512) 512). pose proof (Z.div_mod v 512). lia.
Qed.

(** ** Page-table entries *)

(** A page address. *)
Definition is_page (pa : Z) : Prop := pa mod 4096 = 0 /\ 0 <= pa < 2 ^ 56.

Lemma lor_disjoint a n b : 0 <= n -> 0 <= b < 2 ^ n -> Z.lor (a * 2 ^ n) b = a * 2 ^ n + b.
Proof.
  intros Hn Hb. rewrite <- shiftl_mul by done.
  assert (Z.land (Z.shiftl a n) b = 0) as H0; [|by rewrite Z.add_nocarry_lxor, Z.lxor_lor].
  apply Z.bits_inj'. intros i Hi. rewrite Z.land_spec, Z.bits_0.
  destruct (Z.lt_ge_cases i n).
  - by rewrite Z.shiftl_spec_low.
  - destruct (decide (b = 0)) as [->|]; [by rewrite Z.bits_0, andb_false_r|].
    rewrite (Z.bits_above_log2 b i), andb_false_r; [done|lia|].
    assert (Z.log2 b < n) by (apply Z.log2_lt_pow2; lia). lia.
Qed.

Lemma PA2PTE_eq pa : is_page pa -> PA2PTE pa = pa / 4096 * 2 ^ 10.
Proof.
  intros [_ Hpa]. unfold PA2PTE. rewrite shiftr_div, shiftl_mul by lia. change (2 ^ 12) with 4096.
  apply wrapu_small. assert (pa / 4096 < 2 ^ 44) by (apply Z.div_lt_upper_bound; lia).
  pose proof (Z.div_pos pa 4096). lia.
Qed.

(** The entry [mappages] writes. *)
Definition mk_pte (pa perm : Z) : Z := Z.lor (Z.lor (PA2PTE pa) perm) PTE_V.

Lemma lor_small a b n : 0 <= n -> 0 <= a < 2 ^ n -> 0 <= b < 2 ^ n -> 0 <= Z.lor a b < 2 ^ n.
Proof.
  intros Hn Ha Hb. split; [apply Z.lor_nonneg; lia|].
  assert (Z.land (Z.lor a b) (2 ^ n - 1) = Z.lor a b) as Heq.
  { rewrite Z.land_lor_distr_l, (land_mask a), (land_mask b) by done.
    by rewrite (Z.mod_small a), (Z.mod_small b). }
  rewrite <- Heq, land_mask by done. apply Z.mod_pos_bound. lia.
Qed.

Lemma mk_pte_eq pa perm :
  is_page pa -> 0 <= perm < 1024 -> mk_pte pa perm = pa / 4096 * 2 ^ 10 + Z.lor perm PTE_V.
Proof.
  intros Hpa Hp. unfold mk_pte. rewrite PA2PTE_eq by done. rewrite <- Z.lor_assoc.
  apply lor_disjoint; [lia|]. apply lor_small; [lia..|]. unfold PTE_V. lia.
Qed.

Lemma mk_pte_range pa perm : is_page pa -> 0 <= perm < 1024 -> 0 <= mk_pte pa perm < 2 ^ 64.
Proof.
  intros Hpa Hp. rewrite mk_pte_eq by done. destruct Hpa as [_ Hpa].
  assert (0 <= Z.lor perm PTE_V < 2 ^ 10) by (apply lor_small; unfold PTE_V; lia).
  assert (pa / 4096 < 2 ^ 44) by (apply Z.div_lt_upper_bound; lia).
  pose proof (Z.div_pos pa 4096). lia.
Qed.

Lemma PTE2PA_mk_pte pa perm : is_page pa -> 0 <= perm < 1024 -> PTE2PA (mk_pte pa perm) = pa.
Proof.
  intros Hpa Hp. unfold PTE2PA. rewrite mk_pte_eq, shiftr_div, shiftl_mul by (done || lia).
  assert (0 <= Z.lor perm PTE_V < 2 ^ 10) by (apply lor_small; unfold PTE_V; lia).
  rewrite Z.div_add_l, (Z.div_small (Z.lor _ _)), Z.add_0_r by lia.
  destruct Hpa as [Hal Hpa]. pose proof (Z.div_mod pa 4096). change (2 ^ 12) with 4096.
  rewrite wrapu_small; lia.
Qed.

Lemma PTE_FLAGS_mk_pte pa perm :
  is_page pa -> 0 <= perm < 1024 -> PTE_FLAGS (mk_pte pa perm) = Z.lor perm PTE_V.
Proof.
  intros Hpa Hp. unfold PTE_FLAGS. rewrite mk_pte_eq by done. rewrite (land_mask _ 10) by lia.
  rewrite Z.add_comm, Z.mod_add by lia. apply Z.mod_small. apply lor_small; unfold PTE_V; lia.
Qed.

Lemma has_flag_flags x f : 0 <= f < 1024 -> has_flag (PTE_FLAGS x) f = has_flag x f.
Proof.
  intros Hf. unfold has_flag, PTE_FLAGS. do 2 f_equal. rewrite <- Z.land_assoc. f_equal.
  rewrite Z.land_comm. change 1023 with (2 ^ 10 - 1). rewrite land_mask by lia. by apply Z.mod_small.
Qed.

Lemma has_flag_lor a b f : has_flag (Z.lor a b) f = has_flag a f || has_flag b f.
Proof.
  unfold has_flag. rewrite Z.land_lor_distr_l, <- negb_andb. f_equal.
  destruct (Z.eqb_spec (Z.land a f) 0) as [Ha|Ha]; simpl.
  - by rewrite Ha, Z.lor_0_l.
  - apply Z.eqb_neq. intros H%Z.lor_eq_0_iff. tauto.
Qed.

Lemma has_flag_mk_pte pa perm f :
  is_page pa -> 0 <= perm < 1024 -> 0 <= f < 1024 ->
  has_flag (mk_pte pa perm) f = has_flag perm f || has_flag PTE_V f.
Proof.
  intros Hpa Hp Hf. rewrite <- has_flag_flags, PTE_FLAGS_mk_pte by done. apply has_flag_lor.
Qed.

Lemma mk_pte_valid pa perm : is_page pa -> 0 <= perm < 1024 -> has_flag (mk_pte pa perm) PTE_V = true.
Proof.
  intros Hpa Hp. rewrite has_flag_mk_pte by (done || unfold PTE_V; lia). by rewrite orb_true_r.
Qed.

Lemma has_flag_0 f : has_flag 0 f = false.
Proof. done. Qed.

(** ** The free list *)

Section freelist.
Context (kend : Z) (Hkend : 4096 <= kend <= PHYSTOP).

(** A page the allocator may hand out. *)
Definition ram (pa : Z) : Prop := pa mod PGSIZE = 0 /\ kend <= pa < PHYSTOP.

(** [l] is the chain of free pages that starts at [p]. *)
Fixpoint chain (m : memory) (p : Z) (l : list Z) : Prop :=
  match l with
  | [] => p = 0
  | q :: l' => p = q /\ ram q /\ q ∉ l' /\ chain m (ld m q) l'
  end.

Definition free_pages (s : phys) (l : list Z) : Prop := chain (mem s) (freelist s) l.

Lemma ram_is_page pa : ram pa -> is_page pa.
Proof. intros [Ha Hp]. unfold PHYSTOP, KERNBASE, PGSIZE in *. split; [done|]. lia. Qed.

Lemma ram_nonzero pa : ram pa -> pa <> 0.
Proof. intros [_ Hp]. lia. Qed.

(** Distinct pages do not overlap. *)
Lemma ram_apart p q : ram p -> ram q -> p <> q -> p + 4096 <= q \/ q + 4096 <= p.
Proof.
  intros [Hp _] [Hq _] Hne. unfold PGSIZE in *.
  pose proof (Z.div_mod p 4096). pose proof (Z.div_mod q 4096). lia.
Qed.

Lemma chain_ext m m' p l :
  (forall q, q ∈ l -> ld m q = ld m' q) -> chain m p l -> chain m' p l.
Proof.
  revert p. induction l as [|q l IH]; intros p Hext; simpl; [done|].
  intros (-> & Hr & Hni & Hc). split_and!; try done. rewrite <- Hext by by left.
  apply IH; [|done]. intros x Hx. apply Hext. by right.
Qed.

Lemma chain_ram m p l q : chain m p l -> q ∈ l -> ram q.
Proof.
  revert p. induction l as [|x l IH]; intros p Hc Hq; [by apply not_elem_of_nil in Hq|].
  destruct Hc as (_ & Hr & _ & Hc). apply elem_of_cons in Hq as [->|Hq]; [done|by eapply IH].
Qed.

Lemma chain_nodup m p l : chain m p l -> NoDup l.
Proof.
  revert p. induction l as [|x l IH]; intros p Hc; [constructor|].
  destruct Hc as (_ & _ & Hni & Hc). constructor; [done|by eapply IH].
Qed.

Lemma chain_head m p l : chain m p l -> p = 0 <-> l = [].
Proof.
  destruct l as [|q l]; simpl; [done|]. intros (-> & Hr & _). split; [|done].
  intros H. by destruct (ram_nonzero q Hr).
Qed.

(** Freeing puts the page on top of the list; memory outside it is kept. *)
Lemma kfree_spec s l pa :
  free_pages s l -> ram pa -> pa ∉ l ->
  exists s', kfree kend pa s = Ret s' /\ free_pages s' (pa :: l) /\
    (forall x, x < pa \/ pa + 4096 <= x -> mem s' x = mem s x).
Proof.
  intros Hl [Ha Hr] Hni. unfold kfree. rewrite Ha. simpl.
  destruct (Z.ltb_spec pa kend); [lia|]. destruct (Z.leb_spec PHYSTOP pa); [lia|]. simpl.
  eexists. split; [reflexivity|]. unfold PGSIZE. split.
  - unfold free_pages. simpl. split_and!; [done|done|done|]. rewrite ld_st_same.
    + eapply chain_ext; [|exact Hl]. intros q Hq. pose proof (chain_ram _ _ _ _ Hl Hq) as Hrq.
      destruct (ram_apart pa q ltac:(done) Hrq) as [?|?]; [congruence| |];
        rewrite ld_st_other, ld_memset_out by lia; done.
    + destruct l as [|q l]; simpl in Hl; [rewrite Hl; lia|].
      destruct Hl as (-> & [_ ?] & _). unfold PHYSTOP, KERNBASE in *. lia.
  - intros x Hx. simpl. rewrite st_other by lia. apply memset_out. lia.
Qed.

(** Allocation takes the top page. *)
Lemma kalloc_spec s l :
  free_pages s l ->
  match l with
  | [] => kalloc s = (0, s)
  | pa :: l' => exists s', kalloc s = (pa, s') /\ free_pages s' l' /\
      (forall x, x < pa \/ pa + 4096 <= x -> mem s' x = mem s x)
  end.
Proof.
  intros Hl. unfold kalloc. destruct l as [|pa l].
  - unfold free_pages in Hl. simpl in Hl. by rewrite Hl.
  - destruct Hl as (-> & Hr & Hni & Hc). destruct (Z.eqb_spec pa 0) as [->|_]; [by destruct (ram_nonzero 0 Hr)|].
    eexists. split; [reflexivity|]. unfold PGSIZE. split.
    + unfold free_pages. simpl. eapply chain_ext; [|exact Hc]. intros q Hq.
      pose proof (chain_ram _ _ _ _ Hc Hq) as Hrq.
      destruct (ram_apart pa q Hr Hrq) as [?|?]; [congruence| |]; rewrite ld_memset_out by lia; done.
    + intros x Hx. simpl. apply memset_out. lia.
Qed.

End freelist.
