(* ===== verification/Vm.v ===== *)
(** * Page tables, demand paging and swapping
    (xv6-memory-management/kernel: vm.c, sysproc.c, fs.c's readi and writei)

    The page-table functions work on physical memory and its allocator; the
    demand-paging functions on a [vm]: that, the current process's paging
    fields and the file contents. *)
From S2P Require Import Prelude Mem.
Import Mem.

#[local] Open Scope Z_scope.

Module Vm.

Section vm.
(** [kend]: the linker's [end]; [use_clock]: whether USE_CLOCK is defined. *)
Context (kend : Z) (use_clock : bool).

(** ** Page tables *)

Definition PTE_LEAF : Z := Z.lor (Z.lor PTE_R PTE_W) PTE_X.

(** [walk]'s loop: [level] more levels to descend from [pagetable]; returns
    the address of the entry, or 0. *)
Fixpoint walk_from (level : nat) (pagetable va : Z) (alloc : bool) (s : phys) : Z * phys :=
  let pte := pagetable + 8 * PX (Z.of_nat level) va in
  match level with
  | O => (pte, s)
  | S level' =>
      let e := ld (mem s) pte in
      if has_flag e PTE_V then
        if has_flag e PTE_LEAF then (0, s) else walk_from level' (PTE2PA e) va alloc s
      else if alloc then
        let '(page, s1) := kalloc s in
        if page =? 0 then (0, s1)
        else
          let m := memset (mem s1) page 0 PGSIZE in
          let s2 := mk_phys (st m pte (Z.lor (PA2PTE page) PTE_V)) (freelist s1) in
          walk_from level' page va alloc s2
      else (0, s)
  end.

Definition walk (pagetable va : Z) (alloc : bool) (s : phys) : outcome (Z * phys) :=
  if MAXVA <=? va then Panic "walk" else Ret (walk_from 2 pagetable va alloc s).

Definition walkaddr (pagetable va : Z) (s : phys) : Z :=
  if MAXVA <=? va then 0
  else
    let '(pte, _) := walk_from 2 pagetable va false s in
    if pte =? 0 then 0
    else
      let e := ld (mem s) pte in
      if negb (has_flag e PTE_V) then 0
      else if negb (has_flag e PTE_U) then 0
      else PTE2PA e.

Definition store (a v : Z) (s : phys) : phys := mk_phys (st (mem s) a v) (freelist s).

Fixpoint map_loop (fuel : nat) (pagetable a last pa perm : Z) (s : phys) : outcome (Z * phys) :=
  match fuel with
  | O => Undef "mappages: fuel"
  | S fuel' =>
      '(pte, s) ← walk pagetable a true s;
      if pte =? 0 then Ret (-1, s)
      else if has_flag (ld (mem s) pte) PTE_V then Panic "mappages: remap"
      else
        let s := store pte (Z.lor (Z.lor (PA2PTE pa) perm) PTE_V) s in
        if a =? last then Ret (0, s)
        else map_loop fuel' pagetable (u64 (a + PGSIZE)) last (u64 (pa + PGSIZE)) perm s
  end.

Definition mappages (pagetable va size pa perm : Z) (s : phys) : outcome (Z * phys) :=
  if negb (va mod PGSIZE =? 0) then Panic "mappages: va not aligned"
  else if negb (size mod PGSIZE =? 0) then Panic "mappages: size not aligned"
  else if size =? 0 then Panic "mappages: size"
  else map_loop (Z.to_nat (size / PGSIZE)) pagetable va (u64 (va + size - PGSIZE)) pa perm s.

Definition kvmmap (kpgtbl va pa sz perm : Z) (s : phys) : outcome phys :=
  '(r, s) ← mappages kpgtbl va sz pa perm s;
  if r =? 0 then Ret s else Panic "kvmmap".

Definition uvmcreate (s : phys) : Z * phys :=
  let '(pagetable, s) := kalloc s in
  if pagetable =? 0 then (0, s)
  else (pagetable, mk_phys (memset (mem s) pagetable 0 PGSIZE) (freelist s)).

Fixpoint unmap_loop (fuel : nat) (pagetable a stop : Z) (do_free : bool) (s : phys) : outcome phys :=
  if a <? stop then
    match fuel with
    | O => Undef "uvmunmap: fuel"
    | S fuel' =>
        '(pte, s) ← walk pagetable a false s;
        if (pte =? 0) || negb (has_flag (ld (mem s) pte) PTE_V) then
          unmap_loop fuel' pagetable (u64 (a + PGSIZE)) stop do_free s
        else
          s ← (if do_free then kfree kend (PTE2PA (ld (mem s) pte)) s else Ret s);
          unmap_loop fuel' pagetable (u64 (a + PGSIZE)) stop do_free (store pte 0 s)
    end
  else Ret s.

Definition uvmunmap (pagetable va npages : Z) (do_free : bool) (s : phys) : outcome phys :=
  if negb (va mod PGSIZE =? 0) then Panic "uvmunmap: not aligned"
  else unmap_loop (Z.to_nat npages) pagetable va (u64 (va + u64 (npages * PGSIZE))) do_free s.

Definition uvmdealloc (pagetable oldsz newsz : Z) (s : phys) : outcome (Z * phys) :=
  if oldsz <=? newsz then Ret (oldsz, s)
  else
    s ← (if PGROUNDUP newsz <? PGROUNDUP oldsz then
           let npages := i32 ((PGROUNDUP oldsz - PGROUNDUP newsz) / PGSIZE) in
           uvmunmap pagetable (PGROUNDUP newsz) npages true s
         else Ret s);
    Ret (newsz, s).

(** [freewalk]: [fuel] bounds the depth of the tree. *)
Fixpoint freewalk (fuel : nat) (pagetable : Z) (s : phys) : outcome phys :=
  match fuel with
  | O => Undef "freewalk: fuel"
  | S fuel' =>
      let entry (os : outcome phys) (i : nat) : outcome phys :=
        s ← os;
        let a := pagetable + 8 * Z.of_nat i in
        let pte := ld (mem s) a in
        if has_flag pte PTE_V then
          if has_flag pte PTE_LEAF then
            s ← (if has_flag pte PTE_U then kfree kend (PTE2PA pte) s else Ret s);
            Ret (store a 0 s)
          else
            s ← freewalk fuel' (PTE2PA pte) s;
            Ret (store a 0 s)
        else Ret s in
      s ← fold_left entry (seq 0 512) (Ret s);
      kfree kend pagetable s
  end.

Definition uvmfree (pagetable sz : Z) (s : phys) : outcome phys :=
  s ← (if 0 <? sz then uvmunmap pagetable 0 (PGROUNDUP sz / PGSIZE) true s else Ret s);
  freewalk 3 pagetable s.

Definition uvmclear (pagetable va : Z) (s : phys) : outcome phys :=
  '(pte, s) ← walk pagetable va false s;
  if pte =? 0 then Panic "uvmclear"
  else Ret (store pte (Z.land (ld (mem s) pte) (Z.lnot PTE_U)) s).

Definition ismapped (pagetable va : Z) (s : phys) : outcome bool :=
  '(pte, s) ← walk pagetable va false s;
  if pte =? 0 then Ret false else Ret (has_flag (ld (mem s) pte) PTE_V).

(** ** Files (fs.c: readi, writei on kernel buffers)

    A file is its bytes; [room] is what the disk can still add to it. *)

Definition BSIZE : Z := 1024.
Definition MAXFILE : Z := 12 + BSIZE / 4.

Definition readi (file : list Z) (off n : Z) : list Z :=
  let size := Z.of_nat (length file) in
  if (size <? off) || (u32 (off + n) <? off) then []
  else
    let n := if size <? off + n then size - off else n in
    take (Z.to_nat n) (drop (Z.to_nat off) file).

(** The number of bytes written (or -1) and the new contents. *)
Definition writei (file : list Z) (room off : Z) (bytes : list Z) : Z * list Z :=
  let size := Z.of_nat (length file) in
  let n := Z.of_nat (length bytes) in
  if (size <? off) || (u32 (off + n) <? off) then (-1, file)
  else if MAXFILE * BSIZE <? off + n then (-1, file)
  else
    let tot := Z.to_nat (Z.min n (Z.max 0 (size + room - off))) in
    (Z.of_nat tot,
     take (Z.to_nat off) file ++ take tot bytes ++ drop (Z.to_nat off + tot) file).

(** The bytes of memory from [a], and storing bytes at [a]. *)
Definition mem_bytes (m : memory) (a : Z) (n : nat) : list Z :=
  (fun i => m (a + Z.of_nat i)) <$> seq 0 n.

Definition put_bytes (m : memory) (a : Z) (bytes : list Z) : memory :=
  fun x => if (a <=? x) && (x <? a + Z.of_nat (length bytes))
           then default 0 (bytes !! Z.to_nat (x - a)) else m x.

(** ** The process's paging state (proc.h) *)

Definition PGMETA_SIZE : Z := 1024.

Record meta := mk_meta {
  va : Z;
  seq_no : Z;         (* pgmeta[].seq *)
  resident : bool;
  dirty : bool;
  referenced : bool;
  in_swap : bool;
  slot : Z;
  perm : Z
}.

Record seg := mk_seg { seg_va : Z; memsz : Z; filesz : Z; seg_off : Z; seg_perm : Z }.

Record vproc := mk_vproc {
  pagetable : Z;
  sz : Z;
  heap_brk : Z;
  execip : option (list Z);     (* the executable's bytes *)
  segs : list seg;              (* the first nsegs entries *)
  page_seq_ctr : Z;
  swapip : option (list Z);     (* the swap file's bytes *)
  swap_pages : Z;
  swap_bitmap : list Z;         (* 128 bytes *)
  pgmeta : list meta;           (* PGMETA_SIZE entries *)
  clock_hand : Z;
  was_killed : bool;
  tf_sp : Z                     (* trapframe->sp *)
}.

Record vm := mk_vm { ph : phys; cur : vproc; room : Z }.

(** ** pgmeta *)

Definition pgmeta_find (va_pg : Z) (p : vproc) : option nat :=
  find_idx (fun e => va e =? va_pg) (pgmeta p).

Definition free_meta (va_pg : Z) : meta := mk_meta va_pg 0 false false false false 65535 0.

Definition set_meta (i : nat) (e : meta) (p : vproc) : vproc :=
  {| p with pgmeta := <[i := e]> (pgmeta p) |}.

Definition pgmeta_alloc (va_pg : Z) (p : vproc) : option nat * vproc :=
  match pgmeta_find va_pg p with
  | Some i => (Some i, p)
  | None =>
      match find_idx (fun e => va e =? 0) (pgmeta p) with
      | Some i => (Some i, set_meta i (free_meta va_pg) p)
      | None => (None, p)
      end
  end.

Definition pgmeta_clear (i : nat) (p : vproc) : vproc := set_meta i (free_meta 0) p.

(** ** The swap slots *)

Definition slot_used (bm : list Z) (i : Z) : bool :=
  Z.testbit (default 0 (bm !! Z.to_nat (Z.shiftr i 3))) (Z.land i 7).

Definition swap_alloc_slot (p : vproc) : option Z * vproc :=
  match find_idx (fun i => negb (slot_used (swap_bitmap p) (Z.of_nat i))) (seq 0 1024) with
  | Some i =>
      let i := Z.of_nat i in
      let byte := Z.to_nat (Z.shiftr i 3) in
      let b := default 0 (swap_bitmap p !! byte) in
      (Some i, {| p with swap_bitmap :=
                    <[byte := Z.lor b (Z.shiftl 1 (Z.land i 7))]> (swap_bitmap p) |})
  | None => (None, p)
  end.

Definition swap_free_slot (i : Z) (p : vproc) : vproc :=
  if (i <? 0) || (1024 <=? i) then p
  else
    let byte := Z.to_nat (Z.shiftr i 3) in
    let b := default 0 (swap_bitmap p !! byte) in
    {| p with swap_bitmap :=
         <[byte := Z.land b (Z.lnot (Z.shiftl 1 (Z.land i 7)))]> (swap_bitmap p) |}.

(** ** Page replacement *)

(** FIFO: the resident page of greatest age, the unsigned distance of its
    sequence number from the counter. *)
Definition age (now : Z) (e : meta) : Z := u64 (now - seq_no e).

Definition evictable (e : meta) : bool := negb (va e =? 0) && resident e.

Definition fifo_victim (p : vproc) : option nat :=
  fst <$> scan_min evictable (fun e => - age (page_seq_ctr p) e) 0 None (pgmeta p).

(** CLOCK: one circle from the hand, clearing reference bits on the way. *)
Fixpoint clock_scan (fuel : nat) (start idx : Z) (l : list meta) : option nat * list meta :=
  match fuel with
  | O => (None, l)
  | S fuel' =>
      let i := Z.to_nat idx in
      let next (l : list meta) :=
        let idx' := (idx + 1) mod PGMETA_SIZE in
        if idx' =? start then (None, l) else clock_scan fuel' start idx' l in
      match l !! i with
      | Some e =>
          if evictable e then
            if referenced e then next (<[i := {| e with referenced := false |}]> l)
            else (Some i, l)
          else next l
      | None => (None, l)
      end
  end.

Definition clock_victim (p : vproc) : option nat * vproc :=
  let start := clock_hand p mod PGMETA_SIZE in
  let '(v, l) := clock_scan (Z.to_nat PGMETA_SIZE) start start (pgmeta p) in
  (v, {| p with pgmeta := l |}).

Definition setkilled (p : vproc) : vproc := {| p with was_killed := true |}.

(** The swap-out of a dirty page: [None] when it fails. *)
Definition swap_out (best : nat) (e : meta) (pa : Z) (v : vm) : option vm * vm :=
  let p := cur v in
  match swapip p with
  | None => (None, {| v with cur := setkilled p |})
  | Some file =>
      match swap_alloc_slot p with
      | (None, p) => (None, {| v with cur := setkilled p |})
      | (Some sl, p) =>
          let bytes := mem_bytes (mem (ph v)) pa 4096 in
          let '(r, file') := writei file (room v) (u32 (sl * PGSIZE)) bytes in
          let grown := Z.of_nat (length file') - Z.of_nat (length file) in
          let p := {| p with swapip := Some file' |} in
          let rm := room v - grown in
          if negb (r =? PGSIZE) then
            (None, mk_vm (ph v) (swap_free_slot sl p) rm)
          else
            let p := {| p with swap_pages := i32 (swap_pages p + 1) |} in
            let e := {| e with in_swap := true; slot := u16 sl |} in
            (Some (mk_vm (ph v) (set_meta best e p) rm), v)
      end
  end.

(** [try_evict_one]: 0 or -1. *)
Definition try_evict_one (v : vm) : outcome (Z * vm) :=
  let '(best, p) := if use_clock then clock_victim (cur v) else (fifo_victim (cur v), cur v) in
  let v := {| v with cur := p |} in
  match best with
  | None => Ret (-1, v)
  | Some best =>
      match pgmeta p !! best with
      | None => Undef "pgmeta index"
      | Some e =>
          '(pte, _) ← walk (pagetable p) (va e) false (ph v);
          let x := ld (mem (ph v)) pte in
          if (pte =? 0) || negb (has_flag x PTE_V) then
            Ret (-1, {| v with cur := pgmeta_clear best p |})
          else
            let is_dirty := dirty e || has_flag x PTE_W in
            let '(ok, v_fail) :=
              if is_dirty then swap_out best e (PTE2PA x) v else (Some v, v) in
            match ok with
            | None => Ret (-1, v_fail)
            | Some v =>
                s ← uvmunmap (pagetable (cur v)) (va e) 1 true (ph v);
                match pgmeta (cur v) !! best with
                | None => Undef "pgmeta index"
                | Some e =>
                    let p := set_meta best {| e with resident := false; dirty := false |} (cur v) in
                    let p := {| p with clock_hand := (Z.of_nat best + 1) mod PGMETA_SIZE |} in
                    Ret (0, mk_vm s p (room v))
                end
            end
      end
  end.

Definition kalloc_or_evict (v : vm) : outcome (Z * vm) :=
  let '(page, s) := kalloc (ph v) in
  if negb (page =? 0) then Ret (page, {| v with ph := s |})
  else
    '(r, v) ← try_evict_one {| v with ph := s |};
    if r =? 0 then
      let '(page, s) := kalloc (ph v) in
      Ret (page, {| v with ph := s |})
    else Ret (0, v).

(** Update the entry of index [i] if there is one. *)
Definition update_meta (i : option nat) (f : meta -> meta) (p : vproc) : vproc :=
  match i with
  | Some i => match pgmeta p !! i with Some e => set_meta i (f e) p | None => p end
  | None => p
  end.

(** ** Growing a process *)

Definition zero_page (page : Z) (s : phys) : phys :=
  mk_phys (memset (mem s) page 0 PGSIZE) (freelist s).

Fixpoint uvmalloc_loop (fuel : nat) (pt a oldsz newsz xperm : Z) (v : vm) : outcome (Z * vm) :=
  if a <? newsz then
    match fuel with
    | O => Undef "uvmalloc: fuel"
    | S fuel' =>
        '(page, v) ← kalloc_or_evict v;
        if page =? 0 then
          '(_, s) ← uvmdealloc pt a oldsz (ph v);
          Ret (0, {| v with ph := s |})
        else
          let pm := Z.lor (Z.lor PTE_R PTE_U) xperm in
          '(r, s) ← mappages pt a PGSIZE page pm (zero_page page (ph v));
          if negb (r =? 0) then
            s ← kfree kend page s;
            '(_, s) ← uvmdealloc pt a oldsz s;
            Ret (0, {| v with ph := s |})
          else
            let '(i, p) := pgmeta_alloc a (cur v) in
            let p := match i with
                     | Some _ =>
                         let p := update_meta i (fun e =>
                           {| e with resident := true; perm := pm; dirty := false;
                                     seq_no := page_seq_ctr p |}) p in
                         {| p with page_seq_ctr := u64 (page_seq_ctr p + 1) |}
                     | None => p
                     end in
            uvmalloc_loop fuel' pt (u64 (a + PGSIZE)) oldsz newsz xperm (mk_vm s p (room v))
    end
  else Ret (newsz, v).

Definition uvmalloc (pt oldsz newsz xperm : Z) (v : vm) : outcome (Z * vm) :=
  if newsz <? oldsz then Ret (oldsz, v)
  else
    let oldsz := PGROUNDUP oldsz in
    uvmalloc_loop (S (Z.to_nat ((newsz - oldsz) / PGSIZE + 1))) pt oldsz oldsz newsz xperm v.

Definition growproc (n : Z) (v : vm) : outcome (Z * vm) :=
  let p := cur v in
  if 0 <? n then
    '(sz', v) ← uvmalloc (pagetable p) (sz p) (u64 (sz p + n)) PTE_W v;
    if sz' =? 0 then Ret (-1, v)
    else let p := cur v in Ret (0, {| v with cur := {| p with sz := sz' |} |})
  else if n <? 0 then
    '(sz', s) ← uvmdealloc (pagetable p) (sz p) (u64 (sz p + n)) (ph v);
    Ret (0, mk_vm s {| p with sz := sz' |} (room v))
  else Ret (0, v).

(** ** The page-fault handler *)

Definition seg_end (s : seg) : Z := u64 (seg_va s + memsz s).

(** The end of the program's segments. *)
Definition prog_end (p : vproc) : Z :=
  fold_left (fun e s => if e <? seg_end s then seg_end s else e) (segs p) 0.

Definition in_seg (va_pg : Z) (s : seg) : bool := (seg_va s <=? va_pg) && (va_pg <? seg_end s).

Definition is_stack (va_pg : Z) (p : vproc) : bool :=
  (va_pg =? u64 (PGROUNDDOWN (tf_sp p) - PGSIZE)) && (va_pg <? sz p).

Definition is_heap (va_pg : Z) (p : vproc) : bool :=
  (prog_end p <=? va_pg) && (va_pg <? heap_brk p) && (va_pg <? sz p).

(** A fault on a page that is mapped: permission upgrade or failure.
    [is_write] is -1 (execute), 0 (read) or 1 (write). *)
Definition fault_present (pte va_pg is_write : Z) (sg : option seg) (v : vm) : Z * vm :=
  let p := cur v in
  let x := ld (mem (ph v)) pte in
  let sperm := match sg with Some s => seg_perm s | None => 0 end in
  let allow_w := is_heap va_pg p || is_stack va_pg p || has_flag sperm PTE_W in
  let allow_x := has_flag sperm PTE_X in
  if (is_write =? 1) && negb (has_flag x PTE_W) && allow_w then
    let '(i, p) := pgmeta_alloc va_pg p in
    let p := update_meta i (fun e => {| e with dirty := true; referenced := true |}) p in
    (PTE2PA (Z.lor x PTE_W), mk_vm (store pte (Z.lor x PTE_W) (ph v)) p (room v))
  else if (is_write =? -1) && negb (has_flag x PTE_X) && allow_x then
    (PTE2PA (Z.lor x PTE_X), {| v with ph := store pte (Z.lor x PTE_X) (ph v) |})
  else (0, v).

(** A page in swap: read it back, map it, free the slot. *)
Definition fault_swapin (pt va_pg : Z) (i : nat) (s : seg) (v : vm) : outcome (Z * vm) :=
  '(page, v) ← kalloc_or_evict v;
  if page =? 0 then Ret (0, v)
  else
    match pgmeta (cur v) !! i, swapip (cur v) with
    | Some e, Some file =>
        let bytes := readi file (u32 (slot e * PGSIZE)) PGSIZE in
        let ph1 := mk_phys (put_bytes (mem (ph v)) page bytes) (freelist (ph v)) in
        if negb (Z.of_nat (length bytes) =? PGSIZE) then
          s ← kfree kend page ph1; Ret (0, {| v with ph := s |})
        else
          let pm := if negb (perm e =? 0) then perm e
                    else Z.lor (Z.lor (Z.lor PTE_U PTE_R) (Z.land (seg_perm s) PTE_X))
                               (Z.land (seg_perm s) PTE_W) in
          '(r, ph2) ← mappages pt va_pg PGSIZE page pm ph1;
          if negb (r =? 0) then s ← kfree kend page ph2; Ret (0, {| v with ph := s |})
          else
            let p := cur v in
            let p := set_meta i {| e with resident := true; in_swap := false; slot := 65535 |} p in
            let p := swap_free_slot (slot e) p in
            let p := if 0 <? swap_pages p then {| p with swap_pages := swap_pages p - 1 |} else p in
            let p := update_meta (Some i)
                       (fun e => {| e with seq_no := page_seq_ctr p; referenced := true |}) p in
            let p := {| p with page_seq_ctr := u64 (page_seq_ctr p + 1) |} in
            Ret (page, mk_vm ph2 p (room v))
    | _, _ => Undef "swap-in: null swapip"
    end.

(** The end of a successful load: sequence number and metadata. *)
Definition note_resident (i : option nat) (pm : Z) (p : vproc) : vproc :=
  let p := update_meta i (fun e => {| e with resident := true; perm := pm; dirty := false;
                                             referenced := true; seq_no := page_seq_ctr p |}) p in
  {| p with page_seq_ctr := u64 (page_seq_ctr p + 1) |}.

(** A page of an executable segment. *)
Definition fault_exec (pt va_pg is_write : Z) (i : option nat) (s : seg) (exe : list Z) (v : vm)
    : outcome (Z * vm) :=
  '(page, v) ← kalloc_or_evict v;
  if page =? 0 then Ret (0, v)
  else
    let fail (x : phys) : outcome (Z * vm) := x ← kfree kend page x; Ret (0, {| v with ph := x |}) in
    let ph0 := zero_page page (ph v) in
    let page_off := u64 (va_pg - seg_va s) in
    let file_off := u64 (seg_off s + page_off) in
    let n := if page_off <? filesz s then
               let remain := u32 (filesz s - page_off) in
               if remain <? PGSIZE then remain else PGSIZE
             else 0 in
    let bytes := if page_off <? filesz s then readi exe (u32 file_off) n else [] in
    let ph1 := mk_phys (put_bytes (mem ph0) page bytes) (freelist ph0) in
    if (page_off <? filesz s) && negb (Z.of_nat (length bytes) =? n) then fail ph1
    else
      let pm := Z.lor PTE_U PTE_R in
      let pm := if has_flag (seg_perm s) PTE_X then Z.lor pm PTE_X else pm in
      let pm := if has_flag (seg_perm s) PTE_W then Z.lor pm PTE_W else pm in
      if (is_write =? -1) && negb (has_flag pm PTE_X) then fail ph1
      else
        '(r, ph2) ← mappages pt va_pg PGSIZE page pm ph1;
        if negb (r =? 0) then fail ph2
        else
          let '(i, p) := match i with
                         | Some i => (Some i, cur v)
                         | None => pgmeta_alloc va_pg (cur v)
                         end in
          Ret (page, mk_vm ph2 (note_resident i pm p) (room v)).

(** A zero page of the heap or the stack. *)
Definition fault_anon (pt va_pg : Z) (v : vm) : outcome (Z * vm) :=
  let '(i, p) := pgmeta_alloc va_pg (cur v) in
  '(page, v) ← kalloc_or_evict {| v with cur := p |};
  if page =? 0 then Ret (0, v)
  else
    let pm := Z.lor PTE_U PTE_R in
    '(r, s) ← mappages pt va_pg PGSIZE page pm (zero_page page (ph v));
    if negb (r =? 0) then s ← kfree kend page s; Ret (0, {| v with ph := s |})
    else Ret (page, mk_vm s (note_resident i pm (cur v)) (room v)).

Definition vmfault (pt fva is_write : Z) (v : vm) : outcome (Z * vm) :=
  if MAXVA <=? fva then Ret (0, v)
  else
    let va_pg := PGROUNDDOWN fva in
    let p := cur v in
    let sg := find_idx (in_seg va_pg) (segs p) in
    let sg := i ← sg; segs p !! i in
    '(pte, _) ← walk pt va_pg false (ph v);
    if negb (pte =? 0) && has_flag (ld (mem (ph v)) pte) PTE_V then
      Ret (fault_present pte va_pg is_write sg v)
    else
      let i := pgmeta_find va_pg p in
      match sg with
      | Some s =>
          match execip p with
          | None => Ret (0, v)
          | Some exe =>
              match i with
              | Some k =>
                  if match pgmeta p !! k with Some e => in_swap e | None => false end
                  then fault_swapin pt va_pg k s v
                  else fault_exec pt va_pg is_write i s exe v
              | None => fault_exec pt va_pg is_write i s exe v
              end
          end
      | None => if is_heap va_pg p || is_stack va_pg p then fault_anon pt va_pg v else Ret (0, v)
      end.

(** ** sys_sbrk *)

Definition sys_sbrk (n : Z) (eager : bool) (v : vm) : outcome (Z * vm) :=
  let addr := sz (cur v) in
  '(ok, v) ← (if eager || (n <? 0) then
                '(r, v) ← growproc n v; Ret (negb (r <? 0), v)
              else if u64 (addr + n) <? addr then Ret (false, v)
              else let p := cur v in
                   Ret (true, {| v with cur := {| p with sz := u64 (sz p + n) |} |}));
  if negb (ok : bool) then Ret (u64 (-1), v)
  else
    let p := cur v in
    if n =? 0 then Ret (addr, v)
    else
      let newbrk := i64 (heap_brk p) + n in
      let newbrk := if newbrk <? i64 (prog_end p) then i64 (prog_end p) else newbrk in
      let newbrk := if i64 (sz p) <? newbrk then i64 (sz p) else newbrk in
      Ret (addr, {| v with cur := {| p with heap_brk := u64 newbrk |} |}).

(** ** Copying between user and kernel memory *)

Fixpoint copyout (fuel : nat) (pt dstva : Z) (src : list Z) (v : vm) : outcome (Z * vm) :=
  match src with
  | [] => Ret (0, v)
  | _ =>
      match fuel with
      | O => Undef "copyout: fuel"
      | S fuel' =>
          let va0 := PGROUNDDOWN dstva in
          if MAXVA <=? va0 then Ret (-1, v)
          else
            v ← (if walkaddr pt va0 (ph v) =? 0
                 then '(_, v) ← vmfault pt va0 1 v; Ret v else Ret v);
            let pa0 := walkaddr pt va0 (ph v) in
            if pa0 =? 0 then Ret (-1, v)
            else
              '(pte, _) ← walk pt va0 false (ph v);
              if negb (has_flag (ld (mem (ph v)) pte) PTE_W) then Ret (-1, v)
              else
                let n := Z.to_nat (Z.min (PGSIZE - (dstva - va0)) (Z.of_nat (length src))) in
                let m := put_bytes (mem (ph v)) (pa0 + (dstva - va0)) (take n src) in
                copyout fuel' pt (u64 (va0 + PGSIZE)) (drop n src)
                  {| v with ph := mk_phys m (freelist (ph v)) |}
      end
  end.

Fixpoint copyin (fuel : nat) (pt srcva : Z) (len : Z) (v : vm) : outcome (option (list Z) * vm) :=
  if len <=? 0 then Ret (Some [], v)
  else
    match fuel with
    | O => Undef "copyin: fuel"
    | S fuel' =>
        let va0 := PGROUNDDOWN srcva in
        v ← (if walkaddr pt va0 (ph v) =? 0
             then '(_, v) ← vmfault pt va0 0 v; Ret v else Ret v);
        let pa0 := walkaddr pt va0 (ph v) in
        if pa0 =? 0 then Ret (None, v)
        else
          let n := Z.min (PGSIZE - (srcva - va0)) len in
          let bytes := mem_bytes (mem (ph v)) (pa0 + (srcva - va0)) (Z.to_nat n) in
          '(rest, v) ← copyin fuel' pt (u64 (va0 + PGSIZE)) (len - n) v;
          Ret (option_map (app bytes) rest, v)
    end.

(** The inner loop of [copyinstr]: bytes up to a NUL or [n] of them. *)
Fixpoint take_str (bytes : list Z) : list Z * bool :=
  match bytes with
  | [] => ([], false)
  | b :: rest => if b =? 0 then ([0], true)
                 else let '(r, got) := take_str rest in (b :: r, got)
  end.

Fixpoint copyinstr (fuel : nat) (pt srcva max : Z) (v : vm) : outcome (option (list Z) * vm) :=
  if max <=? 0 then Ret (None, v)
  else
    match fuel with
    | O => Undef "copyinstr: fuel"
    | S fuel' =>
        let va0 := PGROUNDDOWN srcva in
        v ← (if walkaddr pt va0 (ph v) =? 0
             then '(_, v) ← vmfault pt va0 0 v; Ret v else Ret v);
        let pa0 := walkaddr pt va0 (ph v) in
        if pa0 =? 0 then Ret (None, v)
        else
          let n := Z.min (PGSIZE - (srcva - va0)) max in
          let '(str, got_null) :=
            take_str (mem_bytes (mem (ph v)) (pa0 + (srcva - va0)) (Z.to_nat n)) in
          if (got_null : bool) then Ret (Some str, v)
          else
            '(rest, v) ← copyinstr fuel' pt (u64 (va0 + PGSIZE)) (max - n) v;
            Ret (option_map (app str) rest, v)
    end.

(** ** fork's memory copy

    The child's paging fields are returned beside the state. *)

Fixpoint uvmcopy_loop (fuel : nat) (old new i sz : Z) (child : vproc) (v : vm)
    : outcome (Z * vproc * vm) :=
  if i <? sz then
    match fuel with
    | O => Undef "uvmcopy: fuel"
    | S fuel' =>
        '(pte, _) ← walk old i false (ph v);
        let x := ld (mem (ph v)) pte in
        if (pte =? 0) || negb (has_flag x PTE_V) then
          uvmcopy_loop fuel' old new (u64 (i + PGSIZE)) sz child v
        else
          '(page, v) ← kalloc_or_evict v;
          if page =? 0 then
            s ← uvmunmap new 0 (i / PGSIZE) true (ph v);
            Ret (-1, child, {| v with ph := s |})
          else
            let s := mk_phys (memmove (mem (ph v)) page (PTE2PA x) PGSIZE) (freelist (ph v)) in
            '(r, s) ← mappages new i PGSIZE page (PTE_FLAGS x) s;
            if negb (r =? 0) then
              s ← kfree kend page s;
              s ← uvmunmap new 0 (i / PGSIZE) true s;
              Ret (-1, child, {| v with ph := s |})
            else
              let '(k, child) := pgmeta_alloc i child in
              let child := match k with
                           | Some _ => note_resident k (PTE_FLAGS x) child
                           | None => child
                           end in
              uvmcopy_loop fuel' old new (u64 (i + PGSIZE)) sz child {| v with ph := s |}
    end
  else Ret (0, child, v).

Definition uvmcopy (old new sz : Z) (child : vproc) (v : vm) : outcome (Z * vproc * vm) :=
  uvmcopy_loop (S (Z.to_nat (sz / PGSIZE + 1))) old new 0 sz child v.

End vm.
End Vm.
