(* ===== verification/PageTable.v ===== *)
(** * Page tables as maps from page numbers to entries

    Every physical page has one use, given by a ghost function; that no two
    uses coincide is what makes a store to one entry leave all others alone. *)
From S2P Require Import Prelude Mem MemFacts Vm.
Import Mem Vm.

#[local] Open Scope Z_scope.

(** What a page is used for: free, a table of the tree (with its path), a
    user page (with its page number), anything else. *)
Inductive page_use :=
| Free
| Tbl2
| Tbl1 (a : Z)
| Tbl0 (a b : Z)
| User (vpn : Z)
| Other.

Definition is_table (u : page_use) : bool :=
  match u with Tbl2 | Tbl1 _ | Tbl0 _ _ => true | _ => false end.

Definition page_of (x : Z) : Z := x - x mod 4096.

(** The table an entry leads to. *)
Definition child (m : memory) (pt i : Z) : option Z :=
  let e := ld m (pt + 8 * i) in if has_flag e PTE_V then Some (PTE2PA e) else None.

(** The address of the entry of page [va] in the tree of [r], and the entry,
    0 when there is none. *)
Definition pte_addr (m : memory) (r va : Z) : option Z :=
  c ← child m r (PX 2 va); d ← child m c (PX 1 va); Some (d + 8 * PX 0 va).

Definition leaf (m : memory) (r va : Z) : Z :=
  match pte_addr m r va with Some a => ld m a | None => 0 end.

Section pt.
Context (kend : Z) (Hkend : 4096 <= kend <= PHYSTOP).

Local Notation ram := (ram kend).

Record pt_inv (own : Z -> page_use) (m : memory) (r : Z) : Prop := {
  pi_root : ram r /\ own r = Tbl2;
  pi_1 : forall a c, 0 <= a < 512 -> child m r a = Some c ->
    has_flag (ld m (r + 8 * a)) PTE_LEAF = false /\ ram c /\ own c = Tbl1 a;
  pi_0 : forall a b c d, 0 <= a < 512 -> 0 <= b < 512 -> child m r a = Some c -> child m c b = Some d ->
    has_flag (ld m (c + 8 * b)) PTE_LEAF = false /\ ram d /\ own d = Tbl0 a b;
  pi_user : forall va, 0 <= va < MAXVA -> has_flag (leaf m r va) PTE_V = true ->
    has_flag (leaf m r va) PTE_U = true ->
    ram (PTE2PA (leaf m r va)) /\ own (PTE2PA (leaf m r va)) = User (va / 4096)
}.

(** ** Frames *)

Lemma page_of_offset p o : p mod 4096 = 0 -> 0 <= o < 4096 -> page_of (p + o) = p.
Proof.
  intros Hp Ho. unfold page_of. rewrite Z.add_mod, Hp, Z.add_0_l, Z.mod_mod, Z.mod_small by lia. lia.
Qed.

(** The eight bytes of an entry lie in its table's page. *)
Lemma entry_page p i x : ram p -> 0 <= i < 512 -> p + 8 * i <= x < p + 8 * i + 8 -> page_of x = p.
Proof.
  intros [Hp _] Hi Hx. replace x with (p + (x - p)) by lia. apply page_of_offset; [exact Hp|lia].
Qed.

(** Memory changes outside the tables. *)
Definition tables_kept (own : Z -> page_use) (m m' : memory) : Prop :=
  forall x, is_table (own (page_of x)) = true -> m' x = m x.

Lemma tables_kept_ld own m m' p i :
  tables_kept own m m' -> ram p -> is_table (own p) = true -> 0 <= i < 512 ->
  ld m' (p + 8 * i) = ld m (p + 8 * i).
Proof.
  intros Hk Hp Ht Hi. apply ld_ext. intros x Hx. apply Hk.
  by rewrite (entry_page p i) by done.
Qed.

Lemma tables_kept_child own m m' p i :
  tables_kept own m m' -> ram p -> is_table (own p) = true -> 0 <= i < 512 ->
  child m' p i = child m p i.
Proof. intros Hk Hp Ht Hi. unfold child. by rewrite (tables_kept_ld own m m'). Qed.

Lemma PX0 va : 0 <= PX 0 va < 512. Proof. by apply PX_range. Qed.
Lemma PX1 va : 0 <= PX 1 va < 512. Proof. by apply PX_range. Qed.
Lemma PX2 va : 0 <= PX 2 va < 512. Proof. by apply PX_range. Qed.

Lemma tables_kept_pte own m m' r va :
  pt_inv own m r -> tables_kept own m m' ->
  pte_addr m' r va = pte_addr m r va /\ leaf m' r va = leaf m r va.
Proof.
  intros Hi Hk. destruct (pi_root own m r Hi) as [Hr Hor].
  assert (is_table (own r) = true) as Htr by by rewrite Hor.
  unfold leaf, pte_addr. rewrite (tables_kept_child own m m' r _ Hk Hr Htr (PX2 va)).
  destruct (child m r (PX 2 va)) as [c|] eqn:Hc; [|done]. simpl.
  destruct (pi_1 own m r Hi _ _ (PX2 va) Hc) as (_ & Hrc & Hoc).
  assert (is_table (own c) = true) as Htc by by rewrite Hoc.
  rewrite (tables_kept_child own m m' c _ Hk Hrc Htc (PX1 va)).
  destruct (child m c (PX 1 va)) as [d|] eqn:Hd; [|done]. simpl.
  destruct (pi_0 own m r Hi _ _ _ _ (PX2 va) (PX1 va) Hc Hd) as (_ & Hrd & Hod).
  assert (is_table (own d) = true) as Htd by by rewrite Hod.
  split; [done|]. apply (tables_kept_ld own); try done. apply PX0.
Qed.

(** The invariant under a change of memory outside the tables and a change of
    the use of free and other pages. *)
Lemma pt_inv_frame own own' m m' r :
  pt_inv own m r -> tables_kept own m m' ->
  (forall p, own p <> Free -> own p <> Other -> own' p = own p) -> pt_inv own' m' r.
Proof.
  intros Hi Hk Hown. destruct (pi_root own m r Hi) as [Hr Hor].
  assert (is_table (own r) = true) as Htr by by rewrite Hor.
  assert (forall a, 0 <= a < 512 -> child m' r a = child m r a) as Hcr.
  { intros a Ha. by apply (tables_kept_child own). }
  assert (forall a b c, 0 <= a < 512 -> 0 <= b < 512 -> child m r a = Some c -> child m' c b = child m c b) as Hcc.
  { intros a b c Ha Hb Hc. destruct (pi_1 own m r Hi a c Ha Hc) as (_ & Hrc & Hoc).
    apply (tables_kept_child own); try done. by rewrite Hoc. }
  split.
  - split; [done|]. rewrite Hown; congruence.
  - intros a c Ha Hc. rewrite Hcr in Hc by done. destruct (pi_1 own m r Hi a c Ha Hc) as (Hl & Hrc & Hoc).
    rewrite (tables_kept_ld own m m' r a Hk Hr Htr Ha). split_and!; [done|done|]. rewrite Hown; congruence.
  - intros a b c d Ha Hb Hc Hd. rewrite Hcr in Hc by done. rewrite (Hcc a b c) in Hd by done.
    destruct (pi_0 own m r Hi a b c d Ha Hb Hc Hd) as (Hl & Hrd & Hod).
    destruct (pi_1 own m r Hi a c Ha Hc) as (_ & Hrc & Hoc).
    rewrite (tables_kept_ld own m m' c b Hk Hrc) by (rewrite ?Hoc; done).
    split_and!; [done|done|]. rewrite Hown; congruence.
  - intros va Hva. destruct (tables_kept_pte own m m' r va Hi Hk) as [_ ->]. intros Hv Hu.
    destruct (pi_user own m r Hi va Hva Hv Hu) as [Hru Hou]. split; [done|]. rewrite Hown; congruence.
Qed.

(** ** Walking without allocation *)

Lemma has_flag_child m p i c : child m p i = Some c ->
  has_flag (ld m (p + 8 * i)) PTE_V = true /\ PTE2PA (ld m (p + 8 * i)) = c.
Proof. unfold child. destruct (has_flag _ _); [|done]. by intros [= <-]. Qed.

Lemma has_flag_no_child m p i : child m p i = None -> has_flag (ld m (p + 8 * i)) PTE_V = false.
Proof. unfold child. by destruct (has_flag _ _). Qed.

Lemma walk_lookup own s r va :
  pt_inv own (mem s) r -> walk_from 2 r va false s = (default 0 (pte_addr (mem s) r va), s).
Proof.
  intros Hi. unfold pte_addr. cbn [walk_from].
  change (Z.of_nat 2) with 2. change (Z.of_nat 1) with 1. change (Z.of_nat 0) with 0.
  destruct (child (mem s) r (PX 2 va)) as [c|] eqn:Hc.
  2:{ by rewrite (has_flag_no_child _ _ _ Hc). }
  destruct (has_flag_child _ _ _ _ Hc) as [-> ->].
  destruct (pi_1 own _ r Hi _ _ (PX2 va) Hc) as (-> & Hrc & Hoc). simpl.
  destruct (child (mem s) c (PX 1 va)) as [d|] eqn:Hd.
  2:{ by rewrite (has_flag_no_child _ _ _ Hd). }
  destruct (has_flag_child _ _ _ _ Hd) as [-> ->].
  by destruct (pi_0 own _ r Hi _ _ _ _ (PX2 va) (PX1 va) Hc Hd) as (-> & _ & _).
Qed.

Lemma pte_addr_pos own m r va a :
  pt_inv own m r -> pte_addr m r va = Some a ->
  exists d i, a = d + 8 * i /\ 0 <= i < 512 /\ ram d /\ a <> 0 /\ own d = Tbl0 (PX 2 va) (PX 1 va) /\ i = PX 0 va.
Proof.
  intros Hi Ha. unfold pte_addr in Ha. apply bind_Some in Ha as (c & Hc & Ha).
  apply bind_Some in Ha as (d & Hd & [= <-]).
  destruct (pi_0 own m r Hi _ _ _ _ (PX2 va) (PX1 va) Hc Hd) as (_ & Hrd & Hod).
  exists d, (PX 0 va). pose proof (PX0 va). split_and!; try done; try lia.
  destruct Hrd as [_ Hrd]. lia.
Qed.

(** ** Storing an entry of the last level *)

Lemma same_vpn va va' : 0 <= va < MAXVA -> 0 <= va' < MAXVA ->
  va / 4096 = va' / 4096 <-> PX 2 va = PX 2 va' /\ PX 1 va = PX 1 va' /\ PX 0 va = PX 0 va'.
Proof.
  intros H1 H2. rewrite (vpn_split va H1), (vpn_split va' H2).
  pose proof (PX0 va). pose proof (PX0 va'). pose proof (PX1 va). pose proof (PX1 va').
  pose proof (PX2 va). pose proof (PX2 va'). lia.
Qed.

(** A store into a last-level table leaves the upper tables alone. *)
Lemma store_leaf_children own m r d i v x y :
  pt_inv own m r -> ram d -> own d = Tbl0 x y -> 0 <= i < 512 ->
  forall p j, ram p -> (forall x y, own p <> Tbl0 x y) -> 0 <= j < 512 ->
  ld (st m (d + 8 * i) v) (p + 8 * j) = ld m (p + 8 * j).
Proof.
  intros Hi Hd Hod Hir p j Hp Hop Hj. apply ld_st_other.
  destruct (ram_apart kend d p Hd Hp) as [?|?]; [|lia|lia]. intros ->. by eapply Hop.
Qed.

Lemma store_leaf_lookup own m r va v a :
  pt_inv own m r -> 0 <= va < MAXVA -> pte_addr m r va = Some a -> 0 <= v < 2 ^ 64 ->
  forall va', 0 <= va' < MAXVA ->
     pte_addr (st m a v) r va' = pte_addr m r va' /\
     leaf (st m a v) r va' = if va' / 4096 =? va / 4096 then v else leaf m r va'.
Proof.
  intros Hi Hva Ha Hv va' Hva'.
  destruct (pte_addr_pos _ _ _ _ _ Hi Ha) as (d & i & -> & Hir & Hrd & _ & Hod & ->).
  pose proof (store_leaf_children own m r d (PX 0 va) v _ _ Hi Hrd Hod Hir) as Hst.
  destruct (pi_root own m r Hi) as [Hr Hor].
  assert (pte_addr (st m (d + 8 * PX 0 va) v) r va' = pte_addr m r va') as Haddr.
  { unfold pte_addr.
    assert (child (st m (d + 8 * PX 0 va) v) r (PX 2 va') = child m r (PX 2 va')) as ->.
    { unfold child. rewrite Hst by (done || congruence || apply PX2). done. }
    destruct (child m r (PX 2 va')) as [c|] eqn:Hc; [|done]. simpl.
    destruct (pi_1 own m r Hi _ _ (PX2 va') Hc) as (_ & Hrc & Hoc).
    unfold child. rewrite Hst by (done || congruence || apply PX1). done. }
  split; [done|]. unfold leaf. rewrite Haddr.
  destruct (pte_addr m r va') as [a'|] eqn:Ha'.
  - destruct (pte_addr_pos _ _ _ _ _ Hi Ha') as (d' & i' & -> & Hir' & Hrd' & _ & Hod' & ->).
    destruct (Z.eqb_spec (va' / 4096) (va / 4096)) as [Heq|Hne].
    + apply same_vpn in Heq as (H2 & H1 & H0); [|done..].
      assert (pte_addr m r va' = pte_addr m r va) as Hsame by (unfold pte_addr; by rewrite H2, H1, H0).
      rewrite Ha, Ha' in Hsame. injection Hsame as ->. by apply ld_st_same.
    + apply ld_st_other. destruct (Z.eq_dec d d') as [<-|Hdd].
      * assert (PX 0 va <> PX 0 va') as Hne0; [|lia]. intros H0. apply Hne, same_vpn; [done..|].
        rewrite Hod in Hod'. by injection Hod' as -> ->.
      * destruct (ram_apart kend d d' Hrd Hrd' Hdd); lia.
  - destruct (Z.eqb_spec (va' / 4096) (va / 4096)) as [Heq|Hne]; [|done].
    apply same_vpn in Heq as (H2 & H1 & H0); [|done..]. exfalso.
    unfold pte_addr in Ha, Ha'. rewrite H2, H1, H0, Ha in Ha'. done.
Qed.

Lemma store_leaf_inv own own' m r va v a :
  pt_inv own m r -> 0 <= va < MAXVA -> pte_addr m r va = Some a -> 0 <= v < 2 ^ 64 ->
  (forall p, (forall n, own p = User n -> n <> va / 4096) -> own p <> Free -> own p <> Other ->
     own' p = own p) ->
  (has_flag v PTE_V = true -> has_flag v PTE_U = true ->
     ram (PTE2PA v) /\ own' (PTE2PA v) = User (va / 4096)) ->
  pt_inv own' (st m a v) r.
Proof.
  intros Hi Hva Ha Hv Hown Huser.
  pose proof (store_leaf_lookup own m r va v a Hi Hva Ha Hv) as Hlook.
  destruct (pte_addr_pos _ _ _ _ _ Hi Ha) as (d & i & -> & Hir & Hrd & _ & Hod & ->).
  pose proof (store_leaf_children own m r d (PX 0 va) v _ _ Hi Hrd Hod Hir) as Hst.
  destruct (pi_root own m r Hi) as [Hr Hor].
  assert (forall p, is_table (own p) = true -> own' p = own p) as Htab.
  { intros p Ht. apply Hown; [intros n Hn|..]; intros H; rewrite ?Hn, ?H in Ht; done. }
  assert (forall x, 0 <= x < 512 -> child (st m (d + 8 * PX 0 va) v) r x = child m r x) as Hc1.
  { intros x Hx. unfold child. rewrite Hst by (done || congruence). done. }
  assert (forall x y c, 0 <= x < 512 -> 0 <= y < 512 -> child m r x = Some c ->
            ld (st m (d + 8 * PX 0 va) v) (c + 8 * y) = ld m (c + 8 * y)) as Hc0.
  { intros x y c Hx Hy Hc. destruct (pi_1 own m r Hi x c Hx Hc) as (_ & Hrc & Hoc).
    apply Hst; [done|congruence|done]. }
  split.
  - split; [done|]. rewrite Htab; by rewrite Hor.
  - intros x c Hx Hc. rewrite Hc1 in Hc by done. destruct (pi_1 own m r Hi x c Hx Hc) as (Hl & Hrc & Hoc).
    rewrite Hst by (done || congruence). split_and!; [done|done|]. rewrite Htab; by rewrite Hoc.
  - intros x y c e Hx Hy Hc He. rewrite Hc1 in Hc by done.
    assert (child m c y = Some e) as He' by (unfold child in *; by rewrite (Hc0 x y c) in He).
    destruct (pi_0 own m r Hi x y c e Hx Hy Hc He') as (Hl & Hre & Hoe).
    rewrite (Hc0 x y c) by done. split_and!; [done|done|]. rewrite Htab; by rewrite Hoe.
  - intros va' Hva'. destruct (Hlook va' Hva') as [_ ->].
    destruct (Z.eqb_spec (va' / 4096) (va / 4096)) as [->|Hne]; [exact Huser|].
    intros Hv' Hu'. destruct (pi_user own m r Hi va' Hva' Hv' Hu') as [Hru Hou]. split; [done|].
    rewrite Hown; [done| |congruence|congruence]. intros n Hn. congruence.
Qed.

(** ** Installing a new table *)

Definition use_page (q : Z) (u : page_use) (own : Z -> page_use) : Z -> page_use :=
  fun p => if p =? q then u else own p.

Lemma use_page_same q u own : use_page q u own q = u.
Proof. unfold use_page. by rewrite Z.eqb_refl. Qed.

Lemma use_page_other q u own p : p <> q -> use_page q u own p = own p.
Proof. intros H. unfold use_page. by destruct (Z.eqb_spec p q). Qed.

(** Page [q] was free; it is all zeros in [m1], which is [m] elsewhere, and
    the entry [j] of table [p] is made to point to it. *)
Record install (own : Z -> page_use) (m m2 : memory) (q p j : Z) : Prop := {
  in_free : own q = Free /\ ram q;
  in_table : ram p /\ is_table (own p) = true /\ 0 <= j < 512 /\ child m p j = None;
  in_new : child m2 p j = Some q /\ has_flag (ld m2 (p + 8 * j)) PTE_LEAF = false;
  in_zero : forall i, 0 <= i < 512 -> ld m2 (q + 8 * i) = 0;
  in_old : forall p' i, ram p' -> is_table (own p') = true -> 0 <= i < 512 -> p' <> p \/ i <> j ->
    ld m2 (p' + 8 * i) = ld m (p' + 8 * i)
}.

Lemma mk_pte_no_leaf q : is_page q -> has_flag (mk_pte q 0) PTE_LEAF = false.
Proof.
  intros Hq. rewrite has_flag_mk_pte; [done|done|lia|].
  change PTE_LEAF with 14. lia.
Qed.

Lemma install_st own m m1 q p j :
  own q = Free -> ram q -> ram p -> is_table (own p) = true -> 0 <= j < 512 -> child m p j = None ->
  (forall x, page_of x <> q -> m1 x = m x) -> (forall i, 0 <= i < 512 -> ld m1 (q + 8 * i) = 0) ->
  install own m (st m1 (p + 8 * j) (mk_pte q 0)) q p j.
Proof.
  intros Hf Hq Hp Htp Hj Hc Hout Hz. pose proof (ram_is_page kend Hkend q Hq) as Hpq.
  pose proof (mk_pte_range q 0 Hpq ltac:(lia)) as Hrange.
  assert (p <> q) as Hpq' by (intros ->; by rewrite Hf in Htp).
  split; try done.
  - unfold child. rewrite ld_st_same by done.
    rewrite mk_pte_valid by (done || lia). rewrite PTE2PA_mk_pte by (done || lia).
    split; [done|]. by apply mk_pte_no_leaf.
  - intros i Hi. rewrite ld_st_other; [by apply Hz|].
    destruct (ram_apart kend p q Hp Hq Hpq'); lia.
  - intros p' i Hp' Ht' Hi Hne. rewrite ld_st_other.
    + apply ld_ext. intros x Hx. apply Hout. rewrite (entry_page p' i) by done.
      intros ->. by rewrite Hf in Ht'.
    + destruct (Z.eq_dec p p') as [->|Hpp]; [lia|]. destruct (ram_apart kend p p' Hp Hp' Hpp); lia.
Qed.

(** A free page is not part of the tree. *)
Lemma install_children own m m2 q p j p' i :
  install own m m2 q p j -> ram p' -> is_table (own p') = true -> 0 <= i < 512 ->
  child m2 p' i = if decide (p' = p /\ i = j) then Some q else child m p' i.
Proof.
  intros [_ _ [Hnew _] _ Hold] Hp' Ht' Hi. destruct (decide _) as [[-> ->]|Hne]; [done|].
  unfold child. rewrite Hold; [done|done|done|done|].
  destruct (decide (p' = p)) as [->|]; [right; intros ->; tauto|by left].
Qed.

Lemma install_zero_child own m m2 q p j i : install own m m2 q p j -> 0 <= i < 512 -> child m2 q i = None.
Proof. intros [] Hi. unfold child. by rewrite in_zero0. Qed.

Lemma install_leaf own m m2 q p j r va :
  pt_inv own m r -> install own m m2 q p j ->
  (p = r \/ exists a, 0 <= a < 512 /\ child m r a = Some p /\ own p = Tbl1 a) ->
  leaf m2 r va = leaf m r va.
Proof.
  intros Hi Hin Hp. destruct (pi_root own m r Hi) as [Hr Hor].
  assert (is_table (own r) = true) as Htr by by rewrite Hor.
  pose proof (in_table _ _ _ _ _ _ Hin) as (Hrp & Htp & Hj & Hnone).
  unfold leaf, pte_addr. rewrite (install_children own m m2 q p j r) by (done || apply PX2).
  destruct (decide (r = p /\ PX 2 va = j)) as [[-> <-]|Hne].
  { simpl. rewrite (install_zero_child own m m2 q p _ _ Hin) by apply PX1. by rewrite Hnone. }
  destruct (child m r (PX 2 va)) as [c|] eqn:Hc; [|done]. simpl.
  destruct (pi_1 own m r Hi _ _ (PX2 va) Hc) as (_ & Hrc & Hoc).
  assert (is_table (own c) = true) as Htc by by rewrite Hoc.
  rewrite (install_children own m m2 q p j c) by (done || apply PX1).
  destruct (decide (c = p /\ PX 1 va = j)) as [[-> <-]|Hne1].
  { simpl. rewrite Hnone. apply (in_zero _ _ _ _ _ _ Hin), PX0. }
  destruct (child m c (PX 1 va)) as [d|] eqn:Hd; [|done]. simpl.
  destruct (pi_0 own m r Hi _ _ _ _ (PX2 va) (PX1 va) Hc Hd) as (_ & Hrd & Hod).
  apply (in_old _ _ _ _ _ _ Hin); [done|by rewrite Hod|apply PX0|]. left. intros ->.
  destruct Hp as [->|(a & _ & _ & Hop)]; congruence.
Qed.

Lemma install_inv own m m2 q p j r u :
  pt_inv own m r -> install own m m2 q p j ->
  (p = r /\ u = Tbl1 j \/ exists a, 0 <= a < 512 /\ child m r a = Some p /\ own p = Tbl1 a /\ u = Tbl0 a j) ->
  pt_inv (use_page q u own) m2 r.
Proof.
  intros Hi Hin Hp. destruct (pi_root own m r Hi) as [Hr Hor].
  assert (is_table (own r) = true) as Htr by by rewrite Hor.
  pose proof (in_table _ _ _ _ _ _ Hin) as (Hrp & Htp & Hj & Hnone).
  pose proof (in_free _ _ _ _ _ _ Hin) as [Hfq Hrq].
  pose proof (in_new _ _ _ _ _ _ Hin) as [Hnew Hnl].
  assert (forall p, own p <> Free -> use_page q u own p = own p) as Hkeep.
  { intros x Hx. apply use_page_other. intros ->. done. }
  assert (forall va, leaf m2 r va = leaf m r va) as Hleaf.
  { intros va. eapply install_leaf; [done..|].
    destruct Hp as [[-> _]|(a & Ha & Hca & Hop & _)]; [by left|right; by exists a]. }
  split.
  - split; [done|]. rewrite Hkeep; congruence.
  - intros a c Ha Hc. rewrite (install_children own m m2 q p j r) in Hc by done.
    destruct (decide (r = p /\ a = j)) as [[-> ->]|Hne].
    + injection Hc as <-. split_and!; [done|done|]. rewrite use_page_same.
      destruct Hp as [[_ ->]|(a & Ha' & Hca & Hop & _)]; [done|]. congruence.
    + destruct (pi_1 own m r Hi a c Ha Hc) as (Hl & Hrc & Hoc).
      split_and!; [|done|rewrite Hkeep; congruence].
      rewrite (in_old _ _ _ _ _ _ Hin); [done..|].
      destruct (decide (r = p)) as [->|]; [right; intros ->; tauto|by left].
  - intros a b c d Ha Hb Hc Hd. rewrite (install_children own m m2 q p j r) in Hc by done.
    destruct (decide (r = p /\ a = j)) as [[-> ->]|Hne].
    { injection Hc as <-. by rewrite (install_zero_child own m m2 q p j b Hin) in Hd. }
    destruct (pi_1 own m r Hi a c Ha Hc) as (_ & Hrc & Hoc).
    assert (is_table (own c) = true) as Htc by by rewrite Hoc.
    rewrite (install_children own m m2 q p j c) in Hd by done.
    destruct (decide (c = p /\ b = j)) as [[-> ->]|Hne1].
    + injection Hd as <-. split_and!; [done|done|]. rewrite use_page_same.
      destruct Hp as [[-> _]|(a' & Ha' & Hca & Hop & ->)]; congruence.
    + destruct (pi_0 own m r Hi a b c d Ha Hb Hc Hd) as (Hl & Hrd & Hod).
      split_and!; [|done|rewrite Hkeep; congruence].
      rewrite (in_old _ _ _ _ _ _ Hin); [done..|].
      destruct (decide (c = p)) as [->|]; [right; intros ->; tauto|by left].
  - intros va Hva. rewrite Hleaf. intros Hv Hu.
    destruct (pi_user own m r Hi va Hva Hv Hu) as [Hru Hou]. split; [done|]. rewrite Hkeep; congruence.
Qed.

(** ** The state of the allocator and a page table *)

Record vm_inv (own : Z -> page_use) (l : list Z) (s : phys) (r : Z) : Prop := {
  vi_free : free_pages kend s l;
  vi_own : forall q, q ∈ l -> own q = Free;
  vi_pt : pt_inv own (mem s) r
}.

(** Taking a page from the free list, for use [Other]. *)
Lemma kalloc_inv own l s r :
  vm_inv own l s r ->
  match l with
  | [] => kalloc s = (0, s)
  | q :: l' => exists s', kalloc s = (q, s') /\ ram q /\ own q = Free /\
      vm_inv (use_page q Other own) l' s' r /\
      (forall x, page_of x <> q -> mem s' x = mem s x)
  end.
Proof.
  intros [Hf Ho Hi]. pose proof (kalloc_spec kend Hkend s l Hf) as Hk.
  destruct l as [|q l']; [done|]. destruct Hk as (s' & Hk & Hf' & Hm).
  pose proof (chain_ram kend _ _ _ q Hf ltac:(by left)) as Hrq.
  pose proof (Ho q ltac:(by left)) as Hoq.
  assert (q ∉ l') as Hni by (destruct Hf as (_ & _ & ? & _); done).
  assert (forall x, page_of x <> q -> mem s' x = mem s x) as Hout.
  { intros x Hx. apply Hm. destruct Hrq as [Hal _]. unfold PGSIZE in Hal.
    destruct (Z.lt_ge_cases x q); [by left|]. destruct (Z.lt_ge_cases x (q + 4096)); [|by right].
    exfalso. apply Hx. replace x with (q + (x - q)) by lia. apply page_of_offset; [done|lia]. }
  exists s'. split_and!; [done|done|done| |done]. split; [done| |].
  - intros x Hx. rewrite use_page_other; [apply Ho; by right|]. intros ->. done.
  - eapply pt_inv_frame; [exact Hi| |].
    + intros x Ht. apply Hout. intros Hq. rewrite Hq, Hoq in Ht. done.
    + intros p Hp _. apply use_page_other. intros ->. done.
Qed.

(** Memory of pages that are neither free nor tables is kept. *)
Definition users_kept (own : Z -> page_use) (m m' : memory) : Prop :=
  forall x, own (page_of x) <> Free -> is_table (own (page_of x)) = false -> m' x = m x.

Definition uses_kept (own own' : Z -> page_use) : Prop := forall p, own p <> Free -> own' p = own p.

Lemma free_pages_frame own l s m' :
  free_pages kend s l -> (forall q, q ∈ l -> own q = Free) ->
  (forall x, own (page_of x) = Free -> page_of x ∈ l -> m' x = mem s x) ->
  free_pages kend (mk_phys m' (freelist s)) l.
Proof.
  intros Hf Ho Hm. unfold free_pages. simpl. eapply chain_ext; [|exact Hf]. intros q Hq.
  pose proof (chain_ram kend _ _ _ q Hf Hq) as Hrq.
  apply ld_ext. intros x Hx. symmetry.
  assert (page_of x = q) as Hpx.
  { apply (entry_page q 0); [done|lia|]. lia. }
  apply Hm; rewrite Hpx; [by apply Ho|done].
Qed.

Lemma new_table_inv own l s r p j u :
  vm_inv own l s r -> ram p -> is_table (own p) = true -> 0 <= j < 512 -> child (mem s) p j = None ->
  (p = r /\ u = Tbl1 j \/
   exists a, 0 <= a < 512 /\ child (mem s) r a = Some p /\ own p = Tbl1 a /\ u = Tbl0 a j) ->
  match l with
  | [] => kalloc s = (0, s)
  | q :: l' => exists s1, kalloc s = (q, s1) /\ q <> 0 /\
      let m2 := st (memset (mem s1) q 0 PGSIZE) (p + 8 * j) (Z.lor (PA2PTE q) PTE_V) in
      let s2 := mk_phys m2 (freelist s1) in
      vm_inv (use_page q u own) l' s2 r /\ child m2 p j = Some q /\ uses_kept own (use_page q u own) /\
      (forall va, leaf m2 r va = leaf (mem s) r va) /\ users_kept own (mem s) m2 /\
      (forall i, 0 <= i < 512 -> child m2 q i = None) /\ ram q /\
      (forall p' i, ram p' -> is_table (own p') = true -> 0 <= i < 512 -> p' <> p -> child m2 p' i = child (mem s) p' i)
  end.
Proof.
  intros Hvi Hrp Htp Hj Hnone Hu. pose proof (kalloc_inv own l s r Hvi) as Hk.
  destruct l as [|q l']; [done|]. destruct Hk as (s1 & Hk & Hrq & Hoq & [Hf1 Ho1 Hi1] & Hout).
  destruct Hvi as [Hf Ho Hi]. exists s1. split; [done|]. split; [apply (ram_nonzero kend Hkend q Hrq)|].
  cbv zeta. set (m1 := memset (mem s1) q 0 PGSIZE).
  assert (Z.lor (PA2PTE q) PTE_V = mk_pte q 0) as -> by (unfold mk_pte; by rewrite Z.lor_0_r).
  assert (install own (mem s) (st m1 (p + 8 * j) (mk_pte q 0)) q p j) as Hin.
  { apply install_st; try done.
    - intros x Hx. unfold m1. rewrite memset_out; [by apply Hout|].
      destruct Hrq as [Hal _]. unfold PGSIZE in *.
      destruct (Z.lt_ge_cases x q); [by left|]. destruct (Z.lt_ge_cases x (q + 4096)); [|by right].
      exfalso. apply Hx. replace x with (q + (x - q)) by lia. apply page_of_offset; [done|lia].
    - intros i Hi'. unfold m1. apply ld_memset_zero; unfold PGSIZE; lia. }
  assert (p <> q) as Hpq by (intros ->; by rewrite Hoq in Htp).
  assert (forall x, page_of x <> q -> page_of x <> p -> st m1 (p + 8 * j) (mk_pte q 0) x = mem s x) as Hsame.
  { intros x Hxq Hxp. rewrite st_other.
    - unfold m1. rewrite memset_out; [by apply Hout|].
      destruct Hrq as [Hal _]. unfold PGSIZE in *.
      destruct (Z.lt_ge_cases x q); [by left|]. destruct (Z.lt_ge_cases x (q + 4096)); [|by right].
      exfalso. apply Hxq. replace x with (q + (x - q)) by lia. apply page_of_offset; [done|lia].
    - destruct (Z.lt_ge_cases x (p + 8 * j)); [by left|].
      destruct (Z.lt_ge_cases x (p + 8 * j + 8)); [|by right].
      exfalso. apply Hxp. by apply (entry_page p j). }
  assert (q ∉ l') as Hni by (destruct Hf as (_ & _ & ? & _); done).
  split_and!.
  - split.
    + apply (free_pages_frame (use_page q Other own) l' s1); [done|done|].
      intros x Hfx Hx. rewrite Hsame.
      * symmetry. apply Hout. intros Hxq. by rewrite Hxq in Hx.
      * intros Hxq. by rewrite Hxq in Hx.
      * intros Hxp. rewrite Hxp, use_page_other in Hfx by done. by rewrite Hfx in Htp.
    + intros x Hx. rewrite use_page_other; [apply Ho; by right|]. intros ->. done.
    + by eapply install_inv.
  - apply (in_new _ _ _ _ _ _ Hin).
  - intros x Hx. apply use_page_other. intros ->. done.
  - intros va. eapply install_leaf; [done..|].
    destruct Hu as [[-> _]|(a & Ha & Hca & Hop & _)]; [by left|right; by exists a].
  - intros x Hnf Hnt. apply Hsame; intros Hx; rewrite Hx in *; congruence.
  - intros i Hir. by apply (install_zero_child own (mem s) _ q p j).
  - done.
  - intros p' i Hp' Ht' Hir Hne. rewrite (install_children own (mem s) _ q p j) by done.
    by rewrite decide_False by tauto.
Qed.

Lemma walk_alloc own l s r va :
  vm_inv own l s r -> 0 <= va < MAXVA ->
  exists pte s' own' l' used, walk_from 2 r va true s = (pte, s') /\ (l = used ++ l' /\ (length used <= 2)%nat) /\
    vm_inv own' l' s' r /\ uses_kept own own' /\ users_kept own (mem s) (mem s') /\
    (forall va', leaf (mem s') r va' = leaf (mem s) r va') /\
    (pte = 0 /\ l' = [] /\ pte_addr (mem s) r va = None \/ pte_addr (mem s') r va = Some pte /\ pte <> 0).
Proof.
  intros Hvi Hva. pose proof (vi_pt _ _ _ _ Hvi) as Hi. destruct (pi_root _ _ _ Hi) as [Hr Hor].
  assert (is_table (own r) = true) as Htr by by rewrite Hor.
  (* the second step, from the table of the middle level *)
  assert (forall own l s c, vm_inv own l s r -> child (mem s) r (PX 2 va) = Some c ->
    exists pte s' own' l' used, walk_from 1 c va true s = (pte, s') /\ (l = used ++ l' /\ (length used <= 1)%nat) /\
    vm_inv own' l' s' r /\ uses_kept own own' /\ users_kept own (mem s) (mem s') /\
    (forall va', leaf (mem s') r va' = leaf (mem s) r va') /\
    (pte = 0 /\ l' = [] /\ pte_addr (mem s) r va = None \/ pte_addr (mem s') r va = Some pte /\ pte <> 0)) as Hstep1.
  { clear own l s Hvi Hi Hr Hor Htr. intros own l s c Hvi Hc. pose proof (vi_pt _ _ _ _ Hvi) as Hi.
    destruct (pi_1 _ _ _ Hi _ _ (PX2 va) Hc) as (_ & Hrc & Hoc).
    assert (is_table (own c) = true) as Htc by by rewrite Hoc.
    destruct (pi_root _ _ _ Hi) as [Hr Hor].
    cbn [walk_from]. change (Z.of_nat 1) with 1. change (Z.of_nat 0) with 0.
    destruct (child (mem s) c (PX 1 va)) as [d|] eqn:Hd.
    - destruct (has_flag_child _ _ _ _ Hd) as [-> ->].
      destruct (pi_0 _ _ _ Hi _ _ _ _ (PX2 va) (PX1 va) Hc Hd) as (-> & Hrd & Hod).
      eexists _, s, own, l, []. split_and!; try done; [simpl; lia|]. right.
      assert (pte_addr (mem s) r va = Some (d + 8 * PX 0 va)) as Ha
        by (unfold pte_addr; rewrite Hc; simpl; by rewrite Hd).
      split; [done|]. by destruct (pte_addr_pos _ _ _ _ _ Hi Ha) as (? & ? & _ & _ & _ & ? & _).
    - rewrite (has_flag_no_child _ _ _ Hd).
      pose proof (new_table_inv own l s r c (PX 1 va) (Tbl0 (PX 2 va) (PX 1 va)) Hvi Hrc Htc (PX1 va) Hd) as Hn.
      destruct l as [|q l'].
      + rewrite Hn by (right; exists (PX 2 va); split_and!; try done; apply PX2).
        simpl. exists 0, s, own, [], []. split_and!; try done; [simpl; lia|]. left. split_and!; [done|done|].
        unfold pte_addr. rewrite Hc. simpl. by rewrite Hd.
      + destruct Hn as (s1 & -> & Hq0 & Hvi2 & Hcq & Huk & Hleaf & Hus & Hqz & Hrq & Hoth).
        { right; exists (PX 2 va); split_and!; try done; apply PX2. }
        rewrite (proj2 (Z.eqb_neq q 0) Hq0).
        eexists _, _, _, l', [q]. split; [reflexivity|]. split; [done|]. split; [exact Hvi2|].
        split_and!; try done. right. simpl.
        assert (child (st (memset (mem s1) q 0 PGSIZE) (c + 8 * PX 1 va) (Z.lor (PA2PTE q) PTE_V)) r (PX 2 va) = Some c) as Hcr.
        { rewrite Hoth; [done|done|by rewrite Hor|apply PX2|congruence]. }
        split; [|destruct Hrq; pose proof (PX0 va); lia].
        unfold pte_addr. rewrite Hcr. simpl. by rewrite Hcq. }
  cbn [walk_from]. change (Z.of_nat 2) with 2.
  destruct (child (mem s) r (PX 2 va)) as [c|] eqn:Hc.
  - destruct (has_flag_child _ _ _ _ Hc) as [-> ->].
    destruct (pi_1 _ _ _ Hi _ _ (PX2 va) Hc) as (-> & _ & _). destruct (Hstep1 own l s c Hvi Hc) as (pte & s' & own' & l' & used & Hw & [Hl Hlen] & Hrest).
    exists pte, s', own', l', used. split; [exact Hw|]. split; [split; [done|lia]|exact Hrest].
  - rewrite (has_flag_no_child _ _ _ Hc).
    pose proof (new_table_inv own l s r r (PX 2 va) (Tbl1 (PX 2 va)) Hvi Hr Htr (PX2 va) Hc
                  (or_introl (conj eq_refl eq_refl))) as Hn.
    destruct l as [|q l'].
    + rewrite Hn. simpl. exists 0, s, own, [], []. split_and!; try done; [simpl; lia|]. left. split_and!; [done|done|].
      unfold pte_addr. by rewrite Hc.
    + destruct Hn as (s1 & -> & Hq0 & Hvi2 & Hcq & Huk & Hleaf & Hus & _ & Hrq & _).
      rewrite (proj2 (Z.eqb_neq q 0) Hq0).
      destruct (Hstep1 _ _ (mk_phys (st (memset (mem s1) q 0 PGSIZE) (r + 8 * PX 2 va) (Z.lor (PA2PTE q) PTE_V)) (freelist s1)) q Hvi2 Hcq)
        as (pte & s' & own' & l2 & used & Hw & [-> Hlen] & Hvi' & Huk' & Hus' & Hleaf' & Hres).
      exists pte, s', own', l2, (q :: used). split; [exact Hw|]. split; [split; [done|simpl; lia]|]. split; [exact Hvi'|].
      split_and!; [| | |].
      * intros p Hp. rewrite Huk'; by rewrite Huk.
      * intros x Hnf Hnt. rewrite Hus'; [by apply Hus|by rewrite Huk|by rewrite Huk].
      * intros va'. by rewrite Hleaf', <- Hleaf.
      * destruct Hres as [(-> & -> & _)|]; [left|by right]. split_and!; [done|done|].
        unfold pte_addr. by rewrite Hc.
Qed.

End pt.
