(* ===== verification/VmMap.v ===== *)
(** * mappages, uvmunmap and walkaddr as insert, delete and lookup *)
From S2P Require Import Prelude Mem MemFacts Vm PageTable.
Import Mem Vm.

#[local] Open Scope Z_scope.

(** The valid entry of a page. *)
Definition entry (s : phys) (r va : Z) : option Z :=
  if has_flag (leaf (mem s) r va) PTE_V then Some (leaf (mem s) r va) else None.

Lemma entry_leaf s s' r va : leaf (mem s') r va = leaf (mem s) r va -> entry s' r va = entry s r va.
Proof. unfold entry. by intros ->. Qed.

Section map.
Context (kend : Z) (Hkend : 4096 <= kend <= PHYSTOP).

Local Notation ram := (ram kend).
Local Notation vm_inv := (vm_inv kend).
Local Notation pt_inv := (pt_inv kend).

Lemma walk_ok pt va alloc s : 0 <= va < MAXVA -> walk pt va alloc s = Ret (walk_from 2 pt va alloc s).
Proof. intros Hva. unfold walk. by rewrite (proj2 (Z.leb_gt MAXVA va)) by lia. Qed.

(** A store into the entry of [va]; a page freed just before may still be the
    one the entry points to. *)
Lemma store_inv own own' l s r va v a :
  free_pages kend s l -> pt_inv own (mem s) r -> (forall q, q ∈ l -> is_table (own q) = false) ->
  0 <= va < MAXVA -> pte_addr (mem s) r va = Some a -> 0 <= v < 2 ^ 64 ->
  (forall p, (forall n, own p = User n -> n <> va / 4096) -> own p <> Free -> own p <> Other ->
     own' p = own p) ->
  (forall q, q ∈ l -> own' q = Free) ->
  (has_flag v PTE_V = true -> has_flag v PTE_U = true ->
     ram (PTE2PA v) /\ own' (PTE2PA v) = User (va / 4096)) ->
  vm_inv own' l (store a v s) r /\
  (forall va', 0 <= va' < MAXVA ->
     leaf (mem (store a v s)) r va' = if va' / 4096 =? va / 4096 then v else leaf (mem s) r va') /\
  (forall va', 0 <= va' < MAXVA -> pte_addr (mem (store a v s)) r va' = pte_addr (mem s) r va') /\
  (forall x, is_table (own (page_of x)) = false -> mem (store a v s) x = mem s x).
Proof.
  intros Hf Hi Hnt Hva Ha Hv Hown Hol Huser.
  destruct (pte_addr_pos kend Hkend own _ _ _ _ Hi Ha) as (d & i & -> & Hir & Hrd & _ & Hod & ->).
  assert (forall x, is_table (own (page_of x)) = false -> mem (store (d + 8 * PX 0 va) v s) x = mem s x) as Hkept.
  { intros x Hx. simpl. apply st_other.
    destruct (Z.lt_ge_cases x (d + 8 * PX 0 va)); [by left|].
    destruct (Z.lt_ge_cases x (d + 8 * PX 0 va + 8)); [|by right].
    exfalso. rewrite (entry_page kend d (PX 0 va)), Hod in Hx by done. done. }
  split_and!; [|intros va' Hva'; by eapply store_leaf_lookup
    |intros va' Hva'; simpl;
     exact (proj1 (store_leaf_lookup kend Hkend own (mem s) r va v _ Hi Hva Ha Hv va' Hva'))|done].
  split; [|done|by eapply store_leaf_inv].
  apply (free_pages_frame kend own' l s); [done|done|]. intros x _ Hx. apply Hkept. by apply Hnt.
Qed.

Lemma free_not_table own l s r q : vm_inv own l s r -> q ∈ l -> is_table (own q) = false.
Proof. intros Hvi Hq. by rewrite (vi_own _ _ _ _ _ Hvi q Hq). Qed.

(** ** mappages *)

Lemma mappages_page own l s r va pa perm :
  vm_inv own l s r -> 0 <= va < MAXVA -> va mod 4096 = 0 -> is_page pa -> 0 <= perm < 1024 ->
  entry s r va = None -> own pa = Other -> (has_flag perm PTE_U = true -> ram pa) ->
  exists rc s' own' l' used, mappages r va PGSIZE pa perm s = Ret (rc, s') /\ (l = used ++ l' /\ (length used <= 2)%nat) /\
    vm_inv own' l' s' r /\ (forall p, own p <> Free -> p <> pa -> own' p = own p) /\
    users_kept own (mem s) (mem s') /\
    (rc = 0 /\ (forall va', 0 <= va' < MAXVA ->
        entry s' r va' = if va' / 4096 =? va / 4096 then Some (mk_pte pa perm) else entry s r va') /\
        own' pa = (if has_flag perm PTE_U then User (va / 4096) else Other) \/
     rc = -1 /\ l' = [] /\ pte_addr (mem s) r va = None /\ own' pa = Other /\ forall va', entry s' r va' = entry s r va').
Proof.
  intros Hvi Hva Hal Hpa Hperm Hnone Hother Huser.
  unfold mappages. change (va mod PGSIZE) with (va mod 4096). rewrite Hal.
  change (PGSIZE / PGSIZE) with 1. change (Z.to_nat 1) with 1%nat. simpl negb. cbv iota.
  replace (va + PGSIZE - PGSIZE) with va by lia. rewrite MAXVA_eq in Hva.
  rewrite (wrapu_small 64 va) by lia. cbn [map_loop]. rewrite <- MAXVA_eq in Hva.
  rewrite walk_ok by done. cbn [mbind outcome_bind].
  destruct (walk_alloc kend Hkend own l s r va Hvi Hva)
    as (pte & s1 & own1 & l1 & used & -> & [Hl Hlen] & Hvi1 & Huk & Hus & Hleaf & Hres).
  assert (own1 pa = Other) as Ho1 by (rewrite Huk; congruence).
  destruct Hres as [(-> & -> & Hnp)|[Ha Hnz]].
  - simpl. eexists (-1), s1, own1, [], used. split; [reflexivity|]. split_and!; try done.
    + intros p Hp _. by apply Huk.
    + right. split_and!; try done. intros va'. apply entry_leaf, Hleaf.
  - rewrite (proj2 (Z.eqb_neq pte 0) Hnz).
    assert (has_flag (ld (mem s1) pte) PTE_V = false) as ->.
    { unfold entry in Hnone. rewrite <- Hleaf in Hnone. unfold leaf in Hnone. rewrite Ha in Hnone.
      by destruct (has_flag _ _). }
    rewrite Z.eqb_refl. fold (mk_pte pa perm).
    set (own2 := if has_flag perm PTE_U then use_page pa (User (va / 4096)) own1 else own1).
    assert (forall p, p <> pa -> own2 p = own1 p) as Hown2.
    { intros p Hp. unfold own2. destruct (has_flag perm PTE_U); [by apply use_page_other|done]. }
    assert (own2 pa = if has_flag perm PTE_U then User (va / 4096) else Other) as Hown2pa.
    { unfold own2. destruct (has_flag perm PTE_U); [apply use_page_same|done]. }
    destruct (store_inv own1 own2 l1 s1 r va (mk_pte pa perm) pte) as (Hvi2 & Hleaf2 & _ & Hkept2).
    + apply Hvi1.
    + apply Hvi1.
    + intros q. by apply (free_not_table _ _ _ _ _ Hvi1).
    + done.
    + done.
    + by apply mk_pte_range.
    + intros p _ _ Hno. apply Hown2. congruence.
    + intros q Hq. rewrite Hown2; [by apply (vi_own _ _ _ _ _ Hvi1)|].
      intros ->. pose proof (vi_own _ _ _ _ _ Hvi1 pa Hq). congruence.
    + intros _ Hu. rewrite has_flag_mk_pte in Hu by (done || unfold PTE_U; lia).
      assert (has_flag perm PTE_U = true) as Hu' by (by destruct (has_flag perm PTE_U)).
      rewrite PTE2PA_mk_pte by done. rewrite Hown2pa, Hu'. auto.
    + eexists 0, _, own2, l1, used. split; [reflexivity|]. split; [done|]. split; [exact Hvi2|].
      split_and!.
      * intros p Hp Hne. rewrite Hown2 by done. by apply Huk.
      * intros x Hnf Hnt. rewrite Hkept2; [by apply Hus|]. by rewrite Huk.
      * left. split; [done|]. split; [|done]. intros va' Hva'. unfold entry. rewrite Hleaf2 by done.
        destruct (va' / 4096 =? va / 4096); [by rewrite mk_pte_valid|]. by rewrite Hleaf.
Qed.

(** ** walkaddr *)

Lemma walkaddr_entry own l s r va :
  vm_inv own l s r -> 0 <= va < MAXVA ->
  walkaddr r va s = match entry s r va with
                    | Some e => if has_flag e PTE_U then PTE2PA e else 0
                    | None => 0
                    end.
Proof.
  intros [_ _ Hi] Hva. unfold walkaddr. rewrite (proj2 (Z.leb_gt MAXVA va)) by lia.
  rewrite (walk_lookup kend own) by done. unfold entry, leaf.
  destruct (pte_addr (mem s) r va) as [a|] eqn:Ha; simpl; [|done].
  destruct (pte_addr_pos kend Hkend own _ _ _ _ Hi Ha) as (_ & _ & _ & _ & _ & Hnz & _).
  rewrite (proj2 (Z.eqb_neq a 0) Hnz).
  destruct (has_flag _ PTE_V); simpl; [|done]. by destruct (has_flag _ PTE_U).
Qed.

(** ** uvmunmap *)

(** Page [va'] is among the [n] pages from [a]. *)
Definition in_range (a : Z) (n : nat) (va' : Z) : bool :=
  (a / 4096 <=? va' / 4096) && (va' / 4096 <? a / 4096 + Z.of_nat n).

(** The page an entry of [va] points to is a user page of that number. *)
Definition owned (own : Z -> page_use) (s : phys) (r va : Z) : Prop :=
  forall e, entry s r va = Some e -> ram (PTE2PA e) /\ own (PTE2PA e) = User (va / 4096).

Lemma user_owned own l s r va :
  vm_inv own l s r -> 0 <= va < MAXVA -> (forall e, entry s r va = Some e -> has_flag e PTE_U = true) ->
  owned own s r va.
Proof.
  intros Hvi Hva Hu e He. specialize (Hu e He). unfold entry in He.
  destruct (has_flag (leaf (mem s) r va) PTE_V) eqn:Hv; [|done]. injection He as <-.
  by apply (pi_user _ _ _ _ (vi_pt _ _ _ _ _ Hvi)).
Qed.

Lemma unmap_one own l s r a (do_free : bool) :
  vm_inv own l s r -> 0 <= a < MAXVA -> a mod 4096 = 0 -> (do_free = true -> owned own s r a) ->
  let freed := if do_free then option_list (PTE2PA <$> entry s r a) else [] in
  exists s' own',
    (forall fuel stop, a < stop -> unmap_loop kend (S fuel) r a stop do_free s =
       unmap_loop kend fuel r (u64 (a + PGSIZE)) stop do_free s') /\
    vm_inv own' (freed ++ l) s' r /\
    (forall va', 0 <= va' < MAXVA ->
       entry s' r va' = if va' / 4096 =? a / 4096 then None else entry s r va') /\
    (forall va', 0 <= va' < MAXVA -> pte_addr (mem s') r va' = pte_addr (mem s) r va') /\
    (forall p, own' p = own p \/ own' p = Free /\ own p = User (a / 4096)) /\
    (forall x, own' (page_of x) <> Free -> is_table (own (page_of x)) = false -> mem s' x = mem s x).
Proof.
  intros Hvi Ha Hal Huser freed. pose proof (vi_pt _ _ _ _ _ Hvi) as Hi.
  assert (forall fuel stop, a < stop -> unmap_loop kend (S fuel) r a stop do_free s =
    if (default 0 (pte_addr (mem s) r a) =? 0) ||
       negb (has_flag (ld (mem s) (default 0 (pte_addr (mem s) r a))) PTE_V) then
      unmap_loop kend fuel r (u64 (a + PGSIZE)) stop do_free s
    else
      s1 ← (if do_free then kfree kend (PTE2PA (ld (mem s) (default 0 (pte_addr (mem s) r a)))) s else Ret s);
      unmap_loop kend fuel r (u64 (a + PGSIZE)) stop do_free (store (default 0 (pte_addr (mem s) r a)) 0 s1))
    as Hunf.
  { intros fuel stop Hlt. cbn [unmap_loop]. rewrite (proj2 (Z.ltb_lt a stop) Hlt).
    rewrite walk_ok by done. rewrite (walk_lookup kend own) by done. done. }
  destruct (pte_addr (mem s) r a) as [pte|] eqn:Hpte; simpl in Hunf.
  2:{ assert (entry s r a = None) as He0 by (unfold entry, leaf; by rewrite Hpte, has_flag_0).
      assert (freed = []) as -> by (unfold freed; rewrite He0; by destruct do_free).
      exists s, own. split_and!; try done.
      - intros va' Hva'. destruct (Z.eqb_spec (va' / 4096) (a / 4096)) as [Heq|]; [|done].
        apply same_vpn in Heq as (H2 & H1 & H0); [|done..].
        unfold entry, leaf. unfold pte_addr in *. rewrite H2, H1, H0, Hpte. done.
      - by left. }
  destruct (pte_addr_pos kend Hkend own _ _ _ _ Hi Hpte) as (d & i & Hd & Hir & Hrd & Hnz & Hod & _).
  rewrite (proj2 (Z.eqb_neq pte 0) Hnz) in Hunf. simpl in Hunf.
  assert (leaf (mem s) r a = ld (mem s) pte) as Hlf by (unfold leaf; by rewrite Hpte).
  destruct (has_flag (ld (mem s) pte) PTE_V) eqn:Hv; simpl in Hunf.
  2:{ assert (freed = []) as -> by (unfold freed, entry; rewrite Hlf, Hv; by destruct do_free).
      exists s, own. split_and!; try done.
      - intros va' Hva'. destruct (Z.eqb_spec (va' / 4096) (a / 4096)) as [Heq|]; [|done].
        apply same_vpn in Heq as (H2 & H1 & H0); [|done..].
        assert (leaf (mem s) r va' = leaf (mem s) r a) as He
          by (unfold leaf, pte_addr; by rewrite H2, H1, H0).
        unfold entry. by rewrite He, Hlf, Hv.
      - by left. }
  (* the entry is cleared, after its page is freed if asked *)
  assert (freed = if do_free then [PTE2PA (ld (mem s) pte)] else []) as ->
    by (unfold freed, entry; by rewrite Hlf, Hv).
  set (freed := if do_free then [PTE2PA (ld (mem s) pte)] else []).
  assert (exists s1 own1, (if do_free then kfree kend (PTE2PA (ld (mem s) pte)) s else Ret s) = Ret s1 /\
    free_pages kend s1 (freed ++ l) /\ (forall q, q ∈ freed ++ l -> own1 q = Free) /\
    pt_inv own (mem s1) r /\ tables_kept own (mem s) (mem s1) /\
    (forall p, own1 p = own p \/ own1 p = Free /\ own p = User (a / 4096)) /\
    (forall x, own1 (page_of x) <> Free -> mem s1 x = mem s x))
    as (s1 & own1 & Hk & Hf1 & Ho1 & Hi1 & Htk & Hu1 & Hm1).
  { destruct do_free.
    2:{ exists s, own. destruct Hvi as [? ? ?]. split_and!; try done. by left. }
    destruct (Huser eq_refl (ld (mem s) pte)) as [Hrp Hop]; [unfold entry; by rewrite Hlf, Hv|]. set (pa := PTE2PA (ld (mem s) pte)) in *.
    assert (pa ∉ l) as Hni by (intros Hin; pose proof (vi_own _ _ _ _ _ Hvi pa Hin); congruence).
    destruct (kfree_spec kend Hkend s l pa (vi_free _ _ _ _ _ Hvi) Hrp Hni) as (s1 & Hk & Hf1 & Hm1).
    assert (forall x, page_of x <> pa -> mem s1 x = mem s x) as Hout.
    { intros x Hx. apply Hm1. destruct Hrp as [Hpal _]. unfold PGSIZE in Hpal.
      destruct (Z.lt_ge_cases x pa); [by left|]. destruct (Z.lt_ge_cases x (pa + 4096)); [|by right].
      exfalso. apply Hx. replace x with (pa + (x - pa)) by lia. apply page_of_offset; [done|lia]. }
    assert (tables_kept own (mem s) (mem s1)) as Htk.
    { intros x Hx. apply Hout. intros Hp. by rewrite Hp, Hop in Hx. }
    exists s1, (use_page pa Free own). split_and!; try done.
    - intros q [->|Hq]%elem_of_cons; [apply use_page_same|].
      rewrite use_page_other; [by apply (vi_own _ _ _ _ _ Hvi)|]. intros ->. done.
    - eapply (pt_inv_frame kend own own); done.
    - intros p. destruct (Z.eq_dec p pa) as [->|Hne]; [right; split; [apply use_page_same|done]|].
      left. by apply use_page_other.
    - intros x Hx. apply Hout. intros Hp. by rewrite Hp, use_page_same in Hx. }
  rewrite Hk in Hunf. simpl in Hunf.
  destruct (tables_kept_pte kend own (mem s) (mem s1) r a Hi Htk) as [Hpte1 _].
  destruct (store_inv own own1 (freed ++ l) s1 r a 0 pte) as (Hvi2 & Hleaf2 & Haddr2 & Hkept2);
    [done|done| |done|congruence|lia| |done|by rewrite has_flag_0| ].
  { intros q Hq. destruct (Hu1 q) as [<-|[_ ->]]; [by rewrite (Ho1 q Hq)|done]. }
  { intros p Hp _ _. destruct (Hu1 p) as [|[_ Hup]]; [done|]. by destruct (Hp _ Hup). }
  exists (store pte 0 s1), own1. split_and!; [done|done| | |done|].
  - intros va' Hva'. unfold entry. rewrite Hleaf2 by done.
    destruct (va' / 4096 =? a / 4096); [by rewrite has_flag_0|].
    by destruct (tables_kept_pte kend own (mem s) (mem s1) r va' Hi Htk) as [_ ->].
  - intros va' Hva'. rewrite Haddr2 by done.
    by destruct (tables_kept_pte kend own (mem s) (mem s1) r va' Hi Htk) as [-> _].
  - intros x Hx Hnt. rewrite Hkept2 by done. by apply Hm1.
Qed.
(** The pages of the entries of the [n] pages from [a], last first: the order
    in which they end up on the free list. *)
Definition pages_of (s : phys) (r a : Z) (n : nat) : list Z :=
  rev (omap (fun i => PTE2PA <$> entry s r (a + 4096 * Z.of_nat i)) (seq 0 n)).

Lemma pages_of_S s r a n : pages_of s r a (S n) =
  pages_of s r (a + 4096) n ++ option_list (PTE2PA <$> entry s r a).
Proof.
  unfold pages_of. change (seq 0 (S n)) with ([0%nat] ++ seq 1 n). rewrite omap_app, rev_app_distr.
  f_equal.
  - f_equal. rewrite <- fmap_S_seq. induction (seq 0 n) as [|i js IH]; [done|]. csimpl.
    replace (a + 4096 + 4096 * Z.of_nat i) with (a + 4096 * Z.of_nat (S i)) by lia. by rewrite IH.
  - csimpl. rewrite Z.add_0_r. by destruct (entry s r a).
Qed.

Lemma pages_of_ext s s' r a n :
  (forall i, 0 <= i < Z.of_nat n -> entry s' r (a + 4096 * i) = entry s r (a + 4096 * i)) ->
  pages_of s' r a n = pages_of s r a n.
Proof.
  intros H. unfold pages_of. f_equal.
  assert (forall i, i ∈ seq 0 n -> (i < n)%nat) as Hin by (intros i Hi; apply elem_of_seq in Hi; lia).
  induction (seq 0 n) as [|i js IH]; [done|]. csimpl.
  rewrite H, IH; [done| |pose proof (Hin i ltac:(by left)); lia]. intros j Hj. apply Hin. by right.
Qed.

Lemma page_step a : a mod 4096 = 0 -> (a + 4096) mod 4096 = 0 /\ (a + 4096) / 4096 = a / 4096 + 1.
Proof.
  intros Ha. replace (a + 4096) with (a + 1 * 4096) by lia. rewrite Z.mod_add, Z.div_add by lia. done.
Qed.

Lemma page_index a i : a mod 4096 = 0 -> (a + 4096 * i) / 4096 = a / 4096 + i.
Proof. intros _. replace (a + 4096 * i) with (a + i * 4096) by lia. rewrite Z.div_add by lia. done. Qed.

Lemma unmap_pages do_free n : forall own l s r a,
  vm_inv own l s r -> 0 <= a -> a + 4096 * Z.of_nat n <= MAXVA -> a mod 4096 = 0 ->
  (do_free = true -> forall va, 0 <= va < MAXVA -> in_range a n va = true -> owned own s r va) ->
  exists s' own',
    unmap_loop kend n r a (a + 4096 * Z.of_nat n) do_free s = Ret s' /\
    vm_inv own' ((if do_free then pages_of s r a n else []) ++ l) s' r /\
    (forall va, 0 <= va < MAXVA -> entry s' r va = if in_range a n va then None else entry s r va) /\
    (forall va, 0 <= va < MAXVA -> pte_addr (mem s') r va = pte_addr (mem s) r va) /\
    (forall p, own' p = own p \/ own' p = Free /\ exists k, own p = User k /\ a / 4096 <= k < a / 4096 + Z.of_nat n) /\
    (forall x, own' (page_of x) <> Free -> is_table (own (page_of x)) = false -> mem s' x = mem s x).
Proof.
  induction n as [|n IH]; intros own l s r a Hvi Ha Hend Hal Huser.
  { exists s, own. simpl. rewrite Z.add_0_r, Z.ltb_irrefl. split_and!; try done.
    - by destruct do_free.
    - intros va _. unfold in_range. destruct (Z.leb_spec (a / 4096) (va / 4096)); [|done].
      by rewrite (proj2 (Z.ltb_ge _ _)) by lia.
    - by left. }
  destruct (page_step a Hal) as [Hal' Hdiv].
  assert (0 <= a < MAXVA) as Ha' by lia.
  destruct (unmap_one own l s r a do_free Hvi Ha' Hal) as (s1 & own1 & Hstep & Hvi1 & Hent1 & Haddr1 & Hown1 & Hmem1).
  { intros Hdf. apply (Huser Hdf a Ha'). unfold in_range. rewrite Z.leb_refl. simpl. apply Z.ltb_lt. lia. }
  rewrite Hstep by lia. unfold PGSIZE.
  assert (u64 (a + 4096) = a + 4096) as -> by (apply wrapu_small; pose proof MAXVA_eq; lia).
  destruct (IH own1 _ s1 r (a + 4096) Hvi1 ltac:(lia) ltac:(lia) Hal')
    as (s' & own' & Hl & Hvi' & Hent' & Haddr' & Hown' & Hmem').
  { intros Hdf va Hva Hin e He. rewrite Hent1 in He by done.
    destruct (Z.eqb_spec (va / 4096) (a / 4096)) as [|Hne]; [done|].
    unfold in_range in Hin. rewrite Hdiv in Hin. apply andb_prop in Hin as [H1%Z.leb_le H2%Z.ltb_lt].
    destruct (Huser Hdf va Hva) with (e := e) as [Hr Ho]; [|done|].
    - unfold in_range. apply andb_true_intro. split; [apply Z.leb_le; lia|apply Z.ltb_lt; lia].
    - split; [done|]. destruct (Hown1 (PTE2PA e)) as [->|[_ Hp]]; [done|]. rewrite Ho in Hp. by injection Hp. }
  exists s', own'. replace (a + 4096 * Z.of_nat (S n)) with (a + 4096 + 4096 * Z.of_nat n) by lia.
  split_and!; [exact Hl| | | | |].
  - destruct do_free; [|done]. rewrite pages_of_S, <- app_assoc.
    rewrite (pages_of_ext s s1) in Hvi'; [done|]. intros i Hi. rewrite Hent1.
    + rewrite page_index, Hdiv by done. by rewrite (proj2 (Z.eqb_neq _ _)) by lia.
    + lia.
  - intros va Hva. rewrite Hent' by done. unfold in_range. rewrite Hdiv. rewrite Hent1 by done.
    destruct (Z.eqb_spec (va / 4096) (a / 4096)) as [->|Hne].
    + rewrite (proj2 (Z.leb_gt _ _)) by lia. simpl. rewrite Z.leb_refl, (proj2 (Z.ltb_lt _ _)) by lia. done.
    + destruct (Z.leb_spec (a / 4096 + 1) (va / 4096)); destruct (Z.leb_spec (a / 4096) (va / 4096)); simpl;
        try lia; [|done]. by replace (a / 4096 + 1 + Z.of_nat n) with (a / 4096 + Z.of_nat (S n)) by lia.
  - intros va Hva. by rewrite Haddr', Haddr1.
  - intros p. destruct (Hown' p) as [->|(-> & k & Hk & Hkr)].
    + destruct (Hown1 p) as [->|[-> Hu]]; [by left|]. right. split; [done|]. exists (a / 4096). split; [done|lia].
    + destruct (Hown1 p) as [Hp|[Hp _]]; [|congruence]. right. split; [done|]. exists k.
      split; [congruence|lia].
  - intros x Hx Hnt. assert (own1 (page_of x) <> Free) as Hx1.
    { intros Hf. destruct (Hown' (page_of x)) as [Heq|(Heq & k & Hk & _)]; congruence. }
    rewrite Hmem'; [by apply Hmem1|done|].
    destruct (Hown1 (page_of x)) as [->|[Hf _]]; [done|]. by rewrite Hf.
Qed.

Lemma uvmunmap_owned own l s r a n do_free :
  vm_inv own l s r -> 0 <= a -> a + 4096 * Z.of_nat n <= MAXVA -> a mod 4096 = 0 ->
  (do_free = true -> forall va, 0 <= va < MAXVA -> in_range a n va = true -> owned own s r va) ->
  exists s' own',
    uvmunmap kend r a (Z.of_nat n) do_free s = Ret s' /\
    vm_inv own' ((if do_free then pages_of s r a n else []) ++ l) s' r /\
    (forall va, 0 <= va < MAXVA -> entry s' r va = if in_range a n va then None else entry s r va) /\
    (forall va, 0 <= va < MAXVA -> pte_addr (mem s') r va = pte_addr (mem s) r va) /\
    (forall p, own' p = own p \/ own' p = Free /\ exists k, own p = User k /\ a / 4096 <= k < a / 4096 + Z.of_nat n) /\
    (forall x, own' (page_of x) <> Free -> is_table (own (page_of x)) = false -> mem s' x = mem s x).
Proof.
  intros Hvi Ha Hend Hal Huser. unfold uvmunmap. unfold PGSIZE. rewrite Hal. simpl negb. cbv iota.
  rewrite MAXVA_eq in Hend. rewrite (wrapu_small 64 (Z.of_nat n * 4096)) by lia.
  rewrite wrapu_small by lia. rewrite Nat2Z.id.
  replace (a + Z.of_nat n * 4096) with (a + 4096 * Z.of_nat n) by lia.
  apply unmap_pages; done.
Qed.

Lemma uvmunmap_spec own l s r a n do_free :
  vm_inv own l s r -> 0 <= a -> a + 4096 * Z.of_nat n <= MAXVA -> a mod 4096 = 0 ->
  (do_free = true -> forall va e, 0 <= va < MAXVA -> in_range a n va = true -> entry s r va = Some e ->
     has_flag e PTE_U = true) ->
  exists s' own',
    uvmunmap kend r a (Z.of_nat n) do_free s = Ret s' /\
    vm_inv own' ((if do_free then pages_of s r a n else []) ++ l) s' r /\
    (forall va, 0 <= va < MAXVA -> entry s' r va = if in_range a n va then None else entry s r va) /\
    (forall va, 0 <= va < MAXVA -> pte_addr (mem s') r va = pte_addr (mem s) r va) /\
    (forall p, own' p = own p \/ own' p = Free /\ exists k, own p = User k /\ a / 4096 <= k < a / 4096 + Z.of_nat n) /\
    (forall x, own' (page_of x) <> Free -> is_table (own (page_of x)) = false -> mem s' x = mem s x).
Proof.
  intros Hvi Ha Hend Hal Huser. apply uvmunmap_owned; [done..|]. intros Hdf va Hva Hin.
  apply (user_owned own l); [done..|]. intros e. by apply Huser.
Qed.

(** ** An empty page table *)

Definition fresh_own (l : list Z) (r : Z) (p : Z) : page_use :=
  if p =? r then Tbl2 else if bool_decide (p ∈ l) then Free else Other.

Lemma uvmcreate_inv s q l :
  free_pages kend s (q :: l) ->
  exists s', uvmcreate s = (q, s') /\ vm_inv (fresh_own l q) l s' q /\ ram q /\
    forall va, entry s' q va = None.
Proof.
  intros Hf. pose proof Hf as (_ & Hrq & Hni & _).
  destruct (kalloc_spec kend Hkend s (q :: l) Hf) as (s1 & Hk & Hf1 & _).
  unfold uvmcreate. rewrite Hk. rewrite (proj2 (Z.eqb_neq q 0) (ram_nonzero kend Hkend q Hrq)).
  set (s' := mk_phys _ _).
  assert (forall i, 0 <= i < 512 -> ld (mem s') (q + 8 * i) = 0) as Hz.
  { intros i Hi. simpl. apply ld_memset_zero; unfold PGSIZE; lia. }
  assert (forall i, 0 <= i < 512 -> child (mem s') q i = None) as Hc.
  { intros i Hi. unfold child. by rewrite Hz, has_flag_0. }
  assert (forall va, leaf (mem s') q va = 0) as Hleaf.
  { intros va. unfold leaf, pte_addr. by rewrite Hc by apply PX2. }
  exists s'. split; [done|]. split; [|split; [done|]].
  - split.
    + apply (free_pages_frame kend (fresh_own l q) l s1); [done| |].
      * intros x Hx. unfold fresh_own. destruct (Z.eqb_spec x q) as [->|]; [done|].
        by rewrite bool_decide_true.
      * intros x _ Hx. apply memset_out. pose proof (chain_ram _ _ _ _ _ Hf1 Hx) as Hrx.
        assert (page_of x <> q) as Hne by (intros Heq; by rewrite Heq in Hx).
        pose proof (ram_apart kend (page_of x) q Hrx Hrq Hne) as Hap.
        unfold PGSIZE. unfold page_of in Hap. pose proof (Z.mod_pos_bound x 4096). lia.
    + intros x Hx. unfold fresh_own. destruct (Z.eqb_spec x q) as [->|]; [done|]. by rewrite bool_decide_true.
    + split.
      * split; [done|]. unfold fresh_own. by rewrite Z.eqb_refl.
      * intros a c Ha Hca. by rewrite Hc in Hca.
      * intros a b c d Ha Hb Hca. by rewrite Hc in Hca.
      * intros va Hva Hv. by rewrite Hleaf, has_flag_0 in Hv.
  - intros va. unfold entry. by rewrite Hleaf, has_flag_0.
Qed.

End map.
