(* ===== verification/KallocSpec.v ===== *)
(** * The page allocator as a stack of free pages (kalloc.c)

    The free list is threaded through the free pages.  Against an abstract
    stack of distinct pages: [kinit] pushes every page of RAM, [kfree] pushes,
    [kalloc] pops, and what the clients write to their pages does not matter. *)
From S2P Require Import Prelude Mem MemFacts Vm PageTable.
Import Mem.

#[local] Open Scope Z_scope.

(** What clients do: allocate, free a page, write a byte to a page. *)
Inductive aop := OAlloc | OFree (pa : Z) | OWrite (x v : Z).

(** The program's run of a list of operations, with [kalloc]'s results. *)
Fixpoint run_alloc (kend : Z) (ops : list aop) (s : phys) : outcome (list Z * phys) :=
  match ops with
  | [] => Ret ([], s)
  | OAlloc :: ops =>
      let '(pa, s) := kalloc s in
      '(out, s) ← run_alloc kend ops s;
      Ret (pa :: out, s)
  | OFree pa :: ops => s ← kfree kend pa s; run_alloc kend ops s
  | OWrite x v :: ops =>
      run_alloc kend ops (mk_phys (fun y => if y =? x then v else mem s y) (freelist s))
  end.

(** The stack's run: [None] for an operation a client may not do, freeing what
    is not an allocated page of RAM or writing to a free page. *)
Fixpoint run_stack (kend : Z) (ops : list aop) (l : list Z) : option (list Z * list Z) :=
  match ops with
  | [] => Some ([], l)
  | OAlloc :: ops =>
      match l with
      | [] => '(out, l) ← run_stack kend ops []; Some (0 :: out, l)
      | pa :: l => '(out, l) ← run_stack kend ops l; Some (pa :: out, l)
      end
  | OFree pa :: ops =>
      if (pa mod PGSIZE =? 0) && (kend <=? pa) && (pa <? PHYSTOP) && bool_decide (pa ∉ l)
      then run_stack kend ops (pa :: l) else None
  | OWrite x v :: ops => if bool_decide (page_of x ∉ l) then run_stack kend ops l else None
  end.

(** The pages of RAM from [p], last first. *)
Definition pages_from (p : Z) (n : nat) : list Z := rev ((fun i => p + 4096 * Z.of_nat i) <$> seq 0 n).

Definition all_pages (kend : Z) : list Z :=
  pages_from (PGROUNDUP kend) (Z.to_nat ((PHYSTOP - PGROUNDUP kend) / 4096)).

Section alloc.
Context (kend : Z) (Hkend : 4096 <= kend <= PHYSTOP).

Local Notation ram := (ram kend).

Lemma pages_from_S p n : pages_from p (S n) = (p + 4096 * Z.of_nat n) :: pages_from p n.
Proof. unfold pages_from. by rewrite seq_S, fmap_app, rev_app_distr. Qed.

Lemma elem_of_pages_from p n q :
  q ∈ pages_from p n <-> exists i, q = p + 4096 * i /\ 0 <= i < Z.of_nat n.
Proof.
  induction n as [|n IH].
  - split; [by intros ?%not_elem_of_nil|]. intros (i & _ & Hi). lia.
  - rewrite pages_from_S, elem_of_cons, IH. split.
    + intros [->|(i & -> & Hi)]; eexists; (split; [reflexivity|]); lia.
    + intros (i & -> & Hi). destruct (Z.eq_dec i (Z.of_nat n)) as [->|]; [by left|].
      right. exists i. split; [done|lia].
Qed.

(** [freerange] from [p] with [k] pages already freed below it. *)
Lemma freerange_spec n : forall fuel k p s,
  p mod 4096 = 0 -> kend <= p -> (n < fuel)%nat ->
  p + 4096 * (Z.of_nat k + Z.of_nat n) = PHYSTOP -> free_pages kend s (pages_from p k) ->
  exists s', freerange kend fuel (p + 4096 * Z.of_nat k) PHYSTOP s = Ret s' /\
    free_pages kend s' (pages_from p (n + k)).
Proof.
  induction n as [|n IH]; intros [|fuel] k p s Hal Hp Hfuel Hend Hf; try lia; cbn [freerange]; unfold PGSIZE.
  - exists s. rewrite (proj2 (Z.leb_gt _ _)) by lia. done.
  - rewrite (proj2 (Z.leb_le _ _)) by lia.
    destruct (kfree_spec kend Hkend s (pages_from p k) (p + 4096 * Z.of_nat k)) as (s1 & -> & Hf1 & _).
    + done.
    + split; [|lia]. unfold PGSIZE.
      replace (p + 4096 * Z.of_nat k) with (p + Z.of_nat k * 4096) by lia. by rewrite Z.mod_add.
    + rewrite elem_of_pages_from. intros (i & Hi & Hir). lia.
    + cbn [mbind outcome_bind]. rewrite <- pages_from_S in Hf1.
      replace (p + 4096 * Z.of_nat k + 4096) with (p + 4096 * Z.of_nat (S k)) by lia.
      destruct (IH fuel (S k) p s1 Hal Hp ltac:(lia) ltac:(lia) Hf1) as (s' & -> & Hf').
      exists s'. split; [done|]. by replace (S n + k)%nat with (n + S k)%nat by lia.
Qed.

Lemma kinit_spec s :
  exists s', kinit kend s = Ret s' /\ free_pages kend s' (all_pages kend).
Proof.
  assert (PHYSTOP = 2281701376) as HP by reflexivity.
  pose proof (roundup_eq kend ltac:(lia) ltac:(lia)) as Hr.
  pose proof (Z.div_mod (kend + 4095) 4096 ltac:(lia)). pose proof (Z.mod_pos_bound (kend + 4095) 4096 ltac:(lia)).
  set (p := PGROUNDUP kend) in *. assert (p = 4096 * ((kend + 4095) / 4096)) as Hp by lia.
  assert (p mod 4096 = 0) as Hal by (rewrite Hp, Z.mul_comm; apply Z.mod_mul; lia).
  assert (p <= PHYSTOP) as Hle.
  { assert ((kend + 4095) / 4096 <= (PHYSTOP + 4095) / 4096) by (apply Z.div_le_mono; lia).
    change ((PHYSTOP + 4095) / 4096) with 557056 in *. lia. }
  assert (PHYSTOP - p = 4096 * ((PHYSTOP - p) / 4096)) as Hdiv.
  { replace (PHYSTOP - p) with ((557056 - (kend + 4095) / 4096) * 4096) by lia.
    rewrite Z.div_mul by lia. lia. }
  pose proof (Z.div_pos (PHYSTOP - p) 4096 ltac:(lia) ltac:(lia)).
  unfold kinit, all_pages. fold p. set (n := Z.to_nat ((PHYSTOP - p) / PGSIZE)).
  change ((PHYSTOP - p) / 4096) with ((PHYSTOP - p) / PGSIZE) in *. fold n.
  destruct (freerange_spec n (S n) 0 p (mk_phys (mem s) 0) Hal) as (s' & Hs & Hf); try lia; [done|].
  exists s'. rewrite Z.mul_0_r, Z.add_0_r, Nat.add_0_r in *. done.
Qed.

(** A write to an allocated page. *)
Lemma write_free s l x v :
  free_pages kend s l -> page_of x ∉ l -> free_pages kend (mk_phys (fun y => if y =? x then v else mem s y) (freelist s)) l.
Proof.
  intros Hf Hx. unfold free_pages. simpl. eapply chain_ext; [|exact Hf]. intros q Hq.
  apply ld_ext. intros y Hy. destruct (Z.eqb_spec y x) as [->|]; [|done].
  pose proof (chain_ram kend _ _ _ q Hf Hq) as Hrq.
  destruct Hx. by rewrite (entry_page kend q 0) by (done || lia).
Qed.

Lemma run_alloc_stack ops : forall s l out l',
  free_pages kend s l -> run_stack kend ops l = Some (out, l') ->
  exists s', run_alloc kend ops s = Ret (out, s') /\ free_pages kend s' l'.
Proof.
  induction ops as [|[|pa|x v] ops IH]; intros s l out l' Hf Hrun; simpl in *.
  - simplify_eq. by exists s.
  - pose proof (kalloc_spec kend Hkend s l Hf) as Hk. destruct l as [|pa l].
    + destruct (run_stack kend ops []) as [[out0 l0]|] eqn:Hr; simplify_eq/=. rewrite Hk.
      destruct (IH s [] out0 l' Hf Hr) as (s' & -> & Hf'). by exists s'.
    + destruct Hk as (s1 & -> & Hf1 & _).
      destruct (run_stack kend ops l) as [[out0 l0]|] eqn:Hr; simplify_eq/=.
      destruct (IH s1 l out0 l' Hf1 Hr) as (s' & -> & Hf'). by exists s'.
  - destruct (_ && _) eqn:Hc; [|done]. apply andb_prop in Hc as [Hc Hni%bool_decide_eq_true].
    apply andb_prop in Hc as [Hc H3%Z.ltb_lt]. apply andb_prop in Hc as [H1%Z.eqb_eq H2%Z.leb_le].
    destruct (kfree_spec kend Hkend s l pa Hf ltac:(done) Hni) as (s1 & -> & Hf1 & _). simpl.
    by eapply IH.
  - destruct (bool_decide _) eqn:Hni; [|done]. apply bool_decide_eq_true in Hni.
    eapply IH; [|exact Hrun]. by apply write_free.
Qed.

End alloc.

(** (C21) kalloc.c refines a stack of distinct pages.  From [kinit], which
    makes every page between the kernel's end and PHYSTOP free, any sequence
    of allocations, frees of allocated pages and writes to allocated pages
    runs without a panic, [kalloc] returns exactly what the stack returns (0
    only when no page is free), and the free list that lives inside the free
    pages is at the end the stack's, without repetition. *)
Theorem kalloc_refines_stack kend ops s0 out l :
  4096 <= kend <= PHYSTOP ->
  run_stack kend ops (all_pages kend) = Some (out, l) ->
  exists s1 s2, kinit kend s0 = Ret s1 /\ run_alloc kend ops s1 = Ret (out, s2) /\
    free_pages kend s2 l /\ NoDup l.
Proof.
  intros Hkend Hrun. destruct (kinit_spec kend Hkend s0) as (s1 & Hi & Hf).
  destruct (run_alloc_stack kend Hkend ops s1 _ out l Hf Hrun) as (s2 & Hr & Hf2).
  exists s1, s2. split_and!; try done. by eapply chain_nodup.
Qed.

(** Three pages of RAM: two allocations, a write, a free, and allocation until
    memory is exhausted. *)
Lemma kalloc_refines_stack_witness :
  let kend := PHYSTOP - 3 * 4096 in
  exists s1 s2, kinit kend (mk_phys (fun _ => 7) 0) = Ret s1 /\
    run_alloc kend [OAlloc; OAlloc; OWrite (PHYSTOP - 4096) 9; OFree (PHYSTOP - 4096); OAlloc; OAlloc; OAlloc] s1 =
      Ret ([PHYSTOP - 4096; PHYSTOP - 2 * 4096; PHYSTOP - 4096; PHYSTOP - 3 * 4096; 0], s2) /\
    free_pages kend s2 [] /\ NoDup ([] : list Z).
Proof.
  intros kend. apply (kalloc_refines_stack kend).
  - vm_compute. split; discriminate.
  - vm_compute. reflexivity.
Defined.
