(* ===== verification/VmSpec.v ===== *)
(** * User memory: copyout and copyin through the page table *)
From S2P Require Import Prelude Mem MemFacts Vm PageTable VmMap KallocSpec.

Import Mem Vm.

#[local] Open Scope Z_scope.

(** The byte user code sees at [va]. *)
Definition uread (s : phys) (r va : Z) : option Z :=
  match entry s r va with
  | Some e => if has_flag e PTE_U then Some (mem s (PTE2PA e + va mod 4096)) else None
  | None => None
  end.

(** Page [va] is mapped for the user, and for writing if asked. *)
Definition user_page (s : phys) (r va : Z) (w : bool) : Prop :=
  exists e, entry s r va = Some e /\ has_flag e PTE_U = true /\ (w = true -> has_flag e PTE_W = true).

Section user.
Context (kend : Z) (Hkend : 4096 <= kend <= PHYSTOP) (use_clock : bool).

Local Notation ram := (ram kend).
Local Notation vm_inv := (vm_inv kend).

Lemma entry_some s r va e : entry s r va = Some e -> e = leaf (mem s) r va /\ has_flag (leaf (mem s) r va) PTE_V = true.
Proof. unfold entry. destruct (has_flag _ _) eqn:H; [|done]. by intros [= <-]. Qed.

Lemma entry_user own l s r va e :
  vm_inv own l s r -> 0 <= va < MAXVA -> entry s r va = Some e -> has_flag e PTE_U = true ->
  ram (PTE2PA e) /\ own (PTE2PA e) = User (va / 4096).
Proof.
  intros [_ _ Hi] Hva He Hu. apply entry_some in He as [-> Hv]. by eapply pi_user.
Qed.

Lemma page_base va : 0 <= va -> va - va mod 4096 = 4096 * (va / 4096).
Proof. intros _. pose proof (Z.div_mod va 4096 ltac:(lia)). lia. Qed.

Lemma rounddown_page va : 0 <= va < MAXVA ->
  PGROUNDDOWN va / 4096 = va / 4096 /\ 0 <= PGROUNDDOWN va <= va /\ PGROUNDDOWN va mod 4096 = 0 /\
  va - PGROUNDDOWN va = va mod 4096 /\ va < PGROUNDDOWN va + 4096 <= MAXVA.
Proof.
  intros Hva. rewrite rounddown_eq. pose proof (Z.mod_pos_bound va 4096 ltac:(lia)).
  assert (va - va mod 4096 = va / 4096 * 4096) as E by (rewrite page_base; lia). rewrite E.
  rewrite Z.div_mul, Z.mod_mul by lia. rewrite MAXVA_eq in *.
  pose proof (Z.div_mod va 4096 ltac:(lia)).
  change (2 ^ 38) with (4096 * 67108864) in *.
  assert (va / 4096 < 67108864) by (apply Z.div_lt_upper_bound; lia). lia.
Qed.

(** The entry depends on the page only. *)
Lemma entry_same_page s r va va' :
  0 <= va < MAXVA -> 0 <= va' < MAXVA -> va / 4096 = va' / 4096 -> entry s r va = entry s r va'.
Proof.
  intros H1 H2 Heq. apply same_vpn in Heq as (E2 & E1 & E0); [|done..].
  unfold entry, leaf, pte_addr. by rewrite E2, E1, E0.
Qed.

Lemma put_bytes_spec m a bytes x :
  put_bytes m a bytes x =
    if (a <=? x) && (x <? a + Z.of_nat (length bytes)) then default 0 (bytes !! Z.to_nat (x - a)) else m x.
Proof. done. Qed.

(** Writing [bytes] into the user page [va0] from offset [o]. *)
Lemma write_user_page own l s r va0 e o bytes :
  vm_inv own l s r -> 0 <= va0 < MAXVA -> va0 mod 4096 = 0 -> entry s r va0 = Some e ->
  has_flag e PTE_U = true -> 0 <= o -> o + Z.of_nat (length bytes) <= 4096 ->
  let s' := mk_phys (put_bytes (mem s) (PTE2PA e + o) bytes) (freelist s) in
  vm_inv own l s' r /\ (forall va, entry s' r va = entry s r va) /\
  (forall va, 0 <= va < MAXVA -> uread s' r va =
     if (va0 + o <=? va) && (va <? va0 + o + Z.of_nat (length bytes))
     then Some (default 0 (bytes !! Z.to_nat (va - (va0 + o)))) else uread s r va).
Proof.
  intros Hvi Hva Hal He Hu Ho Hlen s'. pose proof Hvi as [Hf Hof Hi].
  destruct (entry_user own l s r va0 e Hvi Hva He Hu) as [Hrp Hop].
  assert (forall x, page_of x <> PTE2PA e -> mem s' x = mem s x) as Hout.
  { intros x Hx. simpl. rewrite put_bytes_spec.
    destruct (Z.leb_spec (PTE2PA e + o) x); [|done].
    destruct (Z.ltb_spec x (PTE2PA e + o + Z.of_nat (length bytes))); [|done].
    destruct Hx. replace x with (PTE2PA e + (x - PTE2PA e)) by lia.
    apply page_of_offset; [apply Hrp|lia]. }
  assert (tables_kept own (mem s) (mem s')) as Htk.
  { intros x Hx. apply Hout. intros Hp. by rewrite Hp, Hop in Hx. }
  assert (forall va, entry s' r va = entry s r va) as Hent.
  { intros va. apply entry_leaf. by destruct (tables_kept_pte kend own _ _ r va Hi Htk). }
  split_and!; [|done|].
  - split; [|done|by eapply pt_inv_frame].
    apply (free_pages_frame kend own); [done|done|]. intros x Hx _. apply Hout.
    intros Hp. congruence.
  - intros va Hva'. unfold uread. rewrite Hent.
    destruct (rounddown_page va Hva') as (_ & _ & _ & Hoff & _). rewrite rounddown_eq in Hoff.
    pose proof (Z.mod_pos_bound va 4096 ltac:(lia)). pose proof (page_base va ltac:(lia)).
    assert (va0 = 4096 * (va0 / 4096)) as Hva0 by (pose proof (Z.div_mod va0 4096 ltac:(lia)); lia).
    destruct (Z.eq_dec (va / 4096) (va0 / 4096)) as [Heq|Hne].
    + rewrite (entry_same_page s r va va0), He, Hu by done. simpl. rewrite put_bytes_spec.
      assert (va mod 4096 = va - va0) as -> by lia.
      replace (PTE2PA e + (va - va0) - (PTE2PA e + o)) with (va - (va0 + o)) by lia.
      destruct (Z.leb_spec (va0 + o) va), (Z.leb_spec (PTE2PA e + o) (PTE2PA e + (va - va0))); try lia; [|done].
      destruct (Z.ltb_spec va (va0 + o + Z.of_nat (length bytes))),
        (Z.ltb_spec (PTE2PA e + (va - va0)) (PTE2PA e + o + Z.of_nat (length bytes))); try lia; done.
    + assert ((va0 + o <=? va) && (va <? va0 + o + Z.of_nat (length bytes)) = false) as ->.
      { destruct (Z.leb_spec (va0 + o) va); [|done]. apply Z.ltb_ge. lia. }
      destruct (entry s r va) as [e'|] eqn:He'; [|done]. destruct (has_flag e' PTE_U) eqn:Hu'; [|done].
      destruct (entry_user own l s r va e' Hvi Hva' He' Hu') as [Hrp' Hop'].
      f_equal. apply Hout. rewrite page_of_offset; [|apply Hrp'|lia]. congruence.
Qed.

Lemma walkaddr_user own l s r va e :
  vm_inv own l s r -> 0 <= va < MAXVA -> entry s r va = Some e -> has_flag e PTE_U = true ->
  walkaddr r va s = PTE2PA e /\ (PTE2PA e =? 0) = false /\
  exists a, walk r va false s = Ret (a, s) /\ ld (mem s) a = e.
Proof.
  intros Hvi Hva He Hu. destruct (entry_user own l s r va e Hvi Hva He Hu) as [Hrp _].
  rewrite (walkaddr_entry kend Hkend own l) by done. rewrite He, Hu. split; [done|].
  split; [by apply Z.eqb_neq, (ram_nonzero kend)|].
  rewrite walk_ok by done. rewrite (walk_lookup kend own) by apply Hvi.
  eexists. split; [reflexivity|]. apply entry_some in He as [-> Hv]. unfold leaf in *.
  destruct (pte_addr (mem s) r va); [done|]. by rewrite has_flag_0 in Hv.
Qed.

(** ** copyout *)

Lemma copyout_spec fuel : forall own l v r dst src,
  vm_inv own l (ph v) r -> (length src < fuel)%nat -> 0 <= dst -> dst + Z.of_nat (length src) <= MAXVA ->
  (forall va, dst <= va < dst + Z.of_nat (length src) -> user_page (ph v) r va true) ->
  exists s', copyout kend use_clock fuel r dst src v = Ret (0, {| v with ph := s' |}) /\
    vm_inv own l s' r /\ (forall va, entry s' r va = entry (ph v) r va) /\
    (forall va, 0 <= va < MAXVA -> uread s' r va =
       if (dst <=? va) && (va <? dst + Z.of_nat (length src))
       then Some (default 0 (src !! Z.to_nat (va - dst))) else uread (ph v) r va).
Proof.
  induction fuel as [|fuel IH]; intros own l v r dst src Hvi Hfuel Hdst Hend Hpages; [lia|].
  cbn [copyout]. destruct src as [|b0 src0].
  { exists (ph v). destruct v; simpl. split_and!; [done..|]. intros va Hva. rewrite Z.add_0_r.
    destruct (Z.leb_spec dst va); [|done]. by rewrite (proj2 (Z.ltb_ge _ _)) by lia. }
  set (src := b0 :: src0) in *. assert (0 < Z.of_nat (length src)) as Hpos by (simpl; lia).
  destruct (rounddown_page dst ltac:(lia)) as (Hpg & Hle & Hal & Hoff & Hnext).
  set (va0 := PGROUNDDOWN dst) in *. pose proof (Z.mod_pos_bound dst 4096 ltac:(lia)) as Hmod.
  rewrite (proj2 (Z.leb_gt MAXVA va0)) by lia.
  destruct (Hpages dst ltac:(lia)) as (e & He & Hu & Hw). specialize (Hw eq_refl).
  rewrite (entry_same_page _ _ dst va0) in He by (done || lia).
  destruct (walkaddr_user own l (ph v) r va0 e Hvi ltac:(lia) He Hu) as (Hwa & Hnz & a & Hwk & Hld).
  rewrite Hwa, Hnz. cbn [mbind outcome_bind]. rewrite Hwa, Hnz, Hwk. cbn [mbind outcome_bind].
  rewrite Hld, Hw. cbn [negb]. rewrite Hoff. unfold PGSIZE.
  set (n := Z.to_nat (Z.min (4096 - dst mod 4096) (Z.of_nat (length src)))).
  assert (length (take n src) = n) as Hn by (rewrite length_take; lia).
  destruct (write_user_page own l (ph v) r va0 e (dst mod 4096) (take n src) Hvi ltac:(lia) Hal He Hu ltac:(lia) ltac:(lia))
    as (Hvi1 & Hent1 & Hread1).
  set (s1 := mk_phys (put_bytes (mem (ph v)) (PTE2PA e + dst mod 4096) (take n src)) (freelist (ph v))) in *.
  assert (u64 (va0 + 4096) = va0 + 4096) as -> by (apply wrapu_small; pose proof MAXVA_eq; lia).
  assert (length (drop n src) = (length src - n)%nat) as Hdl by apply length_drop.
  destruct (Z.le_gt_cases (Z.of_nat (length src)) (4096 - dst mod 4096)) as [Hlast|Hmore].
  - assert (drop n src = []) as Hdrop by (apply nil_length_inv; lia).
    destruct (IH own l {| v with ph := s1 |} r dst []) as (s' & Hc & Hvi' & Hent' & Hread'); try done;
      [simpl; lia|simpl; lia|intros va Hva; simpl in Hva; lia|].
    exists s'. rewrite Hdrop. split; [|split; [done|split]].
    + destruct fuel; [simpl in Hfuel; lia|]. cbn [copyout] in *. by injection Hc as <-.
    + intros va. by rewrite Hent', Hent1.
    + intros va Hva. rewrite Hread' by done. simpl length. rewrite Z.add_0_r.
      destruct (Z.leb_spec dst va); [|simpl; rewrite Hread1 by done; rewrite (proj2 (Z.leb_gt _ _)) by lia; done].
      rewrite (proj2 (Z.ltb_ge va dst)) by lia. simpl. rewrite Hread1 by done.
      rewrite (take_ge src n) by lia. replace (va0 + dst mod 4096) with dst by lia.
      rewrite (proj2 (Z.leb_le dst va)) by lia. done.
  - assert (Z.of_nat n = 4096 - dst mod 4096) as Hnz' by lia.
    destruct (IH own l {| v with ph := s1 |} r (va0 + 4096) (drop n src)) as (s' & Hc & Hvi' & Hent' & Hread').
    + done.
    + simpl in *. lia.
    + lia.
    + lia.
    + intros va Hva. simpl. destruct (Hpages va ltac:(lia)) as (e' & He' & Hu' & Hw').
      exists e'. by rewrite Hent1.
    + exists s'. split; [exact Hc|]. split; [done|]. split; [intros va; by rewrite Hent', Hent1|].
      intros va Hva. rewrite Hread' by done. simpl ph. rewrite Hread1 by done.
      replace (va0 + dst mod 4096) with dst by lia. rewrite Hn, Hdl.
      destruct (Z.leb_spec (va0 + 4096) va).
      * destruct (Z.ltb_spec va (va0 + 4096 + Z.of_nat (length src - n)));
          rewrite (proj2 (Z.leb_le dst va)) by lia.
        -- rewrite (proj2 (Z.ltb_lt va (dst + Z.of_nat (length src)))) by lia. simpl. rewrite lookup_drop. do 2 f_equal. f_equal. lia.
        -- rewrite !(proj2 (Z.ltb_ge va _)) by lia. done.
      * cbn [andb]. destruct (Z.leb_spec dst va); [|done].
        rewrite (proj2 (Z.ltb_lt va (dst + Z.of_nat n))) by lia.
        rewrite (proj2 (Z.ltb_lt va (dst + Z.of_nat (length src)))) by lia. simpl.
        rewrite lookup_take_lt by lia. done.
Qed.

(** ** copyin *)

Lemma mem_bytes_length m a n : length (mem_bytes m a n) = n.
Proof. unfold mem_bytes. by rewrite length_fmap, length_seq. Qed.

(** What the user sees at the [n] addresses from [va]. *)
Definition uview (s : phys) (r va : Z) (n : nat) : list (option Z) :=
  (fun i => uread s r (va + Z.of_nat i)) <$> seq 0 n.

Lemma uview_app s r va n m : uview s r va (n + m) = uview s r va n ++ uview s r (va + Z.of_nat n) m.
Proof.
  unfold uview. rewrite seq_app, fmap_app. f_equal. simpl.
  rewrite <- (Nat.add_0_r n) at 1. rewrite <- fmap_add_seq, <- list_fmap_compose.
  apply list_fmap_ext. intros i x Hx. simpl. f_equal. lia.
Qed.

Lemma uview_page own l s r va0 e o n :
  vm_inv own l s r -> 0 <= va0 < MAXVA -> va0 mod 4096 = 0 -> entry s r va0 = Some e ->
  has_flag e PTE_U = true -> 0 <= o -> o + Z.of_nat n <= 4096 ->
  uview s r (va0 + o) n = Some <$> mem_bytes (mem s) (PTE2PA e + o) n.
Proof.
  intros Hvi Hva Hal He Hu Ho Hlen. unfold uview, mem_bytes. rewrite <- list_fmap_compose.
  apply list_fmap_ext. intros i x [-> Hi]%lookup_seq. simpl.
  pose proof (rounddown_page va0 Hva) as (_ & _ & _ & _ & Hb). rewrite rounddown_eq, Hal in Hb.
  assert (va0 + o + Z.of_nat i = (o + Z.of_nat i) + va0 / 4096 * 4096) as Ei
    by (pose proof (Z.div_mod va0 4096 ltac:(lia)); lia).
  unfold uread. rewrite (entry_same_page s r _ va0), He, Hu; [| lia | lia |].
  - do 2 f_equal. rewrite Ei, Z.mod_add, Z.mod_small by lia. lia.
  - rewrite Ei, Z.div_add, Z.div_small by lia. lia.
Qed.

Lemma copyin_spec fuel : forall own l v r src len,
  vm_inv own l (ph v) r -> len < Z.of_nat fuel -> 0 <= src -> 0 <= len -> src + len <= MAXVA ->
  (forall va, src <= va < src + len -> user_page (ph v) r va false) ->
  exists bytes, copyin kend use_clock fuel r src len v = Ret (Some bytes, v) /\
    Some <$> bytes = uview (ph v) r src (Z.to_nat len).
Proof.
  induction fuel as [|fuel IH]; intros own l v r src len Hvi Hfuel Hsrc Hlen Hend Hpages; [lia|].
  cbn [copyin]. destruct (Z.leb_spec len 0) as [|Hpos].
  { exists []. by replace len with 0 by lia. }
  destruct (rounddown_page src ltac:(lia)) as (Hpg & Hle & Hal & Hoff & Hnext).
  set (va0 := PGROUNDDOWN src) in *. pose proof (Z.mod_pos_bound src 4096 ltac:(lia)) as Hmod.
  destruct (Hpages src ltac:(lia)) as (e & He & Hu & _).
  rewrite (entry_same_page _ _ src va0) in He by (done || lia).
  destruct (walkaddr_user own l (ph v) r va0 e Hvi ltac:(lia) He Hu) as (Hwa & Hnz & _).
  rewrite Hwa, Hnz. cbn [mbind outcome_bind]. rewrite Hwa, Hnz, Hoff. unfold PGSIZE.
  set (n := Z.min (4096 - src mod 4096) len).
  assert (u64 (va0 + 4096) = va0 + 4096) as -> by (apply wrapu_small; pose proof MAXVA_eq; lia).
  pose proof (uview_page own l (ph v) r va0 e (src mod 4096) (Z.to_nat n) Hvi ltac:(lia) Hal He Hu ltac:(lia) ltac:(lia)) as Hview.
  replace (va0 + src mod 4096) with src in Hview by lia.
  destruct (Z.le_gt_cases len (4096 - src mod 4096)) as [Hlast|Hmore].
  - assert (n = len) as Hn by lia. rewrite Hn, Z.sub_diag in *.
    assert (copyin kend use_clock fuel r (va0 + 4096) 0 v = Ret (Some [], v)) as -> by (destruct fuel; [lia|done]).
    simpl. eexists. split; [reflexivity|]. by rewrite app_nil_r, Hview.
  - destruct (IH own l v r (va0 + 4096) (len - n) Hvi) as (rest & -> & Hrest); try lia.
    { intros va Hva. apply Hpages. lia. }
    simpl. eexists. split; [reflexivity|]. rewrite fmap_app, Hrest, <- Hview.
    replace (Z.to_nat len) with (Z.to_nat n + Z.to_nat (len - n))%nat by lia. rewrite uview_app.
    do 2 f_equal. lia.
Qed.

End user.

(** ** The page-table theorems, and a concrete machine with sixteen pages *)
Import Mem Vm.


(** mappages of one page is insertion into the map from page numbers to
    entries that a page table represents: with an unused page that is not yet
    mapped it either succeeds, and then exactly this entry appears (so that
    walkaddr finds the page if it is a user page, and every other address is
    translated as before), or memory for tables is exhausted, and then no entry
    has changed.  In both cases the tables remain well formed and every page
    that is neither free nor a table keeps its contents. *)
Theorem vm_mappages_inserts kend own l s r va pa perm :
  4096 <= kend <= PHYSTOP -> vm_inv kend own l s r ->
  0 <= va < MAXVA -> va mod 4096 = 0 -> ram kend pa -> own pa = Other -> 0 <= perm < 1024 ->
  entry s r va = None ->
  exists rc s' own' l', mappages r va PGSIZE pa perm s = Ret (rc, s') /\
    vm_inv kend own' l' s' r /\ users_kept own (mem s) (mem s') /\
    (rc = 0 /\
       (forall va', 0 <= va' < MAXVA ->
          entry s' r va' = if va' / 4096 =? va / 4096 then Some (mk_pte pa perm) else entry s r va') /\
       (forall va', 0 <= va' < MAXVA ->
          walkaddr r va' s' = if va' / 4096 =? va / 4096
                              then if has_flag perm PTE_U then pa else 0 else walkaddr r va' s) \/
     rc = -1 /\ l' = [] /\ forall va', entry s' r va' = entry s r va').
Proof.
  intros Hkend Hvi Hva Hal Hpa Ho Hperm Hnone. pose proof (ram_is_page kend Hkend pa Hpa) as Hpg.
  destruct (mappages_page kend Hkend own l s r va pa perm) as
    (rc & s' & own' & l' & used & Hm & _ & Hvi' & _ & Huk & Hres); try done.
  exists rc, s', own', l'. split_and!; [done|done|done|].
  destruct Hres as [(-> & Hent & _)|(-> & -> & _ & _ & Hent)]; [left|by right].
  split; [done|]. split; [done|]. intros va' Hva'.
  rewrite (walkaddr_entry kend Hkend own' l'), (walkaddr_entry kend Hkend own l), Hent by done.
  destruct (va' / 4096 =? va / 4096); [|done].
  rewrite has_flag_mk_pte by (done || unfold PTE_U; lia). rewrite PTE2PA_mk_pte by done.
  change (has_flag PTE_V PTE_U) with false. by rewrite orb_false_r.
Qed.

(** uvmunmap is deletion: after unmapping n pages from a page-aligned
    address exactly the entries of these pages are gone, mapped or not before,
    and nothing else has changed; when asked to free, the pages that were
    mapped there are on top of the free list, the last one first, and nothing
    else was freed.  The loop terminates (fuel n is enough). *)
Theorem vm_uvmunmap_deletes kend own l s r va n do_free :
  4096 <= kend <= PHYSTOP -> vm_inv kend own l s r ->
  0 <= va -> va + 4096 * Z.of_nat n <= MAXVA -> va mod 4096 = 0 ->
  (do_free = true -> forall va' e, 0 <= va' < MAXVA -> in_range va n va' = true ->
     entry s r va' = Some e -> has_flag e PTE_U = true) ->
  exists s' own', uvmunmap kend r va (Z.of_nat n) do_free s = Ret s' /\
    vm_inv kend own' ((if do_free then pages_of s r va n else []) ++ l) s' r /\
    (forall va', 0 <= va' < MAXVA ->
       entry s' r va' = if in_range va n va' then None else entry s r va') /\
    (forall x, own' (page_of x) <> Free -> is_table (own (page_of x)) = false -> mem s' x = mem s x).
Proof.
  intros Hkend Hvi Hva Hend Hal Hu.
  destruct (uvmunmap_spec kend Hkend own l s r va n do_free) as (s' & own' & ? & ? & ? & _ & _ & ?); try done.
  by exists s', own'.
Qed.

(** copyout and copyin move bytes between the kernel and user memory: when
    every page of the range is mapped for the user (for writing, for copyout),
    copyout stores exactly the given bytes at the given addresses, across page
    boundaries, changes no other user byte and no mapping; copyin of that range
    then returns them.  Both terminate with fuel one above the length. *)
Theorem vm_copyout_copyin kend use_clock own l v r dst src :
  4096 <= kend <= PHYSTOP -> vm_inv kend own l (ph v) r ->
  0 <= dst -> dst + Z.of_nat (length src) <= MAXVA ->
  (forall va, dst <= va < dst + Z.of_nat (length src) -> user_page (ph v) r va true) ->
  exists s', let v' := {| v with ph := s' |} in
    copyout kend use_clock (S (length src)) r dst src v = Ret (0, v') /\
    copyin kend use_clock (S (length src)) r dst (Z.of_nat (length src)) v' = Ret (Some src, v') /\
    (forall va, entry s' r va = entry (ph v) r va) /\
    (forall va, 0 <= va < MAXVA -> va < dst \/ dst + Z.of_nat (length src) <= va ->
       uread s' r va = uread (ph v) r va).
Proof.
  intros Hkend Hvi Hdst Hend Hpages.
  destruct (copyout_spec kend Hkend use_clock (S (length src)) own l v r dst src Hvi ltac:(lia) Hdst Hend Hpages)
    as (s' & Hc & Hvi' & Hent & Hread).
  exists s'. intros v'. split; [exact Hc|].
  destruct (copyin_spec kend Hkend use_clock (S (length src)) own l v' r dst (Z.of_nat (length src)))
    as (bytes & Hin & Hb); [done|lia..| |].
  { intros va Hva. destruct (Hpages va Hva) as (e & He & Hu & _). exists e. simpl. by rewrite Hent. }
  split_and!; [|done|].
  - rewrite Hin. do 3 f_equal. apply (inj (fmap Some)). rewrite Hb, Nat2Z.id.
    apply list_eq. intros i. unfold uview. rewrite !list_lookup_fmap.
    destruct (Nat.lt_ge_cases i (length src)) as [Hi|Hi].
    + rewrite lookup_seq_lt by done. simpl. rewrite Hread by lia.
      rewrite (proj2 (Z.leb_le _ _)) by lia. rewrite (proj2 (Z.ltb_lt _ _)) by lia. simpl.
      destruct (lookup_lt_is_Some_2 src i Hi) as [b Hb']. rewrite Hb'. simpl. do 2 f_equal.
      replace (Z.to_nat (dst + Z.of_nat i - dst)) with i by lia. by rewrite Hb'.
    + rewrite lookup_seq_ge by lia. rewrite (lookup_ge_None_2 src) by lia. done.
  - intros va Hva Hout. rewrite Hread by done.
    destruct (Z.leb_spec dst va); [|done]. rewrite (proj2 (Z.ltb_ge _ _)) by lia. done.
Qed.

(** ** A machine with sixteen pages *)

Definition demo_kend : Z := PHYSTOP - 16 * 4096.

Definition demo_boot : phys :=
  match kinit demo_kend (mk_phys (fun _ => 0) 0) with Ret s => s | _ => mk_phys (fun _ => 0) 0 end.

(** An empty page table, and a page taken for the user. *)
Definition demo_pt : Z * phys := uvmcreate demo_boot.
Definition demo_page : Z * phys := kalloc (snd demo_pt).

(** That page mapped read-write at address 8192. *)
Definition demo_map : phys :=
  match mappages (fst demo_pt) 8192 PGSIZE (fst demo_page) 22 (snd demo_page) with
  | Ret (_, s) => s
  | _ => demo_boot
  end.

Lemma demo_kend_ok : 4096 <= demo_kend <= PHYSTOP.
Proof. vm_compute. split; discriminate. Qed.

Lemma demo_page_inv : exists own l,
  vm_inv demo_kend own l (snd demo_page) (fst demo_pt) /\
  ram demo_kend (fst demo_page) /\ own (fst demo_page) = Other /\
  (forall va, entry (snd demo_page) (fst demo_pt) va = None).
Proof.
  destruct (kinit_spec demo_kend demo_kend_ok (mk_phys (fun _ => 0) 0)) as (s0 & Hk & Hf).
  assert (demo_boot = s0) as Hb by (unfold demo_boot; by rewrite Hk).
  remember (all_pages demo_kend) as l0 eqn:Hl0. vm_compute in Hl0. subst l0.
  destruct (uvmcreate_inv demo_kend demo_kend_ok s0 _ _ Hf) as (s1 & Hu & Hvi & Hr & Hent).
  assert (demo_pt = (2281697280, s1)) as Hp by (unfold demo_pt; by rewrite Hb).
  pose proof (kalloc_inv demo_kend demo_kend_ok _ _ _ _ Hvi) as (s2 & Hka & Hrq & Hfq & Hvi2 & Hm).
  assert (demo_page = (2281693184, s2)) as Hpg by (unfold demo_page; by rewrite Hp).
  rewrite Hp, Hpg. eexists _, _. split; [exact Hvi2|]. split; [exact Hrq|]. split; [apply use_page_same|].
  intros va. simpl. erewrite <- (Hent va). apply entry_leaf.
  destruct Hvi as [_ Ho Hi].
  destruct (tables_kept_pte demo_kend _ (mem s1) (mem s2) _ va Hi) as [_ ->]; [|done].
  intros x Hx. apply Hm. intros Heq. by rewrite Heq, Hfq in Hx.
Qed.

(** The hypotheses of [vm_mappages_inserts] hold for that page, and here the
    call succeeds. *)
Lemma vm_mappages_inserts_witness : exists own l,
  vm_inv demo_kend own l (snd demo_page) (fst demo_pt) /\
  exists rc s' own' l', mappages (fst demo_pt) 8192 PGSIZE (fst demo_page) 22 (snd demo_page) = Ret (rc, s') /\
    vm_inv demo_kend own' l' s' (fst demo_pt) /\ rc = 0 /\
    forall va', 0 <= va' < MAXVA -> entry s' (fst demo_pt) va' =
      if va' / 4096 =? 2 then Some (mk_pte (fst demo_page) 22) else entry (snd demo_page) (fst demo_pt) va'.
Proof.
  destruct demo_page_inv as (own & l & Hvi & Hr & Ho & Hent). exists own, l. split; [exact Hvi|].
  destruct (vm_mappages_inserts demo_kend own l (snd demo_page) (fst demo_pt) 8192 (fst demo_page) 22)
    as (rc & s' & own' & l' & Hm & Hvi' & _ & Hres);
    [apply demo_kend_ok|exact Hvi|vm_compute; split; [discriminate|reflexivity]|reflexivity|exact Hr|exact Ho|lia|apply Hent|].
  exists rc, s', own', l'. destruct Hres as [(-> & He & _)|(-> & _)].
  { change (8192 / 4096) with 2 in He. exact (conj Hm (conj Hvi' (conj eq_refl He))). }
  exfalso.
  assert (match mappages (fst demo_pt) 8192 PGSIZE (fst demo_page) 22 (snd demo_page) with
          | Ret (rc, _) => rc =? 0 | _ => true end = true) as Hc by (vm_compute; reflexivity).
  rewrite Hm in Hc. discriminate Hc.
Defined.

Lemma demo_map_inv : exists own l,
  vm_inv demo_kend own l demo_map (fst demo_pt) /\
  (forall va, 0 <= va < MAXVA -> entry demo_map (fst demo_pt) va =
     if va / 4096 =? 2 then Some (mk_pte (fst demo_page) 22) else None).
Proof.
  destruct demo_page_inv as (own & l & Hvi & Hr & Ho & Hent).
  destruct (mappages_page demo_kend demo_kend_ok own l (snd demo_page) (fst demo_pt) 8192 (fst demo_page) 22)
    as (rc & s' & own' & l' & used & Hm & _ & Hvi' & _ & _ & Hres);
    [exact Hvi|vm_compute; split; [discriminate|reflexivity]|reflexivity|exact (ram_is_page demo_kend demo_kend_ok _ Hr)
    |lia|apply Hent|exact Ho|intros _; exact Hr|].
  assert (demo_map = s') as -> by (unfold demo_map; by rewrite Hm).
  exists own', l'. split; [exact Hvi'|]. destruct Hres as [(-> & He & _)|(-> & _)].
  - intros va Hva. change (8192 / 4096) with 2 in He. rewrite (He va Hva), Hent. reflexivity.
  - exfalso.
    assert (match mappages (fst demo_pt) 8192 PGSIZE (fst demo_page) 22 (snd demo_page) with
            | Ret (rc, _) => rc =? 0 | _ => true end = true) as Hc by (vm_compute; reflexivity).
    rewrite Hm in Hc. discriminate Hc.
Qed.

(** The mapped page lies between two unmapped ones: all three are unmapped. *)
Lemma vm_uvmunmap_deletes_witness : exists own l,
  vm_inv demo_kend own l demo_map (fst demo_pt) /\
  exists s' own', uvmunmap demo_kend (fst demo_pt) 4096 3 true demo_map = Ret s' /\
    vm_inv demo_kend own' (pages_of demo_map (fst demo_pt) 4096 3 ++ l) s' (fst demo_pt) /\
    pages_of demo_map (fst demo_pt) 4096 3 = [fst demo_page] /\
    entry s' (fst demo_pt) 8192 = None.
Proof.
  destruct demo_map_inv as (own & l & Hvi & Hent). exists own, l. split; [exact Hvi|].
  destruct (vm_uvmunmap_deletes demo_kend own l demo_map (fst demo_pt) 4096 3 true)
    as (s' & own' & Hu & Hvi' & He & _);
    [apply demo_kend_ok|exact Hvi|lia|vm_compute; discriminate|reflexivity| |].
  - intros _ va e Hva _ He. rewrite (Hent va Hva) in He. destruct (va / 4096 =? 2); [|discriminate He].
    apply (inj Some) in He. rewrite <- He. vm_compute. reflexivity.
  - change (Z.of_nat 3) with 3 in Hu. cbn iota in Hvi'. exists s', own'.
    split; [exact Hu|]. split; [exact Hvi'|]. split; [vm_compute; reflexivity|].
    apply (He 8192). vm_compute. split; [discriminate|reflexivity].
Defined.

(** A process that does no paging. *)
Definition demo_proc (pt size : Z) : vproc :=
  mk_vproc pt size 0 None [] 1 None 0 (replicate 128 0) [] 0 false 0.

Lemma vm_copyout_copyin_witness :
  let v := mk_vm demo_map (demo_proc (fst demo_pt) 12288) 0 in
  exists s', let v' := {| v with ph := s' |} in
    copyout demo_kend false 6 (fst demo_pt) 8200 [1; 2; 3; 4; 5] v = Ret (0, v') /\
    copyin demo_kend false 6 (fst demo_pt) 8200 5 v' = Ret (Some [1; 2; 3; 4; 5], v').
Proof.
  intros v. destruct demo_map_inv as (own & l & Hvi & Hent).
  destruct (vm_copyout_copyin demo_kend false own l v (fst demo_pt) 8200 [1; 2; 3; 4; 5])
    as (s' & Hout & Hin & _);
    [apply demo_kend_ok|exact Hvi|lia|vm_compute; discriminate| |].
  2:{ change (S (length [1; 2; 3; 4; 5])) with 6%nat in *. change (Z.of_nat (length [1; 2; 3; 4; 5])) with 5 in *.
      exists s'. exact (conj Hout Hin). }
  intros va Hva. simpl in Hva.
  assert (va / 4096 = 2) as Hdiv by (pose proof (Z.div_mod va 4096); pose proof (Z.mod_pos_bound va 4096); lia).
  exists (mk_pte (fst demo_page) 22). rewrite Hent.
  - rewrite Hdiv. split; [done|]. vm_compute. split; reflexivity.
  - rewrite MAXVA_eq. lia.
Defined.
