(* ===== verification/VmSwap.v ===== *)
(** * Page replacement and the swap file *)
From S2P Require Import Prelude Mem MemFacts Vm PageTable VmMap KallocSpec VmSpec.

Import Mem Vm.

#[local] Open Scope Z_scope.

(** ** FIFO *)

Lemma age_of_times now t : t <= now < t + 2 ^ 64 -> u64 (u64 now - u64 t) = now - t.
Proof.
  intros H. unfold wrapu. rewrite <- Zminus_mod. apply Z.mod_small. lia.
Qed.

(** ** CLOCK *)

Definition unref (e : meta) : meta := {| e with referenced := false |}.

(** The steps from [start] to entry [i] around the circle. *)
Definition steps (start : Z) (i : nat) : Z := (Z.of_nat i - start) mod PGMETA_SIZE.

(** The metadata after the hand has passed the first [k] entries. *)
Definition passed (start k : Z) (l : list meta) : list meta :=
  imap (fun i e => if evictable e && (steps start i <? k) then unref e else e) l.

Lemma lookup_passed start k l i :
  passed start k l !! i =
  (fun e => if evictable e && (steps start i <? k) then unref e else e) <$> l !! i.
Proof. unfold passed. by rewrite list_lookup_imap. Qed.

Lemma steps_at start k : 0 <= start < 1024 -> 0 <= k < 1024 ->
  steps start (Z.to_nat ((start + k) mod 1024)) = k.
Proof.
  intros Hs Hk. unfold steps, PGMETA_SIZE. pose proof (Z.mod_pos_bound (start + k) 1024 ltac:(lia)).
  rewrite Z2Nat.id by lia. rewrite Zminus_mod_idemp_l. replace (start + k - start) with k by lia.
  by apply Z.mod_small.
Qed.

Lemma steps_inj start i k : 0 <= start < 1024 -> (i < 1024)%nat -> steps start i = k ->
  i = Z.to_nat ((start + k) mod 1024).
Proof.
  intros Hs Hi <-. unfold steps, PGMETA_SIZE. rewrite Zplus_mod_idemp_r.
  replace (start + (Z.of_nat i - start)) with (Z.of_nat i) by lia. rewrite Z.mod_small by lia. lia.
Qed.

(** The hand passes entry [start + k]. *)
Lemma passed_step start k l e :
  0 <= start < 1024 -> 0 <= k < 1024 -> length l = 1024%nat ->
  l !! Z.to_nat ((start + k) mod 1024) = Some e ->
  passed start (k + 1) l =
    if evictable e then <[Z.to_nat ((start + k) mod 1024) := unref e]> (passed start k l)
    else passed start k l.
Proof.
  intros Hs Hk Hlen He. set (i := Z.to_nat ((start + k) mod 1024)) in *.
  pose proof (steps_at start k Hs Hk) as Hst. fold i in Hst.
  apply list_eq. intros j. rewrite lookup_passed.
  destruct (Nat.eq_dec j i) as [->|Hne].
  - rewrite He. simpl. rewrite Hst, (proj2 (Z.ltb_lt _ _)) by lia.
    destruct (evictable e) eqn:Hev; simpl.
    + rewrite list_lookup_insert_eq; [done|]. unfold passed. rewrite length_imap. by eapply lookup_lt_Some.
    + rewrite lookup_passed, He. simpl. by rewrite Hev.
  - assert ((if evictable e then <[i := unref e]> (passed start k l) else passed start k l) !! j
            = passed start k l !! j) as -> by (destruct (evictable e); [by rewrite list_lookup_insert_ne|done]).
    rewrite lookup_passed. destruct (l !! j) as [y|] eqn:Hy; [|done]. simpl.
    assert (steps start j <> k) as Hsj.
    { intros Hc. apply Hne. unfold i. apply steps_inj; [done| |done].
      rewrite <- Hlen. by eapply lookup_lt_Some. }
    destruct (Z.ltb_spec (steps start j) (k + 1)), (Z.ltb_spec (steps start j) k); try lia; done.
Qed.

Lemma clock_scan_spec n : forall start k l,
  0 <= start < 1024 -> 0 <= k -> k + Z.of_nat n = 1024 -> (0 < n)%nat -> length l = 1024%nat ->
  (forall j e, l !! j = Some e -> evictable e = true -> steps start j < k -> referenced e = true) ->
  match clock_scan n start ((start + k) mod 1024) (passed start k l) with
  | (Some i, l') => exists e, l !! i = Some e /\ evictable e = true /\ referenced e = false /\
      (forall j y, l !! j = Some y -> evictable y = true -> steps start j < steps start i -> referenced y = true) /\
      l' = passed start (steps start i) l
  | (None, l') =>
      (forall j e, l !! j = Some e -> evictable e = true -> referenced e = true) /\
      l' = passed start 1024 l
  end.
Proof.
  induction n as [|n IH]; intros start k l Hs Hk Hn Hpos Hlen Hprev; [lia|].
  cbn [clock_scan]. set (i := Z.to_nat ((start + k) mod 1024)).
  pose proof (Z.mod_pos_bound (start + k) 1024 ltac:(lia)) as Hb.
  assert (exists e, l !! i = Some e) as [e He] by (apply lookup_lt_is_Some_2; lia).
  pose proof (steps_at start k Hs ltac:(lia)) as Hst. fold i in Hst.
  pose proof (passed_step start k l e Hs ltac:(lia) Hlen He) as Hpass. fold i in Hpass.
  rewrite lookup_passed, He. cbn [fmap option_fmap option_map].
  rewrite Hst, Z.ltb_irrefl, andb_false_r.
  assert (((start + k) mod 1024 + 1) mod PGMETA_SIZE = (start + (k + 1)) mod 1024) as Hnext.
  { unfold PGMETA_SIZE. rewrite Zplus_mod_idemp_l. by rewrite Z.add_assoc. }
  rewrite Hnext.
  (* the continuation, whatever the entry was *)
  assert ((evictable e = true -> referenced e = true) ->
    match (if (start + (k + 1)) mod 1024 =? start then (None, passed start (k + 1) l)
           else clock_scan n start ((start + (k + 1)) mod 1024) (passed start (k + 1) l)) with
    | (Some i, l') => exists e, l !! i = Some e /\ evictable e = true /\ referenced e = false /\
        (forall j y, l !! j = Some y -> evictable y = true -> steps start j < steps start i -> referenced y = true) /\
        l' = passed start (steps start i) l
    | (None, l') => (forall j e, l !! j = Some e -> evictable e = true -> referenced e = true) /\
        l' = passed start 1024 l
    end) as Hcont.
  { intros Hr.
    assert (forall j y, l !! j = Some y -> evictable y = true -> steps start j < k + 1 -> referenced y = true) as Hprev'.
    { intros j y Hy Hev Hj. destruct (Z.eq_dec (steps start j) k) as [Heq|]; [|eapply Hprev; [done..|lia]].
      apply steps_inj in Heq; [|done|rewrite <- Hlen; by eapply lookup_lt_Some]. fold i in Heq. subst j.
      rewrite He in Hy. injection Hy as <-. auto. }
    destruct (Z.eq_dec k 1023) as [->|Hk'].
    - replace (start + (1023 + 1)) with (start + 1 * 1024) by lia.
      rewrite Z.mod_add, Z.mod_small, Z.eqb_refl by lia. split; [|done].
      intros j y Hy Hev. eapply Hprev'; [done..|]. unfold steps, PGMETA_SIZE.
      apply Z.mod_pos_bound. lia.
    - assert ((start + (k + 1)) mod 1024 <> start) as Hne.
      { intros Hc. pose proof (steps_at start (k + 1) Hs ltac:(lia)) as H1.
        pose proof (steps_at start 0 Hs ltac:(lia)) as H0.
        rewrite Z.add_0_r, (Z.mod_small start) in H0 by lia. rewrite Hc in H1. lia. }
      rewrite (proj2 (Z.eqb_neq _ _) Hne). apply IH; [done|lia|lia|lia|done|done]. }
  destruct (evictable e) eqn:Hev.
  - destruct (referenced e) eqn:Href.
    + fold (unref e). rewrite <- Hpass. by apply Hcont.
    + exists e. rewrite Hst. by split_and!.
  - rewrite <- Hpass. apply Hcont. done.
Qed.

Lemma passed_0 start l : passed start 0 l = l.
Proof.
  apply list_eq. intros i. rewrite lookup_passed. destruct (l !! i) as [e|]; [|done]. simpl.
  rewrite (proj2 (Z.ltb_ge _ _)) by (unfold steps, PGMETA_SIZE; apply Z.mod_pos_bound; lia).
  by rewrite andb_false_r.
Qed.

(** ** Files *)

Lemma readi_writei file file' rm off bytes r :
  writei file rm off bytes = (r, file') -> r = Z.of_nat (length bytes) ->
  0 <= off -> 0 < r -> off + r < 2 ^ 32 -> readi file' off r = bytes.
Proof.
  unfold writei. intros Hw Hr Hoff Hpos Hb.
  cbv zeta in Hw. destruct (_ || _) eqn:E1; [simplify_eq/=; lia|].
  destruct (MAXFILE * BSIZE <? _) eqn:E2; [simplify_eq/=; lia|].
  apply orb_false_iff in E1 as [E1%Z.ltb_ge _].
  set (tot := Z.to_nat _) in Hw. injection Hw as Htot Hf.
  assert (tot = length bytes) as Ht by lia. rewrite Ht in Hf.
  assert (length (take (Z.to_nat off) file) = Z.to_nat off) as Hl by (rewrite length_take; lia).
  assert (Z.of_nat (length file') = off + r + Z.of_nat (length (drop (Z.to_nat off + length bytes) file))) as Hlf.
  { rewrite <- Hf, !length_app, Hl, firstn_all. lia. }
  unfold readi. rewrite (proj2 (Z.ltb_ge _ off)) by lia. rewrite (wrapu_small 32) by lia.
  rewrite (proj2 (Z.ltb_ge (off + r) off)) by lia. simpl. rewrite (proj2 (Z.ltb_ge _ _)) by lia.
  rewrite <- Hf, drop_app_length' by done. rewrite firstn_all.
  apply take_app_length'. lia.
Qed.

(** Pages beyond the 67 that the largest file holds cannot be written. *)
Lemma writei_too_large file rm sl bytes :
  67 <= sl < 1024 -> length bytes = 4096%nat -> writei file rm (u32 (sl * PGSIZE)) bytes = (-1, file).
Proof.
  intros Hsl Hlen. unfold writei, PGSIZE. rewrite (wrapu_small 32 (sl * 4096)) by lia. rewrite Hlen.
  destruct (_ || _); [done|]. change (MAXFILE * BSIZE) with 274432.
  by rewrite (proj2 (Z.ltb_lt _ _)) by lia.
Qed.

Lemma writei_page file rm sl bytes :
  0 <= sl < 67 -> length bytes = 4096%nat -> sl * 4096 <= Z.of_nat (length file) -> 4096 <= rm ->
  exists file', writei file rm (u32 (sl * PGSIZE)) bytes = (4096, file').
Proof.
  intros Hsl Hlen Hf Hrm. unfold writei, PGSIZE. rewrite (wrapu_small 32 (sl * 4096)) by lia. rewrite Hlen.
  rewrite (wrapu_small 32) by lia. rewrite !(proj2 (Z.ltb_ge _ _)) by lia. simpl.
  change (MAXFILE * BSIZE) with 274432. rewrite (proj2 (Z.ltb_ge _ _)) by lia.
  eexists. f_equal. lia.
Qed.

(** ** Slots *)

Lemma swap_alloc_slot_spec p sl p' :
  swap_alloc_slot p = (Some sl, p') ->
  0 <= sl < 1024 /\ slot_used (swap_bitmap p) sl = false /\
  p' = {| p with swap_bitmap := <[Z.to_nat (Z.shiftr sl 3) :=
         Z.lor (default 0 (swap_bitmap p !! Z.to_nat (Z.shiftr sl 3))) (Z.shiftl 1 (Z.land sl 7))]> (swap_bitmap p) |}.
Proof.
  unfold swap_alloc_slot. destruct (find_idx _ _) as [i|] eqn:Hf; [|done]. intros [= <- <-].
  pose proof (find_idx_lt _ _ _ Hf) as Hlt. rewrite length_seq in Hlt.
  apply find_idx_hit in Hf as (x & Hx & Hu). apply lookup_seq in Hx as [-> _]. simpl in Hu.
  apply negb_true_iff in Hu. split_and!; [lia|lia|done|done].
Qed.

(** Freeing the slot just allocated restores the bitmap. *)
Lemma swap_free_alloc p sl p' : length (swap_bitmap p) = 128%nat ->
  swap_alloc_slot p = (Some sl, p') -> forall q, swap_bitmap q = swap_bitmap p' ->
  swap_bitmap (swap_free_slot sl q) = swap_bitmap p.
Proof.
  intros Hlen Ha q Hq. apply swap_alloc_slot_spec in Ha as (Hr & Hu & ->). simpl in Hq.
  unfold swap_free_slot. rewrite (proj2 (Z.ltb_ge sl 0)), (proj2 (Z.leb_gt 1024 sl)) by lia. simpl.
  rewrite Hq. unfold slot_used in Hu. set (b := Z.to_nat (Z.shiftr sl 3)) in *.
  assert (b < 128)%nat as Hb.
  { unfold b. rewrite Z.shiftr_div_pow2 by lia. change (2 ^ 3) with 8.
    assert (sl / 8 < 128) by (apply Z.div_lt_upper_bound; lia). pose proof (Z.div_pos sl 8). lia. }
  destruct (lookup_lt_is_Some_2 (swap_bitmap p) b ltac:(lia)) as [x Hx].
  rewrite list_lookup_insert_eq by lia. rewrite Hx in *. cbn [default] in *. unfold id in *.
  rewrite list_insert_insert_eq. apply list_insert_id. rewrite Hx. f_equal.
  pose proof (Z.land_nonneg sl 7) as Hk. set (k := Z.land sl 7) in *.
  assert (0 <= k) as Hk0 by (apply Hk; lia).
  symmetry. apply Z.bits_inj'. intros n Hn. rewrite Z.land_spec, Z.lor_spec, Z.lnot_spec by done.
  rewrite Z.shiftl_spec by done. destruct (Z.eq_dec n k) as [->|Hne].
  - rewrite Z.sub_diag. simpl. by rewrite andb_false_r, Hu.
  - assert (Z.testbit 1 (n - k) = false) as ->; [|by rewrite orb_false_r, andb_true_r].
    destruct (Z.lt_ge_cases (n - k) 0); [by apply Z.testbit_neg_r|].
    replace 1 with (2 ^ 0) by done. apply Z.pow2_bits_false. lia.
Qed.

Lemma swap_alloc_used p sl p' : length (swap_bitmap p) = 128%nat ->
  swap_alloc_slot p = (Some sl, p') -> slot_used (swap_bitmap p') sl = true.
Proof.
  intros Hlen Ha. apply swap_alloc_slot_spec in Ha as (Hr & Hu & ->). unfold slot_used. cbn [swap_bitmap].
  set (b := Z.to_nat (Z.shiftr sl 3)) in *.
  assert (b < 128)%nat as Hb.
  { unfold b. rewrite Z.shiftr_div_pow2 by lia. change (2 ^ 3) with 8.
    assert (sl / 8 < 128) by (apply Z.div_lt_upper_bound; lia). pose proof (Z.div_pos sl 8). lia. }
  rewrite list_lookup_insert_eq by lia. cbn [default]. unfold id.
  assert (0 <= Z.land sl 7) as Hk by (apply Z.land_nonneg; lia).
  rewrite Z.lor_spec, Z.shiftl_spec by done. rewrite Z.sub_diag. by rewrite orb_true_r.
Qed.

(** ** Eviction to the swap file and back *)
Import Mem Vm.


Section evict.
Context (kend : Z) (Hkend : 4096 <= kend <= PHYSTOP) (use_clock : bool).

Local Notation ram := (ram kend).
Local Notation vm_inv := (vm_inv kend).

(** Changing the contents of a page that is no table and not free. *)
Lemma fill_page own l s r q m' :
  vm_inv own l s r -> own q = Other -> (forall x, page_of x <> q -> m' x = mem s x) ->
  vm_inv own l (mk_phys m' (freelist s)) r /\
  forall va, pte_addr m' r va = pte_addr (mem s) r va /\ leaf m' r va = leaf (mem s) r va.
Proof.
  intros [Hf Ho Hi] Hq Hm.
  assert (tables_kept own (mem s) m') as Htk.
  { intros x Hx. apply Hm. intros Heq. by rewrite Heq, Hq in Hx. }
  split; [|intros va; by apply (tables_kept_pte kend own)].
  split; [|done|by eapply pt_inv_frame].
  apply (free_pages_frame kend own); [done|done|]. intros x Hx _. apply Hm. congruence.
Qed.

(** Taking the top free page, filling it and mapping it for the user where the
    table already exists. *)
Lemma take_and_map own q l s r va a perm :
  vm_inv own (q :: l) s r -> 0 <= va < MAXVA -> va mod 4096 = 0 -> entry s r va = None ->
  pte_addr (mem s) r va = Some a -> 0 <= perm < 1024 -> has_flag perm PTE_U = true ->
  exists s1, kalloc s = (q, s1) /\ (q =? 0) = false /\
    (forall x, page_of x <> q -> mem s1 x = mem s x) /\
    forall m', (forall x, page_of x <> q -> m' x = mem s1 x) ->
    exists own2 l2 s2, mappages r va PGSIZE q perm (mk_phys m' (freelist s1)) = Ret (0, s2) /\
      vm_inv own2 l2 s2 r /\
      (forall va', 0 <= va' < MAXVA ->
         entry s2 r va' = if va' / 4096 =? va / 4096 then Some (mk_pte q perm) else entry s r va') /\
      (forall x, page_of x = q -> mem s2 x = m' x) /\
      (forall x n, own (page_of x) = User n -> mem s2 x = mem s x).
Proof.
  intros Hvi Hva Hal Hnone Ha Hperm Hu.
  destruct (kalloc_inv kend Hkend _ _ _ _ Hvi) as (s1 & Hk & Hrq & Hfq & Hvi1 & Hm1).
  exists s1. split; [done|]. split; [by apply Z.eqb_neq, (ram_nonzero kend)|]. split; [done|].
  intros m' Hm'. set (own1 := use_page q Other own) in *.
  assert (own1 q = Other) as Hq1 by apply use_page_same.
  destruct (fill_page own1 l s1 r q m' Hvi1 Hq1 Hm') as [Hvi2 Hpl].
  assert (tables_kept own (mem s) (mem s1)) as Htk.
  { intros x Hx. apply Hm1. intros Heq. by rewrite Heq, Hfq in Hx. }
  pose proof (fun va => tables_kept_pte kend own _ _ r va (vi_pt _ _ _ _ _ Hvi) Htk) as Hpl1.
  assert (forall va', entry (mk_phys m' (freelist s1)) r va' = entry s r va') as Hent.
  { intros va'. apply entry_leaf. simpl. rewrite (proj2 (Hpl va')). apply Hpl1. }
  destruct (mappages_page kend Hkend own1 l (mk_phys m' (freelist s1)) r va q perm) as
    (rc & s2 & own2 & l2 & used & Hmp & _ & Hvi' & _ & Huk & Hres); try done.
  { by apply (ram_is_page kend). }
  { by rewrite Hent. }
  destruct Hres as [(-> & He & _)|(_ & _ & Hnp & _)].
  2:{ simpl in Hnp. rewrite (proj1 (Hpl va)), (proj1 (Hpl1 va)) in Hnp. congruence. }
  exists own2, l2, s2. split; [exact Hmp|]. split; [exact Hvi'|]. split_and!.
  - intros va' Hva'. rewrite He by done. by rewrite Hent.
  - intros x Hx. apply Huk; rewrite Hx, Hq1; done.
  - intros x n Hx. assert (page_of x <> q) as Hne by congruence.
    rewrite Huk.
    + simpl. rewrite Hm' by done. by apply Hm1.
    + unfold own1. rewrite use_page_other by done. congruence.
    + unfold own1. rewrite use_page_other by done. by rewrite Hx.
Qed.

(** What the replacement algorithm picks, with the process after its scan. *)
Definition victim (p : vproc) : option nat * vproc :=
  if use_clock then clock_victim p else (fifo_victim p, p).

(** The next victim is entry [best] of the metadata, [e]: a page of the current
    process that is mapped for the user with the table entry [x], must be
    written to swap slot [sl], and fits there. *)
Record swappable (v : vm) (r : Z) (best : nat) (e : meta) (x sl : Z) (file : list Z) : Prop := {
  sw_root : pagetable (cur v) = r;
  sw_victim : fst (victim (cur v)) = Some best;
  sw_meta : pgmeta (snd (victim (cur v))) !! best = Some e;
  sw_va : 0 < va e < MAXVA /\ va e mod 4096 = 0;
  sw_unique : pgmeta_find (va e) (snd (victim (cur v))) = Some best;
  sw_entry : entry (ph v) r (va e) = Some x /\ has_flag x PTE_U = true;
  sw_dirty : dirty e || has_flag x PTE_W = true;
  sw_file : swapip (cur v) = Some file;
  sw_slot : fst (swap_alloc_slot (cur v)) = Some sl;
  sw_bitmap : length (swap_bitmap (cur v)) = 128%nat;
  sw_room : sl < 67 /\ sl * 4096 <= Z.of_nat (length file) /\ 4096 <= room v
}.

(** The victim's scan changes the metadata only. *)
Lemma victim_meta p : exists l, snd (victim p) = {| p with pgmeta := l |}.
Proof.
  unfold victim, clock_victim. destruct use_clock.
  - destruct (clock_scan _ _ _ _) as [i l]. by exists l.
  - exists (pgmeta p). by destruct p.
Qed.

Lemma swap_alloc_slot_meta p ml :
  swap_alloc_slot {| p with pgmeta := ml |} =
  (fst (swap_alloc_slot p), let q := snd (swap_alloc_slot p) in {| q with pgmeta := ml |}).
Proof.
  unfold swap_alloc_slot. cbn [swap_bitmap]. generalize (seq 0 1024). intros ks.
  by destruct (find_idx _ ks).
Qed.

(** The metadata entry of an evicted page. *)
Definition evicted (e : meta) (sl : Z) : meta :=
  {| e with resident := false; dirty := false; in_swap := true; slot := sl |}.

Lemma evict_spec own l v r best e x sl file :
  vm_inv own l (ph v) r -> swappable v r best e x sl file ->
  exists s' p' file' own', try_evict_one kend use_clock v = Ret (0, mk_vm s' p' (room v - (Z.of_nat (length file') - Z.of_nat (length file)))) /\
    vm_inv own' (PTE2PA x :: l) s' r /\
    (forall va', 0 <= va' < MAXVA ->
       entry s' r va' = if va' / 4096 =? va e / 4096 then None else entry (ph v) r va') /\
    pte_addr (mem s') r (va e) <> None /\
    (forall y n, n <> va e / 4096 -> own (page_of y) = User n -> mem s' y = mem (ph v) y /\ own' (page_of y) = User n) /\
    pgmeta p' = <[best := evicted e sl]> (pgmeta (snd (victim (cur v)))) /\
    swapip p' = Some file' /\ readi file' (u32 (sl * PGSIZE)) PGSIZE = mem_bytes (mem (ph v)) (PTE2PA x) 4096 /\
    swap_bitmap p' = swap_bitmap (snd (swap_alloc_slot (cur v))) /\
    pagetable p' = r /\ segs p' = segs (cur v) /\ execip p' = execip (cur v) /\ sz p' = sz (cur v) /\
    heap_brk p' = heap_brk (cur v) /\ tf_sp p' = tf_sp (cur v) /\ page_seq_ctr p' = page_seq_ctr (cur v).
Proof.
  intros Hvi [Hr Hvic Hmeta Hva Huniq [Hent Hu] Hdirty Hfile Hslot Hbm (Hsl67 & Hlen & Hroom)].
  unfold try_evict_one. fold (victim (cur v)).
  destruct (victim_meta (cur v)) as [ml Hvm]. destruct (victim (cur v)) as [b p1] eqn:Hv. simpl in Hvic, Hvm, Hmeta.
  subst b. simpl in Huniq |- *. rewrite Hmeta.
  assert (pagetable p1 = r) as Hr1 by (rewrite Hvm; done). rewrite Hr1.
  destruct (walkaddr_user kend Hkend own l (ph v) r (va e) x Hvi ltac:(lia) Hent Hu) as (_ & _ & a & Hwk & Hld).
  rewrite Hwk. cbn [mbind outcome_bind]. rewrite Hld. clear Hld.
  destruct (entry_some _ _ _ _ Hent) as [Hx Hxv]. rewrite <- Hx in Hxv. rewrite Hxv.
  assert (pte_addr (mem (ph v)) r (va e) = Some a /\ (a =? 0) = false) as [Ha Ha0].
  { rewrite walk_ok in Hwk by lia. rewrite (walk_lookup kend own) in Hwk by apply Hvi.
    injection Hwk as Hwk. destruct (pte_addr (mem (ph v)) r (va e)) as [a'|] eqn:Ha'; simpl in Hwk.
    - subst a'. split; [done|].
      destruct (pte_addr_pos kend Hkend own _ _ _ _ (vi_pt _ _ _ _ _ Hvi) Ha') as (_ & _ & _ & _ & _ & Hnz & _).
      by apply Z.eqb_neq.
    - unfold leaf in Hx. rewrite Ha' in Hx. simpl in Hx. by rewrite Hx, has_flag_0 in Hxv. }
  rewrite Ha0. cbn [orb negb]. rewrite Hdirty.
  destruct (swap_alloc_slot (cur v)) as [osl p2] eqn:Hsa. simpl in Hslot. subst osl.
  assert (swap_alloc_slot p1 = (Some sl, {| p2 with pgmeta := ml |})) as Hsa1.
  { by rewrite Hvm, swap_alloc_slot_meta, Hsa. }
  pose proof (swap_alloc_slot_spec _ _ _ Hsa) as (Hslr & _ & Hp2).
  unfold swap_out. cbn [cur]. assert (swapip p1 = Some file) as -> by (rewrite Hvm; done). rewrite Hsa1.
  cbn [ph room].
  assert (length (mem_bytes (mem (ph v)) (PTE2PA x) 4096) = 4096%nat) as Hbl.
  { apply mem_bytes_length. }
  destruct (writei_page file (room v) sl _ ltac:(lia) Hbl Hlen Hroom) as [file' Hw]. rewrite Hw.
  assert (readi file' (u32 (sl * PGSIZE)) PGSIZE = mem_bytes (mem (ph v)) (PTE2PA x) 4096) as Hrd.
  { eapply readi_writei; [exact Hw| | | |]; try (rewrite ?Hbl; unfold PGSIZE; lia).
    - apply wrapu_range. lia.
    - unfold PGSIZE. rewrite wrapu_small by lia. lia. }
  change (4096 =? PGSIZE) with true. cbn [negb].
  assert (u16 sl = sl) as -> by (apply wrapu_small; lia).
  assert (pagetable p2 = r) as Hr2 by (rewrite Hp2; done).
  cbn [cur ph]. unfold set_meta. cbn [pagetable]. rewrite Hr2.
  destruct (uvmunmap_spec kend Hkend own l (ph v) r (va e) 1 true Hvi ltac:(lia)) as
    (s' & own' & Hun & Hvi' & Hent' & Haddr & Hown' & Hmem').
  { change (4096 * Z.of_nat 1) with 4096. destruct (rounddown_page (va e) ltac:(lia)) as (_ & _ & _ & _ & Hb).
    rewrite rounddown_eq, (proj2 Hva) in Hb. lia. }
  { apply Hva. }
  { intros _ va' e' Hva' Hin He'. unfold in_range in Hin. apply andb_prop in Hin as [H1%Z.leb_le H2%Z.ltb_lt].
    rewrite (entry_same_page _ _ va' (va e)) in He' by lia. congruence. }
  change (Z.of_nat 1) with 1 in Hun. rewrite Hun. cbn [mbind outcome_bind pgmeta cur].
  assert (best < length ml)%nat as Hbl' by (rewrite Hvm in Hmeta; simpl in Hmeta; by eapply lookup_lt_Some).
  rewrite list_lookup_insert_eq by done. rewrite list_insert_insert_eq.
  eexists s', _, file', own'. split; [reflexivity|].
  cbn [pgmeta swapip swap_bitmap pagetable segs execip sz heap_brk tf_sp page_seq_ctr snd].
  repeat match goal with |- _ /\ _ => split end.
  - unfold pages_of in Hvi'. simpl in Hvi'. rewrite Z.add_0_r, Hent in Hvi'. simpl in Hvi'. exact Hvi'.
  - intros va' Hva'. rewrite Hent' by done. unfold in_range.
    destruct (Z.eqb_spec (va' / 4096) (va e / 4096)) as [->|Hne].
    + by rewrite Z.leb_refl, (proj2 (Z.ltb_lt _ _)) by lia.
    + destruct (Z.leb_spec (va e / 4096) (va' / 4096)); [|done].
      by rewrite (proj2 (Z.ltb_ge _ _)) by lia.
  - rewrite Haddr by lia. by rewrite Ha.
  - intros y n Hn Hy. assert (own' (page_of y) = User n) as Hy'.
    { destruct (Hown' (page_of y)) as [->|(_ & k & Hk & Hkr)]; [done|]. rewrite Hy in Hk. injection Hk as ->. lia. }
    split; [|done]. apply Hmem'; [by rewrite Hy'|by rewrite Hy].
  - rewrite Hvm. reflexivity.
  - reflexivity.
  - exact Hrd.
  - reflexivity.
  - reflexivity.
  - by rewrite Hp2.
  - by rewrite Hp2.
  - by rewrite Hp2.
  - by rewrite Hp2.
  - by rewrite Hp2.
  - by rewrite Hp2.
Qed.
(** The evicted page keeps its metadata entry. *)
Lemma find_evicted l best e sl :
  find_idx (fun x => va x =? va e) l = Some best -> l !! best = Some e ->
  find_idx (fun x => va x =? va e) (<[best := evicted e sl]> l) = Some best.
Proof.
  intros Hf He. pose proof (lookup_lt_Some _ _ _ He) as Hlt.
  apply find_idx_Some in Hf as [_ Hfst]. apply find_idx_Some. split.
  - exists (evicted e sl). rewrite list_lookup_insert_eq by done. split; [done|]. simpl. apply Z.eqb_refl.
  - intros j y Hj Hy. rewrite list_lookup_insert_ne in Hy by lia. by eapply Hfst.
Qed.

(** A fault on an unmapped page. *)
Lemma vmfault_unmapped own l v r fva pg w :
  vm_inv own l (ph v) r -> 0 <= fva < MAXVA -> 0 <= pg < MAXVA -> pg mod 4096 = 0 -> fva / 4096 = pg / 4096 ->
  entry (ph v) r pg = None ->
  vmfault kend use_clock r fva w v =
    match (i ← find_idx (in_seg pg) (segs (cur v)); segs (cur v) !! i) with
    | Some s => match execip (cur v) with
                | None => Ret (0, v)
                | Some exe =>
                    match pgmeta_find pg (cur v) with
                    | Some k => if match pgmeta (cur v) !! k with Some e => in_swap e | None => false end
                                then fault_swapin kend use_clock r pg k s v
                                else fault_exec kend use_clock r pg w (Some k) s exe v
                    | None => fault_exec kend use_clock r pg w None s exe v
                    end
                end
    | None => if is_heap pg (cur v) || is_stack pg (cur v) then fault_anon kend use_clock r pg v else Ret (0, v)
    end.
Proof.
  intros Hvi Hf Hpg Hal Heq Hnone. unfold vmfault. rewrite (proj2 (Z.leb_gt MAXVA fva)) by lia.
  assert (PGROUNDDOWN fva = pg) as ->.
  { rewrite rounddown_eq, page_base, Heq by lia. pose proof (Z.div_mod pg 4096 ltac:(lia)). lia. }
  rewrite walk_ok by done. rewrite (walk_lookup kend own) by apply Hvi. cbn [mbind outcome_bind].
  assert (negb (default 0 (pte_addr (mem (ph v)) r pg) =? 0) &&
          has_flag (ld (mem (ph v)) (default 0 (pte_addr (mem (ph v)) r pg))) PTE_V = false) as ->.
  { unfold entry, leaf in Hnone. destruct (pte_addr (mem (ph v)) r pg) as [a|]; simpl; [|done].
    destruct (has_flag _ _); [done|]. apply andb_false_r. }
  cbv zeta. destruct (find_idx (in_seg pg) (segs (cur v))) as [i|]; simpl; [|done].
  destruct (segs (cur v) !! i); [|done]. destruct (execip (cur v)); [|done].
  by destruct (pgmeta_find pg (cur v)).
Qed.

Lemma uread_in s r a pg q perm :
  0 <= a < MAXVA -> 0 <= pg < MAXVA -> a / 4096 = pg / 4096 -> is_page q -> 0 <= perm < 1024 ->
  has_flag perm PTE_U = true -> entry s r pg = Some (mk_pte q perm) ->
  uread s r a = Some (mem s (q + a mod 4096)).
Proof.
  intros Ha Hpg Heq Hq Hperm Hu He. unfold uread. rewrite (entry_same_page s r a pg), He by done.
  rewrite has_flag_mk_pte by (done || unfold PTE_U; lia). rewrite Hu. simpl.
  by rewrite PTE2PA_mk_pte.
Qed.

Lemma mem_bytes_lookup m a n i : (i < n)%nat -> mem_bytes m a n !! i = Some (m (a + Z.of_nat i)).
Proof. intros Hi. unfold mem_bytes. rewrite list_lookup_fmap, lookup_seq_lt by done. done. Qed.

End evict.

(** ** Faults on evicted pages: the swap-in, and the zero page of the heap *)
Import Mem Vm.


(** The metadata entry after a swap-in. *)
Definition swapped_in (e : meta) (now : Z) : meta :=
  mk_meta (va e) now true false true false 65535 (perm e).

(** The metadata entry after a zero page was given. *)
Definition zeroed (e : meta) (sl now : Z) : meta :=
  mk_meta (va e) now true false true true sl (Z.lor PTE_U PTE_R).

Section swapin.
Context (kend : Z) (Hkend : 4096 <= kend <= PHYSTOP) (use_clock : bool).

Local Notation ram := (ram kend).
Local Notation vm_inv := (vm_inv kend).

Lemma lookup_evicted v1 ml best (e e' : meta) : pgmeta v1 = <[best := e']> ml -> ml !! best = Some e ->
  pgmeta v1 !! best = Some e' /\ (best < length (pgmeta v1))%nat.
Proof.
  intros Hm He. apply lookup_lt_Some in He. rewrite Hm, length_insert. by rewrite list_lookup_insert_eq.
Qed.

Lemma page_of_put q x : q mod 4096 = 0 -> page_of x <> q -> x < q \/ q + 4096 <= x.
Proof.
  intros Hq Hx. destruct (Z.lt_ge_cases x q); [by left|]. destruct (Z.lt_ge_cases x (q + 4096)); [|by right].
  exfalso. apply Hx. replace x with (q + (x - q)) by lia. apply page_of_offset; [done|lia].
Qed.

(** The swap-in of an evicted page [e] whose bytes are in the file. *)
Lemma swapin_spec own q l v r best e sl file sg :
  vm_inv own (q :: l) (ph v) r -> 0 <= va e < MAXVA -> va e mod 4096 = 0 ->
  entry (ph v) r (va e) = None -> pte_addr (mem (ph v)) r (va e) <> None ->
  pgmeta (cur v) !! best = Some (evicted e sl) -> swapip (cur v) = Some file ->
  length (readi file (u32 (sl * PGSIZE)) PGSIZE) = 4096%nat ->
  0 <= perm e < 1024 -> has_flag (perm e) PTE_U = true ->
  exists v2, fault_swapin kend use_clock r (va e) best sg v = Ret (q, v2) /\ q <> 0 /\ is_page q /\
    (forall va', 0 <= va' < MAXVA -> entry (ph v2) r va' =
       if va' / 4096 =? va e / 4096 then Some (mk_pte q (perm e)) else entry (ph v) r va') /\
    (forall i, 0 <= i < 4096 ->
       readi file (u32 (sl * PGSIZE)) PGSIZE !! Z.to_nat i = Some (mem (ph v2) (q + i))) /\
    (forall x n, own (page_of x) = User n -> mem (ph v2) x = mem (ph v) x) /\
    swap_bitmap (cur v2) = swap_bitmap (swap_free_slot sl (cur v)) /\
    pgmeta (cur v2) = <[best := swapped_in e (page_seq_ctr (cur v))]> (pgmeta (cur v)).
Proof.
  intros Hvi Hva Hal Hnone Hpte Hmeta Hfile Hlen Hperm Hu.
  destruct (pte_addr (mem (ph v)) r (va e)) as [a|] eqn:Ha; [|done].
  destruct (take_and_map kend Hkend own q l (ph v) r (va e) a (perm e) Hvi Hva Hal Hnone Ha Hperm Hu)
    as (s1 & Hk & Hq0 & Hm1 & Hmap).
  assert (ram q) as Hrq by (destruct (vi_free _ _ _ _ _ Hvi) as (_ & ? & _); done).
  set (bytes := readi file (u32 (sl * PGSIZE)) PGSIZE) in *.
  destruct (Hmap (put_bytes (mem s1) q bytes)) as (own2 & l2 & s2 & Hmp & Hvi2 & Hent & Hin & Hout).
  { intros x Hx. rewrite put_bytes_spec, Hlen. change (Z.of_nat 4096) with 4096.
    destruct (page_of_put q x) as [H|H]; [apply Hrq|done|..].
    - by rewrite (proj2 (Z.leb_gt q x)) by lia.
    - rewrite (proj2 (Z.ltb_ge x _)) by lia. by rewrite andb_false_r. }
  unfold fault_swapin, kalloc_or_evict. rewrite Hk, Hq0. cbn [negb mbind outcome_bind].
  rewrite Hq0. cbn [cur ph]. rewrite Hmeta, Hfile. change (slot (evicted e sl)) with sl. change (perm (evicted e sl)) with (perm e).
  fold bytes. rewrite Hlen.
  change (negb (Z.of_nat 4096 =? PGSIZE)) with false. cbv iota.
  assert (perm e =? 0 = false) as Hp0 by (apply Z.eqb_neq; intros H0; by rewrite H0, has_flag_0 in Hu).
  rewrite Hp0. cbn [negb]. rewrite Hmp. cbn [mbind outcome_bind]. rewrite Z.eqb_refl. cbn [negb].
  eexists. split; [reflexivity|]. cbn [ph cur].
  split; [by apply Z.eqb_neq|]. split; [by apply (ram_is_page kend)|]. split; [exact Hent|].
  split.
  { intros i Hi. rewrite Hin by (apply page_of_offset; [apply Hrq|done]).
    rewrite put_bytes_spec, Hlen. change (Z.of_nat 4096) with 4096.
    rewrite (proj2 (Z.leb_le _ _)), (proj2 (Z.ltb_lt _ _)) by lia. simpl.
    replace (q + i - q) with i by lia.
    destruct (lookup_lt_is_Some_2 bytes (Z.to_nat i) ltac:(lia)) as [b Hb]. by rewrite Hb. }
  split; [exact Hout|].
  set (p0 := set_meta best _ (cur v)).
  assert (forall p, pgmeta (swap_free_slot sl p) = pgmeta p /\ page_seq_ctr (swap_free_slot sl p) = page_seq_ctr p) as Hfree.
  { intros p. unfold swap_free_slot. by destruct (_ || _). }
  assert (forall f p, swap_bitmap (update_meta (Some best) f p) = swap_bitmap p) as Hupd.
  { intros f p. simpl. by destruct (pgmeta p !! best). }
  assert (forall p : vproc, (if 0 <? swap_pages p then {| p with swap_pages := swap_pages p - 1 |} else p) =
    {| p with swap_pages := if 0 <? swap_pages p then swap_pages p - 1 else swap_pages p |}) as Hsp.
  { intros p. destruct p; simpl. by destruct (0 <? _). }
  rewrite Hsp. cbn [swap_bitmap pgmeta page_seq_ctr]. rewrite Hupd. cbn [swap_bitmap].
  split.
  { unfold swap_free_slot. by destruct (_ || _). }
  pose proof (lookup_lt_Some _ _ _ Hmeta) as Hlt.
  destruct (Hfree p0) as [Hp1 Hc1]. set (p1 := swap_free_slot sl p0) in *.
  change (pgmeta p0) with (<[best := mk_meta (va e) (seq_no e) true false (referenced e) false 65535 (perm e)]>
                             (pgmeta (cur v))) in Hp1.
  change (page_seq_ctr p0) with (page_seq_ctr (cur v)) in Hc1.
  unfold update_meta. cbn [pgmeta page_seq_ctr]. rewrite Hp1, Hc1, list_lookup_insert_eq by done.
  unfold set_meta. cbn [pgmeta]. by rewrite list_insert_insert_eq.
Qed.

(** The fault on an evicted page outside the program's segments. *)
Lemma anon_spec own q l v r best e sl :
  vm_inv own (q :: l) (ph v) r -> 0 <= va e < MAXVA -> va e mod 4096 = 0 ->
  entry (ph v) r (va e) = None -> pte_addr (mem (ph v)) r (va e) <> None ->
  pgmeta_find (va e) (cur v) = Some best -> pgmeta (cur v) !! best = Some (evicted e sl) ->
  exists v2, fault_anon kend use_clock r (va e) v = Ret (q, v2) /\ q <> 0 /\ is_page q /\
    (forall va', 0 <= va' < MAXVA -> entry (ph v2) r va' =
       if va' / 4096 =? va e / 4096 then Some (mk_pte q (Z.lor PTE_U PTE_R)) else entry (ph v) r va') /\
    (forall i, 0 <= i < 4096 -> mem (ph v2) (q + i) = 0) /\
    swap_bitmap (cur v2) = swap_bitmap (cur v) /\ swapip (cur v2) = swapip (cur v) /\
    pgmeta (cur v2) = <[best := zeroed e sl (page_seq_ctr (cur v))]> (pgmeta (cur v)).
Proof.
  intros Hvi Hva Hal Hnone Hpte Hfind Hmeta.
  destruct (pte_addr (mem (ph v)) r (va e)) as [a|] eqn:Ha; [|done].
  destruct (take_and_map kend Hkend own q l (ph v) r (va e) a (Z.lor PTE_U PTE_R) Hvi Hva Hal Hnone Ha)
    as (s1 & Hk & Hq0 & Hm1 & Hmap); [by vm_compute|done|].
  assert (ram q) as Hrq by (destruct (vi_free _ _ _ _ _ Hvi) as (_ & ? & _); done).
  destruct (Hmap (memset (mem s1) q 0 PGSIZE)) as (own2 & l2 & s2 & Hmp & Hvi2 & Hent & Hin & Hout).
  { intros x Hx. apply memset_out. apply page_of_put; [apply Hrq|done]. }
  unfold fault_anon, pgmeta_alloc, kalloc_or_evict. rewrite Hfind. cbn [cur ph]. rewrite Hk, Hq0.
  cbn [negb mbind outcome_bind]. rewrite Hq0. cbn [ph]. unfold zero_page. rewrite Hmp.
  cbn [mbind outcome_bind]. rewrite Z.eqb_refl. cbn [negb].
  eexists. split; [reflexivity|]. cbn [ph cur].
  split; [by apply Z.eqb_neq|]. split; [by apply (ram_is_page kend)|]. split; [exact Hent|].
  split.
  { intros i Hi. rewrite Hin by (apply page_of_offset; [apply Hrq|done]). apply memset_in. unfold PGSIZE. lia. }
  unfold note_resident, update_meta. rewrite Hmeta. by cbn.
Qed.

End swapin.
