(* ===== verification/VmPaging.v ===== *)
(** * Page replacement, swapping and lazy allocation: the properties *)
From S2P Require Import Prelude Mem MemFacts Vm PageTable VmMap KallocSpec VmSpec VmSwap.

Import Mem Vm.

#[local] Open Scope Z_scope.

(** The FIFO policy picks the page that was loaded first, although the
    load counter is a 64-bit number that wraps around: if the resident pages
    were loaded at moments [t] less than 2^64 loads ago and the metadata keeps
    these moments modulo 2^64, the victim is a resident page no resident page
    was loaded before, the first such entry; and there is no victim only if no
    page is resident. *)
Theorem fifo_victim_oldest p now (t : nat -> Z) :
  page_seq_ctr p = u64 now ->
  (forall i e, pgmeta p !! i = Some e -> evictable e = true ->
     seq_no e = u64 (t i) /\ t i <= now < t i + 2 ^ 64) ->
  match fifo_victim p with
  | Some i => (exists e, pgmeta p !! i = Some e /\ evictable e = true) /\
      (forall j y, pgmeta p !! j = Some y -> evictable y = true -> t i <= t j) /\
      (forall j y, (j < i)%nat -> pgmeta p !! j = Some y -> evictable y = true -> t i < t j)
  | None => forall j y, pgmeta p !! j = Some y -> evictable y = false
  end.
Proof.
  intros Hctr Ht. unfold fifo_victim.
  assert (forall i e, pgmeta p !! i = Some e -> evictable e = true -> age (page_seq_ctr p) e = now - t i) as Hage.
  { intros i e He Hev. destruct (Ht i e He Hev) as [Hs Hr]. unfold age. rewrite Hctr, Hs.
    by apply age_of_times. }
  destruct (scan_min _ _ _ _ _) as [[i e]|] eqn:Hs; simpl.
  - apply scan_min_Some in Hs as (Hi & He & Hall & Hfst). split_and!; [by exists e| |].
    + intros j y Hy Hev. specialize (Hall j y Hy Hev). rewrite (Hage i e), (Hage j y) in Hall by done. lia.
    + intros j y Hj Hy Hev. specialize (Hfst j y Hj Hy Hev). rewrite (Hage i e), (Hage j y) in Hfst by done. lia.
  - exact (proj1 (scan_min_None _ _ _) Hs).
Qed.

(** One circle of the CLOCK hand: the victim is the first resident page
    from the hand on whose reference bit is clear, and exactly the bits of the
    resident pages the hand passed before it are cleared.  When every resident
    page is referenced the circle clears all the bits and ends without a
    victim, although pages could be evicted: the allocation that asked for a
    page then fails. *)
Theorem clock_victim_second_chance p :
  length (pgmeta p) = 1024%nat -> 0 <= clock_hand p ->
  let start := clock_hand p mod PGMETA_SIZE in
  match clock_victim p with
  | (Some i, p') => exists e, pgmeta p !! i = Some e /\ evictable e = true /\ referenced e = false /\
      (forall j y, pgmeta p !! j = Some y -> evictable y = true -> steps start j < steps start i ->
         referenced y = true) /\
      pgmeta p' = passed start (steps start i) (pgmeta p)
  | (None, p') =>
      (forall j y, pgmeta p !! j = Some y -> evictable y = true -> referenced y = true) /\
      pgmeta p' = (fun e => if evictable e then unref e else e) <$> pgmeta p
  end.
Proof.
  intros Hlen Hh start. unfold clock_victim. fold start.
  assert (0 <= start < 1024) as Hs by (apply Z.mod_pos_bound; unfold PGMETA_SIZE; lia).
  pose proof (clock_scan_spec 1024 start 0 (pgmeta p) Hs ltac:(lia) ltac:(lia) ltac:(lia) Hlen) as Hc.
  rewrite passed_0, Z.add_0_r, (Z.mod_small start) in Hc by done.
  change (Z.to_nat PGMETA_SIZE) with 1024%nat.
  destruct (clock_scan 1024 start start (pgmeta p)) as [[i|] l'].
  - apply Hc. intros j e _ _ Hj. pose proof (Z.mod_pos_bound (Z.of_nat j - start) 1024 ltac:(lia)).
    unfold steps, PGMETA_SIZE in Hj. lia.
  - destruct Hc as [Hall ->].
    { intros j e _ _ Hj. pose proof (Z.mod_pos_bound (Z.of_nat j - start) 1024 ltac:(lia)).
      unfold steps, PGMETA_SIZE in Hj. lia. }
    split; [done|]. cbn [pgmeta]. apply list_eq. intros j. rewrite lookup_passed, list_lookup_fmap.
    destruct (pgmeta p !! j) as [y|]; [|done]. simpl.
    rewrite (proj2 (Z.ltb_lt _ _)) by (unfold steps, PGMETA_SIZE; apply Z.mod_pos_bound; lia).
    by rewrite andb_true_r.
Qed.

(** (C36) A dirty page of a program segment that is evicted and touched again
    comes back as it was: under either replacement policy, when the next
    victim is such a page and the swap file can hold it, [try_evict_one]
    succeeds and unmaps it, the next fault anywhere in the page succeeds, and
    after it every user address has its old contents, the swap slot is free
    again and the metadata says resident and not in swap. *)
Theorem swap_out_swap_in kend use_clock own l v r best e x sl file sg exe fva w :
  4096 <= kend <= PHYSTOP -> vm_inv kend own l (ph v) r ->
  swappable use_clock v r best e x sl file ->
  (i ← find_idx (in_seg (va e)) (segs (cur v)); segs (cur v) !! i) = Some sg -> execip (cur v) = Some exe ->
  0 <= perm e < 1024 -> has_flag (perm e) PTE_U = true -> 0 <= fva < MAXVA -> fva / 4096 = va e / 4096 ->
  exists v1 v2 pa, try_evict_one kend use_clock v = Ret (0, v1) /\ entry (ph v1) r (va e) = None /\
    vmfault kend use_clock r fva w v1 = Ret (pa, v2) /\ pa <> 0 /\
    (forall a, 0 <= a < MAXVA -> uread (ph v2) r a = uread (ph v) r a) /\
    swap_bitmap (cur v2) = swap_bitmap (cur v) /\
    exists e2, pgmeta (cur v2) !! best = Some e2 /\ va e2 = va e /\ resident e2 = true /\ in_swap e2 = false.
Proof.
  intros Hkend Hvi Hsw Hsg Hexe Hperm Hpu Hfva Heq. pose proof Hsw as [Hr Hvic Hmeta Hva Huniq [Hent Hu] Hdirty Hfile Hslot Hbm Hroom].
  destruct (evict_spec kend Hkend use_clock own l v r best e x sl file Hvi Hsw)
    as (s' & p' & file' & own' & Hev & Hvi' & Hent' & Hpte & Hkeep & Hm' & Hf' & Hrd & Hb' & Hp' & Hs' & Hx' & _).
  set (rm := room v - _) in Hev.
  assert (0 <= va e < MAXVA) as Hva' by lia.
  assert (entry s' r (va e) = None) as Hnone by (rewrite Hent' by lia; by rewrite Z.eqb_refl).
  assert (pgmeta_find (va e) p' = Some best) as Hfind by (unfold pgmeta_find; rewrite Hm'; by apply find_evicted).
  destruct (lookup_evicted p' _ best e _ Hm' Hmeta) as [Hbest Hblt].
  assert (length (readi file' (u32 (sl * PGSIZE)) PGSIZE) = 4096%nat) as Hlen by (rewrite Hrd; apply mem_bytes_length).
  destruct (swapin_spec kend Hkend use_clock own' (PTE2PA x) l (mk_vm s' p' rm) r best e sl file' sg)
    as (v2 & Hsi & Hq0 & Hqp & Hent2 & Hbytes & Hkept & Hb2 & Hm2);
    [exact Hvi'|exact Hva'|apply Hva|exact Hnone|exact Hpte|exact Hbest|exact Hf'|exact Hlen|exact Hperm|exact Hpu|].
  exists (mk_vm s' p' rm), v2, (PTE2PA x). split; [exact Hev|]. split; [exact Hnone|]. split_and!.
  - rewrite (vmfault_unmapped kend use_clock own' (PTE2PA x :: l) _ r fva (va e) w); try done; [|apply Hva].
    cbn [cur]. rewrite Hs', Hsg, Hx', Hexe, Hfind, Hbest. exact Hsi.
  - done.
  - cbn [ph] in *. intros a Ha. destruct (Z.eq_dec (a / 4096) (va e / 4096)) as [Hpg|Hpg].
    + pose proof (Z.mod_pos_bound a 4096 ltac:(lia)) as Hmod.
      rewrite (uread_in (ph v2) r a (va e) (PTE2PA x) (perm e)); try done.
      2:{ rewrite Hent2 by done. by rewrite Z.eqb_refl. }
      specialize (Hbytes (a mod 4096) Hmod). rewrite Hrd, mem_bytes_lookup in Hbytes by lia.
      rewrite Z2Nat.id in Hbytes by lia. rewrite <- Hbytes.
      unfold uread. by rewrite (entry_same_page (ph v) r a (va e)), Hent, Hu.
    + unfold uread. rewrite Hent2, Hent' by done. rewrite !(proj2 (Z.eqb_neq _ _)) by done.
      destruct (entry (ph v) r a) as [ea|] eqn:Hea; [|done]. destruct (has_flag ea PTE_U) eqn:Hua; [|done].
      destruct (entry_user kend own l (ph v) r a ea Hvi Ha Hea Hua) as [Hra Hoa].
      assert (own (page_of (PTE2PA ea + a mod 4096)) = User (a / 4096)) as Hopg.
      { rewrite page_of_offset; [done|apply Hra|apply Z.mod_pos_bound; lia]. }
      destruct (Hkeep _ _ Hpg Hopg) as [Hmk Hok]. rewrite (Hkept _ _ Hok). by rewrite Hmk.
  - rewrite Hb2. cbn [cur]. destruct (swap_alloc_slot (cur v)) as [osl p2] eqn:Hsa. simpl in Hslot, Hb'. subst osl.
    by apply (swap_free_alloc (cur v) sl p2).
  - exists (swapped_in e (page_seq_ctr p')). rewrite Hm2. cbn [cur].
    by rewrite list_lookup_insert_eq.
Qed.

(** A dirty heap page that is evicted and touched again is lost: the
    fault handler looks at the swap only for pages of program segments, so the
    next fault maps a page of zeros in its place, while the swap slot stays
    taken and the old bytes stay in the swap file. *)
Theorem swap_heap_page_lost kend use_clock own l v r best e x sl file fva w :
  4096 <= kend <= PHYSTOP -> vm_inv kend own l (ph v) r ->
  swappable use_clock v r best e x sl file ->
  (i ← find_idx (in_seg (va e)) (segs (cur v)); segs (cur v) !! i) = None -> is_heap (va e) (cur v) = true ->
  0 <= fva < MAXVA -> fva / 4096 = va e / 4096 ->
  exists v1 v2 pa, try_evict_one kend use_clock v = Ret (0, v1) /\
    vmfault kend use_clock r fva w v1 = Ret (pa, v2) /\ pa <> 0 /\
    (forall a, 0 <= a < MAXVA -> a / 4096 = va e / 4096 -> uread (ph v2) r a = Some 0) /\
    slot_used (swap_bitmap (cur v2)) sl = true /\
    (exists file', swapip (cur v2) = Some file' /\
       readi file' (u32 (sl * PGSIZE)) PGSIZE = mem_bytes (mem (ph v)) (PTE2PA x) 4096) /\
    exists e2, pgmeta (cur v2) !! best = Some e2 /\ va e2 = va e /\ resident e2 = true /\
      in_swap e2 = true /\ slot e2 = sl.
Proof.
  intros Hkend Hvi Hsw Hsg Hheap Hfva Heq. pose proof Hsw as [Hr Hvic Hmeta Hva Huniq [Hent Hu] Hdirty Hfile Hslot Hbm Hroom].
  destruct (evict_spec kend Hkend use_clock own l v r best e x sl file Hvi Hsw)
    as (s' & p' & file' & own' & Hev & Hvi' & Hent' & Hpte & Hkeep & Hm' & Hf' & Hrd & Hb' & Hp' & Hs' & Hx' & Hsz' & Hhb' & Hsp' & _).
  set (rm := room v - _) in Hev.
  assert (0 <= va e < MAXVA) as Hva' by lia.
  assert (entry s' r (va e) = None) as Hnone by (rewrite Hent' by lia; by rewrite Z.eqb_refl).
  assert (pgmeta_find (va e) p' = Some best) as Hfind by (unfold pgmeta_find; rewrite Hm'; by apply find_evicted).
  destruct (lookup_evicted p' _ best e _ Hm' Hmeta) as [Hbest Hblt].
  destruct (anon_spec kend Hkend use_clock own' (PTE2PA x) l (mk_vm s' p' rm) r best e sl)
    as (v2 & Han & Hq0 & Hqp & Hent2 & Hzero & Hb2 & Hf2 & Hm2);
    [exact Hvi'|exact Hva'|apply Hva|exact Hnone|exact Hpte|exact Hfind|exact Hbest|].
  exists (mk_vm s' p' rm), v2, (PTE2PA x). split; [exact Hev|]. split_and!.
  - rewrite (vmfault_unmapped kend use_clock own' (PTE2PA x :: l) _ r fva (va e) w); try done; [|apply Hva].
    cbn [cur]. rewrite Hs', Hsg.
    assert (is_heap (va e) p' = true) as ->.
    { rewrite <- Hheap. unfold is_heap, prog_end. by rewrite Hs', Hhb', Hsz'. }
    exact Han.
  - done.
  - intros a Ha Hpg. pose proof (Z.mod_pos_bound a 4096 ltac:(lia)) as Hmod.
    rewrite (uread_in (ph v2) r a (va e) (PTE2PA x) (Z.lor PTE_U PTE_R)); try done.
    + by rewrite Hzero.
    + rewrite Hent2 by done. by rewrite Z.eqb_refl.
  - rewrite Hb2. cbn [cur]. rewrite Hb'. destruct (swap_alloc_slot (cur v)) as [osl p2] eqn:Hsa.
    simpl in Hslot. subst osl. by apply (swap_alloc_used (cur v) sl p2).
  - exists file'. rewrite Hf2. done.
  - exists (zeroed e sl (page_seq_ctr p')). rewrite Hm2. cbn [cur].
    by rewrite list_lookup_insert_eq.
Qed.

(** Of the 1024 swap slots only the first 67 can hold a page: a file has
    at most 12 + 256 blocks of 1024 bytes.  When the lowest free slot is 67 or
    more the eviction of a dirty page fails, the slot is given back, nothing
    else changes, and the process is not killed for exhausted swap space. *)
Theorem swap_slots_beyond_file_limit best e pa v file sl :
  swapip (cur v) = Some file -> fst (swap_alloc_slot (cur v)) = Some sl -> 67 <= sl ->
  length (swap_bitmap (cur v)) = 128%nat ->
  exists v', swap_out best e pa v = (None, v') /\ ph v' = ph v /\ pgmeta (cur v') = pgmeta (cur v) /\
    swapip (cur v') = Some file /\ swap_bitmap (cur v') = swap_bitmap (cur v) /\
    was_killed (cur v') = was_killed (cur v).
Proof.
  intros Hf Hsl H67 Hlen. unfold swap_out. rewrite Hf.
  destruct (swap_alloc_slot (cur v)) as [osl p2] eqn:Hsa. simpl in Hsl. subst osl.
  pose proof (swap_alloc_slot_spec _ _ _ Hsa) as (Hr & _ & Hp2).
  rewrite writei_too_large by (lia || apply mem_bytes_length).
  cbv zeta. change (-1 =? PGSIZE) with false. cbn [negb]. eexists. split; [reflexivity|].
  cbn [ph cur].
  assert (forall p, pgmeta (swap_free_slot sl p) = pgmeta p /\ swapip (swap_free_slot sl p) = swapip p /\
            was_killed (swap_free_slot sl p) = was_killed p) as Hfree.
  { intros p. unfold swap_free_slot. by destruct (_ || _). }
  split; [done|]. split; [rewrite (proj1 (Hfree _)); by rewrite Hp2|].
  split; [by rewrite (proj1 (proj2 (Hfree _)))|].
  split; [by apply (swap_free_alloc (cur v) sl p2)|]. rewrite (proj2 (proj2 (Hfree _))). by rewrite Hp2.
Qed.

(** Lazy growth can hand out addresses that cannot be used.  When the
    process break is at least [n] below its size, as exec leaves it (the break
    excludes the two pages of the stack and its guard), [sbrklazy(n)] returns
    the old size as the start of the new memory and adds [n] to the size, but
    every later fault on the page of that address is rejected, for reading and
    writing. *)
Theorem sbrk_lazy_gap kend use_clock own l v n fva w :
  4096 <= kend <= PHYSTOP -> vm_inv kend own l (ph v) (pagetable (cur v)) ->
  0 < n < 2 ^ 31 -> 0 <= sz (cur v) < 2 ^ 37 -> sz (cur v) mod 4096 = 0 ->
  prog_end (cur v) <= heap_brk (cur v) + n <= sz (cur v) -> 0 <= heap_brk (cur v) ->
  tf_sp (cur v) < sz (cur v) -> 4096 <= tf_sp (cur v) ->
  (i ← find_idx (in_seg (sz (cur v))) (segs (cur v)); segs (cur v) !! i) = None ->
  entry (ph v) (pagetable (cur v)) (sz (cur v)) = None ->
  fva / 4096 = sz (cur v) / 4096 -> 0 <= fva < MAXVA ->
  exists v', sys_sbrk kend use_clock n false v = Ret (sz (cur v), v') /\
    sz (cur v') = sz (cur v) + n /\
    vmfault kend use_clock (pagetable (cur v)) fva w v' = Ret (0, v').
Proof.
  intros Hkend Hvi Hn Hsz Hal Hbrk Hb0 Hsp Hsp0 Hsg Hnone Hpg Hfva.
  unfold sys_sbrk. cbn [orb]. rewrite (proj2 (Z.ltb_ge n 0)) by lia.
  assert (u64 (sz (cur v) + n) = sz (cur v) + n) as Hu by (apply wrapu_small; lia).
  rewrite Hu, (proj2 (Z.ltb_ge _ _)) by lia. cbn [mbind outcome_bind negb cur].
  rewrite (proj2 (Z.eqb_neq n 0)) by lia. eexists. split; [reflexivity|]. split; [done|].
  cbn [cur heap_brk sz prog_end segs].
  match goal with |- vmfault _ _ _ _ _ ?v' = _ => set (v2 := v') end.
  assert (heap_brk (cur v2) <= sz (cur v)) as Hlow.
  { subst v2. cbn [cur heap_brk].
    assert (forall z, 0 <= z < 2 ^ 38 -> i64 z = z) as Hi by (intros z Hz; apply i64_small; lia).
    assert (0 <= prog_end (cur v)) as Hpe.
    { unfold prog_end. cut (forall l a, 0 <= a -> 0 <= fold_left (fun e s => if e <? seg_end s then seg_end s else e) l a);
        [intros H; by apply H|].
      clear. induction l as [|s l IH]; intros a Ha; simpl; [done|]. apply IH.
      destruct (_ <? _); [|done]. apply wrapu_range. lia. }
    change (prog_end _) with (prog_end (cur v)).
    rewrite !Hi by lia. rewrite (proj2 (Z.ltb_ge _ (prog_end (cur v)))) by lia.
    rewrite (proj2 (Z.ltb_ge _ (heap_brk (cur v) + n))) by lia.
    rewrite wrapu_small by lia. lia. }
  assert (0 <= sz (cur v) < MAXVA) as Hr by (rewrite MAXVA_eq; lia).
  rewrite (vmfault_unmapped kend use_clock own l v2 (pagetable (cur v)) fva (sz (cur v)) w); try done.
  change (segs (cur v2)) with (segs (cur v)). rewrite Hsg.
  assert (is_heap (sz (cur v)) (cur v2) = false) as ->.
  { unfold is_heap. rewrite (proj2 (Z.ltb_ge _ (heap_brk (cur v2)))) by lia. by rewrite andb_false_r. }
  assert (is_stack (sz (cur v)) (cur v2) = false) as ->; [|done].
  unfold is_stack. change (tf_sp (cur v2)) with (tf_sp (cur v)).
  rewrite rounddown_eq. pose proof (Z.mod_pos_bound (tf_sp (cur v)) 4096 ltac:(lia)).
  unfold PGSIZE. rewrite wrapu_small.
  - by rewrite (proj2 (Z.eqb_neq _ _)) by lia.
  - pose proof (page_base (tf_sp (cur v)) ltac:(lia)).
    assert (1 <= tf_sp (cur v) / 4096) by (apply Z.div_le_lower_bound; lia). lia.
Qed.

(** Freeing a page that is no table. *)
Lemma kfree_inv kend own l s r q :
  4096 <= kend <= PHYSTOP -> vm_inv kend own l s r -> own q = Other -> ram kend q ->
  exists s', kfree kend q s = Ret s' /\ vm_inv kend (use_page q Free own) (q :: l) s' r /\
    forall va, entry s' r va = entry s r va.
Proof.
  intros Hkend Hvi Hq Hr.
  assert (q ∉ l) as Hni by (intros Hin; pose proof (vi_own _ _ _ _ _ Hvi q Hin); congruence).
  destruct (kfree_spec kend Hkend s l q (vi_free _ _ _ _ _ Hvi) Hr Hni) as (s' & Hk & Hf & Hm).
  assert (forall x, page_of x <> q -> mem s' x = mem s x) as Hout.
  { intros x Hx. apply Hm, page_of_put; [apply Hr|done]. }
  assert (tables_kept own (mem s) (mem s')) as Htk.
  { intros x Hx. apply Hout. intros Heq. by rewrite Heq, Hq in Hx. }
  exists s'. split; [done|]. split.
  - split; [done| |].
    + intros x [->|Hx]%elem_of_cons; [apply use_page_same|].
      rewrite use_page_other; [by apply (vi_own _ _ _ _ _ Hvi)|]. intros ->. done.
    + eapply pt_inv_frame; [apply Hvi|done|]. intros p Hp1 Hp2. apply use_page_other. congruence.
  - intros va. apply entry_leaf. by apply (tables_kept_pte kend own); [apply Hvi|].
Qed.

(** A system call cannot store its result in heap memory the process has
    not touched yet: copyout's fault maps a zero page that is read-only, as the
    handler does for every anonymous page whatever the access, and copyout then
    finds the page not writable and fails, although memory was available and
    the address is valid. *)
Theorem copyout_fresh_heap_fails kend use_clock own q l v r dst b src fuel :
  4096 <= kend <= PHYSTOP -> vm_inv kend own (q :: l) (ph v) r -> 0 <= dst < MAXVA ->
  let pg := PGROUNDDOWN dst in
  entry (ph v) r pg = None ->
  (i ← find_idx (in_seg pg) (segs (cur v)); segs (cur v) !! i) = None -> is_heap pg (cur v) = true ->
  exists v', copyout kend use_clock (S fuel) r dst (b :: src) v = Ret (-1, v').
Proof.
  intros Hkend Hvi Hdst pg Hnone Hsg Hheap.
  destruct (rounddown_page dst Hdst) as (Hpg & Hle & Hal & _ & Hnx). fold pg in Hpg, Hle, Hal, Hnx.
  assert (0 <= pg < MAXVA) as Hpr by lia.
  cbn [copyout]. fold pg. rewrite (proj2 (Z.leb_gt MAXVA pg)) by lia.
  rewrite (walkaddr_entry kend Hkend own _ _ _ _ Hvi), Hnone by done. rewrite Z.eqb_refl.
  rewrite (vmfault_unmapped kend use_clock own _ v r pg pg 1 Hvi), Hsg, Hheap by done. cbn [orb].
  destruct (kalloc_inv kend Hkend _ _ _ _ Hvi) as (s1 & Hk & Hrq & Hfq & Hvi1 & Hm1).
  unfold fault_anon. destruct (pgmeta_alloc pg (cur v)) as [i p]. unfold kalloc_or_evict. cbn [ph cur].
  assert (q =? 0 = false) as Hq0 by (by apply Z.eqb_neq, (ram_nonzero kend)).
  rewrite Hk, Hq0. cbn [negb mbind outcome_bind]. rewrite Hq0. cbn [ph cur]. unfold zero_page.
  set (own1 := use_page q Other own) in *. assert (own1 q = Other) as Hq1 by apply use_page_same.
  destruct (fill_page kend own1 l s1 r q (memset (mem s1) q 0 PGSIZE) Hvi1 Hq1) as [Hvi2 Hpl].
  { intros x Hx. apply memset_out. apply page_of_put; [apply Hrq|done]. }
  assert (forall va', entry (mk_phys (memset (mem s1) q 0 PGSIZE) (freelist s1)) r va' = entry (ph v) r va') as Hent.
  { intros va'. apply entry_leaf. cbn [mem]. rewrite (proj2 (Hpl va')).
    apply (tables_kept_pte kend own); [apply Hvi|]. intros x Hx. apply Hm1. intros Heq. by rewrite Heq, Hfq in Hx. }
  destruct (mappages_page kend Hkend own1 l (mk_phys (memset (mem s1) q 0 PGSIZE) (freelist s1)) r pg q (Z.lor PTE_U PTE_R)) as
    (rc & s2 & own2 & l2 & used & Hmp & _ & Hvi3 & _ & _ & Hres); try done.
  { by apply (ram_is_page kend). }
  { by rewrite Hent. }
  rewrite Hmp. cbn [mbind outcome_bind].
  destruct Hres as [(-> & He & _)|(-> & _ & _ & Hoq & He)].
  - rewrite Z.eqb_refl. cbn [negb ph mbind outcome_bind].
    assert (entry s2 r pg = Some (mk_pte q 18)) as Hpe by (rewrite He by done; by rewrite Z.eqb_refl).
    destruct (walkaddr_user kend Hkend own2 l2 s2 r pg (mk_pte q 18) Hvi3 Hpr Hpe) as (Hwa & Hnz & a & Hwk & Hld).
    { rewrite has_flag_mk_pte; [reflexivity|by apply (ram_is_page kend)|lia|by vm_compute]. }
    rewrite Hwa, Hnz, Hwk. cbn [mbind outcome_bind]. rewrite Hld.
    rewrite has_flag_mk_pte; [|by apply (ram_is_page kend)|lia|by vm_compute].
    change (has_flag 18 PTE_W || has_flag PTE_V PTE_W) with false. cbn [negb]. eauto.
  - change (-1 =? 0) with false. cbn [negb].
    destruct (kfree_inv kend own2 l2 s2 r q Hkend Hvi3 Hoq Hrq) as (s3 & -> & Hvi4 & He4).
    cbn [mbind outcome_bind ph].
    rewrite (walkaddr_entry kend Hkend _ _ _ _ _ Hvi4), He4, He, Hent, Hnone by done.
    rewrite Z.eqb_refl. eauto.
Qed.

(** ** The paging theorems on a concrete process *)
Import Mem Vm.


Definition no_meta : meta := mk_meta 0 0 false false false false 65535 0.

(** Metadata whose first entries are [l]. *)
Definition metas (l : list meta) : list meta := l ++ replicate (1024 - length l) no_meta.

Definition meta_at (a now : Z) (ref : bool) : meta := mk_meta a now true true ref false 65535 22.

(** A process with one page, mapped at 8192. *)
Definition paging_proc (l : list meta) (sg : list seg) (brk : Z) (bm : list Z) : vproc :=
  mk_vproc (fst demo_pt) 16384 brk (Some [7; 7]) sg 1 (Some []) 0 bm (metas l) 0 false 16000.

(** The counter has wrapped around: the page loaded at the last moment before
    the wrap is older than the one loaded just after it. *)
Lemma fifo_victim_oldest_witness :
  let p := paging_proc [meta_at 4096 0 false; meta_at 8192 (2 ^ 64 - 1) false] [] 0 [] in
  fifo_victim p = Some 1%nat /\
  match fifo_victim p with
  | Some i => exists e, pgmeta p !! i = Some e /\ evictable e = true
  | None => False
  end.
Proof.
  intros p. split; [vm_compute; reflexivity|].
  pose proof (fifo_victim_oldest p (2 ^ 64 + 1) (fun i => match i with 0%nat => 2 ^ 64 | _ => 2 ^ 64 - 1 end)) as H.
  assert (fifo_victim p = Some 1%nat) as E by (vm_compute; reflexivity). rewrite E in *.
  destruct H as (He & _); [vm_compute; reflexivity| |exact He].
  intros i e He Hev. destruct i as [|[|i]].
  - injection He as <-. vm_compute. split; [reflexivity|split; [discriminate|reflexivity]].
  - injection He as <-. vm_compute. split; [reflexivity|split; [discriminate|reflexivity]].
  - exfalso. change (replicate 1022 no_meta !! i = Some e) in He. apply lookup_replicate in He as [-> _].
    discriminate Hev.
Defined.

(** Two referenced pages: no victim, and the bits are cleared. *)
Lemma clock_victim_second_chance_witness :
  let p := paging_proc [meta_at 4096 0 true; meta_at 8192 1 true] [] 0 [] in
  fst (clock_victim p) = None /\
  match clock_victim p with
  | (Some _, _) => False
  | (None, p') => pgmeta p' = (fun e => if evictable e then unref e else e) <$> pgmeta p
  end.
Proof.
  intros p. assert (fst (clock_victim p) = None) as E by (vm_compute; reflexivity).
  split; [exact E|].
  pose proof (clock_victim_second_chance p) as H. destruct (clock_victim p) as [[i|] p'].
  - discriminate E.
  - destruct H as [_ H]; [vm_compute; reflexivity|vm_compute; discriminate|exact H].
Defined.

Definition swap_vm (sg : list seg) : vm :=
  mk_vm demo_map (paging_proc [meta_at 8192 0 false] sg 16384 (replicate 128 0)) 100000.

Definition data_seg : seg := mk_seg 8192 4096 0 0 22.

Lemma swap_vm_swappable sg :
  swappable false (swap_vm sg) (fst demo_pt) 0 (meta_at 8192 0 false) (mk_pte (fst demo_page) 22) 0 [].
Proof.
  split; try (vm_compute; reflexivity).
  - split; [vm_compute; split; reflexivity|vm_compute; reflexivity].
  - destruct demo_map_inv as (own & l & _ & Hent). split; [|vm_compute; reflexivity].
    unfold swap_vm. cbn [ph]. change (va (meta_at 8192 0 false)) with 8192. rewrite (Hent 8192).
    + reflexivity.
    + vm_compute. split; [discriminate|reflexivity].
  - split; [vm_compute; reflexivity|]. split; vm_compute; discriminate.
Qed.

Lemma swap_out_swap_in_witness : exists v1 v2 pa,
  try_evict_one demo_kend false (swap_vm [data_seg]) = Ret (0, v1) /\
  vmfault demo_kend false (fst demo_pt) 8200 1 v1 = Ret (pa, v2) /\ pa <> 0 /\
  forall a, 0 <= a < MAXVA -> uread (ph v2) (fst demo_pt) a = uread demo_map (fst demo_pt) a.
Proof.
  destruct demo_map_inv as (own & l & Hvi & _).
  destruct (swap_out_swap_in demo_kend false own l (swap_vm [data_seg]) (fst demo_pt) 0 (meta_at 8192 0 false)
              (mk_pte (fst demo_page) 22) 0 [] data_seg [7; 7] 8200 1)
    as (v1 & v2 & pa & H1 & _ & H2 & H3 & H4 & _);
    [apply demo_kend_ok|exact Hvi|apply swap_vm_swappable|reflexivity|reflexivity
    |vm_compute; split; [discriminate|reflexivity]|vm_compute; reflexivity
    |vm_compute; split; [discriminate|reflexivity]|reflexivity|].
  exists v1, v2, pa. exact (conj H1 (conj H2 (conj H3 H4))).
Defined.

Lemma swap_heap_page_lost_witness : exists v1 v2 pa,
  try_evict_one demo_kend false (swap_vm []) = Ret (0, v1) /\
  vmfault demo_kend false (fst demo_pt) 8200 1 v1 = Ret (pa, v2) /\ pa <> 0 /\
  slot_used (swap_bitmap (cur v2)) 0 = true.
Proof.
  destruct demo_map_inv as (own & l & Hvi & _).
  destruct (swap_heap_page_lost demo_kend false own l (swap_vm []) (fst demo_pt) 0 (meta_at 8192 0 false)
              (mk_pte (fst demo_page) 22) 0 [] 8200 1)
    as (v1 & v2 & pa & H1 & H2 & H3 & _ & H4 & _);
    [apply demo_kend_ok|exact Hvi|apply swap_vm_swappable|reflexivity|vm_compute; reflexivity
    |vm_compute; split; [discriminate|reflexivity]|reflexivity|].
  exists v1, v2, pa. exact (conj H1 (conj H2 (conj H3 H4))).
Defined.

(** 67 slots are taken: eight full bytes and three bits. *)
Lemma swap_slots_beyond_file_limit_witness :
  let bm := replicate 8 255 ++ [7] ++ replicate 119 0 in
  let v := mk_vm demo_map (paging_proc [meta_at 8192 0 false] [] 16384 bm) 100000 in
  fst (swap_alloc_slot (cur v)) = Some 67 /\
  exists v', swap_out 0 (meta_at 8192 0 false) (fst demo_page) v = (None, v') /\ was_killed (cur v') = false.
Proof.
  intros bm v. split; [vm_compute; reflexivity|].
  destruct (swap_slots_beyond_file_limit 0 (meta_at 8192 0 false) (fst demo_page) v [] 67)
    as (v' & H1 & _ & _ & _ & _ & H2); [reflexivity|vm_compute; reflexivity|lia|reflexivity|].
  exists v'. exact (conj H1 H2).
Defined.

(** The first [sbrklazy(4096)] of a process of four pages, whose break is at
    8192: the new page at 16384 cannot be touched. *)
Lemma sbrk_lazy_gap_witness :
  let v := mk_vm demo_map (paging_proc [] [mk_seg 0 8192 0 0 22] 8192 (replicate 128 0)) 100000 in
  exists v', sys_sbrk demo_kend false 4096 false v = Ret (16384, v') /\ sz (cur v') = 20480 /\
    vmfault demo_kend false (fst demo_pt) 16384 1 v' = Ret (0, v').
Proof.
  intros v. destruct demo_map_inv as (own & l & Hvi & Hent).
  destruct (sbrk_lazy_gap demo_kend false own l v 4096 16384 1) as (v' & H1 & H2 & H3);
    [apply demo_kend_ok|exact Hvi|lia|vm_compute; split; [discriminate|reflexivity]|reflexivity
    |vm_compute; split; discriminate|vm_compute; discriminate|vm_compute; reflexivity|vm_compute; discriminate
    |reflexivity| |reflexivity|vm_compute; split; [discriminate|reflexivity]|].
  - change (entry demo_map (fst demo_pt) 16384 = None). rewrite (Hent 16384); [reflexivity|].
    vm_compute. split; [discriminate|reflexivity].
  - exists v'. change (sz (cur v)) with 16384 in *. exact (conj H1 (conj H2 H3)).
Defined.

(** A buffer in the first heap page of that process, after its break has been
    raised to 12288. *)
Lemma copyout_fresh_heap_fails_witness :
  let v := mk_vm (snd demo_page) (paging_proc [] [mk_seg 0 8192 0 0 22] 12288 (replicate 128 0)) 100000 in
  exists v', copyout demo_kend false 2 (fst demo_pt) 8200 [42] v = Ret (-1, v').
Proof.
  intros v. destruct demo_page_inv as (own & [|q l] & Hvi & _ & _ & Hent).
  - exfalso. destruct Hvi as [Hf _ _]. vm_compute in Hf. discriminate Hf.
  - destruct (copyout_fresh_heap_fails demo_kend false own q l v (fst demo_pt) 8200 42 [] 1) as (v' & H);
      [apply demo_kend_ok|exact Hvi|vm_compute; split; [discriminate|reflexivity]|apply Hent|reflexivity|reflexivity|].
    exists v'. exact H.
Defined.
