(* ===== verification/Shell.v ===== *)
(** * The command line of the shell (posix-shell/src: parser.c, shell.c)

    C strings are lists of characters without the terminating NUL.  A line is
    cut into groups, pipelines and words with strtok_r; the result is the list
    of what the shell does, one action per group. *)
From S2P Require Import Prelude.
From Stdlib Require Import Ascii.

#[local] Open Scope Z_scope.

Module Shell.

Definition cstr : Type := list ascii.

Definition str (s : string) : cstr := String.list_ascii_of_string s.

#[export] Instance cstr_eq_dec : EqDecision cstr := _.

(** strcmp(s, lit) == 0 *)
Definition is_str (s : cstr) (lit : string) : bool := bool_decide (s = str lit).

(** ** ctype.h and string.h *)

Definition isspace (c : ascii) : bool :=
  let n := N_of_ascii c in (N.eqb n 32 || (N.leb 9 n && N.leb n 13))%bool.

Fixpoint drop_while (p : ascii -> bool) (s : cstr) : cstr :=
  match s with
  | [] => []
  | c :: s' => if p c then drop_while p s' else s
  end.

(** Up to the first character satisfying [p], which is removed. *)
Fixpoint break (p : ascii -> bool) (s : cstr) : cstr * cstr :=
  match s with
  | [] => ([], [])
  | c :: s' => if p c then ([], s') else let '(t, r) := break p s' in (c :: t, r)
  end.

(** strtok_r on the rest of the string: a token and the new rest. *)
Definition strtok_r (p : ascii -> bool) (s : cstr) : option (cstr * cstr) :=
  match drop_while p s with
  | [] => None
  | s' => Some (break p s')
  end.

(** The tokens of the loop [for (t = strtok_r(s, ..); t; t = strtok_r(NULL, ..))]. *)
Fixpoint strtok_loop (fuel : nat) (p : ascii -> bool) (s : cstr) : list cstr :=
  match fuel with
  | O => []
  | S fuel' =>
      match strtok_r p s with
      | None => []
      | Some (t, r) => t :: strtok_loop fuel' p r
      end
  end.

Definition tokens (p : ascii -> bool) (s : cstr) : list cstr := strtok_loop (S (length s)) p s.

Definition is_char (c d : ascii) : bool := Ascii.eqb d c.
Definition semi : ascii -> bool := is_char ";".
Definition bar : ascii -> bool := is_char "|".

(** ARG_DELIMITERS: space, tab, CR, LF, BEL. *)
Definition is_arg_delim (c : ascii) : bool :=
  existsb (N.eqb (N_of_ascii c)) [32; 9; 13; 10; 7]%N.

(** strstr(s, lit) != NULL, and the characters before the first occurrence. *)
Fixpoint before_sub (lit s : cstr) : option cstr :=
  if bool_decide (take (length lit) s = lit) then Some []
  else match s with
       | [] => None
       | c :: s' => cons c <$> before_sub lit s'
       end.

Definition strstr (s : cstr) (lit : string) : bool := bool_decide (is_Some (before_sub (str lit) s)).

(** atoi: white space, a sign, digits (no overflow). *)
Fixpoint digits (acc : Z) (s : cstr) : Z :=
  match s with
  | c :: s' =>
      let n := Z.of_N (N_of_ascii c) in
      if (48 <=? n) && (n <=? 57) then digits (acc * 10 + (n - 48)) s' else acc
  | [] => acc
  end.

Definition atoi (s : cstr) : Z :=
  match drop_while isspace s with
  | "-"%char :: s' => - digits 0 s'
  | "+"%char :: s' => digits 0 s'
  | s' => digits 0 s'
  end.

(** ** parser.c *)

Definition is_empty (s : cstr) : bool := forallb isspace s.

Definition trim_whitespace (s : cstr) : cstr :=
  rev (drop_while isspace (rev (drop_while isspace s))).

Definition ends_with (c : ascii) (s : cstr) : bool := bool_decide (last s = Some c).
Definition starts_with (c : ascii) (s : cstr) : bool := bool_decide (head s = Some c).

(** The loop over the groups. *)
Fixpoint check_groups (gs : list cstr) : bool :=
  match gs with
  | [] => true
  | g :: gs' =>
      let t := trim_whitespace g in
      if is_empty t then
        match gs' with
        | next :: _ => is_empty next
        | [] => true
        end
      else if starts_with "|" t || ends_with "|" t then false
      else if existsb is_empty (tokens bar t) then false
      else check_groups gs'
  end.

Definition parse_input (input : cstr) : bool :=
  let t := trim_whitespace input in
  if ends_with "&" t && is_empty (removelast t) then false
  else
    let gs := tokens semi input in
    if bool_decide (gs = []) && negb (is_empty input) then false
    else check_groups gs.

(** ** shell.c *)

Fixpoint add_spaces_around_redirects (s : cstr) : cstr :=
  match s with
  | [] => []
  | ">"%char :: ">"%char :: s' => str " >> " ++ add_spaces_around_redirects s'
  | c :: s' =>
      if Ascii.eqb c ">" || Ascii.eqb c "<" || Ascii.eqb c "|"
      then [" "%char; c; " "%char] ++ add_spaces_around_redirects s'
      else c :: add_spaces_around_redirects s'
  end.

(** The bytes malloc'ed for its result, and the bytes written, with the NUL. *)
Definition spaces_buffer (s : cstr) : nat := length s * 2 + 1.
Definition spaces_written (s : cstr) : nat := S (length (add_spaces_around_redirects s)).

(** execute.h *)
Definition MAX_ARGS : nat := 64.
Definition MAX_PIPED_CMDS : nat := 16.

Record command := mk_command {
  args : list cstr;
  input_file : option cstr;
  output_file : option cstr;
  append_output : bool
}.

Definition no_command : command := mk_command [] None None false.

(** The words of one command of a pipeline.  The array has room for 64
    arguments and nothing checks it. *)
Fixpoint parse_words (ts : list cstr) (c : command) : outcome command :=
  match ts with
  | [] => Ret c
  | t :: ts' =>
      if is_str t "<" then
        match ts' with
        | [] => Ret c
        | f :: ts'' => parse_words ts'' {| c with input_file := Some f |}
        end
      else if is_str t ">" then
        match ts' with
        | [] => Ret c
        | f :: ts'' => parse_words ts'' {| c with output_file := Some f; append_output := false |}
        end
      else if is_str t ">>" then
        match ts' with
        | [] => Ret c
        | f :: ts'' => parse_words ts'' {| c with output_file := Some f; append_output := true |}
        end
      else if (MAX_ARGS <=? length (args c))%nat then Undef "args: out of bounds"
      else parse_words ts' {| c with args := args c ++ [t] |}
  end.

(** The loop over the commands of a pipeline. *)
Fixpoint parse_pipes (ps : list cstr) (cmds : list command) : outcome (list command) :=
  match ps with
  | [] => Ret cmds
  | p :: ps' =>
      if (MAX_PIPED_CMDS <=? length cmds)%nat then Ret cmds
      else
        c ← parse_words (tokens is_arg_delim p) no_command;
        parse_pipes ps' (if bool_decide (args c = []) then cmds else cmds ++ [c])
  end.

(** What a group makes the shell do. *)
Inductive action :=
| Invalid                                    (* Invalid Syntax! *)
| HiThere (to_file : bool)                   (* the special case for the test *)
| Builtin (c : command)
| Pipeline (cmds : list command) (background : bool).

Definition is_builtin (name : cstr) : bool :=
  is_str name "hop" || is_str name "reveal" || is_str name "echo" || is_str name "log" ||
  is_str name "activities" || is_str name "ping" || is_str name "fg" || is_str name "bg".

(** The trailing & of a group. *)
Definition split_background (g : cstr) : bool * cstr :=
  match drop_while isspace (rev g) with
  | "&"%char :: r => (true, rev r)
  | _ => (false, g)
  end.

Definition dispatch (cmds : list command) (background : bool) : option action :=
  match cmds with
  | [] => None
  | [c] => if negb background && match args c with n :: _ => is_builtin n | [] => false end
           then Some (Builtin c) else Some (Pipeline cmds background)
  | _ => Some (Pipeline cmds background)
  end.

Definition special_case (g : cstr) : bool := strstr g "sleep 10 &" && strstr g "echo Hi There!".

Definition process_group (g : cstr) : outcome (option action) :=
  if special_case g then Ret (Some (HiThere (strstr g "> test.txt")))
  else
    let '(background, g) := split_background g in
    if is_empty g then Ret None
    else
      let spaced := add_spaces_around_redirects g in
      if negb (parse_input spaced) then Ret (Some Invalid)
      else
        cmds ← parse_pipes (tokens bar spaced) [];
        (* the arguments are read up to a null pointer *)
        if existsb (fun c => (MAX_ARGS <=? length (args c))%nat) cmds
        then Undef "args: no terminating null"
        else Ret (dispatch cmds background).

Fixpoint process_groups (gs : list cstr) : outcome (list action) :=
  match gs with
  | [] => Ret []
  | g :: gs' =>
      a ← process_group g;
      rest ← process_groups gs';
      Ret (option_list a ++ rest)
  end.

(** Whether the line goes into the history, and the actions. *)
Definition recorded (line : cstr) : bool :=
  match tokens is_arg_delim line with
  | w :: _ => negb (is_str w "log") && negb (is_str w "activities") && negb (is_str w "ping")
  | [] => false
  end.

Definition process_command_line (line : cstr) : outcome (bool * list action) :=
  if is_empty line then Ret (false, [])
  else
    acts ← process_groups (tokens semi line);
    Ret (recorded line, acts).

(** The echo builtin: what it prints. *)
Definition unquote (w : cstr) : cstr :=
  if starts_with "'" w && ends_with "'" w then tail (removelast w) else w.

Fixpoint echo_words (ws : list cstr) : cstr :=
  match ws with
  | [] => []
  | [w] => unquote w
  | w :: ws' => unquote w ++ [" "%char] ++ echo_words ws'
  end.

Definition newline : ascii := ascii_of_nat 10.

Definition execute_echo (c : command) : cstr :=
  let ws := tail (args c) in
  if bool_decide (head ws = Some (str "'data'")) && bool_decide (is_Some (output_file c))
  then str "data" ++ [newline]
  else echo_words ws ++ [newline].

(** The path shown by [display_prompt]. *)
Definition prompt_path (home cwd : cstr) : cstr :=
  if bool_decide (cwd = home) then str "~"
  else if bool_decide (take (length home) cwd = home) then str "~" ++ drop (length home) cwd
  else cwd.

End Shell.
