(* ===== verification/ShellFacts.v ===== *)
(** * strtok as splitting, and the parser's acceptance test *)
From S2P Require Import Prelude Shell.
From Stdlib Require Import Ascii.

Import Shell.

#[local] Open Scope Z_scope.

(** ** Splitting at delimiters *)

Fixpoint split_at (p : ascii -> bool) (s : cstr) : list cstr :=
  match s with
  | [] => [[]]
  | c :: s' =>
      if p c then [] :: split_at p s'
      else match split_at p s' with
           | t :: ts => (c :: t) :: ts
           | [] => [[c]]
           end
  end.

Definition nonempty (t : cstr) : bool := match t with [] => false | _ => true end.

Lemma split_at_cons p s : exists t ts, split_at p s = t :: ts.
Proof.
  destruct s as [|c s]; simpl; [eauto|]. destruct (p c); [eauto|]. destruct (split_at p s); eauto.
Qed.

Lemma split_at_app_delim p a d b : p d = true -> split_at p (a ++ d :: b) = split_at p a ++ split_at p b.
Proof.
  intros Hd. induction a as [|c a IH]; simpl; [by rewrite Hd|]. destruct (p c); [by rewrite IH|].
  rewrite IH. by destruct (split_at_cons p a) as (t & ts & ->).
Qed.

Lemma split_at_free p s : forallb (fun c => negb (p c)) s = true -> split_at p s = [s].
Proof.
  induction s as [|c s IH]; simpl; [done|]. intros [Hc Hs]%andb_prop.
  apply negb_true_iff in Hc. by rewrite Hc, IH.
Qed.

(** A token of strtok_r. *)
Lemma break_split p s : let '(t, r) := break p s in
  split_at p s = if existsb p s then t :: split_at p r else [t].
Proof.
  induction s as [|c s IH]; simpl; [done|]. destruct (p c); [done|].
  destruct (break p s) as [t r]. rewrite IH. simpl. by destruct (existsb p s).
Qed.

Lemma break_length p s : (length (snd (break p s)) <= length s)%nat.
Proof.
  induction s as [|c s IH]; simpl; [lia|]. destruct (p c); simpl; [lia|].
  destruct (break p s); simpl in *; lia.
Qed.

Lemma break_none p s : existsb p s = false -> break p s = (s, []).
Proof.
  induction s as [|c s IH]; simpl; [done|]. intros [Hc Hs]%orb_false_iff. by rewrite Hc, IH.
Qed.

Lemma drop_while_split p s : List.filter nonempty (split_at p (drop_while p s)) = List.filter nonempty (split_at p s).
Proof. induction s as [|c s IH]; simpl; [done|]. destruct (p c) eqn:Hc; simpl; [done|by rewrite Hc]. Qed.

Lemma drop_while_length p s : (length (drop_while p s) <= length s)%nat.
Proof. induction s as [|c s IH]; simpl; [lia|]. destruct (p c); simpl; lia. Qed.

Lemma drop_while_head p s c s' : drop_while p s = c :: s' -> p c = false.
Proof. induction s as [|d s IH]; simpl; [done|]. destruct (p d) eqn:Hd; [done|]. by intros [= <- _]. Qed.

Lemma strtok_loop_split n p : forall s, (length s < n)%nat ->
  strtok_loop n p s = List.filter nonempty (split_at p s).
Proof.
  induction n as [|n IH]; intros s Hn; [lia|]. simpl. unfold strtok_r.
  rewrite <- drop_while_split. pose proof (drop_while_length p s) as Hl.
  destruct (drop_while p s) as [|c s'] eqn:Hd; [done|].
  pose proof (drop_while_head _ _ _ _ Hd) as Hc.
  pose proof (break_split p (c :: s')) as Hb. pose proof (break_length p s') as Hbl.
  simpl break in *. rewrite Hc in *. destruct (break p s') as [t r] eqn:Hbr.
  rewrite Hb. destruct (existsb p (c :: s')) eqn:He.
  - simpl. rewrite IH; [done|]. simpl in *. lia.
  - simpl in He. apply orb_false_iff in He as [_ He]. rewrite (break_none p s' He) in Hbr.
    injection Hbr as <- <-. simpl. destruct n; [simpl in Hl; lia|]. done.
Qed.

Lemma tokens_split p s : tokens p s = List.filter nonempty (split_at p s).
Proof. apply strtok_loop_split. lia. Qed.

Lemma tokens_app_delim p a d b : p d = true -> tokens p (a ++ d :: b) = tokens p a ++ tokens p b.
Proof. intros Hd. by rewrite !tokens_split, split_at_app_delim, List.filter_app. Qed.

Lemma tokens_delims p d : forallb p d = true -> tokens p d = [].
Proof.
  rewrite tokens_split. induction d as [|c d IH]; simpl; [done|]. intros [-> Hd]%andb_prop. simpl. auto.
Qed.

Lemma tokens_free p s : s <> [] -> forallb (fun c => negb (p c)) s = true -> tokens p s = [s].
Proof. intros Hs Hf. rewrite tokens_split, split_at_free by done. by destruct s. Qed.

(** ** Blank segments *)

Definition blanks (s : cstr) : list bool := is_empty <$> split_at bar s.

Definition cons_blank (b : bool) (l : list bool) : list bool :=
  match l with [] => [b] | x :: l' => (b && x) :: l' end.

Lemma blanks_cons c s : blanks (c :: s) = if bar c then true :: blanks s else cons_blank (isspace c) (blanks s).
Proof.
  unfold blanks. simpl. destruct (bar c); [done|].
  by destruct (split_at_cons bar s) as (t & ts & ->).
Qed.

Lemma blanks_nonempty s : exists b l, blanks s = b :: l.
Proof. unfold blanks. destruct (split_at_cons bar s) as (t & ts & ->). simpl. eauto. Qed.

Lemma cons_blank_true l : (exists b l', l = b :: l') -> cons_blank true l = l.
Proof. by intros (b & l' & ->). Qed.

Lemma space_not_bar c : isspace c = true -> bar c = false.
Proof.
  intros H. unfold bar, is_char. destruct (Ascii.eqb_spec c "|") as [->|]; [|done].
  vm_compute in H. discriminate H.
Qed.

Lemma blanks_space_front sp s : is_empty sp = true -> blanks (sp ++ s) = blanks s.
Proof.
  induction sp as [|c sp IH]; simpl; [done|]. intros [Hc Hs]%andb_prop.
  rewrite blanks_cons, (space_not_bar c Hc), Hc, IH by done. apply cons_blank_true, blanks_nonempty.
Qed.

Lemma blanks_spaces sp : is_empty sp = true -> blanks sp = [true].
Proof.
  intros H. rewrite <- (app_nil_r sp). by rewrite blanks_space_front.
Qed.

Lemma blanks_space_back sp s : is_empty sp = true -> blanks (s ++ sp) = blanks s.
Proof.
  intros H. induction s as [|c s IH]; simpl; [by rewrite blanks_spaces|]. by rewrite !blanks_cons, IH.
Qed.

(** [add_spaces_around_redirects] leaves the blankness of the segments alone. *)
Lemma add_spaces_ind (P : cstr -> cstr -> Prop) :
  P [] [] ->
  (forall s r, P s r -> P (">"%char :: ">"%char :: s) (str " >> " ++ r)) ->
  (forall c s r, c = ">"%char \/ c = "<"%char \/ c = "|"%char ->
     (c = ">"%char -> head s <> Some ">"%char) -> P s r -> P (c :: s) ([" "%char; c; " "%char] ++ r)) ->
  (forall c s r, c <> ">"%char -> c <> "<"%char -> c <> "|"%char -> P s r -> P (c :: s) (c :: r)) ->
  forall s, P s (add_spaces_around_redirects s).
Proof.
  intros H0 H2 H1 Hc s. remember (length s) as n eqn:Hn. revert s Hn.
  induction (lt_wf n) as [n _ IH]. intros s ->.
  destruct s as [|c s]; [done|].
  assert (P s (add_spaces_around_redirects s)) as Hs by (eapply IH; [|reflexivity]; simpl; lia).
  destruct (ascii_dec c ">") as [->|Hgt].
  - destruct s as [|d s]; [apply (H1 ">"%char); auto|].
    destruct (ascii_dec d ">") as [->|Hd].
    + apply H2. eapply IH; [|reflexivity]. simpl. lia.
    + replace (add_spaces_around_redirects (">"%char :: d :: s))
        with ([" "%char; ">"%char; " "%char] ++ add_spaces_around_redirects (d :: s)).
      { apply (H1 ">"%char); [auto| |auto]. intros _ [= ->]. done. }
      destruct d as [[] [] [] [] [] [] [] []]; done.
  - assert (add_spaces_around_redirects (c :: s) =
      if Ascii.eqb c ">" || Ascii.eqb c "<" || Ascii.eqb c "|"
      then [" "%char; c; " "%char] ++ add_spaces_around_redirects s
      else c :: add_spaces_around_redirects s) as ->.
    { destruct c as [[] [] [] [] [] [] [] []]; done. }
    destruct (Ascii.eqb_spec c ">"); [done|]. destruct (Ascii.eqb_spec c "<") as [->|]; [apply H1; [auto|done|auto]|].
    destruct (Ascii.eqb_spec c "|") as [->|]; [apply H1; [auto|done|auto]|]. by apply Hc.
Qed.

Lemma add_spaces_blanks s : blanks (add_spaces_around_redirects s) = blanks s.
Proof.
  apply (add_spaces_ind (fun s r => blanks r = blanks s)); clear s.
  - done.
  - intros s r H. cbn [app str String.list_ascii_of_string]. rewrite !blanks_cons. simpl. rewrite H.
    by destruct (blanks_nonempty s) as (b & l & ->).
  - intros c s r Hc _ H. cbn [app]. rewrite !blanks_cons. rewrite H.
    destruct (blanks_nonempty s) as (b & l & ->).
    destruct Hc as [-> | [-> | ->]]; done.
  - intros c s r _ _ _ H. by rewrite !blanks_cons, H.
Qed.

(** Two adjacent bars. *)
Fixpoint bars_adjacent (s : cstr) : bool :=
  match s with
  | c :: s' => bar c && match s' with d :: _ => bar d | [] => false end || bars_adjacent s'
  | [] => false
  end.

Lemma add_spaces_not_adjacent s : bars_adjacent (add_spaces_around_redirects s) = false.
Proof.
  apply (add_spaces_ind (fun _ r => bars_adjacent r = false)); clear s.
  - done.
  - intros s r H. simpl. by rewrite H.
  - intros c s r Hc _ H. simpl. rewrite H. by destruct Hc as [-> | [-> | ->]].
  - intros c s r _ _ Hc H. simpl. rewrite H. unfold bar, is_char at 1.
    by rewrite (proj2 (Ascii.eqb_neq c "|")).
Qed.

Lemma bars_adjacent_front a b : bars_adjacent (a ++ b) = false -> bars_adjacent b = false.
Proof. induction a as [|c a IH]; simpl; [done|]. intros [_ H]%orb_false_iff. auto. Qed.

Lemma bars_adjacent_back a b : bars_adjacent (a ++ b) = false -> bars_adjacent a = false.
Proof.
  induction a as [|c a IH]; simpl; [done|]. intros [Hc H]%orb_false_iff. rewrite IH by done.
  destruct a as [|d a]; simpl in *; [by rewrite andb_false_r|by rewrite Hc].
Qed.

(** ** Trimming *)

Lemma trim_spec s : exists sp1 sp2, s = sp1 ++ trim_whitespace s ++ sp2 /\ is_empty sp1 = true /\ is_empty sp2 = true /\
  (forall c, head (trim_whitespace s) = Some c -> isspace c = false) /\
  (forall c, last (trim_whitespace s) = Some c -> isspace c = false).
Proof.
  assert (forall s, exists sp, s = sp ++ drop_while isspace s /\ is_empty sp = true) as Hdw.
  { clear s. induction s as [|c s (sp & Hs & Hsp)]; simpl; [by exists []|]. destruct (isspace c) eqn:Hc.
    - exists (c :: sp). simpl. rewrite Hc, Hsp. split; [by rewrite <- Hs|done].
    - by exists []. }
  destruct (Hdw s) as (sp1 & Hs & H1). destruct (Hdw (rev (drop_while isspace s))) as (sp2 & Hr & H2).
  unfold trim_whitespace. set (d := drop_while isspace s) in *. set (t := drop_while isspace (rev d)) in *.
  assert (d = rev t ++ rev sp2) as Hd by (rewrite <- rev_app_distr, <- Hr; by rewrite rev_involutive).
  exists sp1, (rev sp2). split_and!.
  - by rewrite <- Hd.
  - done.
  - unfold is_empty in *. apply forallb_forall. intros c Hc. apply in_rev in Hc.
    by apply (proj1 (forallb_forall _ _) H2).
  - intros c Hc. destruct (rev t) as [|x l] eqn:Ht; [done|]. injection Hc as ->.
    unfold d in Hd. simpl in Hd. by eapply drop_while_head.
  - intros c Hc. destruct t as [|x l] eqn:Ht; [done|]. simpl in Hc. rewrite last_snoc in Hc. injection Hc as ->.
    by eapply drop_while_head.
Qed.

Lemma is_empty_app a b : is_empty (a ++ b) = is_empty a && is_empty b.
Proof. apply forallb_app. Qed.

Lemma trim_empty s : is_empty (trim_whitespace s) = is_empty s.
Proof.
  destruct (trim_spec s) as (sp1 & sp2 & Hs & H1 & H2 & _). rewrite Hs at 2.
  by rewrite !is_empty_app, H1, H2, andb_true_r.
Qed.

(** ** Acceptance *)

Definition empty_seg (t : cstr) : bool := negb (nonempty t).

Lemma head_segment s t ts : split_at bar s = t :: ts ->
  empty_seg t = bool_decide (s = []) || starts_with "|" s.
Proof.
  destruct s as [|c s]; simpl; [by intros [= <- _]|]. unfold starts_with. simpl.
  change (bar c) with (Ascii.eqb c "|"). destruct (Ascii.eqb_spec c "|") as [->|Hne].
  - by intros [= <- _].
  - destruct (split_at bar s); intros [= <- _]; simpl; symmetry; apply bool_decide_false; congruence.
Qed.

Lemma tail_segments s : bars_adjacent s = false ->
  existsb empty_seg (tail (split_at bar s)) = ends_with "|" s.
Proof.
  unfold ends_with. induction s as [|c s IH]; [done|].
  intros [Hc Ha]%orb_false_iff. specialize (IH Ha). simpl.
  assert (s <> [] -> last (c :: s) = last s) as Hlast by (destruct s; [done|done]).
  destruct (bar c) eqn:Hb; simpl.
  - destruct (split_at_cons bar s) as (t & ts & Ht). rewrite Ht in *. simpl in *.
    rewrite (head_segment s t ts Ht), IH. unfold starts_with.
    destruct s as [|d s]; simpl in *.
    + unfold bar, is_char in Hb. apply Ascii.eqb_eq in Hb. by subst c.
    + unfold bar, is_char in Hc. rewrite (bool_decide_false (Some d = Some "|"%char)); [done|].
      intros [= ->]. done.
  - destruct (split_at_cons bar s) as (t & ts & Ht). rewrite Ht in *. simpl in *. rewrite IH.
    destruct s as [|d s]; [|done]. simpl. symmetry. apply bool_decide_eq_false.
    intros [= ->]. done.
Qed.

(** ** Which pipelines the parser accepts, and what it makes of them *)
Import Shell.


(** ** Acceptance *)

Lemma existsb_empty_split (l : list cstr) :
  existsb is_empty (List.filter nonempty l) || existsb empty_seg l = existsb is_empty l.
Proof.
  induction l as [|t l IH]; [done|]. simpl. rewrite <- IH. destruct t as [|c t]; simpl.
  - by rewrite orb_true_r.
  - by rewrite orb_assoc.
Qed.

Lemma existsb_blanks s : existsb id (blanks s) = existsb is_empty (split_at bar s).
Proof. unfold blanks. induction (split_at bar s) as [|t l IH]; [done|]. csimpl. by rewrite IH. Qed.

Lemma reject_blanks t : bars_adjacent t = false -> t <> [] ->
  starts_with "|" t || ends_with "|" t || existsb is_empty (tokens bar t) = existsb id (blanks t).
Proof.
  intros Ha Ht. rewrite existsb_blanks, <- (existsb_empty_split (split_at bar t)), tokens_split.
  rewrite <- (tail_segments t Ha). destruct (split_at_cons bar t) as (h & ts & Hs). rewrite Hs. simpl tail.
  change (existsb empty_seg (h :: ts)) with (empty_seg h || existsb empty_seg ts).
  rewrite (head_segment t h ts Hs). rewrite (bool_decide_false (t = [])) by done. simpl. apply orb_comm.
Qed.

Lemma blanks_trim s : blanks (trim_whitespace s) = blanks s.
Proof.
  destruct (trim_spec s) as (sp1 & sp2 & Hs & H1 & H2 & _). rewrite Hs at 2.
  by rewrite blanks_space_front, blanks_space_back.
Qed.

Definition has_char (p : ascii -> bool) (s : cstr) : bool := existsb p s.

Lemma existsb_app_char p (a b : cstr) : existsb p (a ++ b) = existsb p a || existsb p b.
Proof. induction a as [|c a IH]; simpl; [done|]. by rewrite IH, orb_assoc. Qed.

(** Characters that are not white space survive trimming. *)
Lemma existsb_trim p s : (forall c, isspace c = true -> p c = false) ->
  existsb p (trim_whitespace s) = existsb p s.
Proof.
  intros Hp. destruct (trim_spec s) as (sp1 & sp2 & Hs & H1 & H2 & _). rewrite Hs at 2.
  assert (forall sp, is_empty sp = true -> existsb p sp = false) as Hsp.
  { induction sp as [|c sp IH]; simpl; [done|]. intros [Hc H]%andb_prop. by rewrite Hp, IH. }
  rewrite !existsb_app_char, (Hsp sp1), (Hsp sp2) by done. by rewrite orb_false_r.
Qed.

Lemma add_spaces_existsb p s : p " "%char = false ->
  existsb p (add_spaces_around_redirects s) = existsb p s.
Proof.
  intros Hp. apply (add_spaces_ind (fun s r => existsb p r = existsb p s)); clear s.
  - done.
  - intros s r H. simpl. by rewrite Hp, H.
  - intros c s r _ _ H. simpl. by rewrite Hp, H.
  - intros c s r _ _ _ H. simpl. by rewrite H.
Qed.

Definition is_op (c : ascii) : bool := Ascii.eqb c ">" || Ascii.eqb c "<" || Ascii.eqb c "|".

Lemma add_spaces_no_op s : existsb is_op s = false -> add_spaces_around_redirects s = s.
Proof.
  apply (add_spaces_ind (fun s r => existsb is_op s = false -> r = s)); clear s.
  - done.
  - intros s r _ H. done.
  - intros c s r [-> | [-> | ->]] _ _ H; done.
  - intros c s r _ _ _ IH H. simpl in H. apply orb_false_iff in H as [_ H]. by rewrite IH.
Qed.

Lemma op_not_space c : isspace c = true -> is_op c = false.
Proof.
  intros H. unfold is_op. destruct (Ascii.eqb_spec c ">") as [->|]; [by vm_compute in H|].
  destruct (Ascii.eqb_spec c "<") as [->|]; [by vm_compute in H|].
  destruct (Ascii.eqb_spec c "|") as [->|]; [by vm_compute in H|done].
Qed.

Lemma add_spaces_amp g : trim_whitespace (add_spaces_around_redirects g) = str "&" <-> trim_whitespace g = str "&".
Proof.
  destruct (existsb is_op g) eqn:Hop; [|by rewrite add_spaces_no_op].
  assert (forall s, existsb is_op s = true -> trim_whitespace s <> str "&") as Hne.
  { intros s Hs Ht. rewrite <- (existsb_trim is_op s op_not_space), Ht in Hs. done. }
  split; intros H; exfalso; eapply Hne; [|exact H| |exact H]; [by rewrite add_spaces_existsb|done].
Qed.

Lemma ends_with_removelast c s : ends_with c s = true -> s = removelast s ++ [c].
Proof.
  unfold ends_with. intros H%bool_decide_eq_true. destruct s as [|x s] using rev_ind; [done|].
  rewrite last_snoc in H. injection H as ->. by rewrite removelast_last.
Qed.

Lemma amp_alone s : ends_with "&" (trim_whitespace s) && is_empty (removelast (trim_whitespace s)) =
  bool_decide (trim_whitespace s = str "&").
Proof.
  destruct (trim_spec s) as (_ & _ & _ & _ & _ & Hh & _). set (t := trim_whitespace s) in *.
  destruct (bool_decide_reflect (t = str "&")) as [->|Hne]; [done|].
  apply andb_false_iff. destruct (ends_with "&" t) eqn:He; [right|by left].
  apply ends_with_removelast in He. destruct (removelast t) as [|c l] eqn:Hr; [done|].
  simpl. rewrite (Hh c); [done|]. by rewrite He.
Qed.

(** The parser on a group whose operators have been spaced out. *)
Lemma parse_spaced g : existsb semi g = false -> is_empty g = false ->
  parse_input (add_spaces_around_redirects g) =
  negb (bool_decide (trim_whitespace g = str "&")) && negb (existsb id (blanks g)).
Proof.
  intros Hsemi Hne. set (u := add_spaces_around_redirects g).
  unfold parse_input. rewrite amp_alone. rewrite (bool_decide_ext _ _ (add_spaces_amp g)). fold u.
  destruct (bool_decide (trim_whitespace g = str "&")); [done|].
  assert (is_empty u = false) as Hue.
  { assert (forall s, is_empty s = negb (existsb (fun c => negb (isspace c)) s)) as Hem.
    { clear. induction s as [|c s IH]; [done|]. simpl. rewrite IH. by destruct (isspace c). }
    unfold u. rewrite Hem, add_spaces_existsb by done. by rewrite <- Hem. }
  assert (u <> []) as Hunil by (intros ->; done).
  assert (tokens semi u = [u]) as ->.
  { apply tokens_free; [done|]. assert (existsb semi u = false) as Hs by (unfold u; by rewrite add_spaces_existsb).
    clear -Hs. induction u as [|c u IH]; [done|]. simpl in *. apply orb_false_iff in Hs as [-> Hs]. by apply IH. }
  rewrite bool_decide_false by done. simpl. rewrite trim_empty, Hue.
  assert (trim_whitespace u <> []) as Htnil.
  { intros Ht. pose proof (trim_empty u) as He. rewrite Ht in He. simpl in He. congruence. }
  assert (bars_adjacent (trim_whitespace u) = false) as Hadj.
  { destruct (trim_spec u) as (sp1 & sp2 & Hs & _). eapply bars_adjacent_back, bars_adjacent_front.
    rewrite <- Hs. apply add_spaces_not_adjacent. }
  pose proof (reject_blanks _ Hadj Htnil) as Hr. rewrite blanks_trim in Hr. unfold u in Hr at 4.
  rewrite add_spaces_blanks in Hr. rewrite <- Hr.
  destruct (starts_with "|" (trim_whitespace u)); simpl; [done|].
  destruct (ends_with "|" (trim_whitespace u)); simpl; [done|].
  by destruct (existsb is_empty (tokens bar (trim_whitespace u))).
Qed.

(** The syntax check of a group, after the shell has put spaces around
    the operators, accepts exactly the pipelines without an empty command: a
    group that is not blank and has no semicolon passes if and only if it is
    not a lone ampersand and every part between two bars, before the first and
    after the last is not blank.  (On the unspaced text strtok_r would skip
    the empty command of [a||b].) *)
Theorem shell_pipeline_syntax g :
  existsb semi g = false -> is_empty g = false ->
  parse_input (add_spaces_around_redirects g) = true <->
  trim_whitespace g <> str "&" /\ Forall (fun seg => is_empty seg = false) (split_at bar g).
Proof.
  intros Hs Hne. rewrite (parse_spaced g Hs Hne), existsb_blanks, andb_true_iff, !negb_true_iff.
  rewrite bool_decide_eq_false. apply and_iff_compat_l. rewrite Forall_forall. split.
  - intros H seg Hin. destruct (is_empty seg) eqn:He; [|done].
    assert (existsb is_empty (split_at bar g) = true) as Ht; [|congruence].
    apply existsb_exists. exists seg. split; [by apply list_elem_of_In|done].
  - intros H. destruct (existsb is_empty (split_at bar g)) eqn:He; [|done].
    apply existsb_exists in He as (seg & Hin & He). apply list_elem_of_In in Hin. rewrite H in He; done.
Qed.

Lemma shell_pipeline_syntax_witness :
  parse_input (add_spaces_around_redirects (str "ls -l|wc > out")) = true /\
  parse_input (str "a||b") = true /\
  ~ Forall (fun seg => is_empty seg = false) (split_at bar (str "a||b")).
Proof.
  split; [|split; [reflexivity|]].
  - apply shell_pipeline_syntax; [reflexivity|reflexivity|]. split; [discriminate|].
    repeat constructor.
  - intros H. apply Forall_cons in H as [_ H]. apply Forall_cons in H as [H _]. discriminate H.
Defined.

(** ** The room for the spaces *)

(** The operators, [>>] counted once. *)
Fixpoint redirects (s : cstr) : nat :=
  match s with
  | [] => 0
  | ">"%char :: ">"%char :: s' => S (redirects s')
  | c :: s' => if is_op c then S (redirects s') else redirects s'
  end.

Lemma redirects_spec s : length (add_spaces_around_redirects s) = (length s + 2 * redirects s)%nat.
Proof.
  assert (forall c s, (c <> ">"%char \/ head s <> Some ">"%char) ->
    redirects (c :: s) = if is_op c then S (redirects s) else redirects s) as Hred.
  { intros c s0 H. destruct (ascii_dec c ">") as [->|Hc].
    - destruct s0 as [|d s0]; [done|]. destruct (ascii_dec d ">") as [->|Hd].
      + destruct H as [H|H]; done.
      + destruct d as [[] [] [] [] [] [] [] []]; done.
    - destruct c as [[] [] [] [] [] [] [] []]; done. }
  apply (add_spaces_ind (fun s r => length r = (length s + 2 * redirects s)%nat)); clear s.
  - done.
  - intros s r H. simpl. lia.
  - intros c s r Hc Hh H. rewrite Hred.
    + assert (is_op c = true) as -> by (by destruct Hc as [-> | [-> | ->]]). simpl. lia.
    + destruct (ascii_dec c ">"); [right; auto|by left].
  - intros c s r H1 H2 H3 H. rewrite Hred by by left.
    assert (is_op c = false) as ->; [|simpl; lia].
    unfold is_op. by rewrite !(proj2 (Ascii.eqb_neq _ _)).
Qed.

(** The buffer that receives the spaced command has twice the length of
    the command and one byte, but every operator takes two more bytes: the
    program writes past its end exactly when the command has more operators
    than half its length, for instance for every line that consists of bars
    only. *)
Theorem redirect_spaces_overflow s :
  spaces_written s = (length s + 2 * redirects s + 1)%nat /\
  ((spaces_buffer s < spaces_written s)%nat <-> (length s < 2 * redirects s)%nat) /\
  forall n, (0 < n)%nat -> (spaces_buffer (replicate n "|"%char) < spaces_written (replicate n "|"%char))%nat.
Proof.
  unfold spaces_written, spaces_buffer. rewrite redirects_spec. split_and!; [lia|lia|].
  intros n Hn. rewrite redirects_spec, length_replicate.
  assert (redirects (replicate n "|"%char) = n) as ->; [|lia].
  clear Hn. induction n as [|n IH]; [done|]. simpl. by rewrite IH.
Qed.
