(* ===== verification/ShellRun.v ===== *)
(** * Writing a pipeline as a command line and reading it back *)
From S2P Require Import Prelude Shell ShellFacts.
From Stdlib Require Import Ascii.
Import Shell.

#[local] Open Scope Z_scope.

(** Characters that mean nothing to the shell. *)
Definition plain (c : ascii) : bool :=
  negb (is_arg_delim c) && negb (isspace c) && negb (is_op c) && negb (semi c) && negb (Ascii.eqb c "&").

Definition word (w : cstr) : bool := nonempty w && forallb plain w.

(** Words and redirections. *)
Definition shaped (c : command) : Prop :=
  (0 < length (args c))%nat /\ Forall (fun w => word w = true) (args c) /\
  (forall f, input_file c = Some f -> word f = true) /\
  (forall f, output_file c = Some f -> word f = true) /\
  (output_file c = None -> append_output c = false).

(** Between one and 63 words. *)
Definition writable (c : command) : Prop := shaped c /\ (length (args c) < MAX_ARGS)%nat.

Lemma writable_shaped cs : Forall writable cs -> Forall shaped cs.
Proof. intros H. eapply Forall_impl; [exact H|]. by intros c [? _]. Qed.

Definition words (c : command) : list cstr :=
  args c ++
  match input_file c with Some f => [str "<"; f] | None => [] end ++
  match output_file c with Some f => [if append_output c then str ">>" else str ">"; f] | None => [] end.

Fixpoint join (ws : list cstr) : cstr :=
  match ws with
  | [] => []
  | [w] => w
  | w :: ws' => w ++ " "%char :: join ws'
  end.

Definition show_command (c : command) : cstr := join (words c).

Fixpoint show_commands (cs : list command) : cstr :=
  match cs with
  | [] => []
  | [c] => show_command c
  | c :: cs' => show_command c ++ " "%char :: "|"%char :: " "%char :: show_commands cs'
  end.

Definition show_pipeline (cs : list command) (background : bool) : cstr :=
  show_commands cs ++ (if background then str " &" else []).

(** A word or a redirection operator. *)
Definition lexeme (w : cstr) : Prop := word w = true \/ w = str "<" \/ w = str ">" \/ w = str ">>".

Lemma words_lexemes c : shaped c -> Forall lexeme (words c).
Proof.
  intros (_ & Ha & Hi & Ho & _). unfold words. apply Forall_app. split.
  { eapply Forall_impl; [exact Ha|]. intros w Hw. by left. }
  apply Forall_app. split.
  - destruct (input_file c) as [f|]; [|done]. apply Forall_cons_2; [by right; left|apply Forall_cons_2; [left; by apply Hi|constructor]].
  - destruct (output_file c) as [f|]; [|done]. apply Forall_cons_2; [|apply Forall_cons_2; [left; by apply Ho|constructor]].
    destruct (append_output c); right; right; auto.
Qed.

Lemma plain_facts c : plain c = true ->
  is_arg_delim c = false /\ isspace c = false /\ is_op c = false /\ semi c = false /\ Ascii.eqb c "&" = false.
Proof.
  unfold plain. intros [[[[H1 H2]%andb_prop H3]%andb_prop H4]%andb_prop H5]%andb_prop.
  by rewrite !negb_true_iff in *.
Qed.

Lemma forallb_existsb (p q : ascii -> bool) w : (forall c, p c = true -> q c = false) ->
  forallb p w = true -> existsb q w = false.
Proof.
  intros H. induction w as [|c w IH]; simpl; [done|]. intros [Hc Hw]%andb_prop. by rewrite H, IH.
Qed.

Lemma forallb_negb (q : ascii -> bool) w : existsb q w = false -> forallb (fun c => negb (q c)) w = true.
Proof. induction w as [|c w IH]; simpl; [done|]. by intros [-> ?%IH]%orb_false_iff. Qed.

Lemma word_facts w : word w = true ->
  w <> [] /\ existsb is_op w = false /\ existsb is_arg_delim w = false /\ existsb bar w = false /\
  existsb semi w = false /\ existsb (Ascii.eqb "&") w = false /\ (exists c w', w = c :: w' /\ isspace c = false) /\
  (exists c w', w = w' ++ [c] /\ isspace c = false /\ c <> "&"%char).
Proof.
  unfold word. intros [Hn Hp]%andb_prop. destruct w as [|c0 w0]; [done|]. set (w := c0 :: w0) in *.
  split_and!; [done| | | | | | |].
  - eapply forallb_existsb; [|exact Hp]. intros c Hc. by apply plain_facts in Hc as (_ & _ & ? & _).
  - eapply forallb_existsb; [|exact Hp]. intros c Hc. by apply plain_facts in Hc as (? & _).
  - eapply forallb_existsb; [|exact Hp]. intros c Hc. apply plain_facts in Hc as (_ & _ & Hc & _).
    unfold is_op in Hc. unfold bar, is_char. by apply orb_false_iff in Hc as [_ Hc].
  - eapply forallb_existsb; [|exact Hp]. intros c Hc. by apply plain_facts in Hc as (_ & _ & _ & ? & _).
  - eapply forallb_existsb; [|exact Hp]. intros c Hc. apply plain_facts in Hc as (_ & _ & _ & _ & Hc).
    apply Ascii.eqb_neq in Hc. apply Ascii.eqb_neq. congruence.
  - exists c0, w0. split; [done|]. simpl in Hp. apply andb_prop in Hp as [Hp _].
    by apply plain_facts in Hp as (_ & ? & _).
  - destruct (exists_last (l := w) ltac:(done)) as (w' & c & Hw). exists c, w'. split; [done|].
    rewrite Hw, forallb_app in Hp. apply andb_prop in Hp as [_ Hp]. simpl in Hp. rewrite andb_true_r in Hp.
    apply plain_facts in Hp as (_ & ? & _ & _ & Ha). split; [done|]. by apply Ascii.eqb_neq.
Qed.

(** ** Spacing out *)

Lemma add_spaces_space a b :
  add_spaces_around_redirects (a ++ " "%char :: b) =
  add_spaces_around_redirects a ++ " "%char :: add_spaces_around_redirects b.
Proof.
  apply (add_spaces_ind (fun a r => add_spaces_around_redirects (a ++ " "%char :: b) =
                                    r ++ " "%char :: add_spaces_around_redirects b)); clear a.
  - done.
  - intros s r H. change ((">"%char :: ">"%char :: s) ++ " "%char :: b) with (">"%char :: ">"%char :: (s ++ " "%char :: b)).
    change (add_spaces_around_redirects (">"%char :: ">"%char :: (s ++ " "%char :: b)))
      with (str " >> " ++ add_spaces_around_redirects (s ++ " "%char :: b)).
    by rewrite H, <- app_assoc.
  - intros c s r Hc Hh H. change ((c :: s) ++ " "%char :: b) with (c :: (s ++ " "%char :: b)).
    assert (add_spaces_around_redirects (c :: (s ++ " "%char :: b)) =
            [" "%char; c; " "%char] ++ add_spaces_around_redirects (s ++ " "%char :: b)) as ->.
    { destruct Hc as [-> | [-> | ->]]; [|done..]. specialize (Hh eq_refl).
      destruct s as [|d s]; [done|]. simpl in Hh.
      destruct d as [[] [] [] [] [] [] [] []]; done. }
    by rewrite H, <- app_assoc.
  - intros c s r H1 H2 H3 H. change ((c :: s) ++ " "%char :: b) with (c :: (s ++ " "%char :: b)).
    assert (add_spaces_around_redirects (c :: (s ++ " "%char :: b)) =
            c :: add_spaces_around_redirects (s ++ " "%char :: b)) as ->.
    { destruct c as [[] [] [] [] [] [] [] []]; done. }
    by rewrite H.
Qed.

Lemma tokens_lexeme w : lexeme w -> tokens is_arg_delim (add_spaces_around_redirects w) = [w].
Proof.
  intros [Hw | [-> | [-> | ->]]]; [|reflexivity..].
  destruct (word_facts w Hw) as (Hn & Hop & Hd & _). rewrite add_spaces_no_op by done.
  apply tokens_free; [done|]. by apply forallb_negb.
Qed.

Lemma tokens_join ws : Forall lexeme ws -> tokens is_arg_delim (add_spaces_around_redirects (join ws)) = ws.
Proof.
  induction ws as [|w ws IH]; intros Hl; [done|]. apply Forall_cons in Hl as [Hw Hl].
  destruct ws as [|v ws]; [by apply tokens_lexeme|].
  change (join (w :: v :: ws)) with (w ++ " "%char :: join (v :: ws)).
  rewrite add_spaces_space, tokens_app_delim by done. by rewrite tokens_lexeme, IH.
Qed.

Lemma lexeme_no_bar w : lexeme w -> existsb bar (add_spaces_around_redirects w) = false.
Proof.
  intros [Hw | [-> | [-> | ->]]]; [|reflexivity..].
  destruct (word_facts w Hw) as (_ & Hop & _ & Hb & _). by rewrite add_spaces_no_op.
Qed.

Lemma existsb_join p ws : p " "%char = false -> Forall (fun w => existsb p w = false) ws -> existsb p (join ws) = false.
Proof.
  intros Hp. induction ws as [|w ws IH]; intros H; [done|]. apply Forall_cons in H as [Hw H].
  destruct ws as [|v ws]; [done|]. change (join (w :: v :: ws)) with (w ++ " "%char :: join (v :: ws)).
  rewrite existsb_app_char, Hw. cbn [existsb orb]. rewrite Hp. by apply IH.
Qed.

(** ** The words of a command *)

Lemma parse_words_args ws : forall rest c,
  Forall (fun w => word w = true) ws -> (length (args c) + length ws < MAX_ARGS)%nat ->
  parse_words (ws ++ rest) c = parse_words rest {| c with args := args c ++ ws |}.
Proof.
  induction ws as [|w ws IH]; intros rest c Hw Hlen; cbn [parse_words app].
  { rewrite app_nil_r. by destruct c. }
  apply Forall_cons in Hw as [Hw1 Hw]. destruct (word_facts w Hw1) as (_ & Hop & _).
  assert (forall lit, existsb is_op (str lit) = true -> is_str w lit = false) as Hns.
  { intros lit Hl. apply bool_decide_eq_false. intros ->. congruence. }
  rewrite !Hns by done. simpl in Hlen. rewrite (proj2 (Nat.leb_gt MAX_ARGS (length (args c)))) by lia.
  rewrite IH; [|done|cbn [args]; rewrite length_app; simpl; lia]. cbn [args]. by rewrite <- app_assoc.
Qed.

Lemma parse_words_show c : writable c -> parse_words (words c) no_command = Ret c.
Proof.
  intros [(_ & Ha & Hi & Ho & Hap) Hlen]. unfold words.
  rewrite parse_words_args; [|done|cbn [args no_command]; simpl; lia]. cbn [args no_command app].
  destruct c as [a i o ap]. cbn [args input_file output_file append_output] in *.
  destruct i as [f|], o as [g|]; try destruct ap; try reflexivity; by specialize (Hap eq_refl).
Qed.

(** ** The commands of a pipeline *)

Lemma show_command_no_bar c : shaped c -> existsb bar (add_spaces_around_redirects (show_command c)) = false.
Proof.
  intros Hc. rewrite add_spaces_existsb by done. apply existsb_join; [done|].
  eapply Forall_impl; [by apply words_lexemes|]. intros w Hw.
  rewrite <- (add_spaces_existsb bar) by done. by apply lexeme_no_bar.
Qed.

Lemma tokens_spaces_front sp s : forallb (Ascii.eqb " ") sp = true -> tokens is_arg_delim (sp ++ s) = tokens is_arg_delim s.
Proof.
  induction sp as [|c sp IH]; cbn [forallb app]; [done|]. intros [Hc H]%andb_prop. apply Ascii.eqb_eq in Hc as <-.
  change (" "%char :: sp ++ s) with ([] ++ " "%char :: (sp ++ s)). rewrite tokens_app_delim by done. by apply IH.
Qed.

Lemma tokens_spaces_back sp s : forallb (Ascii.eqb " ") sp = true -> tokens is_arg_delim (s ++ sp) = tokens is_arg_delim s.
Proof.
  destruct sp as [|c sp]; cbn [forallb]; [by rewrite app_nil_r|]. intros [Hc H]%andb_prop. apply Ascii.eqb_eq in Hc as <-.
  rewrite tokens_app_delim by done. rewrite <- (app_nil_r sp), tokens_spaces_front by done. by rewrite app_nil_r.
Qed.

Lemma existsb_spaces p sp : p " "%char = false -> forallb (Ascii.eqb " ") sp = true -> existsb p sp = false.
Proof.
  intros Hp H. eapply forallb_existsb; [|exact H]. intros c Hc. by apply Ascii.eqb_eq in Hc as <-.
Qed.

Lemma show_command_nonempty c : shaped c -> add_spaces_around_redirects (show_command c) <> [].
Proof.
  intros Hc Hn. pose proof (tokens_join (words c) (words_lexemes c Hc)) as Ht. unfold show_command in Hn.
  rewrite Hn in Ht. destruct Hc as (Hl & _). unfold words in Ht.
  destruct (args c); [simpl in Hl; lia|done].
Qed.

Lemma tokens_bar_one sp1 c sp2 : shaped c -> forallb (Ascii.eqb " ") sp1 = true -> forallb (Ascii.eqb " ") sp2 = true ->
  tokens bar (sp1 ++ add_spaces_around_redirects (show_command c) ++ sp2) =
    [sp1 ++ add_spaces_around_redirects (show_command c) ++ sp2] /\
  tokens is_arg_delim (sp1 ++ add_spaces_around_redirects (show_command c) ++ sp2) = words c.
Proof.
  intros Hc H1 H2. split.
  - apply tokens_free.
    + intros Hn. apply app_eq_nil in Hn as [_ Hn]. apply app_eq_nil in Hn as [Hn _].
      by apply (show_command_nonempty c Hc).
    + apply forallb_negb. rewrite !existsb_app_char, show_command_no_bar, !(existsb_spaces bar) by done. done.
  - rewrite tokens_spaces_front, tokens_spaces_back by done. apply tokens_join. by apply words_lexemes.
Qed.

Lemma tokens_show_commands cs : forall sp1 sp2, cs <> [] -> Forall shaped cs ->
  forallb (Ascii.eqb " ") sp1 = true -> forallb (Ascii.eqb " ") sp2 = true ->
  exists segs, tokens bar (sp1 ++ add_spaces_around_redirects (show_commands cs) ++ sp2) = segs /\
    Forall2 (fun seg c => tokens is_arg_delim seg = words c) segs cs.
Proof.
  induction cs as [|c cs IH]; intros sp1 sp2 Hne Hw H1 H2; [done|]. apply Forall_cons in Hw as [Hc Hw].
  destruct cs as [|c' cs].
  - destruct (tokens_bar_one sp1 c sp2 Hc H1 H2) as [Hb Ht]. eexists. split; [exact Hb|]. by constructor.
  - change (show_commands (c :: c' :: cs)) with
      (show_command c ++ " "%char :: "|"%char :: " "%char :: show_commands (c' :: cs)).
    rewrite add_spaces_space.
    change (add_spaces_around_redirects ("|"%char :: " "%char :: show_commands (c' :: cs)))
      with (" "%char :: "|"%char :: str "  " ++ add_spaces_around_redirects (show_commands (c' :: cs))).
    set (u := add_spaces_around_redirects (show_commands (c' :: cs))).
    replace (sp1 ++ (add_spaces_around_redirects (show_command c) ++ " "%char :: " "%char :: "|"%char :: str "  " ++ u) ++ sp2)
      with ((sp1 ++ add_spaces_around_redirects (show_command c) ++ str "  ") ++ "|"%char :: (str "  " ++ u ++ sp2)).
    2:{ cbn [str String.list_ascii_of_string]. rewrite <- !app_assoc. simpl. done. }
    rewrite tokens_app_delim by done.
    destruct (tokens_bar_one sp1 c (str "  ") Hc H1 eq_refl) as [Hb Ht].
    destruct (IH (str "  ") sp2 ltac:(done) Hw eq_refl H2) as (segs & Hs & Hf).
    unfold u. rewrite Hb, Hs. eexists. split; [reflexivity|]. by constructor.
Qed.

Lemma parse_pipes_show segs cs : Forall2 (fun seg c => tokens is_arg_delim seg = words c) segs cs -> Forall writable cs ->
  forall acc, (length acc + length cs <= MAX_PIPED_CMDS)%nat -> parse_pipes segs acc = Ret (acc ++ cs).
Proof.
  induction 1 as [|seg c segs cs Ht Hf IH]; intros Hw acc Hlen; cbn [parse_pipes]; [by rewrite app_nil_r|].
  apply Forall_cons in Hw as [Hc Hw]. simpl in Hlen.
  rewrite (proj2 (Nat.leb_gt MAX_PIPED_CMDS (length acc))) by lia.
  rewrite Ht, parse_words_show by done. cbn [mbind outcome_bind].
  rewrite bool_decide_false by (destruct Hc as [(Hl & _) _]; destruct (args c); [simpl in Hl; lia|done]).
  rewrite IH; [by rewrite <- app_assoc|done|]. rewrite length_app. simpl. lia.
Qed.

(** ** The text of a pipeline *)

Lemma show_commands_chars p cs : p " "%char = false -> p "|"%char = false ->
  Forall (fun c => Forall (fun w => existsb p w = false) (words c)) cs -> existsb p (show_commands cs) = false.
Proof.
  intros Hs Hb. induction cs as [|c cs IH]; intros H; [done|]. apply Forall_cons in H as [Hc H].
  destruct cs as [|c' cs]; [by apply existsb_join|].
  change (show_commands (c :: c' :: cs)) with
    (show_command c ++ " "%char :: "|"%char :: " "%char :: show_commands (c' :: cs)).
  rewrite existsb_app_char. cbn [existsb]. rewrite Hs, Hb. cbn [orb].
  unfold show_command at 1. rewrite (existsb_join p (words c) Hs Hc). by apply IH.
Qed.

Lemma words_chars p c : shaped c -> (forall w, word w = true -> existsb p w = false) ->
  p "<"%char = false -> p ">"%char = false -> Forall (fun w => existsb p w = false) (words c).
Proof.
  intros Hc Hw Hl Hg. eapply Forall_impl; [by apply words_lexemes|].
  intros w [H | [-> | [-> | ->]]]; [by apply Hw|..]; cbn; by rewrite ?Hl, ?Hg.
Qed.

Lemma join_last ws w : exists p, join (ws ++ [w]) = p ++ w.
Proof.
  induction ws as [|v ws [p IH]]; [by exists []|]. destruct ws as [|u ws]; simpl app in *.
  - exists (v ++ [" "%char]). simpl. by rewrite <- app_assoc.
  - exists (v ++ " "%char :: p). change (join (v :: u :: ws ++ [w])) with (v ++ " "%char :: join (u :: ws ++ [w])).
    by rewrite IH, <- app_assoc.
Qed.

Lemma words_last c : shaped c -> exists ws w, words c = ws ++ [w] /\ word w = true.
Proof.
  intros (Hl & Ha & Hi & Ho & _). unfold words.
  destruct (output_file c) as [g|].
  - exists (args c ++ match input_file c with Some f => [str "<"; f] | None => [] end ++
            [if append_output c then str ">>" else str ">"]), g.
    split; [|by apply Ho]. by rewrite <- !app_assoc.
  - destruct (input_file c) as [f|].
    + exists (args c ++ [str "<"]), f. split; [|by apply Hi]. by rewrite <- app_assoc.
    + rewrite !app_nil_r. destruct (args c) as [|w ws] eqn:E using rev_ind; [simpl in Hl; lia|].
      exists ws, w. split; [done|]. apply Forall_app in Ha as [_ Ha]. by apply Forall_cons in Ha as [? _].
Qed.

(** A pipeline ends in a plain character. *)
Lemma show_commands_last cs : cs <> [] -> Forall shaped cs ->
  exists s c, show_commands cs = s ++ [c] /\ isspace c = false /\ c <> "&"%char.
Proof.
  induction cs as [|c cs IH]; intros Hne Hw; [done|]. apply Forall_cons in Hw as [Hc Hw].
  destruct cs as [|c' cs].
  - destruct (words_last c Hc) as (ws & w & Hws & Hww).
    destruct (word_facts w Hww) as (_ & _ & _ & _ & _ & _ & _ & (x & w' & -> & Hx & Ha)).
    destruct (join_last ws (w' ++ [x])) as [p Hp].
    exists (p ++ w'), x. split; [|done]. simpl. unfold show_command. by rewrite Hws, Hp, <- app_assoc.
  - destruct (IH ltac:(done) Hw) as (s & x & Hs & Hx).
    exists (show_command c ++ " "%char :: "|"%char :: " "%char :: s), x.
    split; [|done]. change (show_commands (c :: c' :: cs)) with
      (show_command c ++ " "%char :: "|"%char :: " "%char :: show_commands (c' :: cs)).
    by rewrite Hs, <- app_assoc.
Qed.

Lemma split_background_show cs (bg : bool) : cs <> [] -> Forall shaped cs ->
  split_background (show_pipeline cs bg) = (bg, show_commands cs ++ if bg then [" "%char] else []).
Proof.
  intros Hne Hw. destruct (show_commands_last cs Hne Hw) as (s & x & Hs & Hx & Ha).
  unfold split_background, show_pipeline. destruct bg.
  - rewrite rev_app_distr. simpl. by rewrite rev_involutive.
  - rewrite !app_nil_r, Hs, rev_app_distr. simpl. rewrite Hx.
    destruct x as [[] [] [] [] [] [] [] []]; try done.
Qed.

(** The parts between the bars are not blank. *)
Lemma show_commands_not_blank cs : cs <> [] -> Forall shaped cs ->
  forall sp1 sp2, forallb (Ascii.eqb " ") sp1 = true -> forallb (Ascii.eqb " ") sp2 = true ->
  existsb is_empty (split_at bar (sp1 ++ show_commands cs ++ sp2)) = false.
Proof.
  induction cs as [|c cs IH]; intros Hne Hw sp1 sp2 H1 H2; [done|]. apply Forall_cons in Hw as [Hc Hw].
  assert (forall sp, forallb (Ascii.eqb " ") sp = true ->
    existsb is_empty (split_at bar (sp1 ++ show_command c ++ sp)) = false) as Hone.
  { intros sp Hsp. rewrite split_at_free.
    - simpl. rewrite orb_false_r, !is_empty_app.
      destruct (show_commands_last [c] ltac:(done) ltac:(by constructor)) as (s & x & Hs & Hx & _).
      change (show_commands [c]) with (show_command c) in Hs. rewrite Hs, is_empty_app. simpl. rewrite Hx.
      by rewrite !andb_false_r.
    - apply forallb_negb. rewrite !existsb_app_char, (existsb_spaces bar sp1), (existsb_spaces bar sp) by done.
      pose proof (show_command_no_bar c Hc) as Hb. rewrite add_spaces_existsb in Hb by done. by rewrite Hb. }
  destruct cs as [|c' cs]; [by apply Hone|].
  change (show_commands (c :: c' :: cs)) with
    (show_command c ++ " "%char :: "|"%char :: " "%char :: show_commands (c' :: cs)).
  replace (sp1 ++ (show_command c ++ " "%char :: "|"%char :: " "%char :: show_commands (c' :: cs)) ++ sp2)
    with ((sp1 ++ show_command c ++ [" "%char]) ++ "|"%char :: ([" "%char] ++ show_commands (c' :: cs) ++ sp2)).
  2:{ rewrite <- !app_assoc. simpl. done. }
  rewrite split_at_app_delim by done. rewrite existsb_app. rewrite Hone by done. by apply IH.
Qed.

Lemma parse_show cs (bg : bool) : cs <> [] -> Forall shaped cs ->
  let g := show_commands cs ++ if (bg : bool) then [" "%char] else [] in
  is_empty g = false /\ parse_input (add_spaces_around_redirects g) = true.
Proof.
  intros Hne Hw g.
  destruct (show_commands_last cs Hne Hw) as (s & x & Hs & Hx & Ha).
  assert (is_empty g = false) as Hempty.
  { unfold g. rewrite Hs, !is_empty_app. simpl. rewrite Hx. by rewrite !andb_false_r. }
  split; [done|]. rewrite parse_spaced; [|..|done].
  - rewrite existsb_blanks. pose proof (show_commands_not_blank cs Hne Hw ([] : cstr) (if bg then [" "%char] else [])) as Hb.
    simpl app in Hb. fold g in Hb. rewrite Hb by (done || by destruct bg). rewrite andb_true_r.
    apply negb_true_iff, bool_decide_eq_false. intros Ht.
    assert (existsb (Ascii.eqb "&") g = true) as Hg.
    { rewrite <- (existsb_trim (Ascii.eqb "&")), Ht; [done|]. intros c Hc.
      apply Ascii.eqb_neq. intros <-. by vm_compute in Hc. }
    unfold g in Hg. rewrite existsb_app_char, show_commands_chars in Hg; [by destruct bg|done|done|].
    eapply Forall_impl; [exact Hw|]. intros c Hc. apply words_chars; [done| |done|done].
    intros w Hww. by destruct (word_facts w Hww) as (_ & _ & _ & _ & _ & ? & _).
  - unfold g. rewrite existsb_app_char, show_commands_chars; [by destruct bg|done|done|].
    eapply Forall_impl; [exact Hw|]. intros c Hc. apply words_chars; [done| |done|done].
    intros w Hww. by destruct (word_facts w Hww) as (_ & _ & _ & _ & ? & _).
Qed.

Lemma add_spaces_bg cs (bg : bool) :
  add_spaces_around_redirects (show_commands cs ++ if bg then [" "%char] else []) =
  add_spaces_around_redirects (show_commands cs) ++ if bg then [" "%char] else [].
Proof. destruct bg; [by rewrite add_spaces_space|by rewrite !app_nil_r]. Qed.

(** (C37) Reading back a written command line: a pipeline of at most 16
    commands, each of one to 63 words (of characters without a meaning to the
    shell) with optional input and output redirections, written with its bars
    and an optional final ampersand, is recognised as exactly that pipeline, in
    the background or not, a single foreground builtin being run by the shell
    itself.  The exception is the command line of a test the shell treats
    specially. *)
Theorem shell_parse_roundtrip cs bg :
  cs <> [] -> (length cs <= MAX_PIPED_CMDS)%nat -> Forall writable cs ->
  special_case (show_pipeline cs bg) = false ->
  process_group (show_pipeline cs bg) = Ret (dispatch cs bg).
Proof.
  intros Hne Hlen Hw Hsp. pose proof (writable_shaped cs Hw) as Hsh.
  unfold process_group. rewrite Hsp, split_background_show by done.
  destruct (parse_show cs bg Hne Hsh) as [He Hp]. rewrite He, Hp. cbn [negb]. rewrite add_spaces_bg.
  destruct (tokens_show_commands cs [] (if bg then [" "%char] else []) Hne Hsh eq_refl) as (segs & Hs & Hf).
  { by destruct bg. }
  cbn [app] in Hs. rewrite Hs, (parse_pipes_show segs cs Hf Hw []) by (simpl; lia).
  cbn [mbind outcome_bind app].
  assert (existsb (fun c => (MAX_ARGS <=? length (args c))%nat) cs = false) as ->; [|done].
  clear -Hw. induction cs as [|c cs IH]; [done|]. apply Forall_cons in Hw as [[_ Hc] Hw].
  cbn [existsb]. rewrite (proj2 (Nat.leb_gt _ _)) by done. by apply IH.
Qed.

Lemma shell_parse_roundtrip_witness :
  let c1 := mk_command [str "ls"; str "-l"] None None false in
  let c2 := mk_command [str "sort"] (Some (str "in")) (Some (str "out")) true in
  show_pipeline [c1; c2] true = str "ls -l | sort < in >> out &" /\
  process_group (str "ls -l | sort < in >> out &") = Ret (Some (Pipeline [c1; c2] true)).
Proof.
  intros c1 c2. split; [reflexivity|].
  apply (shell_parse_roundtrip [c1; c2] true); [discriminate|vm_compute; lia| |reflexivity].
  apply Forall_cons; split; [|apply Forall_cons; split; [|apply Forall_nil; exact I]].
  - split; [split_and!|]; [vm_compute; lia|repeat constructor|discriminate|discriminate|reflexivity|vm_compute; lia].
  - split; [split_and!|]; [vm_compute; lia|repeat constructor|intros f [= <-]; reflexivity
                |intros f [= <-]; reflexivity|discriminate|vm_compute; lia].
Defined.

Lemma parse_words_overflow ws c :
  Forall (fun w => word w = true) ws -> (length (args c) <= MAX_ARGS < length (args c) + length ws)%nat ->
  parse_words ws c = Undef "args: out of bounds".
Proof.
  revert c. induction ws as [|w ws IH]; intros c Hw Hlen; [simpl in Hlen; lia|].
  apply Forall_cons in Hw as [Hw1 Hw]. destruct (word_facts w Hw1) as (_ & Hop & _).
  assert (forall lit, existsb is_op (str lit) = true -> is_str w lit = false) as Hns.
  { intros lit Hl. apply bool_decide_eq_false. intros ->. congruence. }
  cbn [parse_words]. rewrite !Hns by done.
  destruct (Nat.leb_spec MAX_ARGS (length (args c))); [done|].
  apply IH; [done|]. cbn [args]. rewrite length_app. simpl in *. lia.
Qed.

Lemma parse_words_full ws c :
  Forall (fun w => word w = true) ws -> (length (args c) + length ws = MAX_ARGS)%nat ->
  exists c', parse_words ws c = Ret c' /\ length (args c') = MAX_ARGS.
Proof.
  revert c. induction ws as [|w ws IH]; intros c Hw Hlen.
  { exists c. split; [done|]. simpl in Hlen. lia. }
  apply Forall_cons in Hw as [Hw1 Hw]. destruct (word_facts w Hw1) as (_ & Hop & _).
  assert (forall lit, existsb is_op (str lit) = true -> is_str w lit = false) as Hns.
  { intros lit Hl. apply bool_decide_eq_false. intros ->. congruence. }
  cbn [parse_words length] in *. rewrite !Hns by done.
  rewrite (proj2 (Nat.leb_gt MAX_ARGS (length (args c)))) by lia.
  apply IH; [done|]. cbn [args]. rewrite length_app. simpl in *. lia.
Qed.

(** The array of a command's arguments has 64 entries and its end is
    marked by a null pointer, and nothing checks it: every command line of one
    command with 64 or more words makes the shell write or read past the end
    of the array. *)
Theorem shell_args_overflow ws :
  Forall (fun w => word w = true) ws -> (MAX_ARGS <= length ws)%nat -> special_case (join ws) = false ->
  exists msg, process_group (join ws) = Undef msg.
Proof.
  intros Hw Hlen Hsp. set (c := mk_command ws None None false).
  assert (words c = ws) as Hwords by (unfold words; simpl; by rewrite app_nil_r).
  assert (shaped c) as Hc.
  { unfold shaped. split_and!; try done. assert (0 < MAX_ARGS)%nat by (vm_compute; lia). simpl. lia. }
  assert (show_commands [c] = join ws) as Hshow by (simpl; unfold show_command; by rewrite Hwords).
  assert (Forall shaped [c]) as Hcs by by constructor.
  pose proof (split_background_show [c] false ltac:(done) Hcs) as Hb.
  unfold show_pipeline in Hb. rewrite Hshow, !app_nil_r in Hb.
  destruct (parse_show [c] false ltac:(done) Hcs) as [He Hp]. rewrite Hshow, app_nil_r in He, Hp.
  destruct (tokens_bar_one [] c [] Hc eq_refl eq_refl) as [Ht1 Ht2].
  unfold show_command in Ht1, Ht2. rewrite Hwords in Ht1, Ht2. cbn [app] in Ht1, Ht2. rewrite app_nil_r in Ht1, Ht2.
  unfold process_group. rewrite Hsp, Hb, He, Hp, Ht1. cbn [negb parse_pipes length].
  change (MAX_PIPED_CMDS <=? 0)%nat with false. cbv iota. rewrite Ht2.
  destruct (Nat.eq_dec (length ws) MAX_ARGS) as [Heq|Hne].
  - destruct (parse_words_full ws no_command Hw ltac:(simpl; lia)) as (c' & -> & Hl).
    cbn [mbind outcome_bind app]. rewrite bool_decide_false; [|by intros Hn; rewrite Hn in Hl].
    cbn [existsb]. rewrite Hl, Nat.leb_refl. cbn [orb]. eauto.
  - rewrite parse_words_overflow; [cbn; eauto|done|]. simpl. split; [lia|].
    assert (MAX_ARGS < length ws)%nat by lia. unfold MAX_ARGS in *. lia.
Qed.

Lemma shell_args_overflow_witness : exists msg, process_group (join (replicate 64 (str "a"))) = Undef msg.
Proof.
  apply shell_args_overflow; [|vm_compute; lia|vm_compute; reflexivity].
  apply Forall_replicate. reflexivity.
Defined.
