(* ===== verification/Jobs.v ===== *)
(** * Jobs, history and directories of the shell
    (posix-shell/src: jobs.c, intrinsics.c, execute.c)

    What the operating system does (kill, waitpid, chdir, opening files) is an
    argument: the result of the call. *)
From S2P Require Import Prelude Shell.
From Stdlib Require Import Ascii.
Import Shell.

#[local] Open Scope Z_scope.

Module Jobs.

(** ** jobs.c *)

Definition MAX_JOBS : nat := 64.
Definition MAX_CMD_NAME : nat := 1024.

Inductive job_state := RUNNING | STOPPED.

#[export] Instance job_state_eq_dec : EqDecision job_state.
Proof. solve_decision. Defined.

Record job := mk_job { pgid : Z; command_name : cstr; state : job_state; job_id : Z }.

Record jobs := mk_jobs { job_list : list job; next_job_id : Z }.

Definition initialize_jobs (l : list job) : jobs :=
  mk_jobs ((fun j => {| j with pgid := -1 |}) <$> l) 1.

Definition is_free (j : job) : bool := pgid j =? -1.

(** The index of the new job. *)
Definition add_job (pg : Z) (name : cstr) (st : job_state) (js : jobs) : option nat * jobs :=
  match find_idx is_free (job_list js) with
  | Some i =>
      let j := mk_job pg (take (MAX_CMD_NAME - 1) name) st (next_job_id js) in
      (Some i, mk_jobs (<[i := j]> (job_list js)) (next_job_id js + 1))
  | None => (None, js)
  end.

Definition set_job (i : nat) (f : job -> job) (js : jobs) : jobs :=
  mk_jobs (alter f i (job_list js)) (next_job_id js).

Definition remove_job_by_pgid (pg : Z) (js : jobs) : jobs :=
  match find_idx (fun j => pgid j =? pg) (job_list js) with
  | Some i => set_job i (fun j => {| j with pgid := -1 |}) js
  | None => js
  end.

Definition get_job_by_jid (jid : Z) (js : jobs) : option nat :=
  find_idx (fun j => negb (is_free j) && (job_id j =? jid)) (job_list js).

Definition get_most_recent_job (js : jobs) : option nat :=
  fst <$> scan_min (fun j => negb (is_free j) && (-1 <? job_id j)) (fun j => - job_id j) 0 None (job_list js).

(** What waitpid reports of a child. *)
Inductive wait_status := Exited | Signaled | Stopped.

Definition reap_one (js : jobs) (ev : Z * wait_status) : jobs :=
  let '(pg, st) := ev in
  match st with
  | Exited | Signaled => remove_job_by_pgid pg js
  | Stopped =>
      match find_idx (fun j => pgid j =? pg) (job_list js) with
      | Some i => set_job i (fun j => {| j with state := STOPPED |}) js
      | None => js
      end
  end.

(** The children that waitpid returns, until it returns none. *)
Definition reap_background_jobs (evs : list (Z * wait_status)) (js : jobs) : jobs :=
  fold_left reap_one evs js.

Definition live_jobs (js : jobs) : list job := List.filter (fun j => negb (is_free j)) (job_list js).

Definition print_jobs (js : jobs) : list (Z * Z * job_state * cstr) :=
  (fun j => (job_id j, pgid j, state j, command_name j)) <$> live_jobs js.

(** The process groups that are sent SIGKILL. *)
Definition kill_all_jobs (js : jobs) : list Z := pgid <$> live_jobs js.

(** ** execute.c: the parent's part of [execute_pipeline] *)

Fixpoint full_cmd (names : list cstr) : cstr :=
  match names with
  | [] => []
  | [n] => n
  | n :: names' => n ++ str " | " ++ full_cmd names'
  end.

(** The buffer holds 1024 bytes and strcat does not check.  [last] is what
    waitpid reports of the last process of a foreground pipeline. *)
Definition pipeline_parent (cmds : list command) (pids : list Z) (background : bool)
    (last : wait_status) (js : jobs) : outcome jobs :=
  let name := full_cmd ((fun c => default [] (head (args c))) <$> cmds) in
  if (MAX_CMD_NAME <=? length name)%nat then Undef "full_cmd: overflow"
  else
    let pg := default 0 (head pids) in
    Ret (if background then snd (add_job pg name RUNNING js)
         else match last with
              | Stopped => snd (add_job pg name STOPPED js)
              | _ => js
              end).

(** ** intrinsics.c *)

Definition find_job (arg : option cstr) (js : jobs) : option nat :=
  match arg with
  | None => get_most_recent_job js
  | Some a => get_job_by_jid (atoi a) js
  end.

(** [execute_fg]: the result, the process group waited for, the new table.
    [cont_ok]: whether kill(SIGCONT) succeeds. *)
Definition execute_fg (arg : option cstr) (cont_ok : bool) (ev : wait_status) (js : jobs)
    : Z * option Z * jobs :=
  match i ← find_job arg js; j ← job_list js !! i; Some (i, j) with
  | None => (-1, None, js)
  | Some (i, j) =>
      if bool_decide (state j = STOPPED) && negb cont_ok then (-1, None, js)
      else
        let js := if bool_decide (state j = STOPPED)
                  then set_job i (fun j => {| j with state := RUNNING |}) js else js in
        (0, Some (pgid j),
         match ev with
         | Exited | Signaled => remove_job_by_pgid (pgid j) js
         | Stopped => set_job i (fun j => {| j with state := STOPPED |}) js
         end)
  end.

Definition execute_bg (arg : option cstr) (cont_ok : bool) (js : jobs) : Z * jobs :=
  match i ← find_job arg js; j ← job_list js !! i; Some (i, j) with
  | None => (-1, js)
  | Some (i, j) =>
      if bool_decide (state j = RUNNING) then (-1, js)
      else if negb cont_ok then (-1, js)
      else (0, set_job i (fun j => {| j with state := RUNNING |}) js)
  end.

(** [execute_ping]: the process and the signal sent, if any. *)
Definition execute_ping (args : list cstr) : option (Z * Z) :=
  match args with
  | _ :: a1 :: a2 :: _ =>
      let pid := atoi a1 in
      let signal_number := atoi a2 in
      if (pid <=? 0) || (signal_number <? 0) then None
      else Some (pid, signal_number mod 32)
  | _ => None
  end.

(** The history file is its lines; at most 15 of them are read. *)
Definition MAX_HISTORY_SIZE : nat := 15.

Definition add_to_history (file : option (list cstr)) (command : cstr) : option (list cstr) :=
  let history := take MAX_HISTORY_SIZE (default [] file) in
  if bool_decide (last history = Some command) then file
  else
    let start_index := if bool_decide (length history = MAX_HISTORY_SIZE) then 1%nat else 0%nat in
    Some (drop start_index history ++ [command]).

(** What log does. *)
Inductive log_action :=
| LogPurge
| LogPrint (lines : list cstr)
| LogRun (line : cstr)
| LogError
| LogNothing.

Definition execute_log (args : list cstr) (file : option (list cstr)) : log_action :=
  let arg1 := args !! 1%nat in
  if match arg1 with Some a => is_str a "purge" | None => false end then LogPurge
  else
    match file with
    | None => LogNothing
    | Some lines =>
        let history := take MAX_HISTORY_SIZE lines in
        let count := Z.of_nat (length history) in
        if match arg1 with Some a => is_str a "execute" | None => false end then
          match args !! 2%nat with
          | None => LogError
          | Some a =>
              let index := atoi a in
              if (0 <? index) && (index <=? count)
              then LogRun (default [] (history !! Z.to_nat (count - index))) else LogError
          end
        else LogPrint history
    end.

(** The shell's directories. *)
Record dirs := mk_dirs { cwd : cstr; previous_cwd : option cstr }.

Section dirs.
(** [home]: SHELL_HOME; [chdir cwd path]: the directory chdir leads to. *)
Context (home : cstr) (chdir : cstr -> cstr -> option cstr).

Definition goto (target : cstr) (d : dirs) : Z * dirs :=
  match chdir (cwd d) target with
  | Some c => (0, mk_dirs c (Some (cwd d)))
  | None => (-1, d)
  end.

Definition execute_hop (args : list cstr) (d : dirs) : Z * dirs :=
  match args !! 1%nat with
  | None => goto home d
  | Some a =>
      if is_str a "~" then goto home d
      else if is_str a "." then (0, d)
      else if is_str a ".." then
        match before_sub (str "mini-project-1-aryamirani") (cwd d) with
        | Some p =>
            (* the current directory is cut in place, and then remembered *)
            match chdir (cwd d) p with
            | Some c => (0, mk_dirs c (Some p))
            | None => (-1, d)
            end
        | None => goto (str "..") d
        end
      else if is_str a "-" then
        match previous_cwd d with
        | None => (-1, d)
        | Some p => goto p d
        end
      else goto a d
  end.

(** The flags of reveal and the argument taken as the directory. *)
Definition reveal_arg (acc : bool * bool * option cstr) (a : cstr) : bool * bool * option cstr :=
  let '(all, long, target) := acc in
  if starts_with "-" a then
    if (length a =? 1)%nat then (all, long, match target with None => Some a | _ => target end)
    else (all || existsb (Ascii.eqb "a") (tail a), long || existsb (Ascii.eqb "l") (tail a), target)
  else (all, long, match target with None => Some a | _ => target end).

Definition reveal_args (args : list cstr) : bool * bool * option cstr :=
  fold_left reveal_arg (tail args) (false, false, None).

(** The directory listed. *)
Definition reveal_target (target : option cstr) (d : dirs) : option cstr :=
  match target with
  | None => Some (cwd d)
  | Some t =>
      if is_str t "." then Some (cwd d)
      else if is_str t "~" then Some home
      else if is_str t "-" then previous_cwd d
      else Some t
  end.

(** strcmp(a, b) <= 0 *)
Fixpoint strcmp_le (a b : cstr) : bool :=
  match a, b with
  | [], _ => true
  | _ :: _, [] => false
  | x :: a', y :: b' =>
      if Ascii.eqb x y then strcmp_le a' b' else N.ltb (N_of_ascii x) (N_of_ascii y)
  end.

(** qsort with strcmp, by insertion. *)
Fixpoint insert_name (n : cstr) (l : list cstr) : list cstr :=
  match l with
  | [] => [n]
  | m :: l' => if strcmp_le n m then n :: l else m :: insert_name n l'
  end.

Definition reveal_entries (show_all : bool) (names : list cstr) : list cstr :=
  foldr insert_name [] (List.filter (fun n => show_all || negb (starts_with "." n)) names).

End dirs.
End Jobs.
