(* ===== verification/JobsFacts.v ===== *)
(** * The job table, the history and the directories of the shell *)
From S2P Require Import Prelude Shell Jobs.
From Stdlib Require Import Ascii.
Import Shell Jobs.

#[local] Open Scope Z_scope.

(** ** The job table *)

Inductive job_op :=
| OpAdd (pg : Z) (name : cstr) (st : job_state)
| OpReap (evs : list (Z * wait_status))
| OpFg (arg : option cstr) (cont_ok : bool) (ev : wait_status)
| OpBg (arg : option cstr) (cont_ok : bool).

Definition run_job_op (js : jobs) (o : job_op) : jobs :=
  match o with
  | OpAdd pg name st => snd (add_job pg name st js)
  | OpReap evs => reap_background_jobs evs js
  | OpFg arg ok ev => snd (execute_fg arg ok ev js)
  | OpBg arg ok => snd (execute_bg arg ok js)
  end.

(** Process groups are the results of fork. *)
Definition op_ok (o : job_op) : Prop := match o with OpAdd pg _ _ => 0 < pg | _ => True end.

Definition live (j : job) : bool := negb (is_free j).

Record jobs_ok (js : jobs) : Prop := {
  jo_next : 1 <= next_job_id js;
  jo_length : length (job_list js) = MAX_JOBS;
  jo_id : forall i j, job_list js !! i = Some j -> live j = true -> 1 <= job_id j < next_job_id js;
  jo_unique : forall i k a b, job_list js !! i = Some a -> job_list js !! k = Some b ->
    live a = true -> live b = true -> job_id a = job_id b -> i = k
}.

(** Jobs that only change state or end keep the table in order. *)
Lemma jobs_ok_shrink js js' :
  jobs_ok js -> next_job_id js' = next_job_id js -> length (job_list js') = length (job_list js) ->
  (forall i j', job_list js' !! i = Some j' ->
     exists j, job_list js !! i = Some j /\ job_id j = job_id j' /\ (live j' = true -> live j = true)) ->
  jobs_ok js'.
Proof.
  intros [Hn Hl Hid Hu] Hnext Hlen Hsub. split; [by rewrite Hnext|by rewrite Hlen| |].
  - intros i j' Hj' Hlive. destruct (Hsub i j' Hj') as (j & Hj & <- & Hlv). rewrite Hnext. by eapply Hid; auto.
  - intros i k a b Ha Hb Hla Hlb Heq. destruct (Hsub i a Ha) as (a0 & Ha0 & Hia & Hlva).
    destruct (Hsub k b Hb) as (b0 & Hb0 & Hib & Hlvb). eapply Hu; eauto. congruence.
Qed.

Lemma jobs_ok_set i f js : jobs_ok js ->
  (forall j, job_id (f j) = job_id j /\ (live (f j) = true -> live j = true)) -> jobs_ok (set_job i f js).
Proof.
  intros Hok Hf. eapply jobs_ok_shrink; [exact Hok|done|simpl; apply length_alter|].
  intros k j' Hj'. simpl in Hj'. destruct (Nat.eq_dec i k) as [->|Hne].
  - rewrite list_lookup_alter_eq in Hj'. destruct (job_list js !! k) as [j|]; [|done].
    simplify_eq/=. exists j. destruct (Hf j) as [-> ?]. done.
  - rewrite list_lookup_alter_ne in Hj' by done. by exists j'.
Qed.

(** A change of the state or the end of a job. *)
Ltac set_jobs := apply jobs_ok_set; [assumption|intros ?; unfold live, is_free; simpl; by split].

Lemma jobs_ok_remove pg js : jobs_ok js -> jobs_ok (remove_job_by_pgid pg js).
Proof.
  intros Hok. unfold remove_job_by_pgid. destruct (find_idx _ _); [|done]. set_jobs.
Qed.

Lemma jobs_ok_reap evs : forall js, jobs_ok js -> jobs_ok (reap_background_jobs evs js).
Proof.
  induction evs as [|[pg st] evs IH]; intros js Hok; [done|]. apply IH. simpl.
  destruct st; [by apply jobs_ok_remove..|]. destruct (find_idx _ _); [|done]. set_jobs.
Qed.

Lemma jobs_ok_add pg name st js : 0 < pg -> jobs_ok js -> jobs_ok (snd (add_job pg name st js)).
Proof.
  intros Hpg Hok. destruct Hok as [Hn Hl Hid Hu]. unfold add_job.
  destruct (find_idx is_free (job_list js)) as [i|] eqn:Hf; [|done].
  apply find_idx_hit in Hf as (x & Hx & Hfree). pose proof (lookup_lt_Some _ _ _ Hx) as Hi.
  set (j := mk_job _ _ _ _). split; cbn [snd next_job_id job_list].
  - lia.
  - by rewrite length_insert.
  - intros k a Ha Hla. destruct (Nat.eq_dec i k) as [<-|Hne].
    + rewrite list_lookup_insert_eq in Ha by done. injection Ha as <-. simpl. lia.
    + rewrite list_lookup_insert_ne in Ha by done. specialize (Hid k a Ha Hla). lia.
  - intros k m a b Ha Hb Hla Hlb Heq.
    assert (forall k a, <[i:=j]> (job_list js) !! k = Some a -> live a = true ->
      k = i /\ job_id a = next_job_id js \/ k <> i /\ job_list js !! k = Some a /\ job_id a < next_job_id js) as Hc.
    { intros k' a' Ha' Hl'. destruct (Nat.eq_dec i k') as [<-|Hne].
      - rewrite list_lookup_insert_eq in Ha' by done. injection Ha' as <-. by left.
      - rewrite list_lookup_insert_ne in Ha' by done. right. split_and!; [done|done|by eapply Hid]. }
    destruct (Hc k a Ha Hla) as [[-> H1]|(? & H1 & H1')], (Hc m b Hb Hlb) as [[-> H2]|(? & H2 & H2')];
      try done; try lia. by eapply Hu.
Qed.

Lemma jobs_ok_op js o : jobs_ok js -> op_ok o -> jobs_ok (run_job_op js o).
Proof.
  intros Hok Ho. destruct o as [pg name st|evs|arg ok ev|arg ok]; simpl in *.
  - by apply jobs_ok_add.
  - by apply jobs_ok_reap.
  - unfold execute_fg. destruct (i ← find_job arg js; _) as [[i j]|]; [|done].
    destruct (bool_decide _ && negb ok); [done|]. cbn [snd].
    assert (jobs_ok (if bool_decide (state j = STOPPED)
                     then set_job i (fun j => {| j with state := RUNNING |}) js else js)) as Hok1.
    { destruct (bool_decide _); [set_jobs|done]. }
    destruct ev; [by apply jobs_ok_remove..|set_jobs].
  - unfold execute_bg. destruct (i ← find_job arg js; _) as [[i j]|]; [|done].
    destruct (bool_decide _); [done|]. destruct (negb ok); [done|]. set_jobs.
Qed.

Lemma jobs_ok_init l : length l = MAX_JOBS -> jobs_ok (initialize_jobs l).
Proof.
  intros Hl. assert (forall i j, job_list (initialize_jobs l) !! i = Some j -> live j = false) as Hfree.
  { intros i j Hj. simpl in Hj. rewrite list_lookup_fmap in Hj. destruct (l !! i); simplify_eq/=. done. }
  split; simpl; [done|by rewrite length_fmap| |].
  - intros i j Hj Hlive. rewrite (Hfree i j Hj) in Hlive. done.
  - intros i k a b Ha _ Hla _ _. rewrite (Hfree i a Ha) in Hla. done.
Qed.

Lemma jobs_ok_run ops : forall js, jobs_ok js -> Forall op_ok ops -> jobs_ok (fold_left run_job_op ops js).
Proof.
  induction ops as [|o ops IH]; intros js Hok Hops; [done|]. apply Forall_cons in Hops as [Ho Hops].
  apply IH; [|done]. by apply jobs_ok_op.
Qed.

(** The job table after any sequence of new jobs, reaped children, fg and
    bg: looking a job up by its number finds it whenever it is in the table and
    finds nothing else, so job numbers are unique; the most recent job is the
    one of greatest number, and there is none only if the table is empty; and a
    new job is refused only when all 64 entries are taken, otherwise it gets
    the next number and becomes the most recent job. *)
Theorem jobs_table_sound l ops :
  length l = MAX_JOBS -> Forall op_ok ops ->
  let js := fold_left run_job_op ops (initialize_jobs l) in
  (forall i j, job_list js !! i = Some j -> live j = true -> get_job_by_jid (job_id j) js = Some i) /\
  (forall jid i, get_job_by_jid jid js = Some i ->
     exists j, job_list js !! i = Some j /\ live j = true /\ job_id j = jid) /\
  (match get_most_recent_job js with
   | Some i => exists j, job_list js !! i = Some j /\ live j = true /\
       forall k b, job_list js !! k = Some b -> live b = true -> job_id b <= job_id j
   | None => forall k b, job_list js !! k = Some b -> live b = false
   end) /\
  (forall pg name st, 0 < pg ->
     match add_job pg name st js with
     | (None, js') => js' = js /\ forall k b, job_list js !! k = Some b -> live b = true
     | (Some i, js') => get_most_recent_job js' = Some i /\ get_job_by_jid (next_job_id js) js' = Some i
     end).
Proof.
  intros Hl Hops js. pose proof (jobs_ok_run ops _ (jobs_ok_init l Hl) Hops) as Hok. fold js in Hok. clearbody js.
  assert (forall js i j, jobs_ok js -> job_list js !! i = Some j -> live j = true ->
            get_job_by_jid (job_id j) js = Some i) as Hget.
  { clear. intros js i j [_ _ Hid Hu] Hj Hlive. apply find_idx_Some. split.
    - exists j. split; [done|]. unfold live in Hlive. rewrite Hlive. by rewrite Z.eqb_refl.
    - intros k b Hk Hb. apply andb_false_iff. destruct (negb (is_free b)) eqn:Hlb; [right|by left].
      apply Z.eqb_neq. intros Heq. pose proof (Hu k i b j Hb Hj Hlb Hlive Heq). lia. }
  assert (forall js, jobs_ok js -> match get_most_recent_job js with
   | Some i => exists j, job_list js !! i = Some j /\ live j = true /\
       forall k b, job_list js !! k = Some b -> live b = true -> job_id b <= job_id j
   | None => forall k b, job_list js !! k = Some b -> live b = false
   end) as Hrecent.
  { clear. intros js [_ _ Hid _]. unfold get_most_recent_job.
    destruct (scan_min _ _ _ _ _) as [[i j]|] eqn:Hs; simpl.
    - apply scan_min_Some in Hs as (Hi & He & Hmax & _). exists j. apply andb_prop in He as [He _].
      split_and!; [done|done|]. intros k b Hb Hlive. specialize (Hmax k b Hb). cbv beta in Hmax.
      specialize (Hid k b Hb Hlive). unfold live in Hlive. rewrite Hlive in Hmax.
      rewrite (proj2 (Z.ltb_lt (-1) (job_id b))) in Hmax by lia. specialize (Hmax eq_refl). lia.
    - intros k b Hb. pose proof (proj1 (scan_min_None _ _ _) Hs k b Hb) as He. simpl in He.
      destruct (live b) eqn:Hlive; [|done]. specialize (Hid k b Hb Hlive). unfold live in Hlive.
      rewrite Hlive in He. simpl in He. apply Z.ltb_ge in He. lia. }
  split_and!.
  - intros i j. by apply Hget.
  - intros jid i Hg. apply find_idx_hit in Hg as (j & Hj & [H1 H2%Z.eqb_eq]%andb_prop). by exists j.
  - by apply Hrecent.
  - intros pg name st Hpg. pose proof (jobs_ok_add pg name st js Hpg Hok) as Hok'. pose proof (jo_id js Hok) as Hid.
    unfold add_job in *.
    destruct (find_idx is_free (job_list js)) as [i|] eqn:Hf.
    2:{ split; [done|]. intros k b Hb. unfold live. by rewrite (proj1 (find_idx_None _ _) Hf k b Hb). }
    apply find_idx_lt in Hf. cbn [snd] in Hok'. set (j := mk_job _ _ _ _) in *. set (js' := mk_jobs _ _) in *.
    assert (job_list js' !! i = Some j) as Hj by (simpl; by apply list_lookup_insert_eq).
    assert (live j = true) as Hlive.
    { unfold live, is_free. simpl. apply negb_true_iff, Z.eqb_neq. lia. }
    pose proof (Hget js' i j Hok' Hj Hlive) as Hg. split; [|exact Hg].
    specialize (Hrecent js' Hok'). destruct (get_most_recent_job js') as [k|].
    + destruct Hrecent as (b & Hb & Hlb & Hmax). specialize (Hmax i j Hj Hlive). f_equal.
      destruct (Nat.eq_dec i k) as [->|Hne]; [done|]. exfalso.
      simpl in Hb. rewrite list_lookup_insert_ne in Hb by done. specialize (Hid k b Hb Hlb). simpl in Hmax. lia.
    + rewrite (Hrecent i j Hj) in Hlive. done.
Qed.

Lemma jobs_table_sound_witness :
  let l := replicate 64 (mk_job 7 [] RUNNING 0) in
  let ops := [OpAdd 100 (str "a") RUNNING; OpAdd 101 (str "b") STOPPED; OpReap [(100, Exited)];
              OpAdd 102 (str "c") RUNNING; OpBg (Some (str "2")) true] in
  let js := fold_left run_job_op ops (initialize_jobs l) in
  map job_id (live_jobs js) = [3; 2] /\
  forall i j, job_list js !! i = Some j -> live j = true -> get_job_by_jid (job_id j) js = Some i.
Proof.
  intros l ops js. split; [vm_compute; reflexivity|].
  assert (Forall op_ok ops) as Hops by (repeat constructor).
  exact (proj1 (jobs_table_sound l ops eq_refl Hops)).
Defined.

(** ** The history *)

(** The history without a limit: every command but the repetition of the last. *)
Definition record_command (h : list cstr) (c : cstr) : list cstr :=
  if bool_decide (last h = Some c) then h else h ++ [c].

Definition last_n {A} (n : nat) (l : list A) : list A := drop (length l - n) l.

Lemma last_n_length {A} n (l : list A) : length (last_n n l) = Nat.min n (length l).
Proof. unfold last_n. rewrite length_drop. lia. Qed.

Lemma last_drop {A} n (l : list A) : (n < length l)%nat -> last (drop n l) = last l.
Proof.
  intros Hn. rewrite <- (take_drop n l) at 2. rewrite last_app.
  destruct (last (drop n l)) eqn:Hl; [done|]. apply last_None in Hl.
  apply (f_equal length) in Hl. rewrite length_drop in Hl. simpl in Hl. lia.
Qed.

Lemma last_last_n {A} n (l : list A) : (0 < n)%nat -> last (last_n n l) = last l.
Proof.
  intros Hn. destruct l as [|x l]; [done|]. apply last_drop. simpl. lia.
Qed.

Lemma add_to_history_spec file h c : default [] file = last_n MAX_HISTORY_SIZE h ->
  default [] (add_to_history file c) = last_n MAX_HISTORY_SIZE (record_command h c).
Proof.
  intros Hf. unfold add_to_history, record_command. rewrite Hf.
  pose proof (last_n_length MAX_HISTORY_SIZE h) as Hlen.
  rewrite take_ge by (rewrite Hlen; lia). rewrite last_last_n by (unfold MAX_HISTORY_SIZE; lia).
  destruct (bool_decide (last h = Some c)); [done|]. cbn [default]. unfold id.
  rewrite Hlen. unfold last_n. rewrite length_app. simpl length.
  case_bool_decide as Hmin.
  - rewrite drop_drop.
    replace (length h + 1 - MAX_HISTORY_SIZE)%nat with (length h - MAX_HISTORY_SIZE + 1)%nat by lia.
    rewrite drop_app_le by (unfold MAX_HISTORY_SIZE in *; lia). done.
  - replace (length h - MAX_HISTORY_SIZE)%nat with 0%nat by lia.
    by replace (length h + 1 - MAX_HISTORY_SIZE)%nat with 0%nat by lia.
Qed.

(** The history file always holds the last 15 entries of the unlimited
    history, the list of the recorded commands in which a command is not
    entered again directly after itself; and [log execute i] runs the i-th
    newest of them, for every i from 1 to their number, and nothing for any
    other index. *)
Theorem history_is_last_15 cmds :
  let h := last_n MAX_HISTORY_SIZE (fold_left record_command cmds []) in
  let file := fold_left add_to_history cmds None in
  default [] file = h /\
  forall w a, is_str a "execute" = true ->
    execute_log [str "log"; a; w] (Some h) =
      match (if 0 <? atoi w then reverse h !! Z.to_nat (atoi w - 1) else None) with
      | Some c => LogRun c
      | None => LogError
      end.
Proof.
  intros h file. split.
  - unfold h, file.
    assert (forall f0 h0, default [] f0 = last_n MAX_HISTORY_SIZE h0 ->
      default [] (fold_left add_to_history cmds f0) = last_n MAX_HISTORY_SIZE (fold_left record_command cmds h0)) as Hgen.
    { clear. induction cmds as [|c cmds IH]; intros f0 h0 Hf; [done|]. simpl. apply IH. by apply add_to_history_spec. }
    by apply Hgen.
  - intros w a Ha. apply bool_decide_eq_true in Ha as ->.
    assert (length h <= MAX_HISTORY_SIZE)%nat as Hl by (unfold h; rewrite last_n_length; lia).
    unfold execute_log. change ([str "log"; str "execute"; w] !! 1%nat) with (Some (str "execute")).
    change ([str "log"; str "execute"; w] !! 2%nat) with (Some w).
    change (is_str (str "execute") "purge") with false. change (is_str (str "execute") "execute") with true.
    cbv iota. rewrite take_ge by lia.
    destruct (Z.ltb_spec 0 (atoi w)) as [Hpos|]; [|done]. simpl.
    destruct (Z.leb_spec (atoi w) (Z.of_nat (length h))) as [Hle|Hgt].
    + rewrite reverse_lookup by lia.
      replace (length h - S (Z.to_nat (atoi w - 1)))%nat with (Z.to_nat (Z.of_nat (length h) - atoi w)) by lia.
      pose proof (lookup_lt_is_Some_2 h (Z.to_nat (Z.of_nat (length h) - atoi w)) ltac:(lia)) as [c Hc].
      rewrite Hc. f_equal. exact (f_equal (default []) Hc).
    + rewrite (lookup_ge_None_2 (reverse h)) by (rewrite length_reverse; lia). done.
Qed.
