(* ===== verification/Pipe.v ===== *)
(** * Pipes (xv6-memory-management/kernel/pipe.c)

    [pipe] is the shared ring buffer.  A call holds the pipe's lock from its
    start, or from its return from [sleep], to its next [sleep] or its return;
    one such run is one function here.  The bytes a call fetches from or
    stores to user memory, and what [killed] answers at each test, are
    arguments. *)
From S2P Require Import Prelude.

#[local] Open Scope Z_scope.

Module Pipe.

Definition PIPESIZE : Z := 512.

Record pipe := mk_pipe {
  data : list Z;        (* char data[PIPESIZE] *)
  nread : Z;            (* uint *)
  nwrite : Z;           (* uint *)
  readopen : bool;
  writeopen : bool
}.

(** What [pipealloc] stores in the new page, whose bytes are [junk]. *)
Definition pipe_init (junk : list Z) : pipe :=
  {| data := junk; nread := 0; nwrite := 0; readopen := true; writeopen := true |}.

(** The channels of [sleep] and [wakeup]: the addresses of the counters. *)
Inductive pchan := NREAD | NWRITE.

#[export] Instance pchan_eq_dec : EqDecision pchan.
Proof. solve_decision. Defined.

(** [pipeclose]: the pipe, the channel woken, and whether the page is freed. *)
Definition pipeclose (writable : bool) (pi : pipe) : pipe * pchan * bool :=
  let '(pi, woken) :=
    if writable then ({| pi with writeopen := false |}, NREAD)
    else ({| pi with readopen := false |}, NWRITE) in
  (pi, woken, negb (readopen pi) && negb (writeopen pi)).

Definition full (pi : pipe) : bool := nwrite pi =? u32 (nread pi + PIPESIZE).
Definition empty (pi : pipe) : bool := nread pi =? nwrite pi.

Definition put (ch : Z) (pi : pipe) : pipe :=
  {| pi with data := <[Z.to_nat (nwrite pi mod PIPESIZE) := ch]> (data pi);
             nwrite := u32 (nwrite pi + 1) |}.

Definition get (pi : pipe) : Z * pipe :=
  (default 0 (data pi !! Z.to_nat (nread pi mod PIPESIZE)),
   {| pi with nread := u32 (nread pi + 1) |}).

(** How a run of [pipewrite] ends, with the loop variable [i]. *)
Inductive write_end :=
| WBroken (i : Z)      (* return -1: no reader, or killed *)
| WSleep (i : Z)       (* wakeup(&nread); sleep(&nwrite) *)
| WDone (i : Z).       (* wakeup(&nread); return i *)

(** The loop of [pipewrite] from [i]: [src i] is the byte at [addr + i] or
    [None] when [copyin] fails; [killed i] the answer at iteration [i]. *)
Fixpoint write_loop (fuel : nat) (killed : Z -> bool) (src : Z -> option Z) (n i : Z)
    (pi : pipe) : write_end * pipe :=
  if i <? n then
    if negb (readopen pi) || killed i then (WBroken i, pi)
    else if full pi then (WSleep i, pi)
    else
      match fuel, src i with
      | S fuel', Some ch => write_loop fuel' killed src n (i + 1) (put ch pi)
      | _, _ => (WDone i, pi)
      end
  else (WDone i, pi).

Definition pipewrite_run (killed : Z -> bool) (src : Z -> option Z) (n i : Z) (pi : pipe)
    : write_end * pipe :=
  write_loop (Z.to_nat (n - i)) killed src n i pi.

(** The channels a run of [pipewrite] wakes. *)
Definition write_wakes (e : write_end) : list pchan :=
  match e with WBroken _ => [] | WSleep _ | WDone _ => [NREAD] end.

(** How a run of [piperead] ends. *)
Inductive read_end :=
| RKilled              (* return -1 *)
| RSleep               (* sleep(&nread) *)
| RDone (i : Z).       (* wakeup(&nwrite); return i *)

(** The copy loop: [dst i ch] tells whether [copyout] of [ch] to [addr + i]
    succeeds.  The list is what left the pipe, in order. *)
Fixpoint read_loop (fuel : nat) (dst : Z -> Z -> bool) (n i : Z) (pi : pipe)
    : Z * list Z * pipe :=
  if i <? n then
    if empty pi then (i, [], pi)
    else
      match fuel with
      | O => (i, [], pi)
      | S fuel' =>
          let '(ch, pi) := get pi in
          if dst i ch then
            let '(r, out, pi) := read_loop fuel' dst n (i + 1) pi in (r, ch :: out, pi)
          else (i, [ch], pi)
      end
  else (i, [], pi).

Definition piperead_run (killed : bool) (dst : Z -> Z -> bool) (n : Z) (pi : pipe)
    : read_end * list Z * pipe :=
  if empty pi && writeopen pi then (if killed then RKilled else RSleep, [], pi)
  else
    let '(r, out, pi) := read_loop (Z.to_nat n) dst n 0 pi in (RDone r, out, pi).

Definition read_wakes (e : read_end) : list pchan :=
  match e with RDone _ => [NWRITE] | _ => [] end.

(** ** Processes on a pipe

    A thread inside [pipewrite] or [piperead], awake or asleep on its channel. *)
Inductive thread :=
| Out                                              (* not in a pipe call *)
| Writing (src : Z -> option Z) (n i : Z) (asleep : bool)
| Reading (dst : Z -> Z -> bool) (n : Z) (asleep : bool).

Record psys := mk_psys {
  the_pipe : pipe;
  threads : list thread;
  written : list Z;      (* every byte put so far, in order *)
  taken : list Z         (* every byte got so far, in order *)
}.

Definition wake_thread (cs : list pchan) (t : thread) : thread :=
  match t with
  | Writing src n i true => Writing src n i (negb (bool_decide (NWRITE ∈ cs)))
  | Reading dst n true => Reading dst n (negb (bool_decide (NREAD ∈ cs)))
  | _ => t
  end.

(** The bytes a run of the write loop from [i] to [j] has fetched. *)
Definition fetched (src : Z -> option Z) (i j : Z) : list Z :=
  (fun k => default 0 (src (i + Z.of_nat k))) <$> seq 0 (Z.to_nat (j - i)).

Definition end_index (e : write_end) : Z :=
  match e with WBroken i | WSleep i | WDone i => i end.

Definition is_writing (t : thread) : bool := match t with Writing _ _ _ _ => true | _ => false end.
Definition is_reading (t : thread) : bool := match t with Reading _ _ _ => true | _ => false end.

(** One run of one thread, a call's start, a close of the last descriptor of
    an end (no thread is then in a call on it), or a wakeup from elsewhere.
    [calm]: no writer is killed after it has put bytes in that run. *)
Inductive pstep (calm : bool) : relation psys :=
| p_start_write s t src n :
    threads s !! t = Some Out -> writeopen (the_pipe s) = true ->
    pstep calm s {| s with threads := <[t := Writing src n 0 false]> (threads s) |}
| p_start_read s t dst n :
    threads s !! t = Some Out -> readopen (the_pipe s) = true ->
    pstep calm s {| s with threads := <[t := Reading dst n false]> (threads s) |}
| p_write s t src n i killed e pi :
    threads s !! t = Some (Writing src n i false) ->
    pipewrite_run killed src n i (the_pipe s) = (e, pi) ->
    (calm = true -> forall k, i < k -> killed k = false) ->
    let t' := match e with WSleep j => Writing src n j true | _ => Out end in
    pstep calm s {| the_pipe := pi;
                    threads := <[t := t']> (wake_thread (write_wakes e) <$> threads s);
                    written := written s ++ fetched src i (end_index e);
                    taken := taken s |}
| p_read s t dst n killed e out pi :
    threads s !! t = Some (Reading dst n false) ->
    piperead_run killed dst n (the_pipe s) = (e, out, pi) ->
    let t' := match e with RSleep => Reading dst n true | _ => Out end in
    pstep calm s {| the_pipe := pi;
                    threads := <[t := t']> (wake_thread (read_wakes e) <$> threads s);
                    written := written s; taken := taken s ++ out |}
| p_close_write s pi c freed :
    existsb is_writing (threads s) = false -> writeopen (the_pipe s) = true ->
    pipeclose true (the_pipe s) = (pi, c, freed) ->
    pstep calm s {| s with the_pipe := pi; threads := wake_thread [c] <$> threads s |}
| p_close_read s pi c freed :
    existsb is_reading (threads s) = false -> readopen (the_pipe s) = true ->
    pipeclose false (the_pipe s) = (pi, c, freed) ->
    pstep calm s {| s with the_pipe := pi; threads := wake_thread [c] <$> threads s |}
| p_wake s t c :
    pstep calm s {| s with threads := alter (wake_thread [c]) t (threads s) |}.

Definition psys_init (junk : list Z) (nthreads : nat) : psys :=
  {| the_pipe := pipe_init junk; threads := replicate nthreads Out; written := []; taken := [] |}.

End Pipe.
