(* ===== verification/PipeFacts.v ===== *)
(** * Pipes: the ring refines a bounded queue, and no wakeup is lost. *)
From S2P Require Import Prelude Pipe.

#[local] Open Scope Z_scope.

Module PipeFacts.
Import Pipe.

(** ** The ring and the queue it stands for *)

(** [pi] holds the bytes [q], oldest first. *)
Record ring (pi : pipe) (q : list Z) : Prop := mk_ring {
  ring_data : length (data pi) = 512%nat;
  ring_nread : 0 <= nread pi < 2 ^ 32;
  ring_nwrite : nwrite pi = u32 (nread pi + Z.of_nat (length q));
  ring_bound : (length q <= 512)%nat;
  ring_at : forall k ch, q !! k = Some ch ->
    data pi !! Z.to_nat ((nread pi + Z.of_nat k) mod PIPESIZE) = Some ch
}.

Lemma ring_init junk : length junk = 512%nat -> ring (pipe_init junk) [].
Proof. intros Hj. constructor; simpl; try done; lia. Qed.

Lemma u32_mod_pipesize a : u32 a mod PIPESIZE = a mod PIPESIZE.
Proof.
  unfold wrapu, PIPESIZE. symmetry. apply Znumtheory.Zmod_div_mod; [lia|lia|].
  exists (2 ^ 23). lia.
Qed.

Lemma u32_add_inj a j k :
  0 <= j < 2 ^ 32 -> 0 <= k < 2 ^ 32 -> u32 (a + j) = u32 (a + k) -> j = k.
Proof.
  unfold wrapu. intros Hj Hk E.
  pose proof (Z.div_mod (a + j) (2 ^ 32)). pose proof (Z.div_mod (a + k) (2 ^ 32)). lia.
Qed.

Lemma ring_full pi q : ring pi q -> full pi = bool_decide (length q = 512%nat).
Proof.
  intros R. unfold full. rewrite (ring_nwrite _ _ R). destruct (Z.eqb_spec (u32 (nread pi + Z.of_nat (length q))) (u32 (nread pi + PIPESIZE))) as [E|E].
  - apply u32_add_inj in E; [|pose proof (ring_bound _ _ R); lia|unfold PIPESIZE; lia].
    symmetry. apply bool_decide_eq_true. unfold PIPESIZE in E. lia.
  - symmetry. apply bool_decide_eq_false. intros El. apply E. by rewrite El.
Qed.

Lemma ring_empty pi q : ring pi q -> empty pi = bool_decide (q = []).
Proof.
  intros R. unfold empty. rewrite (ring_nwrite _ _ R).
  pose proof (ring_nread _ _ R). pose proof (ring_bound _ _ R).
  rewrite <- (wrapu_small 32 (nread pi)) at 1 by lia.
  destruct q as [|x q].
  - rewrite Z.add_0_r. by rewrite Z.eqb_refl.
  - rewrite bool_decide_eq_false_2 by done. apply Z.eqb_neq. intros E.
    rewrite <- (Z.add_0_r (nread pi)) in E at 1. apply u32_add_inj in E; simpl in *; lia.
Qed.

(** Cells of different queue positions differ. *)
Lemma slot_inj a j k :
  0 <= a + j -> 0 <= a + k -> 0 <= j - k < 512 ->
  Z.to_nat ((a + j) mod PIPESIZE) = Z.to_nat ((a + k) mod PIPESIZE) -> j = k.
Proof.
  unfold PIPESIZE. intros Hj Hk Hd E.
  pose proof (Z.mod_pos_bound (a + j) 512). pose proof (Z.mod_pos_bound (a + k) 512).
  pose proof (Z.div_mod (a + j) 512). pose proof (Z.div_mod (a + k) 512). lia.
Qed.

Lemma ring_put pi q ch : ring pi q -> full pi = false -> ring (put ch pi) (q ++ [ch]).
Proof.
  intros R F. rewrite (ring_full _ _ R) in F. to_prop.
  destruct R as [Rd Rn Rw Rb Ra]. constructor; simpl; [by rewrite length_insert|done| | |].
  - rewrite Rw, length_app. simpl. unfold wrapu. rewrite Zplus_mod_idemp_l. f_equal. lia.
  - rewrite length_app. simpl. lia.
  - intros k c Hk. rewrite Rw, u32_mod_pipesize.
    apply lookup_app_Some in Hk as [Hk | [Hk Hc]].
    + rewrite list_lookup_insert_ne; [by apply Ra|]. apply lookup_lt_Some in Hk.
      intros E. apply slot_inj in E; lia.
    + apply list_lookup_singleton_Some in Hc as [Hc ->].
      replace k with (length q) by lia. apply list_lookup_insert_eq. rewrite Rd.
      pose proof (Z.mod_pos_bound (nread pi + Z.of_nat (length q)) PIPESIZE). unfold PIPESIZE in *. lia.
Qed.

Lemma ring_get pi ch q : ring pi (ch :: q) -> exists pi', get pi = (ch, pi') /\ ring pi' q /\
  readopen pi' = readopen pi /\ writeopen pi' = writeopen pi.
Proof.
  intros [Rd Rn Rw Rb Ra]. exists {| pi with nread := u32 (nread pi + 1) |}.
  split; [|split; [constructor; simpl; [done| | | |]|done]].
  - unfold get. pose proof (Ra 0%nat ch eq_refl) as Hc. change (Z.of_nat 0) with 0 in Hc.
    rewrite Z.add_0_r in Hc. by rewrite Hc.
  - apply wrapu_range. lia.
  - rewrite Rw. simpl. unfold wrapu. rewrite Zplus_mod_idemp_l. f_equal. lia.
  - simpl in Rb. lia.
  - intros k c Hk. rewrite <- (Ra (S k) c Hk). do 2 f_equal.
    rewrite Z.add_mod by (unfold PIPESIZE; lia). rewrite u32_mod_pipesize.
    rewrite <- Z.add_mod by (unfold PIPESIZE; lia). f_equal. lia.
Qed.

(** ** One run of each call *)

#[local] Opaque get.

Lemma fetched_nil src i j : j <= i -> fetched src i j = [].
Proof. intros H. unfold fetched. by replace (Z.to_nat (j - i)) with 0%nat by lia. Qed.

Lemma fetched_cons src i j ch :
  i < j -> src i = Some ch -> fetched src i j = ch :: fetched src (i + 1) j.
Proof.
  intros H Hs. unfold fetched. replace (Z.to_nat (j - i)) with (S (Z.to_nat (j - (i + 1)))) by lia.
  simpl. rewrite Z.add_0_r, Hs. simpl. f_equal. rewrite <- seq_shift, <- list_fmap_compose.
  apply list_fmap_ext. intros k x _. simpl. do 2 f_equal. lia.
Qed.

(** Why a run of [pipewrite] ended at [j], with [q'] in the pipe. *)
Definition write_ends (pi : pipe) (killed : Z -> bool) (src : Z -> option Z) (n : Z)
    (q' : list Z) (e : write_end) : Prop :=
  match e with
  | WBroken j => j < n /\ (readopen pi = false \/ killed j = true)
  | WSleep j => j < n /\ length q' = 512%nat /\ readopen pi = true
  | WDone j => n <= j \/ (src j = None /\ length q' <> 512%nat)
  end.

Lemma write_loop_spec fuel killed src n i pi q e pi' :
  ring pi q -> (Z.to_nat (n - i) <= fuel)%nat -> write_loop fuel killed src n i pi = (e, pi') ->
  let q' := q ++ fetched src i (end_index e) in
  i <= end_index e /\ (i <= n -> end_index e <= n) /\ ring pi' q' /\
  (end_index e = i -> pi' = pi) /\
  readopen pi' = readopen pi /\ writeopen pi' = writeopen pi /\
  write_ends pi killed src n q' e.
Proof.
  revert i pi q. induction fuel as [|fuel IH]; intros i pi q R Hf; simpl;
    destruct (Z.ltb_spec i n) as [Hi|Hi];
    try (intros [= <- <-]; simpl; rewrite fetched_nil, app_nil_r by lia;
         split_and!; auto; lia); try lia.
  destruct (readopen pi) eqn:Ro; simpl.
  2:{ intros [= <- <-]. simpl. rewrite fetched_nil, app_nil_r by lia. naive_solver lia. }
  destruct (killed i) eqn:Ki.
  { intros [= <- <-]. simpl. rewrite fetched_nil, app_nil_r by lia. naive_solver lia. }
  pose proof (ring_full _ _ R) as F. destruct (full pi) eqn:Fu.
  { intros [= <- <-]. simpl. rewrite fetched_nil, app_nil_r by lia.
    symmetry in F. apply bool_decide_eq_true in F. naive_solver lia. }
  symmetry in F. apply bool_decide_eq_false in F.
  destruct (src i) as [ch|] eqn:Hs.
  2:{ intros [= <- <-]. simpl. rewrite fetched_nil, app_nil_r by lia. naive_solver lia. }
  intros Hrun.
  apply (IH _ _ _ (ring_put _ _ ch R Fu)) in Hrun; [|lia].
  destruct Hrun as (Hle & Hn & R' & _ & Hr & Hw & He). simpl in *.
  rewrite (fetched_cons _ _ _ ch) by (done || lia). rewrite <- app_assoc in R', He. simpl in R', He.
  split_and!; auto; try lia; congruence.
Qed.

(** Why a run of the copy loop stopped. *)
Lemma read_loop_spec fuel dst n i pi q r out pi' :
  ring pi q -> (Z.to_nat (n - i) <= fuel)%nat -> read_loop fuel dst n i pi = (r, out, pi') ->
  exists q', q = out ++ q' /\ ring pi' q' /\
    readopen pi' = readopen pi /\ writeopen pi' = writeopen pi /\
    ((Z.of_nat (length out) = r - i /\ (n <= r \/ q' = [])) \/
     (Z.of_nat (length out) = r - i + 1 /\ exists ch, last out = Some ch /\ dst r ch = false)).
Proof.
  revert i pi q r out. induction fuel as [|fuel IH]; intros i pi q r out R Hf; simpl;
    destruct (Z.ltb_spec i n) as [Hi|Hi];
    try (intros [= <- <- <-]; exists q; simpl; split_and!; auto; left; split; [lia|auto]); try lia.
  rewrite (ring_empty _ _ R). destruct q as [|ch q]; simpl.
  { intros [= <- <- <-]. exists []. simpl. split_and!; auto. left. split; [lia|auto]. }
  destruct (ring_get _ _ _ R) as (pi1 & -> & R1 & Hr1 & Hw1).
  destruct (dst i ch) eqn:Hd.
  2:{ intros [= <- <- <-]. exists q. simpl. split_and!; auto. right. split; [lia|]. by exists ch. }
  destruct (read_loop fuel dst n (i + 1) pi1) as [[r1 out1] pi2] eqn:Hrun.
  intros [= <- <- <-]. apply (IH _ _ _ _ _ R1) in Hrun as (q' & -> & R' & Hr & Hw & He); [|lia].
  exists q'. split_and!; [done|done|congruence|congruence|].
  destruct He as [[He1 He2] | (He1 & c & Hc & Hd')]; [left|right]; simpl length.
  - split; [lia|done].
  - split; [lia|]. exists c. split; [|done]. destruct out1; simpl in *; done.
Qed.

(** Why a run of [piperead] ended, having taken [out] and left [q']. *)
Definition read_ends (pi : pipe) (killed : bool) (dst : Z -> Z -> bool) (n : Z)
    (out q' : list Z) (e : read_end) : Prop :=
  match e with
  | RKilled => out = [] /\ q' = [] /\ writeopen pi = true /\ killed = true
  | RSleep => out = [] /\ q' = [] /\ writeopen pi = true /\ killed = false
  | RDone r =>
      (out ++ q' = [] -> writeopen pi = false) /\
      ((Z.of_nat (length out) = r /\ (n <= r \/ q' = [])) \/
       (Z.of_nat (length out) = r + 1 /\ exists ch, last out = Some ch /\ dst r ch = false))
  end.

Lemma piperead_run_spec killed dst n pi q e out pi' :
  ring pi q -> piperead_run killed dst n pi = (e, out, pi') ->
  exists q', q = out ++ q' /\ ring pi' q' /\
    readopen pi' = readopen pi /\ writeopen pi' = writeopen pi /\
    (match e with RDone _ => True | _ => pi' = pi end) /\
    read_ends pi killed dst n out q' e.
Proof.
  intros R. unfold piperead_run. rewrite (ring_empty _ _ R).
  destruct (bool_decide (q = []) && writeopen pi) eqn:Hsl.
  - to_prop. subst q. destruct killed; intros [= <- <- <-]; exists []; by split_and!.
  - destruct (read_loop (Z.to_nat n) dst n 0 pi) as [[r out0] pi0] eqn:Hrun.
    intros [= <- <- <-]. apply (read_loop_spec _ _ _ _ _ _ _ _ _ R) in Hrun; [|lia].
    destruct Hrun as (q' & -> & R' & Hr & Hw & He). exists q'. split_and!; auto.
    split.
    + intros E. rewrite E in Hsl. by rewrite andb_true_l in Hsl.
    + destruct He as [[He1 He2] | [He1 He2]]; [left|right]; (split; [lia|done]).
Qed.

(** (C34) A pipe is a bounded queue of at most 512 bytes, with its counters
    wrapping around at 2^32: a run of pipewrite appends exactly the bytes it
    has fetched and stops only when the call is finished, user memory faults,
    the queue is full, or there is no reader or the writer is killed; a run of
    piperead takes bytes off the front and stops only when the call is
    finished, the queue is empty or the copy to user memory fails, which loses
    the byte; it sleeps only on an empty pipe that still has a writer. *)
Theorem pipe_refines_queue (pi : pipe) (q : list Z) :
  ring pi q ->
  (forall killed src n i e pi', pipewrite_run killed src n i pi = (e, pi') ->
     let q' := q ++ fetched src i (end_index e) in
     ring pi' q' /\ i <= end_index e /\ write_ends pi killed src n q' e) /\
  (forall killed dst n e out pi', piperead_run killed dst n pi = (e, out, pi') ->
     exists q', q = out ++ q' /\ ring pi' q' /\ read_ends pi killed dst n out q' e).
Proof.
  intros R. split.
  - intros killed src n i e pi' H.
    apply (write_loop_spec _ _ _ _ _ _ _ _ _ R) in H as (? & _ & ? & _ & _ & _ & ?); [|lia]. done.
  - intros killed dst n e out pi' H.
    apply (piperead_run_spec _ _ _ _ _ _ _ _ R) in H as (q' & ? & ? & _ & _ & _ & ?). by exists q'.
Qed.

(** ** No lost wakeup *)

(** What a sleeping thread waits for has not happened. *)
Definition waits (pi : pipe) (t : thread) : Prop :=
  match t with
  | Writing _ _ _ true => full pi = true /\ readopen pi = true
  | Reading _ _ true => empty pi = true /\ writeopen pi = true
  | _ => True
  end.

Record pinv (calm : bool) (s : psys) : Prop := mk_pinv {
  pinv_fifo : exists q, written s = taken s ++ q /\ ring (the_pipe s) q;
  pinv_sleep : calm = true -> Forall (waits (the_pipe s)) (threads s)
}.

(** Waking and then replacing the running thread [t] keeps [waits], when it
    holds of the woken threads and of [t']. *)
Lemma waits_step pi pi' cs ts t t' :
  Forall (waits pi) ts -> waits pi' t' ->
  (forall u, waits pi u -> waits pi' (wake_thread cs u)) ->
  Forall (waits pi') (<[t := t']> (wake_thread cs <$> ts)).
Proof.
  intros H Ht Hw. apply Forall_insert; [|done]. apply Forall_fmap.
  eapply Forall_impl; [exact H|exact Hw].
Qed.

Lemma waits_awake pi u :
  match u with Writing _ _ _ a | Reading _ _ a => a | Out => false end = false -> waits pi u.
Proof. by destruct u as [|? ? ? []|? ? []]. Qed.

(** A run that woke the sleepers of one channel keeps [waits] if for the
    others nothing changed. *)
Lemma waits_woken pi pi' c u :
  waits pi u ->
  (c = NREAD -> full pi = true -> readopen pi = true -> full pi' = true /\ readopen pi' = true) ->
  (c = NWRITE -> empty pi = true -> writeopen pi = true -> empty pi' = true /\ writeopen pi' = true) ->
  waits pi' (wake_thread [c] u).
Proof. destruct u as [|? ? ? []|? ? []], c; simpl; naive_solver. Qed.

Lemma write_full killed src n i pi q e pi' :
  ring pi q -> pipewrite_run killed src n i pi = (e, pi') -> full pi = true -> pi' = pi.
Proof.
  intros R H F. rewrite (ring_full _ _ R) in F. apply bool_decide_eq_true in F.
  apply (write_loop_spec _ _ _ _ _ _ _ _ _ R) in H as (Hi & _ & R' & Hpi & _); [|lia].
  apply Hpi. pose proof (ring_bound _ _ R') as Hb. rewrite length_app, F in Hb.
  unfold fetched in Hb. rewrite length_fmap, length_seq in Hb. lia.
Qed.

Lemma pstep_pinv calm s s' : pinv calm s -> pstep calm s s' -> pinv calm s'.
Proof.
  intros [(q & Hq & R) Hs] Hstep.
  destruct Hstep as
    [s t src n Ht Ho|s t dst n Ht Ho|s t src n i killed e pi Ht Hrun Hcalm t'
    |s t dst n killed e out pi Ht Hrun t'|s pi c freed Hno Ho Hc|s pi c freed Hno Ho Hc|s t c];
    constructor; simpl.
  - by exists q.
  - intros C. apply Forall_insert; [by apply Hs|done].
  - by exists q.
  - intros C. apply Forall_insert; [by apply Hs|done].
  - apply (write_loop_spec _ _ _ _ _ _ _ _ _ R) in Hrun as (? & _ & R' & _); [|lia].
    eexists. split; [|exact R']. by rewrite Hq, app_assoc.
  - intros C. pose proof (write_full _ _ _ _ _ _ _ _ R Hrun) as Hfull.
    pose proof (write_loop_spec _ _ _ _ _ _ _ _ _ R ltac:(reflexivity) Hrun)
      as (Hi & _ & R' & Hsame & Hro & Hwo & He).
    destruct e as [j|j|j]; simpl in *.
    + assert (pi = the_pipe s) as ->.
      { destruct (decide (j = i)) as [->|Hne]; [by apply Hsame|].
        destruct He as [_ [He|He]]; [|rewrite Hcalm in He by (done || lia); done].
        unfold pipewrite_run in Hrun. destruct (Z.to_nat (n - i)); simpl in Hrun;
          rewrite He in Hrun; destruct (i <? n); simpl in Hrun; congruence. }
      apply (waits_step (the_pipe s)); [by apply Hs|done|].
      intros u. by destruct u as [|? ? ? []|? ? []].
    + apply (waits_step (the_pipe s)); [by apply Hs| |].
      * simpl. rewrite (ring_full _ _ R'). destruct He as (_ & He & He').
        rewrite He. split; [done|congruence].
      * intros u Hu. eapply waits_woken; [exact Hu| |done].
        intros _ F Ho. rewrite (Hfull F). done.
    + apply (waits_step (the_pipe s)); [by apply Hs|done|].
      intros u Hu. eapply waits_woken; [exact Hu| |done].
      intros _ F Ho. rewrite (Hfull F). done.
  - apply (piperead_run_spec _ _ _ _ _ _ _ _ R) in Hrun as (q' & -> & R' & _).
    exists q'. split; [by rewrite Hq, app_assoc|done].
  - intros C. apply (piperead_run_spec _ _ _ _ _ _ _ _ R) in Hrun as (q' & -> & R' & Hr & Hw & Hsame & He).
    destruct e as [| |r]; simpl in *.
    + subst pi. apply (waits_step (the_pipe s)); [by apply Hs|done|].
      intros u. by destruct u as [|? ? ? []|? ? []].
    + subst pi. apply (waits_step (the_pipe s)); [by apply Hs| |].
      * simpl. destruct He as (-> & -> & He & _). by rewrite (ring_empty _ _ R).
      * intros u. by destruct u as [|? ? ? []|? ? []].
    + apply (waits_step (the_pipe s)); [by apply Hs|done|].
      intros u Hu. eapply waits_woken; [exact Hu|done|].
      intros _ E Ho. rewrite (ring_empty _ _ R) in E. apply bool_decide_eq_true in E.
      destruct He as [He _]. specialize (He E). congruence.
  - unfold pipeclose in Hc. simplify_eq. exists q. split; [done|]. by destruct R; constructor.
  - unfold pipeclose in Hc. simplify_eq. intros C. apply Forall_fmap.
    eapply Forall_impl; [|intros u Hu; exact Hu]. apply Forall_lookup_2. intros t u Hu.
    pose proof (Forall_lookup_1 _ _ _ _ (Hs C) Hu) as Hwt.
    assert (is_writing u = false) as Hnw.
    { apply not_true_is_false. intros Hw. apply not_true_iff_false in Hno. apply Hno, existsb_exists. exists u. split; [|done].
      apply list_elem_of_In. by eapply list_elem_of_lookup_2. }
    by destruct u as [|? ? ? []|? ? []].
  - unfold pipeclose in Hc. simplify_eq. exists q. split; [done|]. by destruct R; constructor.
  - unfold pipeclose in Hc. simplify_eq. intros C. apply Forall_fmap.
    apply Forall_lookup_2. intros t u Hu. simpl.
    pose proof (Forall_lookup_1 _ _ _ _ (Hs C) Hu) as Hwt.
    assert (is_reading u = false) as Hnw.
    { apply not_true_is_false. intros Hw.
      apply not_true_iff_false in Hno. apply Hno, existsb_exists. exists u. split; [|done].
      apply list_elem_of_In. by eapply list_elem_of_lookup_2. }
    by destruct u as [|? ? ? []|? ? []].
  - by exists q.
  - intros C. specialize (Hs C). clear -Hs. revert t.
    induction Hs as [|u ts Hu Hts IH]; intros [|t]; simpl; constructor; auto.
    + by destruct u as [|? ? ? []|? ? []], c.
    + apply IH.
Qed.

Lemma pinv_reachable calm junk nt s :
  length junk = 512%nat -> rtc (pstep calm) (psys_init junk nt) s -> pinv calm s.
Proof.
  intros Hj Hr. eapply rtc_invariant; [apply pstep_pinv|exact Hr|]. constructor; simpl.
  - exists []. split; [done|by apply ring_init].
  - intros _. by apply Forall_replicate.
Qed.

(** (C35) Among any number of readers and writers of one pipe, in any order of
    runs, closes and wakeups: what has been read is a prefix of what has been
    written and at most 512 bytes are in between; a reader is asleep only
    while everything written has been read and some writer is left, a writer
    only while exactly 512 bytes are in the pipe and some reader is left.  This
    is for runs in which no writer is killed in the middle of a run of
    pipewrite, which then returns without waking the readers
    ([pipe_kill_loses_wakeup]). *)
Theorem pipe_no_lost_wakeup (junk : list Z) (nt : nat) (s : psys) :
  length junk = 512%nat -> rtc (pstep true) (psys_init junk nt) s ->
  (exists q, written s = taken s ++ q /\ (length q <= 512)%nat) /\
  (forall t dst n, threads s !! t = Some (Reading dst n true) ->
     written s = taken s /\ writeopen (the_pipe s) = true) /\
  (forall t src n i, threads s !! t = Some (Writing src n i true) ->
     length (written s) = (length (taken s) + 512)%nat /\ readopen (the_pipe s) = true).
Proof.
  intros Hj Hr. destruct (pinv_reachable _ _ _ _ Hj Hr) as [(q & Hq & R) Hs].
  specialize (Hs eq_refl). split; [|split].
  - exists q. split; [done|apply (ring_bound _ _ R)].
  - intros t dst n Ht. destruct (Forall_lookup_1 _ _ _ _ Hs Ht) as [E Ho].
    rewrite (ring_empty _ _ R) in E. to_prop. subst q. by rewrite Hq, app_nil_r.
  - intros t src n i Ht. destruct (Forall_lookup_1 _ _ _ _ Hs Ht) as [F Ho].
    rewrite (ring_full _ _ R) in F. to_prop. by rewrite Hq, length_app, F.
Qed.

(** A writer killed after it has put a byte returns without the wakeup: a
    sleeping reader stays asleep on a pipe that is not empty. *)
Theorem pipe_kill_loses_wakeup (junk : list Z) (nt : nat) (s : psys) t dst n u src m i ch :
  length junk = 512%nat -> rtc (pstep true) (psys_init junk nt) s ->
  threads s !! t = Some (Reading dst n true) ->
  threads s !! u = Some (Writing src m i false) ->
  readopen (the_pipe s) = true -> i + 1 < m -> src i = Some ch ->
  exists s', pstep false s s' /\ threads s' !! t = Some (Reading dst n true) /\
    threads s' !! u = Some Out /\ written s' = taken s' ++ [ch].
Proof.
  intros Hj Hr Ht Hu Ho Hi Hsrc. destruct (pinv_reachable _ _ _ _ Hj Hr) as [(q & Hq & R) Hs].
  destruct (Forall_lookup_1 _ _ _ _ (Hs eq_refl) Ht) as [E _].
  rewrite (ring_empty _ _ R) in E. to_prop. subst q. rewrite app_nil_r in Hq.
  pose proof (ring_full _ _ R) as F. simpl in F.
  assert (pipewrite_run (fun k => bool_decide (i < k)) src m i (the_pipe s)
          = (WBroken (i + 1), put ch (the_pipe s))) as Hrun.
  { unfold pipewrite_run.
    replace (Z.to_nat (m - i)) with (S (S (Z.to_nat (m - i - 2)))) by lia. simpl.
    rewrite (proj2 (Z.ltb_lt i m)) by lia. rewrite Ho, F, Hsrc. simpl.
    rewrite (bool_decide_eq_false_2 (i < i)) by lia. simpl.
    rewrite (proj2 (Z.ltb_lt (i + 1) m)) by lia.
    by rewrite (bool_decide_eq_true_2 (i < i + 1)) by lia. }
  eexists. split; [eapply (p_write _ s u src m i); [exact Hu|exact Hrun|done]|]. simpl.
  assert (t <> u) by congruence.
  rewrite list_lookup_insert_ne, list_lookup_fmap, Ht by done.
  rewrite list_lookup_insert_eq by (rewrite length_fmap; by eapply lookup_lt_Some).
  split_and!; [done|done|]. rewrite Hq. f_equal.
  rewrite (fetched_cons _ _ _ ch) by (done || lia). by rewrite fetched_nil by lia.
Qed.

(** ** The theorems at a concrete pipe *)

Lemma pipe_refines_queue_witness :
  ring (pipe_init (replicate 512 0)) [] /\
  forall e pi', pipewrite_run (fun _ => false) (fun i => Some i) 600 0 (pipe_init (replicate 512 0))
                = (e, pi') -> e = WSleep 512 -> length (fetched (fun i => Some i) 0 512) = 512%nat.
Proof.
  assert (ring (pipe_init (replicate 512 0)) []) as R by by apply ring_init.
  split; [exact R|]. intros e pi' H ->.
  destruct (proj1 (pipe_refines_queue _ _ R) _ _ _ _ _ _ H) as (_ & _ & _ & Hl & _). exact Hl.
Defined.

Definition demo_src : Z -> option Z := fun i => Some (65 + i).
Definition demo_dst : Z -> Z -> bool := fun _ _ => true.

Lemma demo_reader_sleeps :
  rtc (pstep true) (psys_init (replicate 512 0) 2)
      {| the_pipe := pipe_init (replicate 512 0);
         threads := [Reading demo_dst 1 true; Writing demo_src 3 0 false];
         written := []; taken := [] |}.
Proof.
  eapply rtc_l; [by apply (p_start_read _ _ 0 demo_dst 1)|].
  eapply rtc_l; [by apply (p_read _ _ 0 demo_dst 1 false RSleep [] (pipe_init (replicate 512 0)))|].
  eapply rtc_l; [by apply (p_start_write _ _ 1 demo_src 3)|]. apply rtc_refl.
Qed.

Lemma pipe_no_lost_wakeup_witness :
  rtc (pstep true) (psys_init (replicate 512 0) 2)
      {| the_pipe := pipe_init (replicate 512 0);
         threads := [Reading demo_dst 1 true; Writing demo_src 3 0 false];
         written := []; taken := [] |} /\
  writeopen (pipe_init (replicate 512 0)) = true.
Proof.
  split; [exact demo_reader_sleeps|].
  destruct (pipe_no_lost_wakeup (replicate 512 0) 2 _ eq_refl demo_reader_sleeps) as (_ & H & _).
  destruct (H 0%nat demo_dst 1 eq_refl) as [_ Hw]. exact Hw.
Defined.

End PipeFacts.
