(* ===== verification/Buf.v ===== *)
(** * Disk blocks and the promise of the buffer cache
    (xv6-memory-management/kernel: fs.h, buf.h, bio.c)

    What the log and the file system rely on: [BufCache] lists the operations
    of bio.c, [BufCacheLaws] what they do to an abstract cache.  [BioRep] proves
    the laws for the linked list of bio.c. *)
From S2P Require Import Prelude Mem MemFacts.

#[local] Open Scope Z_scope.

Module Buf.
Import Mem.

(** ** Blocks *)

Definition BSIZE : Z := 1024.
Definition NBUF : nat := 30.
Definition LOGBLOCKS : Z := 30.
Definition MAXOPBLOCKS : Z := 10.

(** A block is its bytes by offset; a disk its blocks by number. *)
Definition block : Type := memory.
Definition disk : Type := Z -> block.

Lemma disk_upd_eq (f : disk) n b : (<[n := b]> f : disk) n = b.
Proof. apply (fn_lookup_insert (A := Z) (T := block)). Qed.
Lemma disk_upd_ne (f : disk) n k b : n <> k -> (<[n := b]> f : disk) k = f k.
Proof. apply (fn_lookup_insert_ne (A := Z) (T := block)). Qed.

(** Little-endian 32-bit fields of a block. *)
Definition get32 (b : block) (off : Z) : Z := load_le 4 b off.
Definition put32 (b : block) (off v : Z) : block :=
  fun x => if (off <=? x) && (x <? off + 4) then v / 256 ^ (x - off) mod 256 else b x.

Lemma get32_ext (b b' : block) off :
  (forall x, off <= x < off + 4 -> b x = b' x) -> get32 b off = get32 b' off.
Proof. intros H. apply MemFacts.load_le_ext. intros x Hx. apply H. lia. Qed.

Lemma get32_put32 b off v : 0 <= v < 2 ^ 32 -> get32 (put32 b off v) off = v.
Proof.
  intros Hv. unfold get32.
  transitivity (load_le 4 (fun x => v / 256 ^ (x - off) mod 256) off).
  - apply MemFacts.load_le_ext. intros x Hx. unfold put32.
    rewrite (proj2 (Z.leb_le off x)), (proj2 (Z.ltb_lt x (off + 4))) by lia. done.
  - unfold load_le. replace (off - off) with 0 by lia. replace (off + 1 - off) with 1 by lia.
    replace (off + 1 + 1 - off) with 2 by lia. replace (off + 1 + 1 + 1 - off) with 3 by lia.
    change (256 ^ 0) with 1. change (256 ^ 1) with 256. change (256 ^ 2) with 65536.
    change (256 ^ 3) with 16777216. rewrite Z.div_1_r.
    pose proof (Z.div_mod v 256). pose proof (Z.div_mod (v / 256) 256).
    pose proof (Z.div_mod (v / 65536) 256).
    assert (v / 256 / 256 = v / 65536) by (by rewrite Z.div_div by lia).
    assert (v / 65536 / 256 = v / 16777216) by (by rewrite Z.div_div by lia).
    assert (v / 16777216 mod 256 = v / 16777216).
    { apply Z.mod_small. split; [apply Z.div_pos; lia|apply Z.div_lt_upper_bound; lia]. }
    lia.
Qed.

Lemma get32_put32_ne b off off' v :
  off + 4 <= off' \/ off' + 4 <= off -> get32 (put32 b off v) off' = get32 b off'.
Proof.
  intros H. apply get32_ext. intros x Hx. unfold put32.
  destruct (Z.leb_spec off x), (Z.ltb_spec x (off + 4)); simpl; lia || done.
Qed.

(** ** The interface of bio.c *)

Class BufCache (B : Type) := {
  boot : disk -> B;                        (* binit, on a machine just started *)
  bread : Z -> B -> outcome (nat * B);     (* the buffer, locked *)
  bdata : B -> nat -> block;               (* b->data *)
  bblockno : B -> nat -> Z;                (* b->blockno *)
  btrace : B -> list (Z * block);          (* what has been written to the disk *)
  bset : nat -> block -> B -> B;           (* an assignment to b->data *)
  bwrite : nat -> B -> outcome B;
  brelse : nat -> B -> outcome B;
  bpin : nat -> B -> B;
  bunpin : nat -> B -> B
}.

(** An abstract cache: what [bread] returns for each block, what the disk
    holds, the blocks written to it so far (in order), the locked buffers with
    their blocks, and the pinned blocks. *)
Record cmodel := mk_cmodel {
  vw : disk;
  dk : disk;
  tr : list (Z * block);
  held : list (nat * Z);
  pins : list Z
}.

Definition in_use (m : cmodel) : gset Z := list_to_set ((held m).*2 ++ pins m).

(** Write out a list of block writes. *)
Definition apply_writes (ws : list (Z * block)) (d : disk) : disk :=
  fold_left (fun d w => <[w.1 := w.2]> d) ws d.

Class BufCacheLaws (B : Type) `{BufCache B} (rep : B -> cmodel -> Prop) := {
  boot_law d : rep (boot d) (mk_cmodel d d [] [] []);
  bread_law s m n :
    rep s m -> n ∉ (held m).*2 -> (size (in_use m ∪ {[n]}) <= NBUF)%nat ->
    exists b s', bread n s = Ret (b, s') /\ b ∉ (held m).*1 /\
      rep s' {| m with held := (b, n) :: held m |};
  bdata_law s m b n :
    rep s m -> (b, n) ∈ held m -> bdata s b = vw m n /\ bblockno s b = n;
  btrace_law s m : rep s m -> btrace s = tr m;
  bset_law s m b n d :
    rep s m -> (b, n) ∈ held m -> rep (bset b d s) {| m with vw := <[n := d]> (vw m) |};
  bwrite_law s m b n :
    rep s m -> (b, n) ∈ held m ->
    exists s', bwrite b s = Ret s' /\
      rep s' {| m with dk := <[n := vw m n]> (dk m); tr := tr m ++ [(n, vw m n)] |};
  brelse_law s m h1 b n h2 :
    rep s m -> held m = h1 ++ (b, n) :: h2 -> (n ∈ pins m \/ vw m n = dk m n) ->
    exists s', brelse b s = Ret s' /\ rep s' {| m with held := h1 ++ h2 |};
  bpin_law s m b n :
    rep s m -> (b, n) ∈ held m -> n ∉ pins m -> rep (bpin b s) {| m with pins := n :: pins m |};
  bunpin_law s m b n p1 p2 :
    rep s m -> (b, n) ∈ held m -> pins m = p1 ++ n :: p2 ->
    rep (bunpin b s) {| m with pins := p1 ++ p2 |};
  clean_law s m n : rep s m -> n ∉ in_use m -> vw m n = dk m n;
  nodup_law s m : rep s m -> NoDup (held m).*1 /\ NoDup (held m).*2 /\ NoDup (pins m)
}.

End Buf.
