(* ===== verification/Bio.v ===== *)
(** * The buffer cache (xv6-memory-management/kernel/bio.c)

    The thirty buffers and the list head are an array; [next] and [prev] are
    indices into it, the head's index is [HEAD], and the list operations are
    the code's assignments to these fields.  The disk behind
    [virtio_disk_rw] reads and writes whole blocks; every write is also noted
    in order, for what a crash can leave.  A buffer's sleep lock is one flag:
    waiting for a held one is [Undef] here, and [BioRep] shows when it
    cannot happen. *)
From S2P Require Import Prelude Mem Buf.

#[local] Open Scope Z_scope.

Module Bio.
Import Buf.

Record buf := mk_buf {
  valid : bool;
  dev : Z;          (* uint *)
  blockno : Z;      (* uint *)
  locked : bool;    (* b->lock *)
  refcnt : Z;       (* uint *)
  data : block;
  next : nat;
  prev : nat
}.

Definition zero_buf : buf := mk_buf false 0 0 false 0 (fun _ => 0) 0 0.

Record bcache := mk_bcache {
  bufs : list buf;              (* buf[0..NBUF-1], then head *)
  on_disk : disk;
  written : list (Z * block)    (* blocks written, in order *)
}.

Definition HEAD : nat := NBUF.

Definition getb (s : bcache) (b : nat) : buf := default zero_buf (bufs s !! b).
Definition upd (f : buf -> buf) (b : nat) (s : bcache) : bcache :=
  {| s with bufs := alter f b (bufs s) |}.

Definition set_next (x : nat) (u : buf) : buf := {| u with next := x |}.
Definition set_prev (x : nat) (u : buf) : buf := {| u with prev := x |}.
Definition set_locked (l : bool) (u : buf) : buf := {| u with locked := l |}.
Definition set_refcnt (r : Z) (u : buf) : buf := {| u with refcnt := r |}.
Definition set_data (d : block) (u : buf) : buf := {| u with data := d |}.

(** [b->next = head.next; b->prev = &head; head.next->prev = b; head.next = b] *)
Definition push_front (b : nat) (s : bcache) : bcache :=
  let s := upd (set_next (next (getb s HEAD))) b s in
  let s := upd (set_prev HEAD) b s in
  let s := upd (set_prev b) (next (getb s HEAD)) s in
  upd (set_next b) HEAD s.

(** [b->next->prev = b->prev; b->prev->next = b->next] *)
Definition unlink (b : nat) (s : bcache) : bcache :=
  let s := upd (set_prev (prev (getb s b))) (next (getb s b)) s in
  upd (set_next (next (getb s b))) (prev (getb s b)) s.

Definition binit (s : bcache) : bcache :=
  let s := upd (set_prev HEAD) HEAD s in
  let s := upd (set_next HEAD) HEAD s in
  fold_left (fun s b => push_front b (upd (set_locked false) b s)) (seq 0 NBUF) s.

(** The static, zeroed [bcache] and its initialisation. *)
Definition boot (d : disk) : bcache :=
  binit {| bufs := replicate (S NBUF) zero_buf; on_disk := d; written := [] |}.

(** [for (b = ...; b != &bcache.head; b = b->next)] up to the first match. *)
Fixpoint scan (step : buf -> nat) (test : buf -> bool) (fuel : nat) (b : nat) (s : bcache)
    : outcome (option nat) :=
  if bool_decide (b = HEAD) then Ret None
  else
    match fuel with
    | O => Undef "bget: cycle"
    | S fuel' =>
        if test (getb s b) then Ret (Some b)
        else scan step test fuel' (step (getb s b)) s
    end.

Definition holds_block (d n : Z) (u : buf) : bool := (dev u =? d) && (blockno u =? n).
Definition unused (u : buf) : bool := refcnt u =? 0.

Definition recycle (d n : Z) (u : buf) : buf :=
  {| u with dev := d; blockno := n; valid := false; refcnt := 1 |}.

(** [bget] up to the acquisition of the sleep lock. *)
Definition bget (d n : Z) (s : bcache) : outcome (nat * bcache) :=
  hit ← scan next (holds_block d n) NBUF (next (getb s HEAD)) s;
  match hit with
  | Some b => Ret (b, upd (fun u => set_refcnt (u32 (refcnt u + 1)) u) b s)
  | None =>
      lru ← scan prev unused NBUF (prev (getb s HEAD)) s;
      match lru with
      | Some b => Ret (b, upd (recycle d n) b s)
      | None => Panic "bget: no buffers"
      end
  end.

Definition acquiresleep (b : nat) (s : bcache) : outcome bcache :=
  if locked (getb s b) then Undef "sleep on a held buffer"
  else Ret (upd (set_locked true) b s).

(** [virtio_disk_rw(b, 0); b->valid = 1] *)
Definition fill (b : nat) (s : bcache) : bcache :=
  if valid (getb s b) then s
  else upd (fun u => {| u with data := on_disk s (blockno u); valid := true |}) b s.

Definition bread (d n : Z) (s : bcache) : outcome (nat * bcache) :=
  '(b, s) ← bget d n s;
  s ← acquiresleep b s;
  Ret (b, fill b s).

Definition bwrite (b : nat) (s : bcache) : outcome bcache :=
  let u := getb s b in
  if negb (locked u) then Panic "bwrite"
  else Ret {| s with on_disk := <[blockno u := data u]> (on_disk s);
                     written := written s ++ [(blockno u, data u)] |}.

Definition brelse (b : nat) (s : bcache) : outcome bcache :=
  if negb (locked (getb s b)) then Panic "brelse"
  else
    let s := upd (set_locked false) b s in
    let s := upd (fun u => set_refcnt (u32 (refcnt u - 1)) u) b s in
    Ret (if refcnt (getb s b) =? 0 then push_front b (unlink b s) else s).

Definition bpin (b : nat) (s : bcache) : bcache :=
  upd (fun u => set_refcnt (u32 (refcnt u + 1)) u) b s.
Definition bunpin (b : nat) (s : bcache) : bcache :=
  upd (fun u => set_refcnt (u32 (refcnt u - 1)) u) b s.

(** ** The specification: a sequence of buffers, most recently released first *)

Definition lru_front (b : nat) (l : list nat) : list nat := b :: List.filter (fun x => negb (x =? b)%nat) l.

(** The kernel's only disk. *)
Definition ROOTDEV : Z := 1.

#[export] Instance bio_cache : BufCache bcache := {
  Buf.boot := boot;
  Buf.bread := bread ROOTDEV;
  Buf.bdata := fun s b => data (getb s b);
  Buf.bblockno := fun s b => blockno (getb s b);
  Buf.btrace := written;
  Buf.bset := fun b d => upd (set_data d) b;
  Buf.bwrite := bwrite;
  Buf.brelse := brelse;
  Buf.bpin := bpin;
  Buf.bunpin := bunpin
}.

End Bio.
