(* ===== verification/BioFacts.v ===== *)
(** * The linked list of the buffer cache is a sequence ordered by last release. *)
From S2P Require Import Prelude Mem Buf Bio.

#[local] Open Scope Z_scope.

Module BioFacts.
Import Buf Bio.

(** ** Field access *)

Lemma getb_upd_eq f b s : (b < length (bufs s))%nat -> getb (upd f b s) b = f (getb s b).
Proof.
  intros Hb. unfold getb, upd. simpl. rewrite list_lookup_alter_eq.
  apply lookup_lt_is_Some in Hb as [u ->]. done.
Qed.

Lemma getb_upd_ne f b c s : b <> c -> getb (upd f b s) c = getb s c.
Proof. intros Hb. unfold getb, upd. simpl. by rewrite list_lookup_alter_ne. Qed.

Lemma length_upd f b s : length (bufs (upd f b s)) = length (bufs s).
Proof. apply length_alter. Qed.

(** An update that keeps [proj] keeps it for every buffer. *)
Lemma getb_upd_proj {A} (proj : buf -> A) f b c s :
  (forall u, proj (f u) = proj u) -> proj (getb (upd f b s) c) = proj (getb s c).
Proof.
  intros Hf. destruct (decide (b = c)) as [->|Hne]; [|by rewrite getb_upd_ne].
  unfold getb, upd. simpl. rewrite list_lookup_alter_eq. by destruct (bufs s !! c); simpl.
Qed.

(** ** Paths of the doubly linked list *)

Definition nx (s : bcache) (b : nat) : nat := next (getb s b).
Definition pv (s : bcache) (b : nat) : nat := prev (getb s b).

(** Consecutive elements point at each other. *)
Fixpoint path (s : bcache) (c : list nat) : Prop :=
  match c with
  | a :: ((b :: _) as c') => nx s a = b /\ pv s b = a /\ path s c'
  | _ => True
  end.

Lemma path_app s c1 x c2 : path s (c1 ++ x :: c2) <-> path s (c1 ++ [x]) /\ path s (x :: c2).
Proof.
  induction c1 as [|a c1 IH]; [simpl; naive_solver|].
  destruct c1 as [|b c1]; simpl in *; naive_solver.
Qed.

(** A path depends on [next] of all but the last and [prev] of all but the first. *)
Lemma path_ext s s' c :
  path s c ->
  (forall x y c1 c2, c = c1 ++ x :: y :: c2 -> nx s' x = nx s x /\ pv s' y = pv s y) ->
  path s' c.
Proof.
  induction c as [|a c IH]; [done|]. intros Hp Hext. destruct c as [|b c]; [done|].
  destruct Hp as (Ha & Hb & Hp). destruct (Hext a b [] c eq_refl) as [E1 E2].
  split_and!; [congruence|congruence|]. apply IH; [done|].
  intros x y c1 c2 E. apply (Hext x y (a :: c1) c2). by rewrite E.
Qed.

(** The list [l] of buffers between the head and itself. *)
Record dll (s : bcache) (l : list nat) : Prop := mk_dll {
  dll_length : length (bufs s) = S NBUF;
  dll_nodup : NoDup l;
  dll_lt : forall b, b ∈ l -> (b < NBUF)%nat;
  dll_path : path s (HEAD :: l ++ [HEAD])
}.

Lemma dll_not_head s l : dll s l -> HEAD ∉ l.
Proof. intros D H. apply (dll_lt _ _ D) in H. unfold HEAD in H. lia. Qed.

Lemma dll_ext s s' l :
  dll s l -> length (bufs s') = length (bufs s) ->
  (forall b, nx s' b = nx s b) -> (forall b, pv s' b = pv s b) -> dll s' l.
Proof.
  intros [Hl Hn Hlt Hp] El En Ep. constructor; [congruence|done|done|].
  eapply path_ext; [exact Hp|auto].
Qed.

Lemma dll_upd s l f b :
  (forall u, next (f u) = next u) -> (forall u, prev (f u) = prev u) ->
  dll s l -> dll (upd f b s) l.
Proof.
  intros Hn Hp D. eapply dll_ext; [exact D|apply length_upd| |];
    intros c; unfold nx, pv; by apply getb_upd_proj.
Qed.

Lemma nx_set_next s b c x :
  (b < length (bufs s))%nat -> nx (upd (set_next x) b s) c = if decide (b = c) then x else nx s c.
Proof.
  intros Hb. unfold nx. case_decide; [subst; by rewrite getb_upd_eq|by rewrite getb_upd_ne].
Qed.
Lemma pv_set_prev s b c x :
  (b < length (bufs s))%nat -> pv (upd (set_prev x) b s) c = if decide (b = c) then x else pv s c.
Proof.
  intros Hb. unfold pv. case_decide; [subst; by rewrite getb_upd_eq|by rewrite getb_upd_ne].
Qed.
Lemma nx_set_prev s b c x : nx (upd (set_prev x) b s) c = nx s c.
Proof. unfold nx. by apply getb_upd_proj. Qed.
Lemma pv_set_next s b c x : pv (upd (set_next x) b s) c = pv s c.
Proof. unfold pv. by apply getb_upd_proj. Qed.

(** Both ends of a nonempty cyclic list. *)
Lemma first_last l : exists q c, l ++ [HEAD] = q :: c /\ (q = HEAD /\ l = [] /\ c = [] \/
  exists l', l = q :: l' /\ c = l' ++ [HEAD]).
Proof. destruct l as [|q l]; [exists HEAD, []|exists q, (l ++ [HEAD])]; naive_solver. Qed.

Lemma nodup_two {A} (l : list A) c1 x c2 y c3 :
  NoDup l -> l = c1 ++ x :: c2 ++ y :: c3 -> x <> y.
Proof.
  intros Hn -> ->. apply NoDup_app in Hn as (_ & _ & Hn). apply NoDup_cons in Hn as [Hn _].
  apply Hn. set_solver.
Qed.

(** ** [push_front] and [unlink] *)

Lemma push_front_links s b :
  (b < NBUF)%nat -> length (bufs s) = S NBUF -> (nx s HEAD < S NBUF)%nat -> nx s HEAD <> b ->
  let s' := push_front b s in
  (forall c, nx s' c = if decide (c = HEAD) then b else if decide (c = b) then nx s HEAD else nx s c) /\
  (forall c, pv s' c = if decide (c = nx s HEAD) then b else if decide (c = b) then HEAD else pv s c) /\
  length (bufs s') = S NBUF.
Proof.
  intros Hb Hl Hq Hqb. simpl. unfold push_front. fold (nx s HEAD).
  set (s1 := upd (set_next (nx s HEAD)) b s).
  set (s2 := upd (set_prev HEAD) b s1).
  assert (length (bufs s1) = S NBUF) as L1 by (unfold s1; by rewrite length_upd).
  assert (length (bufs s2) = S NBUF) as L2 by (unfold s2; by rewrite length_upd).
  assert (b <> HEAD) as Hne by (unfold HEAD; lia).
  assert (next (getb s2 HEAD) = nx s HEAD) as ->.
  { fold (nx s2 HEAD). unfold s2. rewrite nx_set_prev. unfold s1.
    rewrite nx_set_next by lia. by rewrite decide_False. }
  split_and!.
  - intros c. rewrite nx_set_next by (rewrite length_upd, L2; unfold HEAD; lia).
    rewrite nx_set_prev. unfold s2. rewrite nx_set_prev. unfold s1. rewrite nx_set_next by lia.
    repeat case_decide; congruence.
  - intros c. rewrite pv_set_next, pv_set_prev by lia. unfold s2. rewrite pv_set_prev by lia.
    unfold s1. rewrite pv_set_next. repeat case_decide; congruence.
  - by rewrite !length_alter.
Qed.

Lemma dll_push_front s l b :
  dll s l -> b ∉ l -> (b < NBUF)%nat -> dll (push_front b s) (b :: l).
Proof.
  intros D Hb Hlt. pose proof D as [Hl Hn Hlts Hp].
  destruct (first_last l) as (q & c & E & Hq).
  pose proof (dll_not_head _ _ D) as HH.
  simpl in Hp. rewrite E in Hp. destruct Hp as (Hnx & Hpv & Hp).
  assert (q <> b) as Hqb.
  { destruct Hq as [(-> & _) | (l' & -> & _)]; [unfold HEAD; lia|set_solver]. }
  assert (q < S NBUF)%nat as Hql.
  { destruct Hq as [(-> & _) | (l' & -> & _)]; [unfold HEAD; lia|].
    pose proof (Hlts q ltac:(set_solver)). lia. }
  destruct (push_front_links s b Hlt Hl) as (Hnx' & Hpv' & Hl'); [lia|congruence|].
  rewrite Hnx in *. constructor; [done|by constructor|set_solver|].
  simpl. rewrite E. split_and!.
  - rewrite Hnx', decide_True by done. done.
  - rewrite Hpv', decide_False, decide_True by done. done.
  - rewrite Hnx', decide_False, decide_True; [done|done|unfold HEAD; lia].
  - rewrite Hpv', decide_True by done. done.
  - eapply path_ext; [exact Hp|]. intros x y c1 c2 Ec.
    assert (NoDup (l ++ [HEAD])) as Hnd.
    { apply NoDup_app. split_and!; [done|set_solver|apply NoDup_singleton]. }
    assert (x ∈ l) as Hx.
    { assert (l ++ [HEAD] = c1 ++ x :: y :: c2) as Ex by congruence.
      destruct (exists_last (l := y :: c2)) as (z & w & Ez); [done|].
      rewrite Ez in Ex. assert (l ++ [HEAD] = (c1 ++ x :: z) ++ [w]) as Ex'
        by (rewrite Ex, <- app_assoc; done).
      apply app_inj_tail in Ex' as [-> _]. set_solver. }
    assert (y <> q) as Hyq.
    { rewrite E, Ec in Hnd. destruct c1 as [|z c1]; simplify_eq/=.
      - apply NoDup_cons in Hnd as [Hnd _]. set_solver.
      - apply NoDup_cons in Hnd as [Hnd _]. set_solver. }
    assert (y ∈ l ++ [HEAD]) as Hy by (rewrite E, Ec; set_solver).
    split.
    + rewrite Hnx', decide_False, decide_False; set_solver.
    + rewrite Hpv', decide_False, decide_False; [done| |done].
      apply elem_of_app in Hy as [Hy|Hy]; [set_solver|].
      apply list_elem_of_singleton in Hy. unfold HEAD in Hy. lia.
Qed.

Lemma dll_unlink s l1 b l2 :
  dll s (l1 ++ b :: l2) -> dll (unlink b s) (l1 ++ l2).
Proof.
  intros D. pose proof D as [Hl Hn Hlts Hp]. pose proof (dll_not_head _ _ D) as HH.
  destruct (first_last l2) as (q & c2 & E2 & Hq).
  destruct (exists_last (l := HEAD :: l1)) as (c1 & p & E1); [done|].
  assert (HEAD :: (l1 ++ b :: l2) ++ [HEAD] = c1 ++ p :: b :: q :: c2) as E.
  { rewrite <- app_assoc. simpl. rewrite E2. change (HEAD :: l1 ++ b :: q :: c2) with ((HEAD :: l1) ++ b :: q :: c2).
    rewrite E1, <- app_assoc. done. }
  rewrite E in Hp. apply path_app in Hp as [Hp1 (Hpb & Hbp & Hbq & Hqb & Hp2)].
  assert (p < S NBUF)%nat as Hpl.
  { assert (p ∈ HEAD :: l1) as Hin by (rewrite E1; set_solver).
    apply elem_of_cons in Hin as [->|Hin]; [unfold HEAD; lia|].
    pose proof (Hlts p ltac:(set_solver)). lia. }
  assert (q < S NBUF)%nat as Hql.
  { destruct Hq as [(-> & _) | (l' & -> & _)]; [unfold HEAD; lia|].
    pose proof (Hlts q ltac:(set_solver)). lia. }
  assert (b <> HEAD) as HbH by set_solver.
  assert (NoDup (HEAD :: l1 ++ b :: l2)) as Hnd by (by constructor).
  assert (b <> q) as Hbne.
  { destruct Hq as [(-> & _) | (l' & -> & _)]; [done|].
    apply NoDup_app in Hn as (_ & _ & Hn). apply NoDup_cons in Hn as [Hn _]. set_solver. }
  unfold unlink. fold (nx s b). fold (pv s b). rewrite Hbq, Hbp.
  assert (nx (upd (set_prev p) q s) b = q) as Enx by (by rewrite nx_set_prev).
  assert (pv (upd (set_prev p) q s) b = p) as Epv.
  { rewrite pv_set_prev by lia. by rewrite decide_False. }
  fold (nx (upd (set_prev p) q s) b) (pv (upd (set_prev p) q s) b). rewrite Enx, Epv.
  set (s' := upd (set_next q) p (upd (set_prev p) q s)).
  assert (forall x, nx s' x = if decide (p = x) then q else nx s x) as Hnx'.
  { intros x. unfold s'. rewrite nx_set_next by (rewrite length_upd; lia).
    by rewrite nx_set_prev. }
  assert (forall x, pv s' x = if decide (q = x) then p else pv s x) as Hpv'.
  { intros x. unfold s'. rewrite pv_set_next. by rewrite pv_set_prev by lia. }
  constructor.
  - unfold s'. by rewrite !length_upd.
  - apply NoDup_app in Hn as (Hn1 & Hn2 & Hn3). apply NoDup_cons in Hn3 as [_ Hn3].
    apply NoDup_app. split_and!; [done|set_solver|done].
  - set_solver.
  - assert (HEAD :: (l1 ++ l2) ++ [HEAD] = c1 ++ p :: q :: c2) as ->.
    { rewrite <- app_assoc, E2. change (HEAD :: l1 ++ q :: c2) with ((HEAD :: l1) ++ q :: c2).
      rewrite E1, <- app_assoc. done. }
    apply path_app. split; [|split_and!].
    + eapply path_ext; [exact Hp1|]. intros x y d1 d2 Ed.
      rewrite <- E1 in Ed. rewrite Hnx', Hpv'.
      assert (NoDup (HEAD :: l1)) as Hnd1.
      { apply (NoDup_app _ (b :: l2)). exact Hnd. }
      assert (p <> x) as Hpx.
      { destruct (exists_last (l := y :: d2)) as (z & w & Ez); [done|]. rewrite Ez in Ed.
        assert (c1 ++ [p] = (d1 ++ x :: z) ++ [w]) as Ex by (rewrite <- E1, Ed, <- app_assoc; done).
        apply app_inj_tail in Ex as [Ec <-]. rewrite E1, Ec in Hnd1.
        intros <-. apply NoDup_app in Hnd1 as (_ & Hd & _). apply (Hd p); set_solver. }
      assert (q <> y) as Hqy.
      { assert (y ∈ l1) as Hy by (destruct d1; simplify_eq/=; set_solver).
        destruct Hq as [(-> & _) | (l' & -> & _)]; [set_solver|].
        intros <-. apply NoDup_app in Hn as (_ & Hd & _). apply (Hd q); set_solver. }
      by rewrite !decide_False.
    + by rewrite Hnx', decide_True.
    + by rewrite Hpv', decide_True.
    + eapply path_ext; [exact Hp2|]. intros x y d1 d2 Ed. rewrite Hnx', Hpv'.
      assert (NoDup (l2 ++ [HEAD])) as Hnd2.
      { apply NoDup_app. split_and!; [|set_solver|apply NoDup_singleton].
        apply NoDup_app in Hn as (_ & _ & Hn3). by apply NoDup_cons in Hn3 as [_ Hn3]. }
      assert (x ∈ l2) as Hx.
      { destruct (exists_last (l := y :: d2)) as (z & w & Ez); [done|]. rewrite Ez in Ed.
        assert (l2 ++ [HEAD] = (d1 ++ x :: z) ++ [w]) as Ex by (rewrite E2, Ed, <- app_assoc; done).
        apply app_inj_tail in Ex as [-> _]. set_solver. }
      assert (p <> x) as Hpx.
      { assert (p ∈ HEAD :: l1) as Hp by (rewrite E1; set_solver).
        apply elem_of_cons in Hp as [->|Hp]; [set_solver|].
        intros <-. apply NoDup_app in Hn as (_ & Hd & _). apply (Hd p); set_solver. }
      assert (q <> y) as Hqy.
      { rewrite E2, Ed in Hnd2. destruct d1 as [|z d1]; simplify_eq/=;
          apply NoDup_cons in Hnd2 as [Hnd2 _]; set_solver. }
      by rewrite !decide_False.
Qed.

(** ** The scans *)

Lemma scan_next_spec s test fuel a l :
  path s (a :: l ++ [HEAD]) -> HEAD ∉ l -> (length l <= fuel)%nat ->
  scan next test fuel (nx s a) s = Ret (List.find (fun b => test (getb s b)) l).
Proof.
  revert a fuel. induction l as [|b l IH]; intros a fuel Hp Hh Hf.
  - simpl in Hp. destruct Hp as (-> & _ & _). by destruct fuel.
  - simpl in Hp. destruct Hp as (-> & _ & Hp). destruct fuel as [|fuel]; [simpl in Hf; lia|].
    simpl. rewrite bool_decide_eq_false_2 by set_solver.
    destruct (test (getb s b)); [done|]. apply IH; [done|set_solver|simpl in Hf; lia].
Qed.

Lemma scan_prev_spec s test fuel z l :
  path s (HEAD :: l ++ [z]) -> HEAD ∉ l -> (length l <= fuel)%nat ->
  scan prev test fuel (pv s z) s = Ret (List.find (fun b => test (getb s b)) (reverse l)).
Proof.
  revert z fuel. induction l as [|b l IH] using rev_ind; intros z fuel Hp Hh Hf.
  - simpl in Hp. destruct Hp as (_ & -> & _). by destruct fuel.
  - rewrite <- app_assoc in Hp.
    change (HEAD :: l ++ [b] ++ [z]) with ((HEAD :: l) ++ b :: [z]) in Hp.
    apply path_app in Hp as [Hp (_ & -> & _)].
    rewrite length_app in Hf. destruct fuel as [|fuel]; [simpl in Hf; lia|].
    rewrite reverse_snoc. simpl. rewrite bool_decide_eq_false_2 by set_solver.
    destruct (test (getb s b)); [done|]. apply IH; [done|set_solver|simpl in Hf; lia].
Qed.

(** ** What the list operations leave alone *)

Definition core (u : buf) : bool * Z * Z * bool * Z * block :=
  (valid u, dev u, blockno u, locked u, refcnt u, data u).

Lemma core_push_front b c s : core (getb (push_front b s) c) = core (getb s c).
Proof. unfold push_front. by rewrite !(getb_upd_proj core). Qed.
Lemma core_unlink b c s : core (getb (unlink b s) c) = core (getb s c).
Proof. unfold unlink. by rewrite !(getb_upd_proj core). Qed.

Lemma lru_front_split b l1 l2 :
  NoDup (l1 ++ b :: l2) -> lru_front b (l1 ++ b :: l2) = b :: l1 ++ l2.
Proof.
  intros Hn. apply NoDup_app in Hn as (Hn1 & Hd & Hn2). apply NoDup_cons in Hn2 as [Hb Hn2].
  unfold lru_front. rewrite List.filter_app. simpl. rewrite Nat.eqb_refl. simpl.
  assert (forall l, b ∉ l -> List.filter (fun x => negb (x =? b)%nat) l = l) as Hf.
  { induction l as [|x l IH]; [done|]. intros Hx. simpl.
    rewrite (proj2 (Nat.eqb_neq x b)) by set_solver. simpl. rewrite IH; set_solver. }
  rewrite !Hf; [done|done|]. intros H. apply (Hd b H). set_solver.
Qed.

Lemma dll_boot d : dll (boot d) (reverse (seq 0 NBUF)).
Proof.
  constructor.
  - done.
  - rewrite reverse_Permutation. apply NoDup_seq.
  - intros b. rewrite elem_of_reverse, elem_of_seq. lia.
  - vm_compute. repeat split.
Qed.

Lemma length_lru_le s l : dll s l -> (length l <= NBUF)%nat.
Proof.
  intros [_ Hn Hlt _]. rewrite <- (length_seq NBUF 0). apply submseteq_length.
  apply NoDup_submseteq; [done|]. intros b Hb. apply elem_of_seq. specialize (Hlt b Hb). lia.
Qed.

Lemma bget_spec s l d n :
  dll s l ->
  bget d n s =
  match List.find (fun b => holds_block d n (getb s b)) l with
  | Some b => Ret (b, upd (fun u => set_refcnt (u32 (refcnt u + 1)) u) b s)
  | None =>
      match List.find (fun b => unused (getb s b)) (reverse l) with
      | Some b => Ret (b, upd (recycle d n) b s)
      | None => Panic "bget: no buffers"
      end
  end.
Proof.
  intros D. pose proof (length_lru_le _ _ D). pose proof (dll_not_head _ _ D).
  unfold bget. fold (nx s HEAD) (pv s HEAD).
  rewrite (scan_next_spec _ _ _ _ l) by (done || apply D). unfold mbind, outcome_bind.
  rewrite (scan_prev_spec _ _ _ _ l) by (done || apply D). done.
Qed.

Lemma brelse_spec s l b :
  dll s l -> b ∈ l -> locked (getb s b) = true ->
  let r := u32 (refcnt (getb s b) - 1) in
  exists s', brelse b s = Ret s' /\ dll s' (if r =? 0 then lru_front b l else l) /\
    on_disk s' = on_disk s /\ written s' = written s /\
    forall c, core (getb s' c) =
      if decide (c = b) then core (set_refcnt r (set_locked false (getb s b))) else core (getb s c).
Proof.
  intros D Hb Hlk r. unfold brelse. rewrite Hlk. simpl.
  pose proof (dll_length _ _ D) as Hl. pose proof (dll_lt _ _ D b Hb) as Hlt.
  set (s1 := upd (set_locked false) b s).
  set (s2 := upd (fun u => set_refcnt (u32 (refcnt u - 1)) u) b s1).
  assert (dll s2 l) as D2 by (by repeat apply dll_upd).
  assert (forall c, getb s2 c = if decide (c = b) then set_refcnt r (set_locked false (getb s b))
                                else getb s c) as G.
  { intros c. unfold s2, s1. case_decide; subst.
    - rewrite !getb_upd_eq by (rewrite ?length_upd; lia). done.
    - by rewrite !getb_upd_ne. }
  assert (refcnt (getb s2 b) = r) as -> by (by rewrite G, decide_True).
  exists (if r =? 0 then push_front b (unlink b s2) else s2). split; [done|].
  destruct (r =? 0).
  - apply list_elem_of_split in Hb as (l1 & l2 & ->).
    rewrite lru_front_split by apply D. split_and!; [|done|done|].
    + pose proof (dll_nodup _ _ D) as Hn. apply NoDup_app in Hn as (_ & Hd & Hn).
      apply NoDup_cons in Hn as [Hn _].
      apply dll_push_front; [by apply dll_unlink| |done].
      rewrite elem_of_app. intros [H|H]; [apply (Hd b H); set_solver|done].
    + intros c. rewrite core_push_front, core_unlink, G. by case_decide.
  - split_and!; [done|done|done|]. intros c. rewrite G. by case_decide.
Qed.

(** [List.find] as a decomposition. *)
Lemma find_first {A} (f : A -> bool) l x :
  List.find f l = Some x ->
  exists l1 l2, l = l1 ++ x :: l2 /\ f x = true /\ Forall (fun y => f y = false) l1.
Proof.
  induction l as [|y l IH]; simpl; [done|]. destruct (f y) eqn:Fy.
  - intros [= ->]. exists [], l. by split_and!.
  - intros H. destruct (IH H) as (l1 & l2 & -> & Fx & Fl). exists (y :: l1), l2.
    split_and!; [done|done|by constructor].
Qed.

Lemma find_first_none {A} (f : A -> bool) l :
  List.find f l = None -> Forall (fun y => f y = false) l.
Proof.
  induction l as [|y l IH]; simpl; [by constructor|]. destruct (f y) eqn:Fy; [done|].
  intros H. constructor; auto.
Qed.

(** (C32) The doubly linked list of bio.c is a sequence of the thirty buffers
    ordered by last release.  binit builds it; bget returns the buffer that
    holds the block, or else the least recently released buffer that nobody
    uses, and panics only when neither exists; it never loops for ever and
    never reorders the list; brelse moves a buffer that nobody uses any more to
    the front and leaves the others in their order. *)
Theorem bcache_refines_lru :
  (forall d, dll (boot d) (reverse (seq 0 NBUF))) /\
  forall s l, dll s l ->
    (forall dv n,
       match bget dv n s with
       | Ret (b, s') =>
           dll s' l /\ exists l1 l2, l = l1 ++ b :: l2 /\
             (holds_block dv n (getb s b) = true /\
              Forall (fun c => holds_block dv n (getb s c) = false) l1 \/
              Forall (fun c => holds_block dv n (getb s c) = false) l /\
              refcnt (getb s b) = 0 /\ Forall (fun c => refcnt (getb s c) <> 0) l2)
       | Panic _ => Forall (fun c => holds_block dv n (getb s c) = false /\ refcnt (getb s c) <> 0) l
       | Undef _ => False
       end) /\
    (forall b, b ∈ l -> locked (getb s b) = true ->
       exists s', brelse b s = Ret s' /\
         dll s' (if u32 (refcnt (getb s b) - 1) =? 0 then lru_front b l else l)).
Proof.
  split; [exact dll_boot|]. intros s l D. split.
  - intros dv n. rewrite (bget_spec _ _ _ _ D). destruct (List.find _ l) as [b|] eqn:Hf.
    + apply find_first in Hf as (l1 & l2 & -> & Hb & Hl1).
      split; [by apply dll_upd|]. exists l1, l2. split; [done|]. by left.
    + apply find_first_none in Hf. destruct (List.find _ (reverse l)) as [b|] eqn:Hf2.
      * apply find_first in Hf2 as (l1 & l2 & E & Hb & Hl1).
        split; [by apply dll_upd|]. exists (reverse l2), (reverse l1).
        assert (l = reverse l2 ++ b :: reverse l1) as El.
        { rewrite <- (reverse_involutive l), E, reverse_app, reverse_cons, <- app_assoc. done. }
        split; [done|]. right. split_and!; [done|by apply Z.eqb_eq|].
        apply Forall_reverse. eapply Forall_impl; [exact Hl1|]. intros c. apply Z.eqb_neq.
      * apply find_first_none in Hf2. apply Forall_reverse in Hf2.
        rewrite reverse_involutive in Hf2.
        apply Forall_and. split; [done|]. eapply Forall_impl; [exact Hf2|]. intros c. apply Z.eqb_neq.
  - intros b Hb Hlk. destruct (brelse_spec s l b D Hb Hlk) as (s' & E & D' & _). by exists s'.
Qed.

Lemma bcache_refines_lru_witness :
  exists s', bget 1 5 (boot (fun _ _ => 0)) = Ret (0%nat, s') /\ dll s' (reverse (seq 0 NBUF)).
Proof.
  destruct bcache_refines_lru as [Hb H].
  pose proof (proj1 (H _ _ (Hb (fun _ _ => 0))) 1 5) as Hg.
  assert (match bget 1 5 (boot (fun _ _ => 0)) with Ret (b, _) => b = 0%nat | _ => False end) as E
    by (vm_compute; reflexivity).
  destruct (bget 1 5 (boot (fun _ _ => 0))) as [[b s']| |]; [|exfalso; exact E|exfalso; exact E].
  exists s'. destruct Hg as [D _]. subst b. exact (conj eq_refl D).
Defined.

End BioFacts.

(** ** The buffer cache keeps the promise of [BufCacheLaws]

    [brep] relates the thirty buffers to an abstract cache: which block each
    locked buffer holds, what the reference counts count, and that a cached
    block is the current one. *)


Module BioRep.
Import Buf Bio BioFacts.

Definition cnt (n : Z) (l : list Z) : Z := Z.b2z (bool_decide (n ∈ l)).

Record brep (s : bcache) (m : cmodel) : Prop := mk_brep {
  br_dll : exists l, dll s l /\ forall b, b ∈ l <-> (b < NBUF)%nat;
  br_disk : forall n, on_disk s n = dk m n;
  br_written : written s = tr m;
  br_handles : NoDup (held m).*1;
  br_blocks : NoDup (held m).*2;
  br_pins : NoDup (pins m);
  br_held : forall b n, (b, n) ∈ held m ->
    (b < NBUF)%nat /\ dev (getb s b) = ROOTDEV /\ blockno (getb s b) = n /\
    locked (getb s b) = true;
  br_unlocked : forall b, (b < NBUF)%nat -> b ∉ (held m).*1 -> locked (getb s b) = false;
  br_cached : forall b, (b < NBUF)%nat -> dev (getb s b) = ROOTDEV ->
    valid (getb s b) = true /\ data (getb s b) = vw m (blockno (getb s b));
  br_uniq : forall b c, (b < NBUF)%nat -> (c < NBUF)%nat ->
    dev (getb s b) = ROOTDEV -> dev (getb s c) = ROOTDEV ->
    blockno (getb s b) = blockno (getb s c) -> b = c;
  br_refcnt : forall b, (b < NBUF)%nat ->
    refcnt (getb s b) =
      if decide (dev (getb s b) = ROOTDEV)
      then cnt (blockno (getb s b)) (held m).*2 + cnt (blockno (getb s b)) (pins m) else 0;
  br_pinned : forall n, n ∈ pins m ->
    exists b, (b < NBUF)%nat /\ dev (getb s b) = ROOTDEV /\ blockno (getb s b) = n;
  br_clean : forall n, n ∉ in_use m -> vw m n = dk m n
}.

Lemma cnt_range n l : 0 <= cnt n l <= 1.
Proof. unfold cnt. destruct (bool_decide _); simpl; lia. Qed.
Lemma cnt_in n l : n ∈ l -> cnt n l = 1.
Proof. intros H. unfold cnt. by rewrite bool_decide_eq_true_2. Qed.
Lemma cnt_out n l : n ∉ l -> cnt n l = 0.
Proof. intros H. unfold cnt. by rewrite bool_decide_eq_false_2. Qed.
Lemma cnt_cons n k l : n <> k -> cnt n (k :: l) = cnt n l.
Proof. intros H. unfold cnt. f_equal. apply bool_decide_ext. set_solver. Qed.
Lemma cnt_iff n l k : (n ∈ l <-> n ∈ k) -> cnt n l = cnt n k.
Proof. intros H. unfold cnt. f_equal. by apply bool_decide_ext. Qed.

Lemma in_use_spec m n : n ∈ in_use m <-> n ∈ (held m).*2 \/ n ∈ pins m.
Proof. unfold in_use. set_solver. Qed.

Lemma held_fst b n (h : list (nat * Z)) : (b, n) ∈ h -> b ∈ h.*1.
Proof. intros H. apply list_elem_of_fmap. by exists (b, n). Qed.
Lemma held_snd b n (h : list (nat * Z)) : (b, n) ∈ h -> n ∈ h.*2.
Proof. intros H. apply list_elem_of_fmap. by exists (b, n). Qed.

Lemma getb_upd f b c s :
  (b < length (bufs s))%nat -> getb (upd f b s) c = if decide (c = b) then f (getb s b) else getb s c.
Proof. intros Hb. case_decide; [subst; by apply getb_upd_eq|by apply getb_upd_ne]. Qed.

Lemma brep_length s m b : brep s m -> (b < NBUF)%nat -> (b < length (bufs s))%nat.
Proof. intros R Hb. destruct (br_dll _ _ R) as (l & D & _). rewrite (dll_length _ _ D). lia. Qed.

Lemma br_dll_upd s m f b :
  (forall u, next (f u) = next u) -> (forall u, prev (f u) = prev u) -> brep s m ->
  exists l, dll (upd f b s) l /\ forall c, c ∈ l <-> (c < NBUF)%nat.
Proof.
  intros Hn Hp R. destruct (br_dll _ _ R) as (l & D & Hl). exists l. split; [by apply dll_upd|done].
Qed.

(** ** Start *)

Lemma core_boot d b : (b < NBUF)%nat -> core (getb (boot d) b) = core zero_buf.
Proof.
  intros Hb. unfold boot, binit.
  assert (forall bs s, (forall c, core (getb s c) = core zero_buf) ->
    forall c, core (getb (fold_left (fun s b => push_front b (upd (set_locked false) b s)) bs s) c)
              = core zero_buf) as H.
  { induction bs as [|x bs IH]; intros s Hs c; [apply Hs|]. simpl. apply IH. intros c'.
    rewrite core_push_front. destruct (decide (x = c')) as [->|Hne]; [|by rewrite getb_upd_ne].
    destruct (decide (c' < length (bufs s))%nat) as [Hlt|Hge].
    - rewrite getb_upd_eq by done. specialize (Hs c'). unfold core in *. destruct (getb s c'). simpl in *.
      congruence.
    - unfold getb, upd. simpl. rewrite list_lookup_alter_eq.
      by rewrite lookup_ge_None_2 by lia. }
  apply H. intros c. rewrite !(getb_upd_proj core) by done.
  change (core (default zero_buf (replicate (S NBUF) zero_buf !! c)) = core zero_buf).
  destruct (replicate (S NBUF) zero_buf !! c) as [u|] eqn:E; [|done].
  apply lookup_replicate in E as [-> _]. done.
Qed.

Lemma brep_boot d : brep (boot d) (mk_cmodel d d [] [] []).
Proof.
  assert (forall b, (b < NBUF)%nat -> core (getb (boot d) b) = core zero_buf) as C
    by (intros; by apply core_boot).
  pose proof (dll_boot d) as D.
  assert (on_disk (boot d) = d) as Ed by (by vm_compute).
  assert (written (boot d) = []) as Ew by (by vm_compute).
  revert C D Ed Ew. generalize (boot d). intros s C D Ed Ew.
  constructor; cbn [held pins vw dk tr]; [| | |apply NoDup_nil_2|apply NoDup_nil_2|apply NoDup_nil_2|set_solver| | | | |set_solver|done].
  - exists (reverse (seq 0 NBUF)). split; [done|].
    intros b. rewrite elem_of_reverse, elem_of_seq. lia.
  - intros n. by rewrite Ed.
  - done.
  - intros b Hb _. specialize (C b Hb). unfold core in C. simpl in C. congruence.
  - intros b Hb Hd. specialize (C b Hb). unfold core in C. simpl in C.
    injection C as _ Hd' _ _ _ _. rewrite Hd' in Hd. done.
  - intros b c Hb _ Hd. specialize (C b Hb). unfold core in C. simpl in C.
    injection C as _ Hd' _ _ _ _. rewrite Hd' in Hd. done.
  - intros b Hb. specialize (C b Hb). unfold core in C. simpl in C.
    injection C as _ Hd' _ _ Hr _. by rewrite Hr, Hd'.
Qed.

(** ** bread *)

(** Locking the buffer of block [n], which is cached. *)
Lemma brep_hit s m b n :
  brep s m -> (b < NBUF)%nat -> dev (getb s b) = ROOTDEV -> blockno (getb s b) = n ->
  n ∉ (held m).*2 ->
  b ∉ (held m).*1 /\
  brep (upd (set_locked true) b (upd (fun u => set_refcnt (u32 (refcnt u + 1)) u) b s))
       {| m with held := (b, n) :: held m |}.
Proof.
  intros R Hb Hd Hbn Hn.
  assert (b ∉ (held m).*1) as Hnb.
  { intros H. apply list_elem_of_fmap in H as ([b' n'] & -> & H). simpl in *.
    destruct (br_held _ _ R _ _ H) as (_ & _ & Hbn' & _).
    apply Hn, list_elem_of_fmap. exists (b', n'). split; [simpl; congruence|done]. }
  split; [done|].
  pose proof (brep_length _ _ _ R Hb) as Hlen.
  set (s' := upd (set_locked true) b _).
  assert (forall c, getb s' c = if decide (c = b) then
    set_locked true (set_refcnt (u32 (refcnt (getb s b) + 1)) (getb s b)) else getb s c) as G.
  { intros c. unfold s'. rewrite getb_upd by (rewrite length_upd; lia).
    rewrite !getb_upd by lia. by case_decide; rewrite ?decide_True. }
  assert (forall c, dev (getb s' c) = dev (getb s c)) as Gd by (intros c; rewrite G; by case_decide; subst).
  assert (forall c, blockno (getb s' c) = blockno (getb s c)) as Gn by (intros c; rewrite G; by case_decide; subst).
  constructor; simpl.
  - unfold s'. destruct (br_dll _ _ R) as (l & D & Hl). exists l. split; [|done].
    by repeat apply dll_upd.
  - apply R.
  - apply R.
  - constructor; [done|apply R].
  - constructor; [done|apply R].
  - apply R.
  - intros c k Hc. rewrite Gd, Gn. apply elem_of_cons in Hc as [Hc|Hc].
    + simplify_eq. rewrite G, decide_True by done. done.
    + destruct (br_held _ _ R _ _ Hc) as (? & ? & ? & Hl).
      split_and!; [done..|]. rewrite G. by case_decide.
  - intros c Hc Hcn. rewrite G. rewrite decide_False by set_solver.
    apply (br_unlocked _ _ R); [done|set_solver].
  - intros c Hc. rewrite Gd, Gn. intros Hdc. pose proof (br_cached _ _ R c Hc Hdc) as Hcc.
    rewrite G. by case_decide; subst.
  - intros c e. rewrite !Gd, !Gn. apply (br_uniq _ _ R).
  - intros c Hc. rewrite Gd, Gn. pose proof (br_refcnt _ _ R c Hc) as Hr. rewrite G.
    destruct (decide (c = b)) as [->|Hne].
    + simpl. rewrite Hr. rewrite !decide_True by done. rewrite Hbn.
      rewrite (cnt_out n (held m).*2) by done. rewrite (cnt_in n (n :: _)) by set_solver.
      pose proof (cnt_range n (pins m)). rewrite wrapu_small; lia.
    + rewrite Hr. case_decide as Hdc; [|done]. rewrite cnt_cons; [done|].
      intros E. apply Hne. apply (br_uniq _ _ R); congruence.
  - intros k Hk. destruct (br_pinned _ _ R k Hk) as (c & ? & ? & ?). exists c. by rewrite Gd, Gn.
  - intros k Hk. apply (br_clean _ _ R). rewrite in_use_spec in *. simpl in Hk. set_solver.
Qed.

(** Reading block [n], which is not cached, into the unused buffer [b]. *)
Lemma brep_miss s m b n :
  brep s m -> (b < NBUF)%nat -> refcnt (getb s b) = 0 ->
  (forall c, (c < NBUF)%nat -> dev (getb s c) = ROOTDEV -> blockno (getb s c) <> n) ->
  n ∉ in_use m ->
  b ∉ (held m).*1 /\
  brep (fill b (upd (set_locked true) b (upd (recycle ROOTDEV n) b s)))
       {| m with held := (b, n) :: held m |}.
Proof.
  intros R Hb Hr Hmiss Hn.
  assert (dev (getb s b) = ROOTDEV -> blockno (getb s b) ∉ (held m).*2 /\ blockno (getb s b) ∉ pins m)
    as Hfree.
  { intros Hd. pose proof (br_refcnt _ _ R b Hb) as Hr'. rewrite Hr, decide_True in Hr' by done.
    pose proof (cnt_range (blockno (getb s b)) (held m).*2).
    pose proof (cnt_range (blockno (getb s b)) (pins m)).
    split; intros H'; apply cnt_in in H'; lia. }
  assert (b ∉ (held m).*1) as Hnb.
  { intros H. apply list_elem_of_fmap in H as ([b' n'] & -> & H). simpl in *.
    destruct (br_held _ _ R _ _ H) as (_ & Hd & Hbn' & _). destruct (Hfree Hd) as [Hf _].
    apply Hf, list_elem_of_fmap. exists (b', n'). split; [done|done]. }
  split; [done|].
  pose proof (brep_length _ _ _ R Hb) as Hlen.
  set (s1 := upd (set_locked true) b _).
  assert (getb s1 b = set_locked true (recycle ROOTDEV n (getb s b))) as G1.
  { unfold s1. by rewrite !getb_upd_eq by (rewrite ?length_upd; lia). }
  unfold fill. rewrite G1. change (valid (set_locked true (recycle ROOTDEV n (getb s b)))) with false.
  cbv iota. set (s' := upd _ b s1).
  assert (forall c, getb s' c = if decide (c = b) then
    {| valid := true; dev := ROOTDEV; blockno := n; locked := true; refcnt := 1;
       data := on_disk s n; next := next (getb s b); prev := prev (getb s b) |} else getb s c) as G.
  { intros c. unfold s'. rewrite getb_upd by (unfold s1; rewrite !length_upd; lia).
    case_decide; [by rewrite G1|]. unfold s1. by rewrite !getb_upd_ne. }
  rewrite in_use_spec in Hn.
  constructor; simpl.
  - destruct (br_dll _ _ R) as (l & D & Hl). exists l. split; [|done]. by repeat apply dll_upd.
  - apply R.
  - apply R.
  - constructor; [done|apply R].
  - constructor; [set_solver|apply R].
  - apply R.
  - intros c k Hc. apply elem_of_cons in Hc as [Hc|Hc].
    + simplify_eq. by rewrite G, decide_True by done.
    + rewrite G. rewrite decide_False; [by apply (br_held _ _ R)|].
      intros ->. by apply Hnb, (held_fst _ k).
  - intros c Hc Hcn. rewrite G. rewrite decide_False by set_solver.
    apply (br_unlocked _ _ R); [done|set_solver].
  - intros c Hc. rewrite G. case_decide as Hcb; [|by apply (br_cached _ _ R)]. simpl.
    intros _. split; [done|]. rewrite (br_clean _ _ R) by (rewrite in_use_spec; done). apply R.
  - intros c e Hc He. rewrite !G. do 2 case_decide; subst; simpl; intros Hdc Hde Ebn.
    + done.
    + exfalso. by apply (Hmiss e).
    + exfalso. by apply (Hmiss c).
    + by apply (br_uniq _ _ R).
  - intros c Hc. rewrite G. case_decide as Hcb; simpl.
    + rewrite (cnt_in n (n :: _)), (cnt_out n (pins m)) by set_solver. done.
    + rewrite (br_refcnt _ _ R c Hc). case_decide as Hdc; [|done]. rewrite cnt_cons; [done|].
      by apply Hmiss.
  - intros k Hk. destruct (br_pinned _ _ R k Hk) as (c & Hc & Hd & Hk'). exists c.
    rewrite G. rewrite decide_False; [done|]. intros ->. subst k. by apply (Hfree Hd).
  - intros k Hk. apply (br_clean _ _ R). rewrite in_use_spec in *. simpl in Hk. set_solver.
Qed.

(** The cache is full only if thirty other blocks are in use. *)
Lemma brep_unused s m n :
  brep s m -> n ∉ in_use m -> (size (in_use m ∪ {[n]}) <= NBUF)%nat ->
  exists b, (b < NBUF)%nat /\ refcnt (getb s b) = 0.
Proof.
  intros R Hn Hsz.
  destruct (decide (Exists (fun b => refcnt (getb s b) = 0) (seq 0 NBUF))) as [E|E].
  { apply Exists_exists in E as (b & Hb & Hr). apply elem_of_seq in Hb. exists b. split; [lia|done]. }
  exfalso. apply not_Exists_Forall in E; [|apply _]. rewrite Forall_forall in E.
  set (blk := fun b => blockno (getb s b)).
  assert (forall b, (b < NBUF)%nat -> dev (getb s b) = ROOTDEV /\ blk b ∈ in_use m) as H.
  { intros b Hb. specialize (E b ltac:(apply elem_of_seq; lia)). simpl in E.
    rewrite (br_refcnt _ _ R b Hb) in E. case_decide as Hd; [|done]. split; [done|].
    rewrite in_use_spec.
    destruct (decide (blk b ∈ (held m).*2)) as [|H1]; [by left|].
    destruct (decide (blk b ∈ pins m)) as [|H2]; [by right|].
    exfalso. apply E. unfold blk in *. by rewrite !cnt_out. }
  assert (NoDup (blk <$> seq 0 NBUF)) as Hnd.
  { apply NoDup_fmap_2_strong; [|apply NoDup_seq]. intros b c Hb Hc Ebc.
    apply elem_of_seq in Hb. apply elem_of_seq in Hc.
    apply (br_uniq _ _ R); [lia|lia|apply H; lia|apply H; lia|exact Ebc]. }
  assert (size (list_to_set (blk <$> seq 0 NBUF) : gset Z) = NBUF) as Hs.
  { rewrite size_list_to_set by done. by rewrite length_fmap, length_seq. }
  assert ((list_to_set (blk <$> seq 0 NBUF) : gset Z) ⊆ in_use m) as Hsub.
  { intros k Hk. apply elem_of_list_to_set, list_elem_of_fmap in Hk as (b & -> & Hb).
    apply H. apply elem_of_seq in Hb. lia. }
  apply subseteq_size in Hsub. rewrite size_union, size_singleton in Hsz by set_solver. lia.
Qed.

Lemma brep_bread s m n :
  brep s m -> n ∉ (held m).*2 -> (size (in_use m ∪ {[n]}) <= NBUF)%nat ->
  exists b s', bread ROOTDEV n s = Ret (b, s') /\ b ∉ (held m).*1 /\
    brep s' {| m with held := (b, n) :: held m |}.
Proof.
  intros R Hn Hsz. destruct (br_dll _ _ R) as (l & D & Hl).
  unfold bread. rewrite (bget_spec _ _ _ _ D).
  destruct (List.find _ l) as [b|] eqn:Hf.
  - apply List.find_some in Hf as [Hb Hf]. apply list_elem_of_In, Hl in Hb.
    unfold holds_block in Hf. to_prop. apply Z.eqb_eq in H, H0.
    destruct (brep_hit s m b n R Hb H H0 Hn) as [Hnb R'].
    pose proof (brep_length _ _ _ R Hb) as Hlen.
    exists b. eexists. split; [|split; [exact Hnb|exact R']].
    unfold mbind, outcome_bind, acquiresleep. rewrite getb_upd_eq by done. simpl.
    rewrite (br_unlocked _ _ R b Hb Hnb). unfold fill.
    rewrite !getb_upd_eq by (rewrite ?length_upd; lia). simpl.
    destruct (br_cached _ _ R b Hb H) as [-> _]. done.
  - assert (forall c, (c < NBUF)%nat -> dev (getb s c) = ROOTDEV -> blockno (getb s c) <> n) as Hmiss.
    { intros c Hc Hd E. pose proof (List.find_none _ _ Hf c) as Hno.
      rewrite <- list_elem_of_In, Hl in Hno. specialize (Hno Hc). unfold holds_block in Hno.
      rewrite Hd, E, !Z.eqb_refl in Hno. done. }
    assert (n ∉ in_use m) as Hu.
    { rewrite in_use_spec. intros [H|H]; [done|].
      destruct (br_pinned _ _ R n H) as (c & Hc & Hd & E). by apply (Hmiss c). }
    destruct (brep_unused s m n R Hu Hsz) as (c & Hc & Hrc).
    destruct (List.find _ (reverse l)) as [b|] eqn:Hf2.
    2:{ exfalso. pose proof (List.find_none _ _ Hf2 c) as Hno.
        rewrite <- list_elem_of_In, elem_of_reverse, Hl in Hno. specialize (Hno Hc).
        unfold unused in Hno. by rewrite Hrc in Hno. }
    apply List.find_some in Hf2 as [Hb Hf2].
    apply list_elem_of_In in Hb. rewrite elem_of_reverse, Hl in Hb.
    unfold unused in Hf2. apply Z.eqb_eq in Hf2.
    destruct (brep_miss s m b n R Hb Hf2 Hmiss Hu) as [Hnb R'].
    pose proof (brep_length _ _ _ R Hb) as Hlen.
    exists b. eexists. split; [|split; [exact Hnb|exact R']].
    unfold mbind, outcome_bind, acquiresleep. rewrite getb_upd_eq by done.
    change (locked (recycle ROOTDEV n (getb s b))) with (locked (getb s b)).
    by rewrite (br_unlocked _ _ R b Hb Hnb).
Qed.

(** ** The operations on a held buffer *)

Lemma held_inj m b c n s : brep s m -> (b, n) ∈ held m -> (c, n) ∈ held m -> b = c.
Proof.
  intros R H1 H2. destruct (br_held _ _ R _ _ H1) as (? & ? & ? & _).
  destruct (br_held _ _ R _ _ H2) as (? & ? & ? & _). apply (br_uniq _ _ R); congruence.
Qed.

Lemma brep_bset s m b n d :
  brep s m -> (b, n) ∈ held m ->
  brep (upd (set_data d) b s) {| m with vw := <[n := d]> (vw m) |}.
Proof.
  intros R Hbn. destruct (br_held _ _ R _ _ Hbn) as (Hb & Hd & Hn & Hlk).
  pose proof (brep_length _ _ _ R Hb) as Hlen.
  assert (forall c, getb (upd (set_data d) b s) c = if decide (c = b) then set_data d (getb s b) else getb s c)
    as G by (intros c; by apply getb_upd).
  set (s' := upd _ _ _) in *.
  assert (forall c, dev (getb s' c) = dev (getb s c) /\ blockno (getb s' c) = blockno (getb s c) /\
    valid (getb s' c) = valid (getb s c) /\
    locked (getb s' c) = locked (getb s c) /\ refcnt (getb s' c) = refcnt (getb s c)) as P
    by (intros c; rewrite G; by case_decide; subst).
  constructor; simpl.
  - by apply (br_dll_upd _ m).
  - apply R.
  - apply R.
  - apply R.
  - apply R.
  - apply R.
  - intros c k Hc. destruct (P c) as (-> & -> & _ & -> & _). by apply (br_held _ _ R).
  - intros c Hc Hcn. destruct (P c) as (_ & _ & _ & -> & _). by apply (br_unlocked _ _ R).
  - intros c Hc. destruct (P c) as (-> & -> & -> & _). intros Hdc.
    destruct (br_cached _ _ R c Hc Hdc) as [Hv Hdat]. split; [done|]. rewrite G.
    case_decide as Hcb.
    + subst. by rewrite disk_upd_eq.
    + rewrite disk_upd_ne; [done|]. intros E. apply Hcb. apply (br_uniq _ _ R); congruence.
  - intros c e. destruct (P c) as (-> & -> & _), (P e) as (-> & -> & _). apply (br_uniq _ _ R).
  - intros c Hc. destruct (P c) as (-> & -> & _ & _ & ->). by apply (br_refcnt _ _ R).
  - intros k Hk. destruct (br_pinned _ _ R k Hk) as (c & ? & ? & ?). exists c.
    by destruct (P c) as (-> & -> & _).
  - intros k Hk. rewrite disk_upd_ne; [by apply (br_clean _ _ R)|].
    intros ->. apply Hk. rewrite in_use_spec. left. by apply (held_snd b).
Qed.

Lemma brep_bwrite s m b n :
  brep s m -> (b, n) ∈ held m ->
  exists s', bwrite b s = Ret s' /\
    brep s' {| m with dk := <[n := vw m n]> (dk m); tr := tr m ++ [(n, vw m n)] |}.
Proof.
  intros R Hbn. destruct (br_held _ _ R _ _ Hbn) as (Hb & Hd & Hn & Hlk).
  destruct (br_cached _ _ R b Hb Hd) as [_ Hdat].
  unfold bwrite. rewrite Hlk. simpl. eexists. split; [done|].
  destruct R as [(l & [D1 D2 D3 D4] & Hl) R2 R3 R4 R5 R6 R7 R8 R9 R10 R11 R12 R13].
  constructor; simpl; try done.
  - exists l. split; [constructor; [done..|]|done].
    eapply path_ext; [exact D4|]. done.
  - intros k. rewrite Hdat, Hn. destruct (decide (n = k)) as [->|Hne].
    + by rewrite !disk_upd_eq.
    + rewrite !disk_upd_ne by done. apply R2.
  - by rewrite R3, Hdat, Hn.
  - intros k Hk. destruct (decide (n = k)) as [->|Hne].
    + by rewrite disk_upd_eq.
    + rewrite disk_upd_ne by done. by apply R13.
Qed.

Lemma brep_brelse s m h1 b n h2 :
  brep s m -> held m = h1 ++ (b, n) :: h2 -> (n ∈ pins m \/ vw m n = dk m n) ->
  exists s', brelse b s = Ret s' /\ brep s' {| m with held := h1 ++ h2 |}.
Proof.
  intros R Hh Hc. assert ((b, n) ∈ held m) as Hbn by (rewrite Hh; set_solver).
  destruct (br_held _ _ R _ _ Hbn) as (Hb & Hd & Hn & Hlk).
  destruct (br_dll _ _ R) as (l & D & Hl).
  destruct (brelse_spec s l b D ltac:(by apply Hl) Hlk) as (s' & E & D' & Hdisk & Hwr & C).
  exists s'. split; [done|].
  pose proof (br_handles _ _ R) as N1. pose proof (br_blocks _ _ R) as N2.
  rewrite Hh, fmap_app in N1. rewrite Hh, fmap_app in N2. simpl in N1, N2.
  assert (NoDup (h1 ++ h2).*1 /\ b ∉ (h1 ++ h2).*1) as [N1' Nb].
  { rewrite fmap_app. apply NoDup_app in N1 as (Na & Nb & Nc). apply NoDup_cons in Nc as [Nc Nd].
    split; [apply NoDup_app; set_solver|]. rewrite elem_of_app. intros [H|H]; [|done].
    apply (Nb b H). set_solver. }
  assert (NoDup (h1 ++ h2).*2 /\ n ∉ (h1 ++ h2).*2) as [N2' Nn].
  { rewrite fmap_app. apply NoDup_app in N2 as (Na & Nb' & Nc). apply NoDup_cons in Nc as [Nc Nd].
    split; [apply NoDup_app; set_solver|]. rewrite elem_of_app. intros [H|H]; [|done].
    apply (Nb' n H). set_solver. }
  assert (forall k, k <> n -> k ∈ (h1 ++ h2).*2 <-> k ∈ (held m).*2) as Hk2.
  { intros k Hk. rewrite Hh, !fmap_app. simpl. set_solver. }
  assert (forall c, c <> b -> c ∈ (h1 ++ h2).*1 <-> c ∈ (held m).*1) as Hk1.
  { intros k Hk. rewrite Hh, !fmap_app. simpl. set_solver. }
  assert (forall c, dev (getb s' c) = dev (getb s c) /\ blockno (getb s' c) = blockno (getb s c) /\
    valid (getb s' c) = valid (getb s c) /\ data (getb s' c) = data (getb s c)) as P.
  { intros c. specialize (C c). unfold core in C. case_decide; subst; simpl in C; naive_solver congruence. }
  assert (forall c, c <> b -> locked (getb s' c) = locked (getb s c) /\
                              refcnt (getb s' c) = refcnt (getb s c)) as Q.
  { intros c Hcb. specialize (C c). rewrite decide_False in C by done. unfold core in C. naive_solver congruence. }
  assert (locked (getb s' b) = false /\ refcnt (getb s' b) = u32 (refcnt (getb s b) - 1)) as [Lb Rb].
  { specialize (C b). rewrite decide_True in C by done. unfold core in C. simpl in C. naive_solver congruence. }
  constructor; simpl; try done.
  - eexists. split; [exact D'|]. intros c. rewrite <- Hl. case_match; [|done].
    unfold lru_front. rewrite elem_of_cons, list_elem_of_In, List.filter_In, <- list_elem_of_In, negb_true_iff, Nat.eqb_neq.
    destruct (decide (c = b)) as [->|Hne]; [|naive_solver].
    split; [intros _; by apply Hl|by left].
  - intros k. rewrite Hdisk. apply R.
  - rewrite Hwr. apply R.
  - apply R.
  - intros c k Hck. destruct (P c) as (-> & -> & _). assert ((c, k) ∈ held m) as H by (rewrite Hh; set_solver).
    destruct (br_held _ _ R _ _ H) as (? & ? & ? & ?). split_and!; [done..|].
    assert (c <> b) as Hcb by (intros ->; by apply Nb, (held_fst _ k)).
    by destruct (Q c Hcb) as [-> _].
  - intros c Hc' Hcn. destruct (decide (c = b)) as [->|Hcb]; [done|].
    destruct (Q c Hcb) as [-> _]. apply (br_unlocked _ _ R); [done|]. by rewrite <- Hk1.
  - intros c Hc'. destruct (P c) as (-> & -> & -> & ->). by apply (br_cached _ _ R).
  - intros c e. destruct (P c) as (-> & -> & _), (P e) as (-> & -> & _). apply (br_uniq _ _ R).
  - intros c Hc'. destruct (P c) as (-> & -> & _). pose proof (br_refcnt _ _ R c Hc') as Hr.
    destruct (decide (c = b)) as [->|Hcb].
    + rewrite Rb, Hr. rewrite !decide_True by done. rewrite Hn.
      rewrite (cnt_out n (h1 ++ h2).*2) by done. rewrite (cnt_in n (held m).*2) by by apply (held_snd b).
      pose proof (cnt_range n (pins m)). rewrite wrapu_small; lia.
    + destruct (Q c Hcb) as [_ ->]. rewrite Hr. case_decide as Hdc; [|done]. f_equal.
      apply cnt_iff. symmetry. apply Hk2. intros Ek. apply Hcb. apply (br_uniq _ _ R); congruence.
  - intros k Hk. destruct (br_pinned _ _ R k Hk) as (c & ? & ? & ?). exists c.
    by destruct (P c) as (-> & -> & _).
  - intros k Hk. destruct (decide (k = n)) as [->|Hkn].
    + destruct Hc as [Hc|Hc]; [|done]. exfalso. apply Hk. rewrite in_use_spec. by right.
    + apply (br_clean _ _ R). rewrite in_use_spec in *. simpl in Hk. rewrite Hk2 in Hk by done. done.
Qed.

(** Changing the pins and the count of the held buffer [b] together. *)
Lemma brep_repin s m b n r p' :
  brep s m -> (b, n) ∈ held m -> NoDup p' ->
  (forall k, k <> n -> k ∈ p' <-> k ∈ pins m) -> r = 1 + cnt n p' ->
  brep (upd (set_refcnt r) b s) {| m with pins := p' |}.
Proof.
  intros R Hbn Np Hp Hr. destruct (br_held _ _ R _ _ Hbn) as (Hb & Hd & Hn & Hlk).
  pose proof (brep_length _ _ _ R Hb) as Hlen.
  assert (forall c, getb (upd (set_refcnt r) b s) c = if decide (c = b) then set_refcnt r (getb s b) else getb s c)
    as G by (intros c; by apply getb_upd).
  set (s' := upd _ _ _) in *.
  assert (forall c, dev (getb s' c) = dev (getb s c) /\ blockno (getb s' c) = blockno (getb s c) /\
    valid (getb s' c) = valid (getb s c) /\
    locked (getb s' c) = locked (getb s c) /\ data (getb s' c) = data (getb s c)) as P
    by (intros c; rewrite G; by case_decide; subst).
  constructor; simpl; try (apply R || done).
  - by apply (br_dll_upd _ m).
  - intros c k Hc. destruct (P c) as (-> & -> & _ & -> & _). by apply (br_held _ _ R).
  - intros c Hc Hcn. destruct (P c) as (_ & _ & _ & -> & _). by apply (br_unlocked _ _ R).
  - intros c Hc. destruct (P c) as (-> & -> & -> & _ & ->). by apply (br_cached _ _ R).
  - intros c e. destruct (P c) as (-> & -> & _), (P e) as (-> & -> & _). apply (br_uniq _ _ R).
  - intros c Hc. destruct (P c) as (-> & -> & _). rewrite G. case_decide as Hcb.
    + subst c. simpl. rewrite decide_True by done. rewrite Hn, Hr.
      by rewrite (cnt_in n (held m).*2) by by apply (held_snd b).
    + rewrite (br_refcnt _ _ R c Hc). case_decide as Hdc; [|done]. f_equal. apply cnt_iff.
      symmetry. apply Hp. intros Ek. apply Hcb. apply (br_uniq _ _ R); congruence.
  - intros k Hk. destruct (decide (k = n)) as [->|Hkn].
    + exists b. by destruct (P b) as (-> & -> & _).
    + apply Hp in Hk; [|done]. destruct (br_pinned _ _ R k Hk) as (c & ? & ? & ?). exists c.
      by destruct (P c) as (-> & -> & _).
  - intros k Hk. apply (br_clean _ _ R). rewrite in_use_spec in *. simpl in Hk.
    destruct (decide (k = n)) as [->|Hkn]; [exfalso; apply Hk; left; by apply (held_snd b)|].
    rewrite <- (Hp k Hkn). done.
Qed.

Lemma held_refcnt s m b n :
  brep s m -> (b, n) ∈ held m -> refcnt (getb s b) = 1 + cnt n (pins m).
Proof.
  intros R Hbn. destruct (br_held _ _ R _ _ Hbn) as (Hb & Hd & Hn & Hlk).
  rewrite (br_refcnt _ _ R b Hb), decide_True, Hn by done.
  by rewrite (cnt_in n (held m).*2) by by apply (held_snd b).
Qed.

Lemma upd_refcnt_eq f b s :
  upd (fun u => set_refcnt (f (refcnt u)) u) b s = upd (set_refcnt (f (refcnt (getb s b)))) b s.
Proof.
  unfold upd, getb. f_equal. apply list_eq. intros i.
  destruct (decide (i = b)) as [->|Hne].
  - rewrite !list_lookup_alter_eq. by destruct (bufs s !! b).
  - by rewrite !list_lookup_alter_ne.
Qed.

#[export] Instance bio_laws : BufCacheLaws bcache brep.
Proof.
  constructor.
  - apply brep_boot.
  - apply brep_bread.
  - intros s m b n R Hbn. destruct (br_held _ _ R _ _ Hbn) as (Hb & Hd & Hn & _).
    destruct (br_cached _ _ R b Hb Hd) as [_ Hdat]. simpl. by rewrite Hdat, Hn.
  - intros s m R. apply (br_written _ _ R).
  - apply brep_bset.
  - apply brep_bwrite.
  - apply brep_brelse.
  - intros s m b n R Hbn Hp. simpl. unfold bpin.
    rewrite (upd_refcnt_eq (fun r => u32 (r + 1))). rewrite (held_refcnt s m b n R Hbn).
    rewrite (cnt_out n (pins m)) by done.
    apply (brep_repin s m b n); [done|done|constructor; [done|apply R]|set_solver|].
    by rewrite (cnt_in n (n :: _)) by set_solver.
  - intros s m b n p1 p2 R Hbn Hp. simpl. unfold bunpin.
    pose proof (br_pins _ _ R) as Np. rewrite Hp in Np.
    apply NoDup_app in Np as (Na & Nb & Nc). apply NoDup_cons in Nc as [Nc Nd].
    rewrite (upd_refcnt_eq (fun r => u32 (r - 1))). rewrite (held_refcnt s m b n R Hbn).
    rewrite Hp. rewrite (cnt_in n (p1 ++ _)) by set_solver.
    apply (brep_repin s m b n); [done|done|apply NoDup_app; set_solver|rewrite Hp; set_solver|].
    rewrite cnt_out; [done|]. rewrite elem_of_app. intros [H|H]; [|done]. apply (Nb n H). set_solver.
  - intros s m n R Hn. by apply (br_clean _ _ R).
  - intros s m R. split_and!; apply R.
Qed.

End BioRep.
