(* ===== verification/Log.v ===== *)
(** * The write-ahead log (xv6-memory-management/kernel/log.c)

    Over any implementation of the buffer cache's interface.  [lh_block] is
    the in-memory array of LOGBLOCKS entries; block numbers are kept as the
    unsigned numbers the cache is called with. *)
From S2P Require Import Prelude Mem Buf.

#[local] Open Scope Z_scope.

Module Log.
Import Buf.

Record log := mk_log {
  start : Z;
  outstanding : Z;       (* int *)
  committing : bool;
  lh_n : Z;              (* lh.n *)
  lh_block : list Z      (* lh.block *)
}.

(** struct logheader at the start of the header block *)
Definition hdr_n (d : block) : Z := i32 (get32 d 0).
Definition hdr_block (d : block) (i : nat) : Z := get32 d (4 + 4 * Z.of_nat i).

Definition blk (l : log) (i : nat) : Z := default 0 (lh_block l !! i).
Definition tails (l : log) : list nat := seq 0 (Z.to_nat (lh_n l)).

(** [hb->n = n; for (i...) hb->block[i] = block[i]] *)
Definition fill_header (n : Z) (bs : list Z) (d : block) : block :=
  fold_left (fun d p => put32 d (4 + 4 * Z.of_nat p.1) p.2) (zip (seq 0 (length bs)) bs)
            (put32 d 0 (u32 n)).

Section log.
Context {B : Type} `{BufCache B}.

(** [for (tail = 0; tail < n; tail++)] *)
Fixpoint for_each (f : nat -> B -> outcome B) (tl : list nat) (s : B) : outcome B :=
  match tl with
  | [] => Ret s
  | i :: tl' => s ← f i s; for_each f tl' s
  end.

Definition install_one (l : log) (recovering : bool) (tail : nat) (s : B) : outcome B :=
  '(lbuf, s) ← bread (start l + Z.of_nat tail + 1) s;
  '(dbuf, s) ← bread (blk l tail) s;
  let s := bset dbuf (bdata s lbuf) s in
  s ← bwrite dbuf s;
  let s := if recovering then s else bunpin dbuf s in
  s ← brelse lbuf s;
  brelse dbuf s.

Definition install_trans (l : log) (recovering : bool) (s : B) : outcome B :=
  for_each (install_one l recovering) (tails l) s.

(** The in-memory array has LOGBLOCKS entries. *)
Definition read_head (l : log) (s : B) : outcome (log * B) :=
  '(b, s) ← bread (start l) s;
  let d := bdata s b in
  let n := hdr_n d in
  if LOGBLOCKS <? n then Undef "read_head: log.lh.block"
  else
    let k := Z.to_nat n in
    let l := {| l with lh_n := n;
                       lh_block := (hdr_block d <$> seq 0 k) ++ drop k (lh_block l) |} in
    s ← brelse b s;
    Ret (l, s).

Definition write_head (l : log) (s : B) : outcome B :=
  '(b, s) ← bread (start l) s;
  let s := bset b (fill_header (lh_n l) (take (Z.to_nat (lh_n l)) (lh_block l)) (bdata s b)) s in
  s ← bwrite b s;
  brelse b s.

Definition recover_from_log (l : log) (s : B) : outcome (log * B) :=
  '(l, s) ← read_head l s;
  s ← install_trans l true s;
  let l := {| l with lh_n := 0 |} in
  s ← write_head l s;
  Ret (l, s).

(** The static, zeroed [log] with its start set. *)
Definition initlog (logstart : Z) (s : B) : outcome (log * B) :=
  recover_from_log (mk_log logstart 0 false 0 (replicate (Z.to_nat LOGBLOCKS) 0)) s.

Definition write_one (l : log) (tail : nat) (s : B) : outcome B :=
  '(to, s) ← bread (start l + Z.of_nat tail + 1) s;
  '(from, s) ← bread (blk l tail) s;
  let s := bset to (bdata s from) s in
  s ← bwrite to s;
  s ← brelse from s;
  brelse to s.

Definition write_log (l : log) (s : B) : outcome B := for_each (write_one l) (tails l) s.

Definition commit (l : log) (s : B) : outcome (log * B) :=
  if 0 <? lh_n l then
    s ← write_log l s;
    s ← write_head l s;
    s ← install_trans l false s;
    let l := {| l with lh_n := 0 |} in
    s ← write_head l s;
    Ret (l, s)
  else Ret (l, s).

(** [None]: the caller sleeps on the log and tries again. *)
Definition begin_op (l : log) : option log :=
  if committing l then None
  else if LOGBLOCKS <? lh_n l + (outstanding l + 1) * MAXOPBLOCKS then None
  else Some {| l with outstanding := outstanding l + 1 |}.

(** [end_op] before the commit: the flag tells whether to commit. *)
Definition end_op_start (l : log) : outcome (bool * log) :=
  let l := {| l with outstanding := outstanding l - 1 |} in
  if committing l then Panic "log.committing"
  else if outstanding l =? 0 then Ret (true, {| l with committing := true |})
  else Ret (false, l).

Definition end_op (l : log) (s : B) : outcome (log * B) :=
  '(do_commit, l) ← end_op_start l;
  if do_commit : bool then
    '(l, s) ← commit l s;
    Ret ({| l with committing := false |}, s)
  else Ret (l, s).

(** [log_write] on the log: whether the block is new and must be pinned. *)
Definition note_block (n : Z) (l : log) : outcome (bool * log) :=
  if LOGBLOCKS <=? lh_n l then Panic "too big a transaction"
  else if outstanding l <? 1 then Panic "log_write outside of trans"
  else
    match find_idx (fun x => x =? n) (take (Z.to_nat (lh_n l)) (lh_block l)) with
    | Some i => Ret (false, {| l with lh_block := <[i := n]> (lh_block l) |})
    | None =>
        Ret (true, {| l with lh_block := <[Z.to_nat (lh_n l) := n]> (lh_block l);
                             lh_n := lh_n l + 1 |})
    end.

Definition log_write (b : nat) (l : log) (s : B) : outcome (log * B) :=
  '(is_new, l) ← note_block (bblockno s b) l;
  Ret (l, if is_new : bool then bpin b s else s).

End log.

(** ** Operations in progress

    What each open system call has logged since its [begin_op]. *)
Record txs := mk_txs { the_log : log; ops : list (gset Z) }.

Inductive tx_step : txs -> txs -> Prop :=
| tx_begin t l : begin_op (the_log t) = Some l -> tx_step t (mk_txs l (∅ :: ops t))
| tx_write t i w n is_new l :
    ops t !! i = Some w -> (size w < Z.to_nat MAXOPBLOCKS)%nat ->
    note_block n (the_log t) = Ret (is_new, l) ->
    tx_step t (mk_txs l (<[i := {[n]} ∪ w]> (ops t)))
| tx_end t i l :
    (i < length (ops t))%nat -> end_op_start (the_log t) = Ret (false, l) ->
    tx_step t (mk_txs l (delete i (ops t)))
| tx_commit t i l :
    (i < length (ops t))%nat -> end_op_start (the_log t) = Ret (true, l) ->
    tx_step t (mk_txs {| l with lh_n := 0; committing := false |} (delete i (ops t))).

End Log.
