(* ===== verification/LogFacts.v ===== *)
(** * What each procedure of the log writes to the disk. *)
From S2P Require Import Prelude Mem Buf Log.

#[local] Open Scope Z_scope.

Module LogFacts.
Import Buf Log.

(** ** Sequences of block writes *)

Lemma apply_writes_app ws1 ws2 d :
  apply_writes (ws1 ++ ws2) d = apply_writes ws2 (apply_writes ws1 d).
Proof. apply fold_left_app. Qed.

Lemma apply_writes_other ws d n : n ∉ ws.*1 -> apply_writes ws d n = d n.
Proof.
  revert d. induction ws as [|[k b] ws IH]; intros d Hn; [done|]. simpl in *.
  rewrite IH by set_solver. apply disk_upd_ne. set_solver.
Qed.

Lemma apply_writes_value ws d n v :
  (n ∈ ws.*1 \/ d n = v) -> (forall b, (n, b) ∈ ws -> b = v) -> apply_writes ws d n = v.
Proof.
  revert d. induction ws as [|[k b] ws IH]; intros d Hn Hv; simpl in *.
  { destruct Hn as [Hn|Hn]; [set_solver|done]. }
  apply IH; [|set_solver]. destruct (decide (k = n)) as [->|Hk].
  - right. rewrite disk_upd_eq. apply Hv. set_solver.
  - rewrite disk_upd_ne by done. set_solver.
Qed.

Lemma apply_writes_agree ws d d' n : d n = d' n -> apply_writes ws d n = apply_writes ws d' n.
Proof.
  revert d d'. induction ws as [|[k b] ws IH]; intros d d' E; [done|]. simpl. apply IH.
  destruct (decide (k = n)) as [->|Hk]; [by rewrite !disk_upd_eq|by rewrite !disk_upd_ne].
Qed.

(** [P] holds of the disk after every prefix of the writes [ws]. *)
Definition through (P : disk -> Prop) (ws : list (Z * block)) (d : disk) : Prop :=
  forall k, P (apply_writes (take k ws) d).

Lemma through_app P ws1 ws2 d :
  through P ws1 d -> through P ws2 (apply_writes ws1 d) -> through P (ws1 ++ ws2) d.
Proof.
  intros H1 H2 k. rewrite take_app, apply_writes_app.
  destruct (decide (k <= length ws1)%nat) as [Hk|Hk].
  - replace (k - length ws1)%nat with 0%nat by lia. rewrite take_0. apply H1.
  - rewrite (take_ge ws1) by lia. apply H2.
Qed.

Lemma through_inv (P : disk -> Prop) ws d :
  P d -> (forall w d, w ∈ ws -> P d -> P (<[w.1 := w.2]> d)) -> through P ws d.
Proof.
  intros Hd Hw k. revert d k Hd. induction ws as [|w ws IH]; intros d k Hd.
  - by rewrite take_nil.
  - destruct k as [|k]; [done|]. simpl. apply IH; [set_solver|]. apply Hw; [set_solver|done].
Qed.

Lemma through_one (P : disk -> Prop) w d : P d -> P (<[w.1 := w.2]> d) -> through P [w] d.
Proof. intros H1 H2 [|k]; [done|]. simpl. by rewrite take_nil. Qed.

Lemma through_all P ws d : through P ws d -> P (apply_writes ws d).
Proof. intros H. specialize (H (length ws)). by rewrite firstn_all in H. Qed.

Lemma through_weaken (P Q : disk -> Prop) ws d :
  (forall d, P d -> Q d) -> through P ws d -> through Q ws d.
Proof. intros H HP k. apply H, HP. Qed.

(** ** The header block *)

Lemma fill_header_other n bs d off :
  4 + 4 * Z.of_nat (length bs) <= off -> get32 (fill_header n bs d) off = get32 d off.
Proof.
  intros Ho. unfold fill_header. assert (get32 (put32 d 0 (u32 n)) off = get32 d off) as <-
    by (apply get32_put32_ne; lia).
  generalize (put32 d 0 (u32 n)). revert Ho. rewrite <- (Nat.add_0_l (length bs)) at 1.
  generalize 0%nat. induction bs as [|b bs IH]; intros i Ho d'; [done|].
  simpl. rewrite IH by (cbn [length] in Ho; lia). apply get32_put32_ne. cbn [fst length] in *. lia.
Qed.

Lemma fold_header_n i bs d :
  get32 (fold_left (fun d p => put32 d (4 + 4 * Z.of_nat p.1) p.2) (zip (seq i (length bs)) bs) d) 0
  = get32 d 0.
Proof.
  revert i d. induction bs as [|b bs IH]; intros i d; [done|]. simpl. rewrite IH.
  apply get32_put32_ne. simpl. lia.
Qed.

Lemma hdr_n_fill n bs d : 0 <= n <= 30 -> hdr_n (fill_header n bs d) = n.
Proof.
  intros Hn. unfold hdr_n, fill_header. rewrite fold_header_n, get32_put32.
  - rewrite wrapu_small by lia. apply i32_small. lia.
  - apply wrapu_range. lia.
Qed.

Lemma fold_header_block i bs d k :
  (forall b, b ∈ bs -> 0 <= b < 2 ^ 32) ->
  hdr_block (fold_left (fun d p => put32 d (4 + 4 * Z.of_nat p.1) p.2)
               (zip (seq i (length bs)) bs) d) k
  = if decide (i <= k)%nat then default (hdr_block d k) (bs !! (k - i)%nat) else hdr_block d k.
Proof.
  revert i d. induction bs as [|b bs IH]; intros i d Hb.
  - simpl. by case_decide.
  - simpl. rewrite IH by set_solver. unfold hdr_block.
    destruct (decide (i = k)) as [->|Hik].
    + rewrite decide_False by lia. rewrite decide_True by lia.
      rewrite Nat.sub_diag. simpl. apply get32_put32, Hb. set_solver.
    + rewrite !get32_put32_ne by (simpl; lia).
      destruct (decide (i <= k)%nat).
      * rewrite !decide_True by lia. by replace (k - i)%nat with (S (k - S i)) by lia.
      * by rewrite !decide_False by lia.
Qed.

Lemma hdr_block_fill n bs d i b :
  (forall b, b ∈ bs -> 0 <= b < 2 ^ 32) -> bs !! i = Some b ->
  hdr_block (fill_header n bs d) i = b.
Proof.
  intros Hb Hi. unfold fill_header. rewrite fold_header_block by done.
  rewrite decide_True, Nat.sub_0_r, Hi by lia. done.
Qed.

(** ** The procedures *)

(** Blocks that are not part of the log on disk. *)
Definition home (st n : Z) : Prop := n < st \/ st + LOGBLOCKS < n.

(** What [write_log] and [install_trans] write, from position [i] on. *)
Fixpoint log_writes (st : Z) (f : disk) (i : nat) (bs : list Z) : list (Z * block) :=
  match bs with
  | [] => []
  | b :: bs' => (st + Z.of_nat i + 1, f b) :: log_writes st f (S i) bs'
  end.
Fixpoint home_writes (st : Z) (f : disk) (i : nat) (bs : list Z) : list (Z * block) :=
  match bs with
  | [] => []
  | b :: bs' => (b, f (st + Z.of_nat i + 1)) :: home_writes st f (S i) bs'
  end.

Lemma log_writes_ext st f g i bs :
  (forall b, b ∈ bs -> f b = g b) -> log_writes st f i bs = log_writes st g i bs.
Proof.
  revert i. induction bs as [|b bs IH]; intros i H; simpl; [done|].
  rewrite H by set_solver. f_equal. apply IH. set_solver.
Qed.

Lemma home_writes_ext st f g i bs :
  (forall j, (j < length bs)%nat -> f (st + Z.of_nat (i + j) + 1) = g (st + Z.of_nat (i + j) + 1)) ->
  home_writes st f i bs = home_writes st g i bs.
Proof.
  revert i. induction bs as [|b bs IH]; intros i H; simpl; [done|]. f_equal.
  - f_equal. specialize (H 0%nat). rewrite Nat.add_0_r in H. apply H. simpl. lia.
  - apply IH. intros j Hj. specialize (H (S j)). rewrite Nat.add_succ_r in H. apply H. simpl. lia.
Qed.

Lemma elem_of_log_writes st f i bs w :
  w ∈ log_writes st f i bs ->
  exists j b, bs !! j = Some b /\ w = (st + Z.of_nat (i + j) + 1, f b).
Proof.
  revert i. induction bs as [|b bs IH]; intros i H; simpl in H; [set_solver|].
  apply elem_of_cons in H as [->|H].
  - exists 0%nat, b. by rewrite Nat.add_0_r.
  - apply IH in H as (j & c & Hj & ->). exists (S j), c. by rewrite Nat.add_succ_r.
Qed.

Lemma elem_of_home_writes st f i bs w :
  w ∈ home_writes st f i bs ->
  exists j b, bs !! j = Some b /\ w = (b, f (st + Z.of_nat (i + j) + 1)).
Proof.
  revert i. induction bs as [|b bs IH]; intros i H; simpl in H; [set_solver|].
  apply elem_of_cons in H as [->|H].
  - exists 0%nat, b. by rewrite Nat.add_0_r.
  - apply IH in H as (j & c & Hj & ->). exists (S j), c. by rewrite Nat.add_succ_r.
Qed.

Lemma fst_home_writes st f i bs : (home_writes st f i bs).*1 = bs.
Proof. revert i. induction bs as [|b bs IH]; intros i; simpl; [done|]. by rewrite IH. Qed.

Lemma length_log_writes st f i bs : length (log_writes st f i bs) = length bs.
Proof. revert i. induction bs as [|b bs IH]; intros i; simpl; [done|]. by rewrite IH. Qed.

(** The value a log block receives. *)
Lemma log_writes_at st f i bs j b d :
  bs !! j = Some b ->
  apply_writes (log_writes st f i bs) d (st + Z.of_nat (i + j) + 1) = f b.
Proof.
  intros Hj. apply apply_writes_value.
  - left. revert i j Hj. induction bs as [|c bs IH]; intros i [|j] Hj; simplify_eq/=.
    + rewrite Nat.add_0_r. set_solver.
    + apply elem_of_cons. right. rewrite Nat.add_succ_r. by apply (IH (S i)).
  - intros v Hv. apply elem_of_log_writes in Hv as (j' & b' & Hj' & E). simplify_eq.
    replace j' with j in Hj' by lia. by simplify_eq.
Qed.

Section laws.
Context {B : Type} `{HB : BufCache B} {rep : B -> cmodel -> Prop} `{HL : !BufCacheLaws B rep}.

(** The abstract cache after writing blocks through. *)
Definition puts (ws : list (Z * block)) (m : cmodel) : cmodel :=
  mk_cmodel (apply_writes ws (vw m)) (apply_writes ws (dk m)) (tr m ++ ws) (held m) (pins m).

Definition with_pins (p : list Z) (m : cmodel) : cmodel := {| m with pins := p |}.

Lemma puts_app ws1 ws2 m : puts ws2 (puts ws1 m) = puts (ws1 ++ ws2) m.
Proof. unfold puts. simpl. by rewrite !apply_writes_app, app_assoc. Qed.

Lemma with_pins_puts p p' ws1 ws2 m :
  with_pins p (puts ws2 (with_pins p' (puts ws1 m))) = with_pins p (puts (ws1 ++ ws2) m).
Proof. unfold with_pins, puts. simpl. by rewrite !apply_writes_app, app_assoc. Qed.

Lemma size_list_to_set_le (l : list Z) : (size (list_to_set l : gset Z) <= length l)%nat.
Proof.
  induction l as [|x l IH]; [by rewrite list_to_set_nil, size_empty|].
  rewrite list_to_set_cons, size_union_alt, size_singleton.
  assert (size (list_to_set l ∖ {[x]} : gset Z) <= size (list_to_set l : gset Z))%nat
    by (apply subseteq_size; set_solver).
  cbn [length]. lia.
Qed.

Lemma room m (l : list Z) :
  held m = [] -> (length (pins m) + length l <= NBUF)%nat ->
  (size (in_use m ∪ list_to_set l) <= NBUF)%nat.
Proof.
  intros Hh Hl. unfold in_use. rewrite Hh. simpl. rewrite <- list_to_set_app_L.
  etrans; [apply size_list_to_set_le|]. by rewrite length_app.
Qed.

(** Two buffers read one after the other. *)
Lemma read_two s m a c :
  rep s m -> held m = [] -> a <> c -> (length (pins m) + 2 <= NBUF)%nat ->
  exists x s1 y s2, bread a s = Ret (x, s1) /\ bread c s1 = Ret (y, s2) /\
    rep s2 {| m with held := [(y, c); (x, a)] |}.
Proof.
  intros R Hh Hac Hr.
  destruct (bread_law s m a R) as (x & s1 & E1 & _ & R1).
  { rewrite Hh. set_solver. }
  { etrans; [|apply (room m [a; c] Hh Hr)]. apply subseteq_size. set_solver. }
  destruct (bread_law s1 _ c R1) as (y & s2 & E2 & _ & R2).
  { simpl. rewrite Hh. set_solver. }
  { etrans; [|apply (room m [a; c] Hh Hr)]. apply subseteq_size.
    unfold in_use. simpl. rewrite Hh. set_solver. }
  exists x, s1, y, s2. split_and!; [done|done|]. simpl in R2. by rewrite Hh in R2.
Qed.

(** An assignment to a held buffer's data followed by [bwrite]. *)
Lemma put_held s m b n d :
  rep s m -> (b, n) ∈ held m ->
  exists s', bwrite b (bset b d s) = Ret s' /\ rep s' (puts [(n, d)] m).
Proof.
  intros R Hb. pose proof (bset_law s m b n d R Hb) as R1.
  destruct (bwrite_law (bset b d s) {| m with vw := <[n := d]> (vw m) |} b n R1 Hb) as (s' & E & R2). exists s'. split; [done|].
  simpl in R2. rewrite disk_upd_eq in R2. exact R2.
Qed.

Lemma install_one_spec l (r : bool) tail s m p' :
  let a := start l + Z.of_nat tail + 1 in let c := blk l tail in
  rep s m -> held m = [] -> a <> c -> a ∉ pins m -> (length (pins m) + 2 <= NBUF)%nat ->
  (if r then p' = pins m /\ c ∉ pins m
   else exists p1 p2, pins m = p1 ++ c :: p2 /\ p' = p1 ++ p2) ->
  exists s', install_one l r tail s = Ret s' /\
    rep s' (with_pins p' (puts [(c, vw m a)] m)).
Proof.
  intros a c R Hh Hac Ha Hroom Hp. unfold install_one. fold a c.
  destruct (read_two s m a c R Hh Hac Hroom) as (x & s1 & y & s2 & E1 & E2 & R2).
  unfold mbind, outcome_bind. rewrite E1, E2.
  destruct (bdata_law s2 _ x a R2) as [-> _]; [simpl; set_solver|]. simpl.
  destruct (put_held s2 _ y c (vw m a) R2) as (s3 & -> & R3); [simpl; set_solver|].
  assert (vw m a = dk m a) as Hcl.
  { apply (clean_law s); [done|]. unfold in_use. rewrite Hh. set_solver. }
  set (s4 := if r then s3 else bunpin y s3).
  assert (rep s4 (with_pins p' (puts [(c, vw m a)] {| m with held := [(y, c); (x, a)] |}))) as R4.
  { unfold s4. destruct r; [destruct Hp as [-> _]; exact R3|].
    destruct Hp as (p1 & p2 & Hp & ->). apply (bunpin_law s3 _ y c p1 p2 R3); [simpl; set_solver|exact Hp]. }
  simpl in R4.
  destruct (brelse_law s4 _ [(y, c)] x a [] R4) as (s5 & -> & R5); [done| |].
  { right. simpl. by rewrite !disk_upd_ne. }
  destruct (brelse_law s5 _ [] y c [] R5) as (s6 & -> & R6); [done| |].
  { right. simpl. by rewrite !disk_upd_eq. }
  exists s6. split; [done|]. simpl in R6. destruct m; simpl in *; subst. exact R6.
Qed.

Lemma write_one_spec l tail s m :
  let a := start l + Z.of_nat tail + 1 in let c := blk l tail in
  rep s m -> held m = [] -> a ∉ pins m -> c ∈ pins m -> (length (pins m) + 2 <= NBUF)%nat ->
  exists s', write_one l tail s = Ret s' /\ rep s' (puts [(a, vw m c)] m).
Proof.
  intros a c R Hh Ha Hc Hroom. unfold write_one. fold a c.
  destruct (read_two s m a c R Hh ltac:(congruence) Hroom) as (x & s1 & y & s2 & E1 & E2 & R2).
  unfold mbind, outcome_bind. rewrite E1, E2.
  destruct (bdata_law s2 _ y c R2) as [-> _]; [simpl; set_solver|]. simpl.
  destruct (put_held s2 _ x a (vw m c) R2) as (s3 & -> & R3); [simpl; set_solver|].
  destruct (brelse_law s3 _ [] y c [(x, a)] R3) as (s5 & -> & R5); [done|by left|].
  destruct (brelse_law s5 _ [] x a [] R5) as (s6 & -> & R6); [done| |].
  { right. simpl. by rewrite !disk_upd_eq. }
  exists s6. split; [done|]. simpl in R6. destruct m; simpl in *; subst. exact R6.
Qed.

(** The hypotheses the loops share: the blocks of a transaction are at home,
    the log fits, and no buffer is held. *)
Record loop_ok (l : log) (i : nat) (bs : list Z) (m : cmodel) : Prop := mk_loop_ok {
  lo_held : held m = [];
  lo_blk : forall j b, bs !! j = Some b -> blk l (i + j) = b;
  lo_home : forall b, b ∈ bs -> home (start l) b;
  lo_pins : forall b, b ∈ pins m -> home (start l) b;
  lo_room : (length (pins m) + 2 <= NBUF)%nat;
  lo_fit : (i + length bs <= 30)%nat
}.

Lemma loop_ok_step l i b bs m ws p' :
  loop_ok l i (b :: bs) m -> p' ⊆ pins m -> (length p' <= length (pins m))%nat ->
  loop_ok l (S i) bs (with_pins p' (puts ws m)).
Proof.
  intros [H1 H2 H3 H4 H5 H6] Hp Hl. constructor; simpl in *; [done| |set_solver|set_solver|lia|lia].
  intros j c Hj. specialize (H2 (S j) c Hj). by rewrite Nat.add_succ_r in H2.
Qed.

Lemma home_not_log l i b : (i < 30)%nat -> home (start l) b -> start l + Z.of_nat i + 1 <> b.
Proof. unfold home, LOGBLOCKS. lia. Qed.

Lemma write_loop l bs : forall i s m,
  rep s m -> loop_ok l i bs m -> (forall b, b ∈ bs -> b ∈ pins m) ->
  exists s', for_each (write_one l) (seq i (length bs)) s = Ret s' /\
    rep s' (puts (log_writes (start l) (vw m) i bs) m).
Proof.
  induction bs as [|b bs IH]; intros i s m R L Hb; simpl.
  { exists s. split; [done|]. unfold puts. simpl. rewrite app_nil_r. by destruct m. }
  pose proof (lo_fit _ _ _ _ L) as Hfit. cbn [length] in Hfit.
  assert (blk l i = b) as Eb by (rewrite <- (lo_blk _ _ _ _ L 0%nat b eq_refl); f_equal; lia).
  destruct (write_one_spec l i s m R) as (s1 & E1 & R1); [apply L| | |apply L|].
  { intros H. apply (lo_pins _ _ _ _ L) in H. by apply (home_not_log l i) in H; [|lia]. }
  { rewrite Eb. apply Hb. set_solver. }
  unfold mbind, outcome_bind. rewrite E1, Eb in *.
  destruct (IH (S i) s1 _ R1) as (s2 & E2 & R2).
  { apply (loop_ok_step l i b bs m [(start l + Z.of_nat i + 1, vw m b)] (pins m));
      [done|set_solver|done]. }
  { simpl. set_solver. }
  exists s2. split; [done|]. rewrite puts_app in R2. simpl in R2.
  rewrite (log_writes_ext _ _ (vw m)) in R2; [exact R2|].
  intros c Hc. apply disk_upd_ne. apply home_not_log; [lia|].
  apply (lo_home _ _ _ _ L). set_solver.
Qed.

Lemma install_loop l (r : bool) bs : forall i s m,
  rep s m -> loop_ok l i bs m -> (if r then pins m = [] else pins m ≡ₚ bs) ->
  exists s', for_each (install_one l r) (seq i (length bs)) s = Ret s' /\
    rep s' (with_pins [] (puts (home_writes (start l) (vw m) i bs) m)).
Proof.
  induction bs as [|b bs IH]; intros i s m R L Hp; simpl.
  { exists s. split; [done|]. unfold puts. simpl. rewrite app_nil_r.
    assert (pins m = []) as Hp' by (destruct r; [done|by apply Permutation_nil_r in Hp]).
    destruct m. simpl in *. by subst. }
  pose proof (lo_fit _ _ _ _ L) as Hfit. cbn [length] in Hfit.
  assert (blk l i = b) as Eb by (rewrite <- (lo_blk _ _ _ _ L 0%nat b eq_refl); f_equal; lia).
  assert (exists p', (if r then p' = pins m /\ b ∉ pins m
    else exists p1 p2, pins m = p1 ++ b :: p2 /\ p' = p1 ++ p2) /\
    (if r then p' = [] else p' ≡ₚ bs) /\ p' ⊆ pins m /\ (length p' <= length (pins m))%nat)
    as (p' & Hp1 & Hp2 & Hp3 & Hp4).
  { destruct r.
    - exists (pins m). rewrite Hp. split_and!; [set_solver..|done].
    - assert (b ∈ pins m) as Hb by (rewrite Hp; set_solver).
      apply list_elem_of_split in Hb as (p1 & p2 & Hsp). exists (p1 ++ p2).
      split_and!; [by exists p1, p2| |rewrite Hsp; set_solver|rewrite Hsp, !length_app; simpl; lia].
      rewrite Hsp in Hp. apply (Permutation_cons_inv (a := b)).
      by rewrite <- Hp, Permutation_middle. }
  destruct (install_one_spec l r i s m p' R) as (s1 & E1 & R1);
    [apply L| | |apply L|by rewrite Eb|].
  { rewrite Eb. apply home_not_log; [lia|]. apply (lo_home _ _ _ _ L). set_solver. }
  { intros H. apply (lo_pins _ _ _ _ L) in H. by apply (home_not_log l i) in H; [|lia]. }
  unfold mbind, outcome_bind. rewrite E1, Eb in *.
  destruct (IH (S i) s1 _ R1) as (s2 & E2 & R2); [by apply (loop_ok_step l i b bs m)|done|].
  exists s2. split; [done|]. rewrite with_pins_puts in R2. simpl in R2.
  rewrite (home_writes_ext _ _ (vw m)) in R2; [exact R2|].
  intros j Hj. apply disk_upd_ne.
  assert (home (start l) b) as Hb by (apply (lo_home _ _ _ _ L); set_solver).
  intros E. apply (home_not_log l (S i + j)) in Hb; [|lia]. congruence.
Qed.

Lemma read_one s m a :
  rep s m -> held m = [] -> (length (pins m) + 2 <= NBUF)%nat ->
  exists x s1, bread a s = Ret (x, s1) /\ rep s1 {| m with held := [(x, a)] |}.
Proof.
  intros R Hh Hr. destruct (bread_law s m a R) as (x & s1 & E1 & _ & R1).
  { rewrite Hh. set_solver. }
  { etrans; [|apply (room m [a] Hh); simpl; lia]. apply subseteq_size. set_solver. }
  exists x, s1. split; [done|]. by rewrite Hh in R1.
Qed.

Lemma write_head_spec l s m bs :
  rep s m -> held m = [] -> (length (pins m) + 2 <= NBUF)%nat ->
  take (Z.to_nat (lh_n l)) (lh_block l) = bs ->
  exists s', write_head l s = Ret s' /\
    rep s' (puts [(start l, fill_header (lh_n l) bs (vw m (start l)))] m).
Proof.
  intros R Hh Hr Hbs. unfold write_head.
  destruct (read_one s m (start l) R Hh Hr) as (x & s1 & E1 & R1).
  unfold mbind, outcome_bind. rewrite E1, Hbs.
  destruct (bdata_law s1 _ x (start l) R1) as [-> _]; [simpl; set_solver|].
  simpl. destruct (put_held s1 {| m with held := [(x, start l)] |} x (start l)
    (fill_header (lh_n l) bs (vw m (start l))) R1) as (s2 & -> & R2); [simpl; set_solver|].
  destruct (brelse_law s2 _ [] x (start l) [] R2) as (s3 & -> & R3); [done| |].
  { right. simpl. by rewrite !disk_upd_eq. }
  exists s3. split; [done|]. simpl in R3. destruct m; simpl in *; subst. exact R3.
Qed.

End laws.
End LogFacts.

(** ** A crash during a commit loses the transaction or keeps all of it. *)


Module LogCrash.
Import Buf Log LogFacts.

(** The header block with its count set to 0. *)
Definition cleared (h : block) : block := fill_header 0 [] h.

(** What [commit] writes for the blocks [bs] of contents [f]. *)
Definition commit_writes (st : Z) (f : disk) (bs : list Z) : list (Z * block) :=
  let h := fill_header (Z.of_nat (length bs)) bs (f st) in
  log_writes st f 0 bs ++ [(st, h)] ++ ((fun b => (b, f b)) <$> bs) ++ [(st, cleared h)].

(** What recovery writes when the header of [d] names the blocks [bs]. *)
Definition recovery_writes (st : Z) (d : disk) (bs : list Z) : list (Z * block) :=
  home_writes st d 0 bs ++ [(st, cleared (d st))].

Lemma home_writes_logged st f bs i d :
  home_writes st (apply_writes (log_writes st f i bs) d) i bs = (fun b => (b, f b)) <$> bs.
Proof.
  assert (forall k, home_writes st (apply_writes (log_writes st f i bs) d) (i + k) (drop k bs)
    = (fun b => (b, f b)) <$> drop k bs) as H; [|specialize (H 0%nat); by rewrite Nat.add_0_r in H].
  intros k. remember (drop k bs) as r eqn:Er. revert k Er.
  induction r as [|b r IH]; intros k Er; [done|]. simpl.
  assert (bs !! k = Some b) as Hk.
  { rewrite <- (Nat.add_0_r k), <- lookup_drop, <- Er. done. }
  rewrite (log_writes_at st f i bs k b) by done. f_equal.
  rewrite <- Nat.add_succ_r. apply IH.
  rewrite <- Nat.add_1_r, <- drop_drop, <- Er. done.
Qed.

Section laws.
Context {B : Type} `{HB : BufCache B} {rep : B -> cmodel -> Prop} `{HL : !BufCacheLaws B rep}.

(** A log whose blocks [bs], all pinned and at home, await their commit. *)
Record pending (l : log) (bs : list Z) (m : cmodel) : Prop := mk_pending {
  pd_held : held m = [];
  pd_n : lh_n l = Z.of_nat (length bs);
  pd_blocks : take (length bs) (lh_block l) = bs;
  pd_nodup : NoDup bs;
  pd_pins : pins m ≡ₚ bs;
  pd_home : forall b, b ∈ bs -> home (start l) b /\ 0 <= b < 2 ^ 32;
  pd_room : (length bs + 2 <= NBUF)%nat
}.

Lemma blk_take l bs j b : take (length bs) (lh_block l) = bs -> bs !! j = Some b -> blk l j = b.
Proof.
  intros Hb Hj. unfold blk. rewrite <- Hb in Hj.
  apply lookup_take_Some in Hj as [Hj _]. by rewrite Hj.
Qed.

Lemma pending_loop l bs m : pending l bs m -> loop_ok l 0 bs m.
Proof.
  intros [H1 H2 H3 H4 H5 H6 H7]. unfold NBUF in *. constructor; [done| | | | |lia].
  - intros j b. by apply blk_take.
  - intros b Hb. by apply H6.
  - intros b Hb. apply H6. by rewrite <- H5.
  - rewrite H5. unfold NBUF. lia.
Qed.

Lemma start_not_home st : ~ home st st.
Proof. unfold home, LOGBLOCKS. lia. Qed.

Lemma log_writes_not_start st f i bs : st ∉ (log_writes st f i bs).*1.
Proof.
  intros H. apply list_elem_of_fmap in H as ([k b] & E & H). simpl in E. subst k.
  apply elem_of_log_writes in H as (j & c & _ & E). injection E. lia.
Qed.

(** commit succeeds, empties the log, and writes exactly [commit_writes]. *)
Lemma commit_spec l s m bs :
  rep s m -> pending l bs m -> bs <> [] ->
  exists l' s', commit l s = Ret (l', s') /\ lh_n l' = 0 /\
    rep s' (with_pins [] (puts (commit_writes (start l) (vw m) bs) m)).
Proof.
  intros R P Hne. pose proof (pending_loop _ _ _ P) as L. pose proof (pd_n _ _ _ P) as Hn.
  unfold commit. rewrite (proj2 (Z.ltb_lt 0 (lh_n l))) by (rewrite Hn; destruct bs; simpl; [done|lia]).
  unfold write_log, install_trans, tails. rewrite Hn, Nat2Z.id.
  destruct (write_loop l bs 0 s m R L) as (s1 & E1 & R1).
  { intros b Hb. by rewrite (pd_pins _ _ _ P). }
  unfold mbind, outcome_bind. rewrite E1.
  destruct (write_head_spec l s1 _ bs R1) as (s2 & E2 & R2); [apply L|apply L| |].
  { rewrite Hn, Nat2Z.id. apply P. }
  rewrite E2. simpl in R2. rewrite puts_app in R2.
  rewrite apply_writes_other in R2 by apply log_writes_not_start.
  destruct (install_loop l false bs 0 s2 _ R2) as (s3 & E3 & R3).
  { destruct L. by constructor. }
  { apply P. }
  rewrite E3.
  match goal with |- context [write_head ?l2 s3] => set (l3 := l2) end.
  destruct (write_head_spec l3 s3 _ [] R3) as (s4 & E4 & R4); [apply L|simpl; unfold NBUF; lia|done|].
  rewrite E4. exists l3, s4. split_and!; [done|done|].
  set (h := fill_header (lh_n l) bs (vw m (start l))) in *.
  set (W1 := log_writes (start l) (vw m) 0 bs) in *.
  assert (home_writes (start l) (vw (puts (W1 ++ [(start l, h)]) m)) 0 bs
          = (fun b => (b, vw m b)) <$> bs) as HW.
  { rewrite <- (home_writes_logged (start l) (vw m) bs 0 (vw m)).
    apply home_writes_ext. intros j _. simpl. rewrite apply_writes_app. simpl.
    apply disk_upd_ne. lia. }
  rewrite HW in R4. simpl in R4. rewrite apply_writes_other in R4.
  2:{ rewrite <- list_fmap_compose. intros Hin. apply list_elem_of_fmap in Hin as (b & E & Hb).
      simpl in E. subst b. apply (pd_home _ _ _ P) in Hb as [Hb _]. by apply start_not_home in Hb. }
  rewrite apply_writes_app in R4. simpl in R4. rewrite disk_upd_eq in R4.
  unfold commit_writes. rewrite <- Hn. fold h W1.
  unfold with_pins, puts in R4 |- *. simpl in R4 |- *.
  assert (forall d, apply_writes (W1 ++ (start l, h) :: ((fun b => (b, vw m b)) <$> bs)
                                     ++ [(start l, cleared h)]) d
    = <[start l := cleared h]> (apply_writes ((fun b => (b, vw m b)) <$> bs)
        (apply_writes (W1 ++ [(start l, h)]) d))) as HA.
  { intros d. by rewrite !apply_writes_app; simpl; rewrite apply_writes_app. }
  rewrite !HA. rewrite <- !app_assoc in R4. exact R4.
Qed.

(** Recovery on a disk whose header names the blocks [bs]. *)
Lemma initlog_spec st d bs :
  hdr_n (d st) = Z.of_nat (length bs) ->
  (forall i b, bs !! i = Some b -> hdr_block (d st) i = b) ->
  (forall b, b ∈ bs -> home st b) -> (length bs <= 30)%nat ->
  exists l s, initlog st (boot d) = Ret (l, s) /\ lh_n l = 0 /\
    (start l = st /\ outstanding l = 0 /\ committing l = false /\ length (lh_block l) = 30%nat) /\
    rep s (puts (recovery_writes st d bs) (mk_cmodel d d [] [] [])).
Proof.
  intros Hn Hb Hh Hlen. pose proof (boot_law d) as R0.
  unfold initlog, recover_from_log, read_head. set (l0 := mk_log st 0 false 0 _).
  destruct (read_one (boot d) _ st R0) as (x & s1 & E1 & R1); [done|simpl; unfold NBUF; lia|].
  unfold mbind, outcome_bind. simpl start. rewrite E1.
  destruct (bdata_law s1 _ x st R1) as [-> _]; [simpl; set_solver|]. simpl vw. rewrite Hn, Nat2Z.id.
  assert (LOGBLOCKS <? Z.of_nat (length bs) = false) as ->
    by (apply Z.ltb_ge; unfold LOGBLOCKS; lia).
  destruct (brelse_law s1 _ [] x st [] R1) as (s2 & -> & R2); [done|by right|].
  assert (hdr_block (d st) <$> seq 0 (length bs) = bs) as ->.
  { apply list_eq. intros i. rewrite list_lookup_fmap. destruct (bs !! i) as [b|] eqn:Ei.
    - pose proof (lookup_lt_Some _ _ _ Ei). rewrite lookup_seq_lt by lia. simpl.
      f_equal. by apply Hb.
    - apply lookup_ge_None in Ei. by rewrite lookup_seq_ge. }
  match goal with |- context [install_trans ?lx true s2] => set (l1 := lx) end.
  unfold install_trans, tails. simpl lh_n. rewrite Nat2Z.id.
  assert (forall j b, bs !! j = Some b -> blk l1 j = b) as Hblk.
  { intros j b Hj. unfold blk, l1. cbn [lh_block]. rewrite lookup_app_l by (by eapply lookup_lt_Some).
    by rewrite Hj. }
  destruct (install_loop l1 true bs 0 s2 _ R2) as (s3 & E3 & R3); [|done|].
  { constructor; simpl; [done|done|done|set_solver|unfold NBUF; lia|lia]. }
  rewrite E3.
  match goal with |- context [write_head ?lx s3] => set (l3 := lx) end.
  destruct (write_head_spec l3 s3 _ [] R3) as (s4 & E4 & R4); [done|simpl; unfold NBUF; lia|done|].
  rewrite E4. exists l3, s4. split_and!; [done|done|done|done|done| |].
  { unfold l3, l1, l0. cbn [lh_block]. rewrite length_app, length_drop, length_replicate.
    change (Z.to_nat LOGBLOCKS) with 30%nat. lia. }
  simpl in R4. rewrite apply_writes_other in R4.
  2:{ rewrite fst_home_writes. intros Hin. apply Hh in Hin. by apply start_not_home in Hin. }
  unfold recovery_writes, puts. simpl. rewrite !apply_writes_app. exact R4.
Qed.

End laws.

(** ** What a crash leaves on the disk *)

Lemma home_ne st n : home st n -> n <> st /\ forall i, (i < 30)%nat -> n <> st + Z.of_nat i + 1.
Proof. unfold home, LOGBLOCKS. intros H. split; [lia|]. intros i Hi. lia. Qed.

Lemma cleared_n h : hdr_n (cleared h) = 0.
Proof. apply hdr_n_fill. lia. Qed.

Section crash.
Context (st : Z) (old new : disk) (bs : list Z).
Context (Hnodup : NoDup bs) (Hlen : (length bs <= 30)%nat).
Context (Hhome : forall b, b ∈ bs -> home st b /\ 0 <= b < 2 ^ 32).
Context (Hsame : forall n, n ∉ bs -> home st n -> new n = old n).

(** No transaction in the log, the home blocks are those of [f]. *)
Definition settled (f : disk) (d : disk) : Prop :=
  hdr_n (d st) = 0 /\ forall n, home st n -> d n = f n.

(** The transaction is in the log, and perhaps partly installed. *)
Record logged (d : disk) : Prop := mk_logged {
  lg_n : hdr_n (d st) = Z.of_nat (length bs);
  lg_block : forall i b, bs !! i = Some b -> hdr_block (d st) i = b;
  lg_copy : forall i b, bs !! i = Some b -> d (st + Z.of_nat i + 1) = new b;
  lg_rest : forall n, n ∉ bs -> home st n -> d n = new n
}.

(** Writing a home block of the transaction keeps the log. *)
Lemma logged_install d b : b ∈ bs -> logged d -> logged (<[b := new b]> d).
Proof using Hlen Hhome.
  intros Hb [H1 H2 H3 H4]. destruct (Hhome b Hb) as [Hh _].
  destruct (home_ne st b Hh) as [Hst Hlog].
  constructor; intros.
  - by rewrite disk_upd_ne.
  - rewrite disk_upd_ne by done. by apply H2.
  - rewrite disk_upd_ne; [by apply H3|]. apply Hlog. apply lookup_lt_Some in H. lia.
  - rewrite disk_upd_ne; [by apply H4|]. by intros ->.
Qed.

Lemma install_through d ws :
  (forall w, w ∈ ws -> w.1 ∈ bs /\ w.2 = new w.1) -> logged d -> through logged ws d.
Proof using Hlen Hhome.
  intros Hw Hd. apply through_inv; [done|]. intros [b c] d' Hin HL.
  destruct (Hw _ Hin) as [Hb Hc]. simpl in *. subst c. by apply logged_install.
Qed.

(** Once all are installed, clearing the header settles the transaction. *)
Lemma logged_settle d ws :
  ws.*1 = bs -> (forall w, w ∈ ws -> w.1 ∈ bs /\ w.2 = new w.1) -> logged d ->
  settled new (<[st := cleared (apply_writes ws d st)]> (apply_writes ws d)).
Proof using Hhome.
  intros Hf Hw [H1 H2 H3 H4]. split; [by rewrite disk_upd_eq, cleared_n|].
  intros n Hn. rewrite disk_upd_ne by (by destruct (home_ne st n Hn)).
  destruct (decide (n ∈ bs)) as [Hb|Hb].
  - apply apply_writes_value; [left; by rewrite Hf|].
    intros b Hin. by destruct (Hw _ Hin).
  - rewrite apply_writes_other by by rewrite Hf. by apply H4.
Qed.

(** Up to the write of the header the old state is left, from then on the
    logged transaction or the new state. *)
Definition kept (d : disk) : Prop := logged d \/ settled new d.

Lemma commit_through :
  settled old old -> new st = old st ->
  (forall k, (k <= length bs)%nat -> settled old (apply_writes (take k (commit_writes st new bs)) old)) /\
  (forall k, (length bs < k)%nat -> kept (apply_writes (take k (commit_writes st new bs)) old)) /\
  settled new (apply_writes (commit_writes st new bs) old).
Proof using Hnodup Hlen Hhome Hsame.
  intros Hold Hst. unfold commit_writes. set (h := fill_header _ bs (new st)).
  set (d1 := apply_writes (log_writes st new 0 bs) old).
  assert (through (settled old) (log_writes st new 0 bs) old) as T1.
  { apply through_inv; [done|]. intros w d Hw [Hn Hd].
    apply elem_of_log_writes in Hw as (j & b & Hj & ->). simpl.
    apply lookup_lt_Some in Hj. split.
    - rewrite disk_upd_ne by lia. done.
    - intros n Hh. rewrite disk_upd_ne; [by apply Hd|].
      destruct (home_ne st n Hh) as [_ H]. specialize (H j). lia. }
  set (d2 := <[st := h]> d1 : disk).
  assert (logged d2) as L2.
  { constructor.
    - unfold d2. rewrite disk_upd_eq. apply hdr_n_fill. lia.
    - intros i b Hi. unfold d2. rewrite disk_upd_eq. apply hdr_block_fill; [|done].
      intros c Hc. by apply Hhome.
    - intros i b Hi. unfold d2. rewrite disk_upd_ne by lia. by apply (log_writes_at st new 0 bs i b).
    - intros n Hn Hh. destruct (home_ne st n Hh) as [Hns _]. unfold d2. rewrite disk_upd_ne by done.
      destruct (through_all _ _ _ T1) as [_ Hd1]. fold d1 in Hd1. rewrite (Hd1 n Hh).
      symmetry. by apply Hsame. }
  set (ws := (fun b => (b, new b)) <$> bs).
  assert (forall w, w ∈ ws -> w.1 ∈ bs /\ w.2 = new w.1) as Hws.
  { intros w Hw. apply list_elem_of_fmap in Hw as (b & -> & Hb). done. }
  assert (ws.*1 = bs) as Hf.
  { unfold ws. rewrite <- list_fmap_compose. apply list_fmap_id. }
  assert (apply_writes ws d2 st = h) as Eh.
  { rewrite apply_writes_other; [unfold d2; by rewrite disk_upd_eq|]. rewrite Hf.
    intros Hin. apply Hhome in Hin as [Hin _]. by apply start_not_home in Hin. }
  pose proof (logged_settle d2 ws Hf Hws L2) as S2. rewrite Eh in S2.
  assert (through kept (ws ++ [(st, cleared h)]) d2) as T2.
  { apply through_app.
    - eapply through_weaken; [|apply (install_through d2 ws Hws L2)]. unfold kept. auto.
    - apply through_one; [|by right]. left. apply (through_all _ _ _ (install_through d2 ws Hws L2)). }
  assert (length (log_writes st new 0 bs) = length bs) as Hl1 by apply length_log_writes.
  split_and!.
  - intros k Hk. rewrite take_app_le by lia. apply T1.
  - intros k Hk. rewrite take_app_ge by lia. rewrite apply_writes_app. fold d1. rewrite Hl1.
    destruct (k - length bs)%nat as [|j] eqn:Ej; [lia|]. simpl. fold d2. apply T2.
  - rewrite apply_writes_app. fold d1. simpl. fold d2. rewrite apply_writes_app. exact S2.
Qed.

(** What recovery reads in the header of [d]. *)
Record header_of (d : disk) (rs : list Z) : Prop := mk_header_of {
  ho_n : hdr_n (d st) = Z.of_nat (length rs);
  ho_block : forall i b, rs !! i = Some b -> hdr_block (d st) i = b;
  ho_home : forall b, b ∈ rs -> home st b;
  ho_length : (length rs <= 30)%nat
}.

Lemma recovery_settled f d :
  settled f d -> header_of d [] /\ through (settled f) (recovery_writes st d []) d.
Proof using.
  clear Hsame Hnodup Hlen Hhome. intros [Hn Hf]. split; [constructor; [done|done|set_solver|apply Nat.le_0_l]|].
  unfold recovery_writes. simpl. apply through_one; [done|]. simpl. split.
  - by rewrite disk_upd_eq, cleared_n.
  - intros n Hh. rewrite disk_upd_ne by (by destruct (home_ne st n Hh)). by apply Hf.
Qed.

(** Recovery of a logged transaction keeps it and ends in the new state. *)
Lemma recovery_kept d :
  kept d -> exists rs, header_of d rs /\ through kept (recovery_writes st d rs) d /\
    settled new (apply_writes (recovery_writes st d rs) d).
Proof using Hhome Hlen Hnodup Hsame.
  intros [L|S].
  2:{ exists []. destruct (recovery_settled new d S) as [Hh Ht].
      split_and!; [done| |by apply through_all]. eapply through_weaken; [|exact Ht]. by right. }
  exists bs. split; [constructor; [apply L|apply L|intros b Hb; by apply Hhome|done]|].
  assert (forall w, w ∈ home_writes st d 0 bs -> w.1 ∈ bs /\ w.2 = new w.1) as Hws.
  { intros w Hw. apply elem_of_home_writes in Hw as (j & b & Hj & ->). simpl.
    split; [by eapply list_elem_of_lookup_2|]. by apply (lg_copy _ L). }
  pose proof (fst_home_writes st d 0 bs) as Hf.
  assert (apply_writes (home_writes st d 0 bs) d st = d st) as Eh.
  { apply apply_writes_other. rewrite Hf. intros Hin. apply Hhome in Hin as [Hin _].
    by apply start_not_home in Hin. }
  pose proof (logged_settle d _ Hf Hws L) as S2. rewrite Eh in S2.
  pose proof (install_through d _ Hws L) as T. unfold recovery_writes. split.
  - apply through_app; [eapply through_weaken; [|exact T]; by left|].
    apply through_one; [|by right]. left. apply (through_all _ _ _ T).
  - rewrite apply_writes_app. exact S2.
Qed.

End crash.

Section laws.
Context {B : Type} `{HB : BufCache B} {rep : B -> cmodel -> Prop} `{HL : !BufCacheLaws B rep}.

(** The machine restarts on disk [d], and stops again after some of the writes
    of its recovery. *)
Definition crash (st : Z) (d d' : disk) : Prop :=
  exists l (s : B) k, initlog st (boot d) = Ret (l, s) /\ d' = apply_writes (take k (btrace s)) d.

Lemma initlog_header st d rs :
  header_of st d rs ->
  exists l (s : B), initlog st (boot d) = Ret (l, s) /\ lh_n l = 0 /\
    btrace s = recovery_writes st d rs.
Proof using HL.
  intros [H1 H2 H3 H4]. destruct (initlog_spec st d rs) as (l & s & E & En & _ & R); [done..|].
  exists l, s. split_and!; [done|done|]. by rewrite (btrace_law _ _ R).
Qed.

(** A disk with an empty log stays as it is through crashes and recoveries. *)
Lemma crash_settled st f d d' : settled st f d -> crash st d d' -> settled st f d'.
Proof using HL.
  intros He (l1 & s1 & j & E1 & ->). destruct (recovery_settled _ _ _ He) as [Hh Ht].
  destruct (initlog_header _ _ _ Hh) as (l3 & s3 & E3 & _ & Etr). rewrite E1 in E3. simplify_eq.
  rewrite Etr. apply Ht.
Qed.

Lemma settled_recovers st f d :
  settled st f d -> exists l (s : B), initlog st (boot d) = Ret (l, s) /\
    forall n, home st n -> apply_writes (btrace s) d n = f n.
Proof using HL.
  intros Hd. destruct (recovery_settled _ _ _ Hd) as [Hh Ht].
  destruct (initlog_header _ _ _ Hh) as (l3 & s3 & E3 & En & Etr).
  exists l3, s3. split; [done|]. rewrite Etr. apply (through_all _ _ _ Ht).
Qed.

(** Atomicity across crashes: if the machine stops after any number [k] of
    the disk writes of a commit, and then any number of times again in the
    middle of its recovery, the recovery that finally completes leaves every
    block outside the log as it was before the transaction if [k] does not
    reach the header, and as the transaction left it otherwise; and the commit
    itself completes, with the new blocks in their places. *)
Theorem log_crash_atomic (l : log) (s : B) (m : cmodel) (bs : list Z) :
  rep s m -> pending l bs m -> bs <> [] -> hdr_n (dk m (start l)) = 0 ->
  exists l' s' ws, commit l s = Ret (l', s') /\ lh_n l' = 0 /\
    rep s' (with_pins [] (puts ws m)) /\
    (forall n, home (start l) n -> apply_writes ws (dk m) n = vw m n) /\
    forall k d, rtc (crash (start l)) (apply_writes (take k ws) (dk m)) d ->
      exists l2 s2, initlog (start l) (boot d) = Ret (l2, s2) /\ lh_n l2 = 0 /\
        forall n, home (start l) n ->
          apply_writes (btrace (B := B) s2) d n
          = if decide (k <= length bs)%nat then dk m n else vw m n.
Proof using HL.
  intros R P Hne Hlog. pose proof P as [P1 P2 P3 P4 P5 P6 P7].
  assert (start l ∉ pins m) as Hsp.
  { rewrite P5. intros Hin. apply P6 in Hin as [Hin _]. by apply start_not_home in Hin. }
  assert (forall n, n ∉ bs -> vw m n = dk m n) as Hcl.
  { intros n Hn. apply (clean_law s); [done|]. unfold in_use. rewrite P1. simpl.
    rewrite elem_of_list_to_set, P5. done. }
  assert (vw m (start l) = dk m (start l)) as Hst by (apply Hcl; by rewrite <- P5).
  assert (length bs <= 30)%nat as Hlen by (unfold NBUF in P7; lia).
  destruct (commit_spec l s m bs R P Hne) as (l' & s' & E & El & R').
  destruct (commit_through (start l) (dk m) (vw m) bs P4 Hlen P6) as (C1 & C2 & C3); [auto|done|done|].
  exists l', s', (commit_writes (start l) (vw m) bs). split_and!; [done|done|done|apply C3|].
  intros k d Hc. case_decide as Hk.
  - assert (settled (start l) (dk m) d) as Hd.
    { eapply (rtc_invariant (crash (start l))); [|exact Hc|by apply C1].
      intros e e' He. by apply crash_settled. }
    destruct (recovery_settled _ _ _ Hd) as [Hh Ht].
    destruct (initlog_header _ _ _ Hh) as (l3 & s3 & E3 & En & Etr).
    exists l3, s3. split_and!; [done|done|]. rewrite Etr. apply (through_all _ _ _ Ht).
  - assert (kept (start l) (vw m) bs d) as Hd.
    { eapply (rtc_invariant (crash (start l))); [|exact Hc|apply C2; lia].
      intros e e' He (l1 & s1 & j & E1 & ->).
      destruct (recovery_kept (start l) (dk m) (vw m) bs P4 Hlen P6 ltac:(auto) e He) as (rs & Hh & Ht & _).
      destruct (initlog_header _ _ _ Hh) as (l3 & s3 & E3 & _ & Etr). rewrite E1 in E3. simplify_eq.
      rewrite Etr. apply Ht. }
    destruct (recovery_kept (start l) (dk m) (vw m) bs P4 Hlen P6 ltac:(auto) d Hd) as (rs & Hh & _ & Hs).
    destruct (initlog_header _ _ _ Hh) as (l3 & s3 & E3 & En & Etr).
    exists l3, s3. split_and!; [done|done|]. rewrite Etr. apply Hs.
Qed.

End laws.
End LogCrash.
