(* ===== verification/LogSpace.v ===== *)
(** * Space in the log and in the buffer cache: what [begin_op] reserves,
    [log_write] during a transaction, and the size of the cache. *)
From S2P Require Import Prelude Mem Buf Bio BioFacts Log LogFacts.

#[local] Open Scope Z_scope.

Module LogSpace.
Import Buf Log LogFacts LogCrash.

(** ** The reservation of [begin_op] *)

Definition logged_blocks (l : log) : list Z := take (Z.to_nat (lh_n l)) (lh_block l).

(** Blocks the open operations may still add. *)
Definition reserved (ws : list (gset Z)) : nat := sum_list_with (fun w => 10 - size w)%nat ws.

Record space_inv (t : txs) : Prop := mk_space_inv {
  sp_outstanding : outstanding (the_log t) = Z.of_nat (length (ops t));
  sp_committing : committing (the_log t) = false;
  sp_n : 0 <= lh_n (the_log t);
  sp_length : length (lh_block (the_log t)) = 30%nat;
  sp_nodup : NoDup (logged_blocks (the_log t));
  sp_own : forall w n, w ∈ ops t -> n ∈ w -> n ∈ logged_blocks (the_log t);
  sp_fit : lh_n (the_log t) + Z.of_nat (reserved (ops t)) <= LOGBLOCKS
}.

Definition txs_init (st : Z) : txs := mk_txs (mk_log st 0 false 0 (replicate 30 0)) [].

Lemma space_inv_init st : space_inv (txs_init st).
Proof. constructor; simpl; try done; [apply NoDup_nil_2|set_solver]. Qed.

Lemma reserved_lookup ws i w :
  ws !! i = Some w -> (reserved (delete i ws) + (10 - size w) = reserved ws)%nat.
Proof.
  unfold reserved. revert i. induction ws as [|x ws IH]; intros [|i] H; simplify_eq/=; [lia|].
  specialize (IH _ H). lia.
Qed.

Lemma reserved_insert ws i w w' :
  ws !! i = Some w ->
  (reserved (<[i := w']> ws) + (10 - size w) = reserved ws + (10 - size w'))%nat.
Proof.
  unfold reserved. revert i. induction ws as [|x ws IH]; intros [|i] H; simplify_eq/=; [lia|].
  specialize (IH _ H). lia.
Qed.

(** What [note_block] does when there is room. *)
Lemma note_block_spec l n :
  0 <= lh_n l < 30 -> length (lh_block l) = 30%nat -> 1 <= outstanding l ->
  NoDup (logged_blocks l) ->
  exists is_new l', note_block n l = Ret (is_new, l') /\ start l' = start l /\
    outstanding l' = outstanding l /\ committing l' = committing l /\
    length (lh_block l') = 30%nat /\
    (is_new = false /\ n ∈ logged_blocks l /\ lh_n l' = lh_n l /\ logged_blocks l' = logged_blocks l \/
     is_new = true /\ n ∉ logged_blocks l /\ lh_n l' = lh_n l + 1 /\
       logged_blocks l' = logged_blocks l ++ [n]).
Proof.
  intros Hn Hl Ho Hnd. unfold note_block.
  rewrite (proj2 (Z.leb_gt LOGBLOCKS (lh_n l))) by (unfold LOGBLOCKS; lia).
  rewrite (proj2 (Z.ltb_ge (outstanding l) 1)) by lia. fold (logged_blocks l).
  destruct (find_idx _ (logged_blocks l)) as [i|] eqn:Hf.
  - destruct (find_idx_hit _ _ _ Hf) as (x & Hx & E). apply Z.eqb_eq in E. subst x.
    eexists false, _. split; [done|]. simpl. rewrite length_insert. split_and!; [done..|].
    left. split_and!; [done|by eapply list_elem_of_lookup_2|done|].
    unfold logged_blocks in *. simpl. rewrite list_insert_id; [done|].
    by apply lookup_take_Some in Hx as [Hx _].
  - eexists true, _. split; [done|]. simpl. rewrite length_insert. split_and!; [done..|].
    right. split_and!; [done| |done|].
    + intros H. apply list_elem_of_lookup in H as (i & Hi).
      pose proof (proj1 (find_idx_None _ _) Hf i n Hi) as Hc. simpl in Hc. lia.
    + unfold logged_blocks. simpl. replace (Z.to_nat (lh_n l + 1)) with (S (Z.to_nat (lh_n l))) by lia.
      erewrite take_S_r by (apply list_lookup_insert_eq; lia). by rewrite take_insert_ge by lia.
Qed.

Lemma tx_step_space t t' : space_inv t -> tx_step t t' -> space_inv t'.
Proof.
  intros [H1 H2 H3 H4 H5 H6 H7] Hs. destruct Hs as [t l Hb|t i w n b l Hi Hsz Hnote|t i l Hi He|t i l Hi He].
  - unfold begin_op in Hb. rewrite H2 in Hb. case_ifs.
    constructor; cbn [the_log ops outstanding committing lh_n lh_block length]; try done.
    + lia.
    + intros w n [->|Hw]%elem_of_cons; [set_solver|by apply H6].
    + change (reserved (∅ :: ops t)) with (10 - size (∅ : gset Z) + reserved (ops t))%nat.
      rewrite (size_empty (C := gset Z)). unfold LOGBLOCKS, MAXOPBLOCKS in *.
      assert (reserved (ops t) <= 10 * length (ops t))%nat; [|lia].
      unfold reserved. clear. induction (ops t) as [|w ws IH]; simpl; lia.
  - pose proof (reserved_lookup _ _ _ Hi) as Hr. pose proof (lookup_lt_Some _ _ _ Hi) as Hlt.
    unfold LOGBLOCKS, MAXOPBLOCKS in *.
    destruct (note_block_spec (the_log t) n) as (b' & l' & E & _ & Ho & Hc & Hl & Hcase);
      [lia|done|lia|done|].
    rewrite Hnote in E. simplify_eq.
    pose proof (reserved_insert _ _ _ ({[n]} ∪ w) Hi) as Hr2.
    assert (w ∈ ops t) as Hw by by eapply list_elem_of_lookup_2.
    assert (n ∈ w -> n ∈ logged_blocks (the_log t)) as Hnw by by apply H6.
    assert (size ({[n]} ∪ w) = size w /\ n ∈ w \/ size ({[n]} ∪ w) = S (size w) /\ n ∉ w) as Hsize.
    { destruct (decide (n ∈ w)) as [Hin|Hin].
      - left. split; [|done]. f_equal. apply leibniz_equiv. set_solver.
      - right. split; [|done]. rewrite size_union, size_singleton by set_solver. done. }
    constructor; simpl.
    + rewrite length_insert. congruence.
    + congruence.
    + destruct Hcase as [(_ & _ & -> & _) | (_ & _ & -> & _)]; lia.
    + done.
    + destruct Hcase as [(_ & _ & _ & ->) | (_ & Hno & _ & ->)]; [done|].
      apply NoDup_app. split_and!; [done|set_solver|apply NoDup_singleton].
    + intros w' k Hw' Hk.
      assert (k = n \/ k ∈ logged_blocks (the_log t)) as Hkk.
      { apply list_elem_of_lookup in Hw' as (j & Hj).
        apply list_lookup_insert_Some in Hj as [(_ & <- & _) | (_ & Hj)].
        - apply elem_of_union in Hk as [Hk|Hk]; [left; set_solver|right; by apply (H6 w)].
        - right. apply (H6 w'); [by eapply list_elem_of_lookup_2|done]. }
      destruct Hcase as [(_ & Hin & _ & ->) | (_ & _ & _ & ->)]; [destruct Hkk; congruence|set_solver].
    + unfold LOGBLOCKS. destruct Hcase as [(_ & Hin & -> & _) | (_ & Hno & -> & _)];
        destruct Hsize as [[Hs Hin'] | [Hs Hin']]; try tauto; lia.
  - unfold end_op_start in He. rewrite H2 in He. case_ifs. simpl in *.
    destruct (lookup_lt_is_Some_2 _ _ Hi) as [w Hw]. pose proof (reserved_lookup _ _ _ Hw).
    assert (length (delete i (ops t)) = length (ops t) - 1)%nat by (by rewrite length_delete by (by apply lookup_lt_is_Some_2)).
    constructor; simpl; try done; [lia| |lia].
    intros w' k Hw'. apply H6. rewrite (delete_Permutation _ _ _ Hw). set_solver.
  - unfold end_op_start in He. rewrite H2 in He. case_ifs. simpl in *.
    assert (length (delete i (ops t)) = length (ops t) - 1)%nat as Hd by (by rewrite length_delete by (by apply lookup_lt_is_Some_2)).
    destruct (delete i (ops t)) as [|w ws] eqn:E; [|simpl in Hd; lia].
    constructor; simpl; try done; [lia|apply NoDup_nil_2|set_solver].
Qed.

(** (C33) The space check of begin_op is a reservation: whatever operations
    begin, write and end in any interleaving, an operation that has logged
    fewer than MAXOPBLOCKS distinct blocks can always log one more without the
    panics of log_write, the block is then in the log, and the log never holds
    more than LOGBLOCKS distinct blocks. *)
Theorem log_space_reserved (st : Z) (t : txs) (i : nat) (w : gset Z) (n : Z) :
  rtc tx_step (txs_init st) t -> ops t !! i = Some w -> (size w < Z.to_nat MAXOPBLOCKS)%nat ->
  exists is_new l, note_block n (the_log t) = Ret (is_new, l) /\ n ∈ logged_blocks l /\
    NoDup (logged_blocks l) /\ lh_n l <= LOGBLOCKS.
Proof.
  intros Hr Hi Hw.
  assert (space_inv t) as I by (eapply rtc_invariant; [apply tx_step_space|exact Hr|apply space_inv_init]).
  pose proof I as [H1 H2 H3 H4 H5 H6 H7].
  pose proof (reserved_lookup _ _ _ Hi). pose proof (lookup_lt_Some _ _ _ Hi).
  unfold LOGBLOCKS, MAXOPBLOCKS in *.
  destruct (note_block_spec (the_log t) n) as (b & l & E & _ & _ & _ & _ & Hcase); [lia|done|lia|done|].
  assert (space_inv (mk_txs l (<[i := {[n]} ∪ w]> (ops t)))) as I'.
  { eapply tx_step_space; [exact I|]. eapply tx_write; [exact Hi|exact Hw|exact E]. }
  exists b, l. split; [done|].
  split; [|split; [apply (sp_nodup _ I')|pose proof (sp_fit _ I') as Hf; simpl in Hf; unfold LOGBLOCKS in Hf; lia]].
  destruct Hcase as [(_ & Hin & _ & ->) | (_ & _ & _ & ->)]; [done|set_solver].
Qed.

(** ** [log_write] in a transaction *)

(** The log [l] holds the blocks [bs], all pinned, at home and distinct. *)
Record logging (l : log) (bs : list Z) (m : cmodel) : Prop := mk_logging {
  lo_blocks : logged_blocks l = bs;
  lo_n : lh_n l = Z.of_nat (length bs);
  lo_array : length (lh_block l) = 30%nat;
  lo_pinned : pins m ≡ₚ bs;
  lo_distinct : NoDup bs;
  lo_at_home : forall b, b ∈ bs -> home (start l) b /\ 0 <= b < 2 ^ 32
}.

Lemma logging_pending l bs m :
  logging l bs m -> held m = [] -> (length bs + 2 <= NBUF)%nat -> pending l bs m.
Proof.
  intros [H1 H2 H3 H4 H5 H6] Hh Hr. constructor; try done.
  rewrite <- H1 at 2. unfold logged_blocks. by rewrite H2, Nat2Z.id.
Qed.

Section laws.
Context {B : Type} `{HB : BufCache B} {rep : B -> cmodel -> Prop} `{HL : !BufCacheLaws B rep}.

Lemma log_write_spec l s m bs b n :
  rep s m -> (b, n) ∈ held m -> logging l bs m -> (length bs < 30)%nat -> 1 <= outstanding l ->
  home (start l) n -> 0 <= n < 2 ^ 32 ->
  exists l' s' bs' p', log_write b l s = Ret (l', s') /\ rep s' (with_pins p' m) /\
    logging l' bs' (with_pins p' m) /\ (forall k, k ∈ bs' <-> k = n \/ k ∈ bs) /\
    outstanding l' = outstanding l /\ start l' = start l /\ committing l' = committing l.
Proof using HL.
  intros R Hb L Hlt Ho Hh Hr. pose proof L as [H1 H2 H3 H4 H5 H6].
  unfold log_write. destruct (bdata_law s m b n R Hb) as [_ ->].
  destruct (note_block_spec l n) as (new & l' & E & Est & Eo & Eco & El & Hcase);
    [rewrite H2; lia|done|done|by rewrite H1|].
  rewrite E. unfold mbind, outcome_bind.
  destruct Hcase as [(-> & Hin & En & Eb) | (-> & Hno & En & Eb)].
  - exists l', s, bs, (pins m). rewrite H1 in *. split_and!; [done| | |set_solver|done|done|done].
    + by destruct m.
    + constructor; simpl; [congruence|lia|done|done|done|by rewrite Est].
  - exists l', (bpin b s), (bs ++ [n]), (n :: pins m). rewrite H1 in *.
    split_and!; [done| | |set_solver|done|done|done].
    + apply (bpin_law s m b n R Hb). by rewrite H4.
    + constructor; simpl; [done|rewrite length_app; simpl; lia|done|by rewrite H4, Permutation_cons_append| |].
      * apply NoDup_app. split_and!; [done|set_solver|apply NoDup_singleton].
      * rewrite Est. intros c [Hc|Hc]%elem_of_app; [by apply H6|].
        apply list_elem_of_singleton in Hc. by subst.
Qed.

End laws.

(** ** The cache and the log have the same size *)

Import Bio BioFacts BioRep.

Lemma choose_list {A C} (P : A -> C -> Prop) (l : list A) :
  (forall a, a ∈ l -> exists c, P a c) -> exists k, Forall2 P l k.
Proof.
  induction l as [|a l IH]; intros H; [by exists []|].
  destruct (H a) as [c Hc]; [set_solver|]. destruct IH as [k Hk]; [set_solver|].
  exists (c :: k). by constructor.
Qed.

(** When thirty blocks are in use no other block can be read. *)
Lemma bread_exhausted s m n :
  brep s m -> n ∉ in_use m -> (NBUF <= size (in_use m))%nat ->
  Bio.bread ROOTDEV n s = Panic "bget: no buffers".
Proof.
  intros R Hn Hsz. destruct (br_dll _ _ R) as (l & D & Hl).
  set (P := fun k b => (b < NBUF)%nat /\ dev (getb s b) = ROOTDEV /\ blockno (getb s b) = k).
  destruct (choose_list P (elements (in_use m))) as [bl Hbl].
  { intros k Hk. apply elem_of_elements, in_use_spec in Hk as [Hk|Hk].
    - apply list_elem_of_fmap in Hk as ([b k'] & -> & Hk). exists b. simpl.
      by destruct (br_held _ _ R _ _ Hk) as (? & ? & ? & _).
    - by apply (br_pinned _ _ R). }
  assert (NoDup bl) as Hnd.
  { pose proof (NoDup_elements (in_use m)) as Hne. clear -Hbl Hne. induction Hbl as [|k b ks bl Hkb H IH].
    - constructor.
    - apply NoDup_cons in Hne as [Hk Hne]. constructor; [|by apply IH].
      intros Hin. apply list_elem_of_lookup in Hin as (i & Hi).
      destruct (Forall2_lookup_r _ _ _ _ _ H Hi) as (k' & Hk' & (_ & _ & E)).
      destruct Hkb as (_ & _ & E'). apply Hk. apply list_elem_of_lookup. exists i. congruence. }
  assert (forall b, b ∈ bl -> P (blockno (getb s b)) b /\ blockno (getb s b) ∈ in_use m) as Hin.
  { intros b Hb. apply list_elem_of_lookup in Hb as (i & Hi).
    destruct (Forall2_lookup_r _ _ _ _ _ Hbl Hi) as (k & Hk & Hp). pose proof Hp as (_ & _ & ->).
    split; [done|]. apply elem_of_elements. by eapply list_elem_of_lookup_2. }
  assert (length bl = size (in_use m)) as Hlen by (by rewrite <- (Forall2_length _ _ _ Hbl)).
  assert (forall b, (b < NBUF)%nat -> b ∈ bl) as Hall.
  { intros b Hb. destruct (decide (b ∈ bl)) as [|Hno]; [done|]. exfalso.
    assert (length (b :: bl) <= length (seq 0 NBUF))%nat as Hle.
    { apply submseteq_length, NoDup_submseteq; [by constructor|].
      intros c [->|Hc]%elem_of_cons; apply elem_of_seq; [lia|].
      apply Hin in Hc as [[Hc _] _]. lia. }
    rewrite length_seq in Hle. simpl in Hle. lia. }
  unfold Bio.bread. rewrite (bget_spec _ _ _ _ D).
  destruct (List.find _ l) as [b|] eqn:Hf.
  { exfalso. apply List.find_some in Hf as [Hb Hf]. apply list_elem_of_In, Hl, Hall, Hin in Hb as [_ Hb].
    unfold holds_block in Hf. to_prop. apply Hn. by replace n with (blockno (getb s b)) by lia. }
  destruct (List.find _ (reverse l)) as [b|] eqn:Hf2; [|done].
  exfalso. apply List.find_some in Hf2 as [Hb Hf2].
  apply list_elem_of_In in Hb. rewrite elem_of_reverse, Hl in Hb.
  destruct (Hin b (Hall b Hb)) as [(_ & Hd & _) Hu]. unfold unused in Hf2. apply Z.eqb_eq in Hf2.
  rewrite (br_refcnt _ _ R b Hb), decide_True in Hf2 by done.
  apply in_use_spec in Hu as [Hu|Hu]; apply cnt_in in Hu;
    pose proof (cnt_range (blockno (getb s b)) (held m).*2);
    pose proof (cnt_range (blockno (getb s b)) (pins m)); lia.
Qed.

(** The cache has no buffer to spare for the log: begin_op lets the log
    grow to LOGBLOCKS blocks, each pins a buffer, and with all NBUF = LOGBLOCKS
    buffers pinned the commit panics for want of a buffer to copy through. *)
Theorem commit_out_of_buffers (l : log) (s : bcache) (m : cmodel) (bs : list Z) :
  brep s m -> held m = [] -> logging l bs m -> length bs = 30%nat ->
  commit l s = Panic "bget: no buffers".
Proof.
  intros R Hh L Hlen. pose proof L as [H1 H2 H3 H4 H5 H6].
  unfold commit. rewrite H2, Hlen. change (0 <? Z.of_nat 30) with true. cbv iota.
  unfold write_log, tails. rewrite H2, Hlen. change (Z.to_nat (Z.of_nat 30)) with 30%nat.
  assert (write_one l 0 s = Panic "bget: no buffers") as E; [|change (seq 0 30) with (0%nat :: seq 1 29);
    cbn [for_each]; by rewrite E].
  unfold write_one. cbn [Buf.bread bio_cache]. rewrite (bread_exhausted s m); [done|done| |].
  - rewrite in_use_spec, Hh, H4. simpl. intros [Hin|Hin]; [set_solver|].
    apply H6 in Hin as [Hin _]. apply (home_not_log l 0) in Hin; [simpl in Hin; lia|lia].
  - unfold in_use. rewrite Hh. simpl. rewrite size_list_to_set by by rewrite H4.
    rewrite H4, Hlen. unfold NBUF. lia.
Qed.

End LogSpace.

(** ** Whole transactions on the log: restart, [begin_op], writes through
    [log_write], [end_op], with a crash anywhere. *)


Module LogRun.
Import Buf Log LogFacts LogCrash LogSpace.

(** The use of the log that its comment describes: [bp = bread(...)], modify
    [bp->data], [log_write(bp)], [brelse(bp)]. *)
Definition write_block {B} `{BufCache B} (n : Z) (d : block) (l : log) (s : B) : outcome (log * B) :=
  '(b, s) ← bread n s;
  '(l, s) ← log_write b l (bset b d s);
  s ← brelse b s;
  Ret (l, s).

Fixpoint write_blocks {B} `{BufCache B} (ws : list (Z * block)) (l : log) (s : B) : outcome (log * B) :=
  match ws with
  | [] => Ret (l, s)
  | (n, d) :: ws' => '(l, s) ← write_block n d l s; write_blocks ws' l s
  end.

(** The machine starts on disk [d], and one operation writes [ws]. *)
Definition transaction (B : Type) `{BufCache B} (st : Z) (ws : list (Z * block)) (d : disk)
    : outcome (log * B) :=
  '(l, s) ← initlog st (boot d);
  match begin_op l with
  | Some l => '(l, s) ← write_blocks ws l s; end_op l s
  | None => Undef "begin_op sleeps"
  end.

Section laws.
Context {B : Type} `{HB : BufCache B} {rep : B -> cmodel -> Prop} `{HL : !BufCacheLaws B rep}.

Lemma write_block_spec l s m bs n d :
  rep s m -> held m = [] -> logging l bs m -> (length bs < 30)%nat -> 1 <= outstanding l ->
  home (start l) n -> 0 <= n < 2 ^ 32 ->
  exists l' s' bs' p', write_block n d l s = Ret (l', s') /\
    rep s' (mk_cmodel (<[n := d]> (vw m)) (dk m) (tr m) [] p') /\
    logging l' bs' (mk_cmodel (<[n := d]> (vw m)) (dk m) (tr m) [] p') /\
    (forall k, k ∈ bs' <-> k = n \/ k ∈ bs) /\ outstanding l' = outstanding l /\ start l' = start l /\
    committing l' = committing l.
Proof using HL.
  intros R Hh L Hlt Ho Hn Hr. unfold write_block.
  destruct (bread_law s m n R) as (b & s1 & E1 & _ & R1).
  { rewrite Hh. set_solver. }
  { etrans; [|apply (room m [n] Hh); simpl; rewrite (lo_pinned _ _ _ L); unfold NBUF; lia].
    apply subseteq_size. set_solver. }
  unfold mbind, outcome_bind. rewrite E1. rewrite Hh in R1.
  pose proof (bset_law s1 _ b n d R1 ltac:(simpl; set_solver)) as R2. simpl in R2.
  set (m2 := mk_cmodel (<[n := d]> (vw m)) (dk m) (tr m) [(b, n)] (pins m)).
  assert (logging l bs m2) as L2 by (destruct L; by constructor).
  destruct (log_write_spec l (bset b d s1) m2 bs b n R2) as (l' & s3 & bs' & p' & E3 & R3 & L3 & Hin & Ho' & Hst' & Hc');
    [simpl; set_solver|done|done|done|done|done|].
  rewrite E3.
  assert (n ∈ p') as Hp by (pose proof (lo_pinned _ _ _ L3) as Hp; simpl in Hp; rewrite Hp; apply Hin; by left).
  destruct (brelse_law s3 _ [] b n [] R3) as (s4 & -> & R4); [done|by left|].
  exists l', s4, bs', p'. split_and!; [done|exact R4| |done|done|done|done].
  destruct L3 as [H1 H2 H3 H4 H5 H6]. by constructor.
Qed.

Lemma write_blocks_spec ws : forall l s m bs,
  rep s m -> held m = [] -> logging l bs m -> (length bs + length ws <= 30)%nat ->
  1 <= outstanding l -> (forall w, w ∈ ws -> home (start l) w.1 /\ 0 <= w.1 < 2 ^ 32) ->
  exists l' s' bs' p', write_blocks ws l s = Ret (l', s') /\
    rep s' (mk_cmodel (apply_writes ws (vw m)) (dk m) (tr m) [] p') /\
    logging l' bs' (mk_cmodel (apply_writes ws (vw m)) (dk m) (tr m) [] p') /\
    (length bs' <= length bs + length ws)%nat /\ (forall n, n ∈ bs' <-> n ∈ ws.*1 \/ n ∈ bs) /\
    outstanding l' = outstanding l /\ start l' = start l /\
    committing l' = committing l.
Proof using HL.
  induction ws as [|[n d] ws IH]; intros l s m bs R Hh L Hlen Ho Hw.
  - exists l, s, bs, (pins m). destruct m as [v k t h p]. simpl in *. subst h.
    split_and!; [done|done|done|lia|set_solver|done|done|done].
  - destruct (Hw (n, d)) as [Hn Hr]; [set_solver|]. simpl in Hn, Hr, Hlen.
    destruct (write_block_spec l s m bs n d R Hh L) as (l1 & s1 & bs1 & p1 & E1 & R1 & L1 & Hin & Ho1 & Hst1 & Hc1);
      [lia|done|done|done|].
    assert (length bs1 <= S (length bs))%nat as Hl1.
    { change (S (length bs)) with (length (n :: bs)).
      apply submseteq_length, NoDup_submseteq; [apply (lo_distinct _ _ _ L1)|].
      intros k Hk. apply Hin in Hk. set_solver. }
    destruct (IH l1 s1 _ bs1 R1 eq_refl L1) as (l2 & s2 & bs2 & p2 & E2 & R2 & L2 & Hl2 & Hin2 & Ho2 & Hst2 & Hc2);
      [lia|lia|intros w Hwin; rewrite Hst1; apply Hw; set_solver|].
    exists l2, s2, bs2, p2. split_and!; [|exact R2|exact L2|simpl; lia| |lia|congruence|congruence].
    + simpl. unfold mbind, outcome_bind. by rewrite E1.
    + intros k. rewrite Hin2, Hin. simpl. set_solver.
Qed.

(** (C3) A transaction is atomic and durable across crashes: starting from a
    disk with an empty log, recovery, begin_op, the writes and end_op complete
    and the disk then holds the new blocks; there is one point [c] in the
    sequence of disk writes such that a machine that stops after [k] writes,
    and then any number of times again in the middle of its recovery, ends with
    the old disk if [k <= c] and with the new one if [k > c], outside the
    log. *)
Theorem log_transaction_atomic (st : Z) (ws : list (Z * block)) (d : disk) :
  hdr_n (d st) = 0 -> ws <> [] -> (length ws + 2 <= NBUF)%nat ->
  (forall w, w ∈ ws -> home st w.1 /\ 0 <= w.1 < 2 ^ 32) ->
  exists l s, transaction B st ws d = Ret (l, s) /\ lh_n l = 0 /\
    (forall n, home st n -> apply_writes (btrace s) d n = apply_writes ws d n) /\
    exists c, forall k d', rtc (crash (B := B) st) (apply_writes (take k (btrace s)) d) d' ->
      exists l2 (s2 : B), initlog st (boot d') = Ret (l2, s2) /\
        forall n, home st n ->
          apply_writes (btrace s2) d' n = if decide (k <= c)%nat then d n else apply_writes ws d n.
Proof using HL.
  intros Hlog Hne Hlen Hw. unfold NBUF in Hlen.
  destruct (initlog_spec st d []) as (l0 & s0 & E0 & En0 & (Est & Eo & Ec & Eb) & R0);
    [by rewrite Hlog|done|set_solver|simpl; lia|].
  set (d0 := <[st := cleared (d st)]> d : disk).
  change (puts (recovery_writes st d []) (mk_cmodel d d [] [] []))
    with (mk_cmodel d0 d0 [(st, cleared (d st))] [] []) in R0.
  unfold transaction, mbind, outcome_bind. rewrite E0.
  unfold begin_op. rewrite Ec, En0, Eo. change (LOGBLOCKS <? 0 + (0 + 1) * MAXOPBLOCKS) with false. cbv iota.
  set (l1 := mk_log (start l0) (0 + 1) false 0 (lh_block l0)).
  destruct (write_blocks_spec ws l1 s0 _ [] R0) as (l2 & s2 & bs & p & E2 & R2 & L2 & Hl2 & Hin2 & Ho2 & Hst2 & Hc2);
    [done| |simpl; lia|simpl; lia|by simpl; rewrite Est|].
  { constructor; simpl; [done|done|done|done|apply NoDup_nil_2|set_solver]. }
  simpl in R2, L2, Hl2, Hst2, Ho2, Hc2. rewrite E2. unfold end_op, end_op_start.
  unfold mbind, outcome_bind. cbn [committing outstanding]. rewrite Ho2, Hc2.
  change (0 + 1 - 1 =? 0) with true. cbv iota. cbn [start lh_n lh_block].
  set (l3 := mk_log (start l2) (0 + 1 - 1) true (lh_n l2) (lh_block l2)).
  assert (bs <> []) as Hbs.
  { destruct ws as [|w ws']; [done|]. intros ->. assert (w.1 ∈ ([] : list Z)) as H; [|set_solver].
    apply Hin2. left. set_solver. }
  assert (pending l3 bs (mk_cmodel (apply_writes ws d0) d0 [(st, cleared (d st))] [] p)) as P3.
  { apply logging_pending; [|done|unfold NBUF; lia].
    destruct L2 as [H1 H2 H3 H4 H5 H6]. by constructor. }
  assert (settled st d d) as Sd by done.
  destruct (recovery_settled st d d Sd) as [_ T0].
  destruct (log_crash_atomic l3 s2 _ bs R2 P3 Hbs) as (l4 & s4 & W & E4 & En4 & R4 & Hnew & Hcrash).
  { cbn [dk start l3]. rewrite Hst2, Est. unfold d0. rewrite disk_upd_eq. apply cleared_n. }
  rewrite E4. cbn [dk vw start l3] in Hnew, Hcrash. rewrite Hst2, Est in Hnew, Hcrash.
  exists (mk_log (start l4) (outstanding l4) false (lh_n l4) (lh_block l4)), s4.
  assert (btrace s4 = (st, cleared (d st)) :: W) as Etr by (by rewrite (btrace_law _ _ R4)).
  assert (forall n, home st n -> d0 n = d n) as Hd0.
  { intros n Hn. unfold d0. apply disk_upd_ne. by destruct (home_ne st n Hn). }
  assert (forall n, home st n -> apply_writes ws d0 n = apply_writes ws d n) as Hd1.
  { intros n Hn. by apply apply_writes_agree, Hd0. }
  split_and!; [done|done| |].
  { intros n Hn. rewrite Etr. simpl. fold d0. rewrite Hnew, Hd1 by done. done. }
  exists (S (length bs)). intros k d' Hc. rewrite Etr in Hc.
  destruct k as [|k].
  - simpl in Hc.
    assert (settled st d d') as Hd'.
    { eapply (rtc_invariant (crash (B := B) st)); [|exact Hc|done].
      intros e e' He. by apply crash_settled. }
    destruct (settled_recovers st d d' Hd') as (l5 & s5 & E5 & H5). exists l5, s5.
    split; [done|]. intros n Hn. rewrite decide_True by lia. by apply H5.
  - simpl in Hc. fold d0 in Hc. destruct (Hcrash k d' Hc) as (l5 & s5 & E5 & _ & H5).
    exists l5, s5. split; [done|]. intros n Hn. rewrite H5 by done.
    destruct (decide (k <= length bs)%nat), (decide (S k <= S (length bs))%nat); try lia; auto.
Qed.

End laws.
(** ** The theorems on the cache of bio.c *)

Import Bio BioRep.

Definition zero_disk : disk := fun _ _ => 0.
Definition demo_writes : list (Z * block) := [(50, fun _ => 7); (51, fun _ => 8); (50, fun _ => 9)].

Lemma log_transaction_atomic_witness :
  hdr_n (zero_disk 2) = 0 /\
  exists l s, transaction Bio.bcache 2 demo_writes zero_disk = Ret (l, s) /\ lh_n l = 0 /\
    apply_writes (btrace s) zero_disk 50 = (fun _ => 9).
Proof.
  split; [done|].
  destruct (log_transaction_atomic (B := Bio.bcache) 2 demo_writes zero_disk) as (l & s & E & En & Hn & _);
    [done|done|unfold NBUF; simpl; lia| |].
  - unfold home, LOGBLOCKS.
    intros w [->|[->|[->|[]%elem_of_nil]%elem_of_cons]%elem_of_cons]%elem_of_cons; simpl; lia.
  - exists l, s. split; [exact E|split; [exact En|]]. rewrite (Hn 50); [done|].
    unfold home, LOGBLOCKS. lia.
Defined.

(** Thirty blocks written by operations in progress. *)
Definition thirty : list (Z * block) := (fun i => (100 + Z.of_nat i, fun _ => 1)) <$> seq 0 30.

Lemma full_log_exists :
  exists l s m bs, BioRep.brep s m /\ held m = [] /\ logging l bs m /\ length bs = 30%nat.
Proof.
  pose (l0 := mk_log 2 3 false 0 (replicate 30 0)).
  destruct (write_blocks_spec thirty l0 (Buf.boot zero_disk) (mk_cmodel zero_disk zero_disk [] [] []) [])
    as (l & s & bs & p & _ & R & L & Hlen & Hin & _);
    [apply (boot_law (B := Bio.bcache))|done| |unfold thirty; rewrite length_fmap, length_seq; simpl; lia|done| |].
  - constructor; simpl; [done|done|done|done|apply NoDup_nil_2|set_solver].
  - intros w Hw. unfold thirty in Hw. apply list_elem_of_fmap in Hw as (i & -> & Hi).
    apply elem_of_seq in Hi. unfold home, LOGBLOCKS. simpl. lia.
  - exists l, s. eexists. exists bs. split_and!; [exact R|done|exact L|].
    assert (length thirty.*1 <= length bs)%nat as Hge.
    { apply submseteq_length, NoDup_submseteq; [|intros n Hn; apply Hin; by left].
      unfold thirty. rewrite <- list_fmap_compose. apply NoDup_fmap_2_strong; [|apply NoDup_seq].
      intros i j _ _ E. simpl in E. lia. }
    unfold thirty in *. rewrite !length_fmap, length_seq in *. simpl in Hlen. lia.
Qed.

Lemma commit_out_of_buffers_witness :
  exists (l : log) (s : Bio.bcache) m bs, BioRep.brep s m /\ logging l bs m /\
    commit l s = Panic "bget: no buffers".
Proof.
  destruct full_log_exists as (l & s & m & bs & R & Hh & L & Hlen). exists l, s, m, bs.
  split; [exact R|split; [exact L|]]. exact (commit_out_of_buffers l s m bs R Hh L Hlen).
Defined.

Lemma log_space_reserved_witness :
  exists t, rtc tx_step (txs_init 2) t /\ ops t = [∅] /\
    exists is_new l, note_block 50 (the_log t) = Ret (is_new, l) /\ 50 ∈ logged_blocks l.
Proof.
  assert (rtc tx_step (txs_init 2) (mk_txs (mk_log 2 1 false 0 (replicate 30 0)) [∅])) as Hr.
  { eapply rtc_l; [by apply tx_begin|apply rtc_refl]. }
  eexists. split; [exact Hr|split; [done|]].
  destruct (log_space_reserved 2 _ 0 ∅ 50 Hr eq_refl) as (b & l & E & Hin & _).
  - rewrite (size_empty (C := gset Z)). unfold MAXOPBLOCKS. lia.
  - exists b, l. split; [exact E|exact Hin].
Defined.

End LogRun.
