(* ===== verification/Fs.v ===== *)
(** * The file system (xv6-memory-management/kernel/fs.c)

    Block allocation, inodes, file contents, directories and path names.
    [blocks] is the view a transaction has of the disk: [bread], a change of
    the buffer, [log_write] and [brelse] on block [n] are an update of the view
    at [n], as [LogRun] proves of the log.  Inode pointers are indices into the
    inode table. *)
From S2P Require Import Prelude Mem Buf.

#[local] Open Scope Z_scope.

Module Fs.
Import Buf.

(** ** fs.h *)

Definition ROOTDEV : Z := 1.
Definition ROOTINO : Z := 1.
Definition FSMAGIC : Z := 270544960.      (* 0x10203040 *)
Definition NINODE : nat := 50.
Definition NDIRECT : Z := 12.
Definition NINDIRECT : Z := BSIZE / 4.
Definition MAXFILE : Z := NDIRECT + NINDIRECT.
Definition IPB : Z := BSIZE / 64.
Definition BPB : Z := BSIZE * 8.
Definition DIRSIZ : Z := 14.
Definition DIRENT : Z := 16.              (* sizeof(struct dirent) *)
Definition T_DIR : Z := 1.
Definition T_FILE : Z := 2.

Record superblock := mk_sb {
  magic : Z; size : Z; nblocks : Z; ninodes : Z;
  nlog : Z; logstart : Z; inodestart : Z; bmapstart : Z
}.

Record inode := mk_inode {
  dev : Z;           (* uint *)
  inum : Z;          (* uint *)
  ref : Z;           (* int *)
  locked : bool;     (* ip->lock *)
  valid : bool;
  type : Z;          (* short *)
  major : Z;         (* short *)
  minor : Z;         (* short *)
  nlink : Z;         (* short *)
  isize : Z;         (* uint *)
  addrs : list Z     (* uint addrs[NDIRECT+1] *)
}.

Definition zero_inode : inode := mk_inode 0 0 0 false false 0 0 0 0 0 (replicate 13 0).

Record fs := mk_fs {
  blocks : disk;
  itable : list inode;
  sb : superblock
}.

Definition IBLOCK (i : Z) (s : fs) : Z := i / IPB + inodestart (sb s).
Definition BBLOCK (b : Z) (s : fs) : Z := b / BPB + bmapstart (sb s).

Definition set_block (n : Z) (d : block) (s : fs) : fs :=
  {| s with blocks := <[n := d]> (blocks s) |}.
Definition geti (s : fs) (i : nat) : inode := default zero_inode (itable s !! i).
Definition seti (i : nat) (ip : inode) (s : fs) : fs :=
  {| s with itable := <[i := ip]> (itable s) |}.

(** ** Super block *)

Definition readsb (d : block) : superblock :=
  mk_sb (get32 d 0) (get32 d 4) (get32 d 8) (get32 d 12)
        (get32 d 16) (get32 d 20) (get32 d 24) (get32 d 28).

(** [fsinit] up to the recovery of the log. *)
Definition fsinit (s : fs) : outcome fs :=
  let sb' := readsb (blocks s 1) in
  if negb (magic sb' =? FSMAGIC) then Panic "invalid file system" else Ret {| s with sb := sb' |}.

Definition zero_block : block := fun x => 0.

(** [memset(bp->data, 0, BSIZE)] *)
Definition bzero (bno : Z) (s : fs) : fs :=
  set_block bno (Mem.memset (blocks s bno) 0 0 BSIZE) s.

(** ** Block allocation *)

Definition bit_mask (bi : Z) : Z := Z.shiftl 1 (bi mod 8).
Definition bit_clear (d : block) (bi : Z) : bool := Z.land (d (bi / 8)) (bit_mask bi) =? 0.
Definition set_bit (d : block) (bi : Z) : block :=
  <[bi / 8 := Z.lor (d (bi / 8)) (bit_mask bi)]> d.
Definition clear_bit (d : block) (bi : Z) : block :=
  <[bi / 8 := Z.land (d (bi / 8)) (Z.lnot (bit_mask bi))]> d.

(** The inner loop of [balloc]: [for (bi = 0; bi < BPB && b + bi < size; bi++)] *)
Definition find_clear (d : block) (b : Z) (s : fs) : option Z :=
  List.find (bit_clear d)
    (Z.of_nat <$> seq 0 (Z.to_nat (Z.min BPB (size (sb s) - b)))).

(** The outer loop, over the bitmap's blocks from block number [b] on. *)
Fixpoint balloc_from (fuel : nat) (b : Z) (s : fs) : Z * fs :=
  match fuel with
  | O => (0, s)
  | S fuel' =>
      if b <? size (sb s) then
        let d := blocks s (BBLOCK b s) in
        match find_clear d b s with
        | Some bi => (b + bi, bzero (b + bi) (set_block (BBLOCK b s) (set_bit d bi) s))
        | None => balloc_from fuel' (b + BPB) s
        end
      else (0, s)
  end.

(** 0 when no block is free. *)
Definition balloc (s : fs) : Z * fs :=
  balloc_from (Z.to_nat (size (sb s) / BPB + 1)) 0 s.

Definition bfree (b : Z) (s : fs) : outcome fs :=
  let d := blocks s (BBLOCK b s) in
  let bi := b mod BPB in
  if bit_clear d bi then Panic "freeing free block"
  else Ret (set_block (BBLOCK b s) (clear_bit d bi) s).

(** ** Inodes *)

(** 16-bit fields of a block. *)
Definition i16 (z : Z) : Z := (z + 2 ^ 15) mod 2 ^ 16 - 2 ^ 15.
Definition get16 (d : block) (off : Z) : Z := Mem.load_le 2 d off.
Definition put16 (d : block) (off v : Z) : block :=
  fun x => if (off <=? x) && (x <? off + 2) then v / 256 ^ (x - off) mod 256 else d x.

(** The byte offset of a disk inode in its block (64 bytes each). *)
Definition dinode (i : Z) : Z := 64 * (i mod IPB).

Definition put_dinode (ip : inode) (d : block) (o : Z) : block :=
  let d := put16 d o (u16 (type ip)) in
  let d := put16 d (o + 2) (u16 (major ip)) in
  let d := put16 d (o + 4) (u16 (minor ip)) in
  let d := put16 d (o + 6) (u16 (nlink ip)) in
  let d := put32 d (o + 8) (isize ip) in
  fold_left (fun d p => put32 d (o + 12 + 4 * Z.of_nat p.1) p.2) (zip (seq 0 13) (addrs ip)) d.

Definition get_dinode (ip : inode) (d : block) (o : Z) : inode :=
  {| ip with type := i16 (get16 d o); major := i16 (get16 d (o + 2));
             minor := i16 (get16 d (o + 4)); nlink := i16 (get16 d (o + 6));
             isize := get32 d (o + 8);
             addrs := (fun j => get32 d (o + 12 + 4 * Z.of_nat j)) <$> seq 0 13 |}.

Definition iupdate (i : nat) (s : fs) : fs :=
  let ip := geti s i in
  let n := IBLOCK (inum ip) s in
  set_block n (put_dinode ip (blocks s n) (dinode (inum ip))) s.

(** The loop of [iget]: the entry in use for the inode, and the first free one. *)
Definition same_inode (d n : Z) (ip : inode) : bool := (0 <? ref ip) && (dev ip =? d) && (inum ip =? n).

Definition iget (d n : Z) (s : fs) : outcome (nat * fs) :=
  match find_idx (same_inode d n) (itable s) with
  | Some i => let ip := geti s i in Ret (i, seti i {| ip with ref := ref ip + 1 |} s)
  | None =>
      match find_idx (fun ip => ref ip =? 0) (itable s) with
      | Some i =>
          let ip := geti s i in
          Ret (i, seti i {| ip with dev := d; inum := n; ref := 1; valid := false |} s)
      | None => Panic "iget: no inodes"
      end
  end.

Definition idup (i : nat) (s : fs) : nat * fs :=
  let ip := geti s i in (i, seti i {| ip with ref := ref ip + 1 |} s).

(** [for (inum = 1; inum < sb.ninodes; inum++)] up to a free inode. *)
Definition ialloc (d ty : Z) (s : fs) : outcome (option nat * fs) :=
  let free n := get16 (blocks s (IBLOCK n s)) (dinode n) =? 0 in
  match List.find free (Z.of_nat <$> seq 1 (Z.to_nat (ninodes (sb s)) - 1)) with
  | Some n =>
      let blk := Mem.memset (blocks s (IBLOCK n s)) (dinode n) 0 64 in
      let s := set_block (IBLOCK n s) (put16 blk (dinode n) (u16 ty)) s in
      '(i, s) ← iget d n s; Ret (Some i, s)
  | None => Ret (None, s)
  end.

Definition ilock (i : nat) (s : fs) : outcome fs :=
  let ip := geti s i in
  if ref ip <? 1 then Panic "ilock"
  else if locked ip then Undef "sleep on a held inode"
  else
    let s := seti i {| ip with locked := true |} s in
    let ip := geti s i in
    if valid ip then Ret s
    else
      let ip := get_dinode ip (blocks s (IBLOCK (inum ip) s)) (dinode (inum ip)) in
      let s := seti i {| ip with valid := true |} s in
      if type ip =? 0 then Panic "ilock: no type" else Ret s.

Definition iunlock (i : nat) (s : fs) : outcome fs :=
  let ip := geti s i in
  if negb (locked ip) || (ref ip <? 1) then Panic "iunlock"
  else Ret (seti i {| ip with locked := false |} s).

(** ** Contents *)

Definition addr (ip : inode) (k : Z) : Z := default 0 (addrs ip !! Z.to_nat k).
Definition set_addr (k a : Z) (i : nat) (s : fs) : fs :=
  let ip := geti s i in seti i {| ip with addrs := <[Z.to_nat k := a]> (addrs ip) |} s.

(** [ip->addrs[k]], allocated when missing. *)
Definition get_addr (i : nat) (k : Z) (s : fs) : Z * fs :=
  let a := addr (geti s i) k in
  if a =? 0 then
    let '(a, s) := balloc s in
    if a =? 0 then (0, s) else (a, set_addr k a i s)
  else (a, s).

Definition bmap (i : nat) (bn : Z) (s : fs) : outcome (Z * fs) :=
  if bn <? NDIRECT then Ret (get_addr i bn s)
  else
    let bn := bn - NDIRECT in
    if bn <? NINDIRECT then
      let '(ind, s) := get_addr i NDIRECT s in
      if ind =? 0 then Ret (0, s)
      else
        let a := get32 (blocks s ind) (4 * bn) in
        if a =? 0 then
          let '(a, s) := balloc s in
          if a =? 0 then Ret (0, s)
          else Ret (a, set_block ind (put32 (blocks s ind) (4 * bn) a) s)
        else Ret (a, s)
    else Panic "bmap: out of range".

(** Free the blocks named, skipping zeros. *)
Fixpoint bfree_all (l : list Z) (s : fs) : outcome fs :=
  match l with
  | [] => Ret s
  | a :: l' => s ← (if a =? 0 then Ret s else bfree a s); bfree_all l' s
  end.

Definition itrunc (i : nat) (s : fs) : outcome fs :=
  let direct := take 12 (addrs (geti s i)) in
  s ← bfree_all direct s;
  let ip := geti s i in
  let s := seti i {| ip with addrs := replicate 12 0 ++ drop 12 (addrs ip) |} s in
  let ind := addr (geti s i) NDIRECT in
  s ← (if ind =? 0 then Ret s
       else
         let a := (fun j => get32 (blocks s ind) (4 * Z.of_nat j)) <$> seq 0 256 in
         s ← bfree_all a s;
         s ← bfree ind s;
         Ret (set_addr NDIRECT 0 i s));
  let ip := geti s i in
  Ret (iupdate i (seti i {| ip with isize := 0 |} s)).

(** [iput]: the last reference to an inode without links frees it. *)
Definition iput (i : nat) (s : fs) : outcome fs :=
  let ip := geti s i in
  s ← (if (ref ip =? 1) && valid ip && (nlink ip =? 0) then
         if locked ip then Undef "sleep on a held inode"
         else
           s ← itrunc i s;
           let ip := geti s i in
           let s := iupdate i (seti i {| ip with type := 0 |} s) in
           let ip := geti s i in
           Ret (seti i {| ip with valid := false |} s)
       else Ret s);
  let ip := geti s i in
  Ret (seti i {| ip with ref := ref ip - 1 |} s).

Definition iunlockput (i : nat) (s : fs) : outcome fs := s ← iunlock i s; iput i s.

(** The copies of [readi] and [writei] ([either_copyout], [either_copyin]): for the
    piece of [m] bytes at position [pos] of the transfer, [None] when the copy
    succeeds and [Some k] when it fails after [k] bytes, as it can with a user
    address.  With a kernel address it does not fail. *)
Definition copier : Type := Z -> Z -> option Z.
Definition kernel_copy : copier := fun _ _ => None.

(** The loop of [readi]: did every copy succeed, and the bytes copied. *)
Fixpoint readi_loop (cp : copier) (fuel : nat) (i : nat) (pos off n : Z) (s : fs)
    : outcome (bool * list Z * fs) :=
  if n <=? 0 then Ret (true, [], s)
  else
    match fuel with
    | O => Undef "readi: fuel"
    | S fuel' =>
        '(a, s) ← bmap i (off / BSIZE) s;
        if a =? 0 then Ret (true, [], s)
        else
          let m := Z.min n (BSIZE - off mod BSIZE) in
          let chunk := (fun k => blocks s a (off mod BSIZE + Z.of_nat k)) <$> seq 0 (Z.to_nat m) in
          match cp pos m with
          | Some k => Ret (false, take (Z.to_nat k) chunk, s)
          | None =>
              '(ok, rest, s) ← readi_loop cp fuel' i (pos + m) (off + m) (n - m) s;
              Ret (ok, chunk ++ rest, s)
          end
    end.

(** The return value and the bytes that reached the destination. *)
Definition readi_to (cp : copier) (i : nat) (off n : Z) (s : fs) : outcome (Z * list Z * fs) :=
  let sz := isize (geti s i) in
  if (sz <? off) || (u32 (off + n) <? off) then Ret (0, [], s)
  else
    let n := if sz <? u32 (off + n) then sz - off else n in
    '(ok, out, s) ← readi_loop cp (Z.to_nat n) i 0 off n s;
    Ret (if ok : bool then Z.of_nat (length out) else -1, out, s).

(** [readi] to a kernel address: the bytes read; the code returns their number. *)
Definition readi (i : nat) (off n : Z) (s : fs) : outcome (list Z * fs) :=
  '(_, out, s) ← readi_to kernel_copy i off n s; Ret (out, s).

(** Store [bytes] in a block from offset [o] on. *)
Definition store_bytes (d : block) (o : Z) (bytes : list Z) : block :=
  fun x => if (o <=? x) && (x <? o + Z.of_nat (length bytes))
           then default 0 (bytes !! Z.to_nat (x - o)) else d x.

(** The loop of [writei]: how many bytes were written.  The bytes of a piece
    whose copy fails are in the buffer, up to where it failed, but not counted,
    and the buffer is not passed to [log_write]. *)
Fixpoint writei_loop (cp : copier) (fuel : nat) (i : nat) (pos off : Z) (src : list Z) (s : fs)
    : outcome (Z * fs) :=
  match src with
  | [] => Ret (0, s)
  | _ =>
      match fuel with
      | O => Undef "writei: fuel"
      | S fuel' =>
          '(a, s) ← bmap i (off / BSIZE) s;
          if a =? 0 then Ret (0, s)
          else
            let m := Z.min (Z.of_nat (length src)) (BSIZE - off mod BSIZE) in
            let put := fun bytes => set_block a (store_bytes (blocks s a) (off mod BSIZE) bytes) s in
            match cp pos m with
            | Some k => Ret (0, put (take (Z.to_nat k) (take (Z.to_nat m) src)))
            | None =>
                let s := put (take (Z.to_nat m) src) in
                '(tot, s) ← writei_loop cp fuel' i (pos + m) (off + m) (drop (Z.to_nat m) src) s;
                Ret (m + tot, s)
            end
      end
  end.

Definition writei_from (cp : copier) (i : nat) (off : Z) (src : list Z) (s : fs) : outcome (Z * fs) :=
  let n := Z.of_nat (length src) in
  if (isize (geti s i) <? off) || (u32 (off + n) <? off) then Ret (-1, s)
  else if MAXFILE * BSIZE <? u32 (off + n) then Ret (-1, s)
  else
    '(tot, s) ← writei_loop cp (length src) i 0 off src s;
    let off := off + tot in
    let ip := geti s i in
    let s := if isize ip <? off then seti i {| ip with isize := off |} s else s in
    Ret (tot, iupdate i s).

(** [writei] from a kernel address. *)
Definition writei : nat -> Z -> list Z -> fs -> outcome (Z * fs) := writei_from kernel_copy.

End Fs.
