(* ===== verification/FsFacts.v ===== *)
(** * Block allocation and the map from file blocks to disk blocks. *)
From S2P Require Import Prelude Mem MemFacts Buf Fs.

#[local] Open Scope Z_scope.

Module FsFacts.
Import Buf Fs.

(** ** Bits of the map *)

Lemma land_bit x k : 0 <= k -> (Z.land x (Z.shiftl 1 k) =? 0) = negb (Z.testbit x k).
Proof.
  intros Hk. destruct (Z.testbit x k) eqn:E; simpl.
  - apply Z.eqb_neq. intros H. apply (f_equal (fun z => Z.testbit z k)) in H.
    rewrite Z.land_spec, Z.shiftl_1_l, Z.pow2_bits_true, E, Z.bits_0 in H by done. done.
  - apply Z.eqb_eq, Z.bits_inj_0. intros j.
    rewrite Z.land_spec, Z.shiftl_1_l. destruct (Z.eqb_spec k j) as [->|Hne].
    + by rewrite E.
    + rewrite Z.pow2_bits_false by done. apply andb_false_r.
Qed.

Lemma bit_clear_spec d bi : bit_clear d bi = negb (Z.testbit (d (bi / 8)) (bi mod 8)).
Proof. apply land_bit. pose proof (Z.mod_pos_bound bi 8). lia. Qed.

Lemma bit_eq i j : i / 8 = j / 8 -> i mod 8 = j mod 8 -> i = j.
Proof. pose proof (Z.div_mod i 8). pose proof (Z.div_mod j 8). lia. Qed.

Lemma bit_clear_set d bi bj :
  bit_clear (set_bit d bi) bj = negb (bj =? bi) && bit_clear d bj.
Proof.
  rewrite !bit_clear_spec. unfold set_bit, bit_mask. rewrite Z.shiftl_1_l.
  pose proof (Z.mod_pos_bound bi 8). pose proof (Z.mod_pos_bound bj 8).
  destruct (decide (bi / 8 = bj / 8)) as [Eq|Hq].
  - rewrite Eq, (fn_lookup_insert (A := Z) (T := Z)), Z.lor_spec.
    destruct (Z.eqb_spec bj bi) as [->|Hne]; simpl.
    + rewrite Z.pow2_bits_true by lia. by rewrite orb_true_r.
    + rewrite Z.pow2_bits_false by (intros Em; apply Hne; symmetry; by apply bit_eq).
      by rewrite orb_false_r.
  - rewrite (fn_lookup_insert_ne (A := Z) (T := Z)) by done.
    rewrite (proj2 (Z.eqb_neq bj bi)) by congruence. done.
Qed.

Lemma bit_clear_clear d bi bj :
  bit_clear (clear_bit d bi) bj = (bj =? bi) || bit_clear d bj.
Proof.
  rewrite !bit_clear_spec. unfold clear_bit, bit_mask. rewrite Z.shiftl_1_l.
  pose proof (Z.mod_pos_bound bi 8). pose proof (Z.mod_pos_bound bj 8).
  destruct (decide (bi / 8 = bj / 8)) as [Eq|Hq].
  - rewrite Eq, (fn_lookup_insert (A := Z) (T := Z)), Z.land_spec, Z.lnot_spec by lia.
    destruct (Z.eqb_spec bj bi) as [->|Hne]; simpl.
    + rewrite Z.pow2_bits_true by lia. by rewrite andb_false_r.
    + rewrite Z.pow2_bits_false by (intros Em; apply Hne; symmetry; by apply bit_eq).
      by rewrite andb_true_r.
  - rewrite (fn_lookup_insert_ne (A := Z) (T := Z)) by done.
    rewrite (proj2 (Z.eqb_neq bj bi)) by congruence. done.
Qed.

(** ** The disk layout *)

(** The free map says block [b] is taken. *)
Definition used (s : fs) (b : Z) : bool := negb (bit_clear (blocks s (BBLOCK b s)) (b mod BPB)).

(** Data blocks start at [ds]; the inode blocks and the free map are below, and
    all blocks below are taken. *)
Record fs_ok (ds : Z) (s : fs) : Prop := mk_fs_ok {
  ok_ds : 0 < ds <= size (sb s);
  ok_size : size (sb s) < 2 ^ 31;
  ok_inodes : forall n, 0 <= n < ninodes (sb s) -> 0 <= IBLOCK n s < bmapstart (sb s);
  ok_map : forall b, 0 <= b < size (sb s) -> bmapstart (sb s) <= BBLOCK b s < ds;
  ok_meta : forall b, 0 <= b < ds -> used s b = true
}.

Definition is_data (ds : Z) (s : fs) (b : Z) : Prop := ds <= b < size (sb s).

(** ** balloc and bfree *)

(** One block [a] has been taken and zeroed. *)
Record allocated (ds a : Z) (s s' : fs) : Prop := mk_allocated {
  al_data : is_data ds s a;
  al_free : used s a = false;
  al_used : forall b, 0 <= b < size (sb s) -> used s' b = (b =? a) || used s b;
  al_zero : forall x, 0 <= x < BSIZE -> blocks s' a x = 0;
  al_same : forall n, is_data ds s n -> n <> a -> blocks s' n = blocks s n;
  al_low : forall n, n < bmapstart (sb s) -> blocks s' n = blocks s n;
  al_itable : itable s' = itable s;
  al_sb : sb s' = sb s
}.

Lemma find_clear_Some d b s bi :
  find_clear d b s = Some bi -> 0 <= bi < BPB /\ b + bi < size (sb s) /\ bit_clear d bi = true.
Proof.
  unfold find_clear. intros H. apply List.find_some in H as [Hin Hc].
  apply list_elem_of_In, list_elem_of_fmap in Hin as (k & -> & Hk). apply elem_of_seq in Hk.
  split_and!; [lia|lia|lia|done].
Qed.

Lemma find_clear_None d b s bi :
  find_clear d b s = None -> 0 <= bi < BPB -> b + bi < size (sb s) -> bit_clear d bi = false.
Proof.
  unfold find_clear. intros H H1 H2. apply (List.find_none _ _ H).
  apply list_elem_of_In, list_elem_of_fmap. exists (Z.to_nat bi). split; [lia|]. apply elem_of_seq. lia.
Qed.

Lemma bblock_add b bi s : b mod BPB = 0 -> 0 <= bi < BPB -> BBLOCK (b + bi) s = BBLOCK b s.
Proof.
  intros Hb Hbi. unfold BBLOCK, BPB, BSIZE in *. f_equal.
  pose proof (Z.div_mod b (1024 * 8)). pose proof (Z.div_mod (b + bi) (1024 * 8)).
  pose proof (Z.mod_pos_bound (b + bi) (1024 * 8)). lia.
Qed.
Lemma mod_add b bi : b mod BPB = 0 -> 0 <= bi < BPB -> (b + bi) mod BPB = bi.
Proof.
  intros Hb Hbi. rewrite Z.add_mod, Hb, Z.add_0_l, Z.mod_mod by (unfold BPB, BSIZE; lia).
  by apply Z.mod_small.
Qed.

Lemma bblock_eq b a s : BBLOCK b s = BBLOCK a s -> b mod BPB = a mod BPB -> b = a.
Proof.
  unfold BBLOCK, BPB, BSIZE. pose proof (Z.div_mod b (1024 * 8)). pose proof (Z.div_mod a (1024 * 8)). lia.
Qed.

(** The effect of setting the bit of [a] and zeroing the block. *)
Lemma take_block ds s a :
  fs_ok ds s -> 0 <= a < size (sb s) -> used s a = false ->
  allocated ds a s
    (bzero a (set_block (BBLOCK a s) (set_bit (blocks s (BBLOCK a s)) (a mod BPB)) s)).
Proof.
  intros [H1 H2 H3 H4 H5] Ha Hu.
  assert (ds <= a) as Hds by (destruct (Z.le_gt_cases ds a); [done|]; rewrite H5 in Hu by lia; done).
  pose proof (H4 a Ha) as HB.
  set (s1 := set_block (BBLOCK a s) _ s). unfold bzero. set (s2 := set_block a _ s1).
  assert (forall n, blocks s2 n = if decide (n = a) then Mem.memset (blocks s1 a) 0 0 BSIZE
    else if decide (n = BBLOCK a s) then set_bit (blocks s (BBLOCK a s)) (a mod BPB) else blocks s n) as G.
  { intros n. unfold s2, set_block. cbn [blocks].
    case_decide; [subst; by rewrite disk_upd_eq|]. rewrite disk_upd_ne by done.
    unfold s1, set_block. cbn [blocks].
    case_decide; [subst; by rewrite disk_upd_eq|by rewrite disk_upd_ne]. }
  constructor; try done.
  - unfold is_data. lia.
  - intros b Hb. pose proof (H4 b Hb) as HBb. unfold used.
    change (BBLOCK b s2) with (BBLOCK b s). rewrite G, decide_False by lia.
    case_decide as E.
    + rewrite bit_clear_set, E, negb_andb, negb_involutive. f_equal.
      destruct (Z.eqb_spec (b mod BPB) (a mod BPB)) as [Em|Em].
      * symmetry. apply Z.eqb_eq. by apply (bblock_eq b a s).
      * symmetry. apply Z.eqb_neq. congruence.
    + rewrite (proj2 (Z.eqb_neq b a)) by congruence. done.
  - intros x Hx. rewrite G, decide_True by done. by apply MemFacts.memset_in.
  - intros n Hn Hna. unfold is_data in Hn. rewrite G, !decide_False by lia. done.
  - intros n Hn. rewrite G, !decide_False by lia. done.
Qed.

Lemma balloc_from_itable fuel b s : itable (balloc_from fuel b s).2 = itable s.
Proof.
  revert b. induction fuel as [|fuel IH]; intros b; simpl; [done|]. destruct (b <? size (sb s)); [|done].
  destruct (find_clear _ _ _); [done|apply IH].
Qed.

Lemma balloc_from_spec ds s fuel b :
  fs_ok ds s -> 0 <= b -> b mod BPB = 0 -> size (sb s) <= b + BPB * Z.of_nat fuel ->
  let '(a, s') := balloc_from fuel b s in
  (a = 0 /\ s' = s /\ forall c, b <= c < size (sb s) -> used s c = true) \/
  (a <> 0 /\ allocated ds a s s').
Proof.
  intros Hok. revert b. induction fuel as [|fuel IH]; intros b Hb Hm Hf; simpl.
  { left. split_and!; [done|done|]. intros c Hc. lia. }
  destruct (Z.ltb_spec b (size (sb s))) as [Hlt|Hge].
  2:{ left. split_and!; [done|done|]. intros c Hc. lia. }
  destruct (find_clear _ b s) as [bi|] eqn:Hf2.
  - apply find_clear_Some in Hf2 as (H1 & H2 & H3). right.
    assert (used s (b + bi) = false) as Hu.
    { unfold used. rewrite bblock_add, mod_add by done. by rewrite H3. }
    pose proof (take_block ds s (b + bi) Hok ltac:(lia) Hu) as HA.
    rewrite bblock_add, mod_add in HA by done. split; [|done].
    pose proof (al_data _ _ _ _ HA) as Hd. pose proof (ok_ds _ _ Hok). unfold is_data in Hd. lia.
  - specialize (IH (b + BPB)). destruct (balloc_from fuel (b + BPB) s) as [a s'].
    assert (BPB = 8192) as EB by done.
    destruct IH as [(-> & -> & Hall)|HA]; [lia| |lia| |by right].
    { rewrite Z.add_mod, Hm, Z.mod_same by lia. done. }
    left. split_and!; [done|done|]. intros c Hc.
    destruct (Z.lt_ge_cases c (b + BPB)) as [Hcb|Hcb]; [|apply Hall; lia].
    unfold used. replace c with (b + (c - b)) by lia. rewrite bblock_add, mod_add by (done || lia).
    by rewrite (find_clear_None _ _ _ _ Hf2) by lia.
Qed.

Lemma balloc_spec ds s :
  fs_ok ds s ->
  let '(a, s') := balloc s in
  (a = 0 /\ s' = s /\ forall c, 0 <= c < size (sb s) -> used s c = true) \/
  (a <> 0 /\ allocated ds a s s').
Proof.
  intros Hok. apply balloc_from_spec; [done|done|done|].
  pose proof (ok_ds _ _ Hok). rewrite Z2Nat.id by (apply Z.add_nonneg_nonneg; [apply Z.div_pos; [lia|unfold BPB, BSIZE; lia]|lia]).
  pose proof (Z.div_mod (size (sb s)) BPB). pose proof (Z.mod_pos_bound (size (sb s)) BPB).
  unfold BPB, BSIZE in *. lia.
Qed.

Lemma allocated_ok ds a s s' : fs_ok ds s -> allocated ds a s s' -> fs_ok ds s'.
Proof.
  intros [H1 H2 H3 H4 H5] [A1 A2 A3 A4 A5 A6 A7 A8]. unfold IBLOCK, BBLOCK in *.
  constructor; rewrite ?A8; unfold IBLOCK, BBLOCK; rewrite ?A8; try done.
  intros b Hb. rewrite A3 by lia. rewrite H5 by done. apply orb_true_r.
Qed.

(** bfree gives back what balloc took and panics on a block that is not taken. *)
Lemma bfree_spec ds s b :
  fs_ok ds s -> is_data ds s b ->
  if used s b then
    exists s', bfree b s = Ret s' /\ itable s' = itable s /\ sb s' = sb s /\
      (forall c, 0 <= c < size (sb s) -> used s' c = negb (c =? b) && used s c) /\
      (forall n, is_data ds s n -> blocks s' n = blocks s n) /\ fs_ok ds s'
  else bfree b s = Panic "freeing free block".
Proof.
  intros Hok Hb. pose proof Hok as [H1 H2 H3 H4 H5]. unfold is_data in *.
  unfold used at 1, bfree. destruct (bit_clear _ _) eqn:E; simpl; [done|].
  set (s' := set_block _ _ s). pose proof (H4 b ltac:(lia)) as HB.
  assert (forall c, 0 <= c < size (sb s) -> used s' c = negb (c =? b) && used s c) as Hu.
  { intros c Hc. unfold used. change (BBLOCK c s') with (BBLOCK c s).
    unfold s', set_block. cbn [blocks].
    destruct (decide (BBLOCK b s = BBLOCK c s)) as [Eq|Hne].
    - rewrite <- Eq, disk_upd_eq, bit_clear_clear, negb_orb. f_equal. f_equal.
      destruct (Z.eqb_spec (c mod BPB) (b mod BPB)) as [Em|Em].
      + symmetry. apply Z.eqb_eq. by apply (bblock_eq c b s).
      + symmetry. apply Z.eqb_neq. congruence.
    - rewrite disk_upd_ne by done. by rewrite (proj2 (Z.eqb_neq c b)) by congruence. }
  exists s'. split_and!; [done|done|done|exact Hu| |].
  - intros n Hn. apply disk_upd_ne. lia.
  - constructor; try done. intros c Hc. change (sb s') with (sb s) in *. rewrite Hu by lia.
    rewrite (proj2 (Z.eqb_neq c b)) by lia. by rewrite H5.
Qed.

End FsFacts.

(** ** Files: bmap, readi and writei on the blocks of one inode. *)


Module FsFile.
Import Buf Fs FsFacts.

(** The indirect block of inode [i], and the disk block of its [bn]th block; 0
    when there is none. *)
Definition ind (s : fs) (i : nat) : Z := addr (geti s i) NDIRECT.
Definition entry (s : fs) (i : nat) (bn : Z) : Z :=
  if bn <? NDIRECT then addr (geti s i) bn
  else if ind s i =? 0 then 0 else get32 (blocks s (ind s i)) (4 * (bn - NDIRECT)).

Definition in_file (bn : Z) : Prop := 0 <= bn < MAXFILE.

Record inode_ok (ds : Z) (s : fs) (i : nat) : Prop := mk_inode_ok {
  io_lt : (i < length (itable s))%nat;
  io_addrs : length (addrs (geti s i)) = 13%nat;
  io_inum : 0 <= inum (geti s i) < ninodes (sb s);
  io_data : forall bn, in_file bn -> entry s i bn <> 0 ->
    is_data ds s (entry s i bn) /\ used s (entry s i bn) = true /\ entry s i bn <> ind s i;
  io_ind : ind s i <> 0 -> is_data ds s (ind s i) /\ used s (ind s i) = true;
  io_inj : forall b c, in_file b -> in_file c -> entry s i b <> 0 ->
    entry s i b = entry s i c -> b = c;
  io_size : 0 <= isize (geti s i) <= MAXFILE * BSIZE;
  io_full : forall bn, in_file bn -> bn * BSIZE < isize (geti s i) -> entry s i bn <> 0
}.

(** Block [b] does not belong to inode [i]. *)
Definition foreign (s : fs) (i : nat) (b : Z) : Prop :=
  b <> ind s i /\ forall bn, in_file bn -> entry s i bn <> b.

(** From [s] to [s'] inode [i] has only gained blocks that were free, and
    nothing that belongs to others has changed. *)
Record grown (ds : Z) (i : nat) (s s' : fs) : Prop := mk_grown {
  gr_ok : fs_ok ds s';
  gr_inode : inode_ok ds s' i;
  gr_keep : forall bn, in_file bn -> entry s i bn <> 0 -> entry s' i bn = entry s i bn;
  gr_other : forall b, is_data ds s b -> used s b = true -> foreign s i b ->
    blocks s' b = blocks s b /\ used s' b = true /\ foreign s' i b;
  gr_isize : isize (geti s' i) = isize (geti s i);
  gr_inum : inum (geti s' i) = inum (geti s i);
  gr_itable : forall j, j <> i -> geti s' j = geti s j;
  gr_sb : sb s' = sb s
}.

Lemma grown_refl ds i s : fs_ok ds s -> inode_ok ds s i -> grown ds i s s.
Proof. intros H1 H2. by constructor. Qed.

Lemma grown_trans ds i s1 s2 s3 : grown ds i s1 s2 -> grown ds i s2 s3 -> grown ds i s1 s3.
Proof.
  intros [A1 A2 A3 A4 A5 A6 A7 A8] [B1 B2 B3 B4 B5 B6 B7 B8].
  constructor; try congruence; try done.
  - intros bn Hbn Hne. rewrite B3; [by apply A3|done|by rewrite A3].
  - intros b Hb Hu Hf. destruct (A4 b Hb Hu Hf) as (E & Hu2 & Hf2).
    unfold is_data in *. rewrite <- A8 in Hb. destruct (B4 b Hb Hu2 Hf2) as (E2 & Hu3 & Hf3). split_and!; [congruence|done|done].
  - intros j Hj. rewrite B7, A7; done.
Qed.

(** ** Entries after an update *)

Lemma geti_seti_eq i ip s : (i < length (itable s))%nat -> geti (seti i ip s) i = ip.
Proof. intros H. unfold geti, seti. simpl. by rewrite list_lookup_insert_eq. Qed.
Lemma geti_seti_ne i j ip s : i <> j -> geti (seti i ip s) j = geti s j.
Proof. intros H. unfold geti, seti. simpl. by rewrite list_lookup_insert_ne. Qed.

Lemma addr_insert ip k a j :
  length (addrs ip) = 13%nat -> 0 <= k < 13 -> 0 <= j ->
  default 0 (<[Z.to_nat k := a]> (addrs ip) !! Z.to_nat j) = if j =? k then a else addr ip j.
Proof.
  intros Hl Hk Hj. destruct (Z.eqb_spec j k) as [->|Hne].
  - rewrite list_lookup_insert_eq by lia. done.
  - rewrite list_lookup_insert_ne by lia. done.
Qed.

Lemma addr_set_addr s i k a j :
  (i < length (itable s))%nat -> length (addrs (geti s i)) = 13%nat -> 0 <= k < 13 -> 0 <= j ->
  addr (geti (set_addr k a i s) i) j = if j =? k then a else addr (geti s i) j.
Proof.
  intros Hi Hl Hk Hj. unfold set_addr. rewrite geti_seti_eq by done. by apply addr_insert.
Qed.

(** [entry] depends on the addresses and the indirect block only. *)
Lemma entry_ext s s' i :
  (forall k, 0 <= k < 13 -> addr (geti s' i) k = addr (geti s i) k) ->
  (ind s i <> 0 -> forall x, blocks s' (ind s i) x = blocks s (ind s i) x) ->
  ind s' i = ind s i /\ forall bn, in_file bn -> entry s' i bn = entry s i bn.
Proof.
  intros Ha Hb. assert (ind s' i = ind s i) as Ei by (apply Ha; unfold NDIRECT; lia).
  split; [done|]. intros bn Hbn. unfold entry. rewrite Ei. unfold in_file, NDIRECT in *.
  destruct (Z.ltb_spec bn 12); [apply Ha; lia|].
  destruct (Z.eqb_spec (ind s i) 0); [done|]. apply get32_ext. intros x _. by apply Hb.
Qed.

Lemma used_ext s s' b :
  sb s' = sb s -> blocks s' (BBLOCK b s) = blocks s (BBLOCK b s) -> used s' b = used s b.
Proof. intros Es Eb. unfold used. replace (BBLOCK b s') with (BBLOCK b s) by (unfold BBLOCK; by rewrite Es). by rewrite Eb. Qed.

(** Changing blocks that are neither the free map nor this inode's indirect
    block keeps the file system and the inode well-formed. *)
Lemma data_write_ok ds s i s' :
  fs_ok ds s -> inode_ok ds s i -> sb s' = sb s -> itable s' = itable s ->
  (forall b, bmapstart (sb s) <= b < ds -> blocks s' b = blocks s b) ->
  (ind s i <> 0 -> blocks s' (ind s i) = blocks s (ind s i)) ->
  fs_ok ds s' /\ inode_ok ds s' i /\ (forall b, 0 <= b < size (sb s) -> used s' b = used s b) /\
  ind s' i = ind s i /\ (forall bn, in_file bn -> entry s' i bn = entry s i bn).
Proof.
  intros Hok Hio Esb Eit Hmap Hind. pose proof Hok as [H1 H2 H3 H4 H5].
  assert (forall b, 0 <= b < size (sb s) -> used s' b = used s b) as Hu.
  { intros b Hb. apply used_ext; [done|]. apply Hmap. by apply H4. }
  assert (forall j, geti s' j = geti s j) as Eg by (intros j; unfold geti; by rewrite Eit).
  destruct (entry_ext s s' i) as [Ei Ee].
  { intros k Hk. by rewrite Eg. }
  { intros Hne x. by rewrite Hind. }
  split_and!; [|destruct Hio as [I1 I2 I3 I4 I5 I6 I7 I8]|done|done|done].
  - unfold IBLOCK, BBLOCK in *. constructor; rewrite ?Esb; unfold IBLOCK, BBLOCK; rewrite ?Esb; try done.
    intros b Hb. rewrite Hu by lia. by apply H5.
  - unfold is_data in *. constructor; rewrite ?Eg, ?Eit, ?Esb, ?Ei; try done.
    + intros bn Hbn. rewrite (Ee bn Hbn). unfold is_data. rewrite Esb. intros Hne.
      destruct (I4 bn Hbn Hne) as (? & ? & ?). rewrite Hu by lia. done.
    + unfold is_data. rewrite Esb. intros Hne. destruct (I5 Hne). rewrite Hu by lia. done.
    + intros b c Hb Hc. rewrite (Ee b Hb), (Ee c Hc). by apply I6.
    + intros bn Hbn. rewrite (Ee bn Hbn). by apply I8.
Qed.

(** ** Allocation for inode [i] *)

Lemma data_nonzero ds s b : fs_ok ds s -> is_data ds s b -> b <> 0.
Proof. intros Hok Hb. pose proof (ok_ds _ _ Hok). unfold is_data in Hb. lia. Qed.

(** The inode is unaffected by the allocation of a block it does not hold yet. *)
Lemma alloc_inode ds s i a s1 :
  fs_ok ds s -> inode_ok ds s i -> allocated ds a s s1 ->
  fs_ok ds s1 /\ (forall j, geti s1 j = geti s j) /\ ind s1 i = ind s i /\
  (forall bn, in_file bn -> entry s1 i bn = entry s i bn) /\ foreign s i a /\
  (forall b, is_data ds s b -> used s b = true -> b <> a /\ blocks s1 b = blocks s b /\ used s1 b = true).
Proof.
  intros Hok Hio HA. pose proof HA as [A1 A2 A3 A4 A5 A6 A7 A8].
  assert (forall b, is_data ds s b -> used s b = true ->
    b <> a /\ blocks s1 b = blocks s b /\ used s1 b = true) as Hb.
  { intros b Hb Hu. assert (b <> a) by congruence.
    pose proof (ok_ds _ _ Hok). unfold is_data in *.
    split_and!; [done|by apply A5|]. rewrite A3 by lia. rewrite Hu. apply orb_true_r. }
  assert (forall j, geti s1 j = geti s j) as Eg by (intros j; unfold geti; by rewrite A7).
  destruct (entry_ext s s1 i) as [Ei Ee].
  { intros k Hk. by rewrite Eg. }
  { intros Hne x. destruct (io_ind _ _ _ Hio Hne) as [Hd Hu]. by destruct (Hb _ Hd Hu) as (_ & -> & _). }
  split_and!; [by eapply allocated_ok|done|done|done| |done].
  pose proof (data_nonzero _ _ _ Hok A1). split.
  - intros E. destruct (decide (ind s i = 0)) as [E0|E0]; [congruence|].
    destruct (io_ind _ _ _ Hio E0). congruence.
  - intros bn Hbn E. destruct (io_data _ _ _ Hio bn Hbn) as (_ & Hu & _); congruence.
Qed.

(** A new direct block, or a new indirect block. *)
Lemma get_addr_spec ds s i k :
  fs_ok ds s -> inode_ok ds s i -> 0 <= k < 13 ->
  let '(a, s') := get_addr i k s in
  grown ds i s s' /\ addr (geti s' i) k = a /\
  (forall bn, in_file bn -> entry s i bn <> 0 -> blocks s' (entry s i bn) = blocks s (entry s i bn)) /\
  (a = 0 -> forall c, 0 <= c < size (sb s) -> used s' c = true).
Proof.
  intros Hok Hio Hk. unfold get_addr. destruct (Z.eqb_spec (addr (geti s i) k) 0) as [E0|E0].
  2:{ split_and!; [by apply grown_refl|done|done|done]. }
  pose proof (balloc_spec ds s Hok) as HB. destruct (balloc s) as [a s1].
  destruct HB as [(-> & -> & Hall)|(Ha & HA)].
  { split_and!; [by apply grown_refl|done|done|done]. }
  rewrite (proj2 (Z.eqb_neq a 0)) by done.
  destruct (alloc_inode ds s i a s1 Hok Hio HA) as (Hok1 & Eg & Ei & Ee & Hfor & Hb).
  pose proof Hio as [I1 I2 I3 I4 I5 I6 I7 I8]. pose proof HA as [A1 A2 A3 A4 A5 A6 A7 A8].
  set (s2 := set_addr k a i s1).
  assert (i < length (itable s1))%nat as Hi1 by by rewrite A7.
  assert (length (addrs (geti s1 i)) = 13%nat) as Hl1 by by rewrite Eg.
  assert (forall j, 0 <= j -> addr (geti s2 i) j = if j =? k then a else addr (geti s i) j) as Ha2.
  { intros j Hj. unfold s2. rewrite addr_set_addr by done. by rewrite Eg. }
  assert (ind s2 i = if NDIRECT =? k then a else ind s i) as Ei2 by (apply Ha2; unfold NDIRECT; lia).
  assert (forall bn, in_file bn -> entry s2 i bn = if bn =? k then if bn <? NDIRECT then a else 0 else entry s i bn) as Ee2.
  { intros bn Hbn. unfold entry at 1. rewrite Ei2. unfold in_file in Hbn.
    change (blocks s2) with (blocks s1).
    destruct (Z.ltb_spec bn NDIRECT) as [Hlt|Hge].
    - rewrite Ha2 by lia. destruct (Z.eqb_spec bn k); [done|]. unfold entry.
      by rewrite (proj2 (Z.ltb_lt bn NDIRECT)).
    - destruct (Z.eqb_spec NDIRECT k) as [Ek|Ek].
      + rewrite (proj2 (Z.eqb_neq a 0)) by done.
        assert (entry s i bn = 0) as E.
        { unfold entry. rewrite (proj2 (Z.ltb_ge bn NDIRECT)) by done.
          unfold ind. rewrite Ek, E0. done. }
        assert (get32 (blocks s1 a) (4 * (bn - NDIRECT)) = 0) as ->.
        { transitivity (get32 zero_block 0); [|done].
          assert (0 <= 4 * (bn - NDIRECT) /\ 4 * (bn - NDIRECT) + 4 <= BSIZE) as Hr
            by (unfold MAXFILE, NINDIRECT, NDIRECT, BSIZE in *; change (1024 / 4) with 256 in *; lia).
          unfold get32. cbn [Mem.load_le]. unfold zero_block. rewrite !A4 by lia. done. }
        destruct (bn =? k); [done|by rewrite E].
      + unfold NDIRECT in *. rewrite (proj2 (Z.eqb_neq bn k)) by lia.
        rewrite <- (Ee bn) by done. unfold entry. unfold NDIRECT.
        rewrite (proj2 (Z.ltb_ge bn 12)) by lia. by rewrite Ei. }
  assert (forall b, used s2 b = used s1 b) as Hu2 by done.
  assert (forall bn, in_file bn -> bn <> k -> entry s i bn <> 0 -> entry s i bn <> a) as Hna.
  { intros bn Hbn _ Hne E. by apply (proj2 Hfor bn Hbn). }
  assert (forall bn, in_file bn -> entry s i bn <> 0 -> entry s2 i bn = entry s i bn) as Hkeep.
  { intros bn Hbn Hne. rewrite Ee2 by done. destruct (Z.eqb_spec bn k) as [->|]; [|done].
    exfalso. unfold entry in Hne. unfold in_file, NDIRECT in *.
    destruct (Z.ltb_spec k 12); [done|]. replace k with 12 in * by lia. unfold ind, NDIRECT in Hne.
    rewrite E0 in Hne. done. }
  split_and!; [|rewrite Ha2 by lia; by rewrite Z.eqb_refl| |done].
  2:{ intros bn Hbn Hne. destruct (I4 bn Hbn Hne) as (Hd & Hu & _).
      change (blocks s2) with (blocks s1). by destruct (Hb _ Hd Hu) as (_ & -> & _). }
  unfold is_data in *.
  constructor; try done.
  - destruct Hok1 as [O1 O2 O3 O4 O5]. by constructor.
  - assert (geti s2 i = let ip := geti s1 i in {| ip with addrs := <[Z.to_nat k := a]> (addrs ip) |}) as Eg2.
    { unfold s2, set_addr. by rewrite geti_seti_eq. }
    constructor.
    + unfold s2, set_addr, seti. simpl. by rewrite length_insert.
    + rewrite Eg2. simpl. by rewrite length_insert.
    + rewrite Eg2. simpl. rewrite Eg. change (sb s2) with (sb s1). by rewrite A8.
    + intros bn Hbn. rewrite Ee2 by done. rewrite Ei2. unfold is_data. change (sb s2) with (sb s1).
      rewrite A8, Hu2. destruct (Z.eqb_spec bn k) as [->|Hne].
      * destruct (Z.ltb_spec k NDIRECT); [|done]. intros _.
        rewrite A3 by (pose proof (ok_ds _ _ Hok); lia). rewrite Z.eqb_refl.
        rewrite (proj2 (Z.eqb_neq NDIRECT k)) by lia. split_and!; [lia|lia|done|apply Hfor].
      * intros Hbne. destruct (I4 bn Hbn Hbne) as (Hd & Hu & Hni).
        destruct (Hb _ Hd Hu) as (Hnea & _ & Hu1). split_and!; [lia|lia|done|].
        destruct (NDIRECT =? k); done.
    + rewrite Ei2. unfold is_data. change (sb s2) with (sb s1). rewrite A8, Hu2.
      destruct (Z.eqb_spec NDIRECT k).
      * intros _. split; [lia|]. rewrite A3 by (pose proof (ok_ds _ _ Hok); lia). by rewrite Z.eqb_refl.
      * intros Hne. destruct (I5 Hne) as (Hd & Hu). destruct (Hb _ Hd Hu) as (_ & _ & Hu1). done.
    + intros b c Hbf Hcf. rewrite !Ee2 by done.
      destruct (Z.eqb_spec b k) as [->|Hbk], (Z.eqb_spec c k) as [->|Hck]; try done.
      * destruct (Z.ltb_spec k NDIRECT); [|done]. intros _ E. exfalso. symmetry in E.
        apply (Hna c); [done|done|congruence|done].
      * destruct (Z.ltb_spec k NDIRECT); [|done]. intros Hne E. exfalso.
        by apply (Hna b).
      * by apply I6.
    + rewrite Eg2. simpl. by rewrite Eg.
    + intros bn Hbn. rewrite Eg2. simpl. rewrite Eg. intros Hlt.
      rewrite Hkeep; [by apply I8|done|by apply I8].
  - intros b Hbd Hbu [Hf1 Hf2]. destruct (Hb b Hbd Hbu) as (Hba & Hbl & Hbu1).
    split_and!; [done|done|]. split.
    + rewrite Ei2. destruct (NDIRECT =? k); done.
    + intros bn Hbn. rewrite Ee2 by done. destruct (bn =? k); [|by apply Hf2].
      destruct (bn <? NDIRECT); [done|].
      pose proof (data_nonzero _ _ _ Hok Hbd). congruence.
  - unfold s2, set_addr. rewrite geti_seti_eq by done. simpl. by rewrite Eg.
  - unfold s2, set_addr. rewrite geti_seti_eq by done. simpl. by rewrite Eg.
  - intros j Hj. unfold s2, set_addr. rewrite geti_seti_ne by done. apply Eg.
Qed.

(** A new entry of the indirect block. *)
Lemma alloc_entry ds s i bn a s1 :
  fs_ok ds s -> inode_ok ds s i -> ind s i <> 0 -> in_file bn -> NDIRECT <= bn ->
  entry s i bn = 0 -> allocated ds a s s1 -> a <> 0 ->
  let s2 := set_block (ind s i) (put32 (blocks s1 (ind s i)) (4 * (bn - NDIRECT)) a) s1 in
  grown ds i s s2 /\ entry s2 i bn = a /\
  (forall c, in_file c -> entry s i c <> 0 -> blocks s2 (entry s i c) = blocks s (entry s i c)).
Proof.
  intros Hok Hio Hind Hbn Hge E0 HA Ha s2.
  destruct (alloc_inode ds s i a s1 Hok Hio HA) as (Hok1 & Eg & Ei & Ee & Hfor & Hb).
  pose proof Hio as [I1 I2 I3 I4 I5 I6 I7 I8]. pose proof HA as [A1 A2 A3 A4 A5 A6 A7 A8].
  destruct (I5 Hind) as (Hdi & Hui). destruct (Hb _ Hdi Hui) as (Hia & _ & Hui1).
  pose proof (ok_ds _ _ Hok) as Hds. pose proof (ok_size _ _ Hok) as Hsz.
  assert (forall n, n <> ind s i -> blocks s2 n = blocks s1 n) as G.
  { intros n Hn. unfold s2, set_block. cbn [blocks]. by rewrite disk_upd_ne. }
  assert (blocks s2 (ind s i) = put32 (blocks s1 (ind s i)) (4 * (bn - NDIRECT)) a) as Gi.
  { unfold s2, set_block. cbn [blocks]. by rewrite disk_upd_eq. }
  assert (forall j, geti s2 j = geti s j) as Eg2 by (intros j; by rewrite <- Eg).
  assert (ind s2 i = ind s i) as Ei2 by (unfold ind; by rewrite Eg2).
  assert (forall b, 0 <= b < size (sb s) -> used s2 b = used s1 b) as Hu2.
  { intros b Hbr. apply used_ext; [done|]. apply G.
    destruct (ok_map _ _ Hok b Hbr). unfold BBLOCK in *. rewrite A8. unfold is_data in Hdi. lia. }
  assert (forall c, in_file c -> entry s2 i c = if c =? bn then a else entry s i c) as Ee2.
  { intros c Hc. unfold in_file, is_data in *. destruct (Z.eqb_spec c bn) as [->|Hne].
    - unfold entry. rewrite (proj2 (Z.ltb_ge bn NDIRECT)) by done. rewrite Ei2.
      rewrite (proj2 (Z.eqb_neq _ 0)) by done. rewrite Gi. apply get32_put32. lia.
    - rewrite <- (Ee c) by done. unfold entry. rewrite Ei, Ei2, Eg2, Eg.
      destruct (Z.ltb_spec c NDIRECT); [done|]. rewrite (proj2 (Z.eqb_neq _ 0)) by done.
      rewrite Gi. apply get32_put32_ne. lia. }
  assert (forall c, in_file c -> entry s i c <> 0 -> entry s i c <> a) as Hna.
  { intros c Hc Hne E. by apply (proj2 Hfor c Hc). }
  assert (forall c, in_file c -> entry s i c <> 0 -> entry s2 i c = entry s i c) as Hkeep.
  { intros c Hc Hne. rewrite Ee2 by done. destruct (Z.eqb_spec c bn); congruence. }
  split_and!.
  - assert (sb s2 = sb s) as Es2 by done. constructor; try done.
    + destruct Hok1 as [O1 O2 O3 O4 O5]. constructor; try done.
      intros b Hbd. rewrite Hu2 by lia. by apply O5.
    + constructor; rewrite ?Eg2, ?Es2, ?Ei2; try done.
      * by rewrite <- A7 in I1.
      * intros c Hc. rewrite Ee2 by done. unfold is_data in *. rewrite Es2.
        destruct (Z.eqb_spec c bn) as [->|Hne].
        -- intros _. rewrite Hu2, A3 by lia. rewrite Z.eqb_refl. split_and!; [lia|lia|done|apply Hfor].
        -- intros Hcne. destruct (I4 c Hc Hcne) as (Hd & Hu & Hni).
           destruct (Hb _ Hd Hu) as (Hnea & _ & Hu1). rewrite Hu2 by lia. done.
      * intros _. unfold is_data in *. rewrite Es2, Hu2 by lia. done.
      * intros b c Hbf Hcf. rewrite !Ee2 by done.
        destruct (Z.eqb_spec b bn) as [->|Hbk], (Z.eqb_spec c bn) as [->|Hck]; try done.
        -- intros _ E. exfalso. apply (Hna c); congruence.
        -- intros Hne E. exfalso. by apply (Hna b).
        -- by apply I6.
      * intros c Hc Hlt. rewrite Hkeep; [by apply I8|done|by apply I8].
    + intros b Hbd Hbu [Hf1 Hf2]. destruct (Hb b Hbd Hbu) as (Hba & Hbl & Hbu1).
      split_and!; [by rewrite G|rewrite Hu2; [done|unfold is_data in Hbd; lia]|]. split.
      * by rewrite Ei2.
      * intros c Hc. rewrite Ee2 by done. destruct (c =? bn); [done|by apply Hf2].
    + by rewrite Eg2.
    + by rewrite Eg2.
  - rewrite Ee2 by done. by rewrite Z.eqb_refl.
  - intros c Hc Hne. destruct (I4 c Hc Hne) as (Hd & Hu & Hni). rewrite G by done.
    by destruct (Hb _ Hd Hu) as (_ & -> & _).
Qed.

(** bmap finds the block, or allocates it, or the disk is full. *)
Lemma bmap_spec ds s i bn :
  fs_ok ds s -> inode_ok ds s i -> in_file bn ->
  exists a s', bmap i bn s = Ret (a, s') /\ grown ds i s s' /\ entry s' i bn = a /\
    (entry s i bn <> 0 -> a = entry s i bn) /\
    (forall c, in_file c -> entry s i c <> 0 -> blocks s' (entry s i c) = blocks s (entry s i c)) /\
    (a = 0 -> forall c, 0 <= c < size (sb s) -> used s' c = true).
Proof.
  intros Hok Hio Hbn. unfold bmap. unfold in_file in Hbn.
  assert (forall a s', grown ds i s s' -> entry s' i bn = a -> entry s i bn <> 0 -> a = entry s i bn) as Hk.
  { intros a s' G <- Hne. by apply (gr_keep _ _ _ _ G). }
  destruct (Z.ltb_spec bn NDIRECT) as [Hlt|Hge].
  - pose proof (get_addr_spec ds s i bn Hok Hio ltac:(unfold NDIRECT in Hlt; lia)) as H.
    destruct (get_addr i bn s) as [a s']. destruct H as (G & Ea & Hc & Hfull).
    assert (entry s' i bn = a) as Ee by (unfold entry; by rewrite (proj2 (Z.ltb_lt bn NDIRECT))).
    exists a, s'. split_and!; [done|done|done|by eapply Hk|done|done].
  - rewrite (proj2 (Z.ltb_lt (bn - NDIRECT) NINDIRECT)) by (unfold MAXFILE in Hbn; lia).
    pose proof (get_addr_spec ds s i NDIRECT Hok Hio ltac:(unfold NDIRECT; lia)) as H.
    destruct (get_addr i NDIRECT s) as [d s1]. destruct H as (G1 & Ed & Hc1 & Hfull1).
    pose proof (gr_ok _ _ _ _ G1) as Hok1. pose proof (gr_inode _ _ _ _ G1) as Hio1.
    change (addr (geti s1 i) NDIRECT) with (ind s1 i) in Ed.
    destruct (Z.eqb_spec d 0) as [E0|E0].
    { assert (entry s1 i bn = 0) as Ee.
      { unfold entry. rewrite (proj2 (Z.ltb_ge bn NDIRECT)) by done. rewrite Ed, E0. done. }
      exists 0, s1. split_and!; [done|done|done|by eapply Hk|done|intros _; by apply Hfull1]. }
    assert (get32 (blocks s1 d) (4 * (bn - NDIRECT)) = entry s1 i bn) as ->.
    { unfold entry. rewrite (proj2 (Z.ltb_ge bn NDIRECT)) by done. rewrite Ed.
      by rewrite (proj2 (Z.eqb_neq d 0)). }
    destruct (Z.eqb_spec (entry s1 i bn) 0) as [Ee|Ee].
    2:{ exists (entry s1 i bn), s1. split_and!; [done|done|done|by eapply Hk|done|done]. }
    pose proof (balloc_spec ds s1 Hok1) as HB. destruct (balloc s1) as [a s2].
    destruct HB as [(-> & -> & Hall)|(Ha & HA)].
    { exists 0, s1. split_and!; [done|done|done|by eapply Hk|done|].
      intros _. by rewrite <- (gr_sb _ _ _ _ G1). }
    rewrite (proj2 (Z.eqb_neq a 0)) by done. rewrite <- Ed.
    destruct (alloc_entry ds s1 i bn a s2 Hok1 Hio1) as (G2 & Ea & Hc2); try done.
    { congruence. }
    pose proof (grown_trans _ _ _ _ _ G1 G2) as G.
    eexists a, _. split_and!; [done|exact G|exact Ea|intros Hne; by eapply Hk| |done].
    intros c Hc Hne. assert (entry s1 i c = entry s i c) as Ek by by apply (gr_keep _ _ _ _ G1).
    rewrite <- Ek at 1. rewrite Hc2 by (done || congruence). rewrite Ek. by apply Hc1.
Qed.

End FsFile.
