(* ===== verification/FsBytes.v ===== *)
(** * Files are byte sequences: readi and writei refine the list operations the
    paging code relies on. *)
From S2P Require Import Prelude Mem MemFacts Buf Fs FsFacts Vm.

#[local] Open Scope Z_scope.

Module FsBytes.
Import Buf Fs FsFacts FsFile.

(** The byte of inode [i] at offset [x]. *)
Definition byte (s : fs) (i : nat) (x : Z) : Z := blocks s (entry s i (x / BSIZE)) (x mod BSIZE).

Definition bytes_from (s : fs) (i : nat) (off n : Z) : list Z :=
  (fun k => byte s i (off + Z.of_nat k)) <$> seq 0 (Z.to_nat n).

(** The contents of inode [i]. *)
Definition file_of (s : fs) (i : nat) : list Z := bytes_from s i 0 (isize (geti s i)).

Lemma length_bytes_from s i off n : length (bytes_from s i off n) = Z.to_nat n.
Proof. unfold bytes_from. by rewrite length_fmap, length_seq. Qed.

Lemma lookup_bytes_from s i off n k :
  (k < Z.to_nat n)%nat -> bytes_from s i off n !! k = Some (byte s i (off + Z.of_nat k)).
Proof. intros Hk. unfold bytes_from. rewrite list_lookup_fmap, lookup_seq_lt by done. done. Qed.

Lemma bytes_from_app s i off m n :
  0 <= m -> 0 <= n -> bytes_from s i off (m + n) = bytes_from s i off m ++ bytes_from s i (off + m) n.
Proof.
  intros Hm Hn. unfold bytes_from. rewrite Z2Nat.inj_add, seq_app, fmap_app by done. f_equal.
  simpl. rewrite <- (Nat.add_0_r (Z.to_nat m)) at 1. rewrite <- fmap_add_seq, <- list_fmap_compose.
  apply list_fmap_ext. intros k x _. simpl. f_equal. lia.
Qed.

(** Offsets within one block. *)
Lemma same_block off k : 0 <= k < BSIZE - off mod BSIZE ->
  (off + k) / BSIZE = off / BSIZE /\ (off + k) mod BSIZE = off mod BSIZE + k.
Proof.
  unfold BSIZE. intros Hk. pose proof (Z.div_mod off 1024). pose proof (Z.div_mod (off + k) 1024).
  pose proof (Z.mod_pos_bound off 1024). pose proof (Z.mod_pos_bound (off + k) 1024). lia.
Qed.

Lemma in_file_div x : 0 <= x < MAXFILE * BSIZE -> in_file (x / BSIZE).
Proof.
  intros Hx. unfold in_file, BSIZE in *. split; [apply Z.div_pos; lia|].
  apply Z.div_lt_upper_bound; lia.
Qed.

(** ** Reading *)

Lemma bmap_hit s i bn : in_file bn -> entry s i bn <> 0 -> bmap i bn s = Ret (entry s i bn, s).
Proof.
  intros Hbn. unfold bmap, entry, ind, get_addr. unfold in_file in Hbn.
  destruct (Z.ltb_spec bn NDIRECT) as [Hlt|Hge].
  - intros Hne. by rewrite (proj2 (Z.eqb_neq _ 0)).
  - rewrite (proj2 (Z.ltb_lt (bn - NDIRECT) NINDIRECT)) by (unfold MAXFILE in Hbn; lia).
    destruct (Z.eqb_spec (addr (geti s i) NDIRECT) 0); [done|]. intros Hne.
    rewrite (proj2 (Z.eqb_neq _ 0)) by done. by rewrite (proj2 (Z.eqb_neq _ 0)).
Qed.

(** Some piece of a transfer of [n] bytes from position [pos] on is refused. *)
Definition failing (cp : copier) (pos n : Z) : Prop :=
  exists p m, pos <= p /\ 0 < m /\ p + m <= pos + n /\ cp p m <> None.

Lemma kernel_never_fails pos n : ~ failing kernel_copy pos n.
Proof. by intros (p & m & _ & _ & _ & []). Qed.

Lemma readi_loop_spec ds s i cp : forall fuel pos off n,
  inode_ok ds s i -> 0 <= off -> 0 <= n -> off + n <= isize (geti s i) -> (Z.to_nat n <= fuel)%nat ->
  exists ok out, readi_loop cp fuel i pos off n s = Ret (ok, out, s) /\
    if ok : bool then out = bytes_from s i off n
    else failing cp pos n /\ out `prefix_of` bytes_from s i off n.
Proof.
  induction fuel as [|fuel IH]; intros pos off n Hio Ho Hn Hsz Hf; simpl;
    destruct (Z.leb_spec n 0) as [Hn0|Hn0]; try lia;
    try (exists true, []; unfold bytes_from; by replace (Z.to_nat n) with 0%nat by lia).
  pose proof (io_size _ _ _ Hio) as HS.
  assert (in_file (off / BSIZE)) as Hin by (apply in_file_div; lia).
  assert (entry s i (off / BSIZE) <> 0) as Hne.
  { apply (io_full _ _ _ Hio); [done|]. pose proof (Z.mul_div_le off BSIZE). unfold BSIZE in *. lia. }
  rewrite bmap_hit by done. unfold mbind, outcome_bind.
  rewrite (proj2 (Z.eqb_neq _ 0)) by done.
  set (m := Z.min n (BSIZE - off mod BSIZE)).
  assert (1 <= m <= n) as Hm by (pose proof (Z.mod_pos_bound off BSIZE); unfold BSIZE in *; lia).
  assert ((fun k => blocks s (entry s i (off / BSIZE)) (off mod BSIZE + Z.of_nat k)) <$> seq 0 (Z.to_nat m) =
          bytes_from s i off m) as ->.
  { unfold bytes_from. apply list_fmap_ext. intros k x Hk. apply lookup_seq in Hk as [-> Hk].
    unfold byte. destruct (same_block off (Z.of_nat (0 + k))) as [-> ->]; [lia|done]. }
  assert (bytes_from s i off n = bytes_from s i off m ++ bytes_from s i (off + m) (n - m)) as ->.
  { replace n with (m + (n - m)) at 1 by lia. by rewrite bytes_from_app by lia. }
  destruct (cp pos m) as [k|] eqn:Ecp.
  { eexists false, _. split; [done|]. split; [exists pos, m; split_and!; [lia..|congruence]|].
    etrans; [apply prefix_take|]. by eexists. }
  destruct (IH (pos + m) (off + m) (n - m) Hio) as (ok & out & -> & H); [lia..|].
  eexists ok, _. split; [done|]. destruct ok; [by rewrite H|]. destruct H as [(q & l & H1 & H2 & H3 & H4) H].
  split; [exists q, l; split_and!; [lia..|done]|]. by apply prefix_app.
Qed.

(** What [readi] returns and what reaches the destination. *)
Lemma readi_to_spec ds s i cp off n :
  inode_ok ds s i -> 0 <= off < 2 ^ 32 -> 0 <= n < 2 ^ 32 ->
  let full := Vm.readi (file_of s i) off n in
  exists r out, readi_to cp i off n s = Ret (r, out, s) /\
    (r = Z.of_nat (length full) /\ out = full \/
     r = -1 /\ failing cp 0 (Z.of_nat (length full)) /\ out `prefix_of` full).
Proof.
  intros Hio Ho Hn. unfold readi_to, Vm.readi. pose proof (io_size _ _ _ Hio) as HS.
  unfold file_of. rewrite length_bytes_from, Z2Nat.id by lia.
  set (sz := isize (geti s i)) in *.
  destruct (Z.ltb_spec sz off) as [H1|H1]; simpl; [exists 0, []; split; [done|by left]|].
  destruct (Z.ltb_spec (u32 (off + n)) off) as [H2|H2]; [exists 0, []; split; [done|by left]|].
  assert (u32 (off + n) = off + n) as Eu.
  { unfold wrapu in *. destruct (Z.lt_ge_cases (off + n) (2 ^ 32)); [by rewrite Z.mod_small by lia|].
    rewrite <- (Z.mod_add _ (-1)), Z.mod_small in H2 by lia. lia. }
  rewrite Eu. set (n' := if sz <? off + n then sz - off else n).
  assert (0 <= n' /\ off + n' <= sz) as Hn' by (unfold n'; case_match; lia).
  assert (take (Z.to_nat n') (drop (Z.to_nat off) (bytes_from s i 0 sz)) = bytes_from s i off n') as ->.
  { replace sz with (off + n' + (sz - off - n')) by lia. rewrite !bytes_from_app by lia.
    rewrite <- app_assoc, drop_app_ge by (rewrite length_bytes_from; lia).
    rewrite length_bytes_from, Nat.sub_diag, drop_0, take_app_le by (rewrite length_bytes_from; lia).
    rewrite take_ge by (rewrite length_bytes_from; lia). by rewrite Z.add_0_l. }
  destruct (readi_loop_spec ds s i cp (Z.to_nat n') 0 off n' Hio) as (ok & out & -> & H); [lia..|].
  eexists _, out. split; [done|]. destruct ok; [left; by rewrite H|right].
  rewrite length_bytes_from, Z2Nat.id by lia. by destruct H.
Qed.

Lemma readi_spec ds s i off n :
  inode_ok ds s i -> 0 <= off < 2 ^ 32 -> 0 <= n < 2 ^ 32 ->
  readi i off n s = Ret (Vm.readi (file_of s i) off n, s).
Proof.
  intros Hio Ho Hn. unfold readi.
  destruct (readi_to_spec ds s i kernel_copy off n Hio Ho Hn) as (r & out & -> & [[_ ->]|(_ & Hf & _)]); [done|].
  by apply kernel_never_fails in Hf.
Qed.

(** ** Writing *)

(** One chunk stored in a block of the file. *)
Lemma store_chunk ds s i off d :
  fs_ok ds s -> inode_ok ds s i -> 0 <= off -> in_file (off / BSIZE) ->
  entry s i (off / BSIZE) <> 0 -> Z.of_nat (length d) <= BSIZE - off mod BSIZE ->
  let a := entry s i (off / BSIZE) in
  let s' := set_block a (store_bytes (blocks s a) (off mod BSIZE) d) s in
  grown ds i s s' /\ (forall bn, in_file bn -> entry s' i bn = entry s i bn) /\
  forall x, 0 <= x -> in_file (x / BSIZE) -> entry s i (x / BSIZE) <> 0 ->
    byte s' i x = if (off <=? x) && (x <? off + Z.of_nat (length d))
                  then default 0 (d !! Z.to_nat (x - off)) else byte s i x.
Proof.
  intros Hok Hio Ho Hin Hne Hd a s'.
  destruct (io_data _ _ _ Hio _ Hin Hne) as (Had & Hau & Hai). fold a in Had, Hau, Hai.
  assert (forall n, n <> a -> blocks s' n = blocks s n) as G.
  { intros n Hn. unfold s', set_block. cbn [blocks]. by rewrite disk_upd_ne. }
  assert (blocks s' a = store_bytes (blocks s a) (off mod BSIZE) d) as Ga.
  { unfold s', set_block. cbn [blocks]. by rewrite disk_upd_eq. }
  destruct (data_write_ok ds s i s' Hok Hio) as (Hok' & Hio' & Hu & Ei & Ee); [done|done| | |].
  { intros b Hb. apply G. unfold is_data in Had. lia. }
  { intros _. by apply G. }
  split_and!; [|done|].
  - constructor; try done.
    + intros bn Hbn _. by apply Ee.
    + intros b Hb Hbu [Hf1 Hf2]. pose proof (ok_ds _ _ Hok). unfold is_data in Hb.
      split_and!; [apply G; apply not_eq_sym; by apply Hf2|rewrite Hu; [done|lia]|].
      split; [by rewrite Ei|]. intros bn Hbn. rewrite Ee by done. by apply Hf2.
  - intros x Hx Hxin Hxne. unfold byte. rewrite Ee by done.
    destruct (decide (x / BSIZE = off / BSIZE)) as [Eq|Hq].
    + rewrite Eq. fold a. rewrite Ga. unfold store_bytes.
      pose proof (Z.div_mod x BSIZE). pose proof (Z.div_mod off BSIZE). unfold BSIZE in *.
      assert (x mod 1024 - off mod 1024 = x - off) as Ed by lia. rewrite Ed.
      destruct (Z.leb_spec (off mod 1024) (x mod 1024)), (Z.leb_spec off x); try lia; simpl; try done.
      destruct (Z.ltb_spec (x mod 1024) (off mod 1024 + Z.of_nat (length d))),
        (Z.ltb_spec x (off + Z.of_nat (length d))); try lia; done.
    + rewrite G.
      2:{ intros E. apply Hq. by apply (io_inj _ _ _ Hio). }
      destruct (Z.leb_spec off x); simpl; [|done].
      destruct (Z.ltb_spec x (off + Z.of_nat (length d))); [|done].
      exfalso. apply Hq. destruct (same_block off (x - off)) as [E _]; [lia|].
      rewrite <- E. f_equal. lia.
Qed.

(** The copy of a piece was refused after [tot] bytes, and [e] bytes of the piece
    are in the buffer. *)
Definition refused (cp : copier) (pos n tot e : Z) : Prop :=
  exists m k, 0 < m <= n - tot /\ cp (pos + tot) m = Some k /\ e = Z.max 0 (Z.min k m).

(** The result of writing [src] at [off]: [tot] bytes are in place, and [e] more
    if a copy was refused; all other bytes are as before, and less than all were
    written only if the disk is full or a copy was refused. *)
Record wrote (ds : Z) (cp : copier) (pos : Z) (i : nat) (off : Z) (src : list Z) (s : fs) (tot e : Z) (s' : fs)
    : Prop := mk_wrote {
  wr_tot : 0 <= tot /\ 0 <= e /\ tot + e <= Z.of_nat (length src);
  wr_grown : grown ds i s s';
  wr_new : forall x, off <= x < off + tot + e ->
    entry s' i (x / BSIZE) <> 0 /\ byte s' i x = default 0 (src !! Z.to_nat (x - off));
  wr_old : forall x, 0 <= x -> in_file (x / BSIZE) -> x < off \/ off + tot + e <= x ->
    entry s i (x / BSIZE) <> 0 -> byte s' i x = byte s i x;
  wr_full : tot < Z.of_nat (length src) ->
    (e = 0 /\ entry s' i ((off + tot) / BSIZE) = 0 /\ forall c, 0 <= c < size (sb s) -> used s' c = true) \/
    refused cp pos (Z.of_nat (length src)) tot e
}.

Lemma wrote_nothing ds cp pos i off s : fs_ok ds s -> inode_ok ds s i -> wrote ds cp pos i off [] s 0 0 s.
Proof.
  intros Hok Hio. constructor; [simpl; lia|by apply grown_refl|intros; lia|done|simpl; lia].
Qed.

(** One piece of [m] bytes after the block was found: [k] of them are stored. *)
Lemma store_piece ds s i off src a s1 m k :
  fs_ok ds s -> inode_ok ds s i -> 0 <= off -> in_file (off / BSIZE) ->
  grown ds i s s1 -> entry s1 i (off / BSIZE) = a -> a <> 0 ->
  (forall x, 0 <= x -> in_file (x / BSIZE) -> entry s i (x / BSIZE) <> 0 -> byte s1 i x = byte s i x) ->
  (k <= m <= length src)%nat -> Z.of_nat m <= BSIZE - off mod BSIZE ->
  let s2 := set_block a (store_bytes (blocks s1 a) (off mod BSIZE) (take k (take m src))) s1 in
  grown ds i s s2 /\
  (forall x, off <= x < off + Z.of_nat k -> entry s2 i (x / BSIZE) <> 0 /\ in_file (x / BSIZE) /\
     byte s2 i x = default 0 (src !! Z.to_nat (x - off))) /\
  (forall x, 0 <= x -> in_file (x / BSIZE) -> entry s i (x / BSIZE) <> 0 ->
     entry s2 i (x / BSIZE) <> 0 /\
     (x < off \/ off + Z.of_nat k <= x -> byte s2 i x = byte s i x)).
Proof.
  intros Hok Hio Ho Hin G1 Ea Ha Hb1 Hk Hm s2.
  assert (take k (take m src) = take k src) as Et by (rewrite take_take; f_equal; lia).
  assert (length (take k src) = k) as Hlt by (rewrite length_take; lia).
  destruct (store_chunk ds s1 i off (take k src) (gr_ok _ _ _ _ G1) (gr_inode _ _ _ _ G1))
    as (G2 & Ee2 & Hb2); [done|done|congruence|lia|].
  rewrite Ea in G2, Ee2, Hb2. unfold s2 in *. rewrite Et in *. clear s2. set (s2 := set_block a _ s1) in *.
  rewrite Hlt in Hb2. split_and!.
  - by eapply grown_trans.
  - intros x Hx. destruct (same_block off (x - off)) as [Eq _]; [lia|].
    replace (off + (x - off)) with x in Eq by lia.
    rewrite Eq, Ee2, Ea by done. split_and!; [done|done|].
    rewrite Hb2 by (rewrite ?Eq, ?Ea; done || lia).
    rewrite (proj2 (Z.leb_le off x)), (proj2 (Z.ltb_lt x _)) by lia. simpl.
    by rewrite lookup_take_lt by lia.
  - intros x Hx Hxin Hne.
    assert (entry s1 i (x / BSIZE) = entry s i (x / BSIZE)) as E1 by by apply (gr_keep _ _ _ _ G1).
    rewrite Ee2, E1 by done. split; [done|]. intros Hout. rewrite Hb2 by (rewrite ?E1; done).
    replace ((off <=? x) && (x <? off + Z.of_nat k)) with false; [by apply Hb1|].
    symmetry. apply andb_false_iff. rewrite Z.leb_gt, Z.ltb_ge. lia.
Qed.

Lemma writei_loop_spec ds cp i : forall fuel src pos off s,
  fs_ok ds s -> inode_ok ds s i -> 0 <= off -> off + Z.of_nat (length src) <= MAXFILE * BSIZE ->
  (length src <= fuel)%nat ->
  exists tot e s', writei_loop cp fuel i pos off src s = Ret (tot, s') /\ wrote ds cp pos i off src s tot e s'.
Proof.
  induction fuel as [|fuel IH]; intros src pos off s Hok Hio Ho Hsz Hf;
    (destruct src as [|c src]; [exists 0, 0, s; split; [done|by apply wrote_nothing]|]);
    [simpl in Hf; lia|].
  cbn [writei_loop]. remember (c :: src) as sr eqn:Esr.
  assert (0 < Z.of_nat (length sr)) as Hpos by (rewrite Esr; simpl; lia).
  assert (in_file (off / BSIZE)) as Hin by (apply in_file_div; lia).
  destruct (bmap_spec ds s i (off / BSIZE) Hok Hio Hin) as (a & s1 & -> & G1 & Ea & Hak & Hc1 & Hfull).
  unfold mbind, outcome_bind.
  assert (forall x, 0 <= x -> in_file (x / BSIZE) -> entry s i (x / BSIZE) <> 0 -> byte s1 i x = byte s i x) as Hb1.
  { intros x Hx Hxin Hne. unfold byte. rewrite (gr_keep _ _ _ _ G1) by done. by rewrite Hc1. }
  destruct (Z.eqb_spec a 0) as [E0|E0].
  { exists 0, 0, s1. split; [done|]. constructor; [lia|done|lia| |].
    - intros x Hx Hxin _ Hne. by apply Hb1.
    - intros _. left. rewrite Z.add_0_r, Ea. split_and!; [done|done|by apply Hfull]. }
  set (m := Z.min (Z.of_nat (length sr)) (BSIZE - off mod BSIZE)).
  assert (1 <= m <= Z.of_nat (length sr) /\ m <= BSIZE - off mod BSIZE) as Hm
    by (pose proof (Z.mod_pos_bound off BSIZE); unfold BSIZE in *; lia).
  destruct (cp pos m) as [k|] eqn:Ecp.
  { set (e := Z.max 0 (Z.min k m)). assert (take (Z.to_nat k) (take (Z.to_nat m) sr) = take (Z.to_nat e) (take (Z.to_nat m) sr)) as ->.
    { rewrite !take_take. f_equal. lia. }
    destruct (store_piece ds s i off sr a s1 (Z.to_nat m) (Z.to_nat e)) as (G2 & Hnew & Hold); [done..|lia|lia|].
    eexists 0, e, _. split; [done|]. constructor.
    - lia.
    - exact G2.
    - intros x Hx. destruct (Hnew x) as (? & _ & ?); [lia|]. done.
    - intros x Hx Hxin Hout Hne. apply Hold; [done..|lia].
    - intros _. right. exists m, k. rewrite Z.add_0_r. split_and!; [lia|lia|done|done]. }
  destruct (store_piece ds s i off sr a s1 (Z.to_nat m) (Z.to_nat m)) as (G2 & Hnew & Hold); [done..|lia|lia|].
  rewrite take_take, Nat.min_id in G2, Hnew, Hold.
  set (s2 := set_block a _ s1) in *.
  destruct (IH (drop (Z.to_nat m) sr) (pos + m) (off + m) s2 (gr_ok _ _ _ _ G2) (gr_inode _ _ _ _ G2))
    as (tot & e & s3 & -> & W); [lia|rewrite length_drop; lia|rewrite length_drop; lia|].
  pose proof W as [W1 W2 W3 W4 W5]. rewrite length_drop in W1, W5.
  exists (m + tot), e, s3. split; [done|]. constructor.
  - lia.
  - by eapply grown_trans.
  - intros x Hx. destruct (Z.lt_ge_cases x (off + m)) as [Hxm|Hxm].
    + destruct (Hnew x) as (Hne & Hxin & Hbx); [lia|]. split.
      * by rewrite (gr_keep _ _ _ _ W2).
      * rewrite W4 by (done || lia). done.
    + destruct (W3 x) as [Hne Hbx]; [lia|]. split; [done|]. rewrite Hbx, lookup_drop.
      do 2 f_equal. lia.
  - intros x Hx Hxin Hout Hne. destruct (Hold x Hx Hxin Hne) as [Hne2 Hsame].
    rewrite W4; [apply Hsame; lia|done|done|lia|done].
  - intros Hlt2. destruct W5 as [(W5 & W6 & W7)|(l & k & Hl & Hcp & He)]; [lia|left|right].
    + split_and!; [done| |].
      * by replace (off + (m + tot)) with (off + m + tot) by lia.
      * intros k Hk. apply W7. rewrite (gr_sb _ _ _ _ G2). done.
    + exists l, k. replace (pos + (m + tot)) with (pos + m + tot) by lia. split_and!; [lia|lia|done|done].
Qed.

(** ** The whole of writei *)

Lemma bytes_from_ext s s' i off n :
  (forall x, off <= x < off + n -> byte s' i x = byte s i x) -> bytes_from s' i off n = bytes_from s i off n.
Proof.
  intros H. unfold bytes_from. apply list_fmap_ext. intros k x Hk.
  apply lookup_seq in Hk as [-> Hk]. apply H. lia.
Qed.

Lemma bytes_from_list s i off (l : list Z) :
  (forall k c, l !! k = Some c -> byte s i (off + Z.of_nat k) = c) ->
  bytes_from s i off (Z.of_nat (length l)) = l.
Proof.
  intros H. apply list_eq. intros k. destruct (l !! k) as [c|] eqn:E.
  - pose proof (lookup_lt_Some _ _ _ E). rewrite lookup_bytes_from by lia. f_equal. by apply H.
  - apply lookup_ge_None in E. apply lookup_ge_None. rewrite length_bytes_from. lia.
Qed.

(** Growing the recorded size over blocks that are there. *)
Lemma set_isize_ok ds s i n :
  fs_ok ds s -> inode_ok ds s i -> 0 <= n <= MAXFILE * BSIZE ->
  (forall bn, in_file bn -> bn * BSIZE < n -> entry s i bn <> 0) ->
  let ip := geti s i in
  let s' := seti i {| ip with isize := n |} s in
  fs_ok ds s' /\ inode_ok ds s' i /\ isize (geti s' i) = n /\ inum (geti s' i) = inum (geti s i) /\
  blocks s' = blocks s /\ ind s' i = ind s i /\
  (forall bn, entry s' i bn = entry s i bn) /\ (forall j, j <> i -> geti s' j = geti s j).
Proof.
  intros Hok [I1 I2 I3 I4 I5 I6 I7 I8] Hn Hfull ip s'.
  assert (geti s' i = {| ip with isize := n |}) as Eg by by apply geti_seti_eq.
  assert (ind s' i = ind s i) as Ei by (unfold ind; by rewrite Eg).
  assert (forall bn, entry s' i bn = entry s i bn) as Ee.
  { intros bn. unfold entry. rewrite Ei, Eg. done. }
  split_and!; try done.
  - destruct Hok as [O1 O2 O3 O4 O5]. by constructor.
  - constructor; rewrite ?Eg, ?Ei; try done.
    + unfold s', seti. simpl. by rewrite length_insert.
    + intros bn Hbn. rewrite Ee. by apply I4.
    + intros b c Hb Hc. rewrite !Ee. by apply I6.
    + intros bn Hbn. rewrite Ee. by apply Hfull.
  - by rewrite Eg.
  - by rewrite Eg.
  - intros j Hj. apply geti_seti_ne. done.
Qed.

(** Writing the inode back changes no data block and not the free map. *)
Lemma iupdate_ok ds s i :
  fs_ok ds s -> inode_ok ds s i ->
  let s' := iupdate i s in
  fs_ok ds s' /\ inode_ok ds s' i /\ itable s' = itable s /\ sb s' = sb s /\ ind s' i = ind s i /\
  (forall b, 0 <= b < size (sb s) -> used s' b = used s b) /\
  (forall bn, in_file bn -> entry s' i bn = entry s i bn) /\
  (forall b, is_data ds s b -> blocks s' b = blocks s b).
Proof.
  intros Hok Hio s'.
  pose proof (ok_inodes _ _ Hok _ (io_inum _ _ _ Hio)) as Hib.
  pose proof (ok_map _ _ Hok 0 ltac:(pose proof (ok_ds _ _ Hok); lia)) as Hmap.
  assert (forall b, b <> IBLOCK (inum (geti s i)) s -> blocks s' b = blocks s b) as G.
  { intros b Hb. unfold s', iupdate, set_block. cbn [blocks]. by rewrite disk_upd_ne. }
  destruct (data_write_ok ds s i s' Hok Hio) as (Hok' & Hio' & Hu & Ei & Ee); [done|done| | |].
  { intros b Hb. apply G. lia. }
  { intros Hne. destruct (io_ind _ _ _ Hio Hne) as [Hd _]. unfold is_data in Hd. apply G. lia. }
  split_and!; try done. intros b Hb. unfold is_data in Hb. apply G. lia.
Qed.

Lemma byte_ext ds s s' i x :
  inode_ok ds s i -> in_file (x / BSIZE) -> entry s i (x / BSIZE) <> 0 ->
  entry s' i (x / BSIZE) = entry s i (x / BSIZE) ->
  (forall b, is_data ds s b -> blocks s' b = blocks s b) -> byte s' i x = byte s i x.
Proof.
  intros Hio Hin Hne Ee Hb. unfold byte. rewrite Ee.
  destruct (io_data _ _ _ Hio _ Hin Hne) as (Hd & _). by rewrite Hb.
Qed.

(** [b] written over [F] from position [o] on. *)
Definition splice (F : list Z) (o : nat) (b : list Z) : list Z :=
  take o F ++ b ++ drop (o + length b) F.

Lemma lookup_splice F o b k : (o <= length F)%nat ->
  splice F o b !! k =
    if decide (k < o)%nat then F !! k
    else if decide (k < o + length b)%nat then b !! (k - o)%nat else F !! k.
Proof.
  intros Ho. unfold splice. assert (length (take o F) = o) as Ht by (rewrite length_take; lia).
  destruct (decide (k < o)%nat) as [H|H].
  { rewrite lookup_app_l by lia. by apply lookup_take_lt. }
  rewrite lookup_app_r by lia. rewrite Ht. destruct (decide (k < o + length b)%nat) as [H2|H2].
  { by rewrite lookup_app_l by lia. }
  rewrite lookup_app_r, lookup_drop by lia. f_equal. lia.
Qed.

Lemma length_splice F o b : (o <= length F)%nat -> length (splice F o b) = Nat.max (length F) (o + length b).
Proof. intros Ho. unfold splice. rewrite !length_app, length_take, length_drop. lia. Qed.

(** The end of [writei], after its loop. *)
Lemma writei_finish ds cp s i off src tot e s1 :
  fs_ok ds s -> inode_ok ds s i -> 0 <= off <= isize (geti s i) ->
  off + Z.of_nat (length src) <= MAXFILE * BSIZE -> wrote ds cp 0 i off src s tot e s1 ->
  let ip := geti s1 i in
  let s2 := iupdate i (if isize ip <? off + tot then seti i {| ip with isize := off + tot |} s1 else s1) in
  fs_ok ds s2 /\ inode_ok ds s2 i /\
  file_of s2 i = take (Z.to_nat (Z.max (isize (geti s i)) (off + tot)))
                   (splice (file_of s i) (Z.to_nat off) (take (Z.to_nat (tot + e)) src)) /\
  (forall b, is_data ds s b -> used s b = true -> foreign s i b ->
     blocks s2 b = blocks s b /\ used s2 b = true /\ foreign s2 i b) /\
  (forall j, j <> i -> geti s2 j = geti s j) /\
  (tot < Z.of_nat (length src) ->
     (e = 0 /\ isize (geti s i) <= off + tot /\ forall c, 0 <= c < size (sb s) -> used s2 c = true) \/
     refused cp 0 (Z.of_nat (length src)) tot e) /\
  sb s2 = sb s.
Proof.
  intros Hok Hio Hoff Hsz [W1 G W3 W4 W5] ip.
  pose proof (gr_ok _ _ _ _ G) as Hok1. pose proof (gr_inode _ _ _ _ G) as Hio1.
  pose proof (gr_isize _ _ _ _ G) as Esz. pose proof (gr_sb _ _ _ _ G) as Esb.
  pose proof (io_size _ _ _ Hio) as HS. fold ip in Esz.
  set (sz := isize (geti s i)) in *.
  set (s1' := if isize ip <? off + tot then _ else s1).
  assert (fs_ok ds s1' /\ inode_ok ds s1' i /\ isize (geti s1' i) = Z.max sz (off + tot) /\
    blocks s1' = blocks s1 /\ sb s1' = sb s1 /\ ind s1' i = ind s1 i /\
    (forall bn, entry s1' i bn = entry s1 i bn) /\
    (forall j, j <> i -> geti s1' j = geti s1 j)) as (Hok2 & Hio2 & Esz2 & Ebl2 & Esb2 & Ei2 & Ee2 & Ej2).
  { unfold s1'. rewrite Esz. destruct (Z.ltb_spec sz (off + tot)) as [Hlt|Hge].
    - destruct (set_isize_ok ds s1 i (off + tot) Hok1 Hio1) as (? & ? & Hs & _ & ? & ? & ? & ?); [lia| |].
      + intros bn Hbn Hlt2. destruct (Z.lt_ge_cases (bn * BSIZE) sz) as [Hin|Hout].
        * rewrite (gr_keep _ _ _ _ G) by (done || by apply (io_full _ _ _ Hio)).
          by apply (io_full _ _ _ Hio).
        * destruct (W3 (bn * BSIZE)) as [Hne _]; [lia|].
          by rewrite Z.div_mul in Hne by (unfold BSIZE; lia).
      + split_and!; try done. etrans; [exact Hs|lia].
    - split_and!; try done. fold ip. lia. }
  destruct (iupdate_ok ds s1' i Hok2 Hio2) as (Hok3 & Hio3 & Eit & Esb3 & Ei3 & Hu3 & Ee3 & Hd3).
  set (s2 := iupdate i s1') in *.
  assert (forall j, geti s2 j = geti s1' j) as Eg by (intros j; unfold geti; by rewrite Eit).
  assert (forall x, 0 <= x < Z.max sz (off + tot) -> byte s2 i x = byte s1 i x) as Hby.
  { intros x Hx. assert (in_file (x / BSIZE)) as Hxin by (apply in_file_div; lia).
    assert (entry s1' i (x / BSIZE) <> 0) as Hne.
    { apply (io_full _ _ _ Hio2); [done|]. rewrite Esz2.
      pose proof (Z.mul_div_le x BSIZE). unfold BSIZE in *. lia. }
    rewrite (byte_ext ds s1' s2) by (done || by apply Ee3).
    unfold byte. by rewrite Ee2, Ebl2. }
  assert (forall x, 0 <= x < sz -> x < off \/ off + tot + e <= x -> byte s2 i x = byte s i x) as Hold.
  { intros x Hx Hout. rewrite Hby by lia. assert (in_file (x / BSIZE)) as Hxin by (apply in_file_div; lia).
    apply W4; [lia|done|lia|]. apply (io_full _ _ _ Hio); [done|].
    pose proof (Z.mul_div_le x BSIZE). unfold BSIZE in *. lia. }
  split_and!; [done|done| | | | |].
  - assert (length (file_of s i) = Z.to_nat sz) as HlF by (unfold file_of; by rewrite length_bytes_from).
    set (N := Z.max sz (off + tot)) in *. apply list_eq. intros k.
    destruct (decide (k < Z.to_nat N)%nat) as [Hk|Hk].
    2:{ rewrite !(proj2 (lookup_ge_None _ _)); [done| |]; [rewrite length_take; lia|].
        unfold file_of. rewrite Eg, Esz2, length_bytes_from. lia. }
    rewrite lookup_take_lt, lookup_splice by lia. rewrite length_take.
    unfold file_of at 1. rewrite Eg, Esz2, lookup_bytes_from by lia. rewrite Z.add_0_l.
    assert (forall x, 0 <= x < sz -> file_of s i !! Z.to_nat x = Some (byte s i x)) as Hfo.
    { intros x Hx. unfold file_of. rewrite lookup_bytes_from by lia. do 2 f_equal. lia. }
    destruct (decide (k < Z.to_nat off)%nat) as [H1|H1]; [|destruct (decide _) as [H2|H2]].
    + replace k with (Z.to_nat (Z.of_nat k)) at 2 by lia. rewrite Hfo by lia. f_equal. apply Hold; lia.
    + rewrite Hby by lia. destruct (W3 (Z.of_nat k)) as [_ ->]; [lia|].
      rewrite lookup_take_lt by lia. replace (Z.to_nat (Z.of_nat k - off)) with (k - Z.to_nat off)%nat by lia.
      destruct (src !! (k - Z.to_nat off)%nat) eqn:E; [done|]. apply lookup_ge_None in E. lia.
    + replace k with (Z.to_nat (Z.of_nat k)) at 2 by lia. rewrite Hfo by lia. f_equal. apply Hold; lia.
  - intros b Hb Hbu Hf. destruct (gr_other _ _ _ _ G b Hb Hbu Hf) as (E & Hu1 & Hfi & Hfe).
    assert (is_data ds s1' b) as Hb2 by (unfold is_data in *; by rewrite Esb2, Esb).
    pose proof (ok_ds _ _ Hok). split; [|split].
    + rewrite Hd3 by done. by rewrite Ebl2.
    + rewrite Hu3 by (unfold is_data in Hb2; lia). unfold used, BBLOCK in *. by rewrite Ebl2, Esb2.
    + split; [by rewrite Ei3, Ei2|]. intros bn Hbn. rewrite Ee3, Ee2 by done. by apply Hfe.
  - intros j Hj. rewrite Eg, Ej2 by done. by apply (gr_itable _ _ _ _ G).
  - intros Hlt. destruct (W5 Hlt) as [(He & E0 & Hall)|Hr]; [left|by right]. split_and!; [done| |].
    + destruct (Z.le_gt_cases sz (off + tot)) as [|Hgt]; [done|exfalso].
      assert (in_file ((off + tot) / BSIZE)) as Hxin by (apply in_file_div; lia).
      assert (entry s i ((off + tot) / BSIZE) <> 0) as Hne.
      { apply (io_full _ _ _ Hio); [done|]. pose proof (Z.mul_div_le (off + tot) BSIZE). unfold BSIZE in *. lia. }
      rewrite (gr_keep _ _ _ _ G) in E0 by done. done.
    + intros c Hc. rewrite Hu3 by (rewrite Esb2, Esb; done).
      unfold used, BBLOCK in *. rewrite Ebl2, Esb2. by apply Hall.
  - by rewrite Esb3, Esb2.
Qed.

(** What [writei] of [src] at [off] has done when it has written [tot] bytes, and
    left [e] bytes of a refused piece in the buffer. *)
Record written_from (ds : Z) (cp : copier) (i : nat) (off : Z) (src : list Z) (tot e : Z) (s s' : fs)
    : Prop := mk_written_from {
  wf_tot : 0 <= tot /\ 0 <= e /\ tot + e <= Z.of_nat (length src);
  wf_ok : fs_ok ds s';
  wf_inode : inode_ok ds s' i;
  wf_file : file_of s' i = take (Z.to_nat (Z.max (isize (geti s i)) (off + tot)))
                             (splice (file_of s i) (Z.to_nat off) (take (Z.to_nat (tot + e)) src));
  wf_other : forall b, is_data ds s b -> used s b = true -> foreign s i b ->
    blocks s' b = blocks s b /\ used s' b = true /\ foreign s' i b;
  wf_geti : forall j, j <> i -> geti s' j = geti s j;
  wf_full : tot < Z.of_nat (length src) ->
    (e = 0 /\ isize (geti s i) <= off + tot /\ forall c, 0 <= c < size (sb s) -> used s' c = true) \/
    refused cp 0 (Z.of_nat (length src)) tot e;
  wf_sb : sb s' = sb s
}.

Lemma writei_from_spec ds cp s i off src :
  fs_ok ds s -> inode_ok ds s i -> 0 <= off < 2 ^ 32 -> Z.of_nat (length src) < 2 ^ 31 ->
  if (isize (geti s i) <? off) || (MAXFILE * BSIZE <? off + Z.of_nat (length src))
  then writei_from cp i off src s = Ret (-1, s)
  else exists tot e s', writei_from cp i off src s = Ret (tot, s') /\ written_from ds cp i off src tot e s s'.
Proof.
  intros Hok Hio Hoff Hsrc. pose proof (io_size _ _ _ Hio) as HS. unfold writei_from.
  set (n := Z.of_nat (length src)) in *. assert (MAXFILE * BSIZE = 274432) as EM by done. rewrite EM in *.
  destruct (Z.ltb_spec (isize (geti s i)) off) as [H1|H1]; simpl; [done|].
  rewrite (wrapu_small 32 (off + n)) by lia. rewrite (proj2 (Z.ltb_ge (off + n) off)) by lia.
  destruct (Z.ltb_spec 274432 (off + n)) as [H2|H2]; [done|].
  destruct (writei_loop_spec ds cp i (length src) src 0 off s Hok Hio) as (tot & e & s1 & -> & W); [lia|lia|lia|].
  pose proof (writei_finish ds cp s i off src tot e s1 Hok Hio ltac:(lia) ltac:(lia) W) as F. cbv zeta in F.
  unfold mbind, outcome_bind. exists tot, e. eexists. split; [done|]. destruct F as (F1 & F2 & F3 & F4 & F5 & F6 & F7).
  pose proof (wr_tot _ _ _ _ _ _ _ _ _ _ W) as Ht. by constructor.
Qed.

(** From a kernel address no copy is refused. *)
Record written (ds : Z) (i : nat) (off : Z) (src : list Z) (tot : Z) (s s' : fs) : Prop := mk_written {
  wn_tot : 0 <= tot <= Z.of_nat (length src);
  wn_ok : fs_ok ds s';
  wn_inode : inode_ok ds s' i;
  wn_file : file_of s' i = take (Z.to_nat off) (file_of s i) ++ take (Z.to_nat tot) src
                           ++ drop (Z.to_nat off + Z.to_nat tot) (file_of s i);
  wn_other : forall b, is_data ds s b -> used s b = true -> foreign s i b ->
    blocks s' b = blocks s b /\ used s' b = true /\ foreign s' i b;
  wn_geti : forall j, j <> i -> geti s' j = geti s j;
  wn_full : tot < Z.of_nat (length src) -> isize (geti s i) <= off + tot /\
    forall c, 0 <= c < size (sb s) -> used s' c = true;
  wn_sb : sb s' = sb s
}.

Lemma writei_spec ds s i off src :
  fs_ok ds s -> inode_ok ds s i -> 0 <= off < 2 ^ 32 -> Z.of_nat (length src) < 2 ^ 31 ->
  if (isize (geti s i) <? off) || (MAXFILE * BSIZE <? off + Z.of_nat (length src))
  then writei i off src s = Ret (-1, s)
  else exists tot s', writei i off src s = Ret (tot, s') /\ written ds i off src tot s s'.
Proof.
  intros Hok Hio Hoff Hsrc. pose proof (writei_from_spec ds kernel_copy s i off src Hok Hio Hoff Hsrc) as W.
  unfold writei. destruct (Z.ltb_spec (isize (geti s i)) off) as [H1|H1]; cbn [orb] in *; [done|].
  destruct (_ <? _); [done|].
  destruct W as (tot & e & s' & -> & [W1 W2 W3 W4 W5 W6 W7 W8]). exists tot, s'. split; [done|].
  assert (tot < Z.of_nat (length src) -> e = 0 /\ isize (geti s i) <= off + tot /\
    forall c, 0 <= c < size (sb s) -> used s' c = true) as Hfull.
  { intros Hlt. destruct (W7 Hlt) as [|(m & k & _ & [=] & _)]. done. }
  assert (e = 0) as -> by (destruct (decide (tot < Z.of_nat (length src))); [by apply Hfull|lia]).
  constructor; try done; [lia| |intros Hlt; by apply Hfull].
  pose proof (io_size _ _ _ Hio) as HS.
  assert (length (file_of s i) = Z.to_nat (isize (geti s i))) as HlF by (unfold file_of; by rewrite length_bytes_from).
  rewrite W4, Z.add_0_r, take_ge by (rewrite length_splice, length_take; lia).
  unfold splice. rewrite length_take. do 3 f_equal. lia.
Qed.

(** (C23) On the blocks of the disk, through the free map, the direct addresses
    and the indirect block, readi and writei are the byte-sequence operations
    the paging code is verified against: readi returns exactly the bytes of
    the file, writei stores its bytes at the offset and extends the file, for
    some number of bytes of room; it keeps the file system and the inode
    well-formed and touches no block that belongs to another file, and writes
    less than asked only when every block of the disk is taken. *)
Theorem files_refine_bytes (ds : Z) (s : fs) (i : nat) (off : Z) :
  fs_ok ds s -> inode_ok ds s i -> 0 <= off < 2 ^ 32 ->
  (forall n, 0 <= n < 2 ^ 32 -> readi i off n s = Ret (Vm.readi (file_of s i) off n, s)) /\
  forall src, Z.of_nat (length src) < 2 ^ 31 ->
    exists tot room s', writei i off src s = Ret (tot, s') /\ 0 <= room /\
      (tot, file_of s' i) = Vm.writei (file_of s i) room off src /\
      fs_ok ds s' /\ inode_ok ds s' i /\
      (forall b, is_data ds s b -> used s b = true -> foreign s i b ->
         blocks s' b = blocks s b /\ used s' b = true) /\
      (0 <= tot < Z.of_nat (length src) -> forall c, 0 <= c < size (sb s) -> used s' c = true).
Proof.
  intros Hok Hio Hoff. split; [intros n Hn; by eapply readi_spec|]. intros src Hsrc.
  pose proof (io_size _ _ _ Hio) as HS. unfold Vm.writei.
  assert (Z.of_nat (length (file_of s i)) = isize (geti s i)) as ->
    by (unfold file_of; rewrite length_bytes_from; lia).
  pose proof (writei_spec ds s i off src Hok Hio Hoff Hsrc) as W.
  set (sz := isize (geti s i)) in *. set (n := Z.of_nat (length src)) in *.
  assert (MAXFILE * BSIZE = 274432) as EM by done. rewrite EM in *.
  change (Vm.MAXFILE * Vm.BSIZE) with 274432.
  destruct (Z.ltb_spec sz off) as [H1|H1]; simpl in W |- *.
  { exists (-1), 0, s. split_and!; try done. lia. }
  rewrite (wrapu_small 32 (off + n)) by lia. rewrite (proj2 (Z.ltb_ge (off + n) off)) by lia.
  destruct (Z.ltb_spec 274432 (off + n)) as [H2|H2].
  { exists (-1), 0, s. split_and!; try done. lia. }
  destruct W as (tot & s' & E & [Ht F1 F2 F3 F4 _ F6 _]). fold n sz in Ht, F6.
  set (room := if tot <? n then off + tot - sz else n).
  exists tot, room, s'. split; [done|].
  assert (0 <= room) as Hroom.
  { unfold room. destruct (Z.ltb_spec tot n); [|lia]. destruct F6 as [F6 _]; [done|]. lia. }
  assert (Z.min n (Z.max 0 (sz + room - off)) = tot) as Etot by (unfold room; destruct (Z.ltb_spec tot n); lia).
  split_and!; [done| |exact F1|exact F2| |].
  - rewrite Etot, F3. by rewrite Z2Nat.id by lia.
  - intros b Hb Hu Hf. by destruct (F4 b Hb Hu Hf) as (? & ? & _).
  - intros Hlt. apply F6. lia.
Qed.

End FsBytes.
