(* ===== verification/Dir.v ===== *)
(** * Directories, path names and swap files
    (xv6-memory-management/kernel/fs.c, string.c, proc.c)

    A C string is the list of its bytes without the terminator; reading past
    the end of such a list reads the terminator. *)
From S2P Require Import Prelude Mem Buf Fs.

#[local] Open Scope Z_scope.

Module Dir.
Import Buf Fs.

(** ** string.c *)

Fixpoint strncmp (n : nat) (p q : list Z) : Z :=
  match n with
  | O => 0
  | S n' =>
      let a := List.hd 0 p in let b := List.hd 0 q in
      if negb (a =? 0) && (a =? b) then strncmp n' (List.tl p) (List.tl q)
      else u8 a - u8 b
  end.

Fixpoint strncpy (n : nat) (t : list Z) : list Z :=
  match n with
  | O => []
  | S n' =>
      match t with
      | [] => replicate n 0
      | c :: t' => if c =? 0 then replicate n 0 else c :: strncpy n' t'
      end
  end.

(** ** Directories *)

Definition namecmp (s t : list Z) : Z := strncmp (Z.to_nat DIRSIZ) s t.

(** A directory entry as its sixteen bytes. *)
Definition de_inum (de : list Z) : Z :=
  default 0 (de !! 0%nat) + 256 * default 0 (de !! 1%nat).
Definition de_name (de : list Z) : list Z := drop 2 de.
Definition dirent (n : Z) (name : list Z) : list Z :=
  [u16 n mod 256; u16 n / 256] ++ strncpy (Z.to_nat DIRSIZ) name.

(** [for (off = 0; off < dp->size; off += sizeof(de))] up to an entry that
    satisfies [test]; [None] at the end of the directory. *)
Fixpoint scan_dir (fuel : nat) (msg : string) (test : list Z -> bool) (dp : nat) (off : Z) (s : fs)
    : outcome (Z * option (list Z) * fs) :=
  if off <? isize (geti s dp) then
    match fuel with
    | O => Undef "scan_dir: fuel"
    | S fuel' =>
        '(de, s) ← readi dp off DIRENT s;
        if negb (Z.of_nat (length de) =? DIRENT) then Panic msg
        else if test de then Ret (off, Some de, s)
        else scan_dir fuel' msg test dp (off + DIRENT) s
    end
  else Ret (off, None, s).

Definition dir_fuel (dp : nat) (s : fs) : nat := Z.to_nat (isize (geti s dp) / DIRENT + 1).

(** The inode found, and the offset of its entry. *)
Definition dirlookup (dp : nat) (name : list Z) (s : fs) : outcome (option (nat * Z) * fs) :=
  if negb (type (geti s dp) =? T_DIR) then Panic "dirlookup not DIR"
  else
    '(off, de, s) ← scan_dir (dir_fuel dp s) "dirlookup read"
      (fun de => negb (de_inum de =? 0) && (namecmp name (de_name de) =? 0)) dp 0 s;
    match de with
    | Some de => '(i, s) ← iget (dev (geti s dp)) (de_inum de) s; Ret (Some (i, off), s)
    | None => Ret (None, s)
    end.

Definition dirlink (dp : nat) (name : list Z) (n : Z) (s : fs) : outcome (Z * fs) :=
  '(found, s) ← dirlookup dp name s;
  match found with
  | Some (i, _) => s ← iput i s; Ret (-1, s)
  | None =>
      '(off, _, s) ← scan_dir (dir_fuel dp s) "dirlink read" (fun de => de_inum de =? 0) dp 0 s;
      '(tot, s) ← writei dp off (dirent n name) s;
      Ret (if tot =? DIRENT then 0 else -1, s)
  end.

(** ** Paths *)

Definition SLASH : Z := 47.

Fixpoint skip_slashes (path : list Z) : list Z :=
  match path with
  | c :: path' => if c =? SLASH then skip_slashes path' else path
  | [] => []
  end.

(** The bytes up to the next slash, and the rest. *)
Fixpoint take_elem (path : list Z) : list Z * list Z :=
  match path with
  | c :: path' =>
      if c =? SLASH then ([], path)
      else let '(e, rest) := take_elem path' in (c :: e, rest)
  | [] => ([], [])
  end.

(** [skipelem]: the path after the element, and the name buffer. *)
Definition skipelem (path name : list Z) : option (list Z * list Z) :=
  let path := skip_slashes path in
  match path with
  | [] => None
  | _ =>
      let '(e, rest) := take_elem path in
      let name :=
        if DIRSIZ <=? Z.of_nat (length e) then take 14 e
        else e ++ 0 :: drop (S (length e)) name in
      Some (skip_slashes rest, name)
  end.

(** The loop of [namex] from inode [ip]: the inode and the name buffer. *)
Fixpoint namex_loop (fuel : nat) (path : list Z) (nameiparent : bool) (name : list Z) (ip : nat)
    (s : fs) : outcome (option nat * list Z * fs) :=
  match skipelem path name with
  | None =>
      if nameiparent then s ← iput ip s; Ret (None, name, s)
      else Ret (Some ip, name, s)
  | Some (path, name) =>
      match fuel with
      | O => Undef "namex: fuel"
      | S fuel' =>
          s ← ilock ip s;
          if negb (type (geti s ip) =? T_DIR) then s ← iunlockput ip s; Ret (None, name, s)
          else if nameiparent && bool_decide (path = []) then
            s ← iunlock ip s; Ret (Some ip, name, s)
          else
            '(next, s) ← dirlookup ip name s;
            match next with
            | None => s ← iunlockput ip s; Ret (None, name, s)
            | Some (next, _) =>
                s ← iunlockput ip s; namex_loop fuel' path nameiparent name next s
            end
      end
  end.

(** [cwd]: the current directory of the process; [name] the caller's buffer. *)
Definition namex (cwd : nat) (path : list Z) (nameiparent : bool) (name : list Z) (s : fs)
    : outcome (option nat * list Z * fs) :=
  '(ip, s) ← (if bool_decide (List.hd 0 path = SLASH) then iget ROOTDEV ROOTINO s
              else Ret (idup cwd s));
  namex_loop (S (length path)) path nameiparent name ip s.

Definition namei (cwd : nat) (path junk : list Z) (s : fs) : outcome (option nat * fs) :=
  '(ip, _, s) ← namex cwd path false junk s; Ret (ip, s).

Definition nameiparent (cwd : nat) (path name : list Z) (s : fs) : outcome (option nat * list Z * fs) :=
  namex cwd path true name s.

(** ** Swap files (proc.c) *)

(** [safestrcpy(name, "/pgswp00000", 32)], then five digits from [name[11]]
    on; [junk] is what the array held from [name[16]] on, up to a NUL. *)
Definition swap_path (pid : Z) (junk : list Z) : list Z :=
  [47; 112; 103; 115; 119; 112; 48; 48; 48; 48; 48] ++
  ((fun i => 48 + Z.rem (Z.quot pid (10 ^ i)) 10) <$> [4; 3; 2; 1; 0]) ++ junk.

(** Link a new file as [nm] in the locked directory [dp]. *)
Definition create_swapfile (dp : nat) (nm : list Z) (s : fs) : outcome (Z * option nat * fs) :=
  '(ip, s) ← ialloc (dev (geti s dp)) T_FILE s;
  match ip with
  | None => s ← iunlockput dp s; Ret (-1, None, s)
  | Some ip =>
      s ← ilock ip s;
      let n := geti s ip in
      let s := iupdate ip (seti ip {| n with major := 0; minor := 0; nlink := 1 |} s) in
      '(r, s) ← dirlink dp nm (inum (geti s ip)) s;
      if r <? 0 then
        let n := geti s ip in
        let s := iupdate ip (seti ip {| n with nlink := 0 |} s) in
        s ← iunlockput ip s;
        s ← iunlockput dp s;
        Ret (-1, None, s)
      else
        s ← iunlockput dp s;
        s ← iunlock ip s;
        Ret (0, Some ip, s)
  end.

(** The result, [p->swapip] and the file system; [swapip] is its old value. *)
Definition alloc_swapfile (cwd : nat) (swapip : option nat) (pid : Z) (junk nm : list Z) (s : fs)
    : outcome (Z * option nat * fs) :=
  match swapip with
  | Some _ => Ret (0, swapip, s)
  | None =>
      '(dp, nm, s) ← nameiparent cwd (swap_path pid junk) nm s;
      match dp with
      | None => Ret (-1, None, s)
      | Some dp =>
          s ← ilock dp s;
          '(found, s) ← dirlookup dp nm s;
          match found with
          | Some (ip, _) =>
              s ← ilock ip s;
              s ← itrunc ip s;
              s ← iunlock ip s;
              s ← iunlockput dp s;
              Ret (0, Some ip, s)
          | None => create_swapfile dp nm s
          end
      end
  end.

(** The part of [remove_swapfile] on the file system. *)
Definition remove_swapfile (cwd : nat) (swapip : option nat) (pid : Z) (junk nm : list Z) (s : fs)
    : outcome fs :=
  match swapip with
  | None => Ret s
  | Some swapip =>
      '(dp, nm, s) ← nameiparent cwd (swap_path pid junk) nm s;
      s ← (match dp with
           | None => Ret s
           | Some dp =>
               s ← ilock dp s;
               '(found, s) ← dirlookup dp nm s;
               match found with
               | Some (ip, off) =>
                   s ← ilock ip s;
                   '(tot, s) ← writei dp off (replicate 16 0) s;
                   if negb (tot =? DIRENT) then Panic "swap unlink: writei"
                   else
                     s ← iunlockput dp s;
                     let n := geti s ip in
                     let s := if 0 <? nlink n
                              then iupdate ip (seti ip {| n with nlink := nlink n - 1 |} s) else s in
                     iunlockput ip s
               | None => iunlockput dp s
               end
           end);
      iput swapip s
  end.

End Dir.
