(* ===== verification/DirFacts.v ===== *)
(** * Path names are split at the slashes; swap files of ten processes share one
    name. *)
From S2P Require Import Prelude Mem Vm Buf Fs FsFacts FsBytes Dir.

#[local] Open Scope Z_scope.

Module DirFacts.
Import Buf Fs Dir.

(** ** The elements of a path *)

Fixpoint split (path : list Z) : list (list Z) :=
  match path with
  | [] => [[]]
  | c :: path' =>
      if c =? SLASH then [] :: split path'
      else match split path' with
           | e :: es => (c :: e) :: es
           | [] => [[c]]
           end
  end.

Definition nonempty (e : list Z) : bool := negb (bool_decide (e = [])).

(** What stands between the slashes. *)
Definition path_elements (path : list Z) : list (list Z) := List.filter nonempty (split path).

(** The string in a name buffer of DIRSIZ bytes. *)
Fixpoint c_string (l : list Z) : list Z :=
  match l with
  | c :: l' => if c =? 0 then [] else c :: c_string l'
  | [] => []
  end.
Definition name_of (name : list Z) : list Z := c_string (take 14 name).

(** The names [namex] looks up one after the other. *)
Fixpoint namex_names (fuel : nat) (path name : list Z) : list (list Z) :=
  match fuel, skipelem path name with
  | S fuel', Some (path, name) => name_of name :: namex_names fuel' path name
  | _, _ => []
  end.

Lemma split_cons path : exists e es, split path = e :: es.
Proof.
  induction path as [|c path IH]; simpl; [eauto|].
  destruct (c =? SLASH); [eauto|]. destruct IH as (e & es & ->). eauto.
Qed.

Lemma elements_skip path : path_elements (skip_slashes path) = path_elements path.
Proof.
  induction path as [|c path IH]; [done|]. simpl. destruct (c =? SLASH) eqn:E; [|done].
  rewrite IH. unfold path_elements at 2. simpl. by rewrite E.
Qed.

Lemma skip_slashes_head path c rest : skip_slashes path = c :: rest -> c <> SLASH.
Proof.
  induction path as [|d path IH]; simpl; [done|]. destruct (Z.eqb_spec d SLASH); [done|].
  intros [= -> ->]. done.
Qed.

Lemma skip_slashes_length path : (length (skip_slashes path) <= length path)%nat.
Proof. induction path as [|c path IH]; simpl; [lia|]. case_match; simpl; lia. Qed.

Lemma skip_slashes_incl path : skip_slashes path ⊆ path.
Proof. induction path as [|c path IH]; simpl; [done|]. case_match; set_solver. Qed.

(** The first element and the rest. *)
Lemma take_elem_spec path e rest :
  take_elem path = (e, rest) ->
  path = e ++ rest /\ SLASH ∉ e /\ (rest = [] \/ exists r, rest = SLASH :: r).
Proof.
  revert e rest. induction path as [|c path IH]; intros e rest; simpl.
  { intros [= <- <-]. split_and!; [done|set_solver|by left]. }
  destruct (Z.eqb_spec c SLASH) as [->|Hc].
  { intros [= <- <-]. split_and!; [done|set_solver|right; eauto]. }
  destruct (take_elem path) as [e' r'] eqn:E. intros [= <- <-].
  destruct (IH _ _ eq_refl) as (-> & He & Hr). split_and!; [done|set_solver|done].
Qed.

Lemma split_app e rest :
  SLASH ∉ e -> (rest = [] \/ exists r, rest = SLASH :: r) ->
  split (e ++ rest) = e :: match rest with [] => [] | _ :: r => split r end.
Proof.
  intros He Hr. induction e as [|c e IH]; simpl.
  - destruct Hr as [->|[r ->]]; [done|]. simpl. done.
  - rewrite (proj2 (Z.eqb_neq c SLASH)) by set_solver. by rewrite IH by set_solver.
Qed.

(** One call of [skipelem]. *)
Lemma skipelem_spec path name :
  (forall c, c ∈ path -> c <> 0) ->
  match skipelem path name with
  | None => path_elements path = []
  | Some (path', name') =>
      exists e, path_elements path = e :: path_elements path' /\ name_of name' = take 14 e /\
        (length path' < length path)%nat /\ path' ⊆ path
  end.
Proof.
  intros Hz. unfold skipelem. rewrite <- elements_skip.
  pose proof (skip_slashes_length path) as Hlen. pose proof (skip_slashes_incl path) as Hin.
  destruct (skip_slashes path) as [|c p] eqn:Es; [done|].
  pose proof (skip_slashes_head _ _ _ Es) as Hc.
  destruct (take_elem (c :: p)) as [e rest] eqn:Et.
  destruct (take_elem_spec _ _ _ Et) as (Ep & He & Hr).
  assert (e <> []) as Hne by (simpl in Et; destruct (Z.eqb_spec c SLASH); [done|]; by case_match; simplify_eq).
  exists e. split_and!.
  - rewrite elements_skip. rewrite Ep. unfold path_elements. rewrite split_app by done. simpl.
    unfold nonempty at 1. rewrite bool_decide_eq_false_2 by done. simpl. f_equal.
    destruct Hr as [->|[r ->]]; [done|]. by simpl.
  - assert (forall l : list Z, (forall c, c ∈ l -> c <> 0) -> c_string l = l) as Hcs.
    { induction l as [|x l IH]; intros H; [done|]. simpl.
      rewrite (proj2 (Z.eqb_neq x 0)) by (apply H; set_solver). rewrite IH; set_solver. }
    assert (forall c, c ∈ e -> c <> 0) as Hez.
    { intros x Hx. apply Hz, Hin. rewrite Ep. set_solver. }
    unfold name_of. destruct (Z.leb_spec DIRSIZ (Z.of_nat (length e))) as [Hl|Hl].
    + rewrite take_take, Nat.min_id. apply Hcs. intros x Hx. apply Hez. by apply elem_of_take in Hx as (? & ? & _); eapply list_elem_of_lookup_2.
    + unfold DIRSIZ in Hl. rewrite (take_ge e) by lia. rewrite take_app_ge by lia.
      replace (14 - length e)%nat with (S (13 - length e)) by lia. simpl.
      generalize (take (13 - length e) (drop (S (length e)) name)). intros t.
      clear -Hez. induction e as [|x e IH]; simpl; [done|].
      rewrite (proj2 (Z.eqb_neq x 0)) by (apply Hez; set_solver). rewrite IH; set_solver.
  - pose proof (skip_slashes_length rest) as Hl2.
    apply (f_equal length) in Ep. rewrite length_app in Ep. destruct e; [done|]. simpl in *. lia.
  - intros x Hx. apply Hin. rewrite Ep. apply skip_slashes_incl in Hx. set_solver.
Qed.

(** The loop of namex runs through the path: the names it looks up are the
    nonempty pieces between the slashes, in order, each cut to DIRSIZ bytes,
    and every call of skipelem makes the path shorter until none is left. *)
Theorem namex_splits_path (path name : list Z) :
  (forall c, c ∈ path -> c <> 0) ->
  namex_names (S (length path)) path name = take 14 <$> path_elements path /\
  (forall path' name', skipelem path name = Some (path', name') -> (length path' < length path)%nat) /\
  (skipelem path name = None <-> path_elements path = []).
Proof.
  intros Hz. split; [|pose proof (skipelem_spec path name Hz) as H].
  - assert (forall fuel p nm, (length p < fuel)%nat -> (forall c, c ∈ p -> c <> 0) ->
      namex_names fuel p nm = take 14 <$> path_elements p) as H; [|apply H; [lia|done]].
    induction fuel as [|fuel IH]; intros p nm Hl Hp; [lia|]. simpl.
    pose proof (skipelem_spec p nm Hp) as H. destruct (skipelem p nm) as [[p' nm']|].
    + destruct H as (e & -> & -> & Hlt & Hsub). simpl. f_equal. apply IH; [lia|].
      intros c Hc. by apply Hp, Hsub.
    + by rewrite H.
  - destruct (skipelem path name) as [[p' nm']|].
    + destruct H as (e & -> & _ & Hlt & _). split; [|done]. by intros ? ? [= <- <-].
    + by rewrite H.
Qed.

Lemma namex_splits_path_witness :
  (forall c, c ∈ [47; 47; 97; 47; 98; 98; 47] -> c <> 0) /\
  namex_names 8 [47; 47; 97; 47; 98; 98; 47] [] = [[97]; [98; 98]].
Proof.
  assert (forall c, c ∈ [47; 47; 97; 47; 98; 98; 47] -> c <> 0) as Hz.
  { intros c Hc. repeat (apply elem_of_cons in Hc as [->|Hc]; [done|]). by apply elem_of_nil in Hc. }
  split; [exact Hz|]. exact (proj1 (namex_splits_path [47; 47; 97; 47; 98; 98; 47] [] Hz)).
Defined.

End DirFacts.

(** ** Ten processes share one swap file

    The name alloc_swapfile builds is longer than a directory entry can hold,
    and what is cut off is the last digit of the process number. *)


Module SwapFile.
Import Buf Fs Dir DirFacts.

(** The fourteen bytes that remain of the name: pgswp00000 and four digits. *)
Definition swap_name (pid : Z) : list Z :=
  [112; 103; 115; 119; 112; 48; 48; 48; 48; 48] ++
  ((fun i => 48 + Z.rem (Z.quot pid (10 ^ i)) 10) <$> [4; 3; 2; 1]).

Lemma take_elem_whole l : SLASH ∉ l -> take_elem l = (l, []).
Proof.
  induction l as [|c l IH]; [done|]. intros H. simpl.
  rewrite (proj2 (Z.eqb_neq c SLASH)) by set_solver. by rewrite IH by set_solver.
Qed.

Lemma digit_not_slash pid k : 0 <= pid -> 48 + Z.rem (Z.quot pid k) 10 <> SLASH \/ k <= 0.
Proof.
  intros Hp. destruct (Z.le_gt_cases k 0) as [|Hk]; [by right|left]. unfold SLASH.
  pose proof (Z.quot_pos pid k). pose proof (Z.rem_bound_pos (Z.quot pid k) 10). lia.
Qed.

(** The only path element is cut to [swap_name]. *)
Lemma skipelem_swap pid junk nm :
  0 <= pid -> SLASH ∉ junk ->
  skipelem (swap_path pid junk) nm = Some ([], swap_name pid).
Proof.
  intros Hp Hj. unfold swap_path, skipelem. simpl skip_slashes.
  assert (forall k, 0 < k -> 48 + Z.rem (Z.quot pid k) 10 <> SLASH) as Hd.
  { intros k Hk. destruct (digit_not_slash pid k Hp); [done|lia]. }
  rewrite take_elem_whole; [|].
  - simpl. rewrite (proj2 (Z.leb_le _ _)); [done|]. unfold DIRSIZ. lia.
  - simpl. rewrite !not_elem_of_cons. split_and!; try (unfold SLASH; done);
      try (apply not_eq_sym, Hd; lia); done.
Qed.

Lemma namex_swap p q j1 j2 cwd nm s :
  0 <= p -> 0 <= q -> SLASH ∉ j1 -> SLASH ∉ j2 -> swap_name p = swap_name q ->
  nameiparent cwd (swap_path p j1) nm s = nameiparent cwd (swap_path q j2) nm s.
Proof.
  intros Hp Hq H1 H2 Hn. unfold nameiparent, namex.
  change (List.hd 0 (swap_path p j1)) with 47. change (List.hd 0 (swap_path q j2)) with 47.
  destruct (if bool_decide (47 = SLASH) then _ else _) as [[ip s']| |]; [|done|done].
  unfold mbind, outcome_bind.
  remember (length (swap_path p j1)) as n1 eqn:E1. remember (length (swap_path q j2)) as n2 eqn:E2.
  cbn [namex_loop]. rewrite (skipelem_swap p j1), (skipelem_swap q j2) by done. rewrite Hn.
  unfold swap_path in E1, E2. rewrite !length_app in E1, E2. simpl in E1, E2.
  destruct n1 as [|n1]; [lia|]. destruct n2 as [|n2]; [lia|]. done.
Qed.

Lemma swap_name_eq p q : 0 <= p -> 0 <= q -> p / 10 = q / 10 -> swap_name p = swap_name q.
Proof.
  intros Hp Hq E.
  unfold swap_name. f_equal. apply list_fmap_ext. intros i k Hk. do 2 f_equal.
  assert (1 <= k) as H1 by (apply list_elem_of_lookup_2 in Hk; set_solver by lia).
  replace (10 ^ k) with (10 * 10 ^ (k - 1)) by (rewrite <- Z.pow_succ_r by lia; f_equal; lia).
  pose proof (Z.pow_pos_nonneg 10 (k - 1)).
  rewrite !Z.quot_div_nonneg by lia. rewrite <- !Z.div_div by lia. by rewrite E.
Qed.

(** alloc_swapfile and remove_swapfile do not depend on the last digit of
    the process number: on any file system, for two processes whose numbers
    agree but for that digit they find, truncate, create and unlink the same
    file. *)
Theorem swap_files_shared (p q : Z) :
  0 <= p -> 0 <= q -> p / 10 = q / 10 ->
  forall j1 j2 cwd nm s, SLASH ∉ j1 -> SLASH ∉ j2 ->
    alloc_swapfile cwd None p j1 nm s = alloc_swapfile cwd None q j2 nm s /\
    forall ip, remove_swapfile cwd (Some ip) p j1 nm s = remove_swapfile cwd (Some ip) q j2 nm s.
Proof.
  intros Hp Hq E j1 j2 cwd nm s H1 H2. pose proof (swap_name_eq p q Hp Hq E) as Hn.
  split; [|intros ip]; unfold alloc_swapfile, remove_swapfile;
    by rewrite (namex_swap p q j1 j2) by done.
Qed.

(** ** A run on a small disk

    Inode 1 is the empty root directory; blocks 0 to 9 are taken. *)
Definition demo_fs : fs :=
  let root := {| dev := 1; inum := 1; ref := 1; locked := false; valid := true; type := T_DIR;
                 major := 0; minor := 0; nlink := 1; isize := 0; addrs := replicate 13 0 |} in
  let s := {| blocks := fun _ _ => 0; itable := root :: replicate 49 zero_inode;
              sb := mk_sb FSMAGIC 64 54 32 0 0 2 5 |} in
  let d := fold_left set_bit (Z.of_nat <$> seq 0 10) (fun _ => 0) in
  iupdate 0 (set_block 5 d s).

(** Process 3 makes its swap file and stores a page's first bytes; process 4
    makes its own: it is the same inode, and the bytes are gone. *)
Definition demo_run : outcome (Z * option nat * option nat * list Z * list Z) :=
  '(_, ip3, s) ← alloc_swapfile 0 None 3 [] (replicate 14 0) demo_fs;
  match ip3 with
  | None => Undef "no swap file"
  | Some i =>
      s ← ilock i s;
      '(n, s) ← writei i 0 [1; 2; 3; 4] s;
      '(before, s) ← readi i 0 4 s;
      s ← iunlock i s;
      '(_, ip4, s) ← alloc_swapfile 0 None 4 [] (replicate 14 0) s;
      s ← ilock i s;
      '(after, s) ← readi i 0 4 s;
      Ret (n, ip3, ip4, before, after)
  end.

Lemma swap_file_clobbered : demo_run = Ret (4, Some 1%nat, Some 1%nat, [1; 2; 3; 4], []).
Proof. vm_compute. reflexivity. Qed.

Lemma swap_files_shared_witness :
  3 / 10 = 4 / 10 /\
  alloc_swapfile 0 None 3 [] (replicate 14 0) demo_fs = alloc_swapfile 0 None 4 [] (replicate 14 0) demo_fs.
Proof.
  split; [reflexivity|].
  refine (proj1 (swap_files_shared 3 4 _ _ eq_refl [] [] 0 (replicate 14 0) demo_fs _ _));
    [lia|lia|apply not_elem_of_nil|apply not_elem_of_nil].
Defined.

End SwapFile.

(** ** The file theorems at a small disk. *)


Module FsRun.
Import Buf Fs FsFacts FsFile FsBytes SwapFile.

Lemma demo_fs_ok : fs_ok 10 demo_fs.
Proof.
  constructor.
  - simpl. lia.
  - simpl. lia.
  - intros n Hn. change (ninodes (sb demo_fs)) with 32 in Hn. change (bmapstart (sb demo_fs)) with 5.
    unfold IBLOCK. change (inodestart (sb demo_fs)) with 2. change IPB with 16.
    pose proof (Z.div_mod n 16). pose proof (Z.mod_pos_bound n 16). lia.
  - intros b Hb. change (size (sb demo_fs)) with 64 in Hb. unfold BBLOCK.
    change (bmapstart (sb demo_fs)) with 5. change BPB with 8192.
    rewrite Z.div_small by lia. lia.
  - intros b Hb.
    assert (forallb (fun k => used demo_fs (Z.of_nat k)) (seq 0 10) = true) as H by (vm_compute; reflexivity).
    rewrite forallb_forall in H. specialize (H (Z.to_nat b)).
    rewrite Z2Nat.id in H by lia. apply H. apply List.in_seq. lia.
Qed.

Lemma demo_entry bn : in_file bn -> entry demo_fs 0 bn = 0.
Proof.
  intros Hbn. unfold in_file in Hbn. unfold entry.
  change (addr (geti demo_fs 0) bn) with (default 0 (replicate 13 0 !! Z.to_nat bn)).
  change (ind demo_fs 0 =? 0) with true. cbv iota.
  destruct (bn <? NDIRECT); [|done].
  destruct (replicate 13 0 !! Z.to_nat bn) as [z|] eqn:E; [|done].
  by apply lookup_replicate in E as [-> _].
Qed.

Lemma demo_inode_ok : inode_ok 10 demo_fs 0.
Proof.
  constructor.
  - simpl. lia.
  - done.
  - change (inum (geti demo_fs 0)) with 1. change (ninodes (sb demo_fs)) with 32. lia.
  - intros bn Hbn. by rewrite demo_entry.
  - done.
  - intros b c Hb _. by rewrite demo_entry.
  - change (isize (geti demo_fs 0)) with 0. change (MAXFILE * BSIZE) with 274432. lia.
  - intros bn Hbn. change (isize (geti demo_fs 0)) with 0. unfold in_file, BSIZE in *. lia.
Qed.

Lemma files_refine_bytes_witness :
  exists tot room s', writei 0 0 [1; 2; 3] demo_fs = Ret (tot, s') /\ 0 <= room /\
    (tot, file_of s' 0) = Vm.writei [] room 0 [1; 2; 3] /\ inode_ok 10 s' 0.
Proof.
  destruct (files_refine_bytes 10 demo_fs 0 0 demo_fs_ok demo_inode_ok ltac:(lia)) as [_ H].
  destruct (H [1; 2; 3] ltac:(simpl; lia)) as (tot & room & s' & E & Hr & Hw & _ & Hi & _).
  exists tot, room, s'. split; [exact E|split; [exact Hr|split; [exact Hw|exact Hi]]].
Defined.

End FsRun.
