(* ===== verification/DirLookup.v ===== *)
(** * Directories are finite maps: dirlookup and dirlink

    A directory's bytes are entries of sixteen bytes.  The entry of a name is the
    first one in use with that name, and linking a name adds it to the map. *)
From S2P Require Import Prelude Mem Vm Buf Fs FsFacts FsBytes Dir DirFacts.

#[local] Open Scope Z_scope.

Module DirLookup.
Import Buf Fs Dir FsFacts FsFile FsBytes DirFacts SwapFile FsRun.

(** ** Names *)

Definition is_byte (c : Z) : Prop := 0 <= c < 256.

Lemma c_string_take_cons n c l : c_string (take (S n) (c :: l)) = if c =? 0 then [] else c :: c_string (take n l).
Proof. done. Qed.

(** strncmp compares up to the first NUL, which a list reads at its end. *)
Lemma strncmp_eq n a b :
  Forall is_byte a -> Forall is_byte b -> strncmp n a b = 0 <-> c_string (take n a) = c_string (take n b).
Proof.
  revert a b. induction n as [|n IH]; intros a b Ha Hb; [done|]. cbn [strncmp].
  assert (forall l, Forall is_byte l -> is_byte (List.hd 0 l) /\ Forall is_byte (List.tl l) /\
    c_string (take (S n) l) = if List.hd 0 l =? 0 then [] else List.hd 0 l :: c_string (take n (List.tl l))) as Hhd.
  { intros [|c l] Hl; cbn; [split_and!; [unfold is_byte; lia|done|done]|]. by apply Forall_cons in Hl as [? ?]. }
  destruct (Hhd a Ha) as (Hx & Hta & ->). destruct (Hhd b Hb) as (Hy & Htb & ->).
  clear Hhd. remember (List.hd 0 a) as x eqn:Ex. remember (List.hd 0 b) as y eqn:Ey. clear Ex Ey. unfold is_byte in Hx, Hy.
  unfold wrapu. rewrite !Z.mod_small by lia.
  destruct (Z.eqb_spec x 0) as [->|Hx0], (Z.eqb_spec y 0) as [->|Hy0]; cbn [negb andb];
    [done|split; intros; [exfalso; lia|done]| |].
  { rewrite (proj2 (Z.eqb_neq x 0)) by done. split; intros; [exfalso; lia|done]. }
  destruct (Z.eqb_spec x y) as [->|Hxy]; cbn [andb].
  - rewrite IH by done. split; [by intros ->|by intros [= ->]].
  - split; [intros; exfalso; lia|]. by intros [= ? _].
Qed.

Lemma c_string_strncpy n t : c_string (strncpy n t) = c_string (take n t).
Proof.
  revert t. induction n as [|n IH]; intros t; [done|]. destruct t as [|c t]; [done|]. cbn [strncpy take].
  destruct (Z.eqb_spec c 0) as [->|Hc]; [done|]. cbn [c_string]. rewrite (proj2 (Z.eqb_neq c 0)) by done. by rewrite IH.
Qed.

Lemma length_strncpy n t : length (strncpy n t) = n.
Proof.
  revert t. induction n as [|n IH]; intros t; [done|]. destruct t as [|c t]; cbn [strncpy]; [by rewrite length_replicate|].
  destruct (c =? 0); [by rewrite length_replicate|]. cbn. by rewrite IH.
Qed.

Lemma bytes_strncpy n t : Forall is_byte t -> Forall is_byte (strncpy n t).
Proof.
  revert t. induction n as [|n IH]; intros t Ht; [by constructor|].
  assert (Forall is_byte (replicate (S n) 0)) as Hz by (apply Forall_replicate; unfold is_byte; lia).
  destruct t as [|c t]; cbn [strncpy]; [done|]. apply Forall_cons in Ht as [Hc Ht].
  destruct (c =? 0); [done|]. constructor; [done|by apply IH].
Qed.

(** ** Entries *)

(** An entry as the sixteen bytes on disk. *)
Definition is_entry (de : list Z) : Prop := length de = 16%nat /\ Forall is_byte de.

Lemma dirent_entry n name : Forall is_byte name -> is_entry (dirent n name).
Proof.
  intros Hn. unfold dirent. change (Z.to_nat DIRSIZ) with 14%nat. split.
  - rewrite length_app, length_strncpy. done.
  - apply Forall_app. split; [|by apply bytes_strncpy]. unfold wrapu.
    pose proof (Z.mod_pos_bound n (2 ^ 16)). pose proof (Z.mod_pos_bound (n mod 2 ^ 16) 256).
    pose proof (Z.div_pos (n mod 2 ^ 16) 256). pose proof (Z.div_lt_upper_bound (n mod 2 ^ 16) 256 256).
    repeat constructor; lia.
Qed.

Lemma de_inum_dirent n name : 0 <= n < 2 ^ 16 -> de_inum (dirent n name) = n.
Proof.
  intros Hn. unfold de_inum, dirent. cbn [app lookup list_lookup default]. rewrite wrapu_small by lia.
  pose proof (Z.div_mod n 256). cbn. lia.
Qed.

(** The string in a name's field, or in a name buffer. *)
Definition key (name : list Z) : list Z := c_string (take 14 name).

Lemma key_dirent n name : key (de_name (dirent n name)) = key name.
Proof.
  unfold key, de_name, dirent. cbn [app drop]. change (Z.to_nat DIRSIZ) with 14%nat.
  rewrite (take_ge (strncpy 14 name)) by (by rewrite length_strncpy). apply c_string_strncpy.
Qed.

Definition in_use (name de : list Z) : bool := negb (de_inum de =? 0) && (namecmp name (de_name de) =? 0).

Lemma dirent_in_use name de :
  Forall is_byte name -> is_entry de -> in_use name de = true <-> de_inum de <> 0 /\ key name = key (de_name de).
Proof.
  intros Hn [_ Hd]. unfold in_use, namecmp. change (Z.to_nat DIRSIZ) with 14%nat.
  rewrite andb_true_iff, negb_true_iff, Z.eqb_neq, Z.eqb_eq. rewrite strncmp_eq; [done|done|]. by apply Forall_drop.
Qed.

(** A directory as the map from names to inode numbers: the first entry in use. *)
Fixpoint dir_map (des : list (list Z)) (name : list Z) : option Z :=
  match des with
  | [] => None
  | de :: des => if in_use name de then Some (de_inum de) else dir_map des name
  end.

Lemma dir_map_app des des' name :
  dir_map (des ++ des') name = match dir_map des name with Some n => Some n | None => dir_map des' name end.
Proof. induction des as [|de des IH]; [done|]. cbn. by destruct (in_use name de). Qed.

Lemma dir_map_find des name :
  dir_map des name = match find_idx (in_use name) des with Some k => Some (de_inum (default [] (des !! k))) | None => None end.
Proof.
  induction des as [|de des IH]; [done|]. cbn [dir_map find_idx]. destruct (in_use name de); [done|]. rewrite IH.
  by destruct (find_idx (in_use name) des).
Qed.

(** Only the string of a name matters. *)
Lemma dir_map_key des a b :
  Forall is_entry des -> Forall is_byte a -> Forall is_byte b -> key a = key b -> dir_map des a = dir_map des b.
Proof.
  intros Hdes Ha Hb Hk. induction Hdes as [|de des Hde _ IH]; [done|]. cbn. rewrite IH.
  assert (in_use a de = in_use b de) as ->; [|done]. apply eq_true_iff_eq. rewrite !dirent_in_use by done. by rewrite Hk.
Qed.

(** A name put in a free entry, or in a new one. *)
Lemma dir_map_link l1 l2 free name n nm :
  Forall is_entry l1 -> Forall is_entry l2 -> Forall is_entry free -> Forall is_byte name -> Forall is_byte nm -> 0 < n < 2 ^ 16 ->
  Forall (fun de => de_inum de = 0) free -> dir_map (l1 ++ free ++ l2) name = None ->
  dir_map (l1 ++ [dirent n name] ++ l2) nm = if decide (key nm = key name) then Some n else dir_map (l1 ++ free ++ l2) nm.
Proof.
  intros H1 H2 Hf Hname Hnm Hn Hfree Hnone.
  assert (forall a, dir_map free a = None) as Hfr.
  { intros a. clear Hnone Hf. induction Hfree as [|de fr Hde _ IH]; [done|]. cbn.
    unfold in_use. by rewrite Hde. }
  rewrite !dir_map_app, Hfr in *. cbn [dir_map].
  assert (in_use nm (dirent n name) = bool_decide (key nm = key name)) as ->.
  { apply eq_true_iff_eq. rewrite dirent_in_use, de_inum_dirent, key_dirent, bool_decide_eq_true by (done || lia || by apply dirent_entry).
    split; [tauto|]. intros; split; [lia|done]. }
  case_decide as Hk.
  - rewrite bool_decide_eq_true_2, de_inum_dirent by (done || lia). rewrite (dir_map_key l1 nm name) by done. revert Hnone. by destruct (dir_map l1 name).
  - by rewrite bool_decide_eq_false_2 by done.
Qed.

(** ** Scanning *)

Record is_dir (ds : Z) (s : fs) (dp : nat) (des : list (list Z)) : Prop := mk_is_dir {
  id_inode : inode_ok ds s dp;
  id_type : type (geti s dp) = T_DIR;
  id_entries : Forall is_entry des;
  id_bytes : file_of s dp = concat des
}.

Lemma length_concat_entries des : Forall is_entry des -> length (concat des) = (16 * length des)%nat.
Proof. induction 1 as [|de des [Hd _] _ IH]; [done|]. cbn [concat length]. rewrite length_app, Hd, IH. lia. Qed.

Lemma entry_slice des k de :
  Forall is_entry des -> des !! k = Some de -> take 16 (drop (16 * k) (concat des)) = de.
Proof.
  intros Hdes. revert k. induction Hdes as [|d des [Hd _] _ IH]; intros [|k]; [done|done| |].
  - intros [= ->]. cbn [concat]. change (16 * 0)%nat with 0%nat. rewrite drop_0, take_app_le by lia. by apply take_ge; rewrite Hd.
  - intros Hk. cbn [concat]. replace (16 * S k)%nat with (length d + 16 * k)%nat by lia. rewrite drop_app_add'; [by apply IH|done].
Qed.

Lemma dir_size ds s dp des : is_dir ds s dp des -> isize (geti s dp) = 16 * Z.of_nat (length des).
Proof.
  intros [I _ He Hb]. pose proof (io_size _ _ _ I) as Hs. apply (f_equal length) in Hb.
  rewrite length_concat_entries in Hb by done. unfold file_of in Hb. rewrite length_bytes_from in Hb. lia.
Qed.

Lemma read_entry ds s dp des k de :
  is_dir ds s dp des -> des !! k = Some de -> readi dp (16 * Z.of_nat k) DIRENT s = Ret (de, s).
Proof.
  intros D Hk. pose proof (dir_size _ _ _ _ D) as Hsz. pose proof D as [I _ He Hb]. pose proof (io_size _ _ _ I) as Hs.
  pose proof (lookup_lt_Some _ _ _ Hk) as Hlt. assert (MAXFILE * BSIZE = 274432) as EM by done. unfold DIRENT.
  rewrite (readi_spec ds) by (done || lia). rewrite Hb. f_equal. f_equal. unfold Vm.readi.
  rewrite length_concat_entries by done.
  rewrite (proj2 (Z.ltb_ge _ (16 * Z.of_nat k))), wrapu_small, (proj2 (Z.ltb_ge _ (16 * Z.of_nat k))) by lia. cbn [orb].
  rewrite (proj2 (Z.ltb_ge _ _)) by lia. change (Z.to_nat 16) with 16%nat. replace (Z.to_nat (16 * Z.of_nat k)) with (16 * k)%nat by lia.
  by apply entry_slice.
Qed.

Lemma scan_dir_spec ds s dp des msg test :
  is_dir ds s dp des -> forall fuel k, (k <= length des)%nat -> (length des - k < fuel)%nat ->
  scan_dir fuel msg test dp (16 * Z.of_nat k) s =
    Ret match find_idx test (drop k des) with
        | Some j => (16 * Z.of_nat (k + j), des !! (k + j)%nat, s)
        | None => (16 * Z.of_nat (length des), None, s)
        end.
Proof.
  intros D. pose proof (dir_size _ _ _ _ D) as Hsz. induction fuel as [|fuel IH]; intros k Hk Hf; [lia|].
  cbn [scan_dir]. rewrite Hsz. destruct (Z.ltb_spec (16 * Z.of_nat k) (16 * Z.of_nat (length des))) as [Hlt|Hge].
  2:{ rewrite drop_ge by lia. cbn. do 3 f_equal. lia. }
  destruct (lookup_lt_is_Some_2 des k ltac:(lia)) as [de Hde]. rewrite (read_entry _ _ _ _ _ _ D Hde).
  assert (length de = 16%nat) as Hl by apply (Forall_lookup_1 _ _ _ _ (id_entries _ _ _ _ D) Hde).
  unfold mbind, outcome_bind. rewrite Hl. cbn [Z.of_nat Z.eqb negb]. change (negb (Z.of_nat 16 =? DIRENT)) with false. cbv iota.
  rewrite (drop_S _ _ _ Hde). cbn [find_idx]. destruct (test de); [by rewrite Nat.add_0_r, Hde|].
  replace (16 * Z.of_nat k + DIRENT) with (16 * Z.of_nat (S k)) by (unfold DIRENT; lia). rewrite IH by lia.
  destruct (find_idx test (drop (S k) des)) as [j|]; cbn; [|done]. do 3 f_equal; [lia|f_equal; lia].
Qed.

Lemma scan_all ds s dp des msg test :
  is_dir ds s dp des ->
  scan_dir (dir_fuel dp s) msg test dp 0 s =
    Ret match find_idx test des with
        | Some j => (16 * Z.of_nat j, des !! j, s)
        | None => (16 * Z.of_nat (length des), None, s)
        end.
Proof.
  intros D. change 0 with (16 * Z.of_nat 0). rewrite (scan_dir_spec _ _ _ _ msg test D); [by rewrite drop_0|lia|].
  unfold dir_fuel. rewrite (dir_size _ _ _ _ D). unfold DIRENT. rewrite Z.mul_comm, Z.div_mul by lia. lia.
Qed.

(** ** dirlookup *)

Lemma dirlookup_spec ds s dp des name :
  is_dir ds s dp des ->
  dirlookup dp name s = match find_idx (in_use name) des with
    | Some k => '(i, s) ← iget (dev (geti s dp)) (de_inum (default [] (des !! k))) s; Ret (Some (i, 16 * Z.of_nat k), s)
    | None => Ret (None, s)
    end.
Proof.
  intros D. unfold dirlookup. rewrite (id_type _ _ _ _ D). change (negb (T_DIR =? T_DIR)) with false. cbv iota.
  rewrite (scan_all _ _ _ _ _ _ D). destruct (find_idx _ des) as [k|] eqn:E; [|done].
  destruct (lookup_lt_is_Some_2 des k (find_idx_lt _ _ _ E)) as [de ->]. done.
Qed.

(** ** dirlink *)

Lemma concat_split (des : list (list Z)) k de :
  Forall is_entry des -> des !! k = Some de ->
  take (16 * k) (concat des) = concat (take k des) /\ drop (16 * k + 16) (concat des) = concat (drop (S k) des).
Proof.
  intros Hdes. revert k. induction Hdes as [|d des [Hd _] _ IH]; intros [|k]; [done|done| |].
  - intros [= ->]. cbn [concat take drop]. change (16 * 0)%nat with 0%nat. split; [done|]. by apply drop_app_length'.
  - intros Hk. destruct (IH k Hk) as [IH1 IH2]. cbn [concat take drop]. replace (16 * S k)%nat with (length d + 16 * k)%nat by lia. split.
    + by rewrite take_app_add', IH1.
    + rewrite <- Nat.add_assoc. by rewrite drop_app_add', IH2.
Qed.

(** An entry is written whole or not at all. *)
Lemma writei_one_chunk i pos off src s tot s' fuel :
  (0 < length src)%nat -> Z.of_nat (length src) <= BSIZE - off mod BSIZE ->
  writei_loop kernel_copy (S fuel) i pos off src s = Ret (tot, s') ->
  tot = 0 \/ tot = Z.of_nat (length src).
Proof.
  intros Hpos Hlen. cbn [writei_loop]. destruct src as [|c src]; [simpl in Hpos; lia|]. remember (c :: src) as l eqn:El.
  intros H. apply outcome_bind_inv in H as ([a s1] & _ & H). destruct (a =? 0); [injection H as <- <-; by left|].
  cbn [kernel_copy] in H.
  rewrite Z.min_l in H by done. rewrite Nat2Z.id, drop_all in H. destruct fuel; cbn in H; injection H as <- <-; right; lia.
Qed.

(** The entry a new name goes to: the first free one, or the end. *)
Definition is_free (de : list Z) : bool := de_inum de =? 0.
Definition linked (n : Z) (name : list Z) (des : list (list Z)) : list (list Z) :=
  match find_idx is_free des with
  | Some k => take k des ++ [dirent n name] ++ drop (S k) des
  | None => des ++ [dirent n name]
  end.

Lemma linked_map n name des nm :
  Forall is_entry des -> Forall is_byte name -> Forall is_byte nm -> 0 < n < 2 ^ 16 -> dir_map des name = None ->
  dir_map (linked n name des) nm = if decide (key nm = key name) then Some n else dir_map des nm.
Proof.
  intros Hdes Hname Hnm Hn Hnone. unfold linked. destruct (find_idx is_free des) as [k|] eqn:E.
  - destruct (find_idx_hit _ _ _ E) as (de & Hk & Hf). apply Z.eqb_eq in Hf.
    pose proof (dir_map_link (take k des) (drop (S k) des) [de] name n nm) as H. cbn [app] in H.
    rewrite (take_drop_middle _ _ _ Hk) in H. apply H; try done; try (repeat constructor; done); [by apply Forall_take|by apply Forall_drop|].
    apply Forall_singleton. by apply (Forall_lookup_1 _ _ _ _ Hdes Hk).
  - pose proof (dir_map_link des [] [] name n nm) as H. cbn [app] in H. rewrite !app_nil_r in H. by apply H.
Qed.

Lemma linked_entries n name des : Forall is_entry des -> Forall is_byte name -> Forall is_entry (linked n name des).
Proof.
  intros Hdes Hname. assert (Forall is_entry [dirent n name]) as H by by apply Forall_singleton, dirent_entry.
  unfold linked. destruct (find_idx is_free des) as [k|]; [|by apply Forall_app_2].
  apply Forall_app_2; [by apply Forall_take|]. apply Forall_app_2; [done|by apply Forall_drop].
Qed.

(** Writing changes neither the type nor the device of the inode. *)
Definition alike (i : nat) (s s' : fs) : Prop := type (geti s' i) = type (geti s i) /\ dev (geti s' i) = dev (geti s i).

Lemma alike_trans i s1 s2 s3 : alike i s1 s2 -> alike i s2 s3 -> alike i s1 s3.
Proof. unfold alike. intros [-> ->] [-> ->]. done. Qed.

Lemma alike_seti i ip s : type ip = type (geti s i) -> dev ip = dev (geti s i) -> alike i s (seti i ip s).
Proof.
  intros Ht Hd. unfold alike. destruct (decide (i < length (itable s))%nat).
  - by rewrite geti_seti_eq.
  - unfold geti, seti. cbn [itable]. by rewrite list_insert_ge by lia.
Qed.

Lemma get_addr_alike i k s : alike i s (snd (get_addr i k s)).
Proof.
  unfold get_addr. destruct (_ =? 0); [|done]. pose proof (balloc_from_itable (Z.to_nat (size (sb s) / BPB + 1)) 0 s) as H.
  unfold Fs.balloc in *. destruct (balloc_from _ 0 s) as [a s1]. cbn [snd] in H.
  assert (alike i s s1) as H1 by (unfold alike, geti; by rewrite H).
  destruct (a =? 0); [done|]. eapply alike_trans; [exact H1|]. by apply alike_seti.
Qed.

Lemma bmap_alike i bn s a s' : bmap i bn s = Ret (a, s') -> alike i s s'.
Proof.
  unfold bmap. destruct (bn <? NDIRECT).
  { pose proof (get_addr_alike i bn s) as H. intros [= E]. by rewrite E in H. }
  destruct (_ <? NINDIRECT); [|done]. pose proof (get_addr_alike i NDIRECT s) as H.
  destruct (get_addr i NDIRECT s) as [d s1]. cbn [snd] in H. destruct (d =? 0); [by intros [= <- <-]|].
  destruct (get32 _ _ =? 0); [|by intros [= <- <-]].
  pose proof (balloc_from_itable (Z.to_nat (size (sb s1) / BPB + 1)) 0 s1) as H2.
  unfold Fs.balloc in *. destruct (balloc_from _ 0 s1) as [e s2]. cbn [snd] in H2.
  assert (alike i s s2) as H3 by (eapply alike_trans; [exact H|]; unfold alike, geti; by rewrite H2).
  destruct (e =? 0); intros [= <- <-]; [done|]. exact H3.
Qed.

Lemma writei_loop_alike i fuel : forall pos off src s tot s', writei_loop kernel_copy fuel i pos off src s = Ret (tot, s') -> alike i s s'.
Proof.
  induction fuel as [|fuel IH]; intros pos off src s tot s'; (destruct src as [|c src]; [by intros [= <- <-]|]); [done|].
  cbn [writei_loop]. intros H. apply outcome_bind_inv in H as ([a s1] & E & H). apply bmap_alike in E.
  destruct (a =? 0); [by injection H as <- <-|]. apply outcome_bind_inv in H as ([t s2] & E2 & H). apply IH in E2.
  injection H as <- <-. eapply alike_trans; [exact E|exact E2].
Qed.

Lemma writei_alike i off src s tot s' : writei i off src s = Ret (tot, s') -> alike i s s'.
Proof.
  unfold writei, writei_from. case_match; [by intros [= <- <-]|]. case_match; [by intros [= <- <-]|]. intros H1.
  apply outcome_bind_inv in H1 as ([t s1] & E & H1). apply writei_loop_alike in E. injection H1 as <- <-.
  eapply alike_trans; [exact E|]. destruct (isize (geti s1 i) <? off + t); [|done]. by apply (alike_seti i).
Qed.

(** The write of an entry at a place of the directory, or at its end. *)
Lemma write_entry ds s dp des k de :
  fs_ok ds s -> is_dir ds s dp des -> is_entry de -> (k <= length des)%nat -> 16 * Z.of_nat (S (length des)) <= MAXFILE * BSIZE ->
  exists tot s', writei dp (16 * Z.of_nat k) de s = Ret (tot, s') /\ fs_ok ds s' /\
    (tot = DIRENT /\ is_dir ds s' dp (take k des ++ [de] ++ drop (S k) des) \/
     tot = 0 /\ is_dir ds s' dp des /\ k = length des /\ forall c, 0 <= c < size (sb s) -> used s' c = true) /\
    (forall b, is_data ds s b -> used s b = true -> foreign s dp b -> blocks s' b = blocks s b /\ used s' b = true).
Proof.
  intros Hok D [Hl Hb] Hk Hsz. pose proof (dir_size _ _ _ _ D) as Hi. pose proof D as [I Ht He Hf].
  assert (MAXFILE * BSIZE = 274432) as EM by done.
  pose proof (writei_spec ds s dp (16 * Z.of_nat k) de Hok I ltac:(lia) ltac:(lia)) as S.
  rewrite Hi, Hl, (proj2 (Z.ltb_ge _ _)), (proj2 (Z.ltb_ge _ _)) in S by lia. cbn [orb] in S.
  destruct S as (tot & s' & E & S). exists tot, s'. split; [exact E|]. split; [exact (wn_ok _ _ _ _ _ _ _ S)|].
  split; [|intros b Hd Hu Hfo; by destruct (wn_other _ _ _ _ _ _ _ S b Hd Hu Hfo) as (? & ? & _)].
  assert (tot = 0 \/ tot = 16) as Htot.
  { pose proof (wn_tot _ _ _ _ _ _ _ S) as Ht0. pose proof E as E'. unfold writei, writei_from in E'. rewrite Hi, Hl in E'. do 2 (case_match; [injection E' as <- _; lia|]).
    apply outcome_bind_inv in E' as ([t s1] & E1 & E'). assert (t = tot) as -> by (repeat case_match; by injection E' as -> _).
    apply writei_one_chunk in E1; [rewrite Hl in E1; lia|lia|]. rewrite Hl. unfold BSIZE.
    pose proof (Z.mod_pos_bound (16 * Z.of_nat k) 1024). pose proof (Z.div_mod (16 * Z.of_nat k) 1024). lia. }
  destruct (writei_alike _ _ _ _ _ _ E) as [Et _]. pose proof (wn_file _ _ _ _ _ _ _ S) as Hfile. rewrite Hf in Hfile.
  assert (Z.to_nat (16 * Z.of_nat k) = 16 * k)%nat as Ek by lia. rewrite Ek in Hfile.
  destruct Htot as [-> | ->].
  - right. destruct (wn_full _ _ _ _ _ _ _ S) as [Hend Hfull]; [lia|]. rewrite Hi in Hend.
    split_and!; [done| |lia|done]. constructor; [exact (wn_inode _ _ _ _ _ _ _ S)|congruence|done|].
    rewrite Hfile. change (Z.to_nat 0) with 0%nat. rewrite take_0, Nat.add_0_r. cbn [app]. by rewrite take_drop.
  - left. split; [done|]. constructor; [exact (wn_inode _ _ _ _ _ _ _ S)|congruence| |].
    + apply Forall_app_2; [by apply Forall_take|]. apply Forall_app_2; [by apply Forall_singleton|by apply Forall_drop].
    + rewrite Hfile. change (Z.to_nat 16) with 16%nat. rewrite (take_ge de) by lia. rewrite !concat_app. cbn [concat]. rewrite app_nil_r.
      destruct (decide (k = length des)) as [->|Hne].
      * rewrite !(take_ge _ _), !(drop_ge _ _) by (rewrite ?length_concat_entries by done; lia). done.
      * destruct (lookup_lt_is_Some_2 des k ltac:(lia)) as [d Hd]. by destruct (concat_split des k d He Hd) as [-> ->].
Qed.

(** ** The map *)

(** (C25) A directory is a finite map from names to inode numbers.  dirlookup answers
    with the inode the map has for the string of the name (iget of it, and where its
    entry is), or with nothing if there is none.  dirlink of a name that is not in the
    map adds it, and changes no other name, in the first free entry or a new one; it
    fails only when a new entry is needed and every block of the disk is taken, and
    then the directory is as before.  Other files keep their blocks. *)
Theorem directory_is_map (ds : Z) (s : fs) (dp : nat) (des : list (list Z)) (name : list Z) :
  fs_ok ds s -> is_dir ds s dp des -> Forall is_byte name ->
  (match dir_map des name with
   | Some n => exists off, dirlookup dp name s = ('(i, s) ← iget (dev (geti s dp)) n s; Ret (Some (i, off), s))
   | None => dirlookup dp name s = Ret (None, s)
   end) /\
  (forall n, 0 < n < 2 ^ 16 -> dir_map des name = None -> 16 * Z.of_nat (S (length des)) <= MAXFILE * BSIZE ->
   exists r s' des', dirlink dp name n s = Ret (r, s') /\ fs_ok ds s' /\ is_dir ds s' dp des' /\
     (r = 0 /\ (forall nm, Forall is_byte nm -> dir_map des' nm = if decide (key nm = key name) then Some n else dir_map des nm) \/
      r = -1 /\ des' = des /\ Forall (fun de => de_inum de <> 0) des /\ forall c, 0 <= c < size (sb s) -> used s' c = true) /\
     (forall b, is_data ds s b -> used s b = true -> foreign s dp b -> blocks s' b = blocks s b /\ used s' b = true)).
Proof.
  intros Hok D Hname. rewrite dir_map_find, (dirlookup_spec _ _ _ _ _ D). split.
  { destruct (find_idx (in_use name) des) as [k|]; [by eexists|done]. }
  intros n Hn Hnone Hsz. assert (dir_map des name = None) as Hmap by (by rewrite dir_map_find).
  pose proof (dirent_entry n name Hname) as Hde. pose proof (id_entries _ _ _ _ D) as He.
  unfold dirlink. rewrite (dirlookup_spec _ _ _ _ _ D). destruct (find_idx (in_use name) des); [done|].
  unfold mbind, outcome_bind. change (fun de => de_inum de =? 0) with is_free. rewrite (scan_all _ _ _ _ _ _ D).
  assert (exists k, (match find_idx is_free des with Some j => (16 * Z.of_nat j, des !! j, s) | None => (16 * Z.of_nat (length des), None, s) end).1.1 =
      16 * Z.of_nat k /\ (k <= length des)%nat /\ take k des ++ [dirent n name] ++ drop (S k) des = linked n name des /\
      (k = length des -> Forall (fun de => de_inum de <> 0) des)) as (k & Ek & Hk & El & Hfree).
  { unfold linked. destruct (find_idx is_free des) as [j|] eqn:Ej.
    - exists j. pose proof (find_idx_lt _ _ _ Ej). split_and!; [done|lia|done|lia].
    - exists (length des). rewrite take_ge, drop_ge by lia. split_and!; [done|lia|done|]. intros _.
      apply Forall_lookup. intros i de Hi. pose proof (proj1 (find_idx_None _ _) Ej i de Hi) as Hf. by apply Z.eqb_neq. }
  destruct (match find_idx is_free des with Some j => _ | None => _ end) as [[off de] s0] eqn:Em.
  assert (s0 = s) as -> by (by destruct (find_idx is_free des); injection Em as _ _ ->). cbn [fst] in Ek. subst off.
  destruct (write_entry ds s dp des k (dirent n name) Hok D Hde Hk Hsz) as (tot & s' & -> & Hok' & Hcase & Hoth).
  destruct Hcase as [[-> D']|(-> & D' & Hend & Hfull)].
  - exists 0, s', (linked n name des). rewrite El in D'. split_and!; [done|done|done| |done]. left. split; [done|].
    intros nm Hnm. by apply linked_map.
  - exists (-1), s', des. split_and!; [done|done|done| |done]. right. split_and!; [done|done|by apply Hfree|done].
Qed.

(** The empty root directory of a small file system, in which a is linked to inode 5. *)
Lemma demo_is_dir : is_dir 10 demo_fs 0 [].
Proof. constructor; [apply demo_inode_ok|done|by constructor|done]. Qed.

Lemma directory_is_map_witness :
  dirlookup 0 [97] demo_fs = Ret (None, demo_fs) /\
  exists r s' des', dirlink 0 [97] 5 demo_fs = Ret (r, s') /\ is_dir 10 s' 0 des' /\ (r = 0 -> dir_map des' [97; 0; 98] = Some 5).
Proof.
  assert (Forall is_byte [97]) as Hb by (repeat constructor; unfold is_byte; lia).
  destruct (directory_is_map 10 demo_fs 0 [] [97] demo_fs_ok demo_is_dir Hb) as [H1 H2].
  split; [exact H1|]. destruct (H2 5 ltac:(lia) eq_refl ltac:(vm_compute; discriminate)) as (r & s' & des' & E & _ & D & H & _).
  exists r, s', des'. split; [exact E|]. split; [exact D|]. intros Hr. destruct H as [[_ H]|[H _]]; [|lia].
  rewrite H; [reflexivity|]. repeat constructor; unfold is_byte; lia.
Defined.

End DirLookup.
