(* ===== verification/Mkfs.v ===== *)
(** * mkfs: the host tool that makes the first file system
    (xv6-memory-management/mkfs/mkfs.c)

    The image is a file of sectors of one block each; the host's lseek, read and
    write succeed inside the file, and reading past its end ends mkfs, as its failing
    assertions do.  The host's bytes are in the order RISC-V has them.  A struct
    dinode is an [inode] without the fields that are only in memory, but its number. *)
From S2P Require Import Prelude Mem Buf Fs Dir.

#[local] Open Scope Z_scope.

Module Mkfs.
Import Buf Fs Dir.

Definition FSSIZE : Z := 2000.
Definition NINODES : Z := 200.

Definition nbitmap : Z := FSSIZE / BPB + 1.
Definition ninodeblocks : Z := NINODES / IPB + 1.
Definition nlog : Z := LOGBLOCKS + 1.
Definition nmeta : Z := 2 + nlog + ninodeblocks + nbitmap.
Definition nblocks : Z := FSSIZE - nmeta.

(** The bytes of a number, lowest first, read as the host reads them. *)
Definition xshort (x : Z) : Z := u8 x + 2 ^ 8 * u8 (Z.shiftr x 8).
Definition xint (x : Z) : Z :=
  u8 x + 2 ^ 8 * u8 (Z.shiftr x 8) + 2 ^ 16 * u8 (Z.shiftr x 16) + 2 ^ 24 * u8 (Z.shiftr x 24).

Definition the_sb : superblock :=
  mk_sb FSMAGIC (xint FSSIZE) (xint nblocks) (xint NINODES) (xint nlog) (xint 2)
        (xint (2 + nlog)) (xint (2 + nlog + ninodeblocks)).

(** The super block's fields over the bytes of [d]. *)
Definition put_sb (s : superblock) (d : block) : block :=
  let d := put32 d 0 (magic s) in
  let d := put32 d 4 (size s) in
  let d := put32 d 8 (Fs.nblocks s) in
  let d := put32 d 12 (ninodes s) in
  let d := put32 d 16 (Fs.nlog s) in
  let d := put32 d 20 (logstart s) in
  let d := put32 d 24 (inodestart s) in
  put32 d 28 (bmapstart s).

(** The image file, its length in sectors, and the globals. *)
Record image := mk_image { im : disk; sects : Z; freeinode : Z; freeblock : Z }.

Definition wsect (sec : Z) (buf : block) (m : image) : image :=
  {| m with im := <[sec := buf]> (im m); sects := Z.max (sects m) (sec + 1) |}.

Definition rsect (sec : Z) (m : image) : outcome block :=
  if sec <? sects m then Ret (im m sec) else Panic "read".

(** [IBLOCK(inum, sb)] *)
Definition iblock (n : Z) : Z := n / IPB + inodestart the_sb.

Definition winode (n : Z) (din : inode) (m : image) : outcome image :=
  buf ← rsect (iblock n) m;
  Ret (wsect (iblock n) (put_dinode din buf (dinode n)) m).

Definition rinode (n : Z) (m : image) : outcome inode :=
  buf ← rsect (iblock n) m;
  Ret (get_dinode {| zero_inode with inum := n |} buf (dinode n)).

Definition ialloc (ty : Z) (m : image) : outcome (Z * image) :=
  let n := freeinode m in
  let m := {| m with freeinode := u32 (n + 1) |} in
  let din := {| zero_inode with inum := n; type := xshort ty; nlink := xshort 1; isize := xint 0 |} in
  m ← winode n din m; Ret (n, m).

(** The bitmap in which the first [used] blocks are taken. *)
Definition bits (used : Z) : block := foldl set_bit zero_block (seqZ 0 used).

Definition balloc (used : Z) (m : image) : outcome image :=
  if negb (used <? BPB) then Panic "assert(used < BPB)"
  else Ret (wsect (bmapstart the_sb) (bits used) m).

(** ** iappend *)

(** [freeblock++] *)
Definition new_block (m : image) : Z * image :=
  (xint (freeblock m), {| m with freeblock := u32 (freeblock m + 1) |}).

(** [din.addrs[k]], taken from the free blocks when it is 0. *)
Definition dinode_addr (k : Z) (din : inode) (m : image) : Z * inode * image :=
  if xint (addr din k) =? 0 then
    let '(a, m) := new_block m in
    let din := {| din with addrs := <[Z.to_nat k := a]> (addrs din) |} in
    (xint (addr din k), din, m)
  else (xint (addr din k), din, m).

(** The disk block of file block [fbn]. *)
Definition file_block (fbn : Z) (din : inode) (m : image) : outcome (Z * inode * image) :=
  if fbn <? NDIRECT then Ret (dinode_addr fbn din m)
  else
    let '(ind, din, m) := dinode_addr NDIRECT din m in
    indirect ← rsect ind m;
    if get32 indirect (4 * (fbn - NDIRECT)) =? 0 then
      let '(a, m) := new_block m in
      let indirect := put32 indirect (4 * (fbn - NDIRECT)) a in
      let m := wsect ind indirect m in
      Ret (xint (get32 indirect (4 * (fbn - NDIRECT))), din, m)
    else Ret (xint (get32 indirect (4 * (fbn - NDIRECT))), din, m).

(** The loop, with [p] the bytes left. *)
Fixpoint iappend_loop (fuel : nat) (off : Z) (p : list Z) (din : inode) (m : image)
    : outcome (Z * inode * image) :=
  match p with
  | [] => Ret (off, din, m)
  | _ =>
      match fuel with
      | O => Undef "iappend: fuel"
      | S fuel =>
          let fbn := off / BSIZE in
          if negb (fbn <? MAXFILE) then Panic "assert(fbn < MAXFILE)"
          else
            '(x, din, m) ← file_block fbn din m;
            let n1 := Z.min (Z.of_nat (length p)) ((fbn + 1) * BSIZE - off) in
            buf ← rsect x m;
            let m := wsect x (store_bytes buf (off - fbn * BSIZE) (take (Z.to_nat n1) p)) m in
            iappend_loop fuel (u32 (off + n1)) (drop (Z.to_nat n1) p) din m
      end
  end.

Definition iappend (n : Z) (p : list Z) (m : image) : outcome image :=
  din ← rinode n m;
  '(off, din, m) ← iappend_loop (length p) (xint (isize din)) p din m;
  winode n {| din with isize := xint off |} m.

(** ** main *)

(** An argument after the image's name, and what its file gives: what the calls of
    read return, in order, or nothing when it cannot be opened. *)
Record input := mk_input { arg : list Z; reads : option (list (list Z)) }.

Definition USER : list Z := [117; 115; 101; 114; 47].
Definition UNDERSCORE : Z := 95.

Definition strip_dir (a : list Z) : list Z := if strncmp 5 a USER =? 0 then drop 5 a else a.
Definition strip_underscore (a : list Z) : list Z := if List.hd 0 a =? UNDERSCORE then List.tl a else a.

Fixpoint append_all (n : Z) (bufs : list (list Z)) (m : image) : outcome image :=
  match bufs with [] => Ret m | b :: bufs => m ← iappend n b m; append_all n bufs m end.

Definition add_file (f : input) (m : image) : outcome image :=
  let shortname := strip_dir (arg f) in
  if existsb (Z.eqb SLASH) shortname then Panic "assert(index(shortname, '/') == 0)"
  else
    match reads f with
    | None => Panic "open"
    | Some bufs =>
        let shortname := strip_underscore shortname in
        if DIRSIZ <? Z.of_nat (length shortname) then Panic "assert(strlen(shortname) <= DIRSIZ)"
        else
          '(n, m) ← ialloc T_FILE m;
          m ← iappend ROOTINO (dirent (xshort n) shortname) m;
          append_all n bufs m
    end.

Fixpoint add_files (fs : list input) (m : image) : outcome image :=
  match fs with [] => Ret m | f :: fs => m ← add_file f m; add_files fs m end.

(** [fix size of root inode dir] *)
Definition fix_root (m : image) : outcome image :=
  din ← rinode ROOTINO m;
  let off := xint (isize din) in
  let off := u32 ((off / BSIZE + 1) * BSIZE) in
  winode ROOTINO {| din with isize := xint off |} m.

(** The image file has just been truncated. *)
Definition empty_image : image := mk_image (fun _ => zero_block) 0 1 nmeta.

Definition DOT : Z := 46.

Definition mkfs (fs : list input) : outcome image :=
  let m := foldl (fun m i => wsect i zero_block m) empty_image (seqZ 0 FSSIZE) in
  let m := wsect 1 (put_sb the_sb zero_block) m in
  '(rootino, m) ← ialloc T_DIR m;
  if negb (rootino =? ROOTINO) then Panic "assert(rootino == ROOTINO)"
  else
    m ← iappend rootino (dirent (xshort rootino) [DOT]) m;
    m ← iappend rootino (dirent (xshort rootino) [DOT; DOT]) m;
    m ← add_files fs m;
    m ← fix_root m;
    balloc (freeblock m) m.

End Mkfs.
