(* ===== verification/MkfsFacts.v ===== *)
(** * mkfs appends to files as the kernel does

    The image under construction, seen with the bitmap that is written last, is a
    state of the kernel's file system, and iappend is writei on it: the next free
    block is the one the kernel's balloc would find. *)
From S2P Require Import Prelude Mem MemFacts Vm Buf Fs FsFacts FsBytes Dir Mkfs.
From Stdlib Require Import FunctionalExtensionality.

#[local] Open Scope Z_scope.

Module MkfsFacts.
Import Buf Fs Dir FsFacts FsFile FsBytes Mkfs.

(** ** Numbers *)

Lemma xshort_small x : 0 <= x < 2 ^ 16 -> xshort x = x.
Proof.
  intros Hx. unfold xshort. rewrite !Z.shiftr_div_pow2 by lia. unfold wrapu. change (2 ^ 8) with 256.
  pose proof (Z.div_mod x 256). pose proof (Z.div_lt_upper_bound x 256 256). pose proof (Z.div_pos x 256).
  rewrite (Z.mod_small (x / 256)) by lia. lia.
Qed.

Lemma xint_small x : 0 <= x < 2 ^ 32 -> xint x = x.
Proof.
  intros Hx. unfold xint. rewrite !Z.shiftr_div_pow2 by lia. unfold wrapu.
  change (2 ^ 8) with 256. change (2 ^ 16) with (256 * 256). change (2 ^ 24) with (256 * 256 * 256).
  rewrite <- !Z.div_div by lia.
  pose proof (Z.div_mod x 256). pose proof (Z.div_mod (x / 256) 256). pose proof (Z.div_mod (x / 256 / 256) 256).
  assert (0 <= x / 256 / 256 / 256 < 256).
  { split; [repeat apply Z.div_pos; lia|]. repeat apply Z.div_lt_upper_bound; lia. }
  rewrite (Z.mod_small (x / 256 / 256 / 256)) by lia. lia.
Qed.

(** ** The bitmap *)

Lemma bits_succ u : 0 <= u -> bits (u + 1) = set_bit (bits u) u.
Proof. intros Hu. unfold bits. rewrite seqZ_app by lia. by rewrite foldl_app. Qed.

Lemma bit_clear_bits u i : 0 <= u -> 0 <= i -> bit_clear (bits u) i = (u <=? i).
Proof.
  intros Hu Hi. revert u Hu. apply natlike_ind.
  - by rewrite (proj2 (Z.leb_le 0 i)).
  - intros u Hu IH. rewrite <- Z.add_1_r, bits_succ by done. rewrite bit_clear_set, IH.
    destruct (Z.eqb_spec i u), (Z.leb_spec u i), (Z.leb_spec (u + 1) i); (done || lia).
Qed.

Lemma find_app {A} (p : A -> bool) l k :
  List.find p (l ++ k) = match List.find p l with Some x => Some x | None => List.find p k end.
Proof. induction l as [|x l IH]; [done|]. cbn. by destruct (p x). Qed.

Lemma find_first_from (p : Z -> bool) (u n : nat) :
  (forall i, (i < u)%nat -> p (Z.of_nat i) = false) -> p (Z.of_nat u) = true ->
  List.find p (Z.of_nat <$> seq 0 n) = if (u <? n)%nat then Some (Z.of_nat u) else None.
Proof.
  intros Hlow Hu. induction n as [|n IH]; [done|]. rewrite seq_S, fmap_app, find_app, IH. cbn [fmap list_fmap List.find].
  destruct (Nat.ltb_spec u n), (Nat.ltb_spec u (S n)); try lia; [done| |].
  - replace (0 + n)%nat with u by lia. by rewrite Hu.
  - by rewrite Hlow by lia.
Qed.

(** ** The image as a state of the kernel's file system *)

Definition view (din : inode) (m : image) : fs :=
  mk_fs (<[bmapstart the_sb := bits (freeblock m)]> (im m)) [din] the_sb.

(** The globals and the sectors while files are added. *)
Record well (m : image) : Prop := mk_well {
  we_sects : sects m = FSSIZE;
  we_block : nmeta <= freeblock m <= FSSIZE;
  we_zero : forall b, freeblock m <= b -> im m b = zero_block;
  we_sb : im m 1 = put_sb the_sb zero_block
}.

Definition take_one (m : image) : image := {| m with freeblock := freeblock m + 1 |}.

Lemma memset_zero : Mem.memset zero_block 0 0 BSIZE = zero_block.
Proof.
  apply functional_extensionality. intros x. destruct (decide (0 <= x < 0 + BSIZE)).
  - by apply MemFacts.memset_in.
  - apply MemFacts.memset_out. lia.
Qed.

(** The kernel would take the same block. *)
Lemma balloc_view din m :
  well m -> Fs.balloc (view din m) = if freeblock m <? FSSIZE then (freeblock m, view din (take_one m)) else (0, view din m).
Proof.
  intros [_ Hb Hz _]. unfold Fs.balloc. change (Z.to_nat (size (sb (view din m)) / BPB + 1)) with 1%nat.
  cbn [balloc_from]. change (0 <? size (sb (view din m))) with true. cbv iota.
  assert (blocks (view din m) (BBLOCK 0 (view din m)) = bits (freeblock m)) as ->.
  { change (BBLOCK 0 (view din m)) with (bmapstart the_sb). apply disk_upd_eq. }
  unfold find_clear. change (Z.to_nat (Z.min BPB (size (sb (view din m)) - 0))) with 2000%nat.
  change nmeta with 47 in Hb. unfold FSSIZE in *.
  rewrite (find_first_from _ (Z.to_nat (freeblock m))).
  2:{ intros i Hi. rewrite bit_clear_bits by lia. apply Z.leb_gt. lia. }
  2:{ rewrite bit_clear_bits by lia. apply Z.leb_le. lia. }
  rewrite Z2Nat.id by lia. destruct (Nat.ltb_spec (Z.to_nat (freeblock m)) 2000), (Z.ltb_spec (freeblock m) 2000); try lia; [|done].
  rewrite Z.add_0_l. f_equal. unfold bzero, set_block, view. cbn [blocks itable sb take_one freeblock im]. f_equal.
  apply functional_extensionality. intros n. change (BBLOCK 0 (mk_fs (<[bmapstart the_sb:=bits (freeblock m)]> (im m)) [din] the_sb)) with 46.
  change (bmapstart the_sb) with 46.
  destruct (decide (n = freeblock m)) as [->|Hn].
  - rewrite disk_upd_eq, !disk_upd_ne by lia. by rewrite Hz, memset_zero.
  - rewrite disk_upd_ne by done. destruct (decide (n = 46)) as [->|].
    + rewrite !disk_upd_eq. by rewrite bits_succ by lia.
    + by rewrite !disk_upd_ne by done.
Qed.

Lemma bitmap_view din m b : 0 <= b < FSSIZE -> blocks (view din m) (BBLOCK b (view din m)) = bits (freeblock m).
Proof.
  intros Hb. unfold FSSIZE in Hb. assert (BBLOCK b (view din m) = bmapstart the_sb) as ->.
  { unfold BBLOCK. change BPB with 8192. by rewrite Z.div_small by lia. }
  apply disk_upd_eq.
Qed.

Lemma used_view din m b : well m -> 0 <= b < FSSIZE -> used (view din m) b = (b <? freeblock m).
Proof.
  intros [_ Hf _ _] Hb. unfold used. rewrite bitmap_view by done. change nmeta with 47 in Hf. unfold FSSIZE in *.
  change BPB with 8192. rewrite Z.mod_small, bit_clear_bits by lia. by rewrite Z.leb_antisym, negb_involutive.
Qed.

Lemma view_ok din m : well m -> fs_ok nmeta (view din m).
Proof.
  intros W. pose proof W as [_ Hf _ _]. change nmeta with 47 in *. constructor.
  - change (size (sb (view din m))) with 2000. lia.
  - done.
  - intros n Hn. change (ninodes (sb (view din m))) with 200 in Hn. change (bmapstart (sb (view din m))) with 46.
    unfold IBLOCK. change (inodestart (sb (view din m))) with 33. change IPB with 16.
    pose proof (Z.div_mod n 16). pose proof (Z.mod_pos_bound n 16). lia.
  - intros b Hb. change (size (sb (view din m))) with 2000 in Hb. unfold BBLOCK. change BPB with 8192.
    rewrite Z.div_small by lia. change (bmapstart (sb (view din m))) with 46. lia.
  - intros b Hb. rewrite used_view by (done || unfold FSSIZE; lia). apply Z.ltb_lt. lia.
Qed.

Lemma view_wsect din m sec buf :
  sec <> bmapstart the_sb -> view din (wsect sec buf m) = set_block sec buf (view din m).
Proof.
  intros Hne. unfold view, set_block. cbn [blocks itable sb wsect im freeblock]. f_equal.
  apply functional_extensionality. intros n. destruct (decide (n = sec)) as [->|Hn].
  - rewrite disk_upd_eq, disk_upd_ne by done. by rewrite disk_upd_eq.
  - rewrite (disk_upd_ne _ sec n) by done. destruct (decide (n = bmapstart the_sb)) as [->|Hm].
    + by rewrite !disk_upd_eq.
    + by rewrite !disk_upd_ne by done.
Qed.

Lemma well_wsect m sec buf : well m -> 1 < sec < freeblock m -> well (wsect sec buf m).
Proof.
  intros [Hs Hb Hz Hsb] Hlt. constructor; [|done| |cbn [wsect im]; rewrite disk_upd_ne by lia; exact Hsb].
  - cbn [wsect sects]. rewrite Hs. lia.
  - intros b Hge. cbn [wsect im]. rewrite disk_upd_ne by (cbn in Hge; lia). by apply Hz.
Qed.

Lemma well_take_one m : well m -> freeblock m < FSSIZE -> well (take_one m).
Proof. intros [Hs Hb Hz Hsb] Hlt. constructor; [done|cbn; lia| |done]. intros b Hge. cbn in *. apply Hz. lia. Qed.

(** ** The blocks of a file *)

(** Of the inode only addresses change, of the image only data blocks. *)
Record appending (din din' : inode) (m m' : image) : Prop := mk_appending {
  ap_din : din' = {| din with addrs := addrs din' |};
  ap_low : forall b, b < nmeta -> im m' b = im m b;
  ap_inode : freeinode m' = freeinode m
}.

Lemma appending_refl din m : appending din din m m.
Proof. constructor; [by destruct din|done|done]. Qed.
Lemma appending_trans a b c m m1 m2 : appending a b m m1 -> appending b c m1 m2 -> appending a c m m2.
Proof.
  intros [H1 H2 H3] [K1 K2 K3]. constructor; [|intros x Hx; by rewrite K2, H2|congruence].
  rewrite K1 at 1. by rewrite H1.
Qed.
Lemma appending_data din m sec buf : nmeta <= sec -> appending din din m (wsect sec buf m).
Proof.
  intros Hs. constructor; [by destruct din| |done]. intros b Hb. cbn [wsect im]. rewrite disk_upd_ne by lia. done.
Qed.

Lemma addr_insert_eq k a (l : list Z) ip : length l = 13%nat -> 0 <= k < 13 ->
  addr {| ip with addrs := <[Z.to_nat k := a]> l |} k = a.
Proof. intros Hl Hk. unfold addr. cbn [addrs]. by rewrite list_lookup_insert_eq by lia. Qed.

Lemma dinode_addr_spec k din m :
  well m -> 0 <= k < 13 -> length (addrs din) = 13%nat -> 0 <= addr din k < FSSIZE ->
  freeblock m + Z.b2z (addr din k =? 0) <= FSSIZE ->
  exists a din' m', dinode_addr k din m = (a, din', m') /\ get_addr 0 k (view din m) = (a, view din' m') /\
    a <> 0 /\ well m' /\ freeblock m' = freeblock m + Z.b2z (addr din k =? 0) /\ appending din din' m m' /\
    (addr din k <> 0 /\ a = addr din k /\ din' = din /\ m' = m \/
     addr din k = 0 /\ a = freeblock m /\ din' = {| din with addrs := <[Z.to_nat k := a]> (addrs din) |} /\ m' = take_one m).
Proof.
  intros W Hk Hl Ha Hfree. unfold FSSIZE in *. unfold dinode_addr, get_addr. rewrite xint_small by lia.
  change (geti (view din m) 0) with din. destruct (Z.eqb_spec (addr din k) 0) as [E|E].
  2:{ exists (addr din k), din, m. split_and!; try done; [cbn; lia|apply appending_refl|by left]. }
  pose proof W as [_ Hb _ _]. change nmeta with 47 in Hb. unfold FSSIZE in Hb. cbn [Z.b2z] in Hfree.
  rewrite balloc_view by done. rewrite (proj2 (Z.ltb_lt (freeblock m) FSSIZE)) by (unfold FSSIZE; lia).
  rewrite (proj2 (Z.eqb_neq (freeblock m) 0)) by lia. unfold new_block.
  rewrite (xint_small (freeblock m)) by lia. rewrite addr_insert_eq by done. rewrite xint_small by lia. rewrite (wrapu_small 32) by lia.
  eexists _, _, _. split; [done|]. split; [done|]. split; [lia|]. split; [by apply well_take_one; [|unfold FSSIZE; lia]|]. split; [done|]. split; [done|by right].
Qed.

(** The blocks a write to file block [bn] takes. *)
Definition need (bn : Z) (s : fs) : Z :=
  Z.b2z (entry s 0 bn =? 0) + Z.b2z ((NDIRECT <=? bn) && (ind s 0 =? 0)).

Lemma addr_bounds din m k :
  inode_ok nmeta (view din m) 0 -> 0 <= k < 13 -> 0 <= addr din k < FSSIZE.
Proof.
  intros I Hk. change (addr din k) with (addr (geti (view din m) 0) k). destruct (decide (k = 12)) as [->|Hne].
  - pose proof (io_ind _ _ _ I) as H. unfold ind in H. change NDIRECT with 12 in H.
    destruct (decide (addr (geti (view din m) 0) 12 = 0)) as [->|Hn0]; [by unfold FSSIZE|].
    destruct (H Hn0) as [H1 _]. unfold is_data in H1. change (size (sb (view din m))) with 2000 in H1. change nmeta with 47 in H1. unfold FSSIZE. lia.
  - assert (entry (view din m) 0 k = addr (geti (view din m) 0) k) as <-.
    { unfold entry. by rewrite (proj2 (Z.ltb_lt k NDIRECT)) by (unfold NDIRECT; lia). }
    destruct (decide (entry (view din m) 0 k = 0)) as [->|Hn0]; [by unfold FSSIZE|].
    destruct (io_data _ _ _ I k) as [H1 _]; [by unfold in_file; change MAXFILE with 268; lia|done|].
    unfold is_data in H1. change (size (sb (view din m))) with 2000 in H1. change nmeta with 47 in H1. unfold FSSIZE. lia.
Qed.

Lemma rsect_ok sec m : well m -> sec < FSSIZE -> rsect sec m = Ret (im m sec).
Proof. intros [Hs _ _ _] Hlt. unfold rsect. rewrite Hs. by rewrite (proj2 (Z.ltb_lt _ _)). Qed.

Lemma blocks_view din m n : n <> bmapstart the_sb -> blocks (view din m) n = im m n.
Proof. intros Hn. unfold view. cbn [blocks]. by rewrite disk_upd_ne. Qed.

(** [entry] of a view, on the sectors of the image. *)
Definition ent (din : inode) (m : image) (c : Z) : Z :=
  if c <? NDIRECT then addr din c
  else if addr din NDIRECT =? 0 then 0 else get32 (im m (addr din NDIRECT)) (4 * (c - NDIRECT)).

Lemma ind_range din m : inode_ok nmeta (view din m) 0 -> addr din NDIRECT = 0 \/ nmeta <= addr din NDIRECT < FSSIZE.
Proof. intros I. destruct (decide (addr din NDIRECT = 0)) as [|Hn]; [by left|right]. apply (io_ind _ _ _ I Hn). Qed.

Lemma entry_ent din m c : inode_ok nmeta (view din m) 0 -> entry (view din m) 0 c = ent din m c.
Proof.
  intros I. unfold entry, ent, ind. change (geti (view din m) 0) with din. destruct (c <? NDIRECT); [done|].
  destruct (ind_range din m I) as [->|H]; [done|]. change nmeta with 47 in H. unfold FSSIZE in H.
  by rewrite blocks_view by (change (bmapstart the_sb) with 46; lia).
Qed.

Lemma addr_insert_ne k j a (l : list Z) ip : 0 <= k -> 0 <= j -> j <> k ->
  addr {| ip with addrs := <[Z.to_nat k := a]> l |} j = default 0 (l !! Z.to_nat j).
Proof. intros Hk Hj Hne. unfold addr. cbn [addrs]. by rewrite list_lookup_insert_ne by lia. Qed.

Lemma get32_zero off : get32 zero_block off = 0.
Proof. reflexivity. Qed.

(** A new direct block, and a new indirect block, change no other entry. *)
Lemma ent_new_direct fbn din m c :
  0 <= fbn < NDIRECT -> 0 <= c -> c <> fbn ->
  ent {| din with addrs := <[Z.to_nat fbn := freeblock m]> (addrs din) |} (take_one m) c = ent din m c.
Proof.
  intros Hf Hc Hne. unfold ent. rewrite (addr_insert_ne fbn NDIRECT) by (unfold NDIRECT in *; lia).
  rewrite (addr_insert_ne fbn c) by (unfold NDIRECT in *; lia). done.
Qed.

Lemma ent_new_indirect din m c :
  well m -> length (addrs din) = 13%nat -> addr din NDIRECT = 0 -> 0 <= c -> c <> NDIRECT ->
  ent {| din with addrs := <[Z.to_nat NDIRECT := freeblock m]> (addrs din) |} (take_one m) c = ent din m c.
Proof.
  intros W Hl H0 Hc Hne. unfold ent. rewrite (addr_insert_eq NDIRECT), H0 by (unfold NDIRECT; lia).
  rewrite (addr_insert_ne NDIRECT c) by (unfold NDIRECT in *; lia). cbn [take_one im].
  rewrite (we_zero _ W) by lia. rewrite get32_zero. destruct (c <? NDIRECT); [done|]. by destruct (freeblock m =? 0).
Qed.

Lemma ent_12 din m : ent din m NDIRECT = if addr din NDIRECT =? 0 then 0 else get32 (im m (addr din NDIRECT)) 0.
Proof. done. Qed.

Lemma ent_with_indirect din m d din1 m1 c :
  well m -> length (addrs din) = 13%nat -> 0 <= c ->
  (addr din NDIRECT <> 0 /\ d = addr din NDIRECT /\ din1 = din /\ m1 = m \/
   addr din NDIRECT = 0 /\ d = freeblock m /\ din1 = {| din with addrs := <[Z.to_nat NDIRECT := d]> (addrs din) |} /\ m1 = take_one m) ->
  ent din1 m1 c = ent din m c /\ addr din1 NDIRECT = d.
Proof.
  intros W Hl Hc [(_ & -> & -> & ->)|(H0 & -> & -> & ->)]; [done|]. split; [|by rewrite addr_insert_eq by (done || unfold NDIRECT; lia)].
  destruct (decide (c = NDIRECT)) as [->|Hne]; [|by apply ent_new_indirect].
  rewrite !ent_12, H0, addr_insert_eq by (done || unfold NDIRECT; lia). cbn [take_one im].
  rewrite (we_zero _ W) by lia. rewrite get32_zero. by destruct (_ =? 0).
Qed.

(** What [file_block] does, and that the kernel's bmap does it too. *)
Record got_block (fbn : Z) (din : inode) (m : image) (a : Z) (din' : inode) (m' : image) : Prop := mk_got_block {
  gb_run : file_block fbn din m = Ret (a, din', m');
  gb_bmap : bmap 0 fbn (view din m) = Ret (a, view din' m');
  gb_nonzero : a <> 0;
  gb_well : well m';
  gb_count : freeblock m' = freeblock m + need fbn (view din m);
  gb_appending : appending din din' m m';
  gb_others : forall c, in_file c -> c <> fbn -> ent din' m' c = ent din m c;
  gb_zero : ent din m fbn = 0 -> im m' a = zero_block
}.

Lemma file_block_direct fbn din m :
  well m -> inode_ok nmeta (view din m) 0 -> 0 <= fbn < NDIRECT -> freeblock m + need fbn (view din m) <= FSSIZE ->
  exists a din' m', got_block fbn din m a din' m'.
Proof.
  intros W I Hlt Hneed. assert (length (addrs din) = 13%nat) as Hl by apply (io_addrs _ _ _ I).
  assert (need fbn (view din m) = Z.b2z (addr din fbn =? 0)) as En.
  { unfold need, entry. rewrite (proj2 (Z.ltb_lt fbn NDIRECT)), (proj2 (Z.leb_gt NDIRECT fbn)) by lia. cbn [andb Z.b2z].
    by rewrite Z.add_0_r. }
  rewrite En in Hneed. unfold NDIRECT in Hlt.
  destruct (dinode_addr_spec fbn din m W) as (a & din' & m' & Ed & Eg & Ha & W' & Hf & Hap & Hcase);
    [lia|done|apply (addr_bounds din m); [done|lia]|done|]. exists a, din', m'. constructor; try done.
  - unfold file_block, NDIRECT. rewrite (proj2 (Z.ltb_lt fbn 12)) by lia. by rewrite Ed.
  - unfold bmap, NDIRECT. rewrite (proj2 (Z.ltb_lt fbn 12)) by lia. by rewrite Eg.
  - by rewrite En.
  - intros c Hc Hne. unfold in_file in Hc. destruct Hcase as [(_ & _ & -> & ->)|(_ & -> & -> & ->)]; [done|].
    apply ent_new_direct; unfold NDIRECT; lia.
  - unfold ent, NDIRECT. rewrite (proj2 (Z.ltb_lt fbn 12)) by lia. intros E0.
    destruct Hcase as [(H & _)|(_ & -> & _ & ->)]; [done|]. by apply (we_zero _ W).
Qed.

Lemma file_block_indirect fbn din m :
  well m -> inode_ok nmeta (view din m) 0 -> in_file fbn -> NDIRECT <= fbn -> freeblock m + need fbn (view din m) <= FSSIZE ->
  exists a din' m', got_block fbn din m a din' m'.
Proof.
  intros W I Hin Hge Hneed. assert (length (addrs din) = 13%nat) as Hl by apply (io_addrs _ _ _ I).
  pose proof Hin as Hin'. unfold in_file in Hin'. change MAXFILE with 268 in Hin'.
  assert (need fbn (view din m) = Z.b2z (ent din m fbn =? 0) + Z.b2z (addr din 12 =? 0)) as En.
  { unfold need. rewrite entry_ent by done. by rewrite (proj2 (Z.leb_le NDIRECT fbn)) by done. }
  rewrite En in Hneed. unfold NDIRECT in Hge.
  destruct (dinode_addr_spec 12 din m W) as (d & din1 & m1 & Ed & Eg & Hd & W1 & Hf1 & Hap & Hcase);
    [lia|done|apply (addr_bounds din m); [done|lia]|destruct (ent din m fbn =? 0); cbn in Hneed; lia|].
  assert (forall c, 0 <= c -> ent din1 m1 c = ent din m c /\ addr din1 NDIRECT = d) as Hent by (intros c Hc; by eapply ent_with_indirect).
  pose proof (get_addr_spec nmeta (view din m) 0 12 (view_ok _ _ W) I ltac:(lia)) as HG. rewrite Eg in HG. destruct HG as (G & Hd' & _ & _).
  change (addr (geti (view din1 m1) 0) 12) with (addr din1 12) in Hd'. pose proof (gr_inode _ _ _ _ G) as I1.
  destruct (io_ind _ _ _ I1) as [Hdata Hused]; [unfold ind, NDIRECT; by change (addr din1 12 <> 0); rewrite Hd'|].
  change (ind (view din1 m1) 0) with (addr din1 12) in Hdata, Hused. rewrite Hd' in Hdata, Hused. unfold is_data in Hdata.
  change (size (sb (view din1 m1))) with FSSIZE in Hdata. rewrite used_view in Hused by (done || change nmeta with 47 in Hdata; lia).
  apply Z.ltb_lt in Hused. change nmeta with 47 in Hdata. unfold FSSIZE in *.
  assert (get32 (im m1 d) (4 * (fbn - 12)) = ent din m fbn) as Ee.
  { destruct (Hent fbn ltac:(lia)) as [<- _]. unfold ent, NDIRECT.
    by rewrite (proj2 (Z.ltb_ge fbn 12)), Hd', (proj2 (Z.eqb_neq d 0)) by done. }
  assert (bmap 0 fbn (view din m) = (let a := get32 (im m1 d) (4 * (fbn - 12)) in if a =? 0 then
      let '(a, s) := Fs.balloc (view din1 m1) in if a =? 0 then Ret (0, s) else Ret (a, set_block d (put32 (blocks s d) (4 * (fbn - 12)) a) s)
      else Ret (a, view din1 m1))) as Eb.
  { unfold bmap, NDIRECT. rewrite (proj2 (Z.ltb_ge fbn 12)) by lia. change NINDIRECT with 256. rewrite (proj2 (Z.ltb_lt (fbn - 12) 256)) by lia.
    rewrite Eg, (proj2 (Z.eqb_neq d 0)) by done. by rewrite blocks_view by (change (bmapstart the_sb) with 46; lia). }
  assert (file_block fbn din m = (let indirect := im m1 d in if get32 indirect (4 * (fbn - 12)) =? 0 then
      let '(a, m) := new_block m1 in let indirect := put32 indirect (4 * (fbn - 12)) a in
      Ret (xint (get32 indirect (4 * (fbn - 12))), din1, wsect d indirect m)
      else Ret (xint (get32 indirect (4 * (fbn - 12))), din1, m1))) as Er.
  { unfold file_block, NDIRECT. rewrite (proj2 (Z.ltb_ge fbn 12)), Ed by lia. by rewrite rsect_ok by (done || unfold FSSIZE; lia). }
  cbv zeta in Eb, Er. rewrite Ee in Eb, Er. destruct (Z.eqb_spec (ent din m fbn) 0) as [E|E].
  - cbn [Z.b2z] in *. pose proof W1 as [_ Hb1 _ _]. change nmeta with 47 in Hb1. unfold FSSIZE in *.
    rewrite balloc_view, (proj2 (Z.ltb_lt (freeblock m1) FSSIZE)), (proj2 (Z.eqb_neq (freeblock m1) 0)) in Eb by (done || unfold FSSIZE; lia).
    unfold new_block in Er. rewrite (xint_small (freeblock m1)), get32_put32, xint_small, (wrapu_small 32) in Er by lia.
    rewrite (blocks_view _ (take_one m1)), <- view_wsect in Eb by (change (bmapstart the_sb) with 46; lia).
    eexists _, _, _. constructor; [exact Er|exact Eb|lia| | | | |].
    + apply (well_wsect (take_one m1)); [|cbn; lia]. apply (well_take_one m1); [done|unfold FSSIZE; lia].
    + rewrite En. cbn. lia.
    + eapply appending_trans; [exact Hap|]. constructor; [by destruct din1| |done].
      intros b Hb. change nmeta with 47 in Hb. cbn [wsect im]. by rewrite disk_upd_ne by lia.
    + intros c Hc Hne. destruct (Hent c) as [<- _]; [apply Hc|]. unfold ent, NDIRECT. rewrite Hd'.
      destruct (Z.ltb_spec c 12); [done|]. rewrite (proj2 (Z.eqb_neq d 0)) by done. cbn [wsect im].
      rewrite disk_upd_eq. rewrite get32_put32_ne by lia. done.
    + intros _. cbn [wsect im]. rewrite disk_upd_ne by lia. by apply (we_zero _ W1).
  - destruct (io_data _ _ _ I1 fbn Hin) as [Hdd _].
    { rewrite entry_ent by done. by destruct (Hent fbn ltac:(lia)) as [-> _]. }
    rewrite entry_ent in Hdd by done. destruct (Hent fbn ltac:(lia)) as [E1 _]. rewrite E1 in Hdd.
    unfold is_data in Hdd. change (size (sb (view din1 m1))) with 2000 in Hdd. change nmeta with 47 in Hdd.
    rewrite xint_small in Er by lia. eexists _, _, _. constructor; [exact Er|exact Eb|done|done| |done| |done].
    + rewrite En. cbn. lia.
    + intros c Hc _. apply Hent. apply Hc.
Qed.

Lemma file_block_spec fbn din m :
  well m -> inode_ok nmeta (view din m) 0 -> in_file fbn -> freeblock m + need fbn (view din m) <= FSSIZE ->
  exists a din' m', got_block fbn din m a din' m'.
Proof.
  intros W I Hin Hneed. destruct (Z.lt_ge_cases fbn NDIRECT); [|by apply file_block_indirect].
  apply file_block_direct; try done. unfold in_file in Hin. lia.
Qed.

(** ** How many blocks a file takes *)

Definition nb (sz : Z) : Z := (sz + 1023) / 1024 + Z.b2z (12 * 1024 <? sz).

(** Every block that begins below [off] is there. *)
Definition filled (s : fs) (off : Z) : Prop := forall bn, in_file bn -> bn * BSIZE < off -> entry s 0 bn <> 0.

Lemma ind_of_entry s bn : NDIRECT <= bn -> entry s 0 bn <> 0 -> ind s 0 <> 0.
Proof.
  intros Hge Hne E. apply Hne. unfold entry. rewrite (proj2 (Z.ltb_ge bn NDIRECT)), E by done. done.
Qed.

Lemma nb_mono a b : 0 <= a <= b -> nb a <= nb b.
Proof.
  intros H. unfold nb. pose proof (Z.div_le_mono (a + 1023) (b + 1023) 1024).
  destruct (Z.ltb_spec (12 * 1024) a), (Z.ltb_spec (12 * 1024) b); cbn; lia.
Qed.

Lemma need_bound s off n :
  filled s off -> 0 <= off < MAXFILE * BSIZE -> 0 < n <= BSIZE - off mod BSIZE ->
  need (off / BSIZE) s <= nb (off + n) - nb off.
Proof.
  intros Hf Ho Hn. unfold BSIZE in *. change (MAXFILE * 1024) with (268 * 1024) in Ho.
  pose proof (Z.div_mod off 1024 ltac:(lia)) as Hd. pose proof (Z.mod_pos_bound off 1024 ltac:(lia)) as Hm.
  set (q := off / 1024) in *. set (r := off mod 1024) in *. unfold need.
  assert (in_file q) as Hq by (unfold in_file; change MAXFILE with 268; lia).
  destruct (decide (r = 0)) as [E|E].
  - assert (nb (off + n) - nb off = 1 + Z.b2z (q =? 12)) as ->.
    { unfold nb. replace (off + 1023) with (1023 + q * 1024) by lia. replace (off + n + 1023) with (n - 1 + (q + 1) * 1024) by lia.
      rewrite !Z.div_add, (Z.div_small 1023), (Z.div_small (n - 1)) by lia.
      destruct (Z.ltb_spec (12 * 1024) (off + n)), (Z.ltb_spec (12 * 1024) off), (Z.eqb_spec q 12); cbn; lia. }
    assert (Z.b2z (entry s 0 q =? 0) <= 1) by (destruct (entry s 0 q =? 0); cbn; lia).
    enough (Z.b2z ((NDIRECT <=? q) && (ind s 0 =? 0)) <= Z.b2z (q =? 12)) by lia.
    destruct (Z.eqb_spec q 12); [destruct (_ && _); cbn; lia|].
    destruct (Z.leb_spec NDIRECT q) as [Hge|]; [|cbn; lia]. unfold NDIRECT in Hge.
    rewrite (proj2 (Z.eqb_neq (ind s 0) 0)); [cbn; lia|].
    apply (ind_of_entry s 12); [by unfold NDIRECT|]. apply Hf; [by unfold in_file; change MAXFILE with 268; lia|unfold BSIZE; lia].
  - assert (entry s 0 q <> 0) as Hne by (apply Hf; [done|unfold BSIZE; lia]).
    rewrite (proj2 (Z.eqb_neq (entry s 0 q) 0)) by done. pose proof (nb_mono off (off + n)). cbn [Z.b2z].
    destruct (Z.leb_spec NDIRECT q); [|cbn; lia]. rewrite (proj2 (Z.eqb_neq (ind s 0) 0)); [cbn; lia|].
    by eapply ind_of_entry.
Qed.

(** ** iappend is writei *)

(** The bytes past [off] in the blocks that are there are zero. *)
Definition blank (s : fs) (off : Z) : Prop :=
  forall x, off <= x -> in_file (x / BSIZE) -> entry s 0 (x / BSIZE) <> 0 -> byte s 0 x = 0.

Lemma blank_block din m a din1 m1 off fbn :
  well m -> inode_ok nmeta (view din m) 0 -> in_file fbn -> got_block fbn din m a din1 m1 -> blank (view din m) off ->
  blank (view din1 m1) off.
Proof.
  intros W I Hin [_ Eb Ha W1 _ _ Hoth Hz] Hbl x Hx Hxin Hne.
  destruct (bmap_spec nmeta (view din m) 0 fbn (view_ok din m W) I Hin) as (a' & s1 & Eb' & G & Ea & Hak & Hc & _).
  rewrite Eb in Eb'. injection Eb' as <- <-. pose proof (gr_inode _ _ _ _ G) as I1.
  destruct (decide (entry (view din m) 0 (x / BSIZE) = 0)) as [E|E].
  - destruct (decide (x / BSIZE = fbn)) as [Ex|Hnf].
    + rewrite Ex, entry_ent in E by done. unfold byte. rewrite Ex, Ea.
      destruct (io_data _ _ _ I1 fbn Hin ltac:(congruence)) as (Hd & _). rewrite Ea in Hd. unfold is_data in Hd. change nmeta with 47 in Hd.
      rewrite blocks_view by (change (bmapstart the_sb) with 46; lia). by rewrite Hz.
    + rewrite !entry_ent in * by done. rewrite Hoth in Hne by done. done.
  - unfold byte. rewrite (gr_keep _ _ _ _ G) by done. rewrite Hc by done. by apply Hbl.
Qed.

Lemma iappend_loop_spec : forall fuel p pos off din m,
  well m -> inode_ok nmeta (view din m) 0 -> filled (view din m) off -> blank (view din m) off -> 0 <= off ->
  off + Z.of_nat (length p) <= MAXFILE * BSIZE -> (length p <= fuel)%nat ->
  freeblock m + nb (off + Z.of_nat (length p)) - nb off <= FSSIZE ->
  exists din' m', iappend_loop fuel off p din m = Ret (off + Z.of_nat (length p), din', m') /\
    writei_loop kernel_copy fuel 0 pos off p (view din m) = Ret (Z.of_nat (length p), view din' m') /\ well m' /\
    freeblock m' <= freeblock m + nb (off + Z.of_nat (length p)) - nb off /\ appending din din' m m' /\
    blank (view din' m') (off + Z.of_nat (length p)).
Proof.
  induction fuel as [|fuel IH]; intros p pos off din m W I Hf Hbl Ho Hsz Hfu Hfree;
    (destruct p as [|c p]; [exists din, m; rewrite Z.add_0_r; split_and!; first [done|apply appending_refl|cbn; lia]|]);
    [simpl in Hfu; lia|].
  cbn [iappend_loop writei_loop]. remember (c :: p) as pp eqn:Epp.
  assert (0 < Z.of_nat (length pp)) as Hpos by (rewrite Epp; simpl; lia).
  assert (in_file (off / BSIZE)) as Hin by (apply in_file_div; lia).
  rewrite (proj2 (Z.ltb_lt (off / BSIZE) MAXFILE)) by apply Hin. cbn [negb].
  replace ((off / BSIZE + 1) * BSIZE - off) with (BSIZE - off mod BSIZE) by (pose proof (Z.div_mod off BSIZE); unfold BSIZE in *; lia).
  replace (off - off / BSIZE * BSIZE) with (off mod BSIZE) by (pose proof (Z.div_mod off BSIZE); unfold BSIZE in *; lia).
  set (n1 := Z.min (Z.of_nat (length pp)) (BSIZE - off mod BSIZE)).
  assert (1 <= n1 <= Z.of_nat (length pp) /\ n1 <= BSIZE - off mod BSIZE) as Hn1
    by (pose proof (Z.mod_pos_bound off BSIZE); unfold BSIZE in *; lia).
  pose proof (need_bound (view din m) off n1 Hf ltac:(lia) ltac:(lia)) as Hnb.
  pose proof (nb_mono (off + n1) (off + Z.of_nat (length pp)) ltac:(lia)) as Hmono.
  destruct (file_block_spec (off / BSIZE) din m W I Hin ltac:(lia)) as (a & din1 & m1 & GB).
  pose proof (blank_block _ _ _ _ _ _ _ W I Hin GB Hbl) as Hbl1. destruct GB as [-> Eb Ha W1 Hf1 Hr1 _ _].
  destruct (bmap_spec nmeta (view din m) 0 (off / BSIZE) (view_ok din m W) I Hin) as (a' & s1 & Eb' & G1 & Ea & _).
  rewrite Eb in Eb'. injection Eb' as <- <-. rewrite Eb. unfold mbind, outcome_bind.
  rewrite (proj2 (Z.eqb_neq a 0)) by done. pose proof (gr_inode _ _ _ _ G1) as I1.
  destruct (io_data _ _ _ I1 _ Hin) as (Hd & Hu & _); [congruence|]. rewrite Ea in Hd, Hu.
  unfold is_data in Hd. change (size (sb (view din1 m1))) with FSSIZE in Hd.
  rewrite used_view in Hu by (done || change nmeta with 47 in Hd; lia). apply Z.ltb_lt in Hu.
  rewrite rsect_ok by (done || lia). change nmeta with 47 in Hd.
  rewrite (blocks_view din1 m1 a) by (change (bmapstart the_sb) with 46; lia).
  rewrite <- view_wsect by (change (bmapstart the_sb) with 46; lia).
  assert (MAXFILE * BSIZE = 274432) as EM by done. rewrite (wrapu_small 32 (off + n1)) by lia.
  set (m2 := wsect a _ m1). set (buf := store_bytes _ _ _) in m2.
  destruct (store_chunk nmeta (view din1 m1) 0 off (take (Z.to_nat n1) pp) (gr_ok _ _ _ _ G1) I1) as (G2 & Ee2 & Hb2);
    [done|done|congruence|rewrite length_take; lia|].
  rewrite Ea, (blocks_view din1 m1 a), <- view_wsect in G2, Ee2, Hb2 by (change (bmapstart the_sb) with 46; lia).
  cbn [kernel_copy].
  destruct (IH (drop (Z.to_nat n1) pp) (pos + n1) (off + n1) din1 m2) as (din' & m' & -> & -> & W' & Hf' & Hr' & Hbl'); rewrite ?length_drop;
    [apply well_wsect; [done|lia]|exact (gr_inode _ _ _ _ G2)| | |lia|lia|lia| |].
  - intros bn Hbn Hlt. rewrite Ee2 by done. destruct (decide (bn * BSIZE < off)) as [Hl|Hl].
    + rewrite (gr_keep _ _ _ _ G1) by (done || by apply Hf). by apply Hf.
    + replace bn with (off / BSIZE); [congruence|]. pose proof (Z.div_mod off BSIZE). pose proof (Z.mod_pos_bound off BSIZE). unfold BSIZE in *. lia.
  - intros x Hx Hxin. rewrite Ee2 by done. intros Hne. rewrite Hb2 by (done || lia).
    rewrite length_take, (proj2 (Z.ltb_ge x _)), andb_false_r by lia. apply Hbl1; [lia|done|done].
  - change (freeblock m2) with (freeblock m1).
    replace (off + n1 + Z.of_nat (length pp - Z.to_nat n1)) with (off + Z.of_nat (length pp)) by lia. lia.
  - exists din', m'. rewrite length_drop in Hf', Hbl'. change (freeblock m2) with (freeblock m1) in Hf'.
    replace (off + n1 + Z.of_nat (length pp - Z.to_nat n1)) with (off + Z.of_nat (length pp)) in * by lia.
    split_and!; [done| |done|lia|eapply appending_trans; [exact Hr1|]; eapply appending_trans; [|exact Hr']; apply appending_data; change nmeta with 47; lia|done]. do 2 f_equal. lia.
Qed.

End MkfsFacts.
