(* ===== verification/MkfsFiles.v ===== *)
(** * The files of an image under construction

    Each inode of the image is a well-formed file of the kernel's; making a new one
    and appending to one leave the others alone. *)
From S2P Require Import Prelude Mem MemFacts Vm Buf Fs FsFacts FsBytes Dir Mkfs MkfsFacts.

#[local] Open Scope Z_scope.

Module MkfsFiles.
Import Buf Fs Dir FsFacts FsFile FsBytes Mkfs MkfsFacts.

(** ** A dinode is read back as it was written *)

Lemma get16_put16 b off v : 0 <= v < 2 ^ 16 -> get16 (put16 b off v) off = v.
Proof.
  intros Hv. unfold get16, put16. cbn [Mem.load_le].
  rewrite !(proj2 (Z.leb_le off _)), !(proj2 (Z.ltb_lt _ (off + 2))) by lia. cbn [andb].
  rewrite Z.sub_diag. replace (off + 1 - off) with 1 by lia. change (256 ^ 0) with 1. change (256 ^ 1) with 256.
  rewrite Z.div_1_r. pose proof (Z.div_mod v 256). pose proof (Z.div_pos v 256). pose proof (Z.div_lt_upper_bound v 256 256).
  rewrite (Z.mod_small (v / 256)) by lia. lia.
Qed.

Lemma put16_out b off v x : x < off \/ off + 2 <= x -> put16 b off v x = b x.
Proof. intros H. unfold put16. destruct (Z.leb_spec off x), (Z.ltb_spec x (off + 2)); try lia; done. Qed.
Lemma put32_out b off v x : x < off \/ off + 4 <= x -> put32 b off v x = b x.
Proof. intros H. unfold put32. destruct (Z.leb_spec off x), (Z.ltb_spec x (off + 4)); try lia; done. Qed.

Lemma get16_ext b b' off : (forall x, off <= x < off + 2 -> b x = b' x) -> get16 b off = get16 b' off.
Proof. intros H. apply MemFacts.load_le_ext. intros x Hx. apply H. lia. Qed.

Lemma get16_put16_ne b off off' v : off + 2 <= off' \/ off' + 2 <= off -> get16 (put16 b off v) off' = get16 b off'.
Proof. intros H. apply get16_ext. intros x Hx. apply put16_out. lia. Qed.
Lemma get16_put32_ne b off off' v : off + 4 <= off' \/ off' + 2 <= off -> get16 (put32 b off v) off' = get16 b off'.
Proof. intros H. apply get16_ext. intros x Hx. apply put32_out. lia. Qed.

Lemma i16_u16 z : - 2 ^ 15 <= z < 2 ^ 15 -> i16 (u16 z) = z.
Proof. intros Hz. unfold i16, wrapu. pose proof (Z.mod_pos_bound z (2 ^ 16)). pose proof (Z.div_mod z (2 ^ 16)). Z.div_mod_to_equations. lia. Qed.

(** What fits in the fields of a struct dinode. *)
Record fits (din : inode) : Prop := mk_fits {
  fi_type : - 2 ^ 15 <= type din < 2 ^ 15;
  fi_major : - 2 ^ 15 <= major din < 2 ^ 15;
  fi_minor : - 2 ^ 15 <= minor din < 2 ^ 15;
  fi_nlink : - 2 ^ 15 <= nlink din < 2 ^ 15;
  fi_size : 0 <= isize din < 2 ^ 32;
  fi_len : length (addrs din) = 13%nat;
  fi_addrs : Forall (fun a => 0 <= a < 2 ^ 32) (addrs din)
}.

(** [ip] with the fields of [din] that are on disk. *)
Definition with_dinode (ip din : inode) : inode :=
  {| ip with type := type din; major := major din; minor := minor din; nlink := nlink din; isize := isize din; addrs := addrs din |}.

Ltac read_field :=
  first [ rewrite get32_put32_ne by lia | rewrite get16_put16_ne by lia | rewrite get16_put32_ne by lia
        | rewrite get32_put32 by assumption | rewrite get16_put16 by (apply Z.mod_pos_bound; lia) ].

Lemma get_put_dinode ip din d o : fits din -> get_dinode ip (put_dinode din d o) o = with_dinode ip din.
Proof.
  intros [H1 H2 H3 H4 H5 H6 H7]. destruct din as [? ? ? ? ? ty ma mi nl sz as_]. cbn [type major minor nlink isize addrs] in *.
  do 13 (destruct as_ as [|? as_]; [done|]). destruct as_; [|done].
  repeat (apply Forall_cons in H7 as [? H7]). clear H6 H7.
  unfold put_dinode, get_dinode, with_dinode. cbn [type major minor nlink isize addrs zip zip_with seq fold_left fst snd fmap list_fmap].
  f_equal; [..|repeat (f_equal; [repeat read_field; try done|])]; repeat read_field; try done; try by apply i16_u16.
Qed.

(** Only the 64 bytes of the dinode are written. *)
Lemma put_dinode_out din d o x : length (addrs din) = 13%nat -> x < o \/ o + 64 <= x -> put_dinode din d o x = d x.
Proof.
  intros Hl Hx. destruct din as [? ? ? ? ? ty ma mi nl sz as_]. cbn [addrs] in Hl.
  do 13 (destruct as_ as [|? as_]; [done|]). destruct as_; [|done].
  unfold put_dinode. cbn [type major minor nlink isize addrs zip zip_with seq fold_left fst snd].
  by rewrite !put32_out, !put16_out by lia.
Qed.

Lemma get_dinode_ext ip d d' o : (forall x, o <= x < o + 64 -> d x = d' x) -> get_dinode ip d o = get_dinode ip d' o.
Proof.
  intros H. unfold get_dinode. rewrite !(get16_ext d d'), (get32_ext d d') by (intros x Hx; apply H; lia).
  f_equal. apply list_fmap_ext. intros k x Hk. apply lookup_seq in Hk as [-> Hk]. apply get32_ext. intros y Hy. apply H. lia.
Qed.

(** ** Inodes in the image *)

Definition din_of (n : Z) (m : image) : inode := get_dinode {| zero_inode with inum := n |} (im m (iblock n)) (dinode n).
Definition wr (n : Z) (din : inode) (m : image) : image :=
  wsect (iblock n) (put_dinode din (im m (iblock n)) (dinode n)) m.

Lemma iblock_range n : 0 <= n < NINODES -> 33 <= iblock n < 46.
Proof.
  intros Hn. unfold iblock, NINODES in *. change IPB with 16. change (inodestart the_sb) with 33.
  pose proof (Z.div_mod n 16). pose proof (Z.mod_pos_bound n 16). lia.
Qed.

Lemma rinode_ok n m : well m -> 0 <= n < NINODES -> rinode n m = Ret (din_of n m).
Proof. intros W Hn%iblock_range. unfold rinode. rewrite rsect_ok by (done || unfold FSSIZE; lia). done. Qed.

Lemma winode_ok n din m : well m -> 0 <= n < NINODES -> winode n din m = Ret (wr n din m).
Proof. intros W Hn%iblock_range. unfold winode. rewrite rsect_ok by (done || unfold FSSIZE; lia). done. Qed.

Lemma wr_well n din m : well m -> 0 <= n < NINODES -> well (wr n din m).
Proof. intros W Hn%iblock_range. apply well_wsect; [done|]. pose proof (we_block _ W) as H. change nmeta with 47 in H. lia. Qed.

Lemma wr_view n din m :
  0 <= n < NINODES -> inum din = n -> view din (wr n din m) = iupdate 0 (view din m).
Proof.
  intros Hn%iblock_range Hi. unfold wr. rewrite view_wsect by (change (bmapstart the_sb) with 46; lia).
  unfold iupdate. change (geti (view din m) 0) with din. rewrite Hi.
  change (IBLOCK n (view din m)) with (iblock n).
  by rewrite blocks_view by (change (bmapstart the_sb) with 46; lia).
Qed.

(** The dinodes of two inodes share no byte. *)
Lemma din_of_wr n din m k : fits din -> din_of k (wr n din m) = if decide (k = n) then with_dinode {| zero_inode with inum := n |} din else din_of k m.
Proof.
  intros F. unfold din_of, wr. cbn [wsect im]. case_decide as E.
  - subst k. rewrite disk_upd_eq. by apply get_put_dinode.
  - destruct (decide (iblock k = iblock n)) as [Eb|]; [|by rewrite disk_upd_ne by done].
    rewrite Eb, disk_upd_eq. apply get_dinode_ext. intros x Hx. apply put_dinode_out; [apply F|].
    unfold iblock, dinode in *. change IPB with 16 in *. pose proof (Z.div_mod k 16). pose proof (Z.div_mod n 16). lia.
Qed.

(** ** Changes elsewhere leave a file alone *)

Definition owns (s : fs) (b : Z) : Prop := b <> 0 /\ (b = ind s 0 \/ exists bn, in_file bn /\ entry s 0 bn = b).

Lemma foreign_owns s b : b <> 0 -> foreign s 0 b <-> ~ owns s b.
Proof.
  intros Hb. unfold foreign, owns. split.
  - intros [H1 H2] [_ [E|(bn & Hbn & E)]]; [done|by apply (H2 bn)].
  - intros H. split; [intros E; apply H; by split; [|left]|]. intros bn Hbn E. apply H. split; [done|right; by exists bn].
Qed.

Lemma blank_ext s s' off :
  (forall b, owns s b -> blocks s' b = blocks s b) -> (forall bn, in_file bn -> entry s' 0 bn = entry s 0 bn) ->
  blank s off -> blank s' off.
Proof.
  intros Hown Ee Hbl x Hx Hin. rewrite Ee by done. intros Hne. unfold byte. rewrite Ee by done.
  rewrite Hown; [by apply Hbl|]. split; [done|right; by exists (x / BSIZE)].
Qed.

Lemma inode_frame ds s s' :
  inode_ok ds s 0 -> geti s' 0 = geti s 0 -> sb s' = sb s -> length (itable s') = length (itable s) ->
  (forall b, owns s b -> blocks s' b = blocks s b /\ used s' b = true) ->
  inode_ok ds s' 0 /\ file_of s' 0 = file_of s 0 /\ (forall b, owns s' b <-> owns s b) /\
  (forall off, blank s off -> blank s' off).
Proof.
  intros I Eg Es El Hown. destruct (entry_ext s s' 0) as [Ei Ee].
  { intros k Hk. by rewrite Eg. }
  { intros Hne x. destruct (Hown (ind s 0)) as [-> _]; [|done]. split; [done|by left]. }
  assert (forall bn, in_file bn -> entry s 0 bn <> 0 -> owns s (entry s 0 bn)) as Ho.
  { intros bn Hbn Hne. split; [done|right; by exists bn]. }
  split_and!.
  - destruct I as [I1 I2 I3 I4 I5 I6 I7 I8]. constructor; rewrite ?Eg, ?Es, ?Ei, ?El; try done.
    + intros bn Hbn. rewrite Ee by done. intros Hne. destruct (I4 bn Hbn Hne) as (H1 & H2 & H3).
      unfold is_data in *. rewrite Es. split_and!; [lia|lia| |done]. apply Hown. by apply Ho.
    + intros Hne. destruct (I5 Hne) as [H1 H2]. unfold is_data in *. rewrite Es. split; [done|].
      apply Hown. split; [done|by left].
    + intros b c Hb Hc. rewrite !Ee by done. by apply I6.
    + intros bn Hbn. rewrite Ee by done. by apply I8.
  - unfold file_of, bytes_from. rewrite Eg. apply list_fmap_ext. intros k x Hk. apply lookup_seq in Hk as [-> Hk].
    rewrite Z.add_0_l. pose proof (io_size _ _ _ I) as HS. unfold byte.
    assert (in_file (Z.of_nat (0 + k) / BSIZE)) as Hin by (apply in_file_div; lia).
    rewrite Ee by done. destruct (Hown (entry s 0 (Z.of_nat (0 + k) / BSIZE))) as [-> _]; [|done].
    apply Ho; [done|]. apply (io_full _ _ _ I); [done|].
    pose proof (Z.mul_div_le (Z.of_nat (0 + k)) BSIZE). unfold BSIZE in *. lia.
  - intros b. unfold owns. rewrite Ei. split; intros [Hb [E|(bn & Hbn & E)]]; (split; [done|]); [by left| |by left|];
      right; exists bn; (split; [done|]); [by rewrite <- Ee|by rewrite Ee].
  - intros off Hbl. eapply blank_ext; [|exact Ee|exact Hbl]. intros b Hb. by apply Hown.
Qed.

(** ** The files of the image *)

Definition file_view (n : Z) (m : image) : fs := view (din_of n m) m.

Record file_ok (m : image) (n ty : Z) (c : list Z) : Prop := mk_file_ok {
  fo_inode : inode_ok nmeta (file_view n m) 0;
  fo_bytes : file_of (file_view n m) 0 = c;
  fo_type : type (din_of n m) = ty;
  fo_nlink : nlink (din_of n m) = 1;
  fo_fits : fits (din_of n m);
  fo_blank : blank (file_view n m) (Z.of_nat (length c))
}.

Definition apart (m : image) (j k : Z) : Prop := forall b, owns (file_view j m) b -> owns (file_view k m) b -> False.

(** The blocks of the files [fs]. *)
Definition size_of (x : Z * list Z) : Z := nb (Z.of_nat (length (snd x))).
Fixpoint total (fs : list (Z * list Z)) : Z :=
  match fs with [] => 0 | x :: fs => size_of x + total fs end.

(** The image holds the files [fs]: type and bytes of inodes 1, 2 and so on. *)
Record built (m : image) (fs : list (Z * list Z)) : Prop := mk_built {
  bu_well : well m;
  bu_inodes : freeinode m = 1 + Z.of_nat (length fs) /\ freeinode m <= NINODES;
  bu_blocks : freeblock m <= nmeta + total fs;
  bu_file : forall k ty c, fs !! k = Some (ty, c) -> file_ok m (1 + Z.of_nat k) ty c;
  bu_apart : forall j k, (j < length fs)%nat -> (k < length fs)%nat -> j <> k -> apart m (1 + Z.of_nat j) (1 + Z.of_nat k)
}.

Lemma inum_din_of n m : inum (din_of n m) = n.
Proof. done. Qed.

Lemma owns_used ds s b : inode_ok ds s 0 -> owns s b -> is_data ds s b /\ used s b = true.
Proof.
  intros I [Hb [->|(bn & Hbn & <-)]]; [by apply (io_ind _ _ _ I)|]. by destruct (io_data _ _ _ I bn Hbn Hb) as (? & ? & _).
Qed.

Lemma fo_length m n ty c : file_ok m n ty c -> isize (din_of n m) = Z.of_nat (length c).
Proof.
  intros F. pose proof (io_size _ _ _ (fo_inode _ _ _ _ F)) as Hs. rewrite <- (fo_bytes _ _ _ _ F). unfold file_of.
  rewrite length_bytes_from. change (geti (file_view n m) 0) with (din_of n m) in *. lia.
Qed.

(** iappend on one file is the kernel's writei at the end of it. *)
Lemma iappend_writei m n ty c p :
  well m -> 0 <= n < NINODES -> file_ok m n ty c ->
  Z.of_nat (length c) + Z.of_nat (length p) <= MAXFILE * BSIZE ->
  freeblock m + nb (Z.of_nat (length c) + Z.of_nat (length p)) - nb (Z.of_nat (length c)) <= FSSIZE ->
  exists m', iappend n p m = Ret m' /\ well m' /\ freeinode m' = freeinode m /\
    freeblock m' <= freeblock m + nb (Z.of_nat (length c) + Z.of_nat (length p)) - nb (Z.of_nat (length c)) /\
    writei 0 (Z.of_nat (length c)) p (file_view n m) = Ret (Z.of_nat (length p), file_view n m') /\
    blank (file_view n m') (Z.of_nat (length c) + Z.of_nat (length p)) /\
    type (din_of n m') = type (din_of n m) /\ nlink (din_of n m') = nlink (din_of n m) /\ fits (din_of n m') /\
    (forall j, 0 <= j < NINODES -> j <> n -> din_of j m' = din_of j m).
Proof.
  intros W Hn F Hsz Hfree. pose proof (fo_length _ _ _ _ F) as Hlen. pose proof (fo_inode _ _ _ _ F) as I.
  set (off := Z.of_nat (length c)) in *. set (len := Z.of_nat (length p)) in *.
  assert (MAXFILE * BSIZE = 274432) as EM by done.
  destruct (iappend_loop_spec (length p) p 0 off (din_of n m) m W I) as (din' & m1 & El & Ew & W1 & Hf1 & [Ad Al Ai] & Hbl1); try (done || lia).
  { intros bn Hbn Hlt. apply (io_full _ _ _ I); [done|]. change (geti (file_view n m) 0) with (din_of n m). rewrite Hlen. lia. }
  { exact (fo_blank _ _ _ _ F). }
  fold len in El, Ew, Hf1. change (view (din_of n m) m) with (file_view n m) in Ew.
  assert (isize din' = off) as Hsd by (transitivity (isize (din_of n m)); [by rewrite Ad|done]).
  set (din2 := {| din' with isize := off + len |}).
  assert (inum din2 = n) as Hin by (cbn; by rewrite Ad).
  pose proof (writei_spec nmeta (file_view n m) 0 off p (view_ok _ m W) I ltac:(lia) ltac:(lia)) as S.
  change (isize (geti (file_view n m) 0)) with (isize (din_of n m)) in S. fold len in S.
  rewrite Hlen, (proj2 (Z.ltb_ge off off)), (proj2 (Z.ltb_ge (MAXFILE * BSIZE) (off + len))) in S by lia. cbn [orb] in S.
  destruct S as (tot & s' & E & S).
  assert (writei 0 off p (file_view n m) = Ret (len, view din2 (wr n din2 m1))) as E2.
  { unfold writei, writei_from. change (isize (geti (file_view n m) 0)) with (isize (din_of n m)). fold len.
    rewrite Hlen, (proj2 (Z.ltb_ge off off)), (wrapu_small 32 (off + len)), (proj2 (Z.ltb_ge (off + len) off)) by lia. cbn [orb].
    rewrite (proj2 (Z.ltb_ge (MAXFILE * BSIZE) (off + len))) by lia. rewrite Ew. unfold mbind, outcome_bind. rewrite wr_view by done.
    do 3 f_equal. change (geti (view din' m1) 0) with din'. unfold din2. rewrite Hsd.
    destruct (Z.ltb_spec off (off + len)); [done|]. replace (off + len) with (isize din') by lia. by destruct din'. }
  rewrite E in E2. injection E2 as -> ->.
  assert (fits din2) as F2.
  { pose proof (wn_inode _ _ _ _ _ _ _ S) as I2. pose proof (fo_fits _ _ _ _ F) as [G1 G2 G3 G4 G5 G6 G7].
    assert (length (addrs din2) = 13%nat) as Hl by apply (io_addrs _ _ _ I2).
    constructor; [unfold din2; cbn [type major minor nlink]; by rewrite Ad..|cbn; lia|done|]. apply Forall_forall. intros a Ha.
    apply list_elem_of_lookup in Ha as [k Hk]. pose proof (lookup_lt_Some _ _ _ Hk) as Hkl.
    pose proof (addr_bounds din2 _ (Z.of_nat k) I2 ltac:(lia)) as Hb. unfold addr in Hb. rewrite Nat2Z.id, Hk in Hb.
    cbn in Hb. unfold FSSIZE in Hb. lia. }
  assert (din_of n (wr n din2 m1) = din2) as Ed.
  { rewrite din_of_wr, decide_True by done. unfold din2. rewrite Ad. done. }
  exists (wr n din2 m1). split_and!.
  - unfold iappend. rewrite rinode_ok by done. unfold mbind, outcome_bind. rewrite xint_small, Hlen, El by lia.
    rewrite xint_small by lia. by apply winode_ok.
  - by apply wr_well.
  - exact Ai.
  - exact Hf1.
  - unfold file_view at 2. by rewrite Ed.
  - unfold file_view. rewrite Ed. fold len off. pose proof (wn_inode _ _ _ _ _ _ _ S) as I2.
    assert (forall b, nmeta <= b -> b <> 46 -> blocks (view din2 (wr n din2 m1)) b = blocks (view din' m1) b) as Hb.
    { intros b Hb Hb46. rewrite !blocks_view by done. unfold wr. cbn [wsect im]. apply iblock_range in Hn. change nmeta with 47 in Hb.
      by rewrite disk_upd_ne by lia. }
    assert (forall bn, in_file bn -> entry (view din2 (wr n din2 m1)) 0 bn = entry (view din' m1) 0 bn) as Ee.
    { apply (entry_ext (view din' m1) (view din2 (wr n din2 m1)) 0); [done|]. intros Hne x. rewrite Hb; [done| |].
      - destruct (io_ind _ _ _ I2 Hne) as [[Hd _] _]. exact Hd.
      - destruct (io_ind _ _ _ I2 Hne) as [[Hd _] _]. change nmeta with 47 in Hd. change (ind (view din2 (wr n din2 m1)) 0) with (ind (view din' m1) 0) in Hd. lia. }
    eapply blank_ext; [|exact Ee|exact Hbl1]. intros b Hown.
    assert (owns (view din2 (wr n din2 m1)) b) as Hown2.
    { destruct Hown as [Hb0 [E0|(bn & Hbn & E0)]]; (split; [done|]); [by left|right; exists bn; by rewrite Ee]. }
    destruct (owns_used _ _ _ I2 Hown2) as [[Hd _] _]. apply Hb; [exact Hd|change nmeta with 47 in Hd; lia].
  - rewrite Ed. unfold din2. by rewrite Ad.
  - rewrite Ed. unfold din2. by rewrite Ad.
  - by rewrite Ed.
  - intros j Hj Hne. rewrite din_of_wr, decide_False by done. unfold din_of. rewrite Al; [done|].
    apply iblock_range in Hj. change nmeta with 47. lia.
Qed.

Lemma total_insert fs k x y : fs !! k = Some x -> total (<[k := y]> fs) = total fs - size_of x + size_of y.
Proof.
  revert k. induction fs as [|z fs IH]; intros [|k]; [done|done|intros [= ->]; cbn; lia|]. intros Hk.
  change (size_of z + total (<[k := y]> fs) = size_of z + total fs - size_of x + size_of y). rewrite (IH k Hk). lia.
Qed.
Lemma total_app fs gs : total (fs ++ gs) = total fs + total gs.
Proof. induction fs as [|x fs IH]; [done|]. cbn. rewrite IH. lia. Qed.

(** A file that the change of another leaves alone. *)
Lemma file_ok_frame m m' n ty c :
  file_ok m n ty c -> din_of n m' = din_of n m ->
  (forall b, owns (file_view n m) b -> blocks (file_view n m') b = blocks (file_view n m) b /\ used (file_view n m') b = true) ->
  file_ok m' n ty c /\ (forall b, owns (file_view n m') b <-> owns (file_view n m) b).
Proof.
  intros [I Hb Ht Hl Hf Hz] Ed Hown.
  destruct (inode_frame nmeta (file_view n m) (file_view n m') I) as (I' & Eb & Ho & Hbl'); [exact Ed|done|done|done|].
  split; [|done]. constructor; rewrite ?Ed; try done; [congruence|by apply Hbl'].
Qed.

Lemma built_iappend m fs k ty c p :
  built m fs -> fs !! k = Some (ty, c) -> Z.of_nat (length (c ++ p)) <= MAXFILE * BSIZE ->
  nmeta + total (<[k := (ty, c ++ p)]> fs) <= FSSIZE ->
  exists m', iappend (1 + Z.of_nat k) p m = Ret m' /\ built m' (<[k := (ty, c ++ p)]> fs).
Proof.
  intros [W [Hn1 Hn2] Hbl Hfile Hap] Hk Hsz Htot. pose proof (Hfile _ _ _ Hk) as F.
  pose proof (lookup_lt_Some _ _ _ Hk) as Hkl. rewrite (total_insert _ _ _ _ Hk) in Htot.
  unfold size_of in Htot. cbn [snd] in Htot. rewrite length_app, Nat2Z.inj_add in Hsz, Htot.
  set (n := 1 + Z.of_nat k) in *.
  destruct (iappend_writei m n ty c p W ltac:(lia) F Hsz ltac:(lia)) as (m' & E & W' & Ei & Hfb & Ew & Hbl' & Ety & Enl & F' & Hoth).
  exists m'. split; [exact E|].
  pose proof (writei_spec nmeta (file_view n m) 0 (Z.of_nat (length c)) p (view_ok _ m W) (fo_inode _ _ _ _ F)) as S.
  assert (MAXFILE * BSIZE = 274432) as EM by done.
  specialize (S ltac:(lia) ltac:(lia)). change (isize (geti (file_view n m) 0)) with (isize (din_of n m)) in S.
  rewrite (fo_length _ _ _ _ F), (proj2 (Z.ltb_ge _ _)), (proj2 (Z.ltb_ge _ _)) in S by lia. cbn [orb] in S.
  destruct S as (tot & s' & E' & S). rewrite Ew in E'. injection E' as <- <-.
  assert (forall j, (j < length fs)%nat -> j <> k -> forall b, owns (file_view (1 + Z.of_nat j) m) b ->
    blocks (file_view n m') b = blocks (file_view n m) b /\ used (file_view n m') b = true /\ ~ owns (file_view n m') b) as Hkeep.
  { intros j Hj Hjk b Hb. destruct (lookup_lt_is_Some_2 fs j Hj) as [[tj cj] Ej].
    destruct (owns_used _ _ _ (fo_inode _ _ _ _ (Hfile _ _ _ Ej)) Hb) as [Hd Hu].
    destruct (wn_other _ _ _ _ _ _ _ S b Hd Hu) as (H1 & H2 & H3).
    { apply foreign_owns; [apply Hb|]. intros Hbk. by apply (Hap j k Hj Hkl Hjk b). }
    split_and!; [done|done|]. by apply foreign_owns; [apply Hb|]. }
  assert (forall j tj cj, fs !! j = Some (tj, cj) -> j <> k -> file_ok m' (1 + Z.of_nat j) tj cj /\
    (forall b, owns (file_view (1 + Z.of_nat j) m') b <-> owns (file_view (1 + Z.of_nat j) m) b)) as Hother.
  { intros j tj cj Ej Hjk. pose proof (lookup_lt_Some _ _ _ Ej) as Hj.
    apply file_ok_frame; [by apply Hfile|apply Hoth; lia|]. intros b Hb. by destruct (Hkeep j Hj Hjk b Hb) as (? & ? & _). }
  constructor.
  - done.
  - by rewrite length_insert, Ei.
  - rewrite (total_insert _ _ _ _ Hk). unfold size_of. cbn [snd]. rewrite length_app, Nat2Z.inj_add. lia.
  - intros j tj cj. destruct (decide (j = k)) as [->|Hjk].
    + rewrite list_lookup_insert_eq by done. intros [= <- <-]. fold n. constructor; [exact (wn_inode _ _ _ _ _ _ _ S)| |rewrite Ety; exact (fo_type _ _ _ _ F)|rewrite Enl; exact (fo_nlink _ _ _ _ F)|done|by rewrite length_app, Nat2Z.inj_add].
      rewrite (wn_file _ _ _ _ _ _ _ S), (fo_bytes _ _ _ _ F), !Nat2Z.id. rewrite take_ge by done. rewrite (take_ge p) by done.
      rewrite drop_ge by lia. by rewrite app_nil_r.
    + rewrite list_lookup_insert_ne by done. intros Ej. by apply Hother.
  - intros i j. rewrite length_insert. intros Hi Hj Hij b Hbi Hbj.
    destruct (lookup_lt_is_Some_2 fs i Hi) as [[ti ci] Eti]. destruct (lookup_lt_is_Some_2 fs j Hj) as [[tj cj] Etj].
    destruct (decide (i = k)) as [->|Hik]; [|destruct (decide (j = k)) as [->|Hjk]].
    + apply (Hother j tj cj Etj) in Hbj; [|done]. by destruct (Hkeep j Hj ltac:(done) b Hbj) as (_ & _ & []).
    + apply (Hother i ti ci Eti) in Hbi; [|done]. by destruct (Hkeep i Hi ltac:(done) b Hbi) as (_ & _ & []).
    + apply (Hother i ti ci Eti) in Hbi; [|done]. apply (Hother j tj cj Etj) in Hbj; [|done]. by apply (Hap i j Hi Hj Hij b).
Qed.

(** ** A new inode *)

Definition new_din (n ty : Z) : inode := {| zero_inode with inum := n; type := ty; nlink := 1 |}.

Lemma new_fits n ty : 0 <= ty < 2 ^ 15 -> fits (new_din n ty).
Proof. intros Ht. constructor; cbn; try lia. by repeat constructor. Qed.

Lemma no_entries din m bn : addrs din = replicate 13 0 -> in_file bn -> entry (view din m) 0 bn = 0 /\ ind (view din m) 0 = 0.
Proof.
  intros Ha Hbn. unfold in_file in Hbn.
  assert (forall k, addr (geti (view din m) 0) k = 0) as H0.
  { intros k. change (geti (view din m) 0) with din. unfold addr. rewrite Ha.
    destruct (replicate 13 0 !! Z.to_nat k) as [z|] eqn:E; [|done]. by apply lookup_replicate in E as [-> _]. }
  unfold entry, ind. rewrite !H0. by destruct (bn <? NDIRECT).
Qed.

Lemma built_ialloc m fs ty :
  built m fs -> freeinode m < NINODES -> 0 <= ty < 2 ^ 15 ->
  exists m', ialloc ty m = Ret (1 + Z.of_nat (length fs), m') /\ built m' (fs ++ [(ty, [])]).
Proof.
  intros [W [Hn1 Hn2] Hbl Hfile Hap] Hlt Hty. set (n := 1 + Z.of_nat (length fs)) in *.
  unfold NINODES in *. set (m1 := {| m with freeinode := u32 (freeinode m + 1) |}).
  assert (well m1) as W1 by (destruct W; by constructor).
  assert (0 <= n < NINODES) as Hn by (unfold NINODES; lia).
  pose proof (new_fits n ty Hty) as F. set (m' := wr n (new_din n ty) m1).
  assert (din_of n m' = new_din n ty) as Ed by (unfold m'; by rewrite din_of_wr, decide_True by done).
  assert (well m') as W' by by apply wr_well.
  assert (forall j tj cj, fs !! j = Some (tj, cj) -> file_ok m' (1 + Z.of_nat j) tj cj /\
    (forall b, owns (file_view (1 + Z.of_nat j) m') b <-> owns (file_view (1 + Z.of_nat j) m) b)) as Hother.
  { intros j tj cj Ej. pose proof (lookup_lt_Some _ _ _ Ej) as Hj. apply file_ok_frame; [by apply Hfile| |].
    - unfold m'. by rewrite din_of_wr, decide_False by (done || lia).
    - intros b Hb. destruct (owns_used _ _ _ (fo_inode _ _ _ _ (Hfile _ _ _ Ej)) Hb) as [Hd Hu].
      unfold is_data in Hd. change (size (sb (file_view (1 + Z.of_nat j) m))) with FSSIZE in Hd.
      change nmeta with 47 in Hd. apply iblock_range in Hn. unfold file_view in *.
      rewrite used_view in Hu |- * by (done || lia). split; [|done].
      unfold m', wr. rewrite !blocks_view by (change (bmapstart the_sb) with 46; lia). cbn [wsect im].
      by rewrite disk_upd_ne by lia. }
  assert (forall b, ~ owns (file_view n m') b) as Hnone.
  { intros b [Hb Hown]. unfold file_view in Hown. rewrite Ed in Hown. destruct Hown as [->|(bn & Hbn & <-)].
    - apply Hb. apply (no_entries _ _ 0); [done|by unfold in_file; change MAXFILE with 268].
    - apply Hb. by apply no_entries. }
  exists m'. split.
  { unfold ialloc. fold m1. rewrite Hn1. fold n. change (xshort 1) with 1. change (xint 0) with 0. rewrite (xshort_small ty) by lia.
    change {| zero_inode with inum := n; type := ty; nlink := 1; isize := 0 |} with (new_din n ty).
    by rewrite winode_ok by done. }
  constructor.
  - done.
  - rewrite length_app. cbn [length]. split; [|change (freeinode m') with (u32 (freeinode m + 1)); rewrite wrapu_small by lia; unfold NINODES; lia].
    change (freeinode m') with (u32 (freeinode m + 1)). rewrite wrapu_small by lia. lia.
  - rewrite total_app. cbn. unfold size_of. cbn [snd length]. change (nb (Z.of_nat 0)) with 0. lia.
  - intros k tk ck Hk. apply lookup_app_Some in Hk as [Hk|[Hge Hk]]; [by apply Hother|].
    destruct (k - length fs)%nat as [|q] eqn:Eq; [|done]. injection Hk as <- <-. replace k with (length fs) by lia. fold n.
    constructor; unfold file_view; rewrite ?Ed; [|done..|].
    2:{ intros x Hx Hxin Hne. by destruct (no_entries (new_din n ty) m' _ eq_refl Hxin) as [E0 _]. }
    constructor.
    + cbn. lia.
    + done.
    + exact Hn.
    + intros bn Hbn. by destruct (no_entries (new_din n ty) m' bn) as [-> _].
    + destruct (no_entries (new_din n ty) m' 0) as [_ ->]; [done|by unfold in_file; change MAXFILE with 268|done].
    + intros b c Hb Hc. by destruct (no_entries (new_din n ty) m' b) as [-> _].
    + cbn [geti view itable new_din isize]. change (MAXFILE * BSIZE) with 274432. cbn. lia.
    + intros bn Hbn. change (isize (geti (view (new_din n ty) m') 0)) with 0. unfold in_file, BSIZE in *. lia.
  - intros i j. rewrite length_app. cbn [length]. intros Hi Hj Hij b Hbi Hbj.
    destruct (decide (i = length fs)) as [->|Hie]; [by apply (Hnone b)|].
    destruct (decide (j = length fs)) as [->|Hje]; [by apply (Hnone b)|].
    destruct (lookup_lt_is_Some_2 fs i ltac:(lia)) as [[ti ci] Eti]. destruct (lookup_lt_is_Some_2 fs j ltac:(lia)) as [[tj cj] Etj].
    apply (Hother i ti ci Eti) in Hbi. apply (Hother j tj cj Etj) in Hbj. by apply (Hap i j ltac:(lia) ltac:(lia) Hij b).
Qed.

End MkfsFiles.
