(* ===== verification/MkfsRun.v ===== *)
(** * The kernel reads what mkfs wrote *)
From S2P Require Import Prelude Mem MemFacts Vm Buf Fs FsFacts FsBytes Dir DirFacts DirLookup Mkfs MkfsFacts MkfsFiles.
From Stdlib Require Import FunctionalExtensionality.

#[local] Open Scope Z_scope.

Module MkfsRun.
Import Buf Fs Dir FsFacts FsFile FsBytes DirFacts DirLookup Mkfs MkfsFacts MkfsFiles.

(** ** The image mkfs builds *)

Definition file_name (f : input) : list Z := strip_underscore (strip_dir (arg f)).
Definition bytes (f : input) : list Z := concat (default [] (reads f)).

Fixpoint dirs (n : Z) (fs : list input) : list (list Z) :=
  match fs with [] => [] | f :: fs => dirent n (file_name f) :: dirs (n + 1) fs end.

Definition root_dir (fs : list input) : list (list Z) :=
  dirent 1 [DOT] :: dirent 1 [DOT; DOT] :: dirs 2 fs.

Definition file_of_input (f : input) : Z * list Z := (T_FILE, bytes f).
Definition contents (fs : list input) : list (Z * list Z) :=
  (T_DIR, concat (root_dir fs)) :: (file_of_input <$> fs).

(** The arguments mkfs accepts. *)
Record good_input (f : input) : Prop := mk_good_input {
  gi_flat : existsb (Z.eqb SLASH) (strip_dir (arg f)) = false;
  gi_name : Z.of_nat (length (file_name f)) <= DIRSIZ;
  gi_reads : is_Some (reads f);
  gi_size : Z.of_nat (length (bytes f)) <= MAXFILE * BSIZE
}.

Lemma total_cons x fs : total (x :: fs) = size_of x + total fs.
Proof. done. Qed.

Lemma size_of_nonneg x : 0 <= size_of x.
Proof. unfold size_of, nb. pose proof (Z.div_pos (Z.of_nat (length (snd x)) + 1023) 1024). destruct (_ <? _); cbn; lia. Qed.
Lemma total_nonneg fs : 0 <= total fs.
Proof. induction fs as [|x fs IH]; [done|]. rewrite total_cons. pose proof (size_of_nonneg x). lia. Qed.

Lemma size_of_app ty a b : size_of (ty, a) <= size_of (ty, a ++ b).
Proof. unfold size_of. cbn [snd]. apply nb_mono. rewrite length_app. lia. Qed.

(** The loop over a file's reads. *)
Lemma append_all_spec bufs : forall m fs k ty c,
  built m fs -> fs !! k = Some (ty, c) -> Z.of_nat (length (c ++ concat bufs)) <= MAXFILE * BSIZE ->
  nmeta + total (<[k := (ty, c ++ concat bufs)]> fs) <= FSSIZE ->
  exists m', append_all (1 + Z.of_nat k) bufs m = Ret m' /\ built m' (<[k := (ty, c ++ concat bufs)]> fs).
Proof.
  induction bufs as [|b bufs IH]; intros m fs k ty c B Hk Hsz Htot; cbn [append_all concat] in *.
  { rewrite app_nil_r in *. exists m. by rewrite list_insert_id by done. }
  rewrite app_assoc in *. destruct (built_iappend m fs k ty c b B Hk) as (m1 & -> & B1).
  - rewrite length_app in Hsz. lia.
  - rewrite (total_insert _ _ _ _ Hk). rewrite (total_insert _ _ _ _ Hk) in Htot. pose proof (size_of_app ty (c ++ b) (concat bufs)). lia.
  - unfold mbind, outcome_bind. pose proof (lookup_lt_Some _ _ _ Hk) as Hlt.
    destruct (IH m1 (<[k := (ty, c ++ b)]> fs) k ty (c ++ b) B1) as (m' & -> & B').
    + by apply list_lookup_insert_eq.
    + done.
    + by rewrite list_insert_insert_eq.
    + exists m'. split; [done|]. by rewrite list_insert_insert_eq in B'.
Qed.

Lemma length_dirent n name : length (dirent n name) = 16%nat.
Proof. unfold dirent. by rewrite length_app, length_strncpy. Qed.

(** One file: a new inode, its entry in the root directory, its bytes. *)
Lemma add_file_spec m r fl f :
  built m ((T_DIR, r) :: fl) -> good_input f -> 2 + Z.of_nat (length fl) < NINODES ->
  Z.of_nat (length r) + 16 <= MAXFILE * BSIZE ->
  let n := 2 + Z.of_nat (length fl) in
  let fs := (T_DIR, r ++ dirent n (file_name f)) :: fl ++ [file_of_input f] in
  nmeta + total fs <= FSSIZE -> exists m', add_file f m = Ret m' /\ built m' fs.
Proof.
  intros B [Hflat Hname [bufs Hreads] Hsz] Hn Hr n fs Htot. unfold add_file. rewrite Hflat, Hreads.
  change (strip_underscore (strip_dir (arg f))) with (file_name f). rewrite (proj2 (Z.ltb_ge _ _)) by done.
  destruct (built_ialloc m _ T_FILE B) as (m1 & -> & B1); [destruct B as [_ [-> _] _ _ _]; cbn [length]; lia|unfold T_FILE; lia|].
  unfold mbind, outcome_bind. unfold NINODES in Hn. cbn [length] in *.
  replace (1 + Z.of_nat (S (length fl))) with n by lia. rewrite xshort_small by lia.
  subst fs. rewrite total_cons, total_app in Htot. cbn [total] in Htot.
  pose proof (size_of_nonneg (file_of_input f)) as Hf0.
  destruct (built_iappend m1 _ 0 T_DIR r (dirent n (file_name f)) B1 eq_refl) as (m2 & E & B2).
  { rewrite length_app, length_dirent. lia. }
  { rewrite (total_insert _ 0 (T_DIR, r)) by done. cbn [app]. rewrite total_cons, total_app. cbn [total].
    change (size_of (T_FILE, [])) with 0. lia. }
  change (1 + Z.of_nat 0) with ROOTINO in E. rewrite E. cbn [app] in B2.
  change (<[0%nat := (T_DIR, r ++ dirent n (file_name f))]> ((T_DIR, r) :: fl ++ [(T_FILE, [])])) with
    ((T_DIR, r ++ dirent n (file_name f)) :: fl ++ [(T_FILE, [])]) in B2.
  assert (bytes f = concat bufs) as Eb by (unfold bytes; by rewrite Hreads).
  assert (forall y, <[S (length fl) := y]> ((T_DIR, r ++ dirent n (file_name f)) :: fl ++ [(T_FILE, [])]) =
    (T_DIR, r ++ dirent n (file_name f)) :: fl ++ [y]) as Hins.
  { intros y. change (<[S (length fl) := y]> (?x :: ?l)) with (x :: <[length fl := y]> l). f_equal.
    rewrite <- (Nat.add_0_r (length fl)). by rewrite insert_app_r. }
  destruct (append_all_spec bufs m2 _ (S (length fl)) T_FILE [] B2) as (m3 & E3 & B3).
  - rewrite lookup_cons, lookup_app_r by lia. by rewrite Nat.sub_diag.
  - cbn [app]. by rewrite <- Eb.
  - rewrite Hins, total_cons, total_app. cbn [total app]. rewrite <- Eb. exact Htot.
  - rewrite Hins in B3. cbn [app] in B3. rewrite <- Eb in B3.
    replace (1 + Z.of_nat (S (length fl))) with n in E3 by lia. exists m3. by split.
Qed.

Lemma total_fmap_app fl fs : total (fl ++ fs) = total fl + total fs.
Proof. apply total_app. Qed.

Lemma length_concat_dirs n fs : length (concat (dirs n fs)) = (16 * length fs)%nat.
Proof.
  revert n. induction fs as [|f fs IH]; intros n; [done|]. cbn [dirs concat length].
  rewrite length_app, length_dirent, IH. lia.
Qed.

Lemma add_files_spec fs : forall m r fl,
  built m ((T_DIR, r) :: fl) -> Forall good_input fs ->
  2 + Z.of_nat (length fl) + Z.of_nat (length fs) <= NINODES -> Z.of_nat (length r) + 16 * Z.of_nat (length fs) <= MAXFILE * BSIZE ->
  let all := (T_DIR, r ++ concat (dirs (2 + Z.of_nat (length fl)) fs)) :: fl ++ (file_of_input <$> fs) in
  nmeta + total all <= FSSIZE -> exists m', add_files fs m = Ret m' /\ built m' all.
Proof.
  induction fs as [|f fs IH]; intros m r fl B Hgood Hn Hr all Htot; subst all; cbn [add_files dirs concat fmap list_fmap] in *.
  { rewrite !app_nil_r in *. by exists m. }
  apply Forall_cons in Hgood as [Hf Hgood]. cbn [length] in Hn, Hr.
  set (n := 2 + Z.of_nat (length fl)) in *. rewrite app_assoc in Htot |- *.
  rewrite cons_middle, app_assoc in Htot |- *. rewrite total_cons, total_app in Htot.
  destruct (add_file_spec m r fl f B Hf) as (m1 & -> & B1); [lia|lia| |].
  - rewrite total_cons. pose proof (size_of_app T_DIR (r ++ dirent n (file_name f)) (concat (dirs (n + 1) fs))).
    pose proof (total_nonneg (file_of_input <$> fs)). fold n. lia.
  - fold n in B1. unfold mbind, outcome_bind.
    assert (2 + Z.of_nat (length (fl ++ [file_of_input f])) = n + 1) as El by (rewrite length_app; cbn [length]; lia).
    destruct (IH m1 (r ++ dirent n (file_name f)) (fl ++ [file_of_input f]) B1 Hgood) as (m' & -> & B').
    + lia.
    + rewrite length_app, length_dirent. lia.
    + rewrite El, total_cons, total_app. exact Htot.
    + rewrite El in B'. by exists m'.
Qed.

(** ** main *)

(** The arguments fit on the disk: names, sizes, inodes and blocks; the root
    directory does not end with its last block. *)
Record fits_image (fs : list input) : Prop := mk_fits_image {
  ft_good : Forall good_input fs;
  ft_inodes : 2 + Z.of_nat (length fs) <= NINODES;
  ft_blocks : nmeta + total (contents fs) <= FSSIZE;
  ft_root : (Z.of_nat (length fs) + 2) mod 64 <> 0
}.

Lemma zeroed n : 
  let m := foldl (fun m i => wsect i zero_block m) empty_image (seqZ 0 (Z.of_nat n)) in
  sects m = Z.of_nat n /\ freeinode m = 1 /\ freeblock m = nmeta /\ forall b, im m b = zero_block.
Proof.
  induction n as [|n IH]; [done|]. cbv zeta in *. rewrite seqZ_S, foldl_app. cbn [foldl].
  destruct IH as (H1 & H2 & H3 & H4). split_and!; [cbn [wsect sects]; rewrite H1; lia|done|done|].
  intros b. cbn [wsect im]. destruct (decide (b = 0 + Z.of_nat n)) as [->|]; [by rewrite disk_upd_eq|by rewrite disk_upd_ne].
Qed.

Lemma start_built : built (wsect 1 (put_sb the_sb zero_block) (foldl (fun m i => wsect i zero_block m) empty_image (seqZ 0 FSSIZE))) [].
Proof.
  pose proof (zeroed 2000) as H. cbv zeta in H. change (Z.of_nat 2000) with FSSIZE in H.
  destruct (foldl _ empty_image (seqZ 0 FSSIZE)) as [d sc fi fb]. cbn [sects freeinode freeblock im] in H. destruct H as (-> & -> & -> & H4).
  constructor; [|done|done|done|intros j k Hj; cbn in Hj; lia].
  constructor; cbn [wsect sects freeblock im]; [done|done| |by rewrite disk_upd_eq].
  intros b Hb. change nmeta with 47 in Hb. by rewrite disk_upd_ne by lia.
Qed.

Lemma mkfs_builds fs :
  fits_image fs -> exists m, built m (contents fs) /\ mkfs fs = (m ← fix_root m; balloc (freeblock m) m).
Proof.
  intros [Hgood Hn Hb _]. unfold mkfs. unfold NINODES in *. unfold contents, root_dir in *. rewrite total_cons in Hb. cbn [concat] in Hb.
  rewrite !app_assoc in Hb. pose proof (total_nonneg (file_of_input <$> fs)) as H0.
  destruct (built_ialloc _ _ T_DIR start_built) as (m1 & E1 & B1); [done|unfold T_DIR; lia|].
  cbv zeta. rewrite E1. unfold mbind, outcome_bind. cbn [length] in *. change (1 + Z.of_nat 0) with 1 in *.
  change (negb (1 =? ROOTINO)) with false. cbv iota. change (xshort 1) with 1.
  pose proof (size_of_app T_DIR (dirent 1 [DOT]) (dirent 1 [DOT; DOT])) as Hs1.
  pose proof (size_of_app T_DIR (dirent 1 [DOT] ++ dirent 1 [DOT; DOT]) (concat (dirs 2 fs))) as Hs2.
  destruct (built_iappend m1 _ 0 T_DIR [] (dirent 1 [DOT]) B1 eq_refl) as (m2 & E2 & B2); [done| |].
  { cbn [app]. change (<[0%nat := (T_DIR, dirent 1 [DOT])]> [(T_DIR, [])]) with [(T_DIR, dirent 1 [DOT])]. cbn [total]. lia. }
  change (1 + Z.of_nat 0) with 1 in E2. rewrite E2.
  destruct (built_iappend m2 _ 0 T_DIR (dirent 1 [DOT]) (dirent 1 [DOT; DOT]) B2 eq_refl) as (m3 & E3 & B3); [done| |].
  { cbn [app]. change (<[0%nat := ?y]> (<[0%nat := ?x]> [(T_DIR, [])])) with [y]. cbn [total]. lia. }
  change (1 + Z.of_nat 0) with 1 in E3. rewrite E3.
  destruct (add_files_spec fs m3 (dirent 1 [DOT] ++ dirent 1 [DOT; DOT]) [] B3 Hgood) as (m4 & -> & B4).
  - unfold NINODES. cbn [length]. lia.
  - change (MAXFILE * BSIZE) with 274432. rewrite length_app, !length_dirent. lia.
  - cbn [length app]. change (2 + Z.of_nat 0) with 2. rewrite total_cons. lia.
  - exists m4. split; [|done]. cbn [concat]. cbn [length app] in B4. change (2 + Z.of_nat 0) with 2 in B4. by rewrite app_assoc.
Qed.

(** ** The finished image *)

Lemma view_iupdate_bytes din m :
  well m -> inode_ok nmeta (view din m) 0 -> 0 <= inum din < NINODES ->
  inode_ok nmeta (view din (wr (inum din) din m)) 0 /\ file_of (view din (wr (inum din) din m)) 0 = file_of (view din m) 0.
Proof.
  intros W I Hn. rewrite wr_view by done. destruct (iupdate_ok nmeta _ 0 (view_ok din m W) I) as (_ & I' & Eit & _ & _ & _ & Ee & Ed).
  split; [done|]. unfold file_of. assert (geti (iupdate 0 (view din m)) 0 = geti (view din m) 0) as Eg by (unfold geti; by rewrite Eit).
  rewrite Eg. apply bytes_from_ext. intros x Hx. rewrite Z.add_0_l in Hx. pose proof (io_size _ _ _ I) as Hs.
  assert (in_file (x / BSIZE)) as Hin by (apply in_file_div; lia).
  apply (byte_ext nmeta); [done|done| |by apply Ee|exact Ed]. apply (io_full _ _ _ I); [done|].
  pose proof (Z.mul_div_le x BSIZE). unfold BSIZE in *. lia.
Qed.

(** The root directory's size is rounded up over zeros. *)
Lemma fix_root_spec m r fl :
  built m ((T_DIR, r) :: fl) -> Z.of_nat (length r) mod BSIZE <> 0 -> Z.of_nat (length r) < MAXFILE * BSIZE ->
  exists m' k, fix_root m = Ret m' /\ well m' /\ freeblock m' = freeblock m /\ file_ok m' 1 T_DIR (r ++ replicate k 0) /\
    Z.of_nat (length (r ++ replicate k 0)) mod BSIZE = 0 /\
    forall k ty c, fl !! k = Some (ty, c) -> file_ok m' (2 + Z.of_nat k) ty c.
Proof.
  intros [W _ _ Hfile Hap] Hmod Hlt. pose proof (Hfile 0%nat T_DIR r eq_refl) as F. change (1 + Z.of_nat 0) with 1 in F.
  pose proof (fo_inode _ _ _ _ F) as I. pose proof (fo_length _ _ _ _ F) as Hlen.
  set (off := Z.of_nat (length r)) in *. assert (MAXFILE * BSIZE = 274432) as EM by done. unfold BSIZE in Hmod.
  pose proof (Z.div_mod off 1024 ltac:(lia)) as Hdm. pose proof (Z.mod_pos_bound off 1024 ltac:(lia)) as Hmb.
  set (off' := (off / 1024 + 1) * 1024) in *.
  destruct (set_isize_ok nmeta (file_view 1 m) 0 off' (view_ok _ m W) I) as (_ & I2 & Esz & _ & Ebl & _ & Ee & _).
  { lia. }
  { intros bn Hbn Hb. apply (io_full _ _ _ I); [done|]. change (isize (geti (file_view 1 m) 0)) with (isize (din_of 1 m)).
    unfold BSIZE in *. lia. }
  set (din2 := let d := din_of 1 m in {| d with isize := off' |}).
  change (seti 0 _ (file_view 1 m)) with (view din2 m) in I2, Esz, Ebl, Ee.
  destruct (view_iupdate_bytes din2 m W I2) as [I3 Ef]; [done|]. change (inum din2) with 1 in I3, Ef.
  assert (fits din2) as F2 by (destruct (fo_fits _ _ _ _ F) as [G1 G2 G3 G4 G5 G6 G7]; constructor; try done; cbn; lia).
  assert (din_of 1 (wr 1 din2 m) = din2) as Ed by (by rewrite din_of_wr, decide_True by done).
  assert (file_of (view din2 m) 0 = r ++ replicate (Z.to_nat (off' - off)) 0) as Efile.
  { unfold file_of. rewrite Esz. replace off' with (off + (off' - off)) at 1 by lia. rewrite bytes_from_app by lia. f_equal.
    - rewrite <- (fo_bytes _ _ _ _ F) at 1. unfold file_of. change (isize (geti (file_view 1 m) 0)) with (isize (din_of 1 m)). rewrite Hlen.
      apply bytes_from_ext. intros x Hx. unfold byte. by rewrite Ee, Ebl.
    - apply list_eq. intros i. destruct (decide (i < Z.to_nat (off' - off))%nat) as [Hi|Hi].
      + rewrite lookup_bytes_from, lookup_replicate_2 by done. f_equal. unfold byte. rewrite Ee, Ebl.
        assert (in_file ((0 + off + Z.of_nat i) / BSIZE)) as Hin by (apply in_file_div; unfold BSIZE in *; lia).
        apply (fo_blank _ _ _ _ F); [lia|done|]. rewrite <- Ee. apply (io_full _ _ _ I2); [done|]. rewrite Esz.
        pose proof (Z.mul_div_le (0 + off + Z.of_nat i) BSIZE). unfold BSIZE in *. lia.
      + rewrite !lookup_ge_None_2; [done|by rewrite length_replicate; lia|by rewrite length_bytes_from; lia]. }
  assert (forall n b ty c, file_ok m n ty c -> owns (file_view n m) b -> blocks (view din2 (wr 1 din2 m)) b = blocks (file_view n m) b) as Hsame0.
  { intros n b ty c Fn Hb. destruct (owns_used _ _ _ (fo_inode _ _ _ _ Fn) Hb) as [[Hd _] _]. change nmeta with 47 in Hd.
    unfold file_view. rewrite !blocks_view by (change (bmapstart the_sb) with 46; lia).
    unfold wr. cbn [wsect im]. by rewrite disk_upd_ne by (pose proof (iblock_range 1 ltac:(done)); lia). }
  assert (forall b, owns (file_view 1 m) b -> blocks (view din2 (wr 1 din2 m)) b = blocks (file_view 1 m) b) as Hsame by (intros b; by eapply Hsame0).
  exists (wr 1 din2 m), (Z.to_nat (off' - off)). split_and!.
  - unfold fix_root. change ROOTINO with 1. rewrite rinode_ok by done. unfold mbind, outcome_bind. rewrite Hlen.
    rewrite (xint_small off) by lia. unfold BSIZE. fold off'. rewrite wrapu_small, xint_small by lia. by apply winode_ok.
  - by apply wr_well.
  - done.
  - constructor; unfold file_view; rewrite ?Ed; [done|by rewrite Ef|exact (fo_type _ _ _ _ F)|exact (fo_nlink _ _ _ _ F)|done|].
    destruct (entry_ext (file_view 1 m) (view din2 (wr 1 din2 m)) 0) as [_ Ee2]; [done| |].
    { intros Hne x. rewrite Hsame; [done|]. split; [done|by left]. }
    intros x Hx. apply (blank_ext _ _ _ Hsame Ee2 (fo_blank _ _ _ _ F)). rewrite length_app in Hx. lia.
  - rewrite length_app, length_replicate, Nat2Z.inj_add, Z2Nat.id by lia. fold off. replace (off + (off' - off)) with ((off / 1024 + 1) * BSIZE) by (unfold BSIZE; lia).
    by apply Z.mod_mul.
  - intros k ty c Hk. pose proof (Hfile (S k) ty c Hk) as Fk. replace (1 + Z.of_nat (S k)) with (2 + Z.of_nat k) in Fk by lia.
    apply (file_ok_frame m); [done|by rewrite din_of_wr, decide_False by (done || lia)|].
    intros b Hb. split; [exact (Hsame0 _ _ _ _ Fk Hb)|]. destruct (owns_used _ _ _ (fo_inode _ _ _ _ Fk) Hb) as [[Hd1 Hd2] Hu].
    change nmeta with 47 in Hd1. unfold file_view in *. change (size (sb (view (din_of (2 + Z.of_nat k) m) m))) with FSSIZE in Hd2.
    rewrite used_view in Hu |- * by (done || lia || by apply wr_well). exact Hu.
Qed.

(** ** Loading an inode *)

(** A table entry that has the fields of an inode elsewhere is the same file. *)
Lemma inode_move ds s i s' j :
  inode_ok ds s i -> blocks s' = blocks s -> sb s' = sb s -> (j < length (itable s'))%nat ->
  isize (geti s' j) = isize (geti s i) -> inum (geti s' j) = inum (geti s i) -> addrs (geti s' j) = addrs (geti s i) ->
  inode_ok ds s' j /\ file_of s' j = file_of s i.
Proof.
  intros [I1 I2 I3 I4 I5 I6 I7 I8] Eb Es Hj Esz Ein Ead.
  assert (ind s' j = ind s i) as Ei by (unfold ind, addr; by rewrite Ead).
  assert (forall bn, entry s' j bn = entry s i bn) as Ee by (intros bn; unfold entry, addr; by rewrite Ei, Ead, Eb).
  assert (forall b, used s' b = used s b) as Eu by (intros b; unfold used, BBLOCK; by rewrite Eb, Es).
  split.
  - constructor; rewrite ?Ei, ?Es, ?Ein, ?Esz, ?Ead; try done.
    + intros bn Hbn. rewrite Ee, Eu. unfold is_data. rewrite Es. by apply I4.
    + rewrite Eu. unfold is_data. by rewrite Es.
    + intros b c Hb Hc. rewrite !Ee. by apply I6.
    + intros bn Hbn. rewrite Ee. by apply I8.
  - unfold file_of, bytes_from. rewrite Esz. apply list_fmap_ext. intros k x _. unfold byte. by rewrite Ee, Eb.
Qed.

Section Boot.
Context (m : image).

(** The kernel on the image, with the inode table [it]. *)
Definition on_image (it : list inode) : fs := mk_fs (blocks (file_view 1 m)) it the_sb.

Definition fresh (n : Z) : inode := {| zero_inode with dev := ROOTDEV; inum := n; ref := 1 |}.
Definition held (n : Z) : inode :=
  let ip := with_dinode (fresh n) (din_of n m) in {| ip with locked := true; valid := true |}.

Lemma geti_image it i ip : it !! i = Some ip -> geti (on_image it) i = ip.
Proof. intros Hi. unfold geti. cbn [on_image itable]. by rewrite Hi. Qed.

Lemma seti_image it i ip : seti i ip (on_image it) = on_image (<[i := ip]> it).
Proof. done. Qed.

Lemma ilock_fresh n it i :
  0 <= n < NINODES -> type (din_of n m) <> 0 -> it !! i = Some (fresh n) ->
  ilock i (on_image it) = Ret (on_image (<[i := held n]> it)).
Proof.
  intros Hn Hty Hi. pose proof (lookup_lt_Some _ _ _ Hi) as Hlt. unfold ilock. rewrite (geti_image it i _ Hi).
  change (ref (fresh n) <? 1) with false. change (locked (fresh n)) with false. cbv iota zeta.
  rewrite seti_image, (geti_image _ i _ (list_lookup_insert_eq _ _ _ Hlt)). cbn [valid fresh]. rewrite seti_image.
  change (inum _) with n. change (IBLOCK n (on_image _)) with (iblock n). cbn [on_image blocks].
  change (blocks (file_view 1 m)) with (blocks (view (din_of 1 m) m)). pose proof (iblock_range n Hn).
  rewrite blocks_view by (change (bmapstart the_sb) with 46; lia).
  change (get_dinode ?ip (im m (iblock n)) (dinode n)) with (with_dinode ip (din_of n m)).
  change (type (with_dinode _ ?d)) with (type d). rewrite (proj2 (Z.eqb_neq _ _)) by done.
  f_equal. unfold on_image. f_equal. rewrite list_insert_insert_eq. f_equal.
Qed.

(** A file of the image, loaded in the table. *)
Lemma held_ok n ty c it i :
  file_ok m n ty c -> it !! i = Some (held n) -> inode_ok nmeta (on_image it) i /\ file_of (on_image it) i = c.
Proof.
  intros F Hi. rewrite <- (fo_bytes _ _ _ _ F). apply inode_move; try done; try (by rewrite (geti_image it i _ Hi)).
  - exact (fo_inode _ _ _ _ F).
  - by eapply lookup_lt_Some.
Qed.

Definition empties (k : nat) : list inode := replicate k zero_inode.

Lemma iget_root : iget ROOTDEV ROOTINO (on_image (empties NINODE)) = Ret (0%nat, on_image (fresh 1 :: empties 49)).
Proof. reflexivity. Qed.

Lemma iget_second n : n <> 1 -> iget ROOTDEV n (on_image (held 1 :: empties 49)) = Ret (1%nat, on_image (held 1 :: fresh n :: empties 48)).
Proof.
  intros Hn. unfold iget. cbn [on_image itable find_idx].
  assert (same_inode ROOTDEV n (held 1) = false) as ->.
  { unfold same_inode. change (inum (held 1)) with 1. rewrite (proj2 (Z.eqb_neq 1 n)) by done. by rewrite andb_false_r. }
  assert (find_idx (same_inode ROOTDEV n) (empties 49) = None) as -> by reflexivity.
  reflexivity.
Qed.

Definition left_root : inode := let ip := held 1 in {| ip with locked := false; ref := 0 |}.

Lemma release_root n :
  nlink (din_of 1 m) = 1 ->
  iunlockput 0 (on_image (held 1 :: fresh n :: empties 48)) = Ret (on_image (left_root :: fresh n :: empties 48)).
Proof.
  intros Hl. unfold iunlockput, iunlock. change (geti (on_image (?x :: ?l)) 0) with x.
  change (negb (locked (held 1)) || (ref (held 1) <? 1)) with false. cbv iota. unfold mbind, outcome_bind. rewrite seti_image.
  cbn [insert list_insert]. unfold iput. change (geti (on_image (?x :: ?l)) 0) with x. cbn [ref valid nlink held with_dinode].
  assert ((nlink (din_of 1 m) =? 0) = false) as -> by (by rewrite Hl). rewrite andb_false_r. change (geti (on_image (?x :: ?l)) 0) with x. reflexivity.
Qed.

End Boot.

(** ** Names and paths *)

Definition plain_name (nm : list Z) : Prop :=
  nm <> [] /\ Forall (fun c => 0 < c < 256 /\ c <> SLASH) nm /\ (length nm <= 14)%nat.

Lemma plain_bytes nm : plain_name nm -> Forall is_byte nm.
Proof. intros (_ & Hf & _). eapply Forall_impl; [exact Hf|]. intros x [? _]. unfold is_byte. lia. Qed.

Lemma c_string_plain nm l : Forall (fun c => 0 < c < 256 /\ c <> SLASH) nm -> c_string (nm ++ 0 :: l) = nm /\ c_string nm = nm.
Proof.
  induction 1 as [|c nm [Hc _] _ [IH1 IH2]]; [done|]. cbn. rewrite (proj2 (Z.eqb_neq c 0)) by lia. by rewrite IH1, IH2.
Qed.

Lemma key_plain nm : plain_name nm -> key nm = nm.
Proof. intros (_ & Hf & Hl). unfold key. rewrite take_ge by done. by apply (c_string_plain nm []). Qed.

Lemma take_elem_plain nm : Forall (fun c => 0 < c < 256 /\ c <> SLASH) nm -> take_elem nm = (nm, []).
Proof. induction 1 as [|c nm [_ Hc] _ IH]; [done|]. cbn. rewrite (proj2 (Z.eqb_neq c SLASH)) by done. by rewrite IH. Qed.

Lemma skipelem_plain nm junk :
  plain_name nm -> Forall is_byte junk -> exists buf, skipelem (SLASH :: nm) junk = Some ([], buf) /\ key buf = nm /\ Forall is_byte buf.
Proof.
  intros (Hne & Hf & Hl) Hj. unfold skipelem. cbn [skip_slashes]. change (SLASH =? SLASH) with true. cbv iota.
  assert (skip_slashes nm = nm) as ->.
  { destruct nm as [|c nm]; [done|]. cbn. apply Forall_cons in Hf as [[_ Hc] _]. by rewrite (proj2 (Z.eqb_neq c SLASH)). }
  rewrite take_elem_plain by done. destruct nm as [|c nm]; [done|]. eexists. split; [reflexivity|].
  remember (c :: nm) as e eqn:Ee.
  assert (Forall is_byte e) as Hb by by apply plain_bytes.
  change (0 :: drop ?k junk) with ([0] ++ drop k junk).
  destruct (Z.leb_spec DIRSIZ (Z.of_nat (length e))) as [H|H].
  - rewrite take_ge by done. split; [|done]. unfold key. rewrite take_ge by done. by apply (c_string_plain e []).
  - unfold DIRSIZ in H. split.
    + unfold key. rewrite take_app_ge by lia. replace (14 - length e)%nat with (S (13 - length e)) by lia. cbn [app take].
      by apply c_string_plain.
    + apply Forall_app_2; [done|]. apply Forall_app_2; [repeat constructor; unfold is_byte; lia|by apply Forall_drop].
Qed.

(** The entry of a file in the root directory. *)
Lemma dirs_map fs : forall n k f nm,
  Forall (fun g => plain_name (file_name g)) fs -> NoDup (file_name <$> fs) -> fs !! k = Some f ->
  0 < n -> n + Z.of_nat (length fs) < 2 ^ 16 -> Forall is_byte nm -> key nm = file_name f ->
  dir_map (dirs n fs) nm = Some (n + Z.of_nat k).
Proof.
  induction fs as [|g fs IH]; intros n k f nm Hp Hnd Hk Hn Hlen Hb Hkey; [done|]. cbn [dirs dir_map].
  apply Forall_cons in Hp as [Hg Hp]. apply NoDup_cons in Hnd as [Hnin Hnd]. cbn [length] in Hlen.
  assert (Forall is_byte (file_name g)) as Hgb by by apply plain_bytes.
  destruct k as [|k].
  - injection Hk as ->. assert (in_use nm (dirent n (file_name f)) = true) as ->.
    { apply dirent_in_use; [done|by apply dirent_entry|]. rewrite de_inum_dirent, key_dirent, (key_plain (file_name f)) by (done || lia). split; [lia|done]. }
    rewrite de_inum_dirent by lia. f_equal. lia.
  - assert (in_use nm (dirent n (file_name g)) = false) as ->.
    { apply not_true_is_false. intros H. apply dirent_in_use in H; [|done|by apply dirent_entry].
      rewrite key_dirent, (key_plain (file_name g)) in H by done. destruct H as [_ H]. apply Hnin. rewrite <- H, Hkey.
      apply list_elem_of_fmap_2. by eapply list_elem_of_lookup_2. }
    rewrite (IH (n + 1) k f nm) by (done || lia). f_equal. lia.
Qed.


(** The files' names are different plain names. *)
Record names_ok (fs : list input) : Prop := mk_names_ok {
  na_plain : Forall (fun f => plain_name (file_name f)) fs;
  na_nodup : NoDup ([DOT] :: [DOT; DOT] :: (file_name <$> fs))
}.

Lemma dirs_entries n fs : Forall (fun f => plain_name (file_name f)) fs -> Forall is_entry (dirs n fs).
Proof.
  intros H. revert n. induction H as [|f fs Hf _ IH]; intros n; [by constructor|]. constructor; [|apply IH].
  by apply dirent_entry, plain_bytes.
Qed.

Lemma length_dirs n fs : length (dirs n fs) = length fs.
Proof. revert n. induction fs as [|f fs IH]; intros n; [done|]. cbn. by rewrite IH. Qed.

Lemma plain_dots : plain_name [DOT] /\ plain_name [DOT; DOT].
Proof. unfold plain_name, DOT, SLASH. split; (split; [done|]); (split; [repeat constructor; lia|cbn; lia]). Qed.

Lemma root_entries fs : names_ok fs -> Forall is_entry (root_dir fs).
Proof.
  intros [Hp _]. destruct plain_dots as [P1 P2]. unfold root_dir.
  apply Forall_cons; split; [by apply dirent_entry, plain_bytes|].
  apply Forall_cons; split; [by apply dirent_entry, plain_bytes|by apply dirs_entries].
Qed.

(** Other names come after the two entries of dots; padding holds no name. *)
Lemma root_map fs k f nm pad :
  names_ok fs -> 2 + Z.of_nat (length fs) <= NINODES -> fs !! k = Some f -> Forall is_byte nm -> key nm = file_name f ->
  dir_map (root_dir fs ++ replicate pad (replicate 16 0)) nm = Some (2 + Z.of_nat k).
Proof.
  intros [Hp Hnd] Hn Hk Hb Hkey. unfold NINODES in Hn. destruct plain_dots as [P1 P2].
  apply NoDup_cons in Hnd as [N1 Hnd]. apply NoDup_cons in Hnd as [N2 Hnd].
  assert (file_name f ∈ file_name <$> fs) as Hin by (apply list_elem_of_fmap_2; by eapply list_elem_of_lookup_2).
  assert (forall d, plain_name d -> d <> file_name f -> in_use nm (dirent 1 d) = false) as Hdot.
  { intros d Hd Hne. apply not_true_is_false. intros H. apply dirent_in_use in H; [|done|].
    - rewrite key_dirent, (key_plain d), Hkey in H by done. by destruct H as [_ H].
    - by apply dirent_entry, plain_bytes. }
  assert ([DOT] <> file_name f) as E1 by (intros E; apply N1; rewrite E; by apply list_elem_of_further).
  assert ([DOT; DOT] <> file_name f) as E2 by (intros E; apply N2; by rewrite E).
  unfold root_dir. cbn [app dir_map]. rewrite !Hdot by done.
  rewrite dir_map_app. by rewrite (dirs_map fs 2 k f nm) by (done || lia).
Qed.

(** ** namei on the booted kernel *)

Lemma namei_file m fs pad k f cwd junk :
  file_ok m 1 T_DIR (concat (root_dir fs ++ replicate pad (replicate 16 0))) ->
  names_ok fs -> 2 + Z.of_nat (length fs) <= NINODES -> fs !! k = Some f -> Forall is_byte junk ->
  let n := 2 + Z.of_nat k in
  namei cwd (SLASH :: file_name f) junk (on_image m (empties NINODE)) =
    Ret (Some 1%nat, on_image m (left_root m :: fresh n :: empties 48)).
Proof.
  intros F Hnames Hn Hk Hj n. pose proof (Forall_lookup_1 _ _ _ _ (na_plain _ Hnames) Hk) as Hplain.
  destruct (skipelem_plain (file_name f) junk Hplain Hj) as (buf & Hs & Hkey & Hbuf).
  unfold namei, namex. cbn [List.hd]. change (bool_decide (SLASH = SLASH)) with true. cbv iota. rewrite iget_root.
  unfold mbind, outcome_bind. cbn [namex_loop length]. rewrite Hs.
  rewrite (ilock_fresh m 1 (fresh 1 :: empties 49) 0); [|done|by rewrite (fo_type _ _ _ _ F)|done].
  unfold mbind, outcome_bind. change (<[0%nat := held m 1]> (fresh 1 :: empties 49)) with (held m 1 :: empties 49).
  change (geti (on_image m (held m 1 :: empties 49)) 0) with (held m 1).
  change (type (held m 1)) with (type (din_of 1 m)). rewrite (fo_type _ _ _ _ F). change (negb (T_DIR =? T_DIR)) with false. cbn [andb].
  destruct (held_ok m 1 _ _ (held m 1 :: empties 49) 0 F eq_refl) as [I Hf].
  assert (is_dir nmeta (on_image m (held m 1 :: empties 49)) 0 (root_dir fs ++ replicate pad (replicate 16 0))) as D.
  { constructor; [done|exact (fo_type _ _ _ _ F)| |done]. apply Forall_app_2; [by apply root_entries|].
    apply Forall_replicate. split; [done|]. apply Forall_replicate. unfold is_byte. lia. }
  pose proof (dirlookup_spec _ _ _ _ buf D) as L.
  pose proof (root_map fs k f buf pad Hnames Hn Hk Hbuf Hkey) as M. rewrite dir_map_find in M.
  destruct (find_idx (in_use buf) _) as [j|]; [|done]. apply (inj Some) in M. rewrite M in L.
  change (dev (geti (on_image m (held m 1 :: empties 49)) 0)) with ROOTDEV in L.
  rewrite iget_second in L by (unfold n; lia). unfold mbind, outcome_bind in L. rewrite L. fold n.
  rewrite (release_root m n) by exact (fo_nlink _ _ _ _ F).
  by destruct (file_name f).
Qed.

Lemma concat_zeros p : replicate (16 * p) 0 = concat (replicate p (replicate 16 0)).
Proof.
  induction p as [|p IH]; [done|]. replace (16 * S p)%nat with (16 + 16 * p)%nat by lia. rewrite replicate_add, IH. done.
Qed.

(** (C24) What mkfs writes the kernel reads back.  For any files whose names, sizes and
    number fit the disk, however their bytes come in, mkfs ends with an image on
    which fsinit finds a file system with a well-formed free map; namei of a file's
    name from the root then gives an inode that ilock loads, of type T_FILE with one
    link and the number mkfs gave it, which is a well-formed file, and readi of it
    returns exactly the bytes of the host's file. *)
Theorem mkfs_image_readable (fs : list input) :
  fits_image fs -> names_ok fs ->
  exists img, mkfs fs = Ret img /\
    (forall it sb0, fsinit (mk_fs (im img) it sb0) = Ret (mk_fs (im img) it the_sb)) /\
    (forall it, fs_ok nmeta (mk_fs (im img) it the_sb)) /\
    forall k f cwd junk n, fs !! k = Some f -> Forall is_byte junk -> Z.of_nat (length (bytes f)) <= n < 2 ^ 32 ->
      exists i s1 s2, namei cwd (SLASH :: file_name f) junk (mk_fs (im img) (replicate NINODE zero_inode) the_sb) = Ret (Some i, s1) /\
        ilock i s1 = Ret s2 /\ inum (geti s2 i) = 2 + Z.of_nat k /\ type (geti s2 i) = T_FILE /\ nlink (geti s2 i) = 1 /\
        inode_ok nmeta s2 i /\ readi i 0 n s2 = Ret (bytes f, s2).
Proof.
  intros Hfit Hnames. pose proof Hfit as [_ Hn _ Hroot]. destruct (mkfs_builds fs Hfit) as (m & B & E).
  assert (length (concat (root_dir fs)) = 16 * (length fs + 2))%nat as Hlen.
  { rewrite length_concat_entries by by apply root_entries. unfold root_dir. cbn [length]. rewrite length_dirs. lia. }
  unfold NINODES in Hn. unfold contents in B.
  destruct (fix_root_spec m _ _ B) as (m' & z & Ef & W & Hfb & F & Hmod & Hfile).
  { rewrite Hlen. unfold BSIZE. intros Hz. apply Hroot. apply Z.mod_divide in Hz as [q Hq]; [|lia].
    apply Z.mod_divide; [lia|]. exists q. lia. }
  { rewrite Hlen. change (MAXFILE * BSIZE) with 274432. lia. }
  assert (exists pad, concat (root_dir fs) ++ replicate z 0 = concat (root_dir fs ++ replicate pad (replicate 16 0))) as [pad Epad].
  { rewrite length_app, length_replicate, Hlen in Hmod. unfold BSIZE in Hmod.
    apply Z.mod_divide in Hmod as [q Hq]; [|lia]. exists (Z.to_nat (64 * q - Z.of_nat (length fs) - 2)). rewrite concat_app. f_equal.
    replace z with (16 * Z.to_nat (64 * q - Z.of_nat (length fs) - 2))%nat by lia. apply concat_zeros. }
  rewrite Epad in F.
  exists (wsect (bmapstart the_sb) (bits (freeblock m')) m'). split_and!.
  - rewrite E, Ef. unfold mbind, outcome_bind, Mkfs.balloc. pose proof (we_block _ W) as Hb. unfold FSSIZE in Hb. change BPB with 8192.
    by rewrite (proj2 (Z.ltb_lt _ _)) by lia.
  - intros it sb0. unfold fsinit. cbn [blocks wsect im].
    rewrite disk_upd_ne by done. rewrite (we_sb _ W). reflexivity.
  - intros it. destruct (view_ok (din_of 1 m') m' W) as [O1 O2 O3 O4 O5]. by constructor.
  - intros k f cwd junk n Hk Hj Hbytes.
    change (mk_fs (im (wsect _ _ m')) (replicate NINODE zero_inode) the_sb) with (on_image m' (empties NINODE)).
    eexists 1%nat, _, _. split; [by apply (namei_file m' fs pad k f)|].
    assert (file_ok m' (2 + Z.of_nat k) T_FILE (bytes f)) as Fk by (apply Hfile; by rewrite list_lookup_fmap, Hk).
    pose proof (lookup_lt_Some _ _ _ Hk) as Hlt.
    rewrite (ilock_fresh m' (2 + Z.of_nat k)); [|unfold NINODES; lia|by rewrite (fo_type _ _ _ _ Fk)|done]. split; [done|].
    change (geti (on_image m' (<[1%nat := ?h]> _)) 1) with h.
    assert ((<[1%nat := held m' (2 + Z.of_nat k)]> (left_root m' :: fresh (2 + Z.of_nat k) :: empties 48)) !! 1%nat = Some (held m' (2 + Z.of_nat k))) as Hi
      by (apply list_lookup_insert_eq; cbn [length]; lia).
    destruct (held_ok m' _ _ _ _ 1 Fk Hi) as [I Hf].
    split_and!; [done|exact (fo_type _ _ _ _ Fk)|exact (fo_nlink _ _ _ _ Fk)|exact I|].
    rewrite (readi_spec nmeta _ 1 0 n I) by lia. rewrite Hf. f_equal. f_equal. unfold Vm.readi.
    rewrite (proj2 (Z.ltb_ge _ 0)), (wrapu_small 32), (proj2 (Z.ltb_ge _ 0)) by lia. cbn [orb]. change (Z.to_nat 0) with 0%nat. rewrite drop_0.
    apply take_ge. destruct (_ <? _); lia.
Qed.

(** user/_ab, which the host's read gives in two pieces. *)
Definition one_file : list input := [mk_input (USER ++ [95; 97; 98]) (Some [[1; 2; 3]; [4]])].

Lemma mkfs_image_readable_witness :
  exists img, mkfs one_file = Ret img /\ exists i s1 s2,
    namei 0 [47; 97; 98] [] (mk_fs (im img) (replicate NINODE zero_inode) the_sb) = Ret (Some i, s1) /\ ilock i s1 = Ret s2 /\
    readi i 0 1024 s2 = Ret ([1; 2; 3; 4], s2).
Proof.
  assert (fits_image one_file) as Hfit.
  { constructor; [|by vm_compute|by vm_compute|by vm_compute]. apply Forall_singleton. constructor; [reflexivity|by vm_compute|by eexists|by vm_compute]. }
  assert (names_ok one_file) as Hnames.
  { constructor.
    - apply Forall_singleton. split; [done|]. split; [|cbn; lia]. change (file_name _) with [97; 98]. unfold SLASH. repeat constructor; lia.
    - apply (bool_decide_unpack _). vm_compute. exact I. }
  destruct (mkfs_image_readable one_file Hfit Hnames) as (img & E & _ & _ & H). exists img. split; [exact E|].
  destruct (H 0%nat _ 0%nat [] 1024 eq_refl (Forall_nil_2 _) ltac:(cbn; lia)) as (i & s1 & s2 & H1 & H2 & _ & _ & _ & _ & H3).
  exists i, s1, s2. split; [exact H1|]. split; [exact H2|exact H3].
Defined.

End MkfsRun.
