(* ===== verification/Cshark.v ===== *)
(** * The packet sniffer (packet-sniffer/cshark.c, cshark.h)

    A captured packet is the list of its [caplen] bytes; every load from it
    names its offset and is [Undef] past the captured bytes.  What the program
    prints about a packet is a [report]: the values in the order of the
    layers, without the layout of the text.  libpcap, the allocator and the
    keyboard are arguments. *)
From S2P Require Import Prelude.

#[local] Open Scope Z_scope.

Module Cshark.

(** ** Loads from the packet *)

Definition rd (p : list Z) (i : Z) : outcome Z :=
  if i <? 0 then Undef "before the packet"
  else match p !! Z.to_nat i with
       | Some b => Ret b
       | None => Undef "past the captured bytes"
       end.

(** [ntohs] and [ntohl] of a 16- and a 32-bit load. *)
Definition rd16 (p : list Z) (i : Z) : outcome Z :=
  a ← rd p i; b ← rd p (i + 1); Ret (a * 256 + b).
Definition rd32 (p : list Z) (i : Z) : outcome Z :=
  a ← rd16 p i; b ← rd16 p (i + 2); Ret (a * 65536 + b).

Fixpoint rds (p : list Z) (i : Z) (n : nat) : outcome (list Z) :=
  match n with
  | O => Ret []
  | S n => b ← rd p i; l ← rds p (i + 1) n; Ret (b :: l)
  end.

(** ** What is printed *)

Inductive l3_report :=
| L3None
| IPv4 (src dst : list Z) (protocol ttl id tot_len hlen : Z) (flags : list string)
| IPv6 (src dst : list Z) (nxt hlim tclass flow plen : Z)
| ARP (op hrd pro hln pln : Z) (smac sip tmac tip : list Z).

Inductive l4_report :=
| L4None
| TCP (sport dport seq ack : Z) (flags : list string) (window checksum data_offset : Z)
| UDP (sport dport len checksum : Z).

Record report := {
  packet_no : Z;
  ether : option (list Z * list Z * Z);      (* destination, source, EtherType *)
  l3 : l3_report;
  l4 : l4_report;
  port_names : option (string * string);     (* behind the ports, empty if unknown *)
  l7 : option (string * list Z);             (* protocol, the bytes shown *)
  first : list Z }.

Definition ETHERTYPE_IP : Z := 0x800.
Definition ETHERTYPE_IPV6 : Z := 0x86dd.
Definition ETHERTYPE_ARP : Z := 0x806.

(** The names whose bit is set. *)
Definition set_names (x : Z) (names : list (Z * string)) : list string :=
  (fun n => n.2) <$> List.filter (fun n => has_flag x n.1) names.

Definition ip_flags (frag_off : Z) : list string :=
  let flags := Z.land frag_off 0xE000 in
  set_names flags [(0x8000, "[Reserved]"); (0x4000, "[DF]"); (0x2000, "[MF]")]
  ++ (if has_flag flags 0xE000 then [] else ["[None]"]).

Definition tcp_flags (flags : Z) : list string :=
  set_names flags [(0x01, "FIN"); (0x02, "SYN"); (0x04, "RST"); (0x08, "PSH");
                   (0x10, "ACK"); (0x20, "URG"); (0x40, "ECE"); (0x80, "CWR")].

(** Layer 3 leaves [l4_proto], [l4_offset] and [l4_len]. *)
Definition l3_result : Type := l3_report * Z * Z * Z.

Definition decode_ipv4 (p : list Z) (l3_len : Z) : outcome l3_result :=
  saddr ← rds p 26 4;
  daddr ← rds p 30 4;
  protocol ← rd p 23;
  ttl ← rd p 22;
  id ← rd16 p 18;
  tot_len ← rd16 p 16;
  vhl ← rd p 14;
  frag_off ← rd16 p 20;
  let hlen := Z.land vhl 15 * 4 in
  Ret (IPv4 saddr daddr protocol ttl id tot_len hlen (ip_flags frag_off),
       protocol, hlen, l3_len - hlen).

Definition decode_ipv6 (p : list Z) (l3_len : Z) : outcome l3_result :=
  src ← rds p 22 16;
  dst ← rds p 38 16;
  nxt ← rd p 20;
  hlim ← rd p 21;
  word ← rd32 p 14;
  plen ← rd16 p 18;
  Ret (IPv6 src dst nxt hlim (u8 (Z.shiftr (Z.land word 0x0FF00000) 20)) (Z.land word 0x000FFFFF) plen,
       nxt, 40, l3_len - 40).

Definition decode_arp (p : list Z) : outcome l3_result :=
  op ← rd16 p 20;
  hrd ← rd16 p 14;
  pro ← rd16 p 16;
  hln ← rd p 18;
  pln ← rd p 19;
  smac ← rds p 22 6;
  sip ← rds p 28 4;
  tmac ← rds p 32 6;
  tip ← rds p 38 4;
  Ret (ARP op hrd pro hln pln smac sip tmac tip, -1, 0, 0).

Definition decode_l3 (p : list Z) (caplen eth_type : Z) : outcome l3_result :=
  if caplen <? 14 then Ret (L3None, -1, 0, 0)
  else
    let l3_len := i32 (caplen - 14) in
    if (eth_type =? ETHERTYPE_IP) && (20 <=? l3_len) then decode_ipv4 p l3_len
    else if (eth_type =? ETHERTYPE_IPV6) && (40 <=? l3_len) then decode_ipv6 p l3_len
    else if (eth_type =? ETHERTYPE_ARP) && (8 <=? l3_len) then decode_arp p
    else Ret (L3None, -1, 0, 0).

(** Layer 4 leaves [l7_offset], [l7_len] and [l7_proto] (1 TCP, 2 UDP). *)
Definition l4_result : Type := l4_report * Z * Z * Z.

Definition decode_tcp (p : list Z) (caplen l4_offset : Z) : outcome l4_result :=
  let l4 := 14 + l4_offset in
  sport ← rd16 p l4;
  dport ← rd16 p (l4 + 2);
  seq ← rd32 p (l4 + 4);
  ack ← rd32 p (l4 + 8);
  b12 ← rd p (l4 + 12);
  flags ← rd p (l4 + 13);
  checksum ← rd16 p (l4 + 16);
  window ← rd16 p (l4 + 14);
  let data_offset := u8 (Z.shiftr (Z.land b12 0xF0) 4 * 4) in
  let l7_offset := 14 + l4_offset + data_offset in
  Ret (TCP sport dport seq ack (tcp_flags flags) window checksum data_offset,
       l7_offset, i32 (caplen - l7_offset), 1).

Definition decode_udp (p : list Z) (caplen l4_offset : Z) : outcome l4_result :=
  let l4 := 14 + l4_offset in
  sport ← rd16 p l4;
  dport ← rd16 p (l4 + 2);
  len ← rd16 p (l4 + 4);
  checksum ← rd16 p (l4 + 6);
  let l7_offset := 14 + l4_offset + 8 in
  Ret (UDP sport dport len checksum, l7_offset, i32 (caplen - l7_offset), 2).

Definition decode_l4 (p : list Z) (caplen l4_proto l4_offset l4_len : Z) : outcome l4_result :=
  if (l4_proto =? 6) && (20 <=? l4_len) then decode_tcp p caplen l4_offset
  else if (l4_proto =? 17) && (8 <=? l4_len) then decode_udp p caplen l4_offset
  else Ret (L4None, 0, 0, 0).

(** The first name one of whose ports is the source or destination port. *)
Fixpoint by_port (sport dport : Z) (table : list (list Z * string)) (dflt : string) : string :=
  match table with
  | [] => dflt
  | (ports, name) :: rest =>
      if existsb (fun q => (sport =? q) || (dport =? q)) ports then name
      else by_port sport dport rest dflt
  end.

Definition TCP_PORTS : list (list Z * string) :=
  [([80], "HTTP"); ([443], "HTTPS"); ([22], "SSH"); ([25], "SMTP"); ([110], "POP3");
   ([143], "IMAP"); ([21], "FTP"); ([23], "TELNET"); ([53], "DNS")].
Definition UDP_PORTS : list (list Z * string) :=
  [([53], "DNS"); ([67; 68], "DHCP"); ([123], "NTP"); ([69], "TFTP")].

Definition app_proto (r : l4_report) : string :=
  match r with
  | TCP s d _ _ _ _ _ _ => by_port s d TCP_PORTS "Unknown"
  | UDP s d _ _ => by_port s d UDP_PORTS "Unknown"
  | L4None => "Unknown"
  end.

(** The names layer 4 prints behind the source and the destination port. *)
Definition port_tags (r : l4_report) : option (string * string) :=
  match r with
  | TCP s d _ _ _ _ _ _ => Some (by_port s s TCP_PORTS "", by_port d d TCP_PORTS "")
  | UDP s d _ _ => Some (by_port s s UDP_PORTS "", by_port d d UDP_PORTS "")
  | L4None => None
  end%string.

Definition decode_l7 (p : list Z) (caplen : Z) (r : l4_report) (l7_offset l7_len : Z)
    : outcome (option (string * list Z)) :=
  if (0 <? l7_len) && (l7_offset <? i32 caplen) then
    let show := if 64 <? l7_len then 64 else l7_len in
    bytes ← rds p l7_offset (Z.to_nat show);
    Ret (Some (app_proto r, bytes))
  else Ret None.

(** The ASCII column of the hex views. *)
Definition ascii_of (b : Z) : Z := if (32 <=? b) && (b <=? 126) then b else 46.

Definition decode_ether (p : list Z) : outcome (list Z * list Z * Z) :=
  dhost ← rds p 0 6; shost ← rds p 6 6; ty ← rd16 p 12; Ret (dhost, shost, ty).

(** process_packet, without the storing: the report. *)
Definition process_packet (p : list Z) (pkt_id : Z) : outcome report :=
  let caplen := Z.of_nat (length p) in
  eth ← (if 14 <=? caplen then e ← decode_ether p; Ret (Some e) else Ret None);
  let eth_type := match eth with Some (_, _, ty) => ty | None => 0 end in
  '(r3, l4_proto, l4_offset, l4_len) ← decode_l3 p caplen eth_type;
  '(r4, l7_offset, l7_len, _) ← decode_l4 p caplen l4_proto l4_offset l4_len;
  r7 ← decode_l7 p caplen r4 l7_offset l7_len;
  f ← rds p 0 (Z.to_nat (if caplen <? 16 then caplen else 16));
  Ret {| packet_no := pkt_id; ether := eth; l3 := r3; l4 := r4; port_names := port_tags r4;
         l7 := r7; first := f |}.

(** One line of print_hex_dump: its offset, its bytes, [None] where it is
    padded with blanks, and the ASCII column. *)
Definition dump_line : Type := Z * list (option Z) * list Z.

Fixpoint print_hex_dump (fuel : nat) (data : list Z) (i bpl : Z) : list dump_line :=
  match fuel with
  | O => []
  | S fuel =>
      if i <? Z.of_nat (length data) then
        let at_ := fun j => data !! Z.to_nat (i + Z.of_nat j) in
        let row := at_ <$> seq 0 (Z.to_nat bpl) in
        (i, row, ascii_of <$> omap id row) :: print_hex_dump fuel data (i + bpl) bpl
      else []
  end.

(** ** The summary of a session *)

Definition summary_tcp (s d : Z) : string :=
  by_port s d [([80], "HTTP"); ([443], "HTTPS"); ([53], "DNS")] "TCP".
Definition summary_udp (s d : Z) : string :=
  by_port s d [([53], "DNS"); ([67; 68], "DHCP")] "UDP".

Definition summary_l4 (p : list Z) (caplen l4 : Z) (name : Z -> Z -> string) (dflt : string)
    : outcome string :=
  if l4 + 4 <=? caplen then sport ← rd16 p l4; dport ← rd16 p (l4 + 2); Ret (name sport dport)
  else Ret dflt.

Definition get_protocol_info (p : list Z) : outcome string :=
  let caplen := Z.of_nat (length p) in
  if caplen <? 14 then Ret "Unknown"
  else
    eth_type ← rd16 p 12;
    if eth_type =? ETHERTYPE_ARP then Ret "ARP"
    else if (eth_type =? ETHERTYPE_IP) && (34 <=? caplen) then
      protocol ← rd p 23;
      vhl ← rd p 14;
      let l4 := 14 + Z.land vhl 15 * 4 in
      if protocol =? 6 then summary_l4 p caplen l4 summary_tcp "TCP"
      else if protocol =? 17 then summary_l4 p caplen l4 summary_udp "UDP"
      else Ret "IPv4"
    else if (eth_type =? ETHERTYPE_IPV6) && (54 <=? caplen) then
      nxt ← rd p 20;
      if nxt =? 6 then summary_l4 p caplen 54 summary_tcp "TCP"
      else if nxt =? 17 then summary_l4 p caplen 54 summary_udp "UDP"
      else Ret "IPv6"
    else Ret "Unknown".

(** The two address columns; [None] prints as N/A. *)
Definition get_src_dst_ips (p : list Z) : outcome (option (list Z * list Z)) :=
  let caplen := Z.of_nat (length p) in
  if caplen <? 14 then Ret None
  else
    eth_type ← rd16 p 12;
    if (eth_type =? ETHERTYPE_IP) && (34 <=? caplen) then
      s ← rds p 26 4; d ← rds p 30 4; Ret (Some (s, d))
    else if (eth_type =? ETHERTYPE_IPV6) && (54 <=? caplen) then
      s ← rds p 22 16; d ← rds p 38 16; Ret (Some (s, d))
    else Ret None.

(** ** The stored session *)

Definition MAX_PACKETS : Z := 10000.

Record stored_packet := { ts : Z * Z; packet_data : list Z; packet_id : Z }.

(** [packet_storage] is NULL or an array whose first [stored_packet_count]
    slots are the list. *)
Record session := { packet_storage : option (list stored_packet); session_exists : bool }.

Definition no_session : session := {| packet_storage := None; session_exists := false |}.

Definition stored_packet_count (s : session) : Z := Z.of_nat (length (default [] (packet_storage s))).

Definition free_packet_storage (s : session) : session :=
  {| packet_storage := None; session_exists := session_exists s |}.

(** [ok] tells whether malloc gives the array; without it the program exits. *)
Definition init_packet_storage (ok : bool) (s : session) : outcome session :=
  let s := free_packet_storage s in
  if ok then Ret {| packet_storage := Some []; session_exists := true |}
  else Panic "Failed to allocate memory for packet storage".

(** [ok] tells whether malloc gives the [caplen] bytes. *)
Definition store_packet (ok : bool) (t : Z * Z) (p : list Z) (pkt_id : Z) (s : session) : outcome session :=
  if MAX_PACKETS <=? stored_packet_count s then Ret s
  else match packet_storage s with
       | None => Undef "packet_storage is NULL"
       | Some a =>
           if ok then
             Ret {| packet_storage := Some (a ++ [{| ts := t; packet_data := p; packet_id := pkt_id |}]);
                    session_exists := session_exists s |}
           else Ret s
       end.

(** What pcap_next_ex delivers to the loop of sniff_all_packets and
    sniff_with_filter, and the moments a signal arrives. *)
Inductive capture_event :=
| Timeout
| Packet (t : Z * Z) (p : list Z) (malloc_ok : bool)
| Sigint.

(** The loop; the end of the list is an error or the end of the capture. *)
Fixpoint sniff_loop (keep_sniffing : bool) (evs : list capture_event) (pkt_id : Z) (s : session)
    : outcome (list report * session) :=
  match evs with
  | [] => Ret ([], s)
  | Sigint :: evs => sniff_loop false evs pkt_id s
  | Timeout :: evs => if keep_sniffing then sniff_loop true evs pkt_id s else Ret ([], s)
  | Packet t p ok :: evs =>
      if keep_sniffing then
        s ← store_packet ok t p pkt_id s;
        r ← process_packet p pkt_id;
        '(rs, s) ← sniff_loop true evs (i32 (pkt_id + 1)) s;
        Ret (r :: rs, s)
      else Ret ([], s)
  end.

(** [opened] tells whether pcap_open_live succeeds. *)
Definition sniff_all_packets (malloc_ok opened : bool) (evs : list capture_event) (s : session)
    : outcome (list report * session) :=
  s ← init_packet_storage malloc_ok s;
  if opened then sniff_loop true evs 1 s else Ret ([], s).

(** The filter menu: the BPF expression, or [None] for an invalid choice. *)
Definition filter_choice (c : Z) : option (string * string) :=
  match c with
  | 1 => Some ("tcp port 80", "HTTP")
  | 2 => Some ("tcp port 443", "HTTPS")
  | 3 => Some ("port 53", "DNS")
  | 4 => Some ("arp", "ARP")
  | 5 => Some ("tcp", "TCP")
  | 6 => Some ("udp", "UDP")
  | _ => None
  end%string.

(** [compiled]: pcap_compile and pcap_setfilter succeed. *)
Definition sniff_with_filter (choice : Z) (malloc_ok opened compiled : bool) (evs : list capture_event)
    (s : session) : outcome (list report * session) :=
  match filter_choice choice with
  | None => Ret ([], s)
  | Some _ =>
      s ← init_packet_storage malloc_ok s;
      if opened && compiled then sniff_loop true evs 1 s else Ret ([], s)
  end.

(** The table inspect_last_session prints, or [None] without data. *)
Definition summary_line : Type := Z * Z * option (list Z * list Z) * string.

Definition summarise (k : stored_packet) : outcome summary_line :=
  proto ← get_protocol_info (packet_data k);
  ips ← get_src_dst_ips (packet_data k);
  Ret (packet_id k, Z.of_nat (length (packet_data k)), ips, proto).

Fixpoint summarise_all (l : list stored_packet) : outcome (list summary_line) :=
  match l with
  | [] => Ret []
  | k :: l => x ← summarise k; r ← summarise_all l; Ret (x :: r)
  end.

Definition session_summary (s : session) : outcome (option (list summary_line)) :=
  if negb (session_exists s) || (stored_packet_count s =? 0) then Ret None
  else r ← summarise_all (default [] (packet_storage s)); Ret (Some r).

(** The packet with the number the user entered: its report and hex dump. *)
Definition inspect_packet (pkt_id : Z) (s : session) : outcome (option (report * list dump_line)) :=
  let a := default [] (packet_storage s) in
  match find_idx (fun k => packet_id k =? pkt_id) a with
  | None => Ret None
  | Some i =>
      match a !! i with
      | None => Undef "found"
      | Some k =>
          r ← process_packet (packet_data k) pkt_id;
          Ret (Some (r, print_hex_dump (length (packet_data k)) (packet_data k) 0 16))
      end
  end.

End Cshark.
