(* ===== verification/CsharkFacts.v ===== *)
(** * The packet sniffer reads what was captured, except for short ARP packets;
    the summary and the detailed view agree. *)
From S2P Require Import Prelude Cshark.

Import Cshark.

#[local] Open Scope Z_scope.

Module CsharkFacts.

Notation len p := (Z.of_nat (length p)).
Definition is_byte (b : Z) : Prop := 0 <= b < 256.

(** ** Loads *)

Lemma rd_in p i : 0 <= i < len p -> exists b, rd p i = Ret b /\ p !! Z.to_nat i = Some b.
Proof.
  intros Hi. unfold rd. destruct (lookup_lt_is_Some_2 p (Z.to_nat i)) as [b Hb]; [lia|].
  exists b. rewrite Hb. by destruct (Z.ltb_spec i 0); [lia|].
Qed.

Lemma rd_out p i : len p <= i -> exists w, rd p i = Undef w.
Proof.
  intros Hi. unfold rd. rewrite lookup_ge_None_2 by lia. by destruct (i <? 0); eexists.
Qed.

Lemma rd_cases p i : (exists b, rd p i = Ret b) \/ exists w, rd p i = Undef w.
Proof. unfold rd. destruct (i <? 0), (p !! Z.to_nat i); naive_solver. Qed.

Lemma rd_byte p i b : Forall is_byte p -> rd p i = Ret b -> is_byte b.
Proof.
  intros Hp. unfold rd. destruct (i <? 0); [done|]. destruct (p !! Z.to_nat i) eqn:E; [|done].
  intros [= <-]. by eapply Forall_lookup_1.
Qed.

Lemma rd16_in p i : 0 <= i -> i + 2 <= len p -> exists x, rd16 p i = Ret x.
Proof.
  intros H0 Hi. unfold rd16. destruct (rd_in p i) as (a & -> & _); [lia|].
  destruct (rd_in p (i + 1)) as (b & -> & _); [lia|]. by eexists.
Qed.

Lemma rd32_in p i : 0 <= i -> i + 4 <= len p -> exists x, rd32 p i = Ret x.
Proof.
  intros H0 Hi. unfold rd32. destruct (rd16_in p i) as (a & ->); [lia..|].
  destruct (rd16_in p (i + 2)) as (b & ->); [lia..|]. by eexists.
Qed.

Lemma rds_in p i n : 0 <= i -> i + Z.of_nat n <= len p -> rds p i n = Ret (take n (drop (Z.to_nat i) p)).
Proof.
  revert i. induction n as [|n IH]; intros i H0 Hi; [done|]. simpl.
  destruct (rd_in p i) as (b & -> & Hb); [lia|]. unfold mbind, outcome_bind.
  rewrite IH by lia. rewrite (drop_S _ _ _ Hb). simpl.
  by replace (Z.to_nat (i + 1)) with (S (Z.to_nat i)) by lia.
Qed.

Lemma rds_out p i n : len p < i + Z.of_nat (S n) -> exists w, rds p i (S n) = Undef w.
Proof.
  revert i. induction n as [|n IH]; intros i Hi.
  - destruct (rd_out p i) as [w Hw]; [lia|]. exists w. simpl. by rewrite Hw.
  - change (rds p i (S (S n))) with (b ← rd p i; l ← rds p (i + 1) (S n); Ret (b :: l)).
    destruct (rd_cases p i) as [[b ->]|[w ->]]; [|by exists w].
    destruct (IH (i + 1)) as [w ->]; [lia|]. by exists w.
Qed.

(** Perform the next load of the goal, which is in bounds. *)
Ltac load :=
  match goal with
  | |- context [rds ?p ?i ?n] => rewrite (rds_in p i n) by lia
  | |- context [rd32 ?p ?i] => destruct (rd32_in p i) as [? ->]; [lia..|]
  | |- context [rd16 ?p ?i] => destruct (rd16_in p i) as [? ->]; [lia..|]
  | |- context [rd ?p ?i] => let b := fresh "b" in destruct (rd_in p i) as (b & -> & ?); [lia|]
  end; cbn [mbind outcome_bind].

Lemma rd16_eq p i x : Forall is_byte p -> rd16 p i = Ret x -> 0 <= i ->
  exists a b, take 2 (drop (Z.to_nat i) p) = [a; b] /\ x = a * 256 + b /\ is_byte a /\ is_byte b.
Proof.
  intros Hp Hx H0. unfold rd16 in Hx.
  destruct (rd p i) as [a| |] eqn:Ea; [|done|done]. destruct (rd p (i + 1)) as [b| |] eqn:Eb; [|done|done].
  simplify_eq/=. exists a, b. split_and!; [|done|by eapply rd_byte..].
  unfold rd in *. destruct (Z.ltb_spec i 0); [lia|]. destruct (Z.ltb_spec (i + 1) 0); [lia|].
  destruct (p !! Z.to_nat i) eqn:E1; simplify_eq/=. destruct (p !! Z.to_nat (i + 1)) eqn:E2; simplify_eq/=.
  rewrite (drop_S _ _ _ E1). replace (S (Z.to_nat i)) with (Z.to_nat (i + 1)) by lia.
  by rewrite (drop_S _ _ _ E2).
Qed.

(** ** Layer by layer *)

Lemma to_int n : - 65535 <= n <= 65535 -> i32 n = n.
Proof. intros. apply i32_small. lia. Qed.

Lemma nibble b : 0 <= Z.land b 15 <= 15.
Proof.
  rewrite (Z.land_ones b 4 ltac:(lia) : Z.land b 15 = b mod 16). pose proof (Z.mod_pos_bound b 16). lia.
Qed.

Lemma header_words b : 0 <= u8 (Z.shiftr (Z.land b 240) 4 * 4) <= 255.
Proof. pose proof (wrapu_range 8 (Z.shiftr (Z.land b 240) 4 * 4)). lia. Qed.

Section packet.
Context (p : list Z) (Hp : Forall is_byte p) (Hlen : len p <= 65535).

(** An ARP packet cut off before the end of its addresses. *)
Definition short_arp : bool :=
  (22 <=? len p) && (len p <? 42) && bool_decide (take 2 (drop 12 p) = [8; 6]).

Lemma decode_ether_in : 14 <= len p -> exists ty, decode_ether p = Ret (take 6 p, take 6 (drop 6 p), ty) /\
  rd16 p 12 = Ret ty /\ (ty = ETHERTYPE_ARP <-> take 2 (drop 12 p) = [8; 6]).
Proof.
  intros H. unfold decode_ether. do 2 load. destruct (rd16_in p 12) as [ty E]; [lia..|].
  exists ty. rewrite E. split_and!; [done..|].
  destruct (rd16_eq p 12 ty Hp E) as (a & b & Hab & -> & Ha & Hb); [lia|].
  change (Z.to_nat 12) with 12%nat in Hab. rewrite Hab. unfold ETHERTYPE_ARP, is_byte in *. split.
  - intros. assert (a = 8 /\ b = 6) as [-> ->] by lia. done.
  - by intros [= -> ->].
Qed.

(** A TCP or UDP header found by layer 3 starts at [l4_offset], with [l4_len]
    bytes to the end. *)
Definition l3_sound (r : l3_result) : Prop :=
  let '(_, proto, off, ln) := r in
  proto = -1 \/ (0 <= off <= 60 /\ ln = len p - 14 - off).

Lemma decode_l3_in ty : (ty = ETHERTYPE_ARP -> 14 + 8 <= len p -> 42 <= len p) ->
  exists r, decode_l3 p (len p) ty = Ret r /\ l3_sound r.
Proof.
  intros Harp. unfold decode_l3. destruct (Z.ltb_spec (len p) 14).
  { eexists. split; [done|]. by left. }
  rewrite to_int by lia.
  destruct ((ty =? ETHERTYPE_IP) && (20 <=? len p - 14)) eqn:E1.
  { to_prop. unfold decode_ipv4. repeat load. eexists. split; [done|]. right.
    match goal with |- context [Z.land ?b 15] => pose proof (nibble b) end. lia. }
  destruct ((ty =? ETHERTYPE_IPV6) && (40 <=? len p - 14)) eqn:E2.
  { to_prop. unfold decode_ipv6. repeat load. eexists. split; [done|]. right. lia. }
  destruct ((ty =? ETHERTYPE_ARP) && (8 <=? len p - 14)) eqn:E3.
  { to_prop. assert (42 <= len p) by lia. unfold decode_arp. repeat load. eexists. split; [done|]. by left. }
  eexists. split; [done|]. by left.
Qed.

Definition l4_sound (r : l4_result) : Prop :=
  let '(r4, off, ln, _) := r in ln = 0 \/ (14 <= off /\ ln = len p - off).

Lemma decode_l4_in proto off ln : l3_sound (L3None, proto, off, ln) ->
  exists r, decode_l4 p (len p) proto off ln = Ret r /\ l4_sound r.
Proof.
  intros Hs. unfold decode_l4.
  destruct ((proto =? 6) && (20 <=? ln)) eqn:E1.
  { to_prop. destruct Hs as [|[? ?]]; [lia|]. unfold decode_tcp. repeat load. eexists. split; [done|].
    match goal with |- context [u8 (Z.shiftr (Z.land ?b 240) 4 * 4)] => pose proof (header_words b) end.
    right. split; [lia|]. apply to_int. lia. }
  destruct ((proto =? 17) && (8 <=? ln)) eqn:E2.
  { to_prop. destruct Hs as [|[? ?]]; [lia|]. unfold decode_udp. repeat load. eexists. split; [done|].
    right. split; [lia|]. apply to_int. lia. }
  eexists. split; [done|]. by left.
Qed.

Lemma decode_l7_in r4 off ln k : l4_sound (r4, off, ln, k) ->
  decode_l7 p (len p) r4 off ln =
    Ret (if (0 <? ln) && (off <? len p)
         then Some (app_proto r4, take (Z.to_nat (Z.min 64 ln)) (drop (Z.to_nat off) p)) else None).
Proof.
  intros Hs. unfold decode_l7. rewrite to_int by lia.
  destruct ((0 <? ln) && (off <? len p)) eqn:E; [|done]. to_prop.
  destruct Hs as [|[? ?]]; [lia|].
  replace (if 64 <? ln then 64 else ln) with (Z.min 64 ln) by (destruct (Z.ltb_spec 64 ln); lia).
  load. done.
Qed.

Lemma process_packet_in n : short_arp = false -> exists r, process_packet p n = Ret r.
Proof.
  intros Hs. unfold process_packet.
  assert (exists eth, (if 14 <=? len p then e ← decode_ether p; Ret (Some e) else Ret None) = Ret eth /\
    let ty := match eth with Some (_, _, ty) => ty | None => 0 end in
    ty = ETHERTYPE_ARP -> 14 + 8 <= len p -> 42 <= len p) as (eth & -> & Harp).
  { destruct (Z.leb_spec 14 (len p)); [|by eexists].
    destruct decode_ether_in as (ty & -> & _ & Hty); [done|]. eexists. split; [done|]. simpl.
    intros Ht%Hty H8. unfold short_arp in Hs. rewrite bool_decide_true in Hs by done. lia. }
  cbn [mbind outcome_bind].
  destruct (decode_l3_in _ Harp) as ([[[r3 pr] off] ln] & -> & H3). cbn [mbind outcome_bind].
  destruct (decode_l4_in pr off ln H3) as ([[[r4 off7] ln7] k] & -> & H4). cbn [mbind outcome_bind].
  rewrite (decode_l7_in _ _ _ k H4). cbn [mbind outcome_bind].
  rewrite rds_in; [by eexists|lia|]. destruct (Z.ltb_spec (len p) 16); lia.
Qed.

(** A load that ends a sequence of loads is past the end. *)
Lemma decode_arp_out : 22 <= len p < 42 -> exists w, decode_arp p = Undef w.
Proof.
  intros H. unfold decode_arp. do 5 load.
  repeat match goal with
  | |- context [rds p ?i (S ?n)] =>
      destruct (Z.le_gt_cases (i + Z.of_nat (S n)) (len p));
      [rewrite (rds_in p i (S n)) by lia; cbn [mbind outcome_bind]
      |destruct (rds_out p i n) as [w ->]; [lia|]; by exists w]
  end. lia.
Qed.

Lemma process_packet_short_arp n : short_arp = true -> exists w, process_packet p n = Undef w.
Proof.
  unfold short_arp. intros H. to_prop. unfold process_packet.
  rewrite (proj2 (Z.leb_le _ _)) by lia.
  destruct decode_ether_in as (ty & -> & _ & Hty); [lia|]. cbn [mbind outcome_bind].
  rewrite (proj2 Hty) by done. unfold decode_l3.
  rewrite (proj2 (Z.ltb_ge (len p) 14)), to_int by lia.
  change (ETHERTYPE_ARP =? ETHERTYPE_IP) with false. change (ETHERTYPE_ARP =? ETHERTYPE_IPV6) with false.
  change (ETHERTYPE_ARP =? ETHERTYPE_ARP) with true. rewrite (proj2 (Z.leb_le 8 (len p - 14))) by lia.
  cbn [andb]. destruct decode_arp_out as [w ->]; [lia|]. by exists w.
Qed.
End packet.

(** (C29) Every load from a captured packet is inside it, whatever its bytes are
    (header lengths that point past the end, cut-off headers, unknown types),
    when the packet is displayed and when the session is summarised, with one
    exception: an ARP packet of 8 to 27 bytes after the Ethernet header is read
    past its end. *)
Theorem cshark_reads_in_bounds p n :
  Forall is_byte p -> len p <= 65535 ->
  (if short_arp p then exists w, process_packet p n = Undef w
   else exists r, process_packet p n = Ret r) /\
  (exists name, get_protocol_info p = Ret name) /\
  (exists ips, get_src_dst_ips p = Ret ips).
Proof.
  intros Hp Hlen. split.
  { destruct (short_arp p) eqn:E; [by apply process_packet_short_arp|by apply process_packet_in]. }
  unfold get_protocol_info, get_src_dst_ips. destruct (Z.ltb_spec (len p) 14); [split; by eexists|].
  destruct (rd16_in p 12) as [ty ->]; [lia..|]. cbn [mbind outcome_bind].
  assert (forall l4 f d, 0 <= l4 -> exists x, summary_l4 p (len p) l4 f d = Ret x) as Hs.
  { intros l4 f d H0. unfold summary_l4. destruct (Z.leb_spec (l4 + 4) (len p)); [|by eexists].
    repeat load. by eexists. }
  split.
  - destruct (ty =? ETHERTYPE_ARP); [by eexists|].
    destruct ((ty =? ETHERTYPE_IP) && _) eqn:E1.
    { to_prop. do 2 load. pose proof (nibble b). repeat case_match; try apply Hs; try lia; by eexists. }
    destruct ((ty =? ETHERTYPE_IPV6) && _) eqn:E2; [|by eexists].
    to_prop. load. repeat case_match; try apply Hs; try lia; by eexists.
  - destruct ((ty =? ETHERTYPE_IP) && _) eqn:E1; [to_prop; do 2 load; by eexists|].
    destruct ((ty =? ETHERTYPE_IPV6) && _) eqn:E2; [to_prop; do 2 load|]; by eexists.
Qed.

Lemma cshark_reads_in_bounds_witness :
  let p := replicate 12 0 ++ [8; 6] ++ replicate 20 1 in
  (exists w, process_packet p 1 = Undef w) /\ exists x, get_protocol_info p = Ret x.
Proof.
  destruct (cshark_reads_in_bounds (replicate 12 0 ++ [8; 6] ++ replicate 20 1) 1) as (H1 & H2 & _).
  - repeat (constructor; [by vm_compute|]). constructor.
  - by vm_compute.
  - split; [exact H1|exact H2].
Defined.

(** ** The summary names what the detailed view names *)

Section agree.
Context (p : list Z) (Hp : Forall is_byte p) (Hlen : len p <= 65535).

(** Where layer 3 found the transport header. *)
Definition transport (ty proto off : Z) : Prop :=
  (ty = ETHERTYPE_IP /\ 34 <= len p /\ rd p 23 = Ret proto /\
     exists v, rd p 14 = Ret v /\ off = Z.land v 15 * 4) \/
  (ty = ETHERTYPE_IPV6 /\ 54 <= len p /\ rd p 20 = Ret proto /\ off = 40).

Lemma decode_l3_inv ty r3 proto off ln :
  decode_l3 p (len p) ty = Ret (r3, proto, off, ln) -> proto <> -1 ->
  transport ty proto off /\ ln = len p - 14 - off.
Proof.
  unfold decode_l3. destruct (Z.ltb_spec (len p) 14); [by intros [= <- <- <- <-]|].
  rewrite to_int by lia.
  destruct ((ty =? ETHERTYPE_IP) && _) eqn:E1.
  { to_prop. unfold decode_ipv4. intros Hr _. inv_ret Hr. simplify_eq. split; [left|done].
    split_and!; [lia|lia|done|]. by eexists. }
  destruct ((ty =? ETHERTYPE_IPV6) && _) eqn:E2.
  { to_prop. unfold decode_ipv6. intros Hr _. inv_ret Hr. simplify_eq. split; [right|done].
    split_and!; [lia|lia|done|done]. }
  destruct ((ty =? ETHERTYPE_ARP) && _); [|by intros [= <- <- <- <-]].
  unfold decode_arp. intros Hr. inv_ret Hr. by simplify_eq.
Qed.

(** The ports in a report and the number of its protocol. *)
Definition ports_at (r4 : l4_report) (proto off : Z) : Prop :=
  off + 18 <= len p /\
  match r4 with
  | TCP s d _ _ _ _ _ _ => proto = 6 /\ rd16 p (14 + off) = Ret s /\ rd16 p (14 + off + 2) = Ret d
  | UDP s d _ _ => proto = 17 /\ rd16 p (14 + off) = Ret s /\ rd16 p (14 + off + 2) = Ret d
  | L4None => False
  end.

Lemma decode_l4_inv proto off r4 o7 l7 k :
  decode_l4 p (len p) proto off (len p - 14 - off) = Ret (r4, o7, l7, k) -> r4 <> L4None ->
  ports_at r4 proto off.
Proof.
  unfold decode_l4. destruct ((proto =? 6) && _) eqn:E1.
  { to_prop. unfold decode_tcp. intros Hr _. inv_ret Hr. simplify_eq. split; [lia|]. split_and!; [lia|done..]. }
  destruct ((proto =? 17) && _) eqn:E2; [|by intros [= <- <- <- <-]].
  to_prop. unfold decode_udp. intros Hr _. inv_ret Hr. simplify_eq. split; [lia|]. split_and!; [lia|done..].
Qed.

(** The name the summary gives to a transport header. *)
Definition summary_of (r4 : l4_report) : string :=
  match r4 with
  | TCP s d _ _ _ _ _ _ => summary_tcp s d
  | UDP s d _ _ => summary_udp s d
  | L4None => "Unknown"
  end.

Lemma summary_l4_at f dflt off s d :
  off + 18 <= len p -> rd16 p (14 + off) = Ret s -> rd16 p (14 + off + 2) = Ret d ->
  summary_l4 p (len p) (14 + off) f dflt = Ret (f s d).
Proof.
  intros H1 H2 H3. unfold summary_l4. rewrite (proj2 (Z.leb_le _ _)) by lia. by rewrite H2, H3.
Qed.

Lemma get_protocol_info_at ty r4 proto off :
  14 <= len p -> rd16 p 12 = Ret ty -> transport ty proto off -> ports_at r4 proto off ->
  get_protocol_info p = Ret (summary_of r4).
Proof.
  intros H14 Hty Ht [Hoff Hr]. unfold get_protocol_info.
  rewrite (proj2 (Z.ltb_ge _ _)), Hty by lia. cbn [mbind outcome_bind].
  destruct Ht as [(-> & H34 & Hpr & v & Hv & ->)|(-> & H54 & Hpr & ->)]; simpl.
  - rewrite (proj2 (Z.leb_le 34 _)), Hpr, Hv by lia. cbn [mbind outcome_bind].
    destruct r4; [done| |]; destruct Hr as (-> & H1 & H2); simpl; by apply summary_l4_at.
  - rewrite (proj2 (Z.leb_le 54 _)), Hpr by lia. cbn [mbind outcome_bind].
    destruct r4; [done| |]; destruct Hr as (-> & H1 & H2); simpl; by apply (summary_l4_at _ _ 40).
Qed.
Lemma l3_proto_at ty r3 proto off ln r4 o7 l7 k :
  decode_l3 p (len p) ty = Ret (r3, proto, off, ln) ->
  decode_l4 p (len p) proto off ln = Ret (r4, o7, l7, k) -> r4 <> L4None ->
  transport ty proto off /\ ports_at r4 proto off.
Proof.
  intros H3 H4 Hr. assert (proto <> -1) as Hpr.
  { intros ->. unfold decode_l4 in H4. simpl in H4. by simplify_eq. }
  destruct (decode_l3_inv _ _ _ _ _ H3 Hpr) as [Ht ->]. split; [done|]. by eapply decode_l4_inv.
Qed.

Lemma summary_of_report n r name bytes :
  process_packet p n = Ret r -> l7 r = Some (name, bytes) ->
  get_protocol_info p = Ret (summary_of (l4 r)) /\ name = app_proto (l4 r) /\ l4 r <> L4None.
Proof.
  unfold process_packet. intros H H7. inv_ret H.
  destruct r1 as [[[r3 proto] off] ln]. inv_ret H. destruct r1 as [[[r4 o7] ln7] k]. inv_ret H.
  simplify_eq/=.
  assert (name = app_proto r4 /\ r4 <> L4None) as [-> Hr4].
  { unfold decode_l7 in Hcall2. destruct ((0 <? ln7) && _) eqn:E; [|done]. to_prop. inv_ret Hcall2.
    simplify_eq. split; [done|]. intros ->. unfold decode_l4 in Hcall1.
    destruct ((proto =? 6) && _); [unfold decode_tcp in Hcall1; inv_ret Hcall1; done|].
    destruct ((proto =? 17) && _); [unfold decode_udp in Hcall1; inv_ret Hcall1; done|]. by simplify_eq. }
  split; [|done].
  destruct (l3_proto_at _ _ _ _ _ _ _ _ _ Hcall0 Hcall1 Hr4) as [Ht Hport].
  destruct (Z.leb_spec 14 (len p)) as [H14|].
  - inv_ret Hcall. simplify_eq. unfold decode_ether in Hcall4. inv_ret Hcall4. simplify_eq.
    by eapply get_protocol_info_at.
  - simplify_eq. destruct Ht as [(Heq & _)|(Heq & _)]; done.
Qed.
End agree.

(** The two views of a packet name the same protocol: when the detailed
    view shows a payload as HTTP, HTTPS, DNS or DHCP the session summary has
    that name for the packet, and when the detailed view knows no name for the
    ports the summary has the transport's name. *)
Theorem cshark_summary_agrees p n r name bytes :
  len p <= 65535 ->
  process_packet p n = Ret r -> l7 r = Some (name, bytes) ->
  exists s, get_protocol_info p = Ret s /\
    (name ∈ ["HTTP"; "HTTPS"; "DNS"; "DHCP"]%string -> s = name) /\
    (name = "Unknown"%string -> s = match l4 r with TCP _ _ _ _ _ _ _ _ => "TCP" | _ => "UDP" end%string).
Proof.
  intros Hlen Hr H7. destruct (summary_of_report p Hlen n r name bytes Hr H7) as (Hs & -> & Hr4).
  exists (summary_of (l4 r)). split; [done|]. rewrite list_elem_of_In. clear -Hr4.
  destruct (l4 r) as [|s d ? ? ? ? ? ?|s d ? ?]; simpl;
    unfold summary_tcp, summary_udp; simpl; [done|..];
    repeat case_match; split; intros; try done; intuition congruence.
Qed.

End CsharkFacts.

(** ** The packet sniffer: what it shows of a frame it was sent, and of a stored
    session *)
Import Cshark.


Module CsharkRun.
Import CsharkFacts.

Notation len p := (Z.of_nat (length p)).

(** ** TCP segments in IPv4 packets in Ethernet frames *)

Definition be16 (x : Z) : list Z := [x / 256; x mod 256].
Definition be32 (x : Z) : list Z := be16 (x / 65536) ++ be16 (x mod 65536).

Record ip_fields := {
  ip_src : list Z; ip_dst : list Z; ip_tos : Z; ip_len : Z; ip_id : Z; ip_off : Z;
  ip_ttl : Z; ip_sum : Z; ip_opts : list Z }.

Record tcp_fields := {
  th_sport : Z; th_dport : Z; th_seq : Z; th_ack : Z; th_flags : Z; th_win : Z;
  th_sum : Z; th_urp : Z; th_opts : list Z }.

Definition ip_hlen (h : ip_fields) : Z := 20 + len (ip_opts h).
Definition tcp_hlen (h : tcp_fields) : Z := 20 + len (th_opts h).

Definition ip_header (h : ip_fields) : list Z :=
  [64 + ip_hlen h / 4; ip_tos h] ++ be16 (ip_len h) ++ be16 (ip_id h) ++ be16 (ip_off h) ++
  [ip_ttl h; 6] ++ be16 (ip_sum h) ++ ip_src h ++ ip_dst h ++ ip_opts h.

Definition tcp_header (h : tcp_fields) : list Z :=
  be16 (th_sport h) ++ be16 (th_dport h) ++ be32 (th_seq h) ++ be32 (th_ack h) ++
  [tcp_hlen h / 4 * 16; th_flags h] ++ be16 (th_win h) ++ be16 (th_sum h) ++ be16 (th_urp h) ++ th_opts h.

Definition frame (dst src : list Z) (ip : ip_fields) (th : tcp_fields) (payload : list Z) : list Z :=
  (dst ++ src ++ be16 ETHERTYPE_IP ++ ip_header ip) ++ tcp_header th ++ payload.

(** The options fill whole words, up to 40 bytes. *)
Definition opts_ok (o : list Z) : Prop := exists n : Z, len o = 4 * n /\ 0 <= n <= 10.

Lemma rd_app_r pre q i j : j = len pre + i -> 0 <= i -> rd (pre ++ q) j = rd q i.
Proof.
  intros -> Hi. unfold rd. rewrite lookup_app_r by lia.
  replace (Z.to_nat (len pre + i) - length pre)%nat with (Z.to_nat i) by lia.
  by rewrite !(proj2 (Z.ltb_ge _ 0)) by lia.
Qed.

Lemma rd16_app_r pre q i j : j = len pre + i -> 0 <= i -> rd16 (pre ++ q) j = rd16 q i.
Proof.
  intros Hj Hi. unfold rd16. by rewrite (rd_app_r pre q i j), (rd_app_r pre q (i + 1) (j + 1)) by lia.
Qed.

Lemma rd32_app_r pre q i j : j = len pre + i -> 0 <= i -> rd32 (pre ++ q) j = rd32 q i.
Proof.
  intros Hj Hi. unfold rd32. by rewrite (rd16_app_r pre q i j), (rd16_app_r pre q (i + 2) (j + 2)) by lia.
Qed.

Lemma rd_at l i b : 0 <= i -> l !! Z.to_nat i = Some b -> rd l i = Ret b.
Proof. intros Hi Hb. unfold rd. rewrite Hb. by destruct (Z.ltb_spec i 0); [lia|]. Qed.

Lemma rd16_at l i x : 0 <= i ->
  l !! Z.to_nat i = Some (x / 256) -> l !! Z.to_nat (i + 1) = Some (x mod 256) -> rd16 l i = Ret x.
Proof.
  intros Hi H0 H1. unfold rd16. rewrite (rd_at _ _ _ Hi H0), (rd_at _ (i + 1) _ ltac:(lia) H1).
  cbn [mbind outcome_bind]. f_equal. pose proof (Z.div_mod x 256). lia.
Qed.

Lemma rd32_at l i x : 0 <= i ->
  l !! Z.to_nat i = Some (x / 65536 / 256) -> l !! Z.to_nat (i + 1) = Some ((x / 65536) mod 256) ->
  l !! Z.to_nat (i + 2) = Some (x mod 65536 / 256) -> l !! Z.to_nat (i + 2 + 1) = Some ((x mod 65536) mod 256) ->
  rd32 l i = Ret x.
Proof.
  intros Hi H0 H1 H2 H3. unfold rd32. rewrite (rd16_at _ _ _ Hi H0 H1), (rd16_at _ (i + 2) _ ltac:(lia) H2 H3).
  cbn [mbind outcome_bind]. f_equal. pose proof (Z.div_mod x 65536). lia.
Qed.

(** Perform the loads of the goal from a list whose first elements are known. *)
Ltac read :=
  repeat (first [erewrite rd32_at by (lia || reflexivity)
                |erewrite rd16_at by (lia || reflexivity)
                |erewrite rd_at by (lia || reflexivity)]; cbn [mbind outcome_bind]).

Lemma data_offset_words n : 5 <= n <= 15 -> u8 (Z.shiftr (Z.land (n * 16) 240) 4 * 4) = n * 4.
Proof.
  intros Hn. assert (n ∈ [5; 6; 7; 8; 9; 10; 11; 12; 13; 14; 15]) as H.
  { apply list_elem_of_In. simpl. lia. }
  revert H. rewrite list_elem_of_In. simpl. by intros [<-|[<-|[<-|[<-|[<-|[<-|[<-|[<-|[<-|[<-|[<-|[]]]]]]]]]]]].
Qed.

Lemma words_ok o : opts_ok o -> (20 + len o) / 4 * 4 = 20 + len o /\ 5 <= (20 + len o) / 4 <= 15.
Proof.
  intros (n & -> & Hn). replace (20 + 4 * n) with ((5 + n) * 4) by lia. rewrite Z.div_mul by lia. lia.
Qed.

Lemma decode_tcp_at pre th payload off caplen :
  14 + off = len pre -> opts_ok (th_opts th) ->
  decode_tcp (pre ++ tcp_header th ++ payload) caplen off =
    Ret (TCP (th_sport th) (th_dport th) (th_seq th) (th_ack th) (tcp_flags (th_flags th))
             (th_win th) (th_sum th) (tcp_hlen th),
         14 + off + tcp_hlen th, i32 (caplen - (14 + off + tcp_hlen th)), 1).
Proof.
  intros Hoff Ho. unfold decode_tcp.
  rewrite (rd16_app_r pre _ 0 (14 + off)), (rd16_app_r pre _ 2 (14 + off + 2)),
    (rd32_app_r pre _ 4 (14 + off + 4)), (rd32_app_r pre _ 8 (14 + off + 8)),
    (rd_app_r pre _ 12 (14 + off + 12)), (rd_app_r pre _ 13 (14 + off + 13)),
    (rd16_app_r pre _ 16 (14 + off + 16)), (rd16_app_r pre _ 14 (14 + off + 14)) by lia.
  unfold tcp_header, be32, be16. cbn [app]. read.
  destruct (words_ok _ Ho) as [H1 H2]. fold (tcp_hlen th) in H1, H2.
  by rewrite !data_offset_words, !H1 by lia.
Qed.

(** Spell out a list of known length. *)
Ltac spell l := let H := fresh in
  intros H; repeat (destruct l as [|? l]; [discriminate H|cbn [length] in H; apply (f_equal pred) in H; cbn [pred] in H]);
  destruct l; [clear H|discriminate H].

Lemma decode_ether_at dst src ty rest : length dst = 6%nat -> length src = 6%nat ->
  decode_ether (dst ++ src ++ be16 ty ++ rest) = Ret (dst, src, ty).
Proof.
  intros Hd Hs. revert Hd. spell dst. revert Hs. spell src.
  unfold decode_ether, be16. cbn [app rds]. read. done.
Qed.

Lemma decode_l3_at dst src h rest caplen :
  length dst = 6%nat -> length src = 6%nat -> length (ip_src h) = 4%nat -> length (ip_dst h) = 4%nat ->
  opts_ok (ip_opts h) -> 34 <= caplen <= 65535 ->
  decode_l3 ((dst ++ src ++ be16 ETHERTYPE_IP ++ ip_header h) ++ rest) caplen ETHERTYPE_IP =
    Ret (IPv4 (ip_src h) (ip_dst h) 6 (ip_ttl h) (ip_id h) (ip_len h) (ip_hlen h) (ip_flags (ip_off h)),
         6, ip_hlen h, caplen - 14 - ip_hlen h).
Proof.
  intros Hd Hs Hsa Hda Ho Hc. unfold decode_l3. rewrite (proj2 (Z.ltb_ge caplen 14)), to_int by lia.
  rewrite (proj2 (Z.leb_le 20 (caplen - 14))) by lia. cbn [andb Z.eqb ETHERTYPE_IP Pos.eqb].
  unfold decode_ipv4, ip_header. destruct (words_ok _ Ho) as [H1 H2]. fold (ip_hlen h) in H1, H2.
  assert (Z.land (64 + ip_hlen h / 4) 15 * 4 = ip_hlen h) as Hn.
  { rewrite (Z.land_ones _ 4 ltac:(lia) : Z.land (64 + ip_hlen h / 4) 15 = (64 + ip_hlen h / 4) mod 16).
    rewrite (Z.add_mod 64) by lia. change (64 mod 16) with 0. rewrite Z.add_0_l, Z.mod_mod by lia.
    rewrite Z.mod_small; lia. }
  revert Hd. spell dst. revert Hs. spell src. destruct h as [sa da ? ? ? ? ? ? o]. simpl in Hsa, Hda.
  revert Hsa. spell sa. revert Hda. spell da.
  unfold be16. cbn [app rds ip_src ip_dst ip_tos ip_len ip_id ip_off ip_ttl ip_sum ip_opts] in *. read.
  by rewrite Hn.
Qed.

Lemma len_ip_header h : length (ip_src h) = 4%nat -> length (ip_dst h) = 4%nat ->
  len (ip_header h) = ip_hlen h.
Proof. intros H1 H2. unfold ip_header, ip_hlen. rewrite !length_app. simpl. lia. Qed.

Lemma len_tcp_header h : len (tcp_header h) = tcp_hlen h.
Proof. unfold tcp_header, tcp_hlen. rewrite !length_app. simpl. lia. Qed.

(** (C31) A TCP segment sent over IPv4 and Ethernet, with any options and any
    payload, is displayed as it was sent: addresses, numbers, ports, flags and
    header lengths are the sender's, the protocol is named after the ports, and
    the payload shown is its first 64 bytes (no payload section if it is
    empty). *)
Theorem cshark_frame_roundtrip dst src ip th payload n :
  length dst = 6%nat -> length src = 6%nat -> length (ip_src ip) = 4%nat -> length (ip_dst ip) = 4%nat ->
  opts_ok (ip_opts ip) -> opts_ok (th_opts th) -> len (frame dst src ip th payload) <= 65535 ->
  process_packet (frame dst src ip th payload) n =
    Ret {| packet_no := n;
           ether := Some (dst, src, ETHERTYPE_IP);
           l3 := IPv4 (ip_src ip) (ip_dst ip) 6 (ip_ttl ip) (ip_id ip) (ip_len ip) (ip_hlen ip)
                   (ip_flags (ip_off ip));
           l4 := TCP (th_sport th) (th_dport th) (th_seq th) (th_ack th) (tcp_flags (th_flags th))
                   (th_win th) (th_sum th) (tcp_hlen th);
           port_names := Some (by_port (th_sport th) (th_sport th) TCP_PORTS "",
                               by_port (th_dport th) (th_dport th) TCP_PORTS "")%string;
           l7 := match payload with
                 | [] => None
                 | _ => Some (by_port (th_sport th) (th_dport th) TCP_PORTS "Unknown", take 64 payload)
                 end;
           first := take 16 (frame dst src ip th payload) |}.
Proof.
  intros Hd Hs Hsa Hda Hio Hto Hlen. set (pre := dst ++ src ++ be16 ETHERTYPE_IP ++ ip_header ip).
  assert (len pre = 14 + ip_hlen ip) as Hpre.
  { unfold pre. rewrite 3!length_app. pose proof (len_ip_header ip Hsa Hda).
    change (length (be16 ETHERTYPE_IP)) with 2%nat. lia. }
  assert (len (frame dst src ip th payload) = 14 + ip_hlen ip + tcp_hlen th + len payload) as Hfr.
  { unfold frame. fold pre. rewrite 2!length_app. pose proof (len_tcp_header th). lia. }
  assert (20 <= ip_hlen ip /\ 20 <= tcp_hlen th) as [Hi Ht] by (unfold ip_hlen, tcp_hlen; lia).
  unfold process_packet. set (caplen := len (frame dst src ip th payload)) in *.
  rewrite (proj2 (Z.leb_le 14 caplen)) by lia.
  assert (decode_ether (frame dst src ip th payload) = Ret (dst, src, ETHERTYPE_IP)) as ->.
  { unfold frame. rewrite <- !app_assoc. by apply decode_ether_at. }
  cbn [mbind outcome_bind]. cbv beta iota zeta.
  pose proof (decode_l3_at dst src ip (tcp_header th ++ payload) caplen Hd Hs Hsa Hda Hio ltac:(lia)) as H3.
  fold (frame dst src ip th payload) in H3. rewrite H3. cbn [mbind outcome_bind]. cbv beta iota zeta.
  unfold decode_l4. rewrite (proj2 (Z.leb_le 20 _)) by lia. cbn [andb Z.eqb Pos.eqb].
  pose proof (decode_tcp_at pre th payload (ip_hlen ip) caplen ltac:(lia) Hto) as H4.
  unfold pre in H4. fold (frame dst src ip th payload) in H4. rewrite H4. cbn [mbind outcome_bind]. cbv beta iota zeta.
  unfold decode_l7. rewrite !to_int by lia.
  assert (rds (frame dst src ip th payload) 0 (Z.to_nat (if caplen <? 16 then caplen else 16)) =
    Ret (take 16 (frame dst src ip th payload))) as Hf.
  { rewrite (proj2 (Z.ltb_ge caplen 16)) by lia. rewrite rds_in by (unfold caplen in *; lia). done. }
  rewrite Hf. clear Hf.
  replace (caplen - (14 + ip_hlen ip + tcp_hlen th)) with (len payload) by lia.
  destruct payload as [|c payload].
  { done. }
  rewrite (proj2 (Z.ltb_lt 0 _)), (proj2 (Z.ltb_lt (14 + ip_hlen ip + tcp_hlen th) caplen)) by (simpl in *; lia).
  cbn [andb]. rewrite rds_in by (fold caplen; destruct (Z.ltb_spec 64 (len (c :: payload))); lia).
  assert (drop (Z.to_nat (14 + ip_hlen ip + tcp_hlen th)) (frame dst src ip th (c :: payload)) = c :: payload)
    as ->.
  { unfold frame. fold pre. rewrite app_assoc. apply drop_app_length'.
    rewrite length_app. pose proof (len_tcp_header th). lia. }
  cbn [mbind outcome_bind]. unfold app_proto.
  replace (take (Z.to_nat _) (c :: payload)) with (take 64 (c :: payload)); [done|].
  destruct (Z.ltb_spec 64 (len (c :: payload))); [done|]. rewrite !take_ge by lia. done.
Qed.

Lemma cshark_frame_roundtrip_witness :
  let ip := {| ip_src := [10; 0; 0; 1]; ip_dst := [10; 0; 0; 2]; ip_tos := 0; ip_len := 54; ip_id := 7;
               ip_off := 0x4000; ip_ttl := 64; ip_sum := 0; ip_opts := [] |} in
  let th := {| th_sport := 5000; th_dport := 80; th_seq := 100000; th_ack := 3; th_flags := 24;
               th_win := 512; th_sum := 0; th_urp := 0; th_opts := [1; 1; 1; 0] |} in
  exists r, process_packet (frame [1; 2; 3; 4; 5; 6] [6; 5; 4; 3; 2; 1] ip th [71; 69; 84]) 9 = Ret r /\
    l7 r = Some ("HTTP"%string, [71; 69; 84]) /\ packet_no r = 9.
Proof.
  intros ip th. eexists. split; [|split].
  - apply (cshark_frame_roundtrip [1; 2; 3; 4; 5; 6] [6; 5; 4; 3; 2; 1] ip th [71; 69; 84] 9); try done.
    + exists 0. by vm_compute.
    + exists 1. by vm_compute.
  - done.
  - done.
Defined.

Lemma cshark_summary_agrees_witness :
  let p := replicate 12 0 ++ [8; 0; 69; 0; 0; 32; 0; 0; 0; 0; 64; 17; 0; 0; 10; 0; 0; 1; 10; 0; 0; 2;
             0; 53; 16; 0; 0; 12; 0; 0; 1; 2; 3; 4] in
  exists r, process_packet p 1 = Ret r /\ l7 r = Some ("DNS"%string, [1; 2; 3; 4]) /\
    exists s, get_protocol_info p = Ret s /\ s = "DNS"%string.
Proof.
  intros p.
  assert (exists r, process_packet p 1 = Ret r /\ l7 r = Some ("DNS"%string, [1; 2; 3; 4])) as (r & Hr & H7).
  { eexists. split; [by vm_compute|]. by vm_compute. }
  exists r. split; [done|]. split; [done|].
  destruct (cshark_summary_agrees p 1 r "DNS" [1; 2; 3; 4]) as (s & Hs & Hn & _); [by vm_compute|done|done|].
  exists s. split; [done|]. apply Hn. set_solver.
Defined.

(** ** Sessions *)

(** The lines of the hex dump hold the bytes of the packet, in order. *)
Lemma omap_seq (l : list Z) i n : omap id ((fun j => l !! j) <$> seq i n) = take n (drop i l).
Proof.
  revert i. induction n as [|n IH]; intros i; [done|]. cbn [seq]. rewrite fmap_cons.
  change (omap id (l !! i :: ((fun j => l !! j) <$> seq (S i) n))) with
    (match l !! i with Some b => b :: omap id ((fun j => l !! j) <$> seq (S i) n)
     | None => omap id ((fun j => l !! j) <$> seq (S i) n) end).
  rewrite IH. destruct (l !! i) as [b|] eqn:Hb; simpl.
  - by rewrite (drop_S _ _ _ Hb).
  - apply lookup_ge_None in Hb. rewrite !drop_ge by lia. by destruct n.
Qed.

Lemma omap_row (l : list Z) i n :
  omap id ((fun j => l !! Z.to_nat (Z.of_nat i + Z.of_nat j)) <$> seq 0 n) = take n (drop i l).
Proof.
  rewrite <- omap_seq. f_equal.
  replace (seq i n) with (Nat.add i <$> seq 0 n) by (rewrite fmap_add_seq; f_equal; lia).
  rewrite <- list_fmap_compose. apply list_fmap_ext. intros k j _. simpl. f_equal. lia.
Qed.

Definition dump_bytes (d : list dump_line) : list Z := concat ((fun line : dump_line => omap id line.1.2) <$> d).

Lemma print_hex_dump_bytes fuel data i :
  (length data - i <= fuel)%nat ->
  dump_bytes (print_hex_dump fuel data (Z.of_nat i) 16) = drop i data.
Proof.
  revert i. induction fuel as [|fuel IH]; intros i Hf; cbn [print_hex_dump].
  - by rewrite drop_ge by lia.
  - destruct (Z.ltb_spec (Z.of_nat i) (len data)); [|by rewrite drop_ge by lia].
    unfold dump_bytes in *. cbn [fmap list_fmap concat fst snd].
    change (Z.to_nat 16) with 16%nat. rewrite omap_row.
    replace (Z.of_nat i + 16) with (Z.of_nat (i + 16)) by lia. rewrite IH by lia.
    rewrite <- drop_drop. apply take_drop.
Qed.

(** The packets delivered before the first signal, with their numbers and
    whether memory was found for them. *)
Fixpoint numbered (n : Z) (evs : list capture_event) : list (bool * stored_packet) :=
  match evs with
  | [] | Sigint :: _ => []
  | Timeout :: evs => numbered n evs
  | Packet t p ok :: evs => (ok, {| ts := t; packet_data := p; packet_id := n |}) :: numbered (n + 1) evs
  end.

(** What a session keeps of them. *)
Definition kept (l : list (bool * stored_packet)) : list stored_packet :=
  take (Z.to_nat MAX_PACKETS) (snd <$> List.filter fst l).

Lemma store_packet_some ok t p n a e s :
  (length a <= Z.to_nat MAX_PACKETS)%nat ->
  store_packet ok t p n {| packet_storage := Some a; session_exists := e |} = Ret s ->
  s = {| packet_storage := Some (take (Z.to_nat MAX_PACKETS)
           (a ++ if ok : bool then [{| ts := t; packet_data := p; packet_id := n |}] else []));
         session_exists := e |}.
Proof.
  intros Ha. unfold store_packet. change (stored_packet_count _) with (len a). cbn [packet_storage session_exists].
  destruct (Z.leb_spec MAX_PACKETS (Z.of_nat (length a))) as [Hm|Hm].
  { intros H. simplify_eq. rewrite take_app_le by lia. by rewrite take_ge by lia. }
  destruct ok; intros H; simplify_eq; rewrite ?app_nil_r, take_ge; try done.
  rewrite length_app. simpl. unfold MAX_PACKETS in *. lia.
Qed.

Lemma take_app_take {A} n (a b : list A) : take n (take n a ++ b) = take n (a ++ b).
Proof.
  destruct (decide (length a <= n)%nat); [by rewrite (take_ge a)|].
  rewrite !take_app_le by (rewrite ?length_take; lia). by rewrite take_take, Nat.min_id.
Qed.

(** The loop stores the packets while there is room and reports all of them. *)
Lemma sniff_loop_stores evs n a e rs s :
  0 < n -> n + Z.of_nat (length evs) < 2 ^ 31 -> (length a <= Z.to_nat MAX_PACKETS)%nat ->
  sniff_loop true evs n {| packet_storage := Some a; session_exists := e |} = Ret (rs, s) ->
  s = {| packet_storage := Some (take (Z.to_nat MAX_PACKETS) (a ++ (snd <$> List.filter fst (numbered n evs))));
         session_exists := e |} /\
  forall ok k, (ok, k) ∈ numbered n evs ->
    n <= packet_id k /\ exists r, rs !! Z.to_nat (packet_id k - n) = Some r /\
      process_packet (packet_data k) (packet_id k) = Ret r.
Proof.
  revert n a rs s. induction evs as [|ev evs IH]; intros n a rs s Hn Hev Ha; cbn [sniff_loop numbered length] in *.
  - intros [= <- <-]. split; [by rewrite app_nil_r, take_ge|]. intros ok k H. set_solver.
  - destruct ev as [|t p ok|].
    + intros H. apply (IH n a rs s); [done|lia|done|done].
    + intros H. inv_ret H. apply store_packet_some in Hcall as ->; [|done].
      destruct r1 as [rs' s']. inv_ret H. simplify_eq. rewrite i32_small in Hcall1 by lia.
      apply IH in Hcall1 as [-> Hr]; [|lia|lia|rewrite length_take; lia]. split.
      { f_equal. f_equal. rewrite take_app_take, <- app_assoc. by destruct ok. }
      intros ok' k [[= -> ->]|Hk]%elem_of_cons.
      * simpl. split; [lia|]. exists r0. by rewrite Z.sub_diag.
      * destruct (Hr _ _ Hk) as (Hle & r & Hr1 & Hr2). split; [lia|]. exists r. split; [|done].
        replace (Z.to_nat (packet_id k - n)) with (S (Z.to_nat (packet_id k - (n + 1)))) by lia. done.
    + intros H. assert (forall evs s0, sniff_loop false evs n s0 = Ret (rs, s) -> rs = [] /\ s = s0) as Hf.
      { clear. induction evs as [|[] evs IH]; simpl; intros s0 H; [by simplify_eq|by simplify_eq|by simplify_eq|].
        by apply IH. }
      apply Hf in H as [-> ->]. split; [by rewrite app_nil_r, take_ge|]. intros ok k H. set_solver.
Qed.

(** Numbers increase along the list. *)
Lemma numbered_lb n evs ok k : (ok, k) ∈ numbered n evs -> n <= packet_id k.
Proof.
  revert n. induction evs as [|[|t p b|] evs IH]; intros n; cbn [numbered];
    [set_solver|apply IH| |set_solver].
  intros [[= -> ->]|Hk]%elem_of_cons; [done|]. apply IH in Hk. lia.
Qed.

Lemma find_idx_unique {A} (P : A -> bool) l i x :
  l !! i = Some x -> P x = true -> (forall j y, l !! j = Some y -> P y = true -> j = i) -> find_idx P l = Some i.
Proof.
  intros Hi Hx Hu. apply find_idx_Some. split; [by exists x|]. intros j y Hj Hy.
  destruct (P y) eqn:E; [|done]. specialize (Hu j y Hy E). lia.
Qed.

(** In the kept packets a number occurs once. *)
Lemma kept_ids n evs i j x y :
  (snd <$> List.filter fst (numbered n evs)) !! i = Some x ->
  (snd <$> List.filter fst (numbered n evs)) !! j = Some y -> packet_id x = packet_id y -> i = j.
Proof.
  revert n i j. induction evs as [|[|t p b|] evs IH]; intros n i j; cbn [numbered]; [done|apply IH| |done].
  assert (forall i z, (snd <$> List.filter fst (numbered (n + 1) evs)) !! i = Some z -> n < packet_id z) as Hlb.
  { intros k z Hz. apply list_elem_of_lookup_2, list_elem_of_fmap in Hz as ((ok & k') & -> & Hz).
    apply list_elem_of_In, List.filter_In in Hz as [Hz _]. apply list_elem_of_In, numbered_lb in Hz. simpl. lia. }
  destruct b; cbn [List.filter fst]; [|apply IH]. rewrite fmap_cons.
  destruct i as [|i], j as [|j]; cbn [lookup list_lookup snd]; intros Hi Hj Hid; simplify_eq/=; [done| | |].
  - apply Hlb in Hj. lia.
  - apply Hlb in Hi. lia.
  - f_equal. by eapply IH.
Qed.

(** What the inspection menu shows is what was captured.  After a capture
    of fewer than 2^31 - 1 packets the session holds the first 10000 of the
    packets that found memory, numbered as they came; for each of them the
    inspection by its number gives the report that was displayed when it
    arrived, and a hex dump of exactly its bytes. *)
Theorem cshark_session_inspect evs s0 rs s :
  Z.of_nat (length evs) < 2 ^ 31 - 1 ->
  sniff_all_packets true true evs s0 = Ret (rs, s) ->
  packet_storage s = Some (kept (numbered 1 evs)) /\
  forall k, k ∈ kept (numbered 1 evs) ->
    exists r dump, inspect_packet (packet_id k) s = Ret (Some (r, dump)) /\
      rs !! Z.to_nat (packet_id k - 1) = Some r /\ dump_bytes dump = packet_data k.
Proof.
  intros Hlen H. unfold sniff_all_packets in H. cbn [init_packet_storage mbind outcome_bind] in H.
  apply sniff_loop_stores in H as [-> Hr]; [|lia|lia|simpl; lia]. split; [done|].
  intros k Hk. unfold kept in *. cbn [app]. apply list_elem_of_lookup in Hk as [i Hi].
  assert ((snd <$> List.filter fst (numbered 1 evs)) !! i = Some k) as Hi'.
  { apply lookup_take_Some in Hi as [Hi _]. done. }
  pose proof (list_elem_of_lookup_2 _ _ _ Hi') as ((ok & k') & -> & Hin)%list_elem_of_fmap.
  apply list_elem_of_In, List.filter_In in Hin as [Hin _]. apply list_elem_of_In, Hr in Hin as (_ & r & Hr1 & Hr2).
  cbn [snd] in *. exists r, (print_hex_dump (length (packet_data k')) (packet_data k') 0 16).
  split; [|split; [done|]]; [|by apply (print_hex_dump_bytes _ _ 0); lia].
  unfold inspect_packet. cbn [packet_storage default]. unfold id.
  erewrite find_idx_unique; [|exact Hi|by apply Z.eqb_refl|].
  - rewrite Hi. by rewrite Hr2.
  - intros j y [Hj _]%lookup_take_Some Hy%Z.eqb_eq. by eapply kept_ids.
Qed.

Lemma cshark_session_inspect_witness :
  exists evs rs s, sniff_all_packets true true evs no_session = Ret (rs, s) /\
    packet_storage s = Some (kept (numbered 1 evs)) /\ (length (kept (numbered 1 evs)) = 2)%nat.
Proof.
  pose (evs := [Packet (1, 0) [1; 2; 3] true; Timeout; Packet (2, 0) [4] false; Packet (3, 0) [5; 6] true;
                Sigint; Packet (4, 0) [7] true]).
  assert (exists rs s, sniff_all_packets true true evs no_session = Ret (rs, s)) as (rs & s & H).
  { do 2 eexists. by vm_compute. }
  exists evs, rs, s. split; [done|].
  destruct (cshark_session_inspect evs no_session rs s) as [H1 _]; [by vm_compute|done|].
  split; [done|by vm_compute].
Defined.

End CsharkRun.
