(* ===== verification/Grep.v ===== *)
(** * grep (xv6-memory-management/user/grep.c; the same file is in
    xv6-scheduling)

    C strings are the lists of their bytes before the terminator.  The regular
    expression matcher needs no fuel: [matchhere] recurses on the pattern and
    [matchstar] on the text. *)
From S2P Require Import Prelude.

#[local] Open Scope Z_scope.

Module Grep.

Definition CARET : Z := 94.
Definition DOLLAR : Z := 36.
Definition STAR : Z := 42.
Definition DOT : Z := 46.
Definition NL : Z := 10.

(** ** The matcher *)

(** [here] is [matchhere] of the rest of the pattern. *)
Fixpoint matchstar (here : list Z -> bool) (c : Z) (text : list Z) : bool :=
  if here text then true
  else match text with
       | [] => false
       | t :: text => if (t =? c) || (c =? DOT) then matchstar here c text else false
       end.

Fixpoint matchhere (re text : list Z) : bool :=
  match re with
  | [] => true
  | c :: re1 =>
      match re1 with
      | s :: re2 =>
          if s =? STAR then matchstar (matchhere re2) c text
          else match text with
               | [] => false
               | t :: text => if (c =? DOT) || (c =? t) then matchhere re1 text else false
               end
      | [] =>
          if c =? DOLLAR then match text with [] => true | _ => false end
          else match text with
               | [] => false
               | t :: text => if (c =? DOT) || (c =? t) then matchhere re1 text else false
               end
      end
  end.

(** The loop of [match], from each position of the text on. *)
Fixpoint match_from (re text : list Z) : bool :=
  if matchhere re text then true
  else match text with [] => false | _ :: text => match_from re text end.

Definition match_ (re text : list Z) : bool :=
  match re with
  | c :: re' => if c =? CARET then matchhere re' text else match_from re text
  | [] => match_from re text
  end.

(** ** The line loop *)

(** [strchr(p, '\n')] on the bytes of the buffer before its final NUL: the line
    and what follows it, unless a NUL comes first. *)
Fixpoint take_line (p : list Z) : option (list Z * list Z) :=
  match p with
  | [] => None
  | c :: p' =>
      if c =? NL then Some ([], p')
      else if c =? 0 then None
      else '(line, rest) ← take_line p'; Some (c :: line, rest)
  end.

(** The inner loop: what is written, and what is left in the buffer. *)
Fixpoint match_lines (fuel : nat) (pattern p : list Z) : list Z * list Z :=
  match fuel with
  | O => ([], p)
  | S fuel =>
      match take_line p with
      | None => ([], p)
      | Some (line, rest) =>
          let '(out, kept) := match_lines fuel pattern rest in
          ((if match_ pattern line then line ++ [NL] else []) ++ out, kept)
      end
  end.

Definition BUFSIZE : nat := 1024.

(** [grep]: [m] bytes are left in the buffer from the previous round.  A read
    of [k] bytes at position [pos] of the input returns [S (avail pos)] bytes, or
    fewer if it asks for fewer or the input ends; [None]: out of fuel. *)
Fixpoint grep (fuel : nat) (pattern buf : list Z) (avail : nat -> nat) (pos : nat) (input : list Z)
    : option (list Z) :=
  match fuel with
  | O => None
  | S fuel =>
      let n := Nat.min (S (avail pos)) (BUFSIZE - length buf - 1) in
      match take n input with
      | [] => Some []
      | chunk =>
          let p := buf ++ chunk in
          let '(out, kept) := match_lines (length p) pattern p in
          rest ← grep fuel pattern kept avail (pos + length chunk) (drop n input);
          Some (out ++ rest)
      end
  end.

(** [main]: the files are given by their contents, [None] for one that cannot
    be opened; the exit status and the output. *)
Fixpoint grep_files (pattern : list Z) (avail : nat -> nat) (files : list (option (list Z)))
    : option (Z * list Z) :=
  match files with
  | [] => Some (0, [])
  | None :: _ => Some (1, [])
  | Some input :: files =>
      out ← grep (S (length input)) pattern [] avail 0 input;
      '(status, rest) ← grep_files pattern avail files;
      Some (status, out ++ rest)
  end.

End Grep.
