(* ===== verification/GrepFacts.v ===== *)
(** * grep: the matcher decides the language of the pattern; which lines are
    printed *)
From S2P Require Import Prelude Grep.

#[local] Open Scope Z_scope.

Module GrepFacts.
Import Grep.

(** ** Patterns and their languages *)

Inductive atom := Any | Lit (c : Z).
Inductive item := One (a : atom) | Many (a : atom).

Definition atom_ok (a : atom) (c : Z) : Prop := match a with Any => True | Lit d => c = d end.

Definition atom_of (c : Z) : atom := if c =? DOT then Any else Lit c.

(** The items of a pattern without its caret, and whether it ends with a
    dollar that anchors it. *)
Fixpoint items_of (re : list Z) : list item * bool :=
  match re with
  | [] => ([], false)
  | c :: re1 =>
      match re1 with
      | s :: re2 =>
          if s =? STAR then (Many (atom_of c) :: (items_of re2).1, (items_of re2).2)
          else (One (atom_of c) :: (items_of re1).1, (items_of re1).2)
      | [] => if c =? DOLLAR then ([], true) else ([One (atom_of c)], false)
      end
  end.

Inductive lang : list item -> list Z -> Prop :=
| lang_nil : lang [] []
| lang_one a c l s : atom_ok a c -> lang l s -> lang (One a :: l) (c :: s)
| lang_many a r l s : Forall (atom_ok a) r -> lang l s -> lang (Many a :: l) (r ++ s).

(** The caret anchors a pattern only as its first character. *)
Definition anchored (re : list Z) : bool :=
  match re with c :: _ => c =? CARET | [] => false end.
Definition body (re : list Z) : list Z := if anchored re then tail re else re.

(** The text contains a word of the pattern's language where the anchors allow
    it. *)
Definition occurs (re text : list Z) : Prop :=
  exists pre mid suf, text = pre ++ mid ++ suf /\ lang (items_of (body re)).1 mid /\
    (anchored re = true -> pre = []) /\ ((items_of (body re)).2 = true -> suf = []).

(** ** The matcher *)

Definition here (re text : list Z) : Prop :=
  exists mid suf, text = mid ++ suf /\ lang (items_of re).1 mid /\ ((items_of re).2 = true -> suf = []).

Lemma atom_of_ok c t : atom_ok (atom_of c) t <-> c = DOT \/ c = t.
Proof. unfold atom_of. destruct (Z.eqb_spec c DOT); simpl; naive_solver. Qed.

Lemma matchstar_spec f c text :
  matchstar f c text = true <->
  exists r rest, text = r ++ rest /\ Forall (atom_ok (atom_of c)) r /\ f rest = true.
Proof.
  induction text as [|t text IH]; simpl.
  - destruct (f []) eqn:E; split; try done.
    + intros _. by exists [], [].
    + intros (r & rest & H & _ & Hf). symmetry in H. apply app_eq_nil in H as [-> ->]. congruence.
  - destruct (f (t :: text)) eqn:E.
    { split; [intros _; by exists [], (t :: text)|done]. }
    assert ((t =? c) || (c =? DOT) = true <-> atom_ok (atom_of c) t) as Ht.
    { rewrite atom_of_ok, orb_true_iff, !Z.eqb_eq. naive_solver. }
    destruct ((t =? c) || (c =? DOT)).
    + rewrite IH. split.
      * intros (r & rest & -> & Hr & Hf). exists (t :: r), rest. split; [done|]. split; [|done].
        constructor; [by apply Ht|done].
      * intros ([|u r] & rest & H & Hr & Hf); simplify_eq/=; [congruence|].
        exists r, rest. by apply Forall_cons in Hr as [_ ?].
    + split; [done|]. intros ([|u r] & rest & H & Hr & Hf); simplify_eq/=; [congruence|].
      apply Forall_cons in Hr as [Hu _]. by apply Ht in Hu.
Qed.

Lemma here_one c re text (Hp : items_of (c :: re) = (One (atom_of c) :: (items_of re).1, (items_of re).2)) :
  (forall text, matchhere re text = true <-> here re text) ->
  match text with
  | [] => false
  | t :: text => if (c =? DOT) || (c =? t) then matchhere re text else false
  end = true <-> here (c :: re) text.
Proof.
  intros IH. unfold here. rewrite Hp. simpl. split.
  - destruct text as [|t text]; [done|]. destruct ((c =? DOT) || (c =? t)) eqn:E; [|done].
    intros (mid & suf & -> & Hl & Hs)%IH. exists (t :: mid), suf. split; [done|]. split; [|done].
    constructor; [|done]. rewrite atom_of_ok. apply orb_true_iff in E. rewrite !Z.eqb_eq in E. naive_solver.
  - intros (mid & suf & -> & Hl & Hs). inversion Hl as [|a t l s Ha Hl'|]; subst. simpl.
    assert ((c =? DOT) || (c =? t) = true) as ->.
    { apply atom_of_ok in Ha. rewrite orb_true_iff, !Z.eqb_eq. naive_solver. }
    apply IH. by exists s, suf.
Qed.

Lemma matchhere_spec re text : matchhere re text = true <-> here re text.
Proof.
  revert text. induction re as [re IH] using (induction_ltof1 _ (@length Z)); unfold ltof in IH. intros text.
  destruct re as [|c [|s re2]].
  - split; [|done]. intros _. exists [], text. split; [done|]. split; [constructor|done].
  - cbn [matchhere]. destruct (Z.eqb_spec c DOLLAR) as [->|Hc].
    + split.
      * destruct text; [|done]. intros _. exists [], []. split; [done|]. split; [constructor|done].
      * intros (mid & suf & -> & Hl & Hs). simpl in *. inversion Hl; subst. by rewrite Hs.
    + apply (here_one c [] text); [|by intros; apply IH; simpl; lia]. simpl. by rewrite (proj2 (Z.eqb_neq _ _) Hc).
  - cbn [matchhere]. destruct (Z.eqb_spec s STAR) as [->|Hs].
    + rewrite matchstar_spec. unfold here. simpl. split.
      * intros (r & rest & -> & Hr & Hf). apply IH in Hf as (mid & suf & -> & Hl & He); [|simpl; lia].
        exists (r ++ mid), suf. split; [by rewrite app_assoc|]. split; [by constructor|done].
      * intros (mid & suf & -> & Hl & He). inversion Hl as [| |a r l s' Hr Hl']; subst.
        exists r, (s' ++ suf). split; [by rewrite app_assoc|]. split; [done|].
        apply IH; [simpl; lia|]. by exists s', suf.
    + apply (here_one c (s :: re2) text); [|by intros; apply IH; simpl; lia]. cbn [items_of]. by rewrite (proj2 (Z.eqb_neq _ _) Hs).
Qed.

Lemma match_from_spec re text :
  match_from re text = true <-> exists pre rest, text = pre ++ rest /\ here re rest.
Proof.
  induction text as [|t text IH]; simpl; destruct (matchhere re _) eqn:E.
  - split; [|done]. intros _. exists [], []. split; [done|]. by apply matchhere_spec.
  - split; [done|]. intros (pre & rest & H & Hh). symmetry in H. apply app_eq_nil in H as [-> ->].
    apply matchhere_spec in Hh. congruence.
  - split; [|done]. intros _. exists [], (t :: text). split; [done|]. by apply matchhere_spec.
  - rewrite IH. split.
    + intros (pre & rest & -> & Hh). by exists (t :: pre), rest.
    + intros ([|u pre] & rest & H & Hh); simplify_eq/=; [|by exists pre, rest].
      apply matchhere_spec in Hh. congruence.
Qed.

(** (C12) The backtracking matcher of grep decides the language of its pattern:
    it answers yes exactly if the line contains a word of the language, from its
    start when the pattern begins with a caret, up to its end when the pattern
    ends with a dollar that is not starred.  In particular it always answers. *)
Theorem grep_match_decides_language re text : match_ re text = true <-> occurs re text.
Proof.
  unfold match_, occurs, body. destruct (anchored re) eqn:Ha; unfold anchored in Ha.
  - destruct re as [|c re]; [done|]. rewrite Ha, matchhere_spec. unfold here. cbn [tail]. split.
    + intros (mid & suf & -> & Hl & Hs). exists [], mid, suf. split_and!; done.
    + intros (pre & mid & suf & -> & Hl & Hp & Hs). rewrite Hp by done. by exists mid, suf.
  - transitivity (match_from re text = true).
    { destruct re as [|c re]; [done|]. by rewrite Ha. }
    rewrite match_from_spec. unfold here. split.
    + intros (pre & rest & -> & mid & suf & -> & Hl & Hs). exists pre, mid, suf. split_and!; done.
    + intros (pre & mid & suf & -> & Hl & _ & Hs). exists pre, (mid ++ suf). split; [done|]. by exists mid, suf.
Qed.

(** (^a.*b$): "a1b" matches, "ab" followed by more does not. *)
Example match_example :
  match_ [94; 97; 46; 42; 98; 36] [97; 49; 98] = true /\ match_ [94; 97; 46; 42; 98; 36] [97; 98; 99] = false.
Proof. done. Qed.

(** ** The lines *)

(** The complete lines of a text, and what follows the last of them. *)
Fixpoint split_nl (l : list Z) : list (list Z) * list Z :=
  match l with
  | [] => ([], [])
  | c :: l =>
      let '(ls, t) := split_nl l in
      if c =? NL then ([] :: ls, t)
      else match ls with [] => ([], c :: t) | x :: ls => ((c :: x) :: ls, t) end
  end.

Definition printed (pattern : list Z) (ls : list (list Z)) : list Z :=
  concat ((fun line => if match_ pattern line then line ++ [NL] else []) <$> ls).

(** A line fits if the buffer can hold it with its newline and a final NUL. *)
Definition fits (line : list Z) : bool := (length line + 2 <=? BUFSIZE)%nat.

Fixpoint take_while {A} (f : A -> bool) (l : list A) : list A :=
  match l with [] => [] | x :: l => if f x then x :: take_while f l else [] end.

Lemma take_while_app {A} (f : A -> bool) l k :
  Forall (fun x => f x = true) l -> take_while f (l ++ k) = l ++ take_while f k.
Proof. induction 1 as [|x l Hx _ IH]; [done|]. simpl. by rewrite Hx, IH. Qed.

Lemma split_nl_app p r :
  split_nl (p ++ r) =
    ((split_nl p).1 ++ (split_nl ((split_nl p).2 ++ r)).1, (split_nl ((split_nl p).2 ++ r)).2).
Proof.
  induction p as [|c p IH]; simpl; [by destruct (split_nl r)|]. rewrite IH.
  destruct (split_nl p) as [[|x ls] t] eqn:E; simpl.
  - destruct (c =? NL) eqn:Ec; simpl; [done|]. rewrite Ec. by destruct (split_nl (t ++ r)) as [[|] ?].
  - by destruct (c =? NL).
Qed.

Lemma split_nl_none l : NL ∉ l -> split_nl l = ([], l).
Proof.
  induction l as [|c l IH]; intros H; simpl; [done|]. apply not_elem_of_cons in H as [Hc Hl].
  rewrite IH by done. by rewrite (proj2 (Z.eqb_neq c NL)).
Qed.

Lemma split_nl_rest l : NL ∉ (split_nl l).2 /\ (forall x, x ∈ (split_nl l).2 -> x ∈ l).
Proof.
  induction l as [|c l [IH1 IH2]]; simpl; [set_solver|].
  destruct (split_nl l) as [[|x ls] t]; simpl in *; destruct (Z.eqb_spec c NL); simpl; set_solver.
Qed.

Lemma split_nl_length l :
  Forall (fun x => (length x < length l)%nat) (split_nl l).1 /\ (length (split_nl l).2 <= length l)%nat.
Proof.
  induction l as [|c l [IH1 IH2]]; simpl; [done|].
  destruct (split_nl l) as [[|x ls] t]; simpl in *; destruct (c =? NL); simpl; split; try lia.
  - constructor; [simpl; lia|constructor].
  - constructor.
  - constructor; [simpl; lia|]. eapply Forall_impl; [exact IH1|]. simpl. lia.
  - apply Forall_cons in IH1 as [Hx IH1]. constructor; [simpl; lia|].
    eapply Forall_impl; [exact IH1|]. simpl. lia.
Qed.

(** The first complete line of a text starts with the text's unbroken start. *)
Lemma split_nl_first buf l : NL ∉ buf ->
  (split_nl (buf ++ l)).1 = [] \/ exists x ls, (split_nl (buf ++ l)).1 = (buf ++ x) :: ls.
Proof.
  induction buf as [|c buf IH]; intros H; simpl.
  - destruct (split_nl l) as [[|x ls] t]; [by left|right]. by exists x, ls.
  - apply not_elem_of_cons in H as [Hc Hb]. specialize (IH Hb).
    destruct (split_nl (buf ++ l)) as [ls t]. simpl in IH. rewrite (proj2 (Z.eqb_neq c NL)) by done.
    destruct IH as [->|(x & ls' & ->)]; [by left|right]. by exists x, ls'.
Qed.

Lemma take_line_spec p : 0 ∉ p ->
  match split_nl p with
  | ([], t) => take_line p = None
  | (x :: ls, t) => exists rest, take_line p = Some (x, rest) /\ split_nl rest = (ls, t) /\
      (length rest < length p)%nat /\ 0 ∉ rest
  end.
Proof.
  induction p as [|c p IH]; intros H; simpl; [done|]. apply not_elem_of_cons in H as [Hc Hp].
  specialize (IH Hp). destruct (split_nl p) as [ls t] eqn:E. destruct (c =? NL).
  { exists p. split_and!; [done|done|lia|done]. }
  rewrite (proj2 (Z.eqb_neq c 0)) by done. destruct ls as [|x ls].
  - by rewrite IH.
  - destruct IH as (rest & -> & Hr & Hl & H0). exists rest. split_and!; [done|done|lia|done].
Qed.

Lemma match_lines_spec fuel pattern p : (length p <= fuel)%nat -> 0 ∉ p ->
  match_lines fuel pattern p = (printed pattern (split_nl p).1, (split_nl p).2).
Proof.
  revert p. induction fuel as [|fuel IH]; intros p Hf H0.
  { destruct p; [done|simpl in Hf; lia]. }
  simpl. pose proof (take_line_spec p H0) as Ht. destruct (split_nl p) as [[|x ls] t] eqn:E.
  - rewrite Ht. simpl. f_equal.
    assert (forall q, (split_nl q).1 = [] -> (split_nl q).2 = q) as Hq.
    { induction q as [|c q IHq]; [done|]. simpl. destruct (split_nl q) as [[|] tq]; simpl in *; destruct (c =? NL);
        simpl; try done. by rewrite IHq. }
    specialize (Hq p). rewrite E in Hq. simpl in Hq. by rewrite Hq.
  - destruct Ht as (rest & -> & Hr & Hl & Hz). rewrite IH by (done || lia). by rewrite Hr.
Qed.

Lemma grep_spec fuel pattern buf avail pos input :
  (length input < fuel)%nat -> NL ∉ buf -> 0 ∉ buf ++ input -> (length buf < BUFSIZE)%nat ->
  grep fuel pattern buf avail pos input =
    Some (printed pattern (take_while fits (split_nl (buf ++ input)).1)).
Proof.
  revert buf pos input. induction fuel as [|fuel IH]; intros buf pos input Hf Hnl H0 Hb; [lia|].
  cbn [grep]. set (n := Nat.min (S (avail pos)) (BUFSIZE - length buf - 1)).
  destruct (take n input) as [|c chunk] eqn:Hc.
  - do 2 f_equal. destruct input as [|c input].
    { rewrite app_nil_r. by rewrite split_nl_none. }
    assert (n = 0)%nat as Hn by (destruct n; [done|discriminate Hc]).
    destruct (split_nl_first buf (c :: input) Hnl) as [->|(x & ls & ->)]; [done|]. simpl.
    assert (fits (buf ++ x) = false) as ->; [|done].
    unfold fits. apply Nat.leb_gt. rewrite length_app. lia.
  - rewrite <- Hc. assert (take n input <> []) as Hne by (by rewrite Hc).
    rewrite <- (take_drop n input) in H0. rewrite app_assoc in H0. apply not_elem_of_app in H0 as [Hp Hd].
    rewrite match_lines_spec by done.
    destruct (split_nl_rest (buf ++ take n input)) as [Hr1 Hr2].
    destruct (split_nl_length (buf ++ take n input)) as [Hl1 Hl2].
    assert (length (take n input) <> 0%nat) as Hlen by (destruct (take n input); [done|simpl; lia]).
    rewrite length_take in Hlen.
    assert (length (buf ++ take n input) < BUFSIZE)%nat as Hfit.
    { rewrite length_app, length_take. lia. }
    rewrite IH.
    + rewrite <- (take_drop n input) at 3. rewrite app_assoc, (split_nl_app (buf ++ take n input)). cbn [fst].
      rewrite take_while_app.
      * unfold printed. by rewrite fmap_app, concat_app.
      * eapply Forall_impl; [exact Hl1|]. intros x Hx. simpl in Hx. apply Nat.leb_le. lia.
    + rewrite length_drop. lia.
    + done.
    + apply not_elem_of_app. split; [|done]. intros H. by apply Hp, Hr2.
    + lia.
Qed.

(** (C28) For an input without NUL bytes (at one, strchr takes the buffer to end),
    however it arrives (read may return any number of bytes from one
    up to what was asked), grep prints exactly the matching lines that end with a
    newline, in their order, up to the first line of more than 1022 bytes: from
    there on it prints nothing more, and an unterminated last line is never
    printed.  It always ends. *)
Theorem grep_prints_matching_lines pattern avail input :
  0 ∉ input ->
  grep (S (length input)) pattern [] avail 0 input =
    Some (printed pattern (take_while fits (split_nl input).1)).
Proof. intros H. apply grep_spec; [lia|set_solver|done|]. simpl. unfold BUFSIZE. lia. Qed.

(** The lines "ab", "cb", "a" and an unterminated "ac", read in pieces of two
    bytes and of four, with the pattern ^a. *)
Lemma grep_prints_matching_lines_witness :
  let input := [97; 98; 10; 99; 98; 10; 97; 10; 97; 99] in
  grep 11 [94; 97] [] (fun pos => if Nat.even pos then 1 else 3)%nat 0 input = Some [97; 98; 10; 97; 10].
Proof.
  intros input. rewrite (grep_prints_matching_lines [94; 97] _ input); [done|]. unfold input. set_solver.
Defined.

End GrepFacts.
