(* ===== verification/Umalloc.v ===== *)
(** * malloc and free (xv6-memory-management/user/umalloc.c; the same file is in
    xv6-scheduling)

    The two fields of the header at each address are two functions, so the
    circular free list lives inside the free blocks as in the code.  Pointers
    are byte addresses and [p + n] on a [Header *] is [p + 16 * n].  The kernel's
    [sbrk] moves the end [brk] of the process's memory; whether it can is an
    argument.  The list walks take fuel; [None] means it ran out. *)
From S2P Require Import Prelude.

#[local] Open Scope Z_scope.

Module Umalloc.

Record heap := { ptr : Z -> Z; size : Z -> Z; freep : Z; brk : Z }.

Definition SIZEOF_HEADER : Z := 16.

(** [p + n] for a header pointer. *)
Definition hadd (p n : Z) : Z := p + SIZEOF_HEADER * n.

Definition upd (f : Z -> Z) (a v : Z) : Z -> Z := fun x => if x =? a then v else f x.

Definition set_ptr (a v : Z) (h : heap) : heap :=
  {| ptr := upd (ptr h) a v; size := size h; freep := freep h; brk := brk h |}.
Definition set_size (a v : Z) (h : heap) : heap :=
  {| ptr := ptr h; size := upd (size h) a v; freep := freep h; brk := brk h |}.
Definition set_freep (v : Z) (h : heap) : heap :=
  {| ptr := ptr h; size := size h; freep := v; brk := brk h |}.
Definition set_brk (v : Z) (h : heap) : heap :=
  {| ptr := ptr h; size := size h; freep := freep h; brk := v |}.

Section umalloc.
Context (base : Z).                 (* the address of the static header *)
Context (grow : Z -> Z -> bool).    (* can sbrk move the end by so much? *)

(** The old end, or [None] for the error value. *)
Definition sbrk (n : Z) (h : heap) : option (Z * heap) :=
  if grow (brk h) n then Some (brk h, set_brk (brk h + n) h) else None.

(** Where the walk of [free] stops. *)
Definition stops (h : heap) (bp p : Z) : bool :=
  ((p <? bp) && (bp <? ptr h p)) ||
  ((ptr h p <=? p) && ((p <? bp) || (bp <? ptr h p))).

Fixpoint find_slot (fuel : nat) (h : heap) (bp p : Z) : option Z :=
  match fuel with
  | O => None
  | S fuel => if stops h bp p then Some p else find_slot fuel h bp (ptr h p)
  end.

(** Joining [bp] with the block behind it, and [p] with [bp]. *)
Definition join_upper (bp p : Z) (h : heap) : heap :=
  let q := ptr h p in
  if hadd bp (size h bp) =? q then
    set_ptr bp (ptr h q) (set_size bp (u32 (size h bp + size h q)) h)
  else set_ptr bp q h.

Definition join_lower (bp p : Z) (h : heap) : heap :=
  if hadd p (size h p) =? bp then
    set_ptr p (ptr h bp) (set_size p (u32 (size h p + size h bp)) h)
  else set_ptr p bp h.

Definition free (fuel : nat) (ap : Z) (h : heap) : option heap :=
  let bp := ap - SIZEOF_HEADER in
  p ← find_slot fuel h bp (freep h);
  Some (set_freep p (join_lower bp p (join_upper bp p h))).

(** The parameter of [sbrk] is an int.  The inner option of the result is the
    null pointer. *)
Definition morecore (fuel : nat) (nu : Z) (h : heap) : option (option Z * heap) :=
  let nu := if nu <? 4096 then 4096 else nu in
  match sbrk (i32 (nu * SIZEOF_HEADER)) h with
  | None => Some (None, h)
  | Some (hp, h) =>
      h ← free fuel (hadd hp 1) (set_size hp nu h);
      Some (Some (freep h), h)
  end.

(** Taking [nunits] from the block [p] that follows [prevp]. *)
Definition carve (nunits prevp p : Z) (h : heap) : Z * heap :=
  if size h p =? nunits then (hadd p 1, set_freep prevp (set_ptr prevp (ptr h p) h))
  else
    let h := set_size p (size h p - nunits) h in
    let q := hadd p (size h p) in
    (hadd q 1, set_freep prevp (set_size q nunits h)).

Fixpoint malloc_loop (fuel : nat) (nunits prevp p : Z) (h : heap)
    : option (option Z * heap) :=
  match fuel with
  | O => None
  | S fuel =>
      if nunits <=? size h p then let '(a, h) := carve nunits prevp p h in Some (Some a, h)
      else if p =? freep h then
        match morecore (S fuel) nunits h with
        | None => None
        | Some (None, h) => Some (None, h)
        | Some (Some p, h) => malloc_loop fuel nunits p (ptr h p) h
        end
      else malloc_loop fuel nunits p (ptr h p) h
  end.

Definition units (nbytes : Z) : Z := u32 ((nbytes + SIZEOF_HEADER - 1) / SIZEOF_HEADER + 1).

(** The free list before the first call: the static header alone. *)
Definition init (h : heap) : heap :=
  if freep h =? 0 then set_size base 0 (set_freep base (set_ptr base base h)) else h.

Definition malloc (fuel : nat) (nbytes : Z) (h : heap) : option (option Z * heap) :=
  let h := init h in
  malloc_loop fuel (units nbytes) (freep h) (ptr h (freep h)) h.

End umalloc.

End Umalloc.
