(* ===== verification/UmallocFacts.v ===== *)
(** * The free list of malloc is sorted, merged, and disjoint from what was
    handed out. *)
From stdpp Require Import sorting.
From S2P Require Import Prelude Umalloc.

#[local] Open Scope Z_scope.

Module UmallocFacts.
Import Umalloc.

(** A block: the address of its header and its length in headers. *)
Notation block := (Z * Z)%type.

(** The addresses of a block. *)
Definition blk (b : block) (x : Z) : Prop := b.1 <= x < b.1 + 16 * b.2.

(** [b] ends before [c] starts, and they do not touch. *)
Definition before (b c : block) : Prop := b.1 + 16 * b.2 < c.1.

(** Following [ptr] from [p] visits the headers of [l] and then is at [q]. *)
Fixpoint seg (h : heap) (l : list block) (p q : Z) : Prop :=
  match l with
  | [] => p = q
  | (a, s) :: l => a = p /\ size h a = s /\ seg h l (ptr h a) q
  end.

Lemma seg_app h l1 l2 p q : seg h (l1 ++ l2) p q <-> exists r, seg h l1 p r /\ seg h l2 r q.
Proof.
  revert p. induction l1 as [|[a s] l1 IH]; intros p; simpl.
  - split; [intros H; by exists p|]. by intros (r & -> & H).
  - rewrite IH. naive_solver.
Qed.

Lemma seg_frame h h' l p q :
  (forall b, b ∈ l -> ptr h' b.1 = ptr h b.1 /\ size h' b.1 = size h b.1) -> seg h l p q -> seg h' l p q.
Proof.
  revert p. induction l as [|[a s] l IH]; intros p Hf; simpl; [done|].
  destruct (Hf (a, s)) as [H1 H2]; [set_solver|]. simpl in H1, H2. rewrite H1, H2.
  intros (-> & -> & H). split_and!; [done..|]. apply IH; [|done]. set_solver.
Qed.

Lemma seg_head h b l p q : seg h (b :: l) p q -> p = b.1 /\ size h b.1 = b.2 /\ seg h l (ptr h b.1) q.
Proof. destruct b as [a s]. simpl. naive_solver. Qed.

Lemma seg_start h l p q : seg h l p q -> p = match l with [] => q | b :: _ => b.1 end.
Proof. destruct l as [|[a s] l]; simpl; naive_solver. Qed.

Lemma seg_freep h v l p q : seg h l p q -> seg (set_freep v h) l p q.
Proof. apply seg_frame. intros b _. done. Qed.

Lemma upd_eq f a v : upd f a v a = v.
Proof. unfold upd. by rewrite Z.eqb_refl. Qed.
Lemma upd_ne f a v x : x <> a -> upd f a v x = f x.
Proof. unfold upd. intros H. by rewrite (proj2 (Z.eqb_neq _ _) H). Qed.

(** ** The search of [free] *)

Section search.
Context (base : Z).

Lemma find_walk h bp l x r k :
  seg h l x r -> (forall b, b ∈ l -> stops h bp b.1 = false) ->
  find_slot (length l + k) h bp x = find_slot k h bp r.
Proof.
  revert x. induction l as [|[a s] l IH]; intros x Hs Hb; simpl.
  - simpl in Hs. by subst.
  - destruct Hs as (-> & _ & Hs). pose proof (Hb (x, s) ltac:(set_solver)) as Hst. cbn [fst] in Hst. rewrite Hst. apply IH; [done|].
    intros b Hin. apply Hb. set_solver.
Qed.

Context (h : heap) (bp : Z) (n1 n2 : list block) (p : block).
Context (Hseg : seg h (n1 ++ p :: n2) base base).
Context (Hsort : StronglySorted before (n1 ++ p :: n2)).
Context (Hpos : Forall (fun b => 0 <= b.2) (n1 ++ p :: n2)).
Context (Hbase : forall b, b ∈ n1 ++ p :: n2 -> base <= b.1).
Context (Hp : p.1 < bp) (Hn2 : forall b, b ∈ n2 -> bp < b.1).

(** The header after [b] in the list. *)
Lemma next_of l1 b l2 : n1 ++ p :: n2 = l1 ++ b :: l2 ->
  ptr h b.1 = match l2 with [] => base | c :: _ => c.1 end.
Proof using Hseg.
  clear -Hseg. intros E. rewrite E in Hseg. apply seg_app in Hseg as (r & _ & H).
  apply seg_head in H as (_ & _ & H). by apply seg_start in H.
Qed.

Lemma stops_here : stops h bp p.1 = true.
Proof using All.
  unfold stops. rewrite (next_of n1 p n2) by done. specialize (Hbase p ltac:(set_solver)).
  destruct n2 as [|c n2'].
  - rewrite (proj2 (Z.leb_le base p.1)), (proj2 (Z.ltb_lt p.1 bp)) by lia. by rewrite orb_true_r.
  - specialize (Hn2 c ltac:(set_solver)). by rewrite (proj2 (Z.ltb_lt p.1 bp)), (proj2 (Z.ltb_lt bp c.1)) by lia.
Qed.

(** Two headers that follow each other do not enclose [bp], except at [p]. *)
Lemma stops_elsewhere b : b ∈ n1 \/ b ∈ n2 -> stops h bp b.1 = false.
Proof using All.
  intros Hb. unfold stops. rewrite Forall_forall in Hpos.
  destruct Hb as [Hb|Hb]; apply list_elem_of_split in Hb as (k1 & k2 & E).
  - assert (exists c : block, ptr h b.1 = c.1 /\ b.1 < c.1 /\ c.1 <= p.1) as (c & -> & H1 & H2).
    { rewrite (next_of k1 b (k2 ++ p :: n2)) by (rewrite E, <- app_assoc; done).
      rewrite E, <- app_assoc in Hsort. apply StronglySorted_app in Hsort as (_ & _ & Hs).
      apply StronglySorted_cons in Hs as [Hall Hs]. rewrite Forall_forall in Hall.
      assert (forall c, c ∈ k2 ++ p :: n2 -> b.1 < c.1) as Hlt.
      { intros c Hc. specialize (Hall c Hc). unfold before in Hall.
        specialize (Hpos b ltac:(set_solver)). lia. }
      destruct k2 as [|c k2]; [exists p; split; [done|split; [apply Hlt; set_solver|lia]]|].
      exists c. split; [done|]. split; [apply Hlt; set_solver|].
      apply StronglySorted_cons in Hs as [Hall' _]. rewrite Forall_forall in Hall'.
      specialize (Hall' p ltac:(set_solver)). unfold before in Hall'.
      specialize (Hpos c ltac:(set_solver)). lia. }
    rewrite (proj2 (Z.ltb_ge bp c.1)), (proj2 (Z.leb_gt c.1 b.1)) by lia. by rewrite andb_false_r.
  - assert (ptr h b.1 = base \/ b.1 < ptr h b.1) as Hnext.
    { rewrite (next_of (n1 ++ p :: k1) b k2) by (rewrite E, <- app_assoc; done).
      rewrite E in Hsort. apply StronglySorted_app in Hsort as (_ & _ & Hs).
      apply StronglySorted_cons in Hs as [_ Hs]. apply StronglySorted_app in Hs as (_ & _ & Hs).
      apply StronglySorted_cons in Hs as [Hall _]. rewrite Forall_forall in Hall.
      destruct k2 as [|c k2]; [by left|right]. specialize (Hall c ltac:(set_solver)). unfold before in Hall.
      specialize (Hpos b ltac:(set_solver)). lia. }
    specialize (Hn2 b ltac:(set_solver)). rewrite (proj2 (Z.ltb_ge b.1 bp)) by lia. cbn [andb orb].
    specialize (Hbase p ltac:(set_solver)).
    destruct Hnext as [->|Hnext].
    + rewrite (proj2 (Z.ltb_ge bp base)) by lia. apply andb_false_r.
    + rewrite (proj2 (Z.leb_gt _ _)) by lia. done.
Qed.

(** From any header of the list the walk ends at [p], within one round. *)
Lemma find_slot_spec f fuel : f ∈ (n1 ++ p :: n2).*1 -> (length (n1 ++ p :: n2) <= fuel)%nat ->
  find_slot fuel h bp f = Some p.1.
Proof using All.
  intros Hf Hfuel. rewrite length_app in Hfuel. simpl in Hfuel.
  assert (forall k, find_slot (S k) h bp p.1 = Some p.1) as Hend by (intros k; simpl; by rewrite stops_here).
  pose proof Hseg as Hs. apply seg_app in Hs as (r & Hs1 & Hs2).
  pose proof (seg_head _ _ _ _ _ Hs2) as (-> & _ & Hs3).
  apply list_elem_of_fmap in Hf as (b & -> & Hb). apply elem_of_app in Hb as [Hb|[->|Hb]%elem_of_cons].
  - apply list_elem_of_split in Hb as (k1 & k2 & E). rewrite E in Hs1.
    apply seg_app in Hs1 as (r & _ & Hs1). pose proof (seg_head _ _ _ _ _ Hs1) as (-> & _ & _).
    assert (length (b :: k2) <= length n1)%nat as Hl by (rewrite E, length_app; lia).
    replace fuel with (length (b :: k2) + S (fuel - length (b :: k2) - 1))%nat by lia.
    rewrite (find_walk _ _ _ _ _ _ Hs1); [done|]. intros c Hc. apply stops_elsewhere. left. rewrite E. set_solver.
  - destruct fuel; [lia|done].
  - apply list_elem_of_split in Hb as (k1 & k2 & E). rewrite E in Hs3.
    apply seg_app in Hs3 as (r & _ & Hs3). pose proof (seg_head _ _ _ _ _ Hs3) as (-> & _ & _).
    assert (length (b :: k2) <= length n2)%nat as Hl by (rewrite E, length_app; lia).
    replace fuel with (length (b :: k2) + (length n1 + S (fuel - length (b :: k2) - length n1 - 1)))%nat by lia.
    rewrite (find_walk _ _ _ _ _ _ Hs3), (find_walk _ _ _ _ _ _ Hs1); [done|..];
      intros c Hc; apply stops_elsewhere; [by left|right; rewrite E; set_solver].
Qed.
End search.
(** ** Putting a block back *)

Definition covers (L : list block) (x : Z) : Prop := exists b, b ∈ L /\ blk b x.

Lemma covers_cons b L x : covers (b :: L) x <-> blk b x \/ covers L x.
Proof. unfold covers. set_solver. Qed.
Lemma covers_app L K x : covers (L ++ K) x <-> covers L x \/ covers K x.
Proof. unfold covers. set_solver. Qed.
Lemma covers_nil x : covers [] x <-> False.
Proof. unfold covers. set_solver. Qed.

(** Addresses are below [LIM], so that sizes are below 2^32. *)
Definition LIM : Z := 2 ^ 36.

Definition in_lim (b : block) : Prop := 1 <= b.2 /\ b.1 + 16 * b.2 <= LIM.

(** The headers other than those of [A] are as before. *)
Definition same_off (A : list Z) (h h' : heap) : Prop :=
  forall a, a ∉ A -> ptr h' a = ptr h a /\ size h' a = size h a.

Lemma seg_same A h h' l p q : same_off A h h' -> (forall b, b ∈ l -> b.1 ∉ A) -> seg h l p q -> seg h' l p q.
Proof. intros Hs Hl. apply seg_frame. intros b Hb. by apply Hs, Hl. Qed.

Lemma before_trans b c d : 0 <= c.2 -> before b c -> before c d -> before b d.
Proof. unfold before. lia. Qed.

(** A sorted list with a block in front whose end is the start of the first. *)
Lemma sorted_merge_front b c L :
  hadd b.1 b.2 = c.1 -> 0 <= c.2 -> 0 <= b.2 -> StronglySorted before (c :: L) ->
  StronglySorted before ((b.1, b.2 + c.2) :: L).
Proof.
  unfold hadd, SIZEOF_HEADER. intros He Hc Hb [Hall Hs]%StronglySorted_cons. apply StronglySorted_cons. split; [|done].
  eapply Forall_impl; [exact Hall|]. intros d. unfold before. simpl. lia.
Qed.

Lemma blk_merge a s t x : 0 <= s -> 0 <= t ->
  blk (a, s + t) x <-> blk (a, s) x \/ blk (hadd a s, t) x.
Proof. unfold blk, hadd, SIZEOF_HEADER. simpl. lia. Qed.

Section put.
Context (base : Z) (Hbase : 0 < base).

(** The block joined with the one behind it. *)
Lemma join_upper_spec h bp p n2 :
  seg h n2 (ptr h p) base -> base < bp -> in_lim (bp, size h bp) ->
  StronglySorted before n2 -> Forall in_lim n2 ->
  (forall c, c ∈ n2 -> bp + 16 * size h bp <= c.1) ->
  exists t' n2', seg (join_upper bp p h) ((bp, t') :: n2') bp base /\
    StronglySorted before ((bp, t') :: n2') /\ Forall in_lim ((bp, t') :: n2') /\
    (forall x, covers ((bp, t') :: n2') x <-> blk (bp, size h bp) x \/ covers n2 x) /\
    same_off [bp] h (join_upper bp p h) /\ freep (join_upper bp p h) = freep h /\
    (forall c, c ∈ n2' -> c ∈ n2) /\ (length n2' <= length n2)%nat /\ size h bp <= t'.
Proof.
  intros Hseg Hbp Hin Hsort Hlim Hend. unfold join_upper. pose proof Hin as [Hin1 Hin2]. simpl in Hin1, Hin2.
  assert (forall v, same_off [bp] h (set_ptr bp v h)) as Hoff1.
  { intros v a Ha. simpl. rewrite upd_ne by set_solver. done. }
  assert (forall v w, same_off [bp] h (set_ptr bp v (set_size bp w h))) as Hoff2.
  { intros v w a Ha. simpl. rewrite !upd_ne by set_solver. done. }
  destruct (Z.eqb_spec (hadd bp (size h bp)) (ptr h p)) as [He|He]; unfold hadd, SIZEOF_HEADER in He.
  - destruct n2 as [|c n2]; [simpl in Hseg; lia|]. apply seg_head in Hseg as (Hc & Hsz & Hseg).
    rewrite Hc in *. apply Forall_cons in Hlim as [[Hc1 Hc2] Hlim]. rewrite Hsz.
    assert (u32 (size h bp + c.2) = size h bp + c.2) as Hu by (apply wrapu_small; unfold LIM in *; lia).
    rewrite Hu. exists (size h bp + c.2), n2. split_and!.
    + split; [done|]. split; [simpl; by rewrite upd_eq|]. simpl ptr. rewrite upd_eq.
      eapply seg_same; [apply Hoff2| |exact Hseg]. intros b Hb.
      apply StronglySorted_cons in Hsort as [Hall _]. rewrite Forall_forall in Hall.
      specialize (Hall b Hb). unfold before in Hall. set_solver by lia.
    + apply (sorted_merge_front (bp, size h bp) c); simpl; [unfold hadd, SIZEOF_HEADER; lia|lia|lia|done].
    + constructor; [|done]. split; simpl; lia.
    + intros x. rewrite !covers_cons, blk_merge by lia. destruct c as [ca cs]. simpl in *.
      unfold hadd, SIZEOF_HEADER. rewrite He. tauto.
    + apply Hoff2.
    + done.
    + set_solver.
    + simpl. lia.
    + lia.
  - exists (size h bp), n2. split_and!.
    + split; [done|]. split; [done|]. simpl ptr. rewrite upd_eq.
      eapply seg_same; [apply Hoff1| |exact Hseg]. intros b Hb. specialize (Hend b Hb). set_solver by lia.
    + apply StronglySorted_cons. split; [|done]. apply Forall_forall. intros c Hc. unfold before. simpl.
      pose proof (Hend c Hc). destruct n2 as [|d n2]; [set_solver|].
      apply seg_start in Hseg. rewrite Hseg in He.
      apply elem_of_cons in Hc as [->|Hc]; [lia|].
      apply StronglySorted_cons in Hsort as [Hall _]. rewrite Forall_forall in Hall, Hlim.
      specialize (Hall c Hc). unfold before in Hall. specialize (Hend d ltac:(set_solver)).
      destruct (Hlim d ltac:(set_solver)). lia.
    + by constructor.
    + intros x. by rewrite covers_cons.
    + apply Hoff1.
    + done.
    + done.
    + lia.
    + lia.
Qed.

(** What becomes of [p], [b] and the blocks behind them. *)
Definition joined (p b : block) (n2 m : list block) : Prop :=
  m = p :: b :: n2 \/ m = (p.1, p.2 + b.2) :: n2 /\ p.1 + 16 * p.2 = b.1.

Lemma joined_covers p b n2 m x : 0 <= p.2 -> 0 <= b.2 -> joined p b n2 m ->
  covers m x <-> blk p x \/ covers (b :: n2) x.
Proof.
  intros Hp Hb [->|[-> He]]; rewrite !covers_cons; [done|]. rewrite blk_merge by done.
  unfold hadd, SIZEOF_HEADER. rewrite He. destruct p, b. simpl. tauto.
Qed.

Lemma joined_bound p b n2 m c : 0 <= b.2 -> joined p b n2 m -> Forall in_lim (b :: n2) ->
  StronglySorted before m -> 0 <= p.2 -> c ∈ m -> p.1 <= c.1 /\ (c = p \/ in_lim c).
Proof.
  intros Hb Hj Hlim Hs Hp Hc. rewrite Forall_forall in Hlim.
  assert (c ∈ b :: n2 -> p.1 <= c.1 /\ (c = p \/ in_lim c)) as Htail.
  { intros Hc'. split; [|by right; apply Hlim]. destruct Hj as [->|[-> He]].
    - apply StronglySorted_cons in Hs as [Hall _]. rewrite Forall_forall in Hall. specialize (Hall c Hc').
      unfold before in Hall. lia.
    - apply elem_of_cons in Hc' as [->|Hc']; [lia|].
      apply StronglySorted_cons in Hs as [Hall _]. rewrite Forall_forall in Hall. specialize (Hall c Hc').
      unfold before in Hall. simpl in Hall. lia. }
  destruct Hj as [->|[-> He]]; apply elem_of_cons in Hc as [->|Hc].
  - split; [done|by left].
  - by apply Htail.
  - simpl. split; [done|right]. destruct (Hlim b ltac:(set_solver)) as [H1 H2]. split; simpl; lia.
  - apply Htail. set_solver.
Qed.

(** The block in front joined with it, or linked to it. *)
Lemma join_lower_spec h b p n2 :
  seg h (b :: n2) b.1 base -> size h p.1 = p.2 -> 0 <= p.2 -> 0 < p.1 -> p.1 + 16 * p.2 <= b.1 ->
  StronglySorted before (b :: n2) -> Forall in_lim (b :: n2) ->
  exists m, seg (join_lower b.1 p.1 h) m p.1 base /\ StronglySorted before m /\
    joined p b n2 m /\
    same_off [p.1] h (join_lower b.1 p.1 h) /\ freep (join_lower b.1 p.1 h) = freep h.
Proof.
  intros Hseg Hsz Hp Hp0 Hend Hsort Hlim. unfold join_lower. pose proof (seg_head _ _ _ _ _ Hseg) as (_ & Hb & Hn).
  pose proof (proj1 (Forall_cons _ _ _) Hlim) as [[Hb1 Hb2] Hlim2].
  pose proof (proj1 (StronglySorted_cons _ _ _) Hsort) as [Hall _]. rewrite Forall_forall in Hall.
  rewrite Hsz, Hb. destruct (Z.eqb_spec (hadd p.1 p.2) b.1) as [He|He]; unfold hadd, SIZEOF_HEADER in He.
  - rewrite wrapu_small by (unfold LIM in *; lia).
    assert (same_off [p.1] h (set_ptr p.1 (ptr h b.1) (set_size p.1 (p.2 + b.2) h))) as Hoff.
    { intros a Ha. simpl. rewrite !upd_ne by set_solver. done. }
    exists ((p.1, p.2 + b.2) :: n2). split_and!; [|by apply (sorted_merge_front p b); [unfold hadd, SIZEOF_HEADER; lia|lia..|done]| |done|done].
    + split; [done|]. split; [simpl; by rewrite upd_eq|]. simpl ptr. rewrite upd_eq.
      eapply seg_same; [exact Hoff| |exact Hn]. intros c Hc. specialize (Hall c Hc). unfold before in Hall.
      set_solver by lia.
    + right. split; [done|lia].
  - assert (same_off [p.1] h (set_ptr p.1 b.1 h)) as Hoff.
    { intros a Ha. simpl. rewrite upd_ne by set_solver. done. }
    exists (p :: b :: n2). split_and!; [| |by left|done|done].
    + destruct p as [pa ps]. split; [done|]. split; [done|]. simpl ptr. rewrite upd_eq.
      eapply seg_same; [exact Hoff| |exact Hseg]. simpl in *. intros c [->|Hc]%elem_of_cons; [set_solver by lia|].
      specialize (Hall c Hc). unfold before in Hall. set_solver by lia.
    + apply StronglySorted_cons. split; [|done]. constructor; [unfold before; lia|].
      apply Forall_forall. intros c Hc. specialize (Hall c Hc). unfold before in *. lia.
Qed.

(** The free list: [L] are the free blocks in the order of their addresses. *)
Record flist (h : heap) (L : list block) : Prop := {
  fl_seg : seg h ((base, 0) :: L) base base;
  fl_sorted : StronglySorted before ((base, 0) :: L);
  fl_lim : Forall in_lim L;
  fl_freep : freep h ∈ ((base, 0) :: L).*1 }.

Lemma flist_pos h L : flist h L -> Forall (fun b => 0 <= b.2) ((base, 0) :: L).
Proof.
  intros F. constructor; [done|]. eapply Forall_impl; [apply (fl_lim _ _ F)|]. intros b [Hb _]. lia.
Qed.

Lemma flist_base h L b : flist h L -> b ∈ (base, 0) :: L -> base <= b.1.
Proof.
  intros F [->|Hb]%elem_of_cons; [done|].
  pose proof (proj1 (StronglySorted_cons _ _ _) (fl_sorted _ _ F)) as [Hall _]. rewrite Forall_forall in Hall.
  specialize (Hall b Hb). unfold before in Hall. simpl in Hall. lia.
Qed.

(** Where a new address belongs in a sorted list. *)
Lemma split_at b0 L bp : StronglySorted before (b0 :: L) -> Forall (fun b => 0 <= b.2) (b0 :: L) ->
  b0.1 < bp -> (forall b, b ∈ b0 :: L -> b.1 <> bp) ->
  exists n1 p n2, b0 :: L = n1 ++ p :: n2 /\ p.1 < bp /\ forall b, b ∈ n2 -> bp < b.1.
Proof.
  revert b0. induction L as [|b L IH]; intros b0 Hs Hp H0 Hne.
  { exists [], b0, []. split; [done|]. split; [done|]. set_solver. }
  apply StronglySorted_cons in Hs as [Hall Hs]. apply Forall_cons in Hp as [Hp0 Hp].
  destruct (Z.lt_ge_cases b.1 bp) as [Hlt|Hge].
  - destruct (IH b) as (n1 & p & n2 & E & H1 & H2); [done..|set_solver|].
    exists (b0 :: n1), p, n2. by rewrite E.
  - exists [], b0, (b :: L). split; [done|]. split; [done|]. intros c [->|Hc]%elem_of_cons.
    + specialize (Hne b ltac:(set_solver)). lia.
    + apply StronglySorted_cons in Hs as [Hall' _]. rewrite Forall_forall in Hall'. specialize (Hall' c Hc).
      unfold before in Hall'. apply Forall_cons in Hp as [Hb _]. lia.
Qed.

(** [free] finds the place, joins the block with its neighbours if they touch,
    and changes no header outside the list. *)
Lemma free_spec h L bp fuel :
  flist h L -> base < bp -> in_lim (bp, size h bp) ->
  (forall b, b ∈ (base, 0) :: L -> b.1 + 16 * b.2 <= bp \/ bp + 16 * size h bp <= b.1) ->
  (S (length L) <= fuel)%nat ->
  exists h' L', free fuel (hadd bp 1) h = Some h' /\ flist h' L' /\ (length L' <= S (length L))%nat /\
    (forall x, covers L' x <-> blk (bp, size h bp) x \/ covers L x) /\
    same_off (bp :: ((base, 0) :: L).*1) h h' /\
    (exists b, b ∈ L' /\ size h bp <= b.2) /\ brk h' = brk h.
Proof.
  intros F Hbp Hin Hdis Hfuel. pose proof Hin as [Ht _]. simpl in Ht.
  destruct (split_at (base, 0) L bp) as (n1 & p & n2 & E & Hp & Hn2).
  { apply F. } { by eapply flist_pos. } { done. }
  { intros b Hb. specialize (Hdis b Hb). pose proof (flist_pos _ _ F) as Hpos. rewrite Forall_forall in Hpos.
    specialize (Hpos b Hb). apply elem_of_cons in Hb as [->|Hb]; [simpl; lia|].
    pose proof (fl_lim _ _ F) as Hl. rewrite Forall_forall in Hl. destruct (Hl b Hb). lia. }
  pose proof (fl_seg _ _ F) as Hseg. pose proof (fl_sorted _ _ F) as Hsort. pose proof (flist_pos _ _ F) as Hpos.
  pose proof (fl_freep _ _ F) as Hfp. pose proof (flist_base h L) as Hb. specialize (fun b => Hb b F).
  rewrite E in *.
  assert (length (n1 ++ p :: n2) = S (length L)) as HlenE by by rewrite <- E.
  unfold free. replace (hadd bp 1 - SIZEOF_HEADER) with bp by (unfold hadd, SIZEOF_HEADER; lia).
  rewrite (find_slot_spec base h bp n1 n2 p) by (done || lia || (intros b' Hb'; by apply Hb)).
  cbn [mbind option_bind].
  pose proof Hseg as Hs. apply seg_app in Hs as (r & Hs1 & Hs2).
  pose proof (seg_head _ _ _ _ _ Hs2) as (-> & Hsz & Hs3).
  pose proof Hsort as Hso. apply StronglySorted_app in Hso as (Hcross & Hso1 & Hso2).
  pose proof (proj1 (StronglySorted_cons _ _ _) Hso2) as [Hallp Hso3]. rewrite Forall_forall in Hallp.
  assert (forall b, b ∈ n2 -> b ∈ L) as Hn2L.
  { intros b Hb2. destruct n1 as [|b1 n1]; simplify_eq/=; set_solver. }
  assert (Forall in_lim n2) as Hlim2.
  { apply Forall_forall. intros b Hb2. pose proof (fl_lim _ _ F) as Hl. rewrite Forall_forall in Hl. auto. }
  destruct (join_upper_spec h bp p.1 n2) as (t' & n2' & Hu1 & Hu2 & Hu3 & Hu4 & Hu5 & Hu6 & Hu7 & Hu8 & Hu9);
    [done..| |].
  { intros c Hc. specialize (Hdis c ltac:(set_solver)). specialize (Hn2 c Hc). rewrite Forall_forall in Hpos.
    specialize (Hpos c ltac:(set_solver)). lia. }
  set (h1 := join_upper bp p.1 h) in *.
  assert (p.1 + 16 * p.2 <= bp) as Hpend.
  { destruct (Hdis p ltac:(set_solver)); [done|lia]. }
  assert (0 <= p.2 /\ base <= p.1) as [Hp0 Hpb].
  { split; [|apply Hb; set_solver]. rewrite Forall_forall in Hpos. apply Hpos. set_solver. }
  destruct (join_lower_spec h1 (bp, t') p n2') as (m & Hl1 & Hl2 & Hl3 & Hl4 & Hl5); [done| |done|lia|done|done|done|].
  { rewrite (proj2 (Hu5 p.1 ltac:(set_solver by lia))). done. }
  simpl in Hl1, Hl4, Hl5. set (h2 := join_lower bp p.1 h1) in *.
  assert (0 <= t') as Ht' by lia.
  assert (exists L', n1 ++ m = (base, 0) :: L' /\ (exists m', m = m' ++ n2' /\ (exists b, b ∈ m' /\ b ∈ L' /\ t' <= b.2)))
    as (L' & EL & m' & Em & b & Hbm & HbL & Hbt).
  { destruct n1 as [|b1 n1].
    - simplify_eq/=. destruct Hl3 as [->|[_ He]]; [|simpl in He; lia]. exists ((bp, t') :: n2'). split; [done|].
      exists [(base, 0); (bp, t')]. split; [done|]. exists (bp, t'). split_and!; [set_solver..|done].
    - simplify_eq/=. exists (n1 ++ m). split; [done|].
      destruct Hl3 as [->|[-> He]]; [exists [p; (bp, t')]|exists [(p.1, p.2 + t')]]; (split; [done|]).
      + exists (bp, t'). split_and!; [set_solver..|done].
      + exists (p.1, p.2 + t'). split_and!; [set_solver..|simpl; lia]. }
  assert (same_off (bp :: (n1 ++ p :: n2).*1) h (set_freep p.1 h2)) as Hoff.
  { intros a Ha. apply not_elem_of_cons in Ha as [Ha1 Ha2]. rewrite fmap_app, fmap_cons in Ha2.
    cbn [ptr size set_freep]. destruct (Hl4 a) as [-> ->]; [set_solver|]. apply Hu5. set_solver. }
  assert (forall c, c ∈ m -> p.1 <= c.1 /\ (c = p \/ in_lim c)) as Hm.
  { intros c. by apply (joined_bound p (bp, t') n2'). }
  exists (set_freep p.1 h2), L'. split_and!; [done| | | |done| |].
  - split; rewrite <- ?EL.
    + apply seg_freep, seg_app. exists p.1. split; [|exact Hl1].
      eapply seg_frame; [|exact Hs1]. intros c Hc. simpl.
      specialize (Hcross c p Hc ltac:(set_solver)). unfold before in Hcross. rewrite Forall_forall in Hpos.
      specialize (Hpos c ltac:(set_solver)).
      destruct (Hl4 c.1) as [-> ->]; [set_solver by lia|]. apply Hu5. set_solver by lia.
    + apply StronglySorted_app. split_and!; [|done|done]. intros c d Hc Hd.
      specialize (Hcross c p Hc ltac:(set_solver)). destruct (Hm d Hd) as [Hd1 _]. unfold before in *. lia.
    + apply Forall_forall. intros c Hc. pose proof (fl_lim _ _ F) as HlL. rewrite Forall_forall in HlL.
      destruct n1 as [|b1 n1]; simplify_eq/=.
      * destruct Hl3 as [Hl3|[_ He]]; [|simpl in He; lia]. simplify_eq/=. by apply (proj1 (Forall_forall _ _) Hu3).
      * apply elem_of_app in Hc as [Hc|Hc]; [apply HlL; set_solver|].
        destruct (Hm c Hc) as [_ [->|Hc']]; [apply HlL; set_solver|done].
    + cbn [freep set_freep]. rewrite fmap_app. apply elem_of_app. right. destruct Hl3 as [->|[-> _]]; set_solver.
  - assert (length (n1 ++ m) = S (length L')) as HL' by by rewrite EL.
    rewrite length_app in HL', HlenE. simpl in HlenE. destruct Hl3 as [->|[-> _]]; simpl in HL'; lia.
  - intros x.
    assert (forall K, covers ((base, 0) :: K) x <-> covers K x) as H0.
    { intros K. rewrite covers_cons. unfold blk. simpl. split; [intros [?|?]; [lia|done]|by right]. }
    rewrite <- (H0 L'), <- (H0 L), <- EL, E, !covers_app, covers_cons.
    rewrite (joined_covers p (bp, t') n2' m x) by done. rewrite Hu4. tauto.
  - exists b. split; [done|lia].
  - unfold h2, h1, join_lower, join_upper. by repeat case_match.
Qed.

End put.
End UmallocFacts.
