(* ===== verification/UmallocRun.v ===== *)
(** * malloc finds, carves or obtains a block; sequences of calls *)
From stdpp Require Import sorting.
From S2P Require Import Prelude Umalloc UmallocFacts.

#[local] Open Scope Z_scope.

Module UmallocRun.
Import Umalloc UmallocFacts.

Notation block := (Z * Z)%type.

(** Addresses in front of and behind an element. *)
Lemma sorted_around l1 c l2 : StronglySorted before (l1 ++ c :: l2) ->
  Forall (fun b => 0 <= b.2) (l1 ++ c :: l2) ->
  (forall d, d ∈ l1 -> d.1 + 16 * d.2 < c.1) /\ (forall d, d ∈ l2 -> c.1 + 16 * c.2 < d.1) /\
  (forall d, d ∈ l1 -> d.1 < c.1) /\ (forall d, d ∈ l2 -> c.1 < d.1).
Proof.
  intros Hs Hp. rewrite Forall_forall in Hp. apply StronglySorted_app in Hs as (H1 & _ & H2).
  apply StronglySorted_cons in H2 as [Hall _]. rewrite Forall_forall in Hall.
  assert (forall d, d ∈ l1 -> d.1 + 16 * d.2 < c.1) as Ha by (intros d Hd; apply (H1 d c); set_solver).
  split_and!; [done|done| |].
  - intros d Hd. specialize (Ha d Hd). specialize (Hp d ltac:(set_solver)). lia.
  - intros d Hd. specialize (Hall d Hd). unfold before in Hall. specialize (Hp c ltac:(set_solver)). lia.
Qed.

Section carve.
Context (base : Z) (Hbase : 0 < base).

(** An element that is not the static header is a free block. *)
Lemma inner h L n1 x b n2 : flist base h L -> (base, 0) :: L = n1 ++ x :: b :: n2 ->
  exists k, n1 ++ [x] = (base, 0) :: k /\ L = k ++ b :: n2 /\ in_lim b /\ base < b.1.
Proof using Hbase.
  intros F E. pose proof (fl_lim _ _ _ F) as Hl.
  assert (exists k, n1 ++ [x] = (base, 0) :: k /\ L = k ++ b :: n2) as (k & Ek & EL).
  { destruct n1 as [|b1 n1]; simplify_eq/=; [by exists []|]. exists (n1 ++ [x]). by rewrite <- app_assoc. }
  exists k. split_and!; [done..| |].
  - rewrite Forall_forall in Hl. apply Hl. set_solver.
  - pose proof (proj1 (StronglySorted_cons _ _ _) (fl_sorted _ _ _ F)) as [Hall _]. rewrite Forall_forall in Hall.
    specialize (Hall b ltac:(set_solver)). unfold before in Hall. simpl in Hall. lia.
Qed.

Definition carved (h h' : heap) (L L' : list block) (q n : Z) : Prop :=
  flist base h' L' /\ base < q /\ in_lim (q, n) /\ size h' q = n /\ (length L' <= length L)%nat /\
  (forall y, covers L y <-> covers L' y \/ blk (q, n) y) /\
  (forall c, c ∈ L' -> c.1 + 16 * c.2 <= q \/ q + 16 * n <= c.1) /\
  same_off (q :: ((base, 0) :: L).*1) h h' /\ brk h' = brk h.

Lemma carve_exact h L n1 x b n2 :
  flist base h L -> (base, 0) :: L = n1 ++ x :: b :: n2 ->
  exists L', carved h (set_freep x.1 (set_ptr x.1 (ptr h b.1) h)) L L' b.1 b.2.
Proof using Hbase.
  intros F E. destruct (inner _ _ _ _ _ _ F E) as (k & Ek & EL & Hb & Hbb). exists (k ++ n2).
  pose proof (fl_seg _ _ _ F) as Hseg. pose proof (fl_sorted _ _ _ F) as Hsort.
  pose proof (flist_pos _ _ _ F) as Hpos. pose proof (fl_lim _ _ _ F) as Hlim. rewrite E in Hseg, Hsort, Hpos.
  destruct (sorted_around n1 x (b :: n2)) as (_ & _ & Hx1 & Hx2); [done..|].
  assert (n1 ++ x :: b :: n2 = (n1 ++ [x]) ++ b :: n2) as E2 by by rewrite <- app_assoc.
  rewrite E2 in Hsort, Hpos. destruct (sorted_around (n1 ++ [x]) b n2) as (Hb1 & Hb2 & Hb3 & Hb4); [done..|].
  assert ((base, 0) :: k ++ n2 = n1 ++ x :: n2) as EN by (change ((n1 ++ [x]) ++ n2) with ((n1 ++ [x]) ++ n2);
    rewrite app_comm_cons, <- Ek, <- app_assoc; done).
  apply seg_app in Hseg as (r & Hs1 & Hs2). apply seg_head in Hs2 as (-> & Hszx & Hs2).
  apply seg_head in Hs2 as (Hpx & Hszb & Hs3).
  split; [split|]; [rewrite EN| |..|split_and!].
  - apply seg_freep, seg_app. exists x.1. split.
    + eapply seg_frame; [|exact Hs1]. intros c Hc. simpl. rewrite upd_ne; [done|]. specialize (Hx1 c Hc). lia.
    + destruct x as [xa xs]. split; [done|]. split; [done|]. simpl ptr. rewrite upd_eq.
      eapply seg_frame; [|exact Hs3]. intros c Hc. simpl. rewrite upd_ne; [done|].
      specialize (Hx2 c ltac:(set_solver)). simpl in Hx2. lia.
  - rewrite app_comm_cons, <- Ek. apply StronglySorted_app in Hsort as (H1 & H2 & H3).
    apply StronglySorted_app. split_and!; [|done|by apply StronglySorted_cons in H3 as [_ H3]].
    intros c d Hc Hd. apply H1; set_solver.
  - rewrite EL in Hlim. apply Forall_app in Hlim as [H1 H2]. apply Forall_cons in H2 as [_ H2]. by apply Forall_app.
  - rewrite EN. cbn [freep set_freep]. rewrite fmap_app. set_solver.
  - done.
  - by destruct b.
  - done.
  - rewrite EL, !length_app. simpl. lia.
  - intros y. rewrite EL, !covers_app, covers_cons. destruct b. tauto.
  - intros c Hc. apply elem_of_app in Hc as [Hc|Hc].
    + left. specialize (Hb1 c). rewrite Ek in Hb1. specialize (Hb1 ltac:(set_solver)). lia.
    + right. specialize (Hb2 c Hc). lia.
  - intros a Ha. cbn [ptr size set_freep set_ptr]. rewrite upd_ne; [done|]. intros ->. apply Ha. rewrite E.
    rewrite fmap_app. set_solver.
  - done.
Qed.

Lemma carve_split h L n1 x b n2 n :
  flist base h L -> (base, 0) :: L = n1 ++ x :: b :: n2 -> 1 <= n < b.2 ->
  let q := hadd b.1 (b.2 - n) in
  exists L', carved h (set_freep x.1 (set_size q n (set_size b.1 (b.2 - n) h))) L L' q n.
Proof using Hbase.
  intros F E Hn q. destruct (inner _ _ _ _ _ _ F E) as (k & Ek & EL & Hb & Hbb).
  exists (k ++ (b.1, b.2 - n) :: n2).
  pose proof (fl_seg _ _ _ F) as Hseg. pose proof (fl_sorted _ _ _ F) as Hsort.
  pose proof (flist_pos _ _ _ F) as Hpos. pose proof (fl_lim _ _ _ F) as Hlim. rewrite E in Hseg, Hsort, Hpos.
  assert (n1 ++ x :: b :: n2 = (n1 ++ [x]) ++ b :: n2) as E2 by by rewrite <- app_assoc.
  rewrite E2 in Hseg, Hsort, Hpos. destruct (sorted_around (n1 ++ [x]) b n2) as (Hb1 & Hb2 & Hb3 & Hb4); [done..|].
  assert (forall l, (base, 0) :: k ++ l = (n1 ++ [x]) ++ l) as EN by (intros l; by rewrite app_comm_cons, <- Ek).
  assert (q = b.1 + 16 * (b.2 - n)) as Hq by done. clearbody q.
  apply seg_app in Hseg as (r & Hs1 & Hs2). apply seg_head in Hs2 as (-> & Hszb & Hs3).
  destruct Hb as [Hb5 Hb6].
  split; [split|]; [rewrite EN| |..|split_and!].
  - apply seg_freep, seg_app. exists b.1. split.
    + eapply seg_frame; [|exact Hs1]. intros c Hc. simpl. specialize (Hb3 c Hc). by rewrite !upd_ne by lia.
    + split; [done|]. split; [simpl; by rewrite upd_ne, upd_eq by lia|].
      eapply seg_frame; [|exact Hs3]. intros c Hc. simpl. specialize (Hb2 c Hc). by rewrite !upd_ne by lia.
  - rewrite EN. apply StronglySorted_app in Hsort as (H1 & H2 & H3).
    apply StronglySorted_app. split_and!; [|done|].
    + intros c d Hc [->|Hd]%elem_of_cons; [|apply H1; set_solver]. specialize (H1 c b Hc ltac:(set_solver)). done.
    + apply StronglySorted_cons in H3 as [Hall H3]. apply StronglySorted_cons. split; [|done].
      eapply Forall_impl; [exact Hall|]. intros d. unfold before. simpl. lia.
  - rewrite EL in Hlim. apply Forall_app in Hlim as [H1 H2]. apply Forall_cons in H2 as [_ H2]. apply Forall_app.
    split; [done|]. constructor; [split; simpl; lia|done].
  - rewrite EN. cbn [freep set_freep]. rewrite !fmap_app. set_solver.
  - lia.
  - split; simpl; lia.
  - simpl. by rewrite upd_eq.
  - rewrite EL, !length_app. simpl. lia.
  - intros y. rewrite EL, !covers_app, !covers_cons. unfold blk. simpl. split; [|].
    + intros [H|[H|H]]; [by left; left| |by left; right; right].
      destruct (Z.lt_ge_cases y q); [left; right; left; lia|right; lia].
    + intros [[H|[H|H]]|H]; [by left|right; left; lia|by right; right|right; left; lia].
  - intros c Hc. apply elem_of_app in Hc as [Hc|[->|Hc]%elem_of_cons].
    + left. specialize (Hb1 c). rewrite Ek in Hb1. specialize (Hb1 ltac:(set_solver)). lia.
    + left. simpl. lia.
    + right. specialize (Hb2 c Hc). lia.
  - intros a Ha. cbn [ptr size set_freep set_size]. rewrite !upd_ne; [done| |]; intros ->; apply Ha; [|set_solver].
    rewrite E, E2, !fmap_app. set_solver.
  - done.
Qed.

(** Taking [n] headers from [b], which follows [x] in the list. *)
Lemma carve_spec h L n1 x b n2 n :
  flist base h L -> (base, 0) :: L = n1 ++ x :: b :: n2 -> 1 <= n <= b.2 ->
  exists q L' h', carve n x.1 b.1 h = (hadd q 1, h') /\ carved h h' L L' q n.
Proof using Hbase.
  intros F E Hn. unfold carve. pose proof (fl_seg _ _ _ F) as Hseg. rewrite E in Hseg.
  apply seg_app in Hseg as (r & _ & Hs). apply seg_head in Hs as (_ & _ & Hs).
  apply seg_head in Hs as (_ & Hszb & _). rewrite Hszb. destruct (Z.eqb_spec b.2 n) as [Heq|Hne].
  - destruct (carve_exact _ _ _ _ _ _ F E) as [L' H]. rewrite Heq in H. by do 3 eexists.
  - destruct (carve_split h L n1 x b n2 n F E) as [L' H]; [lia|]. do 3 eexists. split; [|exact H].
    simpl. by rewrite upd_eq.
Qed.
End carve.

(** ** The walk of [malloc] *)

Section malloc.
Context (base : Z) (Hbase : 0 < base) (grow : Z -> Z -> bool).

(** The header behind which a walk over [l] from [p] is. *)
Definition behind (p : Z) (l : list block) : Z := match last l with Some b => b.1 | None => p end.

Lemma malloc_walk h l n prevp p r k :
  seg h l p r -> (forall b, b ∈ l -> b.2 < n /\ b.1 <> freep h) ->
  malloc_loop grow (length l + k) n prevp p h = malloc_loop grow k n (behind prevp l) r h.
Proof.
  revert prevp p. induction l as [|[a s] l IH]; intros prevp p Hs Hl; simpl.
  - simpl in Hs. by subst.
  - destruct Hs as (-> & Hsz & Hs). destruct (Hl (p, s)) as [H1 H2]; [set_solver|]. simpl in H1, H2.
    rewrite Hsz, (proj2 (Z.leb_gt _ _)), (proj2 (Z.eqb_neq _ _)) by (done || lia).
    rewrite IH; [|done|intros b Hb; apply Hl; set_solver]. f_equal. unfold behind. rewrite last_cons.
    by destruct (last l).
Qed.

(** The first element that satisfies [P]. *)
Lemma first_such (P : block -> Prop) `{!forall b, Decision (P b)} l :
  (exists l1 b l2, l = l1 ++ b :: l2 /\ P b /\ forall c, c ∈ l1 -> ~ P c) \/ (forall c, c ∈ l -> ~ P c).
Proof.
  induction l as [|b l IH]; [right; set_solver|]. destruct (decide (P b)) as [Hb|Hb].
  - left. exists [], b, l. split_and!; [done|done|set_solver].
  - destruct IH as [(l1 & c & l2 & -> & Hc & Hn)|Hn]; [left|right; set_solver].
    exists (b :: l1), c, l2. split_and!; [done|done|set_solver].
Qed.

(** In the order of the walk from the header after [f], which ends with [f],
    every free block is behind its predecessor in the list. *)
Lemma rotate_pred L n1 f n2 r1 c r2 :
  (base, 0) :: L = n1 ++ f :: n2 -> n2 ++ n1 ++ [f] = r1 ++ c :: r2 -> 1 <= c.2 ->
  exists k1 x k2, (base, 0) :: L = k1 ++ x :: c :: k2 /\ behind f.1 r1 = x.1.
Proof using base.
  intros E ER Hc.
  assert (forall l, n1 ++ [f] = c :: l -> False) as Hhead.
  { intros l Hl. destruct n1; simplify_eq/=; lia. }
  rewrite E. apply app_eq_inv in ER as [(k & -> & Hk)|(k & -> & Hk)].
  - destruct k as [|c' k]; simplify_eq/=; [by exfalso; eapply Hhead|].
    destruct r1 as [|y r1 _] using rev_ind.
    + by exists n1, f, k.
    + exists (n1 ++ f :: r1), y, k. split; [by rewrite <- !app_assoc|]. unfold behind. by rewrite last_snoc.
  - destruct k as [|y k _] using rev_ind; [by exfalso; eapply Hhead|].
    exists k, y, (r2 ++ n2). split; [|unfold behind; by rewrite app_assoc, last_snoc].
    change (n1 ++ f :: n2) with (n1 ++ [f] ++ n2). rewrite app_assoc, Hk, <- !app_assoc. done.
Qed.

Lemma rotate_before f n1 n2 r1 c r2 (b : block) :
  n2 ++ n1 ++ [f] = r1 ++ c :: r2 -> b ∈ r1 -> b ∈ n1 \/ b ∈ n2.
Proof.
  intros ER Hb. destruct r2 as [|y r2 _] using rev_ind.
  - rewrite app_assoc in ER. apply app_inj_tail in ER as [<- _]. set_solver.
  - rewrite app_assoc, app_comm_cons, app_assoc in ER. apply app_inj_tail in ER as [ER _].
    assert (b ∈ n2 ++ n1) as H by (rewrite ER; set_solver). set_solver.
Qed.

Lemma first_fit_found h L n1 f n2 n fuel b :
  flist base h L -> (base, 0) :: L = n1 ++ f :: n2 -> freep h = f.1 -> 1 <= n ->
  b ∈ L -> n <= b.2 -> (length L + 1 < fuel)%nat ->
  exists q L' h', malloc_loop grow fuel n (freep h) (ptr h (freep h)) h = Some (Some (hadd q 1), h') /\
    carved base h h' L L' q n.
Proof using Hbase.
  intros F E Hf Hn HbL Hbn Hfuel. pose proof (fl_seg _ _ _ F) as Hseg. rewrite E in Hseg.
  apply seg_app in Hseg as (r & Hs1 & Hs2). apply seg_head in Hs2 as (-> & Hszf & Hs3).
  assert (seg h (n2 ++ n1 ++ [f]) (ptr h f.1) (ptr h f.1)) as Hrot.
  { apply seg_app. exists base. split; [done|]. apply seg_app. exists f.1. split; [done|]. by destruct f. }
  assert (b ∈ n2 ++ n1 ++ [f]) as HbR.
  { assert (b ∈ (base, 0) :: L) as H by set_solver. rewrite E in H. set_solver. }
  destruct (first_such (fun c => n <= c.2) (n2 ++ n1 ++ [f])) as [(r1 & c & r2 & ER & Hc & Hr1)|Hno];
    [|exfalso; by apply (Hno b)].
  assert (exists k1 x k2, (base, 0) :: L = k1 ++ x :: c :: k2 /\ behind f.1 r1 = x.1) as (k1 & x & k2 & EN & Hx).
  { eapply rotate_pred; [done|done|lia]. }
  pose proof (fl_sorted _ _ _ F) as Hsort. pose proof (flist_pos _ _ _ F) as Hpos. rewrite E in Hsort, Hpos.
  destruct (sorted_around n1 f n2) as (_ & _ & Hf1 & Hf2); [done..|].
  assert (length r1 < fuel)%nat as Hlen.
  { apply (f_equal length) in ER, E. rewrite !length_app in ER. rewrite length_app in E. simpl in ER, E. lia. }
  replace fuel with (length r1 + S (fuel - length r1 - 1))%nat by lia. rewrite Hf.
  rewrite ER in Hrot. apply seg_app in Hrot as (p & Hr & Hrest).
  pose proof (seg_head _ _ _ _ _ Hrest) as (-> & Hszc & _).
  rewrite (malloc_walk _ _ _ _ _ _ _ Hr).
  - rewrite Hx. destruct (carve_spec base Hbase h L k1 x c k2 n F EN) as (q & L' & h' & Hcv & Hok); [lia|].
    exists q, L', h'. split; [|done]. simpl. rewrite Hszc, (proj2 (Z.leb_le _ _)) by lia. by rewrite Hcv.
  - intros d Hd. split; [specialize (Hr1 d Hd); lia|]. rewrite Hf.
    destruct (rotate_before _ _ _ _ _ _ _ ER Hd) as [H|H]; [specialize (Hf1 d H)|specialize (Hf2 d H)]; lia.
Qed.

(** Without a block that is large enough the walk comes back to [freep] and
    asks for more memory. *)
Lemma no_fit_morecore h L n1 f n2 n fuel :
  flist base h L -> (base, 0) :: L = n1 ++ f :: n2 -> freep h = f.1 -> 1 <= n ->
  (forall b, b ∈ L -> b.2 < n) ->
  malloc_loop grow (length L + S fuel) n (freep h) (ptr h (freep h)) h =
    match morecore grow (S fuel) n h with
    | None => None
    | Some (None, h) => Some (None, h)
    | Some (Some p, h) => malloc_loop grow fuel n p (ptr h p) h
    end.
Proof.
  intros F E Hf Hn Hno. pose proof (fl_seg _ _ _ F) as Hseg. rewrite E in Hseg.
  apply seg_app in Hseg as (r & Hs1 & Hs2). apply seg_head in Hs2 as (-> & Hszf & Hs3).
  assert (seg h (n2 ++ n1) (ptr h f.1) f.1) as Hrot by (apply seg_app; by exists base).
  pose proof (fl_sorted _ _ _ F) as Hsort. pose proof (flist_pos _ _ _ F) as Hpos. rewrite E in Hsort, Hpos.
  destruct (sorted_around n1 f n2) as (_ & _ & Hf1 & Hf2); [done..|].
  assert (forall b, b ∈ n1 ++ f :: n2 -> b.2 < n) as Hsmall.
  { rewrite <- E. intros b [->|Hb]%elem_of_cons; [simpl; lia|by apply Hno]. }
  replace (length L) with (length (n2 ++ n1)).
  2:{ apply (f_equal length) in E. rewrite length_app in E |- *. simpl in E. lia. }
  rewrite Hf, (malloc_walk _ _ _ _ _ _ _ Hrot).
  - cbn [malloc_loop]. rewrite Hszf, (proj2 (Z.leb_gt _ _)), Hf, Z.eqb_refl; [done|]. apply Hsmall. set_solver.
  - intros b Hb. split; [apply Hsmall; set_solver|]. rewrite Hf.
    apply elem_of_app in Hb as [H|H]; [specialize (Hf2 b H)|specialize (Hf1 b H)]; lia.
Qed.

(** Headers of the list are at addresses the list covers, or the static one. *)
Lemma covers_head L b : Forall in_lim L -> b ∈ L -> covers L b.1.
Proof.
  intros Hl Hb. exists b. split; [done|]. rewrite Forall_forall in Hl. destruct (Hl b Hb). unfold blk. lia.
Qed.

Lemma same_off_covers A L h h' a :
  same_off (A ++ ((base, 0) :: L).*1) h h' -> Forall in_lim L -> a ∉ A -> a <> base -> ~ covers L a ->
  ptr h' a = ptr h a /\ size h' a = size h a.
Proof.
  intros Hoff Hl HA Hb Hc. apply Hoff. intros [H|[->|H]%elem_of_cons]%elem_of_app; [done|done|].
  apply list_elem_of_fmap in H as (c & -> & H). apply Hc. by apply covers_head.
Qed.

Context (Hgrow : forall b n, grow b n = true -> b + n <= LIM).

(** The blocks of the free list end before the end of the memory. *)
Definition below (h : heap) (L : list block) : Prop :=
  base < brk h /\ forall b, b ∈ L -> b.1 + 16 * b.2 <= brk h.

(** What [malloc] of [n] headers does to the free list. *)
Definition allocated (h h' : heap) (L L' : list block) (q n : Z) : Prop :=
  flist base h' L' /\ base < q /\ in_lim (q, n) /\ size h' q = n /\ brk h <= brk h' /\
  below h' L' /\ q + 16 * n <= brk h' /\
  (forall y, covers L' y \/ blk (q, n) y <-> covers L y \/ brk h <= y < brk h') /\
  (forall c, c ∈ L' -> c.1 + 16 * c.2 <= q \/ q + 16 * n <= c.1) /\
  (forall a, a <> base -> ~ covers L a -> a < brk h -> ptr h' a = ptr h a /\ size h' a = size h a).

Lemma carved_allocated h h' L L' q n :
  below h L -> Forall in_lim L -> carved base h h' L L' q n -> allocated h h' L L' q n.
Proof using base.
  intros [Hb1 Hb2] Hl (F & Hq & Hin & Hsz & Hlen & Hcov & Hdis & Hoff & Hbrk). pose proof Hin as [Hn _]. simpl in Hn.
  assert (forall y, covers L' y \/ blk (q, n) y -> y < brk h) as Hlt.
  { intros y Hy. apply Hcov in Hy as (b & Hb & Hy). specialize (Hb2 b Hb). unfold blk in Hy. lia. }
  assert (forall c : block, 1 <= c.2 -> (forall y, blk c y -> y < brk h) -> c.1 + 16 * c.2 <= brk h) as Hend.
  { intros c Hc Hy. specialize (Hy (c.1 + 16 * c.2 - 1)). unfold blk in Hy. lia. }
  split_and!; [done..|lia| |rewrite Hbrk; apply (Hend (q, n)); [done|auto]| |done|].
  - split; [lia|]. intros b Hb. rewrite Hbrk. apply Hend.
    + pose proof (fl_lim _ _ _ F) as Hl'. rewrite Forall_forall in Hl'. by destruct (Hl' b Hb).
    + intros y Hy. apply Hlt. left. by exists b.
  - intros y. rewrite Hcov. split; [by left|]. intros [H|H]; [done|lia].
  - intros a Ha1 Ha2 Ha3. apply (same_off_covers [q] L); [done|done| |done|done].
    rewrite list_elem_of_singleton. intros ->. apply Ha2, Hcov. right. unfold blk. simpl. lia.
Qed.

(** [morecore] puts at least [n] headers behind the end on the free list. *)
Lemma morecore_spec h L n fuel :
  flist base h L -> below h L -> 1 <= n -> n * 16 < 2 ^ 31 -> (length L < fuel)%nat ->
  let nu := Z.max n 4096 in
  if grow (brk h) (nu * 16) then
    exists h' L', morecore grow fuel n h = Some (Some (freep h'), h') /\ flist base h' L' /\ below h' L' /\
      (length L' <= S (length L))%nat /\ brk h' = brk h + 16 * nu /\
      (forall y, covers L' y <-> covers L y \/ brk h <= y < brk h') /\
      (exists b, b ∈ L' /\ n <= b.2) /\
      (forall a, a <> base -> ~ covers L a -> a < brk h -> ptr h' a = ptr h a /\ size h' a = size h a)
  else morecore grow fuel n h = Some (None, h).
Proof using Hbase Hgrow.
  intros F [Hb1 Hb2] Hn Hmax Hfuel nu. unfold morecore, sbrk.
  assert ((if n <? 4096 then 4096 else n) = nu) as -> by (unfold nu; destruct (Z.ltb_spec n 4096); lia).
  change SIZEOF_HEADER with 16. rewrite i32_small by (unfold nu; lia).
  destruct (grow (brk h) (nu * 16)) eqn:Hg; [|done]. apply Hgrow in Hg.
  set (h1 := set_size (brk h) nu (set_brk (brk h + nu * 16) h)).
  assert (same_off [brk h] h h1) as Hoff1.
  { intros a Ha. simpl. rewrite upd_ne by set_solver. done. }
  assert (size h1 (brk h) = nu) as Hsz by (simpl; by rewrite upd_eq).
  pose proof (fl_lim _ _ _ F) as Hl.
  assert (forall b, b ∈ (base, 0) :: L -> b.1 < brk h) as Hlt.
  { intros b [->|Hb]%elem_of_cons; [done|]. rewrite Forall_forall in Hl. destruct (Hl b Hb). specialize (Hb2 b Hb). lia. }
  assert (flist base h1 L) as F1.
  { split; [|apply F..]. eapply seg_same; [exact Hoff1| |apply F]. intros b Hb. specialize (Hlt b Hb). set_solver by lia. }
  destruct (free_spec base Hbase h1 L (brk h) fuel) as (h' & L' & -> & F' & Hlen & Hcov & Hoff & (b & Hb & Hbs) & Hbrk).
  { done. } { done. } { rewrite Hsz. split; simpl; lia. }
  { intros b [->|Hb]%elem_of_cons; left; [simpl; lia|by apply Hb2]. } { lia. }
  rewrite Hsz in *. simpl in Hbrk. exists h', L'. split_and!; [done|done| |done|lia| | |].
  - split; [lia|]. intros c Hc. rewrite Hbrk. pose proof (fl_lim _ _ _ F') as Hl'. rewrite Forall_forall in Hl'.
    destruct (Hl' c Hc) as [Hc1 _].
    assert (covers L' (c.1 + 16 * c.2 - 1)) as Hy by (exists c; split; [done|]; unfold blk; lia).
    apply Hcov in Hy as [Hy|(d & Hd & Hy)]; unfold blk in Hy; simpl in Hy; [lia|]. specialize (Hb2 d Hd). lia.
  - intros y. rewrite Hcov. unfold blk. simpl. split; intros [H|H]; try (by left); try (by right); [right|left]; lia.
  - exists b. split; [done|lia].
  - intros a Ha1 Ha2 Ha3. destruct (Hoff1 a) as [<- <-]; [set_solver by lia|].
    apply (same_off_covers [brk h] L); [done|done|set_solver by lia|done|done].
Qed.

Lemma freep_split h L : flist base h L -> exists n1 f n2, (base, 0) :: L = n1 ++ f :: n2 /\ freep h = f.1.
Proof.
  intros F. pose proof (fl_freep _ _ _ F) as H. apply list_elem_of_fmap in H as (f & Hf & H).
  apply list_elem_of_split in H as (n1 & n2 & E). by exists n1, f, n2.
Qed.

(** The loop of [malloc] started at [freep] returns: a block of [n] headers, or
    null when no free block is large enough and the kernel gives no memory. *)
Lemma malloc_loop_spec h L n fuel :
  flist base h L -> below h L -> 1 <= n -> n * 16 < 2 ^ 31 -> (2 * length L + 8 <= fuel)%nat ->
  exists r h', malloc_loop grow fuel n (freep h) (ptr h (freep h)) h = Some (r, h') /\
    match r with
    | Some a => exists q L', a = hadd q 1 /\ allocated h h' L L' q n
    | None => h' = h /\ (forall b, b ∈ L -> b.2 < n) /\ grow (brk h) (Z.max n 4096 * 16) = false
    end.
Proof using Hbase Hgrow.
  intros F Hbl Hn Hmax Hfuel. destruct (freep_split h L F) as (n1 & f & n2 & E & Hf).
  destruct (first_such (fun b => n <= b.2) L) as [(l1 & b & l2 & EL & Hb & _)|Hno].
  - destruct (first_fit_found h L n1 f n2 n fuel b) as (q & L' & h' & -> & Hc); [done..|set_solver|done|lia|].
    exists (Some (hadd q 1)), h'. split; [done|]. exists q, L'. split; [done|].
    apply carved_allocated; [done|apply F|done].
  - assert (forall b, b ∈ L -> b.2 < n) as Hsmall by (intros b Hb; specialize (Hno b Hb); lia).
    replace fuel with (length L + S (fuel - length L - 1))%nat by lia.
    rewrite (no_fit_morecore h L n1 f n2) by done.
    pose proof (morecore_spec h L n (S (fuel - length L - 1)) F Hbl Hn Hmax ltac:(lia)) as Hm. cbv zeta in Hm.
    destruct (grow (brk h) (Z.max n 4096 * 16)) eqn:Hg.
    + destruct Hm as (h1 & L1 & -> & F1 & Hbl1 & Hlen1 & Hbrk1 & Hcov1 & (b & Hb & Hbn) & Hoff1).
      destruct (freep_split h1 L1 F1) as (m1 & g & m2 & E1 & Hg1).
      destruct (first_fit_found h1 L1 m1 g m2 n (fuel - length L - 1) b) as (q & L' & h' & -> & Hc); [done..|lia|].
      exists (Some (hadd q 1)), h'. split; [done|]. exists q, L'. split; [done|].
      destruct (carved_allocated h1 h' L1 L' q n) as (A1 & A2 & A3 & A4 & A5 & A6 & A7 & A8 & A9 & A10);
        [done|apply F1|done|].
      split_and!; [done..|lia|done|done| |done|].
      * intros y. rewrite A8, Hcov1. split; [intros [[H|H]|H]|intros [H|H]]; try (by left; left); try (by left);
          try (right; lia). destruct (Z.lt_ge_cases y (brk h1)); [left; right; lia|right; lia].
      * intros a Ha1 Ha2 Ha3. destruct (Hoff1 a) as [<- <-]; [done..|]. apply A10; [done| |lia].
        rewrite Hcov1. intros [H|H]; [done|lia].
    + rewrite Hm. exists None, h. done.
Qed.

(** ** Sequences of calls *)

(** What the program holds: addresses malloc returned, with the sizes asked
    for.  [hblock] is the block behind such a pointer. *)
Definition hblock (u : Z * Z) : block := (u.1 - 16, units u.2).

Definition apart (b c : block) : Prop := b.1 + 16 * b.2 <= c.1 \/ c.1 + 16 * c.2 <= b.1.

(** The largest request whose size in bytes still is an int for [sbrk]. *)
Definition REQ_MAX : Z := 2 ^ 31 - 48.

(** A program that follows the rules: it asks for at most [REQ_MAX] bytes, frees
    what it holds once, and writes only inside what it holds (a header read at
    an address after the block's start and before its end is garbage then). *)
Inductive ustep : heap * list (Z * Z) -> heap * list (Z * Z) -> Prop :=
| us_malloc fuel nbytes h A r h' :
    0 <= nbytes <= REQ_MAX -> malloc base grow fuel nbytes h = Some (r, h') ->
    ustep (h, A) (h', match r with Some a => (a, nbytes) :: A | None => A end)
| us_free fuel A1 u A2 h h' :
    free fuel u.1 h = Some h' -> ustep (h, A1 ++ u :: A2) (h', A1 ++ A2)
| us_write h h' A :
    freep h' = freep h -> brk h' = brk h ->
    (forall a, (forall u, u ∈ A -> ~ ((hblock u).1 < a < (hblock u).1 + 16 * (hblock u).2)) ->
       ptr h' a = ptr h a /\ size h' a = size h a) ->
    ustep (h, A) (h', A).

(** The words of the blocks held, at every address from their headers to their
    ends, are the same in [h] and [h']. *)
Definition intact (h h' : heap) (A : list (Z * Z)) : Prop :=
  forall u y, u ∈ A -> blk (hblock u) y -> ptr h' y = ptr h y /\ size h' y = size h y.

(** The memory from [lo] to the end is the free list and what the program
    holds, without overlap. *)
Record uinv (lo : Z) (h : heap) (L : list block) (A : list (Z * Z)) : Prop := {
  ui_free : flist base h L;
  ui_below : below h L;
  ui_lo : base < lo <= brk h;
  ui_held : forall u, u ∈ A -> in_lim (hblock u) /\ size h (hblock u).1 = (hblock u).2 /\ 0 <= u.2 <= REQ_MAX;
  ui_apart : StronglySorted apart (hblock <$> A);
  ui_disj : forall u c, u ∈ A -> c ∈ L -> apart (hblock u) c;
  ui_cover : forall y, covers L y \/ covers (hblock <$> A) y <-> lo <= y < brk h }.

(** Before the first call there is no list. *)
Definition fresh (lo : Z) (h : heap) (A : list (Z * Z)) : Prop :=
  freep h = 0 /\ A = [] /\ brk h = lo /\ base < lo.

Lemma units_ok n : 0 <= n <= REQ_MAX -> 1 <= units n /\ units n * 16 < 2 ^ 31 /\ n <= 16 * (units n - 1).
Proof.
  intros Hn. unfold units, SIZEOF_HEADER, REQ_MAX in *.
  assert ((n + 16 - 1) / 16 = (n + 15) / 16) as -> by (f_equal; lia).
  pose proof (Z.div_mod (n + 15) 16). pose proof (Z.mod_pos_bound (n + 15) 16).
  rewrite wrapu_small by lia. lia.
Qed.

Lemma init_fresh lo h : fresh lo h [] -> uinv lo (init base h) [] [].
Proof using All.
  intros (Hf & _ & Hb & Hlo). unfold init. rewrite Hf. split.
  - split; [|by repeat constructor|constructor|simpl; set_solver].
    split; [done|]. split; [simpl; by rewrite upd_eq|]. simpl. by rewrite upd_eq.
  - split; [simpl; lia|set_solver].
  - simpl. lia.
  - set_solver.
  - constructor.
  - set_solver.
  - intros y. simpl. rewrite !covers_nil. rewrite Hb. split; [by intros [?|?]|lia].
Qed.

Lemma init_uinv lo h L A : uinv lo h L A -> init base h = h.
Proof using All.
  intros U. unfold init. destruct (Z.eqb_spec (freep h) 0) as [H|H]; [|done]. exfalso.
  pose proof (ui_free _ _ _ _ U) as F. destruct (freep_split h L F) as (n1 & f & n2 & E & Hf).
  pose proof (flist_base base h L f F) as Hb. rewrite E in Hb. specialize (Hb ltac:(set_solver)). lia.
Qed.

Lemma apart_sym b c : apart b c -> apart c b.
Proof. unfold apart. tauto. Qed.

(** Blocks no address of which is shared are apart. *)
Lemma apart_blk b c : 1 <= b.2 -> 1 <= c.2 -> (forall y, blk b y -> blk c y -> False) -> apart b c.
Proof.
  intros Hb Hc H. unfold apart. destruct (Z.le_gt_cases (b.1 + 16 * b.2) c.1) as [|H1]; [by left|].
  destruct (Z.le_gt_cases (c.1 + 16 * c.2) b.1) as [|H2]; [by right|]. exfalso.
  apply (H (Z.max b.1 c.1)); unfold blk; lia.
Qed.

Lemma apart_not b c y : apart b c -> blk b y -> blk c y -> False.
Proof. unfold apart, blk. lia. Qed.

Lemma held_covers (A : list (Z * Z)) u y : u ∈ A -> blk (hblock u) y -> covers (hblock <$> A) y.
Proof. intros Hu Hy. exists (hblock u). split; [|done]. apply list_elem_of_fmap. by exists u. Qed.

Lemma uinv_malloc lo h L A nbytes fuel :
  uinv lo h L A -> 0 <= nbytes <= REQ_MAX -> (2 * length L + 8 <= fuel)%nat ->
  exists r h' L', malloc base grow fuel nbytes h = Some (r, h') /\
    uinv lo h' L' (match r with Some a => (a, nbytes) :: A | None => A end) /\
    (r = None -> h' = h) /\ intact h h' A.
Proof using Hbase Hgrow.
  intros U Hn Hfuel. destruct (units_ok nbytes Hn) as (Hu1 & Hu2 & Hu3). unfold malloc.
  rewrite (init_uinv lo h L A U).
  destruct (malloc_loop_spec h L (units nbytes) fuel (ui_free _ _ _ _ U) (ui_below _ _ _ _ U)) as (r & h' & Hm & Hr);
    [done..|].
  rewrite Hm. destruct r as [a|]; [|destruct Hr as [-> _]; by exists None, h, L].
  destruct Hr as (q & L' & -> & F' & Hq & Hin & Hsz & Hbrk & Hbl & Hend & Hcov & Hdis & Hoff).
  exists (Some (hadd q 1)), h', L'. split; [done|].
  assert (hblock (hadd q 1, nbytes) = (q, units nbytes)) as Hhb.
  { unfold hblock, hadd, SIZEOF_HEADER. simpl. f_equal. lia. }
  pose proof (ui_cover _ _ _ _ U) as Hall. pose proof (ui_below _ _ _ _ U) as [Hb1 Hb2].
  assert (forall u y, u ∈ A -> blk (hblock u) y -> y < brk h /\ ~ covers L y) as Hheld.
  { intros u y Hu Hy. split.
    - assert (lo <= y < brk h); [|lia]. apply Hall. right. by eapply held_covers.
    - intros (c & Hc & Hcy). by eapply (apart_not (hblock u) c y); [apply (ui_disj _ _ _ _ U)|..]. }
  assert (forall u y, u ∈ A -> blk (hblock u) y -> covers L' y \/ blk (q, units nbytes) y -> False) as Hnew.
  { intros u y Hu Hy H. destruct (Hheld u y Hu Hy) as [H1 H2]. apply Hcov in H as [H|H]; [done|lia]. }
  assert (intact h h' A) as Hint.
  { intros u y Hu Hy. destruct (Hheld u y Hu Hy) as [H1 H2]. apply Hoff; [|done|done]. intros ->.
    assert (lo <= base < brk h) as H3 by (apply Hall; right; by eapply held_covers).
    pose proof (ui_lo _ _ _ _ U). lia. }
  split; [|by split]. split.
  - done.
  - done.
  - pose proof (ui_lo _ _ _ _ U). lia.
  - intros u [->|Hu]%elem_of_cons; [by rewrite Hhb|].
    destruct (ui_held _ _ _ _ U u Hu) as (Hi & Hs & Hr). split; [done|]. split; [|done]. rewrite <- Hs.
    apply (Hint u); [done|]. destruct Hi as [Hi _]. unfold blk. lia.
  - rewrite fmap_cons, Hhb. apply StronglySorted_cons. split; [|apply U]. apply Forall_forall.
    intros c (u & -> & Hu)%list_elem_of_fmap. destruct (ui_held _ _ _ _ U u Hu) as ([Hi _] & _).
    apply apart_blk; [done|done|]. intros y Hy1 Hy2. by eapply Hnew; [|exact Hy2|right].
  - pose proof (fl_lim _ _ _ F') as Hl'. rewrite Forall_forall in Hl'.
    intros u c [->|Hu]%elem_of_cons Hc.
    + rewrite Hhb. destruct (Hdis c Hc); [by right|by left].
    + destruct (ui_held _ _ _ _ U u Hu) as ([Hi _] & _). destruct (Hl' c Hc) as [Hc1 _].
      apply apart_blk; [done|done|]. intros y Hy1 Hy2. eapply Hnew; [exact Hu|exact Hy1|left; by exists c].
  - intros y. rewrite fmap_cons, Hhb, covers_cons. transitivity (covers (hblock <$> A) y \/ (covers L y \/ brk h <= y < brk h')).
    { rewrite <- Hcov. tauto. }
    pose proof (ui_lo _ _ _ _ U) as Hlo. specialize (Hall y). split; [intros [H|[H|H]]|intros H].
    + assert (lo <= y < brk h) by tauto. lia.
    + assert (lo <= y < brk h) by tauto. lia.
    + lia.
    + destruct (Z.lt_ge_cases y (brk h)); [|right; right; lia].
      assert (covers L y \/ covers (hblock <$> A) y) by (apply Hall; lia). tauto.
Qed.

Lemma uinv_free lo h L A1 u A2 fuel :
  uinv lo h L (A1 ++ u :: A2) -> (S (length L) <= fuel)%nat ->
  exists h' L', free fuel u.1 h = Some h' /\ uinv lo h' L' (A1 ++ A2) /\ intact h h' (A1 ++ A2).
Proof using All.
  intros U Hfuel. set (b := hblock u). assert (hblock u = b) as Hbu by done. clearbody b.
  destruct (ui_held _ _ _ _ U u) as (Hin & Hsz & _); [set_solver|]. rewrite Hbu in Hin, Hsz.
  pose proof (ui_cover _ _ _ _ U) as Hall. pose proof (ui_lo _ _ _ _ U) as Hlo. pose proof Hin as [Hb1 Hb2].
  assert (forall y, blk b y -> lo <= y < brk h) as Hrange.
  { intros y Hy. apply Hall. right. rewrite <- Hbu in Hy. eapply held_covers; [|exact Hy]. set_solver. }
  assert (lo <= b.1 < brk h) as Hbr by (apply Hrange; unfold blk; lia). assert (base < b.1) as Hbb by lia.
  destruct (free_spec base Hbase h L b.1 fuel) as (h' & L' & Hf & F' & Hlen & Hcov & Hoff & _ & Hbrk).
  { apply U. } { done. } { rewrite Hsz. by destruct b. }
  { rewrite Hsz. intros c [->|Hc]%elem_of_cons; [left; simpl; lia|].
    destruct (ui_disj _ _ _ _ U u c) as [H|H]; [set_solver|done|..]; rewrite Hbu in H; [by right|by left]. }
  { done. }
  exists h', L'. replace u.1 with (hadd b.1 1) by (rewrite <- Hbu; unfold hadd, SIZEOF_HEADER; simpl; lia).
  split; [done|]. rewrite Hsz in Hcov. destruct b as [ba bs]. simpl in *.
  pose proof (ui_apart _ _ _ _ U) as Hap. rewrite fmap_app, fmap_cons, Hbu in Hap.
  apply StronglySorted_app in Hap as (Hap1 & Hap2 & Hap3).
  pose proof (proj1 (StronglySorted_cons _ _ _) Hap3) as [Hap4 Hap5]. rewrite Forall_forall in Hap4.
  assert (forall v, v ∈ A1 ++ A2 -> v ∈ A1 ++ u :: A2 /\ apart (hblock v) (ba, bs)) as Hin2.
  { intros v [Hv|Hv]%elem_of_app; (split; [set_solver|]).
    - apply Hap1; [by apply list_elem_of_fmap; exists v|set_solver].
    - apply apart_sym, Hap4, list_elem_of_fmap. by exists v. }
  pose proof (fl_lim _ _ _ F') as Hl'. rewrite Forall_forall in Hl'.
  assert (forall c y, c ∈ L' -> blk c y -> blk (ba, bs) y \/ covers L y) as HL'.
  { intros c y Hc Hy. apply Hcov. by exists c. }
  assert (intact h h' (A1 ++ A2)) as Hint.
  { intros v y Hv Hy. destruct (Hin2 v Hv) as [Hv1 Hv2].
    apply (same_off_covers [ba] L); [done|apply (fl_lim _ _ _ (ui_free _ _ _ _ U))| | |].
    + rewrite list_elem_of_singleton. intros ->. eapply (apart_not _ _ _ Hv2 Hy). unfold blk. cbn [fst snd]. lia.
    + intros ->. assert (lo <= base < brk h); [|lia]. apply Hall. right. by eapply held_covers.
    + intros (c & Hc & Hcy). eapply (apart_not _ _ _ (ui_disj _ _ _ _ U v c Hv1 Hc) Hy Hcy). }
  split; [|done]. split.
  - done.
  - split; [lia|]. intros c Hc. rewrite Hbrk. destruct (Hl' c Hc) as [Hc1 _].
    assert (lo <= c.1 + 16 * c.2 - 1 < brk h); [|lia].
    destruct (HL' c (c.1 + 16 * c.2 - 1) Hc) as [H|H]; [unfold blk; lia|by apply Hrange|apply Hall; by left].
  - lia.
  - intros v Hv. destruct (Hin2 v Hv) as [Hv1 Hv2]. destruct (ui_held _ _ _ _ U v Hv1) as (Hi & Hs & Hr).
    split; [done|]. split; [|done]. rewrite <- Hs. pose proof Hi as [Hi1 _].
    apply (Hint v); [done|]. unfold blk. lia.
  - rewrite fmap_app. apply StronglySorted_app. split_and!; [|done|done].
    intros c d Hc Hd. apply Hap1; [done|set_solver].
  - intros v c Hv Hc. destruct (Hin2 v Hv) as [Hv1 Hv2]. destruct (ui_held _ _ _ _ U v Hv1) as ([Hi _] & _).
    destruct (Hl' c Hc) as [Hc1 _]. apply apart_blk; [done|done|]. intros y Hy1 Hy2.
    destruct (HL' c y Hc Hy2) as [H|(d & Hd & Hy3)]; [by eapply (apart_not _ _ _ Hv2)|].
    by eapply (apart_not _ _ _ (ui_disj _ _ _ _ U v d Hv1 Hd)).
  - intros y. rewrite Hcov, Hbrk, <- Hall, !fmap_app, fmap_cons, !covers_app, covers_cons, Hbu. tauto.
Qed.

Lemma uinv_write lo h h' L A :
  uinv lo h L A -> freep h' = freep h -> brk h' = brk h ->
  (forall a, (forall u, u ∈ A -> ~ ((hblock u).1 < a < (hblock u).1 + 16 * (hblock u).2)) ->
     ptr h' a = ptr h a /\ size h' a = size h a) ->
  uinv lo h' L A.
Proof using All.
  intros U Hf Hb Hw. pose proof (ui_free _ _ _ _ U) as F. pose proof (ui_lo _ _ _ _ U) as Hlo.
  pose proof (ui_cover _ _ _ _ U) as Hall.
  assert (forall b, b ∈ (base, 0) :: L -> ptr h' b.1 = ptr h b.1 /\ size h' b.1 = size h b.1) as Hsame.
  { intros b Hin. apply Hw. intros u Hu Hr. assert (blk (hblock u) b.1) as Hy by (unfold blk; lia).
    apply elem_of_cons in Hin as [->|Hin].
    - assert (lo <= base < brk h); [|lia]. apply Hall. right. by eapply held_covers.
    - pose proof (fl_lim _ _ _ F) as Hl. rewrite Forall_forall in Hl. destruct (Hl b Hin) as [H1 _].
      eapply (apart_not _ _ _ (ui_disj _ _ _ _ U u b Hu Hin) Hy). unfold blk. lia. }
  split; try apply U; rewrite ?Hb; try apply U.
  - split; [|apply F|apply F|rewrite Hf; apply F]. eapply seg_frame; [exact Hsame|apply F].
  - unfold below. rewrite Hb. apply U.
  - intros u Hu. destruct (ui_held _ _ _ _ U u Hu) as (Hi & Hs & Hr). split; [done|]. split; [|done].
    rewrite <- Hs. apply Hw. intros v Hv Hrng. pose proof Hi as [Hi1 _].
    assert (blk (hblock u) (hblock u).1) as Hy1 by (unfold blk; lia).
    assert (blk (hblock v) (hblock u).1) as Hy2 by (unfold blk; lia).
    destruct (decide (u = v)) as [->|Hne]; [lia|].
    pose proof (ui_apart _ _ _ _ U) as Hap. apply list_elem_of_split in Hu as (A1 & A2 & ->).
    rewrite fmap_app, fmap_cons in Hap. apply StronglySorted_app in Hap as (Hap1 & _ & Hap2).
    apply StronglySorted_cons in Hap2 as [Hap2 _]. rewrite Forall_forall in Hap2.
    apply elem_of_app in Hv as [Hv|Hv].
    + eapply (apart_not (hblock v) (hblock u)); [|exact Hy2|exact Hy1]. apply Hap1; [|set_solver].
      apply list_elem_of_fmap. by exists v.
    + apply elem_of_cons in Hv as [->|Hv]; [done|]. eapply (apart_not (hblock u) (hblock v)); [|exact Hy1|exact Hy2].
      apply Hap2, list_elem_of_fmap. by exists v.
Qed.

(** ** Fuel *)

Lemma find_slot_mono fuel k h bp p q : find_slot fuel h bp p = Some q -> find_slot (fuel + k) h bp p = Some q.
Proof. revert p. induction fuel as [|fuel IH]; intros p; simpl; [done|]. destruct (stops h bp p); [done|apply IH]. Qed.

Lemma free_mono fuel k ap h h' : free fuel ap h = Some h' -> free (fuel + k) ap h = Some h'.
Proof.
  unfold free. destruct (find_slot fuel h _ _) eqn:E; [|done]. by rewrite (find_slot_mono _ k _ _ _ _ E).
Qed.

Lemma morecore_mono fuel k n h r : morecore grow fuel n h = Some r -> morecore grow (fuel + k) n h = Some r.
Proof.
  unfold morecore. destruct (sbrk grow _ h) as [[hp h1]|]; [|done].
  destruct (free fuel (hadd hp 1) _) eqn:E; [|done]. by rewrite (free_mono _ k _ _ _ E).
Qed.

Lemma malloc_loop_mono fuel k n pp p h r :
  malloc_loop grow fuel n pp p h = Some r -> malloc_loop grow (fuel + k) n pp p h = Some r.
Proof.
  revert pp p h. induction fuel as [|fuel IH]; intros pp p h; [done|]. cbn [malloc_loop Nat.add].
  destruct (n <=? size h p); [done|]. destruct (p =? freep h); [|apply IH].
  destruct (morecore grow (S fuel) n h) as [[[q|] h1]|] eqn:E; [| |done];
    rewrite (morecore_mono (S fuel) k _ _ _ E : morecore grow (S (fuel + k)) n h = _); [apply IH|done].
Qed.

Definition usound (lo : Z) (s : heap * list (Z * Z)) : Prop :=
  fresh lo s.1 s.2 \/ exists L, uinv lo s.1 L s.2.

Lemma ustep_sound lo s s' : usound lo s -> ustep s s' -> usound lo s'.
Proof using All.
  unfold usound. intros Hs Hstep. destruct Hstep as [fuel nbytes h A r h' Hn Hm|fuel A1 u A2 h h' Hf|h h' A Hf Hb Hw]; simpl in *.
  - right. assert (exists L, uinv lo (init base h) L A) as [L U].
    { destruct Hs as [Hs|[L U]]; [|exists L; by rewrite (init_uinv lo h L A U)].
      exists []. pose proof Hs as (_ & -> & _). by apply init_fresh. }
    destruct (uinv_malloc lo _ L A nbytes (fuel + (2 * length L + 8)) U Hn) as (r2 & h2 & L' & Hm2 & U' & _); [lia|].
    unfold malloc in Hm, Hm2. rewrite (init_uinv _ _ _ _ U) in Hm2.
    rewrite (malloc_loop_mono _ (2 * length L + 8) _ _ _ _ _ Hm) in Hm2. simplify_eq. by exists L'.
  - right. destruct Hs as [(_ & Hs & _)|[L U]]; [by destruct A1|].
    destruct (uinv_free lo h L A1 u A2 (fuel + S (length L)) U) as (h2 & L' & Hf2 & U' & _); [lia|].
    rewrite (free_mono _ (S (length L)) _ _ _ Hf) in Hf2. simplify_eq. by exists L'.
  - destruct Hs as [(H1 & H2 & H3 & H4)|[L U]].
    + left. split_and!; congruence.
    + right. exists L. by apply (uinv_write lo h).
Qed.

(** (C7) malloc and free in any program that obeys the rules: it asks for at most
    [REQ_MAX] = 2^31 - 48 bytes at a time ([malloc_huge_wraps] shows what a larger
    request does), frees what it holds once, and writes only inside what it holds;
    the kernel may refuse memory at any call.  In every reachable state the blocks
    the program holds are apart from each other, have room for what was asked for,
    and lie in the memory obtained from sbrk with their headers intact; a further
    call of malloc, and a free of a block that is held, ends and leaves every word
    of the other blocks held as it was; and nothing is lost: the rest of the memory
    is on the free list, which is sorted and has no two blocks that touch. *)
Theorem umalloc_sound lo h0 h A :
  freep h0 = 0 -> brk h0 = lo -> base < lo -> rtc ustep (h0, []) (h, A) ->
  (StronglySorted apart (hblock <$> A) /\
   forall u, u ∈ A -> lo <= (hblock u).1 /\ u.1 + u.2 <= (hblock u).1 + 16 * (hblock u).2 <= brk h /\
     size h (hblock u).1 = (hblock u).2) /\
  (A <> [] -> exists L, flist base h L /\
     forall y, lo <= y < brk h <-> covers L y \/ covers (hblock <$> A) y) /\
  (forall nbytes, 0 <= nbytes <= REQ_MAX -> exists fuel r h', malloc base grow fuel nbytes h = Some (r, h') /\
     (r = None -> forall b, b ∈ A -> size h' (hblock b).1 = size h (hblock b).1) /\ intact h h' A) /\
  (forall A1 u A2, A = A1 ++ u :: A2 -> exists fuel h', free fuel u.1 h = Some h' /\ intact h h' (A1 ++ A2)).
Proof using All.
  intros Hf0 Hb0 Hlo Hrtc.
  assert (usound lo (h, A)) as Hs.
  { eapply (rtc_invariant ustep (usound lo)); [intros s s'; apply ustep_sound|exact Hrtc|]. by left. }
  assert (forall L, uinv lo h L A -> forall u, u ∈ A -> lo <= (hblock u).1 /\
    u.1 + u.2 <= (hblock u).1 + 16 * (hblock u).2 <= brk h /\ size h (hblock u).1 = (hblock u).2) as Hheld.
  { intros L U u Hu. destruct (ui_held _ _ _ _ U u Hu) as ([H1 _] & H2 & H3).
    destruct (units_ok u.2 H3) as (_ & _ & H4).
    assert (forall y, blk (hblock u) y -> lo <= y < brk h) as Hy.
    { intros y Hy. apply (ui_cover _ _ _ _ U). right. by eapply held_covers. }
    pose proof (Hy (hblock u).1 ltac:(unfold blk; lia)) as Hy1.
    pose proof (Hy ((hblock u).1 + 16 * (hblock u).2 - 1) ltac:(unfold blk; lia)) as Hy2.
    split; [lia|]. split; [|done]. split; [|lia]. unfold hblock. simpl. lia. }
  unfold usound in Hs. destruct Hs as [Hfr|[L U]]; simpl in *.
  - pose proof Hfr as (_ & -> & _). split_and!; [constructor|set_solver|done| |by intros [] u A2].
    intros nbytes Hn. pose proof (init_fresh lo h Hfr) as U.
    destruct (uinv_malloc lo _ [] [] nbytes 8 U Hn) as (r & h' & L' & Hm & _); [simpl; lia|].
    unfold malloc in Hm. rewrite (init_uinv _ _ _ _ U) in Hm. exists 8%nat, r, h'. split; [done|].
    split; [set_solver|]. intros u y Hu. set_solver.
  - split_and!; [apply U|by apply (Hheld L)| | |].
    + intros _. exists L. split; [apply U|]. intros y. symmetry. apply U.
    + intros nbytes Hn. destruct (uinv_malloc lo h L A nbytes (2 * length L + 8) U Hn) as (r & h' & L' & Hm & U' & Hr & Hi); [lia|].
      exists (2 * length L + 8)%nat, r, h'. split; [done|]. split; [|done]. intros ->. by rewrite Hr.
    + intros A1 u A2 ->.
      destruct (uinv_free lo h L A1 u A2 (S (length L)) U) as (h' & L' & Hf & _ & Hi); [lia|]. by eexists _, h'.
Qed.

End malloc.

(** A program that asks for 24 and for 100 bytes and frees the first block. *)
Definition demo_grow (b n : Z) : bool := (b + n <=? 2 ^ 20) && (0 <=? n).
Definition demo_heap : heap := {| ptr := fun _ => 7; size := fun _ => 9; freep := 0; brk := 4096 |}.

Definition after_malloc (n : Z) (h : heap) : heap :=
  default h (snd <$> malloc 64 demo_grow 8 n h).
Definition after_free (a : Z) (h : heap) : heap := default h (free 8 a h).

Lemma malloc_runs n h r : fst <$> malloc 64 demo_grow 8 n h = Some r ->
  malloc 64 demo_grow 8 n h = Some (r, after_malloc n h).
Proof. unfold after_malloc. destruct (malloc 64 demo_grow 8 n h) as [[r' h']|]; simpl; [|done]. by intros [= ->]. Qed.

Lemma free_runs a h : is_Some (freep <$> free 8 a h) -> free 8 a h = Some (after_free a h).
Proof. unfold after_free. destruct (free 8 a h); [done|]. by intros [? ?]. Qed.

Lemma umalloc_sound_witness :
  let h := after_free 69600 (after_malloc 100 (after_malloc 24 demo_heap)) in
  rtc (ustep 64 demo_grow) (demo_heap, []) (h, [(69472, 100)]) /\
  exists fuel h', free fuel 69472 h = Some h' /\ intact h h' [].
Proof.
  intros h.
  assert (rtc (ustep 64 demo_grow) (demo_heap, []) (h, [(69472, 100)])) as Hr.
  { eapply rtc_l; [eapply (us_malloc _ _ 8 24 _ _ (Some 69600)); [unfold REQ_MAX; lia|apply malloc_runs; by vm_compute]|].
    eapply rtc_l; [eapply (us_malloc _ _ 8 100 _ _ (Some 69472)); [unfold REQ_MAX; lia|apply malloc_runs; by vm_compute]|].
    apply rtc_once. apply (us_free _ _ 8 [(69472, 100)] (69600, 24) []). apply free_runs.
    eexists. by vm_compute. }
  split; [exact Hr|].
  destruct (umalloc_sound 64 ltac:(lia) demo_grow) with (lo := 4096) (h0 := demo_heap) (h := h) (A := [(69472, 100)])
    as (_ & _ & _ & H4); [|done|done|lia|exact Hr|exact (H4 [] (69472, 100) [] eq_refl)].
  intros b n Hg. unfold demo_grow in Hg. apply andb_true_iff in Hg as [Hg _]. apply Z.leb_le in Hg. unfold LIM. lia.
Defined.

(** Beyond [REQ_MAX] the size in bytes does not fit the parameter of sbrk: for the
    largest request sbrk is asked for 16 bytes, the block is recorded with 2^28 + 1
    headers, and malloc returns a pointer to the end of the memory. *)
Lemma malloc_huge_wraps :
  let h := after_malloc (2 ^ 32 - 1) demo_heap in
  malloc 64 demo_grow 8 (2 ^ 32 - 1) demo_heap = Some (Some 4112, h) /\
    size h 4096 = 2 ^ 28 + 1 /\ brk h = 4112.
Proof. split; [apply malloc_runs; by vm_compute|]. by vm_compute. Qed.

End UmallocRun.
