(* ===== verification/File.v ===== *)
(** * Open files (xv6-memory-management/kernel: file.c, file.h, pipe.c's
    pipealloc, the descriptor part of sysfile.c and of proc.c; the files are the
    same in xv6-scheduling)

    The state is the table of open files, the descriptors of the processes, the
    pipes and the file system.  A pipe is named by the page it lives in: a
    [kfree]d page is no pipe, and an access to it is [Undef].  File operations run
    to their end: a call on a pipe that would sleep is [Undef] here ([PipeFacts]
    has the interleaving of readers and writers). *)
From S2P Require Import Prelude Mem Buf Fs Pipe.

#[local] Open Scope Z_scope.

Module File.
Import Fs Pipe.

Definition NFILE : nat := 100.
Definition NOFILE : nat := 16.
Definition NDEV : Z := 10.
Definition T_DEVICE : Z := 3.

Inductive ftype := FD_NONE | FD_PIPE | FD_INODE | FD_DEVICE.

#[export] Instance ftype_eq_dec : EqDecision ftype.
Proof. solve_decision. Defined.

Record file := mk_file {
  ty : ftype;
  fref : Z;             (* int *)
  readable : bool;
  writable : bool;
  fpipe : nat;          (* the page of the pipe *)
  ip : nat;             (* index in the inode table *)
  off : Z;              (* uint *)
  fmajor : Z            (* short *)
}.

(** The file part of a process. *)
Record pfiles := mk_pfiles { ofile : list (option nat); cwd : option nat }.

Record sys := mk_sys {
  ftable : list file;
  procs : list pfiles;
  pipes : gmap nat pipe;
  fsys : fs;
  read_count : Z        (* uint64, syscall.c *)
}.

Definition zero_file : file := mk_file FD_NONE 0 false false 0 0 0 0.
Definition getf (k : sys) (f : nat) : file := default zero_file (ftable k !! f).
Definition setf (f : nat) (x : file) (k : sys) : sys := {| k with ftable := <[f := x]> (ftable k) |}.
Definition set_fsys (s : fs) (k : sys) : sys := {| k with fsys := s |}.
Definition set_pipes (m : gmap nat pipe) (k : sys) : sys := {| k with pipes := m |}.

Definition no_files : pfiles := mk_pfiles (replicate NOFILE None) None.
Definition getp (k : sys) (p : nat) : pfiles := default no_files (procs k !! p).
Definition setp (p : nat) (x : pfiles) (k : sys) : sys := {| k with procs := <[p := x]> (procs k) |}.
Definition set_fd (p fd : nat) (v : option nat) (k : sys) : sys :=
  let x := getp k p in setp p {| x with ofile := <[fd := v]> (ofile x) |} k.

(** ** The table of open files *)

Definition filealloc (k : sys) : option nat * sys :=
  match find_idx (fun f => fref f =? 0) (ftable k) with
  | Some f => let x := getf k f in (Some f, setf f {| x with fref := 1 |} k)
  | None => (None, k)
  end.

Definition filedup (f : nat) (k : sys) : outcome sys :=
  let x := getf k f in
  if fref x <? 1 then Panic "filedup" else Ret (setf f {| x with fref := fref x + 1 |} k).

(** [pipeclose] of the pipe in a page. *)
Definition close_pipe (pg : nat) (w : bool) (k : sys) : outcome sys :=
  match pipes k !! pg with
  | None => Undef "pipeclose: the page is not a pipe"
  | Some pi =>
      let '(pi, _, freed) := pipeclose w pi in
      Ret (set_pipes (if freed then delete pg (pipes k) else <[pg := pi]> (pipes k)) k)
  end.

Definition fileclose (f : nat) (k : sys) : outcome sys :=
  let ff := getf k f in
  if fref ff <? 1 then Panic "fileclose"
  else if 0 <? fref ff - 1 then Ret (setf f {| ff with fref := fref ff - 1 |} k)
  else
    let k := setf f {| ff with fref := 0; ty := FD_NONE |} k in
    match ty ff with
    | FD_PIPE => close_pipe (fpipe ff) (writable ff) k
    | FD_INODE | FD_DEVICE => s ← iput (ip ff) (fsys k); Ret (set_fsys s k)
    | FD_NONE => Ret k
    end.

(** The [bad] exit of [pipealloc] before a page is found. *)
Definition close_opt (f : option nat) (k : sys) : outcome sys :=
  match f with Some f => fileclose f k | None => Ret k end.

(** [page] is what [kalloc] returns, with its contents. *)
Definition pipealloc (page : option (nat * list Z)) (k : sys) : outcome (option (nat * nat) * sys) :=
  let '(f0, k) := filealloc k in
  match f0 with
  | None => Ret (None, k)
  | Some f0 =>
      let '(f1, k) := filealloc k in
      match f1, page with
      | Some f1, Some (pg, junk) =>
          let k := set_pipes (<[pg := pipe_init junk]> (pipes k)) k in
          let x := getf k f0 in
          let k := setf f0 {| x with ty := FD_PIPE; readable := true; writable := false; fpipe := pg |} k in
          let x := getf k f1 in
          let k := setf f1 {| x with ty := FD_PIPE; readable := false; writable := true; fpipe := pg |} k in
          Ret (Some (f0, f1), k)
      | _, _ => k ← fileclose f0 k; k ← close_opt f1 k; Ret (None, k)
      end
  end.

(** ** Reading and writing *)

Record stat := mk_stat { st_dev : Z; st_ino : Z; st_type : Z; st_nlink : Z; st_size : Z }.

Definition stati (i : nat) (s : fs) : stat :=
  let n := geti s i in mk_stat (i32 (dev n)) (inum n) (type n) (nlink n) (isize n).

(** [copy_ok]: does [copyout] of the structure succeed?  [None] is -1. *)
Definition filestat (copy_ok : bool) (f : nat) (k : sys) : outcome (option stat * sys) :=
  match ty (getf k f) with
  | FD_INODE | FD_DEVICE =>
      let i := ip (getf k f) in
      s ← ilock i (fsys k);
      let st := stati i s in
      s ← iunlock i s;
      Ret (if copy_ok then Some st else None, set_fsys s k)
  | _ => Ret (None, k)
  end.

(** The functions of [devsw], for devices that have them: the result of a
    read is its return value and the bytes stored. *)
Record devsw := mk_devsw {
  dev_read : Z -> option (copier -> Z -> Z * list Z);
  dev_write : Z -> option (copier -> list Z -> Z)
}.

Definition bad_major (m : Z) : bool := (m <? 0) || (NDEV <=? m).

(** The return value and the bytes stored at the user's address; [cp] tells which
    copies to that address succeed.  For a pipe, [killed] is that of
    [piperead]. *)
Definition fileread (dv : devsw) (killed : bool) (cp : copier) (f : nat) (n : Z) (k : sys)
    : outcome (Z * list Z * sys) :=
  let x := getf k f in
  if negb (readable x) then Ret (-1, [], k)
  else match ty x with
       | FD_PIPE =>
           match pipes k !! fpipe x with
           | None => Undef "piperead: the page is not a pipe"
           | Some pi =>
               match piperead_run killed (fun i _ => bool_decide (cp i 1 = None)) n pi with
               | (RDone r, out, pi) => Ret (r, take (Z.to_nat r) out, set_pipes (<[fpipe x := pi]> (pipes k)) k)
               | (RKilled, _, _) => Ret (-1, [], k)
               | (RSleep, _, _) => Undef "sleep on an empty pipe"
               end
           end
       | FD_DEVICE =>
           if bad_major (fmajor x) then Ret (-1, [], k)
           else match dev_read dv (fmajor x) with
                | None => Ret (-1, [], k)
                | Some g => let '(r, out) := g cp n in Ret (r, out, k)
                end
       | FD_INODE =>
           s ← ilock (ip x) (fsys k);
           '(r, out, s) ← readi_to cp (ip x) (off x) (u32 n) s;
           let k := if 0 <? r then setf f {| x with off := u32 (off x + r) |} k else k in
           s ← iunlock (ip x) s;
           Ret (r, out, set_fsys s k)
       | FD_NONE => Panic "fileread"
       end.

Definition MAXOPBLOCKS : Z := 10.

(** The most bytes [filewrite] writes in one transaction. *)
Definition write_max : Z := (MAXOPBLOCKS - 1 - 1 - 2) / 2 * Buf.BSIZE.

(** The loop of [filewrite] on an inode, from byte [i] on; [src] are the bytes
    from there. *)
Fixpoint write_chunks (cp : copier) (fuel : nat) (f : nat) (i : Z) (src : list Z) (k : sys)
    : outcome (bool * sys) :=
  match src with
  | [] => Ret (true, k)
  | _ =>
      match fuel with
      | O => Undef "filewrite: fuel"
      | S fuel =>
          let x := getf k f in
          let n1 := Z.min (Z.of_nat (length src)) write_max in
          s ← ilock (ip x) (fsys k);
          '(r, s) ← writei_from (fun pos m => cp (i + pos) m) (ip x) (off x) (take (Z.to_nat n1) src) s;
          let k := if 0 <? r then setf f {| x with off := u32 (off x + r) |} k else k in
          s ← iunlock (ip x) s;
          let k := set_fsys s k in
          if negb (r =? n1) then Ret (false, k)
          else write_chunks cp fuel f (i + r) (drop (Z.to_nat r) src) k
      end
  end.

(** [src] are the [n >= 0] bytes at the user's address, of which [cp] tells which
    copies succeed (where none does, the bytes do not matter); for a pipe,
    [killed] is that of [pipewrite]. *)
Definition filewrite (dv : devsw) (killed : Z -> bool) (cp : copier) (f : nat) (src : list Z) (k : sys)
    : outcome (Z * sys) :=
  let n := Z.of_nat (length src) in
  let x := getf k f in
  if negb (writable x) then Ret (-1, k)
  else match ty x with
       | FD_PIPE =>
           match pipes k !! fpipe x with
           | None => Undef "pipewrite: the page is not a pipe"
           | Some pi =>
               match pipewrite_run killed (fun i => match cp i 1 with None => src !! Z.to_nat i | Some _ => None end) n 0 pi with
               | (WDone r, pi) => Ret (r, set_pipes (<[fpipe x := pi]> (pipes k)) k)
               | (WBroken _, pi) => Ret (-1, set_pipes (<[fpipe x := pi]> (pipes k)) k)
               | (WSleep _, _) => Undef "sleep on a full pipe"
               end
           end
       | FD_DEVICE =>
           if bad_major (fmajor x) then Ret (-1, k)
           else match dev_write dv (fmajor x) with None => Ret (-1, k) | Some g => Ret (g cp src, k) end
       | FD_INODE =>
           '(all, k) ← write_chunks cp (length src) f 0 src k;
           Ret (if all : bool then n else -1, k)
       | FD_NONE => Panic "filewrite"
       end.

(** ** Descriptors (sysfile.c, proc.c) *)

Definition argfd (p : nat) (fd : Z) (k : sys) : option nat :=
  if (fd <? 0) || (Z.of_nat NOFILE <=? fd) then None
  else default None (ofile (getp k p) !! Z.to_nat fd).

(** The first descriptor without a file. *)
Definition fdalloc (p f : nat) (k : sys) : option nat * sys :=
  match find_idx (fun v => bool_decide (v = None)) (ofile (getp k p)) with
  | Some fd => (Some fd, set_fd p fd (Some f) k)
  | None => (None, k)
  end.

Definition sys_dup (p : nat) (fd : Z) (k : sys) : outcome (Z * sys) :=
  match argfd p fd k with
  | None => Ret (-1, k)
  | Some f =>
      let '(fd, k) := fdalloc p f k in
      match fd with
      | None => Ret (-1, k)
      | Some fd => k ← filedup f k; Ret (Z.of_nat fd, k)
      end
  end.

Definition sys_close (p : nat) (fd : Z) (k : sys) : outcome (Z * sys) :=
  match argfd p fd k with
  | None => Ret (-1, k)
  | Some f => k ← fileclose f (set_fd p (Z.to_nat fd) None k); Ret (0, k)
  end.

(** syscall.c: the bytes [read] has returned since boot. *)
Definition update_read_count (bytes : Z) (k : sys) : sys :=
  {| k with read_count := u64 (read_count k + bytes) |}.

(** [extern int read_count]: the low word is loaded, as an [int], which the
    [uint64] result extends. *)
Definition sys_getreadcount (k : sys) : Z := u64 (i32 (read_count k)).

Definition sys_read (dv : devsw) (killed : bool) (cp : copier) (p : nat) (fd n : Z) (k : sys)
    : outcome (Z * list Z * sys) :=
  match argfd p fd k with
  | None => Ret (-1, [], k)
  | Some f =>
      '(r, out, k) ← fileread dv killed cp f n k;
      Ret (r, out, if 0 <? r then update_read_count r k else k)
  end.

Definition sys_write (dv : devsw) (killed : Z -> bool) (cp : copier) (p : nat) (fd : Z) (src : list Z) (k : sys)
    : outcome (Z * sys) :=
  match argfd p fd k with None => Ret (-1, k) | Some f => filewrite dv killed cp f src k end.

Definition sys_fstat (copy_ok : bool) (p : nat) (fd : Z) (k : sys) : outcome (option stat * sys) :=
  match argfd p fd k with None => Ret (None, k) | Some f => filestat copy_ok f k end.

(** [copy0] and [copy1]: do the two [copyout]s succeed? *)
Definition sys_pipe (p : nat) (page : option (nat * list Z)) (copy0 copy1 : bool) (k : sys)
    : outcome (Z * sys) :=
  '(files, k) ← pipealloc page k;
  match files with
  | None => Ret (-1, k)
  | Some (rf, wf) =>
      let '(fd0, k) := fdalloc p rf k in
      match fd0 with
      | None => k ← fileclose rf k; k ← fileclose wf k; Ret (-1, k)
      | Some fd0 =>
          let '(fd1, k) := fdalloc p wf k in
          match fd1 with
          | None => k ← fileclose rf (set_fd p fd0 None k); k ← fileclose wf k; Ret (-1, k)
          | Some fd1 =>
              if copy0 && copy1 then Ret (0, k)
              else
                k ← fileclose rf (set_fd p fd1 None (set_fd p fd0 None k));
                k ← fileclose wf k;
                Ret (-1, k)
          end
      end
  end.

(** [kfork]'s loop over the parent's descriptors, from [fd] on. *)
Fixpoint fork_files (l : list (option nat)) (k : sys) : outcome sys :=
  match l with
  | [] => Ret k
  | None :: l => fork_files l k
  | Some f :: l => k ← filedup f k; fork_files l k
  end.

(** The file part of [kfork]: the child is process [c], whose slot was free. *)
Definition fork_open (p c : nat) (k : sys) : outcome sys :=
  let x := getp k p in
  k ← fork_files (ofile x) k;
  match cwd x with
  | None => Undef "kfork: no current directory"
  | Some d => let '(_, s) := idup d (fsys k) in Ret (setp c x (set_fsys s k))
  end.

(** [kexit]'s loop over the descriptors, from [fd] on. *)
Fixpoint exit_files (n : nat) (p fd : nat) (k : sys) : outcome sys :=
  match n with
  | O => Ret k
  | S n =>
      match default None (ofile (getp k p) !! fd) with
      | None => exit_files n p (S fd) k
      | Some f => k ← fileclose f k; exit_files n p (S fd) (set_fd p fd None k)
      end
  end.

Definition exit_open (p : nat) (k : sys) : outcome sys :=
  k ← exit_files NOFILE p 0 k;
  match cwd (getp k p) with
  | None => Undef "kexit: no current directory"
  | Some d =>
      s ← iput d (fsys k);
      let k := set_fsys s k in
      let x := getp k p in Ret (setp p {| x with cwd := None |} k)
  end.

End File.
