(* ===== verification/Sysfile.v ===== *)
(** * File system calls on path names (xv6-memory-management/kernel/sysfile.c;
    the same file is in xv6-scheduling)

    A path argument is its bytes, [None] when [argstr] fails; [junk] is what the
    caller's name buffer held.  [begin_op] and [end_op] delimit the transaction
    of the whole call and are not shown. *)
From S2P Require Import Prelude Mem Buf Fs Dir Pipe File.

#[local] Open Scope Z_scope.

Module Sysfile.
Import Fs Dir File.

Definition set_nlink (i : nat) (d : Z) (s : fs) : fs :=
  let n := geti s i in iupdate i (seti i {| n with nlink := i16 (nlink n + d) |} s).

(** ** link *)

Definition sys_link (d : nat) (old new : option (list Z)) (junk name : list Z) (s : fs) : outcome (Z * fs) :=
  match old, new with
  | Some old, Some new =>
      '(ip, s) ← namei d old junk s;
      match ip with
      | None => Ret (-1, s)
      | Some ip =>
          s ← ilock ip s;
          if type (geti s ip) =? T_DIR then s ← iunlockput ip s; Ret (-1, s)
          else
            s ← iunlock ip (set_nlink ip 1 s);
            '(dp, name, s) ← nameiparent d new name s;
            '(ok, s) ← match dp with
              | None => Ret (false, s)
              | Some dp =>
                  s ← ilock dp s;
                  '(bad, s) ← (if negb (dev (geti s dp) =? dev (geti s ip)) then Ret (true, s)
                               else '(r, s) ← dirlink dp name (inum (geti s ip)) s; Ret (r <? 0, s));
                  s ← iunlockput dp s;
                  Ret (negb bad, s)
              end;
            if ok : bool then s ← iput ip s; Ret (0, s)
            else
              s ← ilock ip s;
              s ← iunlockput ip (set_nlink ip (-1) s);
              Ret (-1, s)
      end
  | _, _ => Ret (-1, s)
  end.

(** ** unlink *)

(** [for(off=2*sizeof(de); off<dp->size; off+=sizeof(de))] *)
Definition isdirempty (dp : nat) (s : fs) : outcome (bool * fs) :=
  '(_, de, s) ← scan_dir (dir_fuel dp s) "isdirempty: readi" (fun de => negb (de_inum de =? 0)) dp (2 * DIRENT) s;
  Ret (match de with None => true | Some _ => false end, s).

Definition DOTNAME : list Z := [46].
Definition DOTDOT : list Z := [46; 46].

Definition unlink_bad (dp : nat) (s : fs) : outcome (Z * fs) := s ← iunlockput dp s; Ret (-1, s).

(** The entry of inode [ip] at [off] in the locked directory [dp] goes. *)
Definition unlink_entry (dp ip : nat) (off : Z) (s : fs) : outcome (Z * fs) :=
  '(tot, s) ← writei dp off (replicate 16 0) s;
  if negb (tot =? DIRENT) then Panic "unlink: writei"
  else
    let s := if type (geti s ip) =? T_DIR then set_nlink dp (-1) s else s in
    s ← iunlockput dp s;
    s ← iunlockput ip (set_nlink ip (-1) s);
    Ret (0, s).

Definition sys_unlink (d : nat) (path : option (list Z)) (name : list Z) (s : fs) : outcome (Z * fs) :=
  match path with
  | None => Ret (-1, s)
  | Some path =>
      '(dp, name, s) ← nameiparent d path name s;
      match dp with
      | None => Ret (-1, s)
      | Some dp =>
          s ← ilock dp s;
          if (namecmp name DOTNAME =? 0) || (namecmp name DOTDOT =? 0) then unlink_bad dp s
          else
            '(found, s) ← dirlookup dp name s;
            match found with
            | None => unlink_bad dp s
            | Some (ip, off) =>
                s ← ilock ip s;
                if nlink (geti s ip) <? 1 then Panic "unlink: nlink < 1"
                else
                  '(full, s) ← (if type (geti s ip) =? T_DIR
                                then '(e, s) ← isdirempty ip s; Ret (negb e, s) else Ret (false, s));
                  if full : bool then s ← iunlockput ip s; unlink_bad dp s
                  else unlink_entry dp ip off s
            end
      end
  end.

(** ** create *)

(** [fail]: the new inode [ip] is given back. *)
Definition create_fail (dp ip : nat) (s : fs) : outcome (option nat * fs) :=
  let n := geti s ip in
  s ← iunlockput ip (iupdate ip (seti ip {| n with nlink := 0 |} s));
  s ← iunlockput dp s;
  Ret (None, s).

(** Link the new inode [ip] as [name] into [dp]; both are locked. *)
Definition create_link (dp ip : nat) (name : list Z) (ty : Z) (s : fs) : outcome (option nat * fs) :=
  '(bad, s) ← (if ty =? T_DIR then
                 '(r, s) ← dirlink ip DOTNAME (inum (geti s ip)) s;
                 if r <? 0 then Ret (true, s)
                 else '(r, s) ← dirlink ip DOTDOT (inum (geti s dp)) s; Ret (r <? 0, s)
               else Ret (false, s));
  if bad : bool then create_fail dp ip s
  else
    '(r, s) ← dirlink dp name (inum (geti s ip)) s;
    if r <? 0 then create_fail dp ip s
    else
      let s := if ty =? T_DIR then set_nlink dp 1 s else s in
      s ← iunlockput dp s;
      Ret (Some ip, s).

(** The inode is returned locked. *)
Definition create (d : nat) (path : list Z) (ty maj min : Z) (name : list Z) (s : fs) : outcome (option nat * fs) :=
  '(dp, name, s) ← nameiparent d path name s;
  match dp with
  | None => Ret (None, s)
  | Some dp =>
      s ← ilock dp s;
      '(found, s) ← dirlookup dp name s;
      match found with
      | Some (ip, _) =>
          s ← iunlockput dp s;
          s ← ilock ip s;
          if (ty =? T_FILE) && ((type (geti s ip) =? T_FILE) || (type (geti s ip) =? T_DEVICE))
          then Ret (Some ip, s)
          else s ← iunlockput ip s; Ret (None, s)
      | None =>
          '(new, s) ← ialloc (dev (geti s dp)) ty s;
          match new with
          | None => s ← iunlockput dp s; Ret (None, s)
          | Some ip =>
              s ← ilock ip s;
              let n := geti s ip in
              let s := iupdate ip (seti ip {| n with major := maj; minor := min; nlink := 1 |} s) in
              create_link dp ip name ty s
          end
      end
  end.

(** ** open *)

Definition O_RDONLY : Z := 0x000.
Definition O_WRONLY : Z := 0x001.
Definition O_RDWR : Z := 0x002.
Definition O_CREATE : Z := 0x200.
Definition O_TRUNC : Z := 0x400.

(** The locked inode the call is about, or nothing for -1. *)
Definition open_inode (d : nat) (path : list Z) (omode : Z) (junk : list Z) (s : fs) : outcome (option nat * fs) :=
  '(ip, s) ← (if has_flag omode O_CREATE then create d path T_FILE 0 0 junk s
              else
                '(ip, s) ← namei d path junk s;
                match ip with
                | None => Ret (None, s)
                | Some ip =>
                    s ← ilock ip s;
                    if (type (geti s ip) =? T_DIR) && negb (omode =? O_RDONLY)
                    then s ← iunlockput ip s; Ret (None, s)
                    else Ret (Some ip, s)
                end);
  match ip with
  | None => Ret (None, s)
  | Some ip =>
      if (type (geti s ip) =? T_DEVICE) && bad_major (major (geti s ip))
      then s ← iunlockput ip s; Ret (None, s)
      else Ret (Some ip, s)
  end.

(** What the fields of the open file become. *)
Definition open_fields (i : nat) (omode : Z) (s : fs) (x : file) : file :=
  let n := geti s i in
  let x := if type n =? T_DEVICE then {| x with ty := FD_DEVICE; fmajor := major n |}
           else {| x with ty := FD_INODE; off := 0 |} in
  {| x with ip := i; readable := negb (has_flag omode O_WRONLY);
            writable := has_flag omode O_WRONLY || has_flag omode O_RDWR |}.

(** [filealloc() == 0 || fdalloc(f) < 0] and the failing exit. *)
Definition open_fd (p i : nat) (k : sys) : outcome (option (nat * nat) * sys) :=
  let '(f, k) := filealloc k in
  match f with
  | None => s ← iunlockput i (fsys k); Ret (None, set_fsys s k)
  | Some f =>
      let '(fd, k) := fdalloc p f k in
      match fd with
      | Some fd => Ret (Some (f, fd), k)
      | None => k ← fileclose f k; s ← iunlockput i (fsys k); Ret (None, set_fsys s k)
      end
  end.

Definition sys_open (p : nat) (path : option (list Z)) (omode : Z) (junk : list Z) (k : sys) : outcome (Z * sys) :=
  match path, cwd (getp k p) with
  | Some path, Some d =>
      '(i, s) ← open_inode d path omode junk (fsys k);
      let k := set_fsys s k in
      match i with
      | None => Ret (-1, k)
      | Some i =>
          '(r, k) ← open_fd p i k;
          match r with
          | None => Ret (-1, k)
          | Some (f, fd) =>
              let k := setf f (open_fields i omode (fsys k) (getf k f)) k in
              s ← (if has_flag omode O_TRUNC && (type (geti (fsys k) i) =? T_FILE)
                   then itrunc i (fsys k) else Ret (fsys k));
              s ← iunlock i s;
              Ret (Z.of_nat fd, set_fsys s k)
          end
      end
  | _, _ => Ret (-1, k)
  end.

(** ** mkdir, mknod, chdir *)

Definition sys_mknod_as (d : nat) (path : option (list Z)) (ty maj min : Z) (junk : list Z) (s : fs) : outcome (Z * fs) :=
  match path with
  | None => Ret (-1, s)
  | Some path =>
      '(ip, s) ← create d path ty maj min junk s;
      match ip with
      | None => Ret (-1, s)
      | Some ip => s ← iunlockput ip s; Ret (0, s)
      end
  end.

Definition sys_mkdir (d : nat) (path : option (list Z)) (junk : list Z) (s : fs) : outcome (Z * fs) :=
  sys_mknod_as d path T_DIR 0 0 junk s.

(** The device numbers are ints; [create] takes shorts. *)
Definition sys_mknod (d : nat) (path : option (list Z)) (maj min : Z) (junk : list Z) (s : fs) : outcome (Z * fs) :=
  sys_mknod_as d path T_DEVICE (i16 maj) (i16 min) junk s.

Definition sys_chdir (p : nat) (path : option (list Z)) (junk : list Z) (k : sys) : outcome (Z * sys) :=
  match path, cwd (getp k p) with
  | Some path, Some d =>
      '(ip, s) ← namei d path junk (fsys k);
      match ip with
      | None => Ret (-1, set_fsys s k)
      | Some ip =>
          s ← ilock ip s;
          if negb (type (geti s ip) =? T_DIR) then s ← iunlockput ip s; Ret (-1, set_fsys s k)
          else
            s ← iunlock ip s;
            s ← iput d s;
            let k := set_fsys s k in
            let x := getp k p in Ret (0, setp p {| x with cwd := Some ip |} k)
      end
  | _, _ => Ret (-1, k)
  end.

(** ** The system

    After boot process 0 of the table is init, in the root directory [root];
    no file is open. *)
Definition boot (n : nat) (root : nat) (s : fs) : sys :=
  let init := {| no_files with cwd := Some root |} in
  {| ftable := replicate NFILE zero_file; procs := init :: replicate n no_files;
     pipes := ∅; fsys := s; read_count := 0 |}.

(** One call that returns, of any process.  The page of a new pipe comes from
    [kalloc], so no pipe lives there; a child gets a slot without files. *)
Inductive fstep (dv : devsw) : relation sys :=
| f_open p path om junk r k k' : sys_open p path om junk k = Ret (r, k') -> fstep dv k k'
| f_dup p fd r k k' : sys_dup p fd k = Ret (r, k') -> fstep dv k k'
| f_close p fd r k k' : sys_close p fd k = Ret (r, k') -> fstep dv k k'
| f_pipe p page c0 c1 r k k' : (p < length (procs k))%nat ->
    (forall pg junk, page = Some (pg, junk) -> pipes k !! pg = None) ->
    sys_pipe p page c0 c1 k = Ret (r, k') -> fstep dv k k'
| f_read killed cp p fd n r k k' : sys_read dv killed cp p fd n k = Ret (r, k') -> fstep dv k k'
| f_write killed cp p fd src r k k' : sys_write dv killed cp p fd src k = Ret (r, k') -> fstep dv k k'
| f_fstat ok p fd r k k' : sys_fstat ok p fd k = Ret (r, k') -> fstep dv k k'
| f_chdir p path junk r k k' : sys_chdir p path junk k = Ret (r, k') -> fstep dv k k'
| f_fork p c k k' : (c < length (procs k))%nat -> ofile (getp k c) = replicate NOFILE None ->
    fork_open p c k = Ret k' -> fstep dv k k'
| f_exit p k k' : exit_open p k = Ret k' -> fstep dv k k'
| f_fs s k : fstep dv k (set_fsys s k).   (* link, unlink, mkdir, mknod, exec *)

End Sysfile.
