(* ===== verification/FileFacts.v ===== *)
(** * Open files: reference counts are the numbers of descriptors, and a pipe
    lives as long as a file refers to it. *)
From S2P Require Import Prelude Mem Buf Fs Dir Pipe File Sysfile.

#[local] Open Scope Z_scope.

Module FileFacts.
Import Fs Dir Pipe File Sysfile.

(** ** Counting descriptors *)

Definition is_fd (f : nat) (v : option nat) : bool := bool_decide (v = Some f).

Definition refs (k : sys) (f : nat) : nat := countb (is_fd f) (concat (ofile <$> procs k)).

Lemma countb_concat_insert {A} (P : A -> bool) (L : list (list A)) i l l' :
  L !! i = Some l ->
  (countb P (concat (<[i := l']> L)) + countb P l = countb P (concat L) + countb P l')%nat.
Proof.
  revert i. induction L as [|m L IH]; intros [|i] Hi; simplify_eq/=; rewrite !countb_app; [lia|].
  specialize (IH _ Hi). lia.
Qed.

Lemma refs_setp k p x y f : procs k !! p = Some x ->
  (refs (setp p y k) f + countb (is_fd f) (ofile x) = refs k f + countb (is_fd f) (ofile y))%nat.
Proof.
  intros Hp. unfold refs, setp. cbn [procs]. rewrite list_fmap_insert.
  apply countb_concat_insert. by rewrite list_lookup_fmap, Hp.
Qed.

Lemma getp_lookup k p x : procs k !! p = Some x -> getp k p = x.
Proof. unfold getp. by intros ->. Qed.

Lemma getf_lookup k f x : ftable k !! f = Some x -> getf k f = x.
Proof. unfold getf. by intros ->. Qed.

Lemma lookup_setf k f g x : (f < length (ftable k))%nat ->
  ftable (setf f x k) !! g = if decide (f = g) then Some x else ftable k !! g.
Proof.
  intros Hf. unfold setf. cbn [ftable]. destruct (decide (f = g)) as [->|Hne].
  - by apply list_lookup_insert_eq.
  - by apply list_lookup_insert_ne.
Qed.

Lemma refs_set_fd k p x fd old v f : procs k !! p = Some x -> ofile x !! fd = Some old ->
  (refs (set_fd p fd v k) f + Nat.b2n (is_fd f old) = refs k f + Nat.b2n (is_fd f v))%nat.
Proof.
  intros Hp Hfd. unfold set_fd. rewrite (getp_lookup _ _ _ Hp).
  pose proof (refs_setp k p x {| x with ofile := <[fd := v]> (ofile x) |} f Hp) as H. cbn [ofile] in H.
  pose proof (countb_insert (is_fd f) (ofile x) fd old v Hfd). lia.
Qed.

(** ** The invariant

    [e f] are references to file [f] held by a call that is under way. *)
Definition inc (f : nat) (e : nat -> nat) : nat -> nat := fun g => if decide (f = g) then S (e g) else e g.

(** The end of a pipe: [true] is the writing one. *)
Definition end_open (w : bool) (pi : pipe) : bool := if w then writeopen pi else readopen pi.

Definition has_end (k : sys) (pg : nat) (w : bool) (f : nat) : Prop :=
  exists x, ftable k !! f = Some x /\ ty x = FD_PIPE /\ fpipe x = pg /\ writable x = w.

Record files_inv (e : nat -> nat) (k : sys) : Prop := {
  fi_procs : Forall (fun x => length (ofile x) = NOFILE) (procs k);
  fi_refs : forall f x, ftable k !! f = Some x -> fref x = Z.of_nat (refs k f + e f);
  fi_range : forall f, (length (ftable k) <= f)%nat -> (refs k f + e f = 0)%nat;
  fi_free : forall f x, ftable k !! f = Some x -> fref x = 0 -> ty x = FD_NONE;
  fi_typed : forall f x, ftable k !! f = Some x -> ty x = FD_NONE -> refs k f = 0%nat;
  fi_pipe : forall f x, ftable k !! f = Some x -> ty x = FD_PIPE ->
    readable x = negb (writable x) /\
    exists pi, pipes k !! fpipe x = Some pi /\ end_open (writable x) pi = true;
  fi_unique : forall f g pg w, has_end k pg w f -> has_end k pg w g -> f = g;
  fi_ends : forall pg pi w, pipes k !! pg = Some pi -> end_open w pi = true -> exists f, has_end k pg w f;
  fi_alive : forall pg pi, pipes k !! pg = Some pi -> readopen pi || writeopen pi = true }.

Lemma files_inv_ext e e' k : (forall f, e' f = e f) -> files_inv e k -> files_inv e' k.
Proof.
  intros He I. split; try apply I.
  - intros f x Hx. rewrite He. by apply (fi_refs _ _ I).
  - intros f Hf. rewrite He. by apply (fi_range _ _ I).
Qed.

Lemma files_inv_fsys e k s : files_inv e k -> files_inv e (set_fsys s k).
Proof. intros [? ? ? ? ? ? ? ? ?]. by split. Qed.

Lemma files_inv_count_reads e k n : files_inv e k -> files_inv e (update_read_count n k).
Proof. intros [? ? ? ? ? ? ? ? ?]. by split. Qed.

(** Files that keep their counts, types and ends. *)
Definition same_shape (x y : file) : Prop :=
  fref y = fref x /\ ty y = ty x /\ readable y = readable x /\ writable y = writable x /\ fpipe y = fpipe x.

Lemma files_inv_setf e k f x y :
  ftable k !! f = Some x -> same_shape x y -> files_inv e k -> files_inv e (setf f y k).
Proof.
  intros Hx (H1 & H2 & H3 & H4 & H5) I. pose proof (lookup_lt_Some _ _ _ Hx) as Hlt.
  assert (forall g z, ftable (setf f y k) !! g = Some z -> exists z', ftable k !! g = Some z' /\ same_shape z' z) as Hback.
  { intros g z. rewrite lookup_setf by done. destruct (decide (f = g)) as [->|].
    - intros [= <-]. by exists x.
    - intros Hz. exists z. by split. }
  assert (forall pg w g, has_end (setf f y k) pg w g <-> has_end k pg w g) as Hend.
  { intros pg w g. unfold has_end. rewrite lookup_setf by done. destruct (decide (f = g)) as [->|]; [|done].
    split; intros (z & Hz & Hr); simplify_eq; [exists x|exists y]; split; try done; naive_solver congruence. }
  split.
  - apply I.
  - intros g z (z' & Hz & Hs)%Hback. destruct Hs as [-> _]. by apply (fi_refs _ _ I).
  - intros g. cbn [setf ftable]. rewrite length_insert. apply (fi_range _ _ I).
  - intros g z (z' & Hz & Hs)%Hback. destruct Hs as (-> & -> & _). intros; by eapply (fi_free _ _ I).
  - intros g z (z' & Hz & Hs)%Hback. destruct Hs as (_ & -> & _). intros; by eapply (fi_typed _ _ I).
  - intros g z (z' & Hz & Hs)%Hback. destruct Hs as (_ & -> & -> & -> & ->). intros; by eapply (fi_pipe _ _ I).
  - intros g g' pg w. rewrite !Hend. intros. by eapply (fi_unique _ _ I).
  - intros pg pi w Hp Ho. destruct (fi_ends _ _ I pg pi w Hp Ho) as [g Hg]. exists g. by apply Hend.
  - apply I.
Qed.

(** ** Allocation, duplication *)

Lemma filealloc_inv e k f k' : files_inv e k -> filealloc k = (Some f, k') ->
  files_inv (inc f e) k' /\ exists x, ftable k' !! f = Some x /\ ty x = FD_NONE /\ refs k' f = 0%nat /\ e f = 0%nat.
Proof.
  intros I. unfold filealloc. destruct (find_idx _ (ftable k)) as [g|] eqn:E; [|done]. intros [= -> <-].
  apply find_idx_hit in E as (x & Hx & Hr). apply Z.eqb_eq in Hr.
  pose proof (lookup_lt_Some _ _ _ Hx) as Hlt. pose proof (fi_free _ _ I _ _ Hx Hr) as Hty.
  pose proof (fi_refs _ _ I _ _ Hx) as Hc. rewrite Hr in Hc. rewrite (getf_lookup _ _ _ Hx).
  set (y := {| x with fref := 1 |}). assert (forall g, refs (setf f y k) g = refs k g) as Hrefs by done.
  assert (forall g z, ftable (setf f y k) !! g = Some z -> g <> f -> ftable k !! g = Some z) as Hback.
  { intros g z. rewrite lookup_setf by done. by destruct (decide (f = g)). }
  assert (forall pg w g, has_end (setf f y k) pg w g <-> has_end k pg w g) as Hend.
  { intros pg w g. unfold has_end. rewrite lookup_setf by done. destruct (decide (f = g)) as [->|]; [|done].
    split; intros (z & Hz & Hr' & _); simplify_eq/=; congruence. }
  split; [split|].
  - apply I.
  - intros g z Hz. unfold inc. rewrite Hrefs. destruct (decide (f = g)) as [->|Hne].
    + rewrite lookup_setf, decide_True in Hz by done. simplify_eq/=. lia.
    + apply (fi_refs _ _ I). by apply Hback.
  - intros g Hg. cbn [setf ftable] in Hg. rewrite length_insert in Hg. unfold inc. rewrite decide_False by lia.
    by apply (fi_range _ _ I).
  - intros g z Hz Hz0. destruct (decide (g = f)) as [->|Hne].
    + rewrite lookup_setf, decide_True in Hz by done. simplify_eq/=.
    + apply (fi_free _ _ I g); [by apply Hback|done].
  - intros g z Hz Hz0. rewrite Hrefs. destruct (decide (g = f)) as [->|Hne]; [lia|].
    apply (fi_typed _ _ I g z); [by apply Hback|done].
  - intros g z Hz Hz0. destruct (decide (g = f)) as [->|Hne].
    + rewrite lookup_setf, decide_True in Hz by done. simplify_eq/=. congruence.
    + apply (fi_pipe _ _ I g); [by apply Hback|done].
  - intros g g' pg w. rewrite !Hend. intros. by eapply (fi_unique _ _ I).
  - intros pg pi w Hp Ho. destruct (fi_ends _ _ I pg pi w Hp Ho) as [g Hg]. exists g. by apply Hend.
  - apply I.
  - exists y. rewrite lookup_setf, decide_True by done. split_and!; [done|done| |]; rewrite ?Hrefs; lia.
Qed.

(** Changing one file: what has to be shown of it. *)
Lemma files_inv_set e e' k f x y :
  files_inv e k -> ftable k !! f = Some x -> (forall g, g <> f -> e' g = e g) ->
  fref y = Z.of_nat (refs k f + e' f) -> (fref y = 0 -> ty y = FD_NONE) ->
  (ty y = FD_NONE -> refs k f = 0%nat) -> ty x <> FD_PIPE -> ty y <> FD_PIPE ->
  files_inv e' (setf f y k).
Proof.
  intros I Hx He Hr Hfree Htyp Hp1 Hp2. pose proof (lookup_lt_Some _ _ _ Hx) as Hlt.
  assert (forall g, refs (setf f y k) g = refs k g) as Hrefs by done.
  assert (forall g z, ftable (setf f y k) !! g = Some z -> g = f /\ z = y \/ g <> f /\ ftable k !! g = Some z) as Hback.
  { intros g z. rewrite lookup_setf by done. destruct (decide (f = g)) as [->|]; [|by right].
    intros [= <-]. by left. }
  assert (forall pg w g, has_end (setf f y k) pg w g <-> has_end k pg w g) as Hend.
  { intros pg w g. unfold has_end. rewrite lookup_setf by done. destruct (decide (f = g)) as [->|]; [|done].
    split; intros (z & Hz & Hz' & _); simplify_eq/=. }
  split.
  - apply I.
  - intros g z [[-> ->]|[Hne Hz]]%Hback; rewrite Hrefs; [done|]. rewrite He by done. by apply (fi_refs _ _ I).
  - intros g Hg. cbn [setf ftable] in Hg. rewrite length_insert in Hg. rewrite Hrefs, He by lia.
    by apply (fi_range _ _ I).
  - intros g z [[-> ->]|[Hne Hz]]%Hback; [done|]. by eapply (fi_free _ _ I).
  - intros g z [[-> ->]|[Hne Hz]]%Hback; rewrite Hrefs; [done|]. by eapply (fi_typed _ _ I).
  - intros g z [[-> ->]|[Hne Hz]]%Hback; [done|]. by eapply (fi_pipe _ _ I).
  - intros g g' pg w. rewrite !Hend. intros. by eapply (fi_unique _ _ I).
  - intros pg pi w Hp Ho. destruct (fi_ends _ _ I pg pi w Hp Ho) as [g Hg]. exists g. by apply Hend.
  - apply I.
Qed.

(** Raising or lowering a count that stays positive. *)
Lemma files_inv_count e e' k f x d :
  files_inv e k -> ftable k !! f = Some x -> (forall g, g <> f -> e' g = e g) ->
  fref x + d = Z.of_nat (refs k f + e' f) -> 0 < fref x + d -> 0 < fref x ->
  files_inv e' (setf f {| x with fref := fref x + d |} k).
Proof.
  intros I Hx He Hr Hpos Hpos0. pose proof (lookup_lt_Some _ _ _ Hx) as Hlt.
  set (y := {| x with fref := fref x + d |}).
  assert (forall g, refs (setf f y k) g = refs k g) as Hrefs by done.
  assert (forall g z, ftable (setf f y k) !! g = Some z -> g = f /\ z = y \/ g <> f /\ ftable k !! g = Some z) as Hback.
  { intros g z. rewrite lookup_setf by done. destruct (decide (f = g)) as [->|]; [|by right].
    intros [= <-]. by left. }
  assert (forall pg w g, has_end (setf f y k) pg w g <-> has_end k pg w g) as Hend.
  { intros pg w g. unfold has_end. rewrite lookup_setf by done. destruct (decide (f = g)) as [->|]; [|done].
    split; intros (z & Hz & Hz'); simplify_eq; [exists x|exists y]; by split. }
  split.
  - apply I.
  - intros g z [[-> ->]|[Hne Hz]]%Hback; rewrite Hrefs; [done|]. rewrite He by done. by apply (fi_refs _ _ I).
  - intros g Hg. cbn [setf ftable] in Hg. rewrite length_insert in Hg. rewrite Hrefs, He by lia.
    by apply (fi_range _ _ I).
  - intros g z [[-> ->]|[Hne Hz]]%Hback; [unfold y; simpl; lia|]. by eapply (fi_free _ _ I).
  - intros g z [[-> ->]|[Hne Hz]]%Hback; rewrite Hrefs; [|by eapply (fi_typed _ _ I)].
    intros Hty. by apply (fi_typed _ _ I f x).
  - intros g z [[-> ->]|[Hne Hz]]%Hback; [|by eapply (fi_pipe _ _ I)].
    intros Hty. by apply (fi_pipe _ _ I f x).
  - intros g g' pg w. rewrite !Hend. intros. by eapply (fi_unique _ _ I).
  - intros pg pi w Hp Ho. destruct (fi_ends _ _ I pg pi w Hp Ho) as [g Hg]. exists g. by apply Hend.
  - apply I.
Qed.

(** A file some descriptor refers to is in use. *)
Lemma in_use e k f : files_inv e k -> (0 < refs k f + e f)%nat ->
  exists x, ftable k !! f = Some x /\ fref x = Z.of_nat (refs k f + e f).
Proof.
  intros I Hpos. destruct (decide (f < length (ftable k))%nat) as [Hlt|Hge].
  - apply lookup_lt_is_Some_2 in Hlt as [x Hx]. exists x. split; [done|]. by apply (fi_refs _ _ I).
  - pose proof (fi_range _ _ I f ltac:(lia)). lia.
Qed.

Lemma filedup_inv e k f : files_inv e k -> (0 < refs k f + e f)%nat ->
  exists k', filedup f k = Ret k' /\ files_inv (inc f e) k' /\ procs k' = procs k /\ fsys k' = fsys k.
Proof.
  intros I Hpos. destruct (in_use e k f I Hpos) as (x & Hx & Hr). unfold filedup. rewrite (getf_lookup _ _ _ Hx).
  rewrite (proj2 (Z.ltb_ge _ _)) by lia. eexists. split; [done|]. split; [|done].
  apply (files_inv_count e); [done|done| | |lia|lia].
  - intros g Hg. unfold inc. by rewrite decide_False.
  - unfold inc. rewrite decide_True by done. lia.
Qed.

(** ** Closing *)

(** Closing the only file of an end of a pipe. *)
Lemma close_pipe_inv e k f x w :
  files_inv (inc f e) k -> ftable k !! f = Some x -> fref x = 1 -> ty x = FD_PIPE -> writable x = w ->
  exists k', close_pipe (fpipe x) w (setf f {| x with fref := 0; ty := FD_NONE |} k) = Ret k' /\
    files_inv e k' /\ procs k' = procs k /\ fsys k' = fsys k.
Proof.
  intros I Hx Hr Hty Hw. pose proof (lookup_lt_Some _ _ _ Hx) as Hlt.
  destruct (fi_pipe _ _ I _ _ Hx Hty) as (Hrw & pi & Hpi & Ho). rewrite Hw in Ho.
  assert (refs k f = 0%nat /\ e f = 0%nat) as [Hr0 He0].
  { pose proof (fi_refs _ _ I _ _ Hx) as H. unfold inc in H. rewrite decide_True in H by done. lia. }
  set (y := {| x with fref := 0; ty := FD_NONE |}). unfold close_pipe. cbn [setf pipes]. rewrite Hpi.
  destruct (pipeclose w pi) as [[pi' c] freed] eqn:Hpc.
  assert (end_open w pi' = false /\ end_open (negb w) pi' = end_open (negb w) pi /\
          freed = negb (end_open (negb w) pi)) as (Hc1 & Hc2 & Hfr).
  { unfold pipeclose in Hpc. destruct w; simplify_eq/=; by rewrite ?andb_true_r. }
  set (m := if freed then delete (fpipe x) (pipes k) else <[fpipe x := pi']> (pipes k)).
  eexists. split; [reflexivity|]. split; [|done].
  assert (forall g z, ftable (setf f y k) !! g = Some z -> g = f /\ z = y \/ g <> f /\ ftable k !! g = Some z) as Hback.
  { intros g z. rewrite lookup_setf by done. destruct (decide (f = g)) as [->|]; [|by right].
    intros [= <-]. by left. }
  assert (forall pg v g, has_end (set_pipes m (setf f y k)) pg v g <-> has_end k pg v g /\ g <> f) as Hend.
  { intros pg v g. unfold has_end. cbn [set_pipes ftable].
    rewrite lookup_setf by done. destruct (decide (f = g)) as [->|Hne]; [|naive_solver].
    split; [|naive_solver]. intros (z & Hz & Hz' & _). simplify_eq/=. }
  assert (has_end k (fpipe x) w f) as Hfend by (by exists x).
  assert (forall g z, g <> f -> ftable k !! g = Some z -> ty z = FD_PIPE -> fpipe z = fpipe x ->
            writable z = negb w) as Hother.
  { intros g z Hne Hz Hzt Hzp. destruct (decide (writable z = w)) as [Hzw|]; [|by destruct (writable z), w].
    exfalso. apply Hne. eapply (fi_unique _ _ I g f (fpipe x) w); [by exists z|done]. }
  split.
  - apply I.
  - intros g z [[-> ->]|[Hne Hz]]%Hback; [simpl; change (refs (set_pipes m (setf f y k)) f) with (refs k f); lia|].
    pose proof (fi_refs _ _ I _ _ Hz) as H. unfold inc in H. by rewrite decide_False in H by done.
  - intros g Hg. cbn [set_pipes setf ftable] in Hg. rewrite length_insert in Hg.
    pose proof (fi_range _ _ I g Hg) as H. unfold inc in H. by rewrite decide_False in H by lia.
  - intros g z [[-> ->]|[Hne Hz]]%Hback; [done|]. by eapply (fi_free _ _ I).
  - intros g z [[-> ->]|[Hne Hz]]%Hback; [done|]. by eapply (fi_typed _ _ I).
  - intros g z [[-> ->]|[Hne Hz]]%Hback; [done|]. intros Hzt.
    destruct (fi_pipe _ _ I _ _ Hz Hzt) as (H1 & pi2 & H2 & H3). split; [done|]. cbn [set_pipes pipes].
    destruct (decide (fpipe z = fpipe x)) as [Hzp|Hzp].
    + pose proof (Hother g z Hne Hz Hzt Hzp) as Hzw. rewrite Hzp in H2.
      assert (pi2 = pi) as -> by congruence. rewrite Hzw in H3.
      unfold m. rewrite Hfr, H3. cbn [negb]. rewrite Hzp, lookup_insert_eq. exists pi'. split; [done|].
      by rewrite Hzw, Hc2.
    + exists pi2. split; [|done]. unfold m. destruct freed; [by rewrite lookup_delete_ne|by rewrite lookup_insert_ne].
  - intros g g' pg v. rewrite !Hend. intros [H1 _] [H2 _]. by eapply (fi_unique _ _ I).
  - intros pg pi2 v Hp Hv. cbn [set_pipes pipes] in Hp. destruct (decide (pg = fpipe x)) as [->|Hpg].
    + unfold m in Hp. destruct freed; [by rewrite lookup_delete_eq in Hp|]. rewrite lookup_insert_eq in Hp. injection Hp as <-.
      assert (v = negb w) as -> by (destruct (decide (v = w)) as [->|]; [congruence|by destruct v, w]).
      rewrite Hc2 in Hv. destruct (fi_ends _ _ I _ _ _ Hpi Hv) as [g Hg]. exists g. apply Hend. split; [done|].
      intros ->. destruct Hg as (z & Hz & _ & _ & Hzw). assert (z = x) as -> by congruence.
      rewrite Hw in Hzw. by destruct w.
    + assert (pipes k !! pg = Some pi2) as Hp'.
      { unfold m in Hp. destruct freed; [by rewrite lookup_delete_ne in Hp|by rewrite lookup_insert_ne in Hp]. }
      destruct (fi_ends _ _ I _ _ _ Hp' Hv) as [g Hg]. exists g. apply Hend. split; [done|].
      intros ->. destruct Hg as (z & Hz & _ & Hzp & _). congruence.
  - intros pg pi2 Hp. cbn [set_pipes pipes] in Hp. unfold m in Hp. destruct (decide (pg = fpipe x)) as [->|Hpg].
    + destruct freed; [by rewrite lookup_delete_eq in Hp|]. rewrite lookup_insert_eq in Hp. injection Hp as <-.
      assert (end_open (negb w) pi' = true) as Hoo by (rewrite Hc2; apply negb_false_iff; by rewrite <- Hfr).
      destruct w; simpl in Hoo; rewrite Hoo; [done|apply orb_true_r].
    + destruct freed; [rewrite lookup_delete_ne in Hp by done|rewrite lookup_insert_ne in Hp by done];
        by eapply (fi_alive _ _ I).
Qed.

(** [fileclose] gives back a reference; it can only fail where [iput] does. *)
Lemma fileclose_inv e k f : files_inv (inc f e) k ->
  match fileclose f k with
  | Ret k' => files_inv e k' /\ procs k' = procs k
  | _ => exists i, returns (iput i (fsys k)) = false
  end.
Proof.
  intros I. assert (0 < refs k f + inc f e f)%nat as Hpos by (unfold inc; rewrite decide_True by done; lia).
  destruct (in_use _ k f I Hpos) as (x & Hx & Hr). unfold fileclose. rewrite (getf_lookup _ _ _ Hx).
  assert (inc f e f = S (e f)) as Hinc by (unfold inc; by rewrite decide_True).
  assert (forall g, g <> f -> e g = inc f e g) as He by (intros g Hg; unfold inc; by rewrite decide_False).
  rewrite (proj2 (Z.ltb_ge _ _)) by lia. destruct (Z.ltb_spec 0 (fref x - 1)) as [H1|H1].
  { split; [|done]. replace (fref x - 1) with (fref x + -1) by lia.
    apply (files_inv_count (inc f e)); [done|done|done|lia|lia|lia]. }
  set (k1 := setf f {| x with fref := 0; ty := FD_NONE |} k).
  assert (ty x <> FD_PIPE -> files_inv e k1) as Hk1.
  { intros Hp. apply (files_inv_set (inc f e) e k f x); [done|done|done| |done|simpl; lia|done|done].
    simpl. lia. }
  destruct (ty x) eqn:Hty.
  - split; [by apply Hk1|done].
  - destruct (close_pipe_inv e k f x (writable x) I Hx) as (k' & Hk' & Hi & Hp & _); [lia|done|done|].
    fold k1 in Hk'. rewrite Hk'. done.
  - change (fsys k1) with (fsys k). destruct (iput (ip x) (fsys k)) eqn:Hi; [|by exists (ip x); rewrite Hi..].
    split; [apply files_inv_fsys, Hk1; congruence|done].
  - change (fsys k1) with (fsys k). destruct (iput (ip x) (fsys k)) eqn:Hi; [|by exists (ip x); rewrite Hi..].
    split; [apply files_inv_fsys, Hk1; congruence|done].
Qed.

Lemma fileclose_ret e k f k' : files_inv (inc f e) k -> fileclose f k = Ret k' ->
  files_inv e k' /\ procs k' = procs k.
Proof. intros I H. pose proof (fileclose_inv e k f I) as Hc. by rewrite H in Hc. Qed.

(** ** Descriptors *)

(** Only the descriptors change. *)
Lemma files_inv_procs e e' k k' :
  files_inv e k -> ftable k' = ftable k -> pipes k' = pipes k ->
  Forall (fun x => length (ofile x) = NOFILE) (procs k') ->
  (forall f, (refs k' f + e' f = refs k f + e f)%nat) ->
  (forall f, (0 < refs k' f)%nat -> refs k f = 0%nat -> exists x, ftable k !! f = Some x /\ ty x <> FD_NONE) ->
  files_inv e' k'.
Proof.
  intros I Hf Hp Hl Hr Hn.
  assert (forall pg w g, has_end k' pg w g <-> has_end k pg w g) as Hend by (intros; unfold has_end; by rewrite Hf).
  split.
  - done.
  - intros f x Hx. rewrite Hf in Hx. rewrite Hr. by apply (fi_refs _ _ I).
  - intros f Hlt. rewrite Hf in Hlt. rewrite Hr. by apply (fi_range _ _ I).
  - intros f x Hx. rewrite Hf in Hx. by eapply (fi_free _ _ I).
  - intros f x Hx Hty. rewrite Hf in Hx. destruct (decide (refs k' f = 0)%nat) as [|Hpos]; [done|].
    destruct (Hn f) as (y & Hy & Hny); [lia|by eapply (fi_typed _ _ I)|]. congruence.
  - intros f x Hx. rewrite Hf in Hx. rewrite Hp. by eapply (fi_pipe _ _ I).
  - intros f g pg w. rewrite !Hend. intros. by eapply (fi_unique _ _ I).
  - intros pg pi w. rewrite Hp. intros H1 H2. destruct (fi_ends _ _ I pg pi w H1 H2) as [f Hg]. exists f. by apply Hend.
  - intros pg pi. rewrite Hp. by eapply (fi_alive _ _ I).
Qed.

Lemma set_fd_procs p x fd v k : procs k !! p = Some x ->
  Forall (fun x => length (ofile x) = NOFILE) (procs k) ->
  Forall (fun x => length (ofile x) = NOFILE) (procs (set_fd p fd v k)).
Proof.
  intros Hp Hl. unfold set_fd, setp. rewrite (getp_lookup _ _ _ Hp). cbn [procs].
  apply Forall_insert; [done|]. cbn [ofile]. rewrite length_insert. by eapply Forall_lookup_1 in Hl.
Qed.

Lemma is_fd_eq f g : is_fd f (Some g) = bool_decide (g = f).
Proof. unfold is_fd. by rewrite (bool_decide_ext (Some g = Some f) (g = f)) by naive_solver. Qed.

(** A descriptor is taken away; its reference is the caller's then. *)
Lemma set_fd_none_inv e k p x fd f : files_inv e k -> procs k !! p = Some x -> ofile x !! fd = Some (Some f) ->
  files_inv (inc f e) (set_fd p fd None k).
Proof.
  intros I Hp Hfd. apply (files_inv_procs e _ k); [done|done|done| | |].
  - eapply set_fd_procs; [done|apply I].
  - intros g. pose proof (refs_set_fd k p x fd (Some f) None g Hp Hfd) as H. rewrite is_fd_eq in H.
    change (is_fd g None) with false in H. unfold inc. destruct (decide (f = g)).
    + rewrite bool_decide_true in H by done. simpl in H. lia.
    + rewrite bool_decide_false in H by done. simpl in H. lia.
  - intros g Hg H0. pose proof (refs_set_fd k p x fd (Some f) None g Hp Hfd) as H.
    change (is_fd g None) with false in H. simpl in H. lia.
Qed.

(** The caller's reference becomes a descriptor. *)
Lemma set_fd_some_inv e k p x fd f y : files_inv (inc f e) k -> procs k !! p = Some x -> ofile x !! fd = Some None ->
  ftable k !! f = Some y -> ty y <> FD_NONE -> files_inv e (set_fd p fd (Some f) k).
Proof.
  intros I Hp Hfd Hy Hty. assert (forall g, (refs (set_fd p fd (Some f) k) g + e g = refs k g + inc f e g)%nat) as Hr.
  { intros g. pose proof (refs_set_fd k p x fd None (Some f) g Hp Hfd) as H. rewrite is_fd_eq in H.
    change (is_fd g None) with false in H. unfold inc. destruct (decide (f = g)).
    - rewrite bool_decide_true in H by done. simpl in H. lia.
    - rewrite bool_decide_false in H by done. simpl in H. lia. }
  apply (files_inv_procs (inc f e) _ k); [done|done|done|by eapply set_fd_procs; [|apply I]|done|].
  intros g Hg H0. specialize (Hr g). unfold inc in Hr. destruct (decide (f = g)) as [->|]; [by exists y|lia].
Qed.

Lemma no_files_lookup i f : replicate NOFILE (None : option nat) !! i <> Some (Some f).
Proof. intros [[=] _]%lookup_replicate. Qed.

(** Only a process of the table has descriptors. *)
Lemma getp_fd k p fd f : ofile (getp k p) !! fd = Some (Some f) ->
  exists x, procs k !! p = Some x /\ ofile x !! fd = Some (Some f).
Proof.
  unfold getp. destruct (procs k !! p) as [x|]; [intros H; by exists x|]. by intros H%no_files_lookup.
Qed.

Lemma argfd_lookup p fd k f : argfd p fd k = Some f ->
  exists x, procs k !! p = Some x /\ ofile x !! Z.to_nat fd = Some (Some f).
Proof.
  unfold argfd. destruct ((fd <? 0) || _); [done|]. destruct (ofile (getp k p) !! Z.to_nat fd) as [v|] eqn:E; [|done].
  simpl. intros ->. by apply getp_fd.
Qed.

Lemma fdalloc_some p f k fd k' : (p < length (procs k))%nat -> fdalloc p f k = (Some fd, k') ->
  k' = set_fd p fd (Some f) k /\ exists x, procs k !! p = Some x /\ ofile x !! fd = Some None.
Proof.
  intros Hp. unfold fdalloc. destruct (find_idx _ _) as [i|] eqn:E; [|done]. intros [= -> <-]. split; [done|].
  apply find_idx_hit in E as (v & Hv & Hd). apply bool_decide_eq_true in Hd as ->.
  apply lookup_lt_is_Some_2 in Hp as [x Hx]. rewrite (getp_lookup _ _ _ Hx) in Hv. by exists x.
Qed.

Lemma fdalloc_none p f k k' : fdalloc p f k = (None, k') -> k' = k.
Proof. unfold fdalloc. destruct (find_idx _ _); [done|]. by intros [= <-]. Qed.

(** Descriptors and open files are separate parts of the state. *)
Lemma filedup_set_fd p fd v f k :
  filedup f (set_fd p fd v k) = (k' ← filedup f k; Ret (set_fd p fd v k')).
Proof. unfold filedup. change (getf (set_fd p fd v k) f) with (getf k f). by destruct (fref _ <? 1). Qed.

Lemma fileclose_set_fd p fd v f k :
  fileclose f (set_fd p fd v k) = (k' ← fileclose f k; Ret (set_fd p fd v k')).
Proof.
  unfold fileclose. change (getf (set_fd p fd v k) f) with (getf k f).
  destruct (fref _ <? 1); [done|]. destruct (0 <? _); [done|]. destruct (ty _); [done| |..].
  - unfold close_pipe. cbn [setf set_fd setp pipes]. destruct (pipes k !! _) as [pi|]; [|done].
    by destruct (pipeclose _ pi) as [[??][]].
  - cbn [setf set_fd setp fsys]. by destruct (iput _ _).
  - cbn [setf set_fd setp fsys]. by destruct (iput _ _).
Qed.

Lemma set_fd_setf p fd v f x k : setf f x (set_fd p fd v k) = set_fd p fd v (setf f x k).
Proof. done. Qed.

Lemma in_procs e k p fd f : files_inv e k -> argfd p fd k = Some f ->
  (0 < refs k f)%nat /\ exists x, ftable k !! f = Some x /\ ty x <> FD_NONE.
Proof.
  intros I (x & Hp & Hfd)%argfd_lookup. assert (0 < refs k f)%nat as Hpos.
  { pose proof (refs_set_fd k p x _ _ None f Hp Hfd) as H. rewrite is_fd_eq, bool_decide_true in H by done.
    simpl in H. lia. }
  split; [done|]. destruct (in_use e k f I ltac:(lia)) as (y & Hy & _). exists y. split; [done|].
  intros Hty. pose proof (fi_typed _ _ I _ _ Hy Hty). lia.
Qed.

(** ** dup and close *)

Lemma argfd_bound p fd k f : argfd p fd k = Some f -> (p < length (procs k))%nat.
Proof. intros (x & Hp & _)%argfd_lookup. by eapply lookup_lt_Some. Qed.

(** [dup] always returns. *)
Lemma sys_dup_inv e k p fd : files_inv e k ->
  exists r k', sys_dup p fd k = Ret (r, k') /\ files_inv e k'.
Proof.
  intros I. unfold sys_dup. destruct (argfd p fd k) as [f|] eqn:Ha; [|by do 2 eexists].
  destruct (in_procs _ _ _ _ _ I Ha) as (Hpos & y & Hy & Hty). pose proof (argfd_bound _ _ _ _ Ha) as Hb.
  destruct (fdalloc p f k) as [[n|] k1] eqn:Hd; [|apply fdalloc_none in Hd as ->; by do 2 eexists].
  destruct (fdalloc_some _ _ _ _ _ Hb Hd) as (-> & x & Hp & Hn).
  destruct (filedup_inv e k f I ltac:(lia)) as (k' & Hk & Hi & Hpr & _).
  rewrite filedup_set_fd, Hk. do 2 eexists. split; [reflexivity|].
  assert (exists z, ftable k' !! f = Some z /\ ty z <> FD_NONE) as (z & Hz & Hzt).
  { unfold filedup in Hk. rewrite (getf_lookup _ _ _ Hy) in Hk. destruct (fref y <? 1); [done|].
    injection Hk as <-. rewrite lookup_setf, decide_True by (done || by eapply lookup_lt_Some).
    by eexists. }
  apply (set_fd_some_inv e k' p x n f z); [done|by rewrite Hpr|done..].
Qed.

Lemma sys_close_inv e k p fd r k' : files_inv e k -> sys_close p fd k = Ret (r, k') -> files_inv e k'.
Proof.
  intros I. unfold sys_close. destruct (argfd p fd k) as [f|] eqn:Ha; [|by intros [= _ <-]].
  destruct (argfd_lookup _ _ _ _ Ha) as (x & Hp & Hfd). intros H. inv_ret H. injection H as _ <-.
  eapply fileclose_ret; [|done]. by eapply set_fd_none_inv.
Qed.

End FileFacts.
