(* ===== verification/FileRun.v ===== *)
(** * Open files: pipes, fork, exit, reading and writing, and the system as a
    step relation. *)
From S2P Require Import Prelude Mem Buf Fs Dir Pipe DirFacts File Sysfile FileFacts.

#[local] Open Scope Z_scope.

Module FileRun.
Import Fs Dir Pipe File Sysfile FileFacts.

(** ** pipe *)

(** Two files of type NONE become the ends of a new pipe. *)
Lemma make_pipe_inv e k f0 f1 x0 x1 pg junk :
  files_inv e k -> ftable k !! f0 = Some x0 -> ftable k !! f1 = Some x1 -> f0 <> f1 ->
  ty x0 = FD_NONE -> ty x1 = FD_NONE -> 0 < fref x0 -> 0 < fref x1 -> pipes k !! pg = None ->
  files_inv e
    (setf f1 {| x1 with ty := FD_PIPE; readable := false; writable := true; fpipe := pg |}
      (setf f0 {| x0 with ty := FD_PIPE; readable := true; writable := false; fpipe := pg |}
        (set_pipes (<[pg := pipe_init junk]> (pipes k)) k))).
Proof.
  intros I H0 H1 Hne Ht0 Ht1 Hr0 Hr1 Hpg.
  set (y0 := {| x0 with ty := FD_PIPE; readable := true; writable := false; fpipe := pg |}).
  set (y1 := {| x1 with ty := FD_PIPE; readable := false; writable := true; fpipe := pg |}).
  set (k' := setf f1 y1 (setf f0 y0 _)).
  pose proof (lookup_lt_Some _ _ _ H0) as Hl0. pose proof (lookup_lt_Some _ _ _ H1) as Hl1.
  assert (forall g, ftable k' !! g = if decide (f1 = g) then Some y1 else if decide (f0 = g) then Some y0 else ftable k !! g) as Hlk.
  { intros g. unfold k'. rewrite lookup_setf by (cbn [setf ftable set_pipes]; by rewrite length_insert).
    destruct (decide (f1 = g)); [done|]. by rewrite lookup_setf. }
  assert (forall g z, ftable k' !! g = Some z -> g = f1 /\ z = y1 \/ g = f0 /\ z = y0 \/ ftable k !! g = Some z) as Hback.
  { intros g z. rewrite Hlk. destruct (decide (f1 = g)); [intros; simplify_eq; by left|].
    destruct (decide (f0 = g)); [intros; simplify_eq; right; by left|]. intros; right; by right. }
  assert (forall g z, ftable k !! g = Some z -> ty z = FD_PIPE -> fpipe z <> pg) as Hold.
  { intros g z Hz Hty <-. destruct (fi_pipe _ _ I _ _ Hz Hty) as (_ & pi & Hpi & _). congruence. }
  assert (forall q w g, has_end k' q w g <-> q = pg /\ g = (if w then f1 else f0) \/ has_end k q w g) as Hend.
  { intros q w g. unfold has_end. rewrite Hlk. destruct (decide (f1 = g)) as [<-|Hg1]; [|destruct (decide (f0 = g)) as [<-|Hg0]].
    - split; [intros (z & [= <-] & _ & <- & <-); left; split; done|].
      intros [[-> Hg]|(z & Hz & Hzt & _)]; [|congruence]. exists y1. destruct w; [done|congruence].
    - split; [intros (z & [= <-] & _ & <- & <-); left; split; done|].
      intros [[-> Hg]|(z & Hz & Hzt & _)]; [|congruence]. exists y0. destruct w; [congruence|done].
    - split; [intros H; by right|]. intros [[-> ->]|H]; [|done]. by destruct w. }
  assert (forall g, refs k' g = refs k g) as Hrefs by done.
  split.
  - apply I.
  - intros g z [[-> ->]|[[-> ->]|Hz]]%Hback; rewrite Hrefs; [by apply (fi_refs _ _ I _ _ H1)|by apply (fi_refs _ _ I _ _ H0)|].
    by apply (fi_refs _ _ I).
  - intros g Hg. unfold k' in Hg. cbn [setf set_pipes ftable] in Hg. rewrite !length_insert in Hg.
    by apply (fi_range _ _ I).
  - intros g z [[-> ->]|[[-> ->]|Hz]]%Hback; [unfold y1; simpl; lia|unfold y0; simpl; lia|]. by eapply (fi_free _ _ I).
  - intros g z [[-> ->]|[[-> ->]|Hz]]%Hback; [done|done|]. by eapply (fi_typed _ _ I).
  - intros g z [[-> ->]|[[-> ->]|Hz]]%Hback Hty.
    + split; [done|]. exists (pipe_init junk). split; [apply lookup_insert_eq|done].
    + split; [done|]. exists (pipe_init junk). split; [apply lookup_insert_eq|done].
    + destruct (fi_pipe _ _ I _ _ Hz Hty) as (Hw & pi & Hpi & Ho). split; [done|]. exists pi. split; [|done].
      unfold k'. cbn [setf set_pipes pipes]. rewrite lookup_insert_ne; [done|]. intros Hq. by apply (Hold _ _ Hz Hty).
  - intros g g' q w. rewrite !Hend. intros [[-> ->]|Ha] [[Hq ->]|Hb]; [done| | |by eapply (fi_unique _ _ I)].
    + destruct Hb as (z & Hz & Hzt & Hzp & _). by destruct (Hold _ _ Hz Hzt).
    + subst q. destruct Ha as (z & Hz & Hzt & Hzp & _). by destruct (Hold _ _ Hz Hzt).
  - intros q pi w. unfold k'. cbn [setf set_pipes pipes]. intros Hp Ho.
    destruct (decide (q = pg)) as [->|Hq]; [eexists; apply Hend; left; done|].
    rewrite lookup_insert_ne in Hp by done. destruct (fi_ends _ _ I _ _ _ Hp Ho) as [g Hg].
    exists g. apply Hend. by right.
  - intros q pi. unfold k'. cbn [setf set_pipes pipes]. destruct (decide (q = pg)) as [->|Hq].
    + rewrite lookup_insert_eq. by intros [= <-].
    + rewrite lookup_insert_ne by done. by eapply (fi_alive _ _ I).
Qed.

Lemma filealloc_other k f k' g : filealloc k = (Some f, k') -> g <> f ->
  ftable k' !! g = ftable k !! g /\ procs k' = procs k /\ pipes k' = pipes k.
Proof.
  unfold filealloc. destruct (find_idx _ _) as [i|]; [|done]. intros [= -> <-] Hg.
  split; [by apply list_lookup_insert_ne|done].
Qed.

Lemma fileclose_other f k k' g : fileclose f k = Ret k' -> g <> f -> ftable k' !! g = ftable k !! g.
Proof.
  unfold fileclose, close_pipe. intros H Hg. destruct (fref _ <? 1); [done|].
  destruct (0 <? _); [injection H as <-; by apply list_lookup_insert_ne|].
  destruct (ty _); [injection H as <-| |inv_ret H; injection H as <-..]; try (by apply list_lookup_insert_ne).
  cbn [setf pipes] in H. destruct (pipes k !! _); [|done]. destruct (pipeclose _ _) as [[??]?].
  injection H as <-. by apply list_lookup_insert_ne.
Qed.

(** Only closing the last reference of an inode can fail. *)
Lemma fileclose_total e k f x : files_inv (inc f e) k -> ftable k !! f = Some x ->
  ty x = FD_NONE \/ ty x = FD_PIPE ->
  exists k', fileclose f k = Ret k' /\ files_inv e k' /\ procs k' = procs k.
Proof.
  intros I Hx Hty. assert (exists k', fileclose f k = Ret k') as [k' Hk'].
  { pose proof (fi_refs _ _ I _ _ Hx) as Hr. unfold inc in Hr. rewrite decide_True in Hr by done.
    unfold fileclose. rewrite (getf_lookup _ _ _ Hx). rewrite (proj2 (Z.ltb_ge _ _)) by lia.
    destruct (Z.ltb_spec 0 (fref x - 1)); [by eexists|]. destruct Hty as [Hty|Hty]; rewrite Hty; [by eexists|].
    destruct (close_pipe_inv e k f x (writable x) I Hx) as (k' & Hk' & _); [lia|done|done|]. by exists k'. }
  exists k'. split; [done|]. by apply (fileclose_ret e k f).
Qed.

(** [pipealloc] always returns; the page is not in use. *)
Lemma pipealloc_inv e k page : files_inv e k ->
  (forall pg junk, page = Some (pg, junk) -> pipes k !! pg = None) ->
  exists r k', pipealloc page k = Ret (r, k') /\ procs k' = procs k /\
    match r with
    | None => files_inv e k'
    | Some (f0, f1) => files_inv (inc f0 (inc f1 e)) k' /\ f0 <> f1 /\
        (exists x, ftable k' !! f0 = Some x /\ ty x = FD_PIPE) /\
        (exists x, ftable k' !! f1 = Some x /\ ty x = FD_PIPE)
    end.
Proof.
  intros I Hpg. unfold pipealloc. destruct (filealloc k) as [[f0|] k0] eqn:E0.
  2:{ unfold filealloc in E0. destruct (find_idx _ _); [done|]. injection E0 as <-. by exists None, k. }
  destruct (filealloc_inv e k f0 k0 I E0) as (I0 & x0 & H0 & Ht0 & _).
  assert (procs k0 = procs k /\ pipes k0 = pipes k) as [Hp0 Hq0] by (eapply (filealloc_other _ _ _ (S f0)); [done|lia]).
  destruct (filealloc k0) as [[f1|] k1] eqn:E1.
  2:{ unfold filealloc in E1. destruct (find_idx _ _); [done|]. injection E1 as <-.
      destruct (fileclose_total e k0 f0 x0 I0 H0) as (k' & -> & I' & Hp'); [by left|].
      exists None, k'. split; [done|]. by rewrite Hp'. }
  destruct (filealloc_inv _ k0 f1 k1 I0 E1) as (I1 & x1 & H1 & Ht1 & _ & He1).
  assert (f0 <> f1) as Hne by (intros ->; unfold inc in He1; by rewrite decide_True in He1).
  destruct (filealloc_other _ _ _ f0 E1 Hne) as (H0' & Hp1 & Hq1). rewrite H0 in H0'.
  assert (files_inv (inc f0 (inc f1 e)) k1) as I2.
  { eapply files_inv_ext; [|exact I1]. intros g. unfold inc. by destruct (decide (f0 = g)), (decide (f1 = g)). }
  destruct page as [[pg junk]|].
  - assert (pipes k1 !! pg = None) as Hfresh by (rewrite Hq1, Hq0; by eapply Hpg).
    assert (0 < fref x0 /\ 0 < fref x1) as [Hr0 Hr1].
    { rewrite (fi_refs _ _ I2 _ _ H0'), (fi_refs _ _ I2 _ _ H1). unfold inc.
      rewrite !(decide_True (P := f1 = f1)), (decide_True (P := f0 = f0)) by done. destruct (decide (f0 = f1)); lia. }
    pose proof (make_pipe_inv _ _ f0 f1 x0 x1 pg junk I2 H0' H1 Hne Ht0 Ht1 Hr0 Hr1 Hfresh) as I3.
    eexists (Some (f0, f1)), _. cbn zeta beta. split; [reflexivity|].
    set (y0 := getf (set_pipes _ k1) f0). assert (y0 = x0) as -> by (by apply getf_lookup).
    match goal with |- context [getf ?k f1] => set (y1 := getf k f1) end.
    assert (y1 = x1) as -> by (apply getf_lookup; cbn [setf ftable set_pipes]; by rewrite list_lookup_insert_ne).
    split; [by rewrite <- Hp0, <- Hp1|]. split; [exact I3|]. split; [done|].
    pose proof (lookup_lt_Some _ _ _ H0') as Hl0. pose proof (lookup_lt_Some _ _ _ H1) as Hl1.
    cbn [setf ftable set_pipes]. split.
    + rewrite list_lookup_insert_ne, list_lookup_insert_eq by done. by eexists.
    + rewrite list_lookup_insert_eq by (by rewrite length_insert). by eexists.
  - destruct (fileclose_total _ k1 f0 x0 I2 H0') as (k2 & Hk2 & I3 & Hp2); [by left|]. rewrite Hk2.
    destruct (fileclose_total _ k2 f1 x1 I3) as (k3 & Hk3 & I4 & Hp3);
      [by rewrite (fileclose_other _ _ _ _ Hk2 ltac:(done))|by left|].
    unfold close_opt. cbn. rewrite Hk3. exists None, k3. split; [done|]. by rewrite Hp3, Hp2, Hp1, Hp0.
Qed.

Lemma set_fd_lookup p fd v k x : procs k !! p = Some x ->
  procs (set_fd p fd v k) !! p = Some {| x with ofile := <[fd := v]> (ofile x) |}.
Proof.
  intros Hp. unfold set_fd, setp. rewrite (getp_lookup _ _ _ Hp). cbn [procs].
  apply list_lookup_insert_eq. by eapply lookup_lt_Some.
Qed.

Lemma set_fd_twice p fd u v k x : procs k !! p = Some x -> set_fd p fd v (set_fd p fd u k) = set_fd p fd v k.
Proof.
  intros Hp. pose proof (set_fd_lookup p fd u k x Hp) as Hp'. unfold set_fd at 1. rewrite (getp_lookup _ _ _ Hp').
  unfold set_fd, setp. rewrite (getp_lookup _ _ _ Hp). cbn [procs ofile cwd]. by rewrite !list_insert_insert_eq.
Qed.

Lemma set_fd_comm p fd fd' u v k x : procs k !! p = Some x -> fd <> fd' ->
  set_fd p fd v (set_fd p fd' u k) = set_fd p fd' u (set_fd p fd v k).
Proof.
  intros Hp Hne. pose proof (set_fd_lookup p fd' u k x Hp) as Hp1. pose proof (set_fd_lookup p fd v k x Hp) as Hp2.
  unfold set_fd at 1 3. rewrite (getp_lookup _ _ _ Hp1), (getp_lookup _ _ _ Hp2). unfold set_fd, setp.
  rewrite (getp_lookup _ _ _ Hp). cbn [procs ofile cwd]. rewrite !list_insert_insert_eq.
  by rewrite (list_insert_insert_ne (ofile x) fd fd').
Qed.

Lemma set_fd_id p fd v k x : procs k !! p = Some x -> ofile x !! fd = Some v -> set_fd p fd v k = k.
Proof.
  intros Hp Hfd. unfold set_fd, setp. rewrite (getp_lookup _ _ _ Hp), (list_insert_id _ _ _ Hfd).
  assert ({| x with ofile := ofile x |} = x) as -> by (by destruct x). rewrite (list_insert_id _ _ _ Hp). by destruct k.
Qed.

(** Both references the caller holds of a new pipe are given back. *)
Lemma close_both e k f g : files_inv (inc f (inc g e)) k -> f <> g ->
  (exists x, ftable k !! f = Some x /\ ty x = FD_PIPE) ->
  (exists x, ftable k !! g = Some x /\ ty x = FD_PIPE) ->
  exists k', (k1 ← fileclose f k; k2 ← fileclose g k1; Ret (-1, k2)) = Ret (-1, k') /\
    files_inv e k' /\ procs k' = procs k.
Proof.
  intros I Hne (x & Hx & Htx) (y & Hy & Hty).
  destruct (fileclose_total _ k f x I Hx) as (k1 & Hk1 & I1 & Hp1); [by right|]. rewrite Hk1.
  destruct (fileclose_total _ k1 g y I1) as (k2 & Hk2 & I2 & Hp2);
    [by rewrite (fileclose_other _ _ _ _ Hk1 ltac:(done))|by right|].
  cbn. rewrite Hk2. exists k2. by rewrite Hp2.
Qed.

(** [pipe] always returns, and a failing [pipe] leaves the descriptors alone. *)
Lemma sys_pipe_inv e k p page c0 c1 : files_inv e k -> (p < length (procs k))%nat ->
  (forall pg junk, page = Some (pg, junk) -> pipes k !! pg = None) ->
  exists r k', sys_pipe p page c0 c1 k = Ret (r, k') /\ files_inv e k' /\
    (r = -1 -> procs k' = procs k).
Proof.
  intros I Hlt Hpg. unfold sys_pipe.
  destruct (pipealloc_inv e k page I Hpg) as (r & k1 & -> & Hp1 & Hr). cbn [mbind outcome_bind].
  destruct r as [[rf wf]|]; [|by exists (-1), k1]. destruct Hr as (I1 & Hne & Hf0 & Hf1).
  rewrite <- Hp1 in Hlt. destruct (close_both e k1 rf wf I1 Hne Hf0 Hf1) as (kf & Hfail & If & Hpf).
  assert (exists r k', Ret (-1, kf) = Ret (r, k') /\ files_inv e k' /\ (r = -1 -> procs k' = procs k)) as Hbad.
  { exists (-1), kf. by rewrite Hpf. }
  destruct (fdalloc p rf k1) as [[fd0|] k2] eqn:E0; [|apply fdalloc_none in E0 as ->; by rewrite Hfail].
  destruct (fdalloc_some _ _ _ _ _ Hlt E0) as (-> & x & Hx & Hfd0).
  destruct Hf0 as (y0 & Hy0 & Ht0). destruct Hf1 as (y1 & Hy1 & Ht1).
  pose proof (set_fd_lookup p fd0 (Some rf) k1 x Hx) as Hx2.
  destruct (fdalloc p wf _) as [[fd1|] k3] eqn:E1.
  2:{ apply fdalloc_none in E1 as ->. by rewrite (set_fd_twice _ _ _ _ _ x), (set_fd_id _ _ _ _ x), Hfail. }
  destruct (fdalloc_some _ _ _ _ _ ltac:(by eapply lookup_lt_Some) E1) as (-> & x2 & Hx2' & Hfd1).
  assert (fd0 <> fd1) as Hfne.
  { intros <-. assert (x2 = {| x with ofile := <[fd0:=Some rf]> (ofile x) |}) as -> by congruence.
    cbn [ofile] in Hfd1. rewrite list_lookup_insert_eq in Hfd1; [done|by eapply lookup_lt_Some]. }
  destruct (c0 && c1).
  - eexists 0, _. split; [done|]. split; [|done]. eapply set_fd_some_inv; [|done..|congruence].
    eapply files_inv_ext; [|eapply (set_fd_some_inv (inc wf e)); [exact I1|done..|congruence]]. done.
  - rewrite (set_fd_comm _ fd0 fd1 _ _ _ _ Hx2 Hfne), (set_fd_twice _ _ _ _ _ _ Hx) by done.
    rewrite (set_fd_twice _ fd1 _ _ _ _ (set_fd_lookup _ _ _ _ _ Hx)).
    rewrite (set_fd_comm _ fd1 fd0 _ _ _ _ Hx) by done.
    rewrite (set_fd_id p fd1 None k1 x Hx), (set_fd_id p fd0 None k1 x Hx), Hfail; [done|done|].
    cbn [ofile] in Hfd1. assert (x2 = {| x with ofile := <[fd0:=Some rf]> (ofile x) |}) as -> by congruence.
    cbn [ofile] in Hfd1. by rewrite list_lookup_insert_ne in Hfd1.
Qed.

(** ** open *)

Lemma setf_inode_inv e k f x y : files_inv e k -> ftable k !! f = Some x -> ty x = FD_NONE -> 0 < fref x ->
  fref y = fref x -> ty y = FD_INODE \/ ty y = FD_DEVICE -> files_inv e (setf f y k).
Proof.
  intros I Hx Ht Hr Hry Hty. apply (files_inv_set e e k f x); [done|done|done| |lia| |by rewrite Ht|].
  - rewrite Hry. by apply (fi_refs _ _ I).
  - by destruct Hty as [-> | ->].
  - by destruct Hty as [-> | ->].
Qed.

Lemma open_fields_ty i om s x : ty (open_fields i om s x) = FD_INODE \/ ty (open_fields i om s x) = FD_DEVICE.
Proof. unfold open_fields. destruct (_ =? _); [by right|by left]. Qed.

Lemma open_fields_fref i om s x : fref (open_fields i om s x) = fref x.
Proof. unfold open_fields. by destruct (_ =? _). Qed.

Lemma cwd_bound k p d : cwd (getp k p) = Some d -> (p < length (procs k))%nat.
Proof. unfold getp. destruct (procs k !! p) eqn:E; [intros _; by eapply lookup_lt_Some|done]. Qed.

Lemma open_fd_inv e k p i r k' : files_inv e k -> (p < length (procs k))%nat -> open_fd p i k = Ret (r, k') ->
  match r with
  | None => files_inv e k' /\ procs k' = procs k
  | Some (f, fd) => forall y s, fref y = fref (getf k' f) -> ty y = FD_INODE \/ ty y = FD_DEVICE ->
      files_inv e (set_fsys s (setf f y k'))
  end.
Proof.
  intros I Hlt. unfold open_fd. destruct (filealloc k) as [[f|] k1] eqn:E.
  2:{ unfold filealloc in E. destruct (find_idx _ _); [done|]. injection E as <-.
      intros H. inv_ret H. injection H as <- <-. split; [by apply files_inv_fsys|done]. }
  destruct (filealloc_inv e k f k1 I E) as (I1 & x & Hx & Ht & Hr0 & _).
  destruct (filealloc_other _ _ _ (S f) E ltac:(lia)) as (_ & Hp1 & _). rewrite <- Hp1 in Hlt.
  destruct (fdalloc p f k1) as [[fd|] k2] eqn:Ef.
  - intros [= <- <-]. intros y s Hy Hty. destruct (fdalloc_some _ _ _ _ _ Hlt Ef) as (-> & z & Hz & Hfd).
    change (getf (set_fd p fd (Some f) k1) f) with (getf k1 f) in Hy. rewrite (getf_lookup _ _ _ Hx) in Hy.
    rewrite set_fd_setf. apply files_inv_fsys. eapply (set_fd_some_inv e (setf f y k1) p z fd f y).
    + apply (setf_inode_inv _ k1 f x); [done|done|done| |done|done].
      rewrite (fi_refs _ _ I1 _ _ Hx). unfold inc. rewrite decide_True by done. lia.
    + done.
    + done.
    + by rewrite lookup_setf, decide_True by (done || by eapply lookup_lt_Some).
    + by destruct Hty as [-> | ->].
  - apply fdalloc_none in Ef as ->. destruct (fileclose_total e k1 f x I1 Hx) as (k3 & -> & I3 & Hp3); [by left|].
    cbn [mbind outcome_bind]. intros H. inv_ret H. injection H as <- <-. split; [by apply files_inv_fsys|].
    by rewrite <- Hp1, <- Hp3.
Qed.

Lemma sys_open_inv e k p path om junk r k' : files_inv e k -> sys_open p path om junk k = Ret (r, k') -> files_inv e k'.
Proof.
  intros I. unfold sys_open. destruct path as [path|]; [|by intros [= _ <-]].
  destruct (cwd (getp k p)) as [d|] eqn:Hd; [|by intros [= _ <-]]. apply cwd_bound in Hd. intros H. inv_ret H.
  destruct r0 as [i s]. destruct i as [i|]; [|injection H as _ <-; by apply files_inv_fsys].
  inv_ret H. destruct r0 as [r0 k1].
  pose proof (open_fd_inv e (set_fsys s k) p i r0 k1 (files_inv_fsys _ _ _ I) Hd Hcall0) as Ho.
  destruct r0 as [[f fd]|]; [|injection H as _ <-; apply Ho]. inv_ret H. injection H as _ <-.
  apply Ho; [apply open_fields_fref|apply open_fields_ty].
Qed.

(** ** fork, exit, chdir *)

Lemma fork_files_inv l e k : files_inv e k -> (forall g, Some g ∈ l -> (0 < refs k g)%nat) ->
  exists k', fork_files l k = Ret k' /\ files_inv (fun g => e g + countb (is_fd g) l)%nat k' /\
    procs k' = procs k /\ fsys k' = fsys k /\
    (forall g y, ftable k !! g = Some y -> exists y', ftable k' !! g = Some y' /\ ty y' = ty y).
Proof.
  revert e k. induction l as [|[f|] l IH]; intros e k I Hl; cbn [fork_files].
  - exists k. split_and!; [done| |done|done|intros g y Hy; by exists y].
    eapply files_inv_ext; [|exact I]. intros g. rewrite countb_nil. lia.
  - pose proof (Hl f ltac:(left)) as Hf.
    destruct (filedup_inv e k f I ltac:(lia)) as (k1 & Hk1 & I1 & Hp1 & Hs1). rewrite Hk1. cbn [mbind outcome_bind].
    assert (forall g, refs k1 g = refs k g) as Hrefs by (intros; unfold refs; by rewrite Hp1).
    destruct (IH (inc f e) k1 I1) as (k2 & -> & I2 & Hp2 & Hs2 & Ht2); [intros g Hg; rewrite Hrefs; apply Hl; by right|].
    exists k2. split_and!; [done| |by rewrite Hp2|by rewrite Hs2|].
    + eapply files_inv_ext; [|exact I2]. intros g. rewrite countb_cons, is_fd_eq. unfold inc.
      destruct (decide (f = g)); [rewrite bool_decide_true by done|rewrite bool_decide_false by done]; simpl; lia.
    + intros g y Hy. unfold filedup in Hk1. destruct (fref _ <? 1); [done|]. injection Hk1 as <-.
      destruct (in_use e k f I ltac:(lia)) as (z & Hz & _). rewrite (getf_lookup _ _ _ Hz) in *.
      destruct (decide (f = g)) as [->|Hne].
      * assert (z = y) as -> by congruence. apply (Ht2 g {| y with fref := fref y + 1 |}).
        by rewrite lookup_setf, decide_True by (done || by eapply lookup_lt_Some).
      * apply (Ht2 g). rewrite lookup_setf by (by eapply lookup_lt_Some). by rewrite decide_False.
  - destruct (IH e k I) as (k2 & -> & I2 & Hp2 & Hs2 & Ht2); [intros g Hg; apply Hl; by right|].
    exists k2. split_and!; [done| |done..]. eapply files_inv_ext; [|exact I2]. intros g. by rewrite countb_cons.
Qed.

Lemma refs_pos k p x f : procs k !! p = Some x -> Some f ∈ ofile x -> (0 < refs k f)%nat.
Proof.
  intros Hp [fd Hfd]%list_elem_of_lookup. pose proof (refs_set_fd k p x _ _ None f Hp Hfd) as H.
  rewrite is_fd_eq, bool_decide_true in H by done. simpl in H. lia.
Qed.

(** [fork] of the open files always returns when the parent has a directory. *)
Lemma fork_open_inv e k p c d : files_inv e k -> cwd (getp k p) = Some d ->
  (c < length (procs k))%nat -> ofile (getp k c) = replicate NOFILE None ->
  exists k', fork_open p c k = Ret k' /\ files_inv e k' /\ getp k' c = getp k p.
Proof.
  intros I Hd Hc Hfree. pose proof (cwd_bound _ _ _ Hd) as Hp. apply lookup_lt_is_Some_2 in Hp as [x Hx].
  apply lookup_lt_is_Some_2 in Hc as [z Hz]. rewrite (getp_lookup _ _ _ Hz) in Hfree.
  unfold fork_open. rewrite (getp_lookup _ _ _ Hx) in Hd |- *.
  destruct (fork_files_inv (ofile x) e k I) as (k1 & -> & I1 & Hp1 & Hs1 & Ht1); [intros g; by eapply refs_pos|].
  cbn [mbind outcome_bind]. rewrite Hd. destruct (idup d (fsys k1)) as [q s]. eexists. split; [done|].
  assert (forall f, (refs (setp c x (set_fsys s k1)) f = refs k1 f + countb (is_fd f) (ofile x))%nat) as Hr.
  { intros f. pose proof (refs_setp (set_fsys s k1) c z x f ltac:(cbn; by rewrite Hp1)) as H.
    rewrite Hfree, (countb_zero _ (replicate _ _)) in H.
    - change (refs (set_fsys s k1) f) with (refs k1 f) in H. lia.
    - intros i v [-> _]%lookup_replicate. done. }
  split.
  - apply (files_inv_procs (fun g => e g + countb (is_fd g) (ofile x))%nat e k1); [done|done|done| | |].
    + apply Forall_insert; [apply I1|]. pose proof (fi_procs _ _ I) as HF. by eapply Forall_lookup_1 in HF.
    + intros f. rewrite Hr. lia.
    + intros f Hpos H0. rewrite Hr, H0 in Hpos. assert (0 < refs k f)%nat as Hpk.
      { destruct (decide (refs k f = 0)%nat) as [E|]; [|lia]. exfalso. 
        rewrite (countb_zero _ (ofile x)) in Hpos; [lia|]. intros i v Hv. destruct (is_fd f v) eqn:Ev; [|done].
        apply bool_decide_eq_true in Ev as ->. pose proof (refs_pos k p x f Hx ltac:(by eapply list_elem_of_lookup_2)). lia. }
      unfold refs in Hpk, H0. rewrite Hp1 in H0. lia.
  - unfold getp at 1, setp. cbn [procs set_fsys]. rewrite list_lookup_insert_eq; [done|]. rewrite Hp1.
    by eapply lookup_lt_Some.
Qed.

Lemma exit_files_inv n e p fd k k' : files_inv e k -> exit_files n p fd k = Ret k' ->
  files_inv e k' /\ length (procs k') = length (procs k) /\ cwd (getp k' p) = cwd (getp k p) /\
  (forall q, q <> p -> getp k' q = getp k q) /\
  (forall i, (i < fd)%nat \/ (fd + n <= i)%nat -> ofile (getp k' p) !! i = ofile (getp k p) !! i) /\
  (forall i v, (fd <= i < fd + n)%nat -> ofile (getp k' p) !! i = Some v -> v = None).
Proof.
  revert fd k. induction n as [|n IH]; intros fd k I; cbn [exit_files].
  { intros [= <-]. split_and!; [done..|lia]. }
  destruct (default None (ofile (getp k p) !! fd)) as [f|] eqn:Hf.
  2:{ intros H. destruct (IH _ _ I H) as (I' & Hl & Hc & Hq & Ho & Hz). split_and!; [done|done|done|done| |].
      - intros i Hi. apply Ho. lia.
      - intros i v Hi Hv. destruct (decide (i = fd)) as [->|]; [|apply (Hz i); [lia|done]].
        rewrite Ho in Hv by lia. rewrite Hv in Hf. done. }
  intros H. inv_ret H. rename r into k1.
  destruct (ofile (getp k p) !! fd) as [v|] eqn:Hv; [|done]. simpl in Hf. subst v.
  destruct (getp_fd _ _ _ _ Hv) as (x & Hx & _).
  rewrite (getp_lookup _ _ _ Hx) in Hv |- *.
  destruct (fileclose_ret e (set_fd p fd None k) f (set_fd p fd None k1)) as [I1 Hp1].
  { by apply (set_fd_none_inv e k p x fd f). }
  { by rewrite fileclose_set_fd, Hcall. }
  assert (procs (set_fd p fd None k1) !! p = Some {| x with ofile := <[fd:=None]> (ofile x) |}) as Hx1.
  { rewrite Hp1. by apply set_fd_lookup. }
  destruct (IH _ _ I1 H) as (I' & Hl & Hc & Hq & Ho & Hz). rewrite (getp_lookup _ _ _ Hx1) in Hc, Ho.
  cbn [ofile cwd] in Hc, Ho. split_and!; [done| |done| | |].
  - rewrite Hl, Hp1. unfold set_fd, setp. cbn [procs]. apply length_insert.
  - intros q Hne. rewrite Hq by done. unfold getp. rewrite Hp1. unfold set_fd, setp. cbn [procs].
    by rewrite list_lookup_insert_ne.
  - intros i Hi. rewrite Ho by lia. by rewrite list_lookup_insert_ne by lia.
  - intros i v Hi Hvi. destruct (decide (i = fd)) as [->|]; [|apply (Hz i); [lia|done]].
    rewrite Ho in Hvi by lia. rewrite list_lookup_insert_eq in Hvi by (by eapply lookup_lt_Some). congruence.
Qed.

(** The current directory does not count. *)
Lemma set_cwd_inv e k p d : files_inv e k ->
  let x := getp k p in files_inv e (setp p {| x with cwd := d |} k).
Proof.
  intros I. cbn zeta. destruct (procs k !! p) as [x|] eqn:Hx.
  2:{ unfold setp. rewrite list_insert_ge by (by apply lookup_ge_None_1). by destruct k. }
  rewrite (getp_lookup _ _ _ Hx).
  assert (forall f, refs (setp p {| x with cwd := d |} k) f = refs k f) as Hr.
  { intros f. pose proof (refs_setp k p x {| x with cwd := d |} f Hx) as H. cbn [ofile] in H. lia. }
  apply (files_inv_procs e e k); [done|done|done| |intros f; by rewrite Hr|intros f; rewrite Hr; lia].
  apply Forall_insert; [apply I|]. pose proof (fi_procs _ _ I) as HF. exact (Forall_lookup_1 _ _ _ _ HF Hx).
Qed.

(** An exited process has no descriptor left. *)
Lemma exit_open_inv e k p k' : files_inv e k -> exit_open p k = Ret k' ->
  files_inv e k' /\ getp k' p = no_files.
Proof.
  intros I. unfold exit_open. intros H. inv_ret H. rename r into k1.
  destruct (exit_files_inv _ _ _ _ _ _ I Hcall) as (I1 & Hl & Hc & _ & _ & Hz).
  destruct (cwd (getp k1 p)) as [d|] eqn:Hd; [|done]. inv_ret H. injection H as <-.
  pose proof (cwd_bound _ _ _ Hd) as Hp. apply lookup_lt_is_Some_2 in Hp as [x Hx].
  split; [apply (set_cwd_inv e (set_fsys r k1) p), files_inv_fsys, I1|].
  unfold getp at 1, setp. cbn [procs set_fsys]. rewrite list_lookup_insert_eq by (by eapply lookup_lt_Some).
  change (getp (set_fsys r k1) p) with (getp k1 p). rewrite (getp_lookup _ _ _ Hx) in Hz |- *. simpl.
  unfold no_files. f_equal. pose proof (Forall_lookup_1 _ _ _ _ (fi_procs _ _ I1) Hx) as Hlen. cbn beta in Hlen.
  apply list_eq. intros i. destruct (ofile x !! i) as [v|] eqn:Hv.
  - pose proof (lookup_lt_Some _ _ _ Hv) as Hi. rewrite Hlen in Hi. rewrite (Hz i v (conj (Nat.le_0_l i) Hi) Hv).
    symmetry. by apply lookup_replicate.
  - apply lookup_ge_None_1 in Hv. rewrite Hlen in Hv. symmetry. apply lookup_ge_None_2. by rewrite length_replicate.
Qed.

Lemma sys_chdir_inv e k p path junk r k' : files_inv e k -> sys_chdir p path junk k = Ret (r, k') -> files_inv e k'.
Proof.
  intros I. unfold sys_chdir. destruct path as [path|]; [|by intros [= _ <-]].
  destruct (cwd (getp k p)) as [d|]; [|by intros [= _ <-]]. intros H. inv_ret H. destruct r0 as [[i|] s].
  2:{ injection H as _ <-. by apply files_inv_fsys. }
  inv_ret H. destruct (negb _); inv_ret H; injection H as _ <-; [by apply files_inv_fsys|].
  apply (set_cwd_inv e (set_fsys r2 k) p). by apply files_inv_fsys.
Qed.

(** ** read and write *)

Lemma files_inv_pipe e k pg pi pi' : files_inv e k -> pipes k !! pg = Some pi ->
  (forall w, end_open w pi' = end_open w pi) -> files_inv e (set_pipes (<[pg := pi']> (pipes k)) k).
Proof.
  intros I Hpg Hw. split; [apply I..| |apply I| |]; cbn [set_pipes pipes ftable].
  - intros f x Hx Ht. destruct (fi_pipe _ _ I _ _ Hx Ht) as (Hr & pj & Hj & Ho). split; [done|].
    destruct (decide (fpipe x = pg)) as [Hq|].
    + exists pi'. rewrite Hq, lookup_insert_eq, Hw. rewrite Hq in Hj. by assert (pj = pi) as <- by congruence.
    + exists pj. by rewrite lookup_insert_ne.
  - intros q pj w. destruct (decide (q = pg)) as [->|].
    + rewrite lookup_insert_eq. intros [= <-]. rewrite Hw. by apply (fi_ends _ _ I).
    + rewrite lookup_insert_ne by done. by apply (fi_ends _ _ I).
  - intros q pj. destruct (decide (q = pg)) as [->|].
    + rewrite lookup_insert_eq. intros [= <-]. pose proof (fi_alive _ _ I _ _ Hpg) as Ha.
      pose proof (Hw true) as H1. pose proof (Hw false) as H2. simpl in H1, H2. by rewrite H1, H2.
    + rewrite lookup_insert_ne by done. by apply (fi_alive _ _ I).
Qed.

Lemma write_loop_ends fuel killed src n i pi e pi' w :
  write_loop fuel killed src n i pi = (e, pi') -> end_open w pi' = end_open w pi.
Proof.
  revert i pi. induction fuel as [|fuel IH]; intros i pi; simpl; (destruct (i <? n); [|by intros [= _ <-]]);
    (destruct (_ || _); [by intros [= _ <-]|]); (destruct (full pi); [by intros [= _ <-]|]); [by intros [= _ <-]|].
  destruct (src i); [|by intros [= _ <-]]. intros H. rewrite (IH _ _ H). by destruct w.
Qed.

Lemma read_loop_ends fuel dst n i pi r out pi' w :
  read_loop fuel dst n i pi = (r, out, pi') -> end_open w pi' = end_open w pi.
Proof.
  revert i pi r out. induction fuel as [|fuel IH]; intros i pi r out; simpl; (destruct (i <? n); [|by intros [= _ _ <-]]);
    (destruct (empty pi); [by intros [= _ _ <-]|]); [by intros [= _ _ <-]|].
  destruct (dst i _); [|intros [= _ _ <-]; by destruct w].
  destruct (read_loop fuel _ _ _ _) as [[r1 o1] pi1] eqn:E. intros [= _ _ <-]. rewrite (IH _ _ _ _ E). by destruct w.
Qed.

Lemma off_inv e k f x o : files_inv e k -> ftable k !! f = Some x -> files_inv e (setf f {| x with off := o |} k).
Proof. intros I Hx. by apply (files_inv_setf e k f x). Qed.

Lemma getf_off_inv e k f o : files_inv e k ->
  let x := getf k f in files_inv e (setf f {| x with off := o |} k).
Proof.
  intros I. cbn zeta. destruct (ftable k !! f) as [x|] eqn:Hx.
  - rewrite (getf_lookup _ _ _ Hx). by apply off_inv.
  - unfold setf. rewrite list_insert_ge by (by apply lookup_ge_None_1). by destruct k.
Qed.

Lemma fileread_inv e k dv killed cp f n r k' : files_inv e k ->
  fileread dv killed cp f n k = Ret (r, k') -> files_inv e k'.
Proof.
  intros I. unfold fileread. destruct (negb _); [by intros [= _ <-]|]. destruct (ty _) eqn:Ht; [done| | |].
  - destruct (pipes k !! _) as [pi|] eqn:Hp; [|done].
    destruct (piperead_run killed _ n pi) as [[[| |i] out] pi'] eqn:E; [by intros [= _ <-]|done|].
    intros [= _ <-]. apply (files_inv_pipe e k _ pi); [done|done|]. intros w. unfold piperead_run in E.
    destruct (_ && _); [by destruct killed|]. destruct (read_loop _ _ _ _ _) as [[??]?] eqn:E2.
    injection E as _ _ <-. by eapply read_loop_ends.
  - intros H. inv_ret H. destruct r1 as [[m out] s]. cbn zeta in H. inv_ret H. injection H as _ <-.
    apply files_inv_fsys. destruct (0 <? _); [|done]. rewrite <- Ht. by apply getf_off_inv.
  - destruct (bad_major _); [by intros [= _ <-]|]. destruct (dev_read _ _) as [g|]; [|by intros [= _ <-]].
    destruct (g cp n). by intros [= _ <-].
Qed.

Lemma write_chunks_inv cp fuel e f i src k r k' : files_inv e k ->
  write_chunks cp fuel f i src k = Ret (r, k') -> files_inv e k'.
Proof.
  revert i src k. induction fuel as [|fuel IH]; intros i src k I; destruct src as [|b src]; cbn [write_chunks];
    [by intros [= _ <-]|done|by intros [= _ <-]|].
  intros H. inv_ret H. destruct r1 as [t s]. cbn zeta in H. inv_ret H.
  assert (forall k1 : sys, k1 = (if 0 <? t then setf f (let x := getf k f in {| x with off := u32 (off x + t) |}) k else k) ->
    files_inv e (set_fsys r1 k1)) as Hi.
  { intros k1 ->. apply files_inv_fsys. destruct (0 <? t); [|done]. by apply getf_off_inv. }
  specialize (Hi _ eq_refl). cbn zeta in Hi. destruct (negb _); [by injection H as _ <-|by eapply IH].
Qed.

Lemma filewrite_inv e k dv killed cp f src r k' : files_inv e k ->
  filewrite dv killed cp f src k = Ret (r, k') -> files_inv e k'.
Proof.
  intros I. unfold filewrite. destruct (negb _); [by intros [= _ <-]|]. destruct (ty _) eqn:Ht; [done| | |].
  - destruct (pipes k !! _) as [pi|] eqn:Hp; [|done].
    destruct (pipewrite_run _ _ _ _ pi) as [[j|j|j] pi'] eqn:E; [|done|];
      intros [= _ <-]; (apply (files_inv_pipe e k _ pi); [done|done|]); intros w; by eapply write_loop_ends.
  - intros H. inv_ret H. destruct r0 as [all k1]. injection H as _ <-. by eapply write_chunks_inv.
  - destruct (bad_major _); [by intros [= _ <-]|]. destruct (dev_write _ _); by intros [= _ <-].
Qed.

Lemma filestat_inv e k ok f r k' : files_inv e k -> filestat ok f k = Ret (r, k') -> files_inv e k'.
Proof.
  intros I. unfold filestat. destruct (ty _); [by intros [= _ <-]|by intros [= _ <-]| |];
    intros H; inv_ret H; injection H as _ <-; by apply files_inv_fsys.
Qed.

(** ** The system *)

Definition none : nat -> nat := fun _ => 0%nat.

Lemma refs_no_fd k f : (forall p x i v, procs k !! p = Some x -> ofile x !! i = Some v -> v = None) -> refs k f = 0%nat.
Proof.
  intros H. apply countb_zero. intros i v Hi. apply list_elem_of_lookup_2 in Hi.
  apply list_elem_of_In, in_concat in Hi as (l & Hl & Hv).
  apply list_elem_of_In in Hl, Hv. apply list_elem_of_fmap in Hl as (x & -> & [p Hp]%list_elem_of_lookup).
  apply list_elem_of_lookup in Hv as [j Hj]. by rewrite (H p x j v Hp Hj).
Qed.

Lemma no_files_empty i v : ofile no_files !! i = Some v -> v = None.
Proof. by intros [-> _]%lookup_replicate. Qed.

Lemma boot_inv n root s : files_inv none (boot n root s).
Proof.
  assert (forall f, refs (boot n root s) f = 0%nat) as Hr.
  { intros f. apply refs_no_fd. intros p x i v Hp Hi. destruct p as [|p]; cbn [boot procs] in Hp.
    - injection Hp as <-. exact (no_files_empty i v Hi).
    - apply lookup_replicate in Hp as [-> _]. exact (no_files_empty i v Hi). }
  assert (forall f x, ftable (boot n root s) !! f = Some x -> x = zero_file) as Hz.
  { intros f x [-> _]%lookup_replicate. done. }
  split.
  - constructor; [done|]. by apply Forall_replicate.
  - intros f x ->%Hz. by rewrite Hr.
  - intros f _. by rewrite Hr.
  - by intros f x ->%Hz.
  - intros f x _ _. apply Hr.
  - by intros f x ->%Hz.
  - intros f g pg w (x & ->%Hz & ? & _). done.
  - done.
  - done.
Qed.

Lemma fstep_inv dv k k' : files_inv none k -> fstep dv k k' -> files_inv none k'.
Proof.
  intros I H. destruct H as [| | |p page c0 c1 r k k' Hp Hpg H|ki cp p fd n r k k' H|ki cp p fd src r k k' H|ok p fd r k k' H| |p c k k' Hc Hf H|p k k' H|].
  - by eapply sys_open_inv.
  - destruct (sys_dup_inv none k p fd I) as (r' & k2 & H2 & I2). congruence.
  - by eapply sys_close_inv.
  - destruct (sys_pipe_inv none k p page c0 c1 I Hp Hpg) as (r' & k2 & H2 & I2 & _). congruence.
  - unfold sys_read in H. destruct (argfd p fd k); [|by injection H as _ <-]. inv_ret H.
    destruct r0 as [[m out] k1]. injection H as _ <-. pose proof (fileread_inv _ _ _ _ _ _ _ _ _ I Hcall) as I1.
    destruct (0 <? m); [by apply files_inv_count_reads|done].
  - unfold sys_write in H. destruct (argfd p fd k); [by eapply filewrite_inv|by injection H as _ <-].
  - unfold sys_fstat in H. destruct (argfd p fd k); [by eapply filestat_inv|by injection H as _ <-].
  - by eapply sys_chdir_inv.
  - destruct (cwd (getp k p)) as [d|] eqn:Hd.
    + destruct (fork_open_inv none k p c d I Hd Hc Hf) as (k2 & H2 & I2 & _). congruence.
    + unfold fork_open in H. inv_ret H. by rewrite Hd in H.
  - by apply (exit_open_inv none k p).
  - by apply files_inv_fsys.
Qed.

Lemma files_reachable_inv dv n root s k : rtc (fstep dv) (boot n root s) k -> files_inv none k.
Proof.
  intros H. pose proof (boot_inv n root s) as I. induction H as [k|k k1 k2 H _ IH]; [done|].
  by apply IH, (fstep_inv dv k).
Qed.

(** A counted descriptor exists. *)
Lemma refs_descriptor k f : files_inv none k -> (0 < refs k f)%nat -> exists p fd, argfd p fd k = Some f.
Proof.
  intros I Hpos. destruct (countb_pos_inv _ _ Hpos) as (i & v & Hi & Hv). apply bool_decide_eq_true in Hv as ->.
  apply list_elem_of_lookup_2, list_elem_of_In, in_concat in Hi as (l & Hx & Hl).
  apply list_elem_of_In in Hl, Hx.
  apply list_elem_of_fmap in Hx as (x & -> & [p Hp]%list_elem_of_lookup). apply list_elem_of_lookup in Hl as [fd Hfd].
  exists p, (Z.of_nat fd). unfold argfd. pose proof (Forall_lookup_1 _ _ _ _ (fi_procs _ _ I) Hp) as Hlen. cbn beta in Hlen.
  pose proof (lookup_lt_Some _ _ _ Hfd) as Hlt. rewrite Hlen in Hlt. unfold NOFILE in Hlt |- *.
  rewrite (proj2 (Z.ltb_ge _ _)), (proj2 (Z.leb_gt _ _)) by lia. simpl.
  by rewrite (getp_lookup _ _ _ Hp), Nat2Z.id, Hfd.
Qed.

(** (C26) In every reachable state of the file system calls, whatever processes
    open, duplicate, close, fork and exit, the reference count of each open file
    is the number of descriptors that refer to it; a descriptor always refers to
    a file with a type and a positive count; an end of a pipe is open exactly
    while some process has a descriptor for it; and a pipe's page is allocated
    exactly while one of its ends is open, so no file refers to a freed pipe. *)
Theorem files_refs_counted (dv : devsw) (n root : nat) (s : fs) (k : sys) :
  rtc (fstep dv) (boot n root s) k ->
  (forall f x, ftable k !! f = Some x -> fref x = Z.of_nat (refs k f)) /\
  (forall p fd f, argfd p fd k = Some f ->
     exists x, ftable k !! f = Some x /\ 0 < fref x /\ ty x <> FD_NONE) /\
  (forall pg pi w, pipes k !! pg = Some pi ->
     (end_open w pi = true <-> exists p fd f, argfd p fd k = Some f /\ has_end k pg w f)) /\
  (forall pg, is_Some (pipes k !! pg) <-> exists w f, has_end k pg w f).
Proof.
  intros I%files_reachable_inv. split_and!.
  - intros f x Hx. rewrite (fi_refs _ _ I _ _ Hx). unfold none. lia.
  - intros p fd f Hf. destruct (in_procs _ _ _ _ _ I Hf) as (Hpos & x & Hx & Hty). exists x.
    rewrite (fi_refs _ _ I _ _ Hx). split_and!; [done|lia|done].
  - intros pg pi w Hpg. split.
    + intros Ho. destruct (fi_ends _ _ I _ _ _ Hpg Ho) as (f & He). pose proof He as (x & Hx & Hty & _).
      destruct (refs_descriptor k f I) as (p & fd & Hf); [|by exists p, fd, f].
      pose proof (fi_refs _ _ I _ _ Hx) as Hr. unfold none in Hr.
      destruct (decide (refs k f = 0%nat)) as [E|]; [|lia]. rewrite (fi_free _ _ I _ _ Hx) in Hty by lia. done.
    + intros (p & fd & f & _ & x & Hx & Hty & <- & <-). destruct (fi_pipe _ _ I _ _ Hx Hty) as (_ & pj & Hj & Ho). congruence.
  - intros pg. split.
    + intros [pi Hpi]. pose proof (fi_alive _ _ I _ _ Hpi) as Ho. apply orb_true_iff in Ho as [Ho|Ho].
      * exists false. by apply (fi_ends _ _ I pg pi false).
      * exists true. by apply (fi_ends _ _ I pg pi true).
    + intros (w & f & x & Hx & Hty & <- & _). destruct (fi_pipe _ _ I _ _ Hx Hty) as (_ & pj & Hj & _). by exists pj.
Qed.

(** No call on descriptors can panic in the table of open files: dup, pipe
    and fork always return; a failing pipe leaves every descriptor as it was; close and
    exit fail only where the release of an inode does; and a process that has
    exited has no descriptor left. *)
Theorem file_calls_return (dv : devsw) (n root : nat) (s : fs) (k : sys) :
  rtc (fstep dv) (boot n root s) k ->
  (forall p fd, exists r k', sys_dup p fd k = Ret (r, k')) /\
  (forall p page c0 c1, (p < length (procs k))%nat ->
     (forall pg junk, page = Some (pg, junk) -> pipes k !! pg = None) ->
     exists r k', sys_pipe p page c0 c1 k = Ret (r, k') /\ (r = -1 -> procs k' = procs k)) /\
  (forall p c, is_Some (cwd (getp k p)) -> (c < length (procs k))%nat -> ofile (getp k c) = replicate NOFILE None ->
     exists k', fork_open p c k = Ret k' /\ getp k' c = getp k p) /\
  (forall p fd, match sys_close p fd k with Ret _ => True | _ => exists i, returns (iput i (fsys k)) = false end) /\
  (forall p k', exit_open p k = Ret k' -> getp k' p = no_files).
Proof.
  intros I%files_reachable_inv. split_and!.
  - intros p fd. destruct (sys_dup_inv none k p fd I) as (r & k' & H & _). by exists r, k'.
  - intros p page c0 c1 Hp Hpg. destruct (sys_pipe_inv none k p page c0 c1 I Hp Hpg) as (r & k' & H & _ & Hr). by exists r, k'.
  - intros p c [d Hd] Hc Hf. destruct (fork_open_inv none k p c d I Hd Hc Hf) as (k' & H & _ & Hg). by exists k'.
  - intros p fd. unfold sys_close. destruct (argfd p fd k) as [f|] eqn:Ha; [|done].
    destruct (argfd_lookup _ _ _ _ Ha) as (x & Hp & Hfd).
    pose proof (fileclose_inv none _ f (set_fd_none_inv none k p x _ f I Hp Hfd)) as H.
    by destruct (fileclose f _).
  - intros p k' H. by apply (exit_open_inv none k p k').
Qed.

(** The count of bytes read is 64 bits wide, but [sys_getreadcount] declares it
    an [int]: from 2^31 bytes on the call's result is not the count. *)
Lemma getreadcount_truncates k :
  (0 <= read_count k < 2 ^ 31 -> sys_getreadcount k = read_count k) /\
  (read_count k = 2 ^ 31 -> sys_getreadcount k = 2 ^ 64 - 2 ^ 31).
Proof.
  unfold sys_getreadcount. split.
  - intros H. rewrite i32_small, wrapu_small by lia. done.
  - by intros ->.
Qed.

(** A pipe, a copy of its read end, and a child that inherits the three. *)
Lemma demo_run dv s : exists k, rtc (fstep dv) (boot 1 0 s) k /\
  (fref <$> take 3 (ftable k)) = [4; 2; 0] /\ argfd 1 2 k = Some 0%nat.
Proof.
  eexists. split; [|split].
  - eapply rtc_l; [eapply (f_pipe dv 0 (Some (7%nat, [])) true true); [cbn; lia|done|vm_compute; reflexivity]|].
    eapply rtc_l; [eapply (f_dup dv 0 0); vm_compute; reflexivity|].
    eapply rtc_l; [eapply (f_fork dv 0 1); [cbn; lia|reflexivity|vm_compute; reflexivity]|]. apply rtc_refl.
  - reflexivity.
  - reflexivity.
Qed.

Definition no_devices : devsw := mk_devsw (fun _ => None) (fun _ => None).

Lemma files_refs_counted_witness :
  exists k, argfd 1 2 k = Some 0%nat /\ forall f x, ftable k !! f = Some x -> fref x = Z.of_nat (refs k f).
Proof.
  destruct (demo_run no_devices SwapFile.demo_fs) as (k & Hk & _ & Hf). exists k. split; [done|].
  exact (proj1 (files_refs_counted no_devices 1 0 SwapFile.demo_fs k Hk)).
Defined.

Lemma file_calls_return_witness : exists k r k', argfd 1 2 k = Some 0%nat /\ sys_dup 1 2 k = Ret (r, k').
Proof.
  destruct (demo_run no_devices SwapFile.demo_fs) as (k & Hk & _ & Hf). exists k.
  destruct (proj1 (file_calls_return no_devices 1 0 SwapFile.demo_fs k Hk) 1%nat 2) as (r & k' & H). by exists r, k'.
Defined.

End FileRun.
