(* ===== verification/FileWrite.v ===== *)
(** * Reading and writing open files: byte sequences with an offset. *)
From S2P Require Import Prelude Mem Buf Fs FsFacts FsBytes Pipe File Vm DirFacts.

#[local] Open Scope Z_scope.

Module FileWrite.
Import Buf Fs FsFacts FsFile FsBytes File.

(** ** Splicing bytes into a sequence *)

Lemma splice_nil F o : splice F o [] = F.
Proof. unfold splice. simpl. by rewrite Nat.add_0_r, take_drop. Qed.

Lemma splice_app F o a b : (o <= length F)%nat ->
  splice (splice F o a) (o + length a) b = splice F o (a ++ b).
Proof.
  intros Ho. unfold splice.
  assert (length (take o F) = o) as Ht by (rewrite length_take; lia).
  rewrite !(app_assoc (take o F) a), take_app_le, take_ge by (rewrite length_app; lia).
  rewrite drop_app_ge by (rewrite length_app; lia). rewrite drop_drop, length_app, Ht.
  rewrite <- !app_assoc. do 3 f_equal. rewrite length_app. f_equal. lia.
Qed.

(** Reading back what was written. *)
Lemma splice_read F o b : (o <= length F)%nat -> take (length b) (drop o (splice F o b)) = b.
Proof.
  intros Ho. unfold splice. rewrite drop_app_ge, length_take by (rewrite length_take; lia).
  replace (o - o `min` length F)%nat with 0%nat by lia. rewrite drop_0. by apply take_app_length.
Qed.

(** ** What reading and writing leave alone in an inode *)

Definition head (ip : inode) : inode := {| ip with isize := 0; addrs := [] |}.
Definition heads (s : fs) : list inode := head <$> itable s.

Lemma heads_seti i ip s : head ip = head (geti s i) -> heads (seti i ip s) = heads s.
Proof.
  intros H. unfold heads, seti, geti in *. cbn [itable]. rewrite list_fmap_insert, H.
  destruct (itable s !! i) as [jp|] eqn:E.
  - apply list_insert_id. by rewrite list_lookup_fmap, E.
  - apply list_insert_ge. rewrite length_fmap. by apply lookup_ge_None_1.
Qed.

Lemma heads_geti s s' i : heads s' = heads s -> head (geti s' i) = head (geti s i).
Proof.
  intros H. unfold geti. assert ((head <$> itable s') !! i = (head <$> itable s) !! i) as E by (unfold heads in H; by rewrite H).
  assert (forall o, head (default zero_inode o) = default (head zero_inode) (head <$> o)) as Hd by (by intros []).
  rewrite !list_lookup_fmap in E. by rewrite !Hd, E.
Qed.

Lemma balloc_heads s a s' : balloc s = (a, s') -> heads s' = heads s.
Proof. intros H. unfold heads. pose proof (balloc_from_itable (Z.to_nat (size (sb s) / BPB + 1)) 0 s) as E. unfold balloc in H. by rewrite H in E; simpl in E; rewrite E. Qed.

Lemma get_addr_heads i k s a s' : get_addr i k s = (a, s') -> heads s' = heads s.
Proof.
  unfold get_addr. destruct (_ =? 0); [|by intros [= _ <-]].
  destruct (balloc s) as [b s1] eqn:E. apply balloc_heads in E. destruct (b =? 0); intros [= _ <-]; [done|].
  unfold set_addr. by rewrite heads_seti.
Qed.

Lemma bmap_heads i bn s a s' : bmap i bn s = Ret (a, s') -> heads s' = heads s.
Proof.
  unfold bmap. destruct (bn <? NDIRECT); [intros [= H]; by eapply get_addr_heads|].
  destruct (_ <? NINDIRECT); [|done]. destruct (get_addr i NDIRECT s) as [b s1] eqn:E. apply get_addr_heads in E.
  destruct (b =? 0); [by intros [= _ <-]|]. destruct (_ =? 0); [|by intros [= _ <-]].
  destruct (balloc s1) as [c s2] eqn:E2. apply balloc_heads in E2. destruct (c =? 0); intros [= _ <-]; [congruence|].
  change (heads (set_block _ _ s2)) with (heads s2). congruence.
Qed.

Lemma writei_loop_heads cp fuel i pos off src s t s' :
  writei_loop cp fuel i pos off src s = Ret (t, s') -> heads s' = heads s.
Proof.
  revert pos off src s t. induction fuel as [|fuel IH]; intros pos off src s t; destruct src as [|b src]; cbn [writei_loop];
    [by intros [= _ <-]|done|by intros [= _ <-]|].
  intros H. inv_ret H. destruct r as [a s1]. apply bmap_heads in Hcall. destruct (a =? 0); [by injection H as _ <-|].
  cbn zeta in H. destruct (cp pos _); [injection H as _ <-; exact Hcall|].
  inv_ret H. destruct r as [t2 s2]. injection H as _ <-. rewrite (IH _ _ _ _ _ Hcall0). exact Hcall.
Qed.

Lemma writei_heads cp i off src s t s' : writei_from cp i off src s = Ret (t, s') -> heads s' = heads s.
Proof.
  unfold writei_from. destruct (_ || _); [by intros [= _ <-]|]. destruct (_ <? _); [by intros [= _ <-]|].
  intros H. inv_ret H. destruct r as [t1 s1]. injection H as _ <-. apply writei_loop_heads in Hcall.
  unfold iupdate. cbn zeta. rewrite <- Hcall. destruct (_ <? _); [|done].
  change (heads (set_block _ _ ?s)) with (heads s). by rewrite heads_seti.
Qed.

(** ** Locking an inode *)

(** An inode in use, in memory, and not locked. *)
Definition ready (s : fs) (i : nat) : Prop :=
  0 < ref (geti s i) /\ locked (geti s i) = false /\ valid (geti s i) = true.

Definition set_locked (b : bool) (i : nat) (s : fs) : fs :=
  let n := geti s i in seti i {| n with locked := b |} s.

(** Changing what an inode has besides its number, size and blocks. *)
Lemma seti_ok ds s i n' : fs_ok ds s -> inode_ok ds s i ->
  inum n' = inum (geti s i) -> isize n' = isize (geti s i) -> addrs n' = addrs (geti s i) ->
  let s' := seti i n' s in
  fs_ok ds s' /\ inode_ok ds s' i /\ file_of s' i = file_of s i /\ (forall x, foreign s' i x <-> foreign s i x).
Proof.
  intros Hok [I1 I2 I3 I4 I5 I6 I7 I8] En Es Ea s'.
  assert (geti s' i = n') as Eg by by apply geti_seti_eq.
  assert (ind s' i = ind s i) as Ei by (unfold ind, addr; by rewrite Eg, Ea).
  assert (forall bn, entry s' i bn = entry s i bn) as Ee.
  { intros bn. unfold entry, addr. by rewrite Ei, Eg, Ea. }
  split_and!.
  - destruct Hok as [O1 O2 O3 O4 O5]. by constructor.
  - constructor; rewrite ?Eg, ?Ei, ?En, ?Es, ?Ea; try done.
    + unfold s', seti. simpl. by rewrite length_insert.
    + intros bn Hbn. rewrite Ee. by apply I4.
    + intros c d Hb Hc. rewrite !Ee. by apply I6.
    + intros bn Hbn. rewrite Ee. by apply I8.
  - unfold file_of. rewrite Eg, Es. unfold bytes_from. apply list_fmap_ext. intros k x _. unfold byte. by rewrite Ee.
  - intros x. unfold foreign. rewrite Ei. setoid_rewrite Ee. done.
Qed.

Lemma set_locked_ok ds s i b : fs_ok ds s -> inode_ok ds s i ->
  let s' := set_locked b i s in
  fs_ok ds s' /\ inode_ok ds s' i /\ isize (geti s' i) = isize (geti s i) /\ file_of s' i = file_of s i /\
  (forall x, foreign s' i x <-> foreign s i x) /\ geti s' i = (let n := geti s i in {| n with locked := b |}).
Proof.
  intros Hok Hio. set (n := geti s i).
  destruct (seti_ok ds s i {| n with locked := b |} Hok Hio) as (H1 & H2 & H3 & H4); try done.
  pose proof (geti_seti_eq i {| n with locked := b |} s (io_lt _ _ _ Hio)) as Eg.
  cbn zeta. unfold set_locked. fold n. by rewrite Eg.
Qed.

Lemma unlock_lock i s : locked (geti s i) = false -> set_locked false i (set_locked true i s) = s.
Proof.
  intros Hl. unfold set_locked, seti, geti in *. cbn [itable]. destruct (itable s !! i) as [n|] eqn:E; simpl in Hl.
  - rewrite list_lookup_insert_eq by (by eapply lookup_lt_Some). simpl. rewrite list_insert_insert_eq.
    rewrite (list_insert_id _ i) by (rewrite E, <- Hl; by destruct n). by destruct s.
  - rewrite !list_insert_ge by (rewrite ?length_insert; by apply lookup_ge_None_1). by destruct s.
Qed.

Lemma ilock_ready i s : (i < length (itable s))%nat -> ready s i -> ilock i s = Ret (set_locked true i s).
Proof.
  intros Hi (Hr & Hl & Hv). unfold ilock. rewrite (proj2 (Z.ltb_ge _ _)), Hl by lia.
  change (seti i _ s) with (set_locked true i s).
  assert (valid (geti (set_locked true i s) i) = true) as -> by (unfold set_locked; by rewrite geti_seti_eq). done.
Qed.

Lemma iunlock_ret i s : 0 < ref (geti s i) -> locked (geti s i) = true -> iunlock i s = Ret (set_locked false i s).
Proof. intros Hr Hl. unfold iunlock. rewrite Hl, (proj2 (Z.ltb_ge _ _)) by lia. done. Qed.

(** ** One locked write

    [tot] bytes of [src] are stored at [off] in inode [i], which is ready
    again; when a copy was refused, [e] more may be in place of the old ones;
    no block of another file has changed. *)
Record stored (ds : Z) (cp : copier) (i : nat) (off : Z) (src : list Z) (tot e : Z) (s s' : fs)
    : Prop := mk_stored {
  st_tot : 0 <= tot /\ 0 <= e /\ tot + e <= Z.of_nat (length src);
  st_ok : fs_ok ds s';
  st_inode : inode_ok ds s' i;
  st_ready : ready s' i;
  st_file : file_of s' i = take (Nat.max (length (file_of s i)) (Z.to_nat (off + tot)))
                             (splice (file_of s i) (Z.to_nat off) (take (Z.to_nat (tot + e)) src));
  st_other : forall b, is_data ds s b -> used s b = true -> foreign s i b ->
    blocks s' b = blocks s b /\ used s' b = true /\ foreign s' i b;
  st_geti : forall j, j <> i -> geti s' j = geti s j;
  st_full : tot < Z.of_nat (length src) ->
    (e = 0 /\ (Z.of_nat (length (file_of s i)) < off \/ MAXFILE * BSIZE < off + Z.of_nat (length src) \/
       forall c, 0 <= c < size (sb s) -> used s' c = true)) \/
    refused cp 0 (Z.of_nat (length src)) tot e;
  st_sb : sb s' = sb s
}.

Lemma splice_take_nil F o n : (length F <= n)%nat -> take n (splice F o []) = F.
Proof. intros Hn. rewrite splice_nil. by apply take_ge. Qed.

(** Nothing is written: no byte was asked for, or the offset and the length do
    not fit. *)
Lemma stored_nothing ds cp i off src s :
  fs_ok ds s -> inode_ok ds s i -> ready s i -> 0 <= off ->
  (src <> [] -> Z.of_nat (length (file_of s i)) < off \/ MAXFILE * BSIZE < off + Z.of_nat (length src)) ->
  stored ds cp i off src 0 0 s s.
Proof.
  intros Hok Hio Hr Ho Hbad. constructor; try done.
  - lia.
  - simpl. rewrite splice_take_nil; [done|lia].
  - intros H. left. split; [done|]. destruct src; [simpl in H; lia|]. by destruct Hbad; [|left|right; left].
Qed.

Lemma length_file_of ds s i : inode_ok ds s i -> Z.of_nat (length (file_of s i)) = isize (geti s i).
Proof. intros Hio. unfold file_of. rewrite length_bytes_from. pose proof (io_size _ _ _ Hio). lia. Qed.

Lemma locked_write ds cp s i off src :
  fs_ok ds s -> inode_ok ds s i -> ready s i -> 0 <= off < 2 ^ 32 -> Z.of_nat (length src) < 2 ^ 31 -> src <> [] ->
  exists r e s1 s2 s', ilock i s = Ret s1 /\ writei_from cp i off src s1 = Ret (r, s2) /\ iunlock i s2 = Ret s' /\
    stored ds cp i off src (Z.max 0 r) e s s' /\
    (0 < r -> off <= Z.of_nat (length (file_of s i)) /\ off + Z.of_nat (length src) <= MAXFILE * BSIZE).
Proof.
  intros Hok Hio Hrd Hoff Hsrc Hne. pose proof (io_lt _ _ _ Hio) as Hlt.
  pose proof (length_file_of _ _ _ Hio) as Hlen.
  destruct (set_locked_ok ds s i true Hok Hio) as (Hok1 & Hio1 & Hsz1 & Hf1 & Hfor1 & Hg1).
  set (s1 := set_locked true i s) in *. pose proof (ilock_ready i s Hlt Hrd) as Hl.
  pose proof (writei_from_spec ds cp s1 i off src Hok1 Hio1 Hoff Hsrc) as W. rewrite Hsz1, <- Hlen in W.
  assert (forall s2, head (geti s2 i) = head (geti s1 i) -> iunlock i s2 = Ret (set_locked false i s2)) as Hun.
  { intros s2 Hh. destruct Hrd as (Hr & _ & _). rewrite Hg1 in Hh.
    apply iunlock_ret; [apply (f_equal ref) in Hh|apply (f_equal locked) in Hh]; simpl in Hh; by rewrite Hh. }
  destruct (Z.ltb_spec (Z.of_nat (length (file_of s i))) off) as [H1|H1]; cbn [orb] in W.
  2: destruct (Z.ltb_spec (MAXFILE * BSIZE) (off + Z.of_nat (length src))) as [H2|H2].
  1, 2: exists (-1), 0, s1, s1, s; rewrite (Hun s1) by done;
    (split_and!; [exact Hl|exact W|f_equal; apply unlock_lock, Hrd| |lia]); apply stored_nothing; (tauto || lia).
  destruct W as (tot & e & s2 & Hw & [W1 W2 W3 W4 W5 W6 W7 W8]).
  pose proof (heads_geti s1 s2 i (writei_heads _ _ _ _ _ _ _ Hw)) as Hh.
  destruct (set_locked_ok ds s2 i false W2 W3) as (Hok3 & Hio3 & _ & Hf3 & Hfor3 & Hg3).
  exists tot, e, s1, s2, (set_locked false i s2). rewrite (Hun s2) by done.
  split_and!; [exact Hl|exact Hw|done| |done]. rewrite Z.max_r by lia. constructor; try done.
  - unfold ready. rewrite Hg3. cbn zeta. rewrite Hg1 in Hh. destruct Hrd as (Hr & _ & Hv). simpl.
    pose proof (f_equal ref Hh) as E1. pose proof (f_equal valid Hh) as E2. simpl in E1, E2. by rewrite E1, E2.
  - rewrite Hf3, W4, Hf1, Hsz1, <- Hlen. f_equal. lia.
  - intros b Hb Hu Hf. destruct (W5 b Hb Hu) as (? & ? & ?); [by apply Hfor1|]. split_and!; [done|done|by apply Hfor3].
  - intros j Hj. unfold set_locked. rewrite geti_seti_ne, W6 by done. unfold s1, set_locked. by rewrite geti_seti_ne.
  - intros Hlt2. destruct (W7 Hlt2) as [(He & _ & Hall)|Hr]; [left|by right]. split; [done|]. right; right. exact Hall.
Qed.

(** ** The chunks of a write *)

Lemma take_app_drop {A} (l : list A) n m : take n l ++ take m (drop n l) = take (n + m) l.
Proof. revert n. induction l as [|a l IH]; intros [|n]; simpl; rewrite ?take_nil; [done..|]. by rewrite IH. Qed.

(** The positions of a transfer counted from [n] on. *)
Definition shift (n : Z) (cp : copier) : copier := fun pos m => cp (n + pos) m.

Lemma refused_shift cp n m tot e : refused (shift n cp) 0 (m - n) tot e -> refused cp 0 m (n + tot) e.
Proof.
  intros (l & k & Hl & Hcp & He). exists l, k. unfold shift in Hcp. rewrite Z.add_0_l in *.
  split_and!; [lia|lia|done|done].
Qed.

(** A full chunk, then the rest. *)
Lemma stored_trans ds cp i off src n1 tot e e1 s s1 s2 :
  0 <= off <= Z.of_nat (length (file_of s i)) ->
  stored ds cp i off (take n1 src) (Z.of_nat n1) e1 s s1 ->
  stored ds (shift (Z.of_nat n1) cp) i (off + Z.of_nat n1) (drop n1 src) tot e s1 s2 ->
  (n1 <= length src)%nat -> stored ds cp i off src (Z.of_nat n1 + tot) e s s2.
Proof.
  intros Hoff [A1 A2 A3 A4 A5 A6 A7 A8 A9] [B1 B2 B3 B4 B5 B6 B7 B8 B9] Hn. rewrite length_drop in B1, B8.
  rewrite length_take in A1. assert (e1 = 0) as -> by lia.
  rewrite Z.add_0_r, Nat2Z.id, (take_ge _ n1) in A5 by (rewrite length_take; lia).
  assert (length (splice (file_of s i) (Z.to_nat off) (take n1 src)) =
    Nat.max (length (file_of s i)) (Z.to_nat (off + Z.of_nat n1))) as HlA
    by (rewrite length_splice, length_take; lia).
  rewrite take_ge in A5 by lia.
  constructor; try done.
  - lia.
  - rewrite B5, A5, HlA. replace (Z.to_nat (off + Z.of_nat n1)) with (Z.to_nat off + length (take n1 src))%nat at 2
      by (rewrite length_take; lia).
    rewrite splice_app by lia. f_equal; [lia|]. f_equal. rewrite take_app_drop. f_equal. lia.
  - intros b Hb Hu Hf. destruct (A6 b Hb Hu Hf) as (E & Hu1 & Hf1). unfold is_data in *. rewrite <- A9 in Hb.
    destruct (B6 b Hb Hu1 Hf1) as (E2 & ? & ?). split_and!; [congruence|done|done].
  - intros j Hj. rewrite B7, A7; done.
  - intros Hlt. rewrite A9 in B8. destruct B8 as [(He & H)|Hr]; [lia|left|right].
    + split; [done|]. destruct H as [H|[H|H]]; [| |by right; right].
      * rewrite A5, HlA in H. lia.
      * right; left. lia.
    + apply refused_shift. by rewrite Nat2Z.inj_sub in Hr by done.
  - congruence.
Qed.

(** A chunk that ends early. *)
Lemma stored_short ds cp i off src n1 tot e s s1 :
  0 <= off -> stored ds cp i off (take n1 src) tot e s s1 -> tot < Z.of_nat (length (take n1 src)) ->
  stored ds cp i off src tot e s s1.
Proof.
  intros Hoff [A1 A2 A3 A4 A5 A6 A7 A8 A9] Hlt. rewrite length_take in *. constructor; try done.
  - lia.
  - rewrite A5, take_take. do 3 f_equal. lia.
  - intros _. destruct A8 as [(He & H)|(m & k & Hm & Hcp & He)]; [lia|left|right].
    + split; [done|]. destruct H as [H|[H|H]]; [by left|right; left; lia|by right; right].
    + exists m, k. split_and!; [lia|lia|done|done].
Qed.

Definition set_off (o : Z) (x : file) : file := {| x with off := o |}.

Lemma setf_setf f x y k : setf f y (setf f x k) = setf f y k.
Proof. unfold setf. cbn [ftable]. by rewrite list_insert_insert_eq. Qed.

Lemma setf_id f x k : ftable k !! f = Some x -> setf f x k = k.
Proof. intros H. unfold setf. rewrite list_insert_id by done. by destruct k. Qed.

Lemma getf_look k f x : ftable k !! f = Some x -> getf k f = x.
Proof. unfold getf. by intros ->. Qed.

Lemma write_max_val : write_max = 3072.
Proof. reflexivity. Qed.

Lemma write_chunks_spec ds cp fuel : forall f i src k x,
  (length src <= fuel)%nat -> ftable k !! f = Some x ->
  fs_ok ds (fsys k) -> inode_ok ds (fsys k) (ip x) -> ready (fsys k) (ip x) ->
  0 <= off x < 2 ^ 31 -> Z.of_nat (length src) < 2 ^ 31 ->
  exists tot e s', write_chunks cp fuel f i src k =
      Ret (tot =? Z.of_nat (length src), set_fsys s' (setf f (set_off (off x + tot) x) k)) /\
    stored ds (shift i cp) (ip x) (off x) src tot e (fsys k) s'.
Proof.
  induction fuel as [|fuel IH]; intros f i src k x Hfuel Hx Hok Hio Hrd Hoff Hsrc.
  { destruct src; [|simpl in Hfuel; lia]. exists 0, 0, (fsys k). split; [|apply stored_nothing; (done || lia)].
    cbn [write_chunks length]. do 2 f_equal. rewrite Z.add_0_r. rewrite setf_id; [by destruct k|]. rewrite Hx. by destruct x. }
  destruct src as [|b0 src0].
  { exists 0, 0, (fsys k). split; [|apply stored_nothing; (done || lia)].
    cbn [write_chunks length]. do 2 f_equal. rewrite Z.add_0_r. rewrite setf_id; [by destruct k|]. rewrite Hx. by destruct x. }
  cbn [write_chunks]. remember (b0 :: src0) as src eqn:Esrc. assert (src <> []) as Hne by (by subst).
  cbn zeta. rewrite (getf_look k f x Hx). set (n1 := Z.to_nat (Z.of_nat (length src) `min` write_max)).
  assert (0 < n1 <= length src)%nat as Hn1.
  { unfold n1. rewrite write_max_val. destruct src; [done|]. simpl length. lia. }
  assert (Z.of_nat (length src) `min` write_max = Z.of_nat n1) as -> by (unfold n1; rewrite write_max_val; lia).
  assert (length (take n1 src) = n1) as Hlen1 by (rewrite length_take; lia).
  destruct (locked_write ds (shift i cp) (fsys k) (ip x) (off x) (take n1 src) Hok Hio Hrd)
    as (r & e1 & s1 & s2 & s3 & Hl & Hw & Hu & St & Hpos);
    [lia|lia|intros E; rewrite E in Hlen1; simpl in Hlen1; lia|].
  rewrite Hlen1 in Hpos. change (MAXFILE * BSIZE) with 274432 in Hpos.
  pose proof (st_tot _ _ _ _ _ _ _ _ _ St) as Ht. rewrite Hlen1 in Ht.
  rewrite Hl. cbn [mbind outcome_bind]. change (fun pos m => cp (i + pos) m) with (shift i cp).
  rewrite Hw. cbn [mbind outcome_bind]. rewrite Hu. cbn [mbind outcome_bind].
  match goal with |- context [if 0 <? r then ?a else k] =>
    assert ((if 0 <? r then a else k) = setf f (set_off (off x + Z.max 0 r) x) k) as -> end.
  { destruct (Z.ltb_spec 0 r) as [Hr|Hr].
    - rewrite (wrapu_small 32) by lia. by rewrite Z.max_r by lia.
    - rewrite Z.max_l, Z.add_0_r by lia. symmetry. apply setf_id. rewrite Hx. by destruct x. }
  destruct (Z.eqb_spec r (Z.of_nat n1)) as [->|Hr]; cbn [negb].
  2:{ exists (Z.max 0 r), e1, s3. rewrite (proj2 (Z.eqb_neq _ _)) by lia. split; [done|].
      apply (stored_short ds _ _ _ src n1); [lia|done|rewrite Hlen1; lia]. }
  rewrite Z.max_r in St |- * by lia. rewrite Nat2Z.id. destruct Hpos as [Hp1 Hp2]; [lia|].
  destruct (IH f (i + Z.of_nat n1) (drop n1 src) (set_fsys s3 (setf f (set_off (off x + Z.of_nat n1) x) k))
    (set_off (off x + Z.of_nat n1) x)) as (tot & e & s' & -> & St2).
  - rewrite length_drop. lia.
  - cbn [set_fsys setf ftable]. apply list_lookup_insert_eq. by eapply lookup_lt_Some.
  - apply St.
  - apply St.
  - apply St.
  - cbn [set_off off]. lia.
  - rewrite length_drop. lia.
  - exists (Z.of_nat n1 + tot), e, s'. rewrite length_drop. cbn [set_fsys fsys] in St2. split.
    + f_equal. f_equal; [destruct (Z.eqb_spec tot (Z.of_nat (length src - n1))); symmetry; [apply Z.eqb_eq|apply Z.eqb_neq]; lia|].
      change (set_fsys s' (setf f (set_off (off (set_off (off x + Z.of_nat n1) x) + tot) (set_off (off x + Z.of_nat n1) x))
        (set_fsys s3 (setf f (set_off (off x + Z.of_nat n1) x) k)))) with
        (set_fsys s' (setf f (set_off (off x + Z.of_nat n1 + tot) x) (setf f (set_off (off x + Z.of_nat n1) x) k))).
      rewrite setf_setf. do 3 f_equal. lia.
    + apply (stored_trans ds _ _ _ src n1 tot e e1 (fsys k) s3); [lia|done| |lia].
      destruct St2 as [B1 B2 B3 B4 B5 B6 B7 B8 B9]. constructor; try done.
      intros Hlt. destruct (B8 Hlt) as [?|(m & c & Hm & Hcp & He)]; [by left|right]. exists m, c.
      split_and!; [lia|lia| |done]. rewrite <- Hcp. unfold shift. f_equal. lia.
Qed.

(** An open, readable and writable, regular file whose inode is in use. *)
Record open_file (ds : Z) (k : sys) (f : nat) (x : file) : Prop := mk_open_file {
  of_look : ftable k !! f = Some x;
  of_ty : ty x = FD_INODE;
  of_off : 0 <= off x < 2 ^ 31;
  of_fs : fs_ok ds (fsys k);
  of_inode : inode_ok ds (fsys k) (ip x);
  of_ready : ready (fsys k) (ip x)
}.

(** What is read of a file, without the arithmetic of [readi]. *)
Lemma vm_readi_take ds s i o n : inode_ok ds s i -> 0 <= o < 2 ^ 31 -> 0 <= n < 2 ^ 31 ->
  Vm.readi (file_of s i) o n = take (Z.to_nat n) (drop (Z.to_nat o) (file_of s i)).
Proof.
  intros Hio Ho Hn. pose proof (io_size _ _ _ Hio) as HS. change (MAXFILE * BSIZE) with 274432 in HS.
  unfold Vm.readi. pose proof (length_file_of _ _ _ Hio) as Hl.
  set (F := file_of s i) in *. rewrite (wrapu_small 32) by lia.
  rewrite (proj2 (Z.ltb_ge (o + n) _)) by lia. rewrite orb_false_r.
  destruct (Z.ltb_spec (Z.of_nat (length F)) o).
  { rewrite drop_ge by lia. by rewrite take_nil. }
  destruct (Z.ltb_spec (Z.of_nat (length F)) (o + n)); [|done].
  rewrite !take_ge by (rewrite length_drop; lia). done.
Qed.

(** The bytes of the file [x] is open on. *)
Definition contents (k : sys) (x : file) : list Z := file_of (fsys k) (ip x).


(** A new file is written and read. *)
Definition demo_file : file := mk_file FD_INODE 1 true true 0 0 0 0.
Definition demo_sys : sys :=
  {| ftable := [demo_file]; procs := []; pipes := ∅; fsys := SwapFile.demo_fs; read_count := 0 |}.

Lemma demo_open : open_file 10 demo_sys 0 demo_file.
Proof. constructor; [done|done|simpl; lia|exact FsRun.demo_fs_ok|exact FsRun.demo_inode_ok|done]. Qed.

(** A write of [9; 9; 9] over [1; 2; 3] that fails after one byte: write returns -1
    and the offset stays, but readers find the new byte.  The block was not passed
    to [log_write], so the old byte comes back when the buffer is used for
    another block. *)
Definition no_dev : devsw := mk_devsw (fun _ => None) (fun _ => None).
Definition after_write : sys :=
  match filewrite no_dev (fun _ => false) kernel_copy 0 [1; 2; 3] demo_sys with
  | Ret (_, k) => setf 0 demo_file k
  | _ => demo_sys
  end.

Lemma refused_write_leaves_bytes :
  contents after_write demo_file = [1; 2; 3] /\
  match filewrite no_dev (fun _ => false) (fun _ _ => Some 1) 0 [9; 9; 9] after_write with
  | Ret (r, k) => r = -1 /\ off (getf k 0) = 0 /\ contents k demo_file = [9; 2; 3]
  | _ => False
  end.
Proof. vm_compute. done. Qed.


End FileWrite.
