(* ===== verification/Sh.v ===== *)
(** * xv6's shell (xv6-memory-management/user/sh.c; the same file is in
    xv6-scheduling)

    A command line is the list of its bytes before the terminating NUL; a
    [char *] into it is an index, and [es] is its length.  The parser makes a
    tree of indices, [nulterminate] then cuts the words out by storing NULs.
    The constructors' calls of malloc succeed.  What a parsed command does is the
    tree of system calls it makes, with a branch for each result. *)
From S2P Require Import Prelude File Sysfile.

#[local] Open Scope Z_scope.

Module Sh.
Import Sysfile.

Definition MAXARGS : nat := 10.

(** A string in the line: its first byte and the byte after it. *)
Definition str : Type := nat * nat.

Inductive cmd :=
| EXEC (argv : list str)
| REDIR (c : cmd) (file : str) (mode fd : Z)
| PIPE (left right : cmd)
| LIST (left right : cmd)
| BACK (c : cmd).

(** ** Tokens *)

Definition whitespace : list Z := [32; 9; 13; 10; 11].
Definition BAR : Z := 124.
Definition LPAR : Z := 40.
Definition RPAR : Z := 41.
Definition SEMI : Z := 59.
Definition AMP : Z := 38.
Definition LT : Z := 60.
Definition GT : Z := 62.
Definition PLUS : Z := 43.
Definition WORD : Z := 97.
Definition symbols : list Z := [LT; BAR; GT; AMP; SEMI; LPAR; RPAR].

(** [strchr(s, c)] as a test. *)
Definition strchr (s : list Z) (c : Z) : bool := existsb (Z.eqb c) s.

(** How many leading bytes satisfy [p]. *)
Fixpoint span (p : Z -> bool) (l : list Z) : nat :=
  match l with
  | [] => 0%nat
  | c :: l => if p c then S (span p l) else 0%nat
  end.

Section Parser.
Variable buf : list Z.

(** [*s] *)
Definition ch (s : nat) : Z := default 0 (buf !! s).

(** [while(s < es && p( *s)) s++;] *)
Definition skip (p : Z -> bool) (s : nat) : nat := (s + span p (drop s buf))%nat.
Definition skip_ws (s : nat) : nat := skip (strchr whitespace) s.

Definition in_word (c : Z) : bool := negb (strchr whitespace c) && negb (strchr symbols c).

(** The token, [q], [eq] and the new [*ps]. *)
Definition gettoken (s : nat) : Z * str * nat :=
  let q := skip_ws s in
  let c := ch q in
  let '(ret, eq) :=
    if c =? 0 then (c, q)
    else if strchr [BAR; LPAR; RPAR; SEMI; AMP; LT] c then (c, S q)
    else if c =? GT then (if ch (S q) =? GT then (PLUS, S (S q)) else (c, S q))
    else (WORD, skip in_word q) in
  (ret, (q, eq), skip_ws eq).

(** Is the next byte one of [toks]?  And the new [*ps]. *)
Definition peek (s : nat) (toks : list Z) : bool * nat :=
  let s := skip_ws s in (negb (ch s =? 0) && strchr toks (ch s), s).

(** ** The parser *)

(** [while(peek(ps, es, "<>"))] *)
Fixpoint parseredirs (fuel : nat) (c : cmd) (s : nat) : outcome (cmd * nat) :=
  let '(more, s) := peek s [LT; GT] in
  if negb more then Ret (c, s)
  else
    match fuel with
    | O => Undef "parseredirs: fuel"
    | S fuel =>
        let '(tok, _, s) := gettoken s in
        let '(tok2, file, s) := gettoken s in
        if negb (tok2 =? WORD) then Panic "missing file for redirection"
        else
          let c :=
            if tok =? LT then REDIR c file O_RDONLY 0
            else if tok =? GT then REDIR c file (Z.lor O_WRONLY (Z.lor O_CREATE O_TRUNC)) 1
            else if tok =? PLUS then REDIR c file (Z.lor O_WRONLY O_CREATE) 1
            else c in
          parseredirs fuel c s
    end.

Definition redirs_fuel (s : nat) : nat := length buf - s.

(** The words go to the node of [execcmd], inside the redirections. *)
Fixpoint set_argv (argv : list str) (c : cmd) : cmd :=
  match c with
  | EXEC _ => EXEC argv
  | REDIR c f m d => REDIR (set_argv argv c) f m d
  | c => c
  end.

(** [while(!peek(ps, es, "|)&;"))], with the words so far. *)
Fixpoint parseargs (fuel : nat) (argv : list str) (ret : cmd) (s : nat) : outcome (cmd * nat) :=
  let '(stop, s) := peek s [BAR; RPAR; AMP; SEMI] in
  if stop then Ret (set_argv argv ret, s)
  else
    let '(tok, q, s) := gettoken s in
    if tok =? 0 then Ret (set_argv argv ret, s)
    else if negb (tok =? WORD) then Panic "syntax"
    else
      let argv := argv ++ [q] in
      if (MAXARGS <=? length argv)%nat then Panic "too many args"
      else
        '(ret, s) ← parseredirs (redirs_fuel s) ret s;
        match fuel with
        | O => Undef "parseexec: fuel"
        | S fuel => parseargs fuel argv ret s
        end.

Definition parseblock (parseline : nat -> outcome (cmd * nat)) (s : nat) : outcome (cmd * nat) :=
  let '(open, s) := peek s [LPAR] in
  if negb open then Panic "parseblock"
  else
    let '(_, _, s) := gettoken s in
    '(c, s) ← parseline s;
    let '(close, s) := peek s [RPAR] in
    if negb close then Panic "syntax - missing )"
    else
      let '(_, _, s) := gettoken s in
      parseredirs (redirs_fuel s) c s.

Definition parseexec (parseline : nat -> outcome (cmd * nat)) (s : nat) : outcome (cmd * nat) :=
  let '(block, s) := peek s [LPAR] in
  if block then parseblock parseline s
  else
    '(ret, s) ← parseredirs (redirs_fuel s) (EXEC []) s;
    parseargs MAXARGS [] ret s.

Fixpoint parsepipe (fuel : nat) (parseline : nat -> outcome (cmd * nat)) (s : nat) : outcome (cmd * nat) :=
  '(c, s) ← parseexec parseline s;
  let '(bar, s) := peek s [BAR] in
  if negb bar then Ret (c, s)
  else
    let '(_, _, s) := gettoken s in
    match fuel with
    | O => Undef "parsepipe: fuel"
    | S fuel => '(r, s) ← parsepipe fuel parseline s; Ret (PIPE c r, s)
    end.

(** [while(peek(ps, es, "&"))] *)
Fixpoint parsebacks (fuel : nat) (c : cmd) (s : nat) : outcome (cmd * nat) :=
  let '(amp, s) := peek s [AMP] in
  if negb amp then Ret (c, s)
  else
    let '(_, _, s) := gettoken s in
    match fuel with O => Undef "parseline: fuel" | S fuel => parsebacks fuel (BACK c) s end.

Fixpoint parseline (fuel : nat) (s : nat) : outcome (cmd * nat) :=
  match fuel with
  | O => Undef "parseline: fuel"
  | S fuel =>
      '(c, s) ← parsepipe (length buf) (parseline fuel) s;
      '(c, s) ← parsebacks (length buf) c s;
      let '(semi, s) := peek s [SEMI] in
      if negb semi then Ret (c, s)
      else
        let '(_, _, s) := gettoken s in
        '(r, s) ← parseline fuel s; Ret (LIST c r, s)
  end.

End Parser.

(** [*eq = 0] for every string of the command. *)
Definition cut (w : str) (buf : list Z) : list Z := <[w.2 := 0]> buf.

Fixpoint nulterminate (c : cmd) (buf : list Z) : list Z :=
  match c with
  | EXEC argv => foldl (fun b w => cut w b) buf argv
  | REDIR c file _ _ => cut file (nulterminate c buf)
  | PIPE l r | LIST l r => nulterminate r (nulterminate l buf)
  | BACK c => nulterminate c buf
  end.

(** The tree and the line as [nulterminate] leaves it. *)
Definition parsecmd (buf : list Z) : outcome (cmd * list Z) :=
  '(c, s) ← parseline buf (S (length buf)) 0;
  let '(_, s) := peek buf s [] in
  if negb (s =? length buf)%nat then Panic "syntax" else Ret (c, nulterminate c buf).

(** ** Running a command

    What a process does from some point on, with a branch for each result of a
    call; a process that prints a message and exits ends in [PExit]. *)
Inductive prog :=
| PExit (status : Z)
| PPrint (msg : list Z) (next : prog)               (* fprintf(2, ...) *)
| PClose (fd : Z) (next : prog)
| POpen (file : list Z) (mode : Z) (failed ok : prog)
| PDup (fd : Z) (next : prog)
| PPipe (failed : prog) (ok : Z -> Z -> prog)       (* ok p[0] p[1] *)
| PFork (failed child parent : prog)
| PWait (next : prog)
| PExec (argv : list (list Z)) (failed : prog).

(** The C string at [q] of a line with NULs. *)
Definition cstr (b : list Z) (q : nat) : list Z :=
  let l := drop q b in take (span (fun c => negb (c =? 0)) l) l.

Definition panic (msg : list Z) : prog := PPrint msg (PExit 1).
Definition fork1 (child parent : prog) : prog := PFork (panic [102; 111; 114; 107]) child parent.

Fixpoint runcmd (b : list Z) (c : cmd) : prog :=
  match c with
  | EXEC [] => PExit 1
  | EXEC ((w :: _) as argv) =>
      PExec ((fun w => cstr b w.1) <$> argv) (PPrint (cstr b w.1) (PExit 0))
  | REDIR c file mode fd =>
      PClose fd (POpen (cstr b file.1) mode (PPrint (cstr b file.1) (PExit 1)) (runcmd b c))
  | LIST l r => fork1 (runcmd b l) (PWait (runcmd b r))
  | PIPE l r =>
      PPipe (panic [112; 105; 112; 101]) (fun p0 p1 =>
        fork1 (PClose 1 (PDup p1 (PClose p0 (PClose p1 (runcmd b l)))))
       (fork1 (PClose 0 (PDup p0 (PClose p0 (PClose p1 (runcmd b r)))))
       (PClose p0 (PClose p1 (PWait (PWait (PExit 0)))))))
  | BACK c => fork1 (runcmd b c) (PExit 0)
  end.

(** ** The main loop *)

(** [gets(buf, max)] of ulib.c on a stream: at most [n] bytes, up to the end
    of a line.  The line and the rest of the input. *)
Fixpoint gets (n : nat) (input : list Z) : list Z * list Z :=
  match n, input with
  | S n, c :: input =>
      if (c =? 10) || (c =? 13) then ([c], input)
      else let '(l, rest) := gets n input in (c :: l, rest)
  | _, _ => ([], input)
  end.

Definition LINE : nat := 100.

Inductive line_action :=
| Eof                               (* getcmd fails *)
| Blank
| Cd (path : list Z)
| Run (r : outcome prog).           (* in a child, which is waited for *)

(** One turn of the loop of [main]. *)
Definition main_line (input : list Z) : line_action * list Z :=
  let '(buf, rest) := gets (LINE - 1) input in
  (match buf with
   | [] | 0 :: _ => Eof
   | _ =>
       let cmd := drop (span (fun c => (c =? 32) || (c =? 9)) buf) buf in
       match cmd with
       | 10 :: _ => Blank
       | 99 :: 100 :: 32 :: _ =>
           let n := length (cstr cmd 0) in Cd (cstr (<[(n - 1)%nat := 0]> cmd) 3)
       | _ => Run ('(c, b) ← parsecmd (cstr cmd 0); Ret (runcmd b c))
       end
   end, rest).

(** ** The descriptors of a program that is run

    An object a descriptor refers to. *)
Inductive obj := OFile (name : list Z) (mode : Z) | OPipe (id : list bool) (w : bool) | OOther (n : Z).

Definition fds : Type := list (option obj).

Definition is_free (v : option obj) : bool := match v with None => true | Some _ => false end.

(** The lowest free descriptor. *)
Definition alloc (o : obj) (t : fds) : option (nat * fds) :=
  match find_idx is_free t with Some fd => Some (fd, <[fd := Some o]> t) | None => None end.

(** Every program that is run, with its descriptors, when fork and exec
    succeed and [opens] tells which opens do.  [id] names the process. *)
Fixpoint execs (opens : list Z -> Z -> bool) (id : list bool) (p : prog) (t : fds) : list (list (list Z) * fds) :=
  match p with
  | PExit _ => []
  | PPrint _ next | PWait next => execs opens id next t
  | PClose fd next => execs opens id next (<[Z.to_nat fd := None]> t)
  | POpen file mode failed ok =>
      match (if opens file mode then alloc (OFile file mode) t else None) with
      | Some (_, t) => execs opens id ok t
      | None => execs opens id failed t
      end
  | PDup fd next =>
      match t !! Z.to_nat fd with
      | Some (Some o) => match alloc o t with Some (_, t) => execs opens id next t | None => execs opens id next t end
      | _ => execs opens id next t
      end
  | PPipe failed ok =>
      match alloc (OPipe id false) t with
      | None => execs opens id failed t
      | Some (p0, t0) =>
          match alloc (OPipe id true) t0 with
          | None => execs opens id failed t
          | Some (p1, t1) => execs opens id (ok (Z.of_nat p0) (Z.of_nat p1)) t1
          end
      end
  | PFork _ child parent => execs opens (id ++ [false]) child t ++ execs opens (id ++ [true]) parent t
  | PExec argv _ => [(argv, t)]
  end.

End Sh.
