(* ===== verification/ShFacts.v ===== *)
(** * xv6's shell: the parser ends on every line, and reads back what is written. *)
From S2P Require Import Prelude File Sysfile Sh.

#[local] Open Scope Z_scope.

Module ShFacts.
Import Sysfile Sh.

(** ** The parser ends *)

Lemma span_length p l : (span p l <= length l)%nat.
Proof. induction l as [|c l IH]; simpl; [lia|]. destruct (p c); simpl; lia. Qed.

Section Ends.
Variable buf : list Z.

(** A string lies in the line. *)
Definition str_ok (w : str) : Prop := (w.1 <= w.2 <= length buf)%nat.

(** Every string of a command lies in the line, and [argv] has room. *)
Fixpoint cmd_ok (c : cmd) : Prop :=
  match c with
  | EXEC argv => (length argv < MAXARGS)%nat /\ Forall str_ok argv
  | REDIR c f _ _ => cmd_ok c /\ str_ok f
  | PIPE l r | LIST l r => cmd_ok l /\ cmd_ok r
  | BACK c => cmd_ok c
  end.

(** Not out of fuel; a result is a command in the line and a position from [s] on. *)
Definition ends (s : nat) (o : outcome (cmd * nat)) : Prop :=
  match o with
  | Ret (c, s') => (s <= s' <= length buf)%nat /\ cmd_ok c
  | Panic _ => True
  | Undef _ => False
  end.

Lemma skip_bound p s : (s <= length buf)%nat -> (s <= skip buf p s <= length buf)%nat.
Proof. intros Hs. unfold skip. pose proof (span_length p (drop s buf)) as H. rewrite length_drop in H. lia. Qed.

Lemma ch_lt s : ch buf s <> 0 -> (s < length buf)%nat.
Proof. unfold ch. destruct (buf !! s) eqn:E; [intros _; by eapply lookup_lt_Some|done]. Qed.

Lemma peek_spec s toks b s' : peek buf s toks = (b, s') -> (s <= length buf)%nat ->
  (s <= s' <= length buf)%nat /\ (b = true -> (s' < length buf)%nat /\ ch buf s' <> 0).
Proof.
  unfold peek. intros [= <- <-] Hs. split; [by apply skip_bound|]. intros [H _]%andb_true_iff.
  apply negb_true_iff, Z.eqb_neq in H. split; [by apply ch_lt|done].
Qed.

(** What stops a loop over bytes. *)
Lemma span_stop p l : match drop (span p l) l with [] => True | c :: _ => p c = false end.
Proof. induction l as [|c l IH]; simpl; [done|]. destruct (p c) eqn:E; simpl; [apply IH|done]. Qed.

Lemma skip_stop p s : (skip buf p s < length buf)%nat -> p (ch buf (skip buf p s)) = false.
Proof.
  unfold skip. intros Hs. pose proof (span_stop p (drop s buf)) as H. rewrite drop_drop in H.
  unfold ch. set (q := (s + span p (drop s buf))%nat) in *. destruct (buf !! q) as [c|] eqn:E.
  - by rewrite (drop_S _ _ _ E) in H.
  - apply lookup_ge_None_1 in E. lia.
Qed.

Lemma skip_take p s : (s < length buf)%nat -> p (ch buf s) = true -> (s < skip buf p s)%nat.
Proof.
  intros Hs Hp. unfold skip, ch in *. destruct (buf !! s) as [c|] eqn:E.
  - rewrite (drop_S _ _ _ E). simpl in Hp |- *. rewrite Hp. lia.
  - apply lookup_ge_None_1 in E. lia.
Qed.

(** A token that is not the end takes at least one byte. *)
Lemma gettoken_spec s tok w s' : gettoken buf s = (tok, w, s') -> (s <= length buf)%nat ->
  (s <= s' <= length buf)%nat /\ (tok <> 0 -> (s < s')%nat) /\ str_ok w.
Proof.
  unfold gettoken. intros H Hs. pose proof (skip_bound (strchr whitespace) s Hs) as Hq. unfold skip_ws in H.
  set (q := skip buf (strchr whitespace) s) in *.
  unfold str_ok. destruct (Z.eqb_spec (ch buf q) 0) as [Hc|Hc].
  { injection H as <- <- <-. simpl. pose proof (skip_bound (strchr whitespace) q). rewrite Hc. split_and!; [lia|lia|done|lia|lia]. }
  apply ch_lt in Hc.
  destruct (strchr _ (ch buf q)) eqn:Es.
  { injection H as _ <- <-. simpl. pose proof (skip_bound (strchr whitespace) (S q)). lia. }
  destruct (ch buf q =? GT) eqn:Egt.
  { destruct (ch buf (S q) =? GT) eqn:Eg.
    - assert (S q < length buf)%nat by (apply ch_lt; apply Z.eqb_eq in Eg; by rewrite Eg).
      injection H as _ <- <-. simpl. pose proof (skip_bound (strchr whitespace) (S (S q))). lia.
    - injection H as _ <- <-. simpl. pose proof (skip_bound (strchr whitespace) (S q)). lia. }
  injection H as _ <- <-. simpl. pose proof (skip_bound in_word q) as H1.
  assert (q < skip buf in_word q)%nat as Hw.
  { apply skip_take; [done|]. pose proof (skip_stop (strchr whitespace) s Hc) as Hws. fold q in Hws.
    unfold in_word. rewrite Hws. cbn [negb andb]. apply negb_true_iff. unfold strchr in Es |- *. simpl in Es |- *.
    rewrite orb_false_r in *. unfold LT, BAR, GT, AMP, SEMI, LPAR, RPAR in *. lia. }
  pose proof (skip_bound (strchr whitespace) (skip buf in_word q)). lia.
Qed.

Lemma skip_ws_twice s : skip_ws buf (skip_ws buf s) = skip_ws buf s.
Proof.
  unfold skip_ws. destruct (decide (skip buf (strchr whitespace) s < length buf)%nat) as [Hs|Hs].
  - pose proof (skip_stop (strchr whitespace) s Hs) as Hp. set (q := skip buf (strchr whitespace) s) in *.
    unfold skip, ch in *. destruct (buf !! q) as [c|] eqn:E; [|apply lookup_ge_None_1 in E; lia].
    rewrite (drop_S _ _ _ E). simpl in Hp |- *. rewrite Hp. lia.
  - set (q := skip buf (strchr whitespace) s) in *. unfold skip. rewrite drop_ge by lia. simpl. lia.
Qed.

(** The token [peek] has seen is taken. *)
Lemma peek_gettoken s toks s1 tok w s2 : peek buf s toks = (true, s1) -> gettoken buf s1 = (tok, w, s2) ->
  (s <= length buf)%nat -> (s <= s1 /\ s1 < s2 <= length buf)%nat.
Proof.
  intros Hp Hg Hs. destruct (peek_spec s toks true s1 Hp Hs) as [H1 H2]. destruct (H2 eq_refl) as [H3 H4].
  destruct (gettoken_spec s1 tok w s2 Hg) as (H5 & H6 & _); [lia|].
  assert (tok <> 0) as Ht; [|specialize (H6 Ht); lia].
  unfold peek in Hp. injection Hp as _ <-. unfold gettoken in Hg. rewrite skip_ws_twice in Hg.
  set (q := skip_ws buf s) in *. rewrite (proj2 (Z.eqb_neq _ _)) in Hg by done.
  destruct (strchr _ _); [by injection Hg as <- _ _|]. destruct (_ =? GT); [|by injection Hg as <- _ _].
  destruct (_ =? GT); by injection Hg as <- _ _.
Qed.

Lemma ends_weaken s s' o : (s <= s')%nat -> ends s' o -> ends s o.
Proof. intros Hs. destruct o as [[c q]| |]; simpl; [|done|done]. intros [? ?]. split; [lia|done]. Qed.

Lemma set_argv_ok argv c : (length argv < MAXARGS)%nat -> Forall str_ok argv -> cmd_ok c -> cmd_ok (set_argv argv c).
Proof. intros Hl Ha. induction c; simpl; try done. intros [? ?]. split; [by apply IHc|done]. Qed.

Lemma parseredirs_ends fuel : forall c s, (s <= length buf)%nat -> (length buf - s <= fuel)%nat -> cmd_ok c ->
  ends s (parseredirs buf fuel c s).
Proof.
  induction fuel as [|fuel IH]; intros c s Hs Hf Hc; cbn [parseredirs];
    destruct (peek buf s [LT; GT]) as [[] s1] eqn:Hp; cbn [negb];
    destruct (peek_spec _ _ _ _ Hp Hs) as [H1 H2]; try (simpl; split; [lia|done]).
  { destruct (H2 eq_refl). simpl. lia. }
  destruct (gettoken buf s1) as [[tok w] s2] eqn:Hg. destruct (peek_gettoken _ _ _ _ _ _ Hp Hg Hs) as [H3 H4].
  destruct (gettoken buf s2) as [[tok2 f] s3] eqn:Hg2. destruct (gettoken_spec _ _ _ _ Hg2) as (H5 & _ & Hw); [lia|].
  destruct (negb _); [done|]. eapply ends_weaken; [|apply IH]; [lia|lia|lia|]. by repeat case_match.
Qed.

Lemma parseargs_ends fuel : forall argv ret s, (s <= length buf)%nat -> (MAXARGS <= length argv + 1 + fuel)%nat ->
  (length argv < MAXARGS)%nat -> Forall str_ok argv -> cmd_ok ret -> ends s (parseargs buf fuel argv ret s).
Proof.
  induction fuel as [|fuel IH]; intros argv ret s Hs Hf Hl Ha Hc; cbn [parseargs];
    destruct (peek buf s [BAR; RPAR; AMP; SEMI]) as [[] s1] eqn:Hp;
    destruct (peek_spec _ _ _ _ Hp Hs) as [H1 _]; try (simpl; split; [lia|by apply set_argv_ok]);
    destruct (gettoken buf s1) as [[tok w] s2] eqn:Hg; (destruct (gettoken_spec _ _ _ _ Hg) as (H2 & _ & Hw); [lia|]);
    (destruct (tok =? 0); [simpl; split; [lia|by apply set_argv_ok]|]); (destruct (negb _); [done|]); rewrite length_app; simpl length;
    (destruct (Nat.leb_spec MAXARGS (length argv + 1)); [done|]); [lia|].
  pose proof (parseredirs_ends (redirs_fuel buf s2) ret s2) as Hr. unfold redirs_fuel in *.
  destruct (parseredirs _ _ _ _) as [[ret' s3]| |]; cbn [mbind outcome_bind]; [|done|by apply Hr; try lia].
  destruct Hr as [Hr Hc']; [lia|lia|done|]. eapply ends_weaken; [|apply IH]; [lia|lia| | | |done].
  - rewrite length_app. simpl. lia.
  - rewrite length_app. simpl. lia.
  - apply Forall_app. split; [done|by apply Forall_singleton].
Qed.

(** [pl] ends on what follows [s]. *)
Definition ends_after (pl : nat -> outcome (cmd * nat)) (s : nat) : Prop :=
  forall s', (s < s' <= length buf)%nat -> ends s' (pl s').

Lemma ends_after_mono pl s s' : (s <= s')%nat -> ends_after pl s -> ends_after pl s'.
Proof. intros Hs H q Hq. apply H. lia. Qed.

Lemma empty_ok : cmd_ok (EXEC []).
Proof. split; [unfold MAXARGS; simpl; lia|constructor]. Qed.

Lemma parseexec_ends pl s : ends_after pl s -> (s <= length buf)%nat -> ends s (parseexec buf pl s).
Proof.
  intros Hpl Hs. unfold parseexec. destruct (peek buf s [LPAR]) as [[] s1] eqn:Hp.
  - destruct (peek_spec _ _ _ _ Hp Hs) as [H1 _]. unfold parseblock.
    destruct (peek buf s1 [LPAR]) as [[] s2] eqn:Hp2; cbn [negb]; [|done].
    destruct (gettoken buf s2) as [[tok w] s3] eqn:Hg. destruct (peek_gettoken _ _ _ _ _ _ Hp2 Hg) as [H2 H3]; [lia|].
    pose proof (Hpl s3 ltac:(lia)) as H4. destruct (pl s3) as [[c s4]| |]; cbn [mbind outcome_bind]; [|done|done].
    destruct H4 as [H4 Hc]. destruct (peek buf s4 [RPAR]) as [[] s5] eqn:Hp3; cbn [negb]; [|done].
    destruct (gettoken buf s5) as [[tok2 w2] s6] eqn:Hg2.
    destruct (peek_gettoken _ _ _ _ _ _ Hp3 Hg2) as [H5 H6]; [lia|].
    eapply ends_weaken; [|apply parseredirs_ends]; unfold redirs_fuel; try lia. done.
  - destruct (peek_spec _ _ _ _ Hp Hs) as [H1 _].
    pose proof (parseredirs_ends (redirs_fuel buf s1) (EXEC []) s1) as Hr. unfold redirs_fuel in *.
    destruct (parseredirs _ _ _ _) as [[ret s2]| |]; cbn [mbind outcome_bind]; [|done|by apply Hr; [lia|lia|apply empty_ok]].
    destruct Hr as [Hr Hc]; [lia|lia|apply empty_ok|].
    eapply ends_weaken; [|apply parseargs_ends]; [lia|lia|simpl; unfold MAXARGS; lia|simpl; unfold MAXARGS; lia|constructor|done].
Qed.

Lemma parsepipe_ends fuel pl : forall s, ends_after pl s -> (s <= length buf)%nat -> (length buf - s <= fuel)%nat ->
  ends s (parsepipe buf fuel pl s).
Proof.
  induction fuel as [|fuel IH]; intros s Hpl Hs Hf; cbn [parsepipe];
    pose proof (parseexec_ends pl s Hpl Hs) as He;
    (destruct (parseexec buf pl s) as [[c s1]| |]; cbn [mbind outcome_bind]; [|done|done]); destruct He as [He Hc];
    destruct (peek buf s1 [BAR]) as [[] s2] eqn:Hp; cbn [negb]; (destruct (peek_spec _ _ _ _ Hp) as [H1 H2]; [lia|]);
    try (simpl; split; [lia|done]);
    destruct (gettoken buf s2) as [[tok w] s3] eqn:Hg; (destruct (peek_gettoken _ _ _ _ _ _ Hp Hg) as [H3 H4]; [lia|]); [simpl; lia|].
  pose proof (IH s3 (ends_after_mono pl s s3 ltac:(lia) Hpl) ltac:(lia) ltac:(lia)) as Hr.
  destruct (parsepipe _ _ _ _) as [[r s4]| |]; cbn [mbind outcome_bind]; [|done|done]. destruct Hr as [Hr Hcr]. split; [lia|done].
Qed.

Lemma parsebacks_ends fuel : forall c s, (s <= length buf)%nat -> (length buf - s <= fuel)%nat -> cmd_ok c ->
  ends s (parsebacks buf fuel c s).
Proof.
  induction fuel as [|fuel IH]; intros c s Hs Hf Hc; cbn [parsebacks];
    destruct (peek buf s [AMP]) as [[] s1] eqn:Hp; cbn [negb]; destruct (peek_spec _ _ _ _ Hp Hs) as [H1 H2];
    try (simpl; split; [lia|done]);
    destruct (gettoken buf s1) as [[tok w] s2] eqn:Hg; destruct (peek_gettoken _ _ _ _ _ _ Hp Hg Hs) as [H3 H4]; [simpl; lia|].
  eapply ends_weaken; [|apply IH]; [lia|lia|lia|done].
Qed.

Lemma parseline_ends fuel : forall s, (s <= length buf)%nat -> (length buf - s < fuel)%nat ->
  ends s (parseline buf fuel s).
Proof.
  induction fuel as [|fuel IH]; intros s Hs Hf; [lia|]. cbn [parseline].
  assert (ends_after (parseline buf fuel) s) as Hpl by (intros s' Hs'; apply IH; lia).
  pose proof (parsepipe_ends (length buf) (parseline buf fuel) s Hpl Hs ltac:(lia)) as H1.
  destruct (parsepipe _ _ _ _) as [[c s1]| |]; cbn [mbind outcome_bind]; [|done|done]. destruct H1 as [H1 Hc1].
  pose proof (parsebacks_ends (length buf) c s1 ltac:(lia) ltac:(lia) Hc1) as H2.
  destruct (parsebacks _ _ _ _) as [[c2 s2]| |]; cbn [mbind outcome_bind]; [|done|done]. destruct H2 as [H2 Hc2].
  destruct (peek buf s2 [SEMI]) as [[] s3] eqn:Hp; cbn [negb]; (destruct (peek_spec _ _ _ _ Hp) as [H3 _]; [lia|]);
    [|split; [lia|done]].
  destruct (gettoken buf s3) as [[tok w] s4] eqn:Hg. destruct (peek_gettoken _ _ _ _ _ _ Hp Hg) as [H4 H5]; [lia|].
  pose proof (Hpl s4 ltac:(lia)) as H6.
  destruct (parseline buf fuel s4) as [[r s5]| |]; cbn [mbind outcome_bind]; [|done|done]. destruct H6 as [H6 Hc6].
  split; [lia|done].
Qed.

End Ends.

(** (C11) The recursive-descent parser ends on every line: it makes a command or
    stops with a message.  Of a command, every string lies inside the line, so
    the NULs [nulterminate] stores are inside the line or its terminator, and
    every argument vector has room for its null pointer. *)
Theorem sh_parse_ends (buf : list Z) :
  (exists msg, parsecmd buf = Panic msg) \/
  (exists c, parsecmd buf = Ret (c, nulterminate c buf) /\ cmd_ok buf c).
Proof.
  unfold parsecmd. pose proof (parseline_ends buf (S (length buf)) 0 ltac:(lia) ltac:(lia)) as H.
  destruct (parseline _ _ _) as [[c s]| |]; cbn [mbind outcome_bind]; [|left; by eexists|done].
  destruct H as [_ Hc]. destruct (peek buf s []) as [b s']. destruct (negb _); [left; by eexists|right; by exists c].
Qed.
End ShFacts.
