(* ===== verification/ShRun.v ===== *)
(** * xv6's shell: a command written as a line is read back as that command. *)
From S2P Require Import Prelude File Sysfile Sh ShFacts.

#[local] Open Scope Z_scope.

Module ShRun.
Import File Sysfile Sh ShFacts.

(** ** Commands with their strings *)

Inductive scmd :=
| SEXEC (args : list (list Z))
| SREDIR (c : scmd) (file : list Z) (mode fd : Z)
| SPIPE (left right : scmd)
| SLIST (left right : scmd)
| SBACK (c : scmd).

Fixpoint denote (b : list Z) (c : cmd) : scmd :=
  match c with
  | EXEC argv => SEXEC ((fun w => cstr b w.1) <$> argv)
  | REDIR c f m d => SREDIR (denote b c) (cstr b f.1) m d
  | PIPE l r => SPIPE (denote b l) (denote b r)
  | LIST l r => SLIST (denote b l) (denote b r)
  | BACK c => SBACK (denote b c)
  end.

Definition word (w : list Z) : Prop := w <> [] /\ Forall (fun c => c <> 0 /\ in_word c = true) w.

Definition M_TRUNC : Z := Z.lor O_WRONLY (Z.lor O_CREATE O_TRUNC).
Definition M_APPEND : Z := Z.lor O_WRONLY O_CREATE.

Definition redir_ok (m d : Z) : Prop := (m = O_RDONLY /\ d = 0) \/ (m = M_TRUNC /\ d = 1) \/ (m = M_APPEND /\ d = 1).

Fixpoint wf (c : scmd) : Prop :=
  match c with
  | SEXEC args => Forall word args /\ (length args < MAXARGS)%nat
  | SREDIR c f m d => wf c /\ word f /\ redir_ok m d
  | SPIPE l r | SLIST l r => wf l /\ wf r
  | SBACK c => wf c
  end.

(** ** Writing a command: a space after every token *)

Definition SP : Z := 32.
Definition sym (c : Z) : list Z := [c; SP].
Definition redir_tok (m : Z) : list Z :=
  if m =? O_RDONLY then [LT; SP] else if m =? M_TRUNC then [GT; SP] else [GT; GT; SP].
Definition words (args : list (list Z)) : list Z := concat ((fun a => a ++ [SP]) <$> args).
Definition paren (b : bool) (t : list Z) : list Z := if b then sym LPAR ++ t ++ sym RPAR else t.

(** [lvl] is what the command is a part of: 0 a line, 1 what may be followed by
    an ampersand, 2 a pipeline, 3 a command of a pipeline. *)
Fixpoint show (lvl : nat) (c : scmd) : list Z :=
  match c with
  | SEXEC args => words args
  | SREDIR c f m _ => show 3 c ++ redir_tok m ++ f ++ [SP]
  | SPIPE l r => paren (2 <? lvl)%nat (show 3 l ++ sym BAR ++ show 2 r)
  | SBACK c => paren (1 <? lvl)%nat (show 1 c ++ sym AMP)
  | SLIST l r => paren (0 <? lvl)%nat (show 1 l ++ sym SEMI ++ show 0 r)
  end.

(** ** Reading tokens at a place in the line *)

Definition clean (t : list Z) : Prop := match t with [] => True | c :: _ => strchr whitespace c = false end.
Definition follow (toks t : list Z) : Prop := match t with [] => True | c :: _ => strchr toks c = true end.

Lemma strchr_in toks c : strchr toks c = true -> c ∈ toks.
Proof. unfold strchr. intros (x & Hx & He)%existsb_exists. apply Z.eqb_eq in He as ->. by apply list_elem_of_In. Qed.

Lemma follow_clean toks t : forallb (strchr symbols) toks = true -> follow toks t -> clean t.
Proof.
  intros Ht. destruct t as [|c t]; [done|]. simpl. intros Hc%strchr_in. rewrite forallb_forall in Ht.
  specialize (Ht c ltac:(by apply list_elem_of_In)). apply strchr_in in Ht. unfold symbols in Ht.
  rewrite !elem_of_cons in Ht. by destruct Ht as [->|[->|[->|[->|[->|[->|[->|[]%elem_of_nil]]]]]]].
Qed.

Lemma clean_show d : forall lvl t, wf d -> clean t -> clean (show lvl d ++ t).
Proof.
  assert (forall b u t, (forall t, clean t -> clean (u ++ t)) -> clean t -> clean (paren b u ++ t)) as Hpar.
  { intros [] u t Hu Ht; simpl; [done|by apply Hu]. }
  induction d as [args|c IH f m d|l IHl r IHr|l IHl r IHr|c IH]; intros lvl t Hwf Ht; cbn [show wf] in *.
  - destruct args as [|a args]; [done|]. destruct Hwf as [[Ha _]%Forall_cons _]. destruct Ha as [Hne Ha].
    destruct a as [|c a]; [done|]. apply Forall_cons in Ha as [[_ Hc] _]. unfold in_word in Hc.
    change (strchr whitespace c = false). by destruct (strchr whitespace c).
  - rewrite <- app_assoc. apply IH; [apply Hwf|]. unfold redir_tok. by repeat case_match.
  - apply Hpar; [|done]. intros u Hu. rewrite <- app_assoc. apply IHl; [apply Hwf|done].
  - apply Hpar; [|done]. intros u Hu. rewrite <- app_assoc. apply IHl; [apply Hwf|done].
  - apply Hpar; [|done]. intros u Hu. rewrite <- app_assoc. apply IH; [apply Hwf|done].
Qed.

Section Read.
Variable buf : list Z.

Lemma drop_at s a t : drop s buf = a ++ t -> drop (s + length a) buf = t.
Proof. intros H. by rewrite <- drop_drop, H, drop_app_length. Qed.

Lemma ch_at s c t : drop s buf = c :: t -> ch buf s = c.
Proof. intros H. unfold ch. rewrite <- (Nat.add_0_r s), <- lookup_drop, H. done. Qed.

Lemma ch_end s : drop s buf = [] -> ch buf s = 0.
Proof. intros H. unfold ch. rewrite <- (Nat.add_0_r s), <- lookup_drop, H. done. Qed.

Lemma skip_ws_at s t : drop s buf = t -> clean t -> skip_ws buf s = s.
Proof. intros H Ht. unfold skip_ws, skip. rewrite H. destruct t as [|c t]; simpl in *; [lia|]. rewrite Ht. lia. Qed.

Lemma skip_ws_sp s t : drop s buf = SP :: t -> clean t -> skip_ws buf s = S s.
Proof.
  intros H Ht. unfold skip_ws, skip. rewrite H. change (span _ (SP :: t)) with (S (span (strchr whitespace) t)).
  destruct t as [|c t]; simpl in *; [lia|]. rewrite Ht. lia.
Qed.

Lemma peek_at s t toks : drop s buf = t -> clean t ->
  peek buf s toks = (match t with [] => false | c :: _ => negb (c =? 0) && strchr toks c end, s).
Proof.
  intros H Ht. unfold peek. rewrite (skip_ws_at s t H Ht). destruct t as [|c t].
  - by rewrite (ch_end s H).
  - by rewrite (ch_at s c t H).
Qed.

Lemma gettoken_sym s c t : drop s buf = c :: SP :: t -> clean t -> c ∈ [BAR; LPAR; RPAR; SEMI; AMP; LT] ->
  gettoken buf s = (c, (s, S s), S (S s)) /\ drop (S (S s)) buf = t.
Proof.
  intros H Ht Hc. assert (drop (S s) buf = SP :: t) as H1 by (rewrite <- Nat.add_1_r; by apply (drop_at s [c])).
  split; [|rewrite <- Nat.add_1_r; by apply (drop_at (S s) [SP])].
  unfold gettoken. rewrite (skip_ws_at s _ H); [|by repeat (apply elem_of_cons in Hc as [->|Hc]; [done|]); apply elem_of_nil in Hc].
  rewrite (ch_at s c _ H).
  repeat (apply elem_of_cons in Hc as [->|Hc]; [simpl; by rewrite (skip_ws_sp _ t H1)|]). by apply elem_of_nil in Hc.
Qed.

Lemma gettoken_gt s t : drop s buf = GT :: SP :: t -> clean t ->
  gettoken buf s = (GT, (s, S s), S (S s)) /\ drop (S (S s)) buf = t.
Proof.
  intros H Ht. assert (drop (S s) buf = SP :: t) as H1 by (rewrite <- Nat.add_1_r; by apply (drop_at s [GT])).
  split; [|rewrite <- Nat.add_1_r; by apply (drop_at (S s) [SP])].
  unfold gettoken. rewrite (skip_ws_at s _ H) by done. rewrite (ch_at s GT _ H), (ch_at (S s) SP _ H1). simpl.
  by rewrite (skip_ws_sp _ t H1).
Qed.

Lemma gettoken_gtgt s t : drop s buf = GT :: GT :: SP :: t -> clean t ->
  gettoken buf s = (PLUS, (s, S (S s)), S (S (S s))) /\ drop (S (S (S s))) buf = t.
Proof.
  intros H Ht. assert (drop (S s) buf = GT :: SP :: t) as H0 by (rewrite <- Nat.add_1_r; by apply (drop_at s [GT])).
  assert (drop (S (S s)) buf = SP :: t) as H1 by (rewrite <- Nat.add_1_r; by apply (drop_at (S s) [GT])).
  split; [|rewrite <- Nat.add_1_r; by apply (drop_at (S (S s)) [SP])].
  unfold gettoken. rewrite (skip_ws_at s _ H) by done. rewrite (ch_at s GT _ H), (ch_at (S s) GT _ H0). simpl.
  by rewrite (skip_ws_sp _ t H1).
Qed.

(** [w] are the places of the word [a], which a space follows. *)
Definition tok_at (w : str) (a : list Z) : Prop :=
  word a /\ w.2 = (w.1 + length a)%nat /\ exists u, drop w.1 buf = a ++ SP :: u.

Lemma span_app p a t : Forall (fun c => p c = true) a -> match t with [] => True | c :: _ => p c = false end ->
  span p (a ++ t) = length a.
Proof.
  intros Ha Ht. induction Ha as [|c a Hc _ IH]; simpl; [destruct t; [done|simpl; by rewrite Ht]|].
  by rewrite Hc, IH.
Qed.

Lemma gettoken_word s a t : drop s buf = a ++ SP :: t -> word a -> clean t ->
  gettoken buf s = (WORD, (s, (s + length a)%nat), S (s + length a)) /\
  drop (S (s + length a)) buf = t /\ tok_at (s, (s + length a)%nat) a.
Proof.
  intros H Hw Ht. pose proof (drop_at s a (SP :: t) H) as H1.
  split_and!; [|rewrite <- Nat.add_1_r; by apply (drop_at _ [SP])|split_and!; [done|done|by exists t]].
  destruct Hw as [Hne Ha]. destruct a as [|c a]; [done|].
  pose proof Ha as Ha'. apply Forall_cons in Ha' as [[Hc0 Hc] _].
  assert (strchr whitespace c = false /\ strchr symbols c = false) as [Hws Hsy].
  { unfold in_word in Hc. by destruct (strchr whitespace c), (strchr symbols c). }
  unfold gettoken. rewrite (skip_ws_at s _ H) by done. rewrite (ch_at s c _ H).
  rewrite (proj2 (Z.eqb_neq _ _)) by done. 
  assert (strchr [BAR; LPAR; RPAR; SEMI; AMP; LT] c = false /\ (c =? GT) = false) as [-> ->].
  { unfold strchr in *. simpl in *. rewrite !orb_false_iff in Hsy. rewrite !orb_false_iff. tauto. }
  assert (skip buf in_word s = (s + length (c :: a))%nat) as ->.
  { unfold skip. rewrite H. f_equal. apply span_app; [|done]. eapply Forall_impl; [exact Ha|]. by intros x [_ ?]. }
  by rewrite (skip_ws_sp _ t H1).
Qed.

(** ** Redirections *)

Definition wraps (c : cmd) (ws : list (str * Z * Z)) : cmd :=
  foldl (fun c w => REDIR c w.1.1 w.1.2 w.2) c ws.

Definition redirs (rs : list (list Z * Z * Z)) : list Z :=
  concat ((fun r => redir_tok r.1.2 ++ r.1.1 ++ [SP]) <$> rs).

Definition matched (w : str * Z * Z) (r : list Z * Z * Z) : Prop :=
  tok_at w.1.1 r.1.1 /\ w.1.2 = r.1.2 /\ w.2 = r.2.

Definition redir_wf (r : list Z * Z * Z) : Prop := word r.1.1 /\ redir_ok r.1.2 r.2.

(** What is inside all the redirections, and these, innermost first. *)
Fixpoint base (d : scmd) : scmd := match d with SREDIR c _ _ _ => base c | _ => d end.
Fixpoint layers (d : scmd) : list (list Z * Z * Z) :=
  match d with SREDIR c f m k => layers c ++ [(f, m, k)] | _ => [] end.

Fixpoint reads (c : cmd) (d : scmd) : Prop :=
  match c, d with
  | EXEC ws, SEXEC args => Forall2 tok_at ws args
  | REDIR c f m k, SREDIR d a m' k' => reads c d /\ tok_at f a /\ m = m' /\ k = k'
  | PIPE l r, SPIPE l' r' | LIST l r, SLIST l' r' => reads l l' /\ reads r r'
  | BACK c, SBACK d => reads c d
  | _, _ => False
  end.

Lemma show_base d : show 3 d = show 3 (base d) ++ redirs (layers d).
Proof.
  induction d as [args|c IH f m k|l _ r _|l _ r _|c _]; cbn [base layers]; try (by rewrite app_nil_r).
  cbn [show]. rewrite IH. unfold redirs. rewrite fmap_app, List.concat_app. simpl. by rewrite app_nil_r, <- app_assoc.
Qed.

Lemma wf_base d : wf d -> wf (base d) /\ Forall redir_wf (layers d).
Proof.
  induction d as [args|c IH f m k|l _ r _|l _ r _|c _]; cbn [base layers]; try (by split).
  intros (Hc & Hf & Hm). destruct (IH Hc) as [H1 H2]. split; [done|]. apply Forall_app. split; [done|]. by apply Forall_singleton.
Qed.

Lemma reads_wraps d : forall c ws, reads c (base d) -> Forall2 matched ws (layers d) -> reads (wraps c ws) d.
Proof.
  induction d as [args|d IH f m k|l _ r _|l _ r _|d _]; cbn [base layers]; intros c ws Hr Hm;
    try (apply Forall2_nil_inv_r in Hm as ->; done).
  apply Forall2_app_inv_r in Hm as (ws1 & ws2 & H1 & H2 & ->). apply Forall2_cons_inv_r in H2 as (w & ws3 & Hw & H3 & ->).
  apply Forall2_nil_inv_r in H3 as ->. unfold wraps. rewrite foldl_app. simpl. destruct Hw as (? & ? & ?). split_and!; [|done..].
  by apply IH.
Qed.

Lemma set_argv_wraps argv ws : forall c, set_argv argv (wraps c ws) = wraps (set_argv argv c) ws.
Proof. induction ws as [|w ws IH]; intros c; [done|]. simpl. by rewrite IH. Qed.

Lemma clean_word a t : word a -> clean (a ++ t).
Proof.
  intros [Hne Ha]. destruct a as [|c a]; [done|]. apply Forall_cons in Ha as [[_ Hc] _]. unfold in_word in Hc.
  change (strchr whitespace c = false). by destruct (strchr whitespace c).
Qed.

Lemma clean_redirs rs t : clean t -> clean (redirs rs ++ t).
Proof. destruct rs as [|r rs]; [done|]. intros _. unfold redirs, redir_tok. simpl. by repeat case_match. Qed.

Lemma redirs_length rs : (length rs <= length (redirs rs))%nat.
Proof.
  unfold redirs. induction rs as [|r rs IH]; [simpl; lia|]. rewrite fmap_cons. cbn [concat]. rewrite !length_app. simpl. lia.
Qed.

Lemma drop_length s a t : drop s buf = a ++ t -> (length a <= length buf - s)%nat.
Proof. intros H. apply (f_equal length) in H. rewrite length_drop, length_app in H. lia. Qed.

(** No redirection follows. *)
Definition no_redir (t : list Z) : Prop := match t with [] => True | c :: _ => strchr [LT; GT] c = false end.

Lemma parseredirs_at rs : forall fuel c s t, (length rs <= fuel)%nat -> drop s buf = redirs rs ++ t ->
  clean t -> no_redir t -> Forall redir_wf rs ->
  exists ws, parseredirs buf fuel c s = Ret (wraps c ws, (s + length (redirs rs))%nat) /\ Forall2 matched ws rs.
Proof.
  induction rs as [|[[f m] k] rs IH]; intros fuel c s t Hf Hs Ht Hn Hwf.
  { exists []. split; [|constructor]. change (drop s buf = t) in Hs. simpl. rewrite Nat.add_0_r.
    destruct fuel; cbn [parseredirs]; rewrite (peek_at s t _ Hs Ht); (destruct t as [|b t]; [done|]);
      simpl in Hn; change (strchr [LT; GT] b = false) in Hn; by rewrite Hn, andb_false_r. }
  destruct fuel as [|fuel]; [simpl in Hf; lia|]. apply Forall_cons in Hwf as [[Hw Hm] Hwf]. cbn [fst snd] in Hw, Hm.
  pose proof (clean_redirs rs t Ht) as Hc.
  change (redirs ((f, m, k) :: rs)) with ((redir_tok m ++ f ++ [SP]) ++ redirs rs) in *.
  rewrite <- !app_assoc in Hs. cbn [app] in Hs.
  assert (exists tok s1, peek buf s [LT; GT] = (true, s) /\ (gettoken buf s).1.1 = tok /\ (gettoken buf s).2 = s1 /\
    s1 = (s + length (redir_tok m))%nat /\
    (forall q, (if tok =? LT then REDIR c q O_RDONLY 0 else if tok =? GT then REDIR c q (Z.lor O_WRONLY (Z.lor O_CREATE O_TRUNC)) 1
       else if tok =? PLUS then REDIR c q (Z.lor O_WRONLY O_CREATE) 1 else c) = REDIR c q m k)) as (tok & s1 & Hp & Ht1 & Hs1 & Hl & Hcmd).
  { pose proof (clean_word f (SP :: redirs rs ++ t) Hw) as Hcw. destruct Hm as [[-> ->]|[[-> ->]|[-> ->]]].
    - destruct (gettoken_sym s LT _ Hs Hcw) as [Hg _]; [by repeat constructor|]. exists LT. eexists. rewrite Hg.
      split_and!; [by rewrite (peek_at s _ _ Hs)|done|done|simpl; lia|done].
    - destruct (gettoken_gt s _ Hs Hcw) as [Hg _]. exists GT. eexists. rewrite Hg.
      split_and!; [by rewrite (peek_at s _ _ Hs)|done|done|simpl; lia|done].
    - destruct (gettoken_gtgt s _ Hs Hcw) as [Hg _]. exists PLUS. eexists. rewrite Hg.
      split_and!; [by rewrite (peek_at s _ _ Hs)|done|done|simpl; lia|done]. }
  cbn [parseredirs]. rewrite Hp. cbn [negb]. destruct (gettoken buf s) as [[tok' w'] s1']. cbn [fst snd] in Ht1, Hs1. subst tok' s1'.
  pose proof (drop_at s (redir_tok m) _ Hs) as H1. rewrite <- Hl in H1.
  destruct (gettoken_word s1 f _ H1 Hw Hc) as (Hg2 & H2 & Htok). rewrite Hg2. cbn [negb]. 
  change (WORD =? WORD) with true. cbn [negb]. rewrite Hcmd.
  destruct (IH fuel (REDIR c (s1, (s1 + length f)%nat) m k) _ t ltac:(simpl in Hf; lia) H2 Ht Hn Hwf) as (ws & -> & Hws).
  exists ((s1, (s1 + length f)%nat, m, k) :: ws). split; [|by constructor].
  do 2 f_equal. rewrite !length_app. simpl. lia.
Qed.

(** ** Words *)

Definition F3 : list Z := [BAR; RPAR; AMP; SEMI].

Lemma follow3 t : follow F3 t -> clean t /\ no_redir t.
Proof.
  intros H. split; [by apply (follow_clean F3)|]. destruct t as [|c t]; [done|]. apply (strchr_in F3) in H.
  unfold F3 in H. rewrite !elem_of_cons in H. by destruct H as [->|[->|[->|[->|[]%elem_of_nil]]]].
Qed.

Lemma parseargs_stop fuel argv ret s t : drop s buf = t -> follow F3 t ->
  parseargs buf fuel argv ret s = Ret (set_argv argv ret, s).
Proof.
  intros Hs Hf. destruct (follow3 t Hf) as [Hc _]. destruct t as [|c t].
  - destruct fuel; cbn [parseargs]; rewrite (peek_at s [] _ Hs Hc); unfold gettoken;
      rewrite (skip_ws_at s [] Hs Hc), (ch_end s Hs); simpl; by rewrite (skip_ws_at s [] Hs Hc).
  - simpl in Hf. change (strchr F3 c = true) in Hf. assert (c <> 0) as H0.
    { intros ->. done. }
    destruct fuel; cbn [parseargs]; rewrite (peek_at s _ _ Hs Hc), (proj2 (Z.eqb_neq _ _)) by done; unfold F3 in Hf; by rewrite Hf.
Qed.

Lemma clean_words args t : Forall word args -> clean t -> clean (words args ++ t).
Proof.
  destruct args as [|a args]; [done|]. intros [Ha _]%Forall_cons _. unfold words. simpl. rewrite <- !app_assoc.
  by apply clean_word.
Qed.

Lemma word_head a t toks : word a -> forallb (strchr symbols) toks = true ->
  exists c u, a ++ t = c :: u /\ c <> 0 /\ strchr toks c = false.
Proof.
  intros [Hne Ha] Htoks. destruct a as [|c a]; [done|]. apply Forall_cons in Ha as [[H0 Hc] _].
  exists c, (a ++ t). split_and!; [done|done|]. destruct (strchr toks c) eqn:E; [|done]. apply strchr_in in E.
  rewrite forallb_forall in Htoks. specialize (Htoks c ltac:(by apply list_elem_of_In)).
  unfold in_word in Hc. rewrite Htoks in Hc. by rewrite andb_false_r in Hc.
Qed.

Lemma words_no_redir args rs t : args <> [] -> Forall word args -> no_redir (words args ++ redirs rs ++ t).
Proof.
  destruct args as [|a args]; [done|]. intros _ [Ha _]%Forall_cons.
  change (words (a :: args)) with ((a ++ [SP]) ++ words args). rewrite <- !app_assoc.
  by destruct (word_head a ([SP] ++ words args ++ redirs rs ++ t) [LT; GT] Ha eq_refl) as (c & u & -> & _ & Hc).
Qed.

Lemma parseargs_at args : forall fuel argv ret s rs t, args <> [] -> (length argv + length args < MAXARGS)%nat ->
  (length args <= fuel)%nat -> drop s buf = words args ++ redirs rs ++ t -> follow F3 t ->
  Forall word args -> Forall redir_wf rs ->
  exists ws wr, parseargs buf fuel argv ret s =
      Ret (set_argv (argv ++ ws) (wraps ret wr), (s + length (words args) + length (redirs rs))%nat) /\
    Forall2 tok_at ws args /\ Forall2 matched wr rs.
Proof.
  induction args as [|a args IH]; intros fuel argv ret s rs t Hne Hlen Hf Hs Hfol Hw Hrs; [done|].
  destruct fuel as [|fuel]; [simpl in Hf; lia|]. destruct (follow3 t Hfol) as [Hct Hnt].
  apply Forall_cons in Hw as [Ha Hw].
  change (words (a :: args)) with ((a ++ [SP]) ++ words args) in *. rewrite <- !app_assoc in Hs. cbn [app] in Hs.
  cbn [parseargs]. rewrite (peek_at s _ _ Hs) by by apply clean_word.
  destruct (word_head a (SP :: words args ++ redirs rs ++ t) F3 Ha eq_refl) as (c0 & u0 & E0 & _ & Hc0).
  rewrite E0. unfold F3 in Hc0. rewrite Hc0, andb_false_r.
  pose proof (clean_words args _ Hw (clean_redirs rs t Hct)) as Hc.
  destruct (gettoken_word s a _ Hs Ha Hc) as (Hg & H2 & Htok). rewrite Hg.
  change (WORD =? 0) with false. change (negb (WORD =? WORD)) with false. cbv iota.
  rewrite length_app. simpl length in *. rewrite (proj2 (Nat.leb_gt _ _)) by lia.
  destruct args as [|a2 args].
  - destruct (parseredirs_at rs (redirs_fuel buf (S (s + length a))) ret (S (s + length a)) t) as (wr & -> & Hwr); [|done..|].
    { unfold redirs_fuel. pose proof (drop_length _ (redirs rs) t H2). pose proof (redirs_length rs). lia. }
    cbn [mbind outcome_bind]. rewrite (parseargs_stop _ _ _ _ t); [|by apply (drop_at _ (redirs rs))|done].
    exists [(s, (s + length a)%nat)], wr. split_and!; [|by constructor|done]. do 2 f_equal.
    rewrite !length_app. simpl. lia.
  - destruct (parseredirs_at [] (redirs_fuel buf (S (s + length a))) ret (S (s + length a)) (words (a2 :: args) ++ redirs rs ++ t))
      as (wr0 & Hr0 & Hw0); [simpl; lia|exact H2|exact Hc|by apply words_no_redir|constructor|].
    apply Forall2_nil_inv_r in Hw0 as ->. simpl wraps in Hr0. change (length (redirs [])) with 0%nat in Hr0. rewrite Nat.add_0_r in Hr0.
    rewrite Hr0. cbn [mbind outcome_bind].
    destruct (IH fuel (argv ++ [(s, (s + length a)%nat)]) ret (S (s + length a)) rs t) as (ws & wr & E & Hws & Hwr);
      [done|rewrite length_app; simpl in *; lia|simpl in *; lia|exact H2|done..|].
    exists ((s, (s + length a)%nat) :: ws), wr. split_and!; [|by constructor|done].
    etrans; [exact E|]. rewrite <- app_assoc. do 2 f_equal. rewrite !length_app. simpl. lia.
Qed.

(** ** The levels of the grammar *)

Definition F2 : list Z := [RPAR; AMP; SEMI].
Definition F1 : list Z := [RPAR; SEMI].
Definition F0 : list Z := [RPAR].

Lemma follow_sub A B t : forallb (strchr B) A = true -> follow A t -> follow B t.
Proof.
  intros H. destruct t as [|c t]; [done|]. simpl. intros Hc%strchr_in. rewrite forallb_forall in H.
  apply H. by apply list_elem_of_In.
Qed.

(** [peek] answers no when something else follows. *)
Lemma peek_no s t toks A : drop s buf = t -> clean t -> follow A t -> forallb (fun c => negb (strchr toks c)) A = true ->
  peek buf s toks = (false, s).
Proof.
  intros Hs Ht Hf HA. rewrite (peek_at s t toks Hs Ht). destruct t as [|c t]; [done|]. simpl in Hf. apply strchr_in in Hf.
  rewrite forallb_forall in HA. specialize (HA c ltac:(by apply list_elem_of_In)). apply negb_true_iff in HA.
  by rewrite HA, andb_false_r.
Qed.

(** [peek] and [gettoken] of an operator. *)
Lemma take_sym s c t toks : drop s buf = sym c ++ t -> clean t -> c ∈ [BAR; LPAR; RPAR; SEMI; AMP; LT] ->
  strchr toks c = true ->
  peek buf s toks = (true, s) /\ gettoken buf s = (c, (s, S s), (s + 2)%nat) /\ drop (s + 2) buf = t.
Proof.
  intros Hs Ht Hc Hin. destruct (gettoken_sym s c t Hs Ht Hc) as [Hg Hd].
  replace (s + 2)%nat with (S (S s)) by lia. split_and!; [|done|done].
  rewrite (peek_at s _ toks Hs); [|by repeat (apply elem_of_cons in Hc as [->|Hc]; [done|]); apply elem_of_nil in Hc].
  simpl. rewrite Hin. by repeat (apply elem_of_cons in Hc as [->|Hc]; [done|]); apply elem_of_nil in Hc.
Qed.

Definition P3 (d : scmd) : Prop := forall f s t, drop s buf = show 3 d ++ t -> follow F3 t -> (length (show 3 d) <= f)%nat ->
  exists c, parseexec buf (parseline buf f) s = Ret (c, (s + length (show 3 d))%nat) /\ reads c d.

Definition P2 (d : scmd) : Prop := forall fp f s t, drop s buf = show 2 d ++ t -> follow F2 t ->
  (length (show 2 d) <= f)%nat -> (length (show 2 d) <= fp)%nat ->
  exists c, parsepipe buf fp (parseline buf f) s = Ret (c, (s + length (show 2 d))%nat) /\ reads c d.

(** The pipeline, then [n] ampersands. *)
Definition P1 (d : scmd) : Prop := forall f s t, drop s buf = show 1 d ++ t -> follow F2 t -> (length (show 1 d) <= f)%nat ->
  exists c1 s1 c n, parsepipe buf (length buf) (parseline buf f) s = Ret (c1, s1) /\ (n <= length (show 1 d))%nat /\
    (forall fb, parsebacks buf (n + fb) c1 s1 = parsebacks buf fb c (s + length (show 1 d))%nat) /\ reads c d.

Definition P0 (d : scmd) : Prop := forall f s t, drop s buf = show 0 d ++ t -> follow F0 t -> (length (show 0 d) < f)%nat ->
  exists c, parseline buf f s = Ret (c, (s + length (show 0 d))%nat) /\ reads c d.

(** A simple command and its redirections. *)
Lemma parse_words d args : base d = SEXEC args -> wf d -> P3 d.
Proof.
  intros Hb Hwf f s t Hs Hfol _. destruct (wf_base d Hwf) as [Hwb Hrs]. rewrite Hb in Hwb. destruct Hwb as [Hw Hlen].
  rewrite show_base, Hb in Hs |- *. change (show 3 (SEXEC args)) with (words args) in *. set (rs := layers d) in *.
  rewrite <- app_assoc in Hs. destruct (follow3 t Hfol) as [Hct Hnt].
  pose proof (clean_words args _ Hw (clean_redirs rs t Hct)) as Hc. unfold parseexec.
  assert (peek buf s [LPAR] = (false, s)) as ->.
  { rewrite (peek_at s _ _ Hs Hc). destruct args as [|a args].
    - destruct rs as [|[[g m] k] rs].
      + change (words [] ++ redirs [] ++ t) with t. destruct t as [|c t]; [done|]. apply (strchr_in F3) in Hfol. clear -Hfol. unfold F3 in Hfol.
        repeat (apply elem_of_cons in Hfol as [->|Hfol]; [done|]). by apply elem_of_nil in Hfol.
      + change (redirs ((g, m, k) :: rs)) with ((redir_tok m ++ g ++ [SP]) ++ redirs rs). unfold redir_tok.
        destruct (m =? O_RDONLY); [done|]. by destruct (m =? M_TRUNC).
    - apply Forall_cons in Hw as [Ha _]. change (words (a :: args)) with ((a ++ [SP]) ++ words args). rewrite <- !app_assoc.
      destruct (word_head a ([SP] ++ words args ++ redirs rs ++ t) [LPAR] Ha eq_refl) as (c & u & -> & _ & Hx).
      by rewrite Hx, andb_false_r. }
  destruct args as [|a args].
  - destruct (parseredirs_at rs (redirs_fuel buf s) (EXEC []) s t) as (wr & -> & Hwr); [|done..|].
    { unfold redirs_fuel. pose proof (drop_length _ (redirs rs) t Hs). pose proof (redirs_length rs). lia. }
    cbn [mbind outcome_bind]. rewrite (parseargs_stop _ _ _ _ t); [|by apply (drop_at _ (redirs rs))|done].
    rewrite set_argv_wraps. eexists. split; [by rewrite length_app|]. apply reads_wraps; [by rewrite Hb; constructor|done].
  - destruct (parseredirs_at [] (redirs_fuel buf s) (EXEC []) s (words (a :: args) ++ redirs rs ++ t))
      as (wr0 & Hr0 & Hw0); [simpl; lia|exact Hs|exact Hc|by apply words_no_redir|constructor|].
    apply Forall2_nil_inv_r in Hw0 as ->. simpl wraps in Hr0. change (length (redirs [])) with 0%nat in Hr0.
    rewrite Nat.add_0_r in Hr0. rewrite Hr0. cbn [mbind outcome_bind].
    destruct (parseargs_at (a :: args) MAXARGS [] (EXEC []) s rs t) as (ws & wr & E & Hws & Hwr);
      [done|done|lia|exact Hs|done..|].
    rewrite E, set_argv_wraps. eexists. split; [rewrite length_app; do 2 f_equal; lia|].
    apply reads_wraps; [by rewrite Hb|done].
Qed.

(** A command in parentheses and its redirections. *)
Lemma parse_paren d : show 3 (base d) = sym LPAR ++ show 0 (base d) ++ sym RPAR -> wf d -> P0 (base d) -> P3 d.
Proof.
  intros Hb Hwf IH f s t Hs Hfol Hf. destruct (wf_base d Hwf) as [Hwb Hrs].
  rewrite show_base, Hb in Hs, Hf |- *. set (b := base d) in *. set (rs := layers d) in *.
  destruct (follow3 t Hfol) as [Hct Hnt]. rewrite <- !app_assoc in Hs. rewrite !length_app in Hf |- *. simpl length in Hf |- *.
  pose proof (clean_redirs rs t Hct) as Hcr.
  destruct (take_sym s LPAR _ [LPAR] Hs) as (Hp & Hg & H1); [by apply clean_show|by repeat constructor|done|].
  unfold parseexec. rewrite Hp. unfold parseblock. rewrite Hp. cbn [negb]. rewrite Hg.
  destruct (IH f (s + 2)%nat (sym RPAR ++ redirs rs ++ t) H1 eq_refl ltac:(lia)) as (c & -> & Hc).
  cbn [mbind outcome_bind]. pose proof (drop_at _ _ _ H1) as H2.
  destruct (take_sym _ RPAR _ [RPAR] H2 Hcr) as (Hp2 & Hg2 & H3); [by repeat constructor|done|].
  rewrite Hp2. cbn [negb]. rewrite Hg2.
  destruct (parseredirs_at rs (redirs_fuel buf (s + 2 + length (show 0 b) + 2)) c (s + 2 + length (show 0 b) + 2)%nat t) as (wr & -> & Hwr); [|done..|].
  { unfold redirs_fuel. pose proof (drop_length _ (redirs rs) t H3). pose proof (redirs_length rs). lia. }
  eexists. split; [do 2 f_equal; lia|]. by apply reads_wraps.
Qed.

Lemma parse_pipe l r : wf l -> wf r -> P3 l -> P2 r -> P2 (SPIPE l r).
Proof.
  intros Hl Hr H3 H2 fp f s t Hs Hfol Hf Hfp. cbn [show] in Hs, Hf, Hfp |- *. change (2 <? 2)%nat with false in *.
  cbn [paren] in *. rewrite <- !app_assoc in Hs. rewrite !length_app in *. simpl length in *.
  destruct fp as [|fp]; [lia|]. cbn [parsepipe].
  destruct (H3 f s (sym BAR ++ show 2 r ++ t) Hs eq_refl ltac:(lia)) as (c & -> & Hc). cbn [mbind outcome_bind].
  pose proof (drop_at _ _ _ Hs) as H1.
  destruct (take_sym _ BAR _ [BAR] H1) as (Hp & Hg & H4); [apply clean_show; [done|by apply (follow_clean F2)]|by repeat constructor|done|].
  rewrite Hp. cbn [negb]. rewrite Hg. destruct (H2 fp f _ t H4 Hfol ltac:(lia) ltac:(lia)) as (c2 & -> & Hc2).
  cbn [mbind outcome_bind]. eexists. split; [do 2 f_equal; lia|by split].
Qed.

Lemma parse_no_pipe d : show 2 d = show 3 d -> P3 d -> P2 d.
Proof.
  intros He H3 fp f s t Hs Hfol Hf Hfp. rewrite He in *. pose proof (follow_sub F2 F3 t eq_refl Hfol) as Hf3.
  destruct (H3 f s t Hs Hf3 Hf) as (c & Hp & Hc). exists c. split; [|done].
  destruct fp; cbn [parsepipe]; rewrite Hp; cbn [mbind outcome_bind];
    by rewrite (peek_no _ t [BAR] F2 (drop_at _ _ _ Hs) (follow_clean F2 t eq_refl Hfol) Hfol eq_refl).
Qed.

Lemma parse_back d : wf d -> P1 d -> P1 (SBACK d).
Proof.
  intros Hd H1 f s t Hs Hfol Hf. cbn [show] in Hs, Hf |- *. change (1 <? 1)%nat with false in *. cbn [paren] in *.
  rewrite <- app_assoc in Hs. rewrite length_app in *. simpl length in *.
  destruct (H1 f s (sym AMP ++ t) Hs eq_refl ltac:(lia)) as (c1 & s1 & c & n & Hp & Hn & Hb & Hc).
  exists c1, s1, (BACK c), (n + 1)%nat. split_and!; [done|lia| |done]. intros fb.
  rewrite <- Nat.add_assoc, Hb. cbn [parsebacks Nat.add].
  destruct (take_sym _ AMP t [AMP] (drop_at _ _ _ Hs) (follow_clean F2 t eq_refl Hfol)) as (Hp2 & Hg & _); [by repeat constructor|done|].
  rewrite Hp2. cbn [negb]. rewrite Hg. f_equal. lia.
Qed.

Lemma parse_no_back d : show 1 d = show 2 d -> P2 d -> P1 d.
Proof.
  intros He H2 f s t Hs Hfol Hf. rewrite He in *.
  pose proof (drop_length s (show 2 d) t Hs) as Hl.
  destruct (H2 (length buf) f s t Hs Hfol Hf ltac:(lia)) as (c & Hp & Hc).
  exists c, (s + length (show 2 d))%nat, c, 0%nat. split_and!; [done|lia|done|done].
Qed.

(** The end of [parseline]'s loop. *)
Lemma backs_stop n c1 s1 c s t : (forall fb, parsebacks buf (n + fb) c1 s1 = parsebacks buf fb c s) ->
  (n <= length buf)%nat -> drop s buf = t -> follow F1 t -> parsebacks buf (length buf) c1 s1 = Ret (c, s).
Proof.
  intros Hb Hn Hs Hf. replace (length buf) with (n + (length buf - n))%nat by lia. rewrite Hb.
  destruct (length buf - n)%nat; cbn [parsebacks];
    by rewrite (peek_no s t [AMP] F1 Hs (follow_clean F1 t eq_refl Hf) Hf eq_refl).
Qed.

Lemma parse_list l r : wf l -> wf r -> P1 l -> P0 r -> P0 (SLIST l r).
Proof.
  intros Hl Hr H1 H0 f s t Hs Hfol Hf. cbn [show] in Hs, Hf |- *. change (0 <? 0)%nat with false in *. cbn [paren] in *.
  rewrite <- !app_assoc in Hs. rewrite !length_app in *. simpl length in *. destruct f as [|f]; [lia|]. cbn [parseline].
  destruct (H1 f s (sym SEMI ++ show 0 r ++ t) Hs eq_refl ltac:(lia)) as (c1 & s1 & c & n & -> & Hn & Hb & Hc).
  cbn [mbind outcome_bind]. pose proof (drop_length s (show 1 l) _ Hs) as Hlen. pose proof (drop_at _ _ _ Hs) as H2.
  rewrite (backs_stop n c1 s1 c _ _ Hb ltac:(lia) H2 eq_refl). cbn [mbind outcome_bind].
  destruct (take_sym _ SEMI _ [SEMI] H2) as (Hp & Hg & H3); [apply clean_show; [done|by apply (follow_clean F0)]|by repeat constructor|done|].
  rewrite Hp. cbn [negb]. rewrite Hg. destruct (H0 f _ t H3 Hfol ltac:(lia)) as (c2 & -> & Hc2). cbn [mbind outcome_bind].
  eexists. split; [do 2 f_equal; lia|by split].
Qed.

Lemma parse_no_list d : show 0 d = show 1 d -> P1 d -> P0 d.
Proof.
  intros He H1 f s t Hs Hfol Hf. rewrite He in *. destruct f as [|f]; [lia|]. cbn [parseline].
  destruct (H1 f s t Hs (follow_sub F0 F2 t eq_refl Hfol) ltac:(lia)) as (c1 & s1 & c & n & -> & Hn & Hb & Hc).
  cbn [mbind outcome_bind]. pose proof (drop_length s (show 1 d) _ Hs) as Hlen. pose proof (drop_at _ _ _ Hs) as H2.
  rewrite (backs_stop n c1 s1 c _ t Hb ltac:(lia) H2 (follow_sub F0 F1 t eq_refl Hfol)). cbn [mbind outcome_bind].
  rewrite (peek_no _ t [SEMI] F0 H2 (follow_clean F0 t eq_refl Hfol) Hfol eq_refl). cbn [negb]. by exists c.
Qed.

Lemma parse_show_line d : wf d -> P0 d /\ P1 d /\ P2 d /\ P3 d /\ P0 (base d).
Proof.
  induction d as [args|d IH g m k|l IHl r IHr|l IHl r IHr|d IH]; intros Hwf; cbn [base].
  - assert (P3 (SEXEC args)) as H3 by by apply (parse_words _ args).
    pose proof (parse_no_pipe (SEXEC args) eq_refl H3) as H2. pose proof (parse_no_back (SEXEC args) eq_refl H2) as H1.
    pose proof (parse_no_list (SEXEC args) eq_refl H1) as H0. done.
  - pose proof Hwf as (Hd & _). destruct (IH Hd) as (_ & _ & _ & _ & Hb0).
    assert (P3 (SREDIR d g m k)) as H3.
    { destruct (base d) as [args| | | |] eqn:E; [by apply (parse_words _ args)| |..];
        (apply parse_paren; [cbn [base]; rewrite E; try done|done|cbn [base]; by rewrite E]).
      exfalso. clear -E. revert E. induction d; simpl; try done. }
    pose proof (parse_no_pipe (SREDIR d g m k) eq_refl H3) as H2. pose proof (parse_no_back (SREDIR d g m k) eq_refl H2) as H1.
    pose proof (parse_no_list (SREDIR d g m k) eq_refl H1) as H0. done.
  - destruct Hwf as [Hl Hr]. destruct (IHl Hl) as (_ & _ & _ & H3l & _). destruct (IHr Hr) as (_ & _ & H2r & _).
    pose proof (parse_pipe l r Hl Hr H3l H2r) as H2. pose proof (parse_no_back (SPIPE l r) eq_refl H2) as H1.
    pose proof (parse_no_list (SPIPE l r) eq_refl H1) as H0.
    assert (P3 (SPIPE l r)) by (by apply parse_paren). done.
  - destruct Hwf as [Hl Hr]. destruct (IHl Hl) as (_ & H1l & _). destruct (IHr Hr) as (H0r & _).
    pose proof (parse_list l r Hl Hr H1l H0r) as H0. assert (P3 (SLIST l r)) as H3 by (by apply parse_paren).
    pose proof (parse_no_pipe (SLIST l r) eq_refl H3) as H2. pose proof (parse_no_back (SLIST l r) eq_refl H2) as H1. done.
  - destruct (IH Hwf) as (_ & H1d & _). pose proof (parse_back d Hwf H1d) as H1.
    pose proof (parse_no_list (SBACK d) eq_refl H1) as H0. assert (P3 (SBACK d)) as H3 by (by apply parse_paren).
    pose proof (parse_no_pipe (SBACK d) eq_refl H3) as H2. done.
Qed.

(** ** Cutting the words out *)

Fixpoint toks (c : cmd) : list str :=
  match c with
  | EXEC argv => argv
  | REDIR c f _ _ => toks c ++ [f]
  | PIPE l r | LIST l r => toks l ++ toks r
  | BACK c => toks c
  end.

Definition cuts (b : list Z) (L : list str) : list Z := foldl (fun b w => cut w b) b L.

Lemma nulterminate_cuts c : forall b, nulterminate c b = cuts b (toks c).
Proof.
  induction c as [argv|c IH f m k|l IHl r IHr|l IHl r IHr|c IH]; intros b; simpl; [done| |..|done].
  - unfold cuts. rewrite foldl_app, IH. done.
  - unfold cuts in *. by rewrite foldl_app, IHl, IHr.
  - unfold cuts in *. by rewrite foldl_app, IHl, IHr.
Qed.

Lemma length_cuts L : forall b, length (cuts b L) = length b.
Proof. induction L as [|w L IH]; intros b; [done|]. unfold cuts in *. cbn [foldl]. rewrite IH. apply length_insert. Qed.

Lemma lookup_cuts L : forall b j, (j < length b)%nat -> cuts b L !! j = if decide (j ∈ L.*2) then Some 0 else b !! j.
Proof.
  induction L as [|w L IH]; intros b j Hj; [by rewrite decide_False by apply not_elem_of_nil|].
  unfold cuts in *. cbn [foldl]. rewrite fmap_cons, IH by (unfold cut; by rewrite length_insert). unfold cut.
  destruct (decide (j ∈ L.*2)) as [Hin|Hin]; [by rewrite decide_True by (by right)|].
  destruct (decide (w.2 = j)) as [->|Hne].
  - rewrite list_lookup_insert_eq by done. by rewrite decide_True by (by left).
  - rewrite list_lookup_insert_ne by done. rewrite decide_False; [done|]. intros [->|?]%elem_of_cons; done.
Qed.

Lemma tok_lookup w a : tok_at w a -> buf !! w.2 = Some SP /\ (forall i c, a !! i = Some c -> buf !! (w.1 + i)%nat = Some c).
Proof.
  intros (_ & Hw & u & Hu). split.
  - rewrite Hw, <- lookup_drop, Hu, lookup_app_r, Nat.sub_diag by lia. done.
  - intros i c Hi. rewrite <- lookup_drop, Hu. by apply lookup_app_l_Some.
Qed.

Lemma cstr_cuts L w a : (forall v, v ∈ L -> exists b, tok_at v b) -> w ∈ L -> tok_at w a -> cstr (cuts buf L) w.1 = a.
Proof.
  intros HL Hin Hw. destruct (tok_lookup w a Hw) as [Hsp Ha]. pose proof Hw as ([Hne Hall] & Hw2 & _).
  assert (forall i c, a !! i = Some c -> cuts buf L !! (w.1 + i)%nat = Some c) as Hk.
  { intros i c Hi. rewrite lookup_cuts by (by eapply lookup_lt_Some, Ha). rewrite decide_False; [by apply Ha|].
    intros (v & Hv & Hvl)%list_elem_of_fmap. destruct (HL v Hvl) as [b Hb]. destruct (tok_lookup v b Hb) as [Hs _].
    rewrite <- Hv, (Ha i c Hi) in Hs. injection Hs as ->. eapply Forall_lookup_1 in Hall as [_ Hc]; [|exact Hi]. done. }
  assert (drop w.1 (cuts buf L) = a ++ 0 :: drop (S w.2) (cuts buf L)) as Hd.
  { apply list_eq. intros i. rewrite lookup_drop. destruct (decide (i < length a)%nat) as [Hi|Hi].
    - rewrite lookup_app_l by done. apply lookup_lt_is_Some_2 in Hi as [c Hc]. by rewrite Hc, (Hk i c Hc).
    - rewrite lookup_app_r by lia. destruct (decide (i = length a)) as [->|Hi2].
      + rewrite Nat.sub_diag, <- Hw2. simpl. rewrite lookup_cuts by by eapply lookup_lt_Some.
        rewrite decide_True; [done|]. by apply list_elem_of_fmap_2.
      + destruct (i - length a)%nat as [|j] eqn:E; [lia|]. simpl. rewrite lookup_drop. f_equal. lia. }
  unfold cstr. rewrite Hd, (span_app _ a); [by rewrite take_app_length| |done].
  eapply Forall_impl; [exact Hall|]. intros c [Hc _]. by rewrite (proj2 (Z.eqb_neq _ _)).
Qed.

Lemma reads_toks c : forall d w, reads c d -> w ∈ toks c -> exists a, tok_at w a.
Proof.
  induction c as [argv|c IH f m k|l IHl r IHr|l IHl r IHr|c IH]; intros [args|d g m' k'|l' r'|l' r'|d] w; simpl; try done.
  - intros H [i Hi]%list_elem_of_lookup. destruct (Forall2_lookup_l _ _ _ _ _ H Hi) as (a & _ & Ha). by exists a.
  - intros (Hc & Hf & _) [H|H]%elem_of_app; [by eapply IH|]. apply list_elem_of_singleton in H as ->. by exists g.
  - intros [Hl Hr] [H|H]%elem_of_app; [by eapply IHl|by eapply IHr].
  - intros [Hl Hr] [H|H]%elem_of_app; [by eapply IHl|by eapply IHr].
  - intros Hc H. by eapply IH.
Qed.

Lemma denote_reads L : (forall v, v ∈ L -> exists b, tok_at v b) ->
  forall c d, reads c d -> (forall w, w ∈ toks c -> w ∈ L) -> denote (cuts buf L) c = d.
Proof.
  intros HL. induction c as [argv|c IH f m k|l IHl r IHr|l IHl r IHr|c IH]; intros [args|d g m' k'|l' r'|l' r'|d]; simpl; try done.
  - intros H Hin. f_equal. induction H as [|w a argv args Hw _ IHa]; [done|]. simpl.
    rewrite (cstr_cuts L w a HL) by (done || (apply Hin; by left)). f_equal. apply IHa. intros v Hv. apply Hin. by right.
  - intros (Hc & Hf & <- & <-) Hin. rewrite (IH d Hc) by (intros v Hv; apply Hin, elem_of_app; by left).
    rewrite (cstr_cuts L f g HL); [done| |done]. apply Hin, elem_of_app. right. by apply list_elem_of_singleton.
  - intros [Hl Hr] Hin. rewrite (IHl l' Hl), (IHr r' Hr); [done|intros v Hv; apply Hin, elem_of_app; by right|].
    intros v Hv; apply Hin, elem_of_app; by left.
  - intros [Hl Hr] Hin. rewrite (IHl l' Hl), (IHr r' Hr); [done|intros v Hv; apply Hin, elem_of_app; by right|].
    intros v Hv; apply Hin, elem_of_app; by left.
  - intros Hc Hin. by rewrite (IH d Hc).
Qed.

End Read.

(** (C9) Every command of the shell's grammar (words, redirections in any number
    around any command, pipelines, lists, background commands, nested to any depth)
    that is written as a line, with parentheses where the grammar needs them, is
    parsed as exactly that command, and after [nulterminate] each of its strings is the C
    string it was written as. *)
Theorem sh_parse_roundtrip (d : scmd) : wf d ->
  exists c b, parsecmd (show 0 d) = Ret (c, b) /\ denote b c = d.
Proof.
  intros Hwf. set (buf := show 0 d). destruct (parse_show_line buf d Hwf) as (H0 & _).
  destruct (H0 (S (length buf)) 0%nat []) as (c & Hp & Hc); [unfold buf; by rewrite drop_0, app_nil_r|done|unfold buf; lia|].
  exists c, (nulterminate c buf). unfold parsecmd. rewrite Hp. cbn [mbind outcome_bind]. simpl (0 + _)%nat. fold buf.
  rewrite (peek_at buf (length buf) [] []) by (done || by apply drop_all). rewrite Nat.eqb_refl. cbn [negb]. split; [done|].
  rewrite nulterminate_cuts. apply denote_reads; [|done|done]. intros v Hv. by eapply reads_toks.
Qed.

(** [( a b > f | c & ) >> g ; d] *)
Definition demo_command : scmd :=
  SLIST (SREDIR (SBACK (SPIPE (SREDIR (SEXEC [[98]; [99]]) [102] M_TRUNC 1) (SEXEC [[100]]))) [103] M_APPEND 1) (SEXEC [[101]]).

Lemma sh_parse_roundtrip_witness : exists c b, parsecmd (show 0 demo_command) = Ret (c, b) /\ denote b c = demo_command.
Proof.
  apply sh_parse_roundtrip. cbn [wf demo_command]. unfold word, redir_ok, MAXARGS.
  repeat first [split|apply Forall_cons|apply Forall_nil|done|simpl; lia|by left|right; by left|by right; right|reflexivity].
Defined.

(** ** What a command means *)

(** The programs of a command with their standard input and output: a
    redirection replaces one of them, unless an inner one does again, the ends of a
    pipeline are connected, everything else is inherited. *)
Fixpoint meaning (opens : list Z -> Z -> bool) (id : list bool) (c : scmd) (i o : obj) : list (list (list Z) * obj * obj) :=
  match c with
  | SEXEC [] => []
  | SEXEC args => [(args, i, o)]
  | SREDIR c f m d =>
      if opens f m then
        if d =? 0 then meaning opens id c (OFile f m) o else meaning opens id c i (OFile f m)
      else []
  | SPIPE l r =>
      meaning opens (id ++ [false]) l i (OPipe id true) ++
      meaning opens ((id ++ [true]) ++ [false]) r (OPipe id false) o
  | SLIST l r => meaning opens (id ++ [false]) l i o ++ meaning opens (id ++ [true]) r i o
  | SBACK c => meaning opens (id ++ [false]) c i o
  end.

(** Descriptors 0, 1 and 2, and nothing else. *)
Definition table (e i o : obj) : fds := Some i :: Some o :: Some e :: replicate (NOFILE - 3) None.

(** (C10) Running a command gives every program of it the standard input and
    output its place in the command says, for pipelines, redirections, lists and
    background commands nested in any way, and standard error is the shell's; no program
    holds any other descriptor, so no end of a pipe stays open in a process
    that does not use it. *)
Theorem sh_runs_meaning (opens : list Z -> Z -> bool) (id : list bool) (b : list Z) (c : cmd) (e i o : obj) :
  wf (denote b c) ->
  execs opens id (runcmd b c) (table e i o) =
  (fun x => (x.1.1, table e x.1.2 x.2)) <$> meaning opens id (denote b c) i o.
Proof.
  revert id i o. induction c as [argv|c IH f m d|l IHl r IHr|l IHl r IHr|c IH]; intros id i o Hwf; cbn [runcmd denote meaning].
  - by destruct argv as [|w argv].
  - destruct Hwf as (Hc & _ & Hm). assert (d = 0 \/ d = 1) as Hd by (unfold redir_ok in Hm; tauto).
    cbn [execs]. destruct (opens _ m) eqn:Eo; [|by destruct Hd as [-> | ->]].
    destruct Hd as [-> | ->]; [apply (IH id (OFile _ m) o Hc)|apply (IH id i (OFile _ m) Hc)].
  - destruct Hwf as [Hl Hr]. rewrite fmap_app, <- (IHl _ _ _ Hl), <- (IHr _ _ _ Hr). cbn. by rewrite app_nil_r.
  - destruct Hwf as [Hl Hr]. rewrite fmap_app, <- (IHl _ _ _ Hl), <- (IHr _ _ _ Hr). done.
  - cbn [execs fork1]. by rewrite (IH _ _ _ Hwf), app_nil_r.
Qed.

Lemma sh_runs_meaning_witness :
  execs (fun _ _ => true) [] (runcmd [97; 0; 98; 0] (PIPE (EXEC [(0, 1)%nat]) (EXEC [(2, 3)%nat])))
    (table (OOther 2) (OOther 0) (OOther 1)) =
  [([[97]], table (OOther 2) (OOther 0) (OPipe [] true)); ([[98]], table (OOther 2) (OPipe [] false) (OOther 1))].
Proof.
  assert (word [97] /\ word [98]) as [Ha Hb] by (split; (split; [done|by repeat constructor])).
  apply (sh_runs_meaning (fun _ _ => true) [] [97; 0; 98; 0] (PIPE (EXEC [(0, 1)%nat]) (EXEC [(2, 3)%nat]))).
  split; (split; [by repeat constructor|unfold MAXARGS; simpl; lia]).
Defined.

(** Of two redirections of one descriptor the first in the line counts. *)
Lemma first_redirection_wins opens id args f g i o : args <> [] -> opens f M_TRUNC = true -> opens g M_TRUNC = true ->
  meaning opens id (SREDIR (SREDIR (SEXEC args) f M_TRUNC 1) g M_TRUNC 1) i o = [(args, i, OFile f M_TRUNC)].
Proof. intros Ha Hf Hg. destruct args as [|a args]; [done|]. cbn [meaning]. by rewrite Hg, Hf. Qed.

(** [cd ab] at the end of the input, without a newline: the last letter of the
    directory is cut off in its place. *)
Lemma cd_chops_last : main_line [99; 100; 32; 97; 98] = (Cd [97], []).
Proof. reflexivity. Qed.

End ShRun.
