(* ===== verification/Printf.v ===== *)
(** * Formatted output (xv6-memory-management: kernel/printf.c, user/printf.c,
    and atoi of user/ulib.c; the files are the same in xv6-scheduling)

    A format is the list of its bytes before the NUL, a variable argument a
    [Z] that [va_arg] converts to the type it asks for, or a string.  The result is the
    list of the ints passed to consputc or putc, in order; it is [Undef] to ask for an
    argument that is not there, or to store outside the buffer of [printint]. *)
From S2P Require Import Prelude.

#[local] Open Scope Z_scope.

Module Printf.

(** "0123456789abcdef" in the kernel, with capitals in user programs. *)
Definition kdigits : list Z := [48; 49; 50; 51; 52; 53; 54; 55; 56; 57; 97; 98; 99; 100; 101; 102].
Definition udigits : list Z := [48; 49; 50; 51; 52; 53; 54; 55; 56; 57; 65; 66; 67; 68; 69; 70].

Definition digit (digits : list Z) (d : Z) : Z := default 0 (digits !! Z.to_nat d).

(** [do { buf[i++] = digits[x % base]; } while((x /= base) != 0);] *)
Fixpoint put_digits (fuel : nat) (digits : list Z) (base x : Z) : list Z :=
  digit digits (x mod base) ::
  match fuel with
  | O => []
  | S fuel => if x / base =? 0 then [] else put_digits fuel digits base (x / base)
  end.

Definition BUFLEN : nat := 20.

(** [xx] is a long long; [- xx] wraps around.  The two versions differ in the
    digits only. *)
Definition printint (digits : list Z) (xx base : Z) (sign : bool) : outcome (list Z) :=
  let neg := sign && (xx <? 0) in
  let x := u64 (if neg then i64 (- xx) else xx) in
  let buf := put_digits 63 digits base x ++ (if neg then [45] else []) in
  if (BUFLEN <? length buf)%nat then Undef "printint: buf" else Ret (reverse buf).

(** [for(i = 0; i < 16; i++, x <<= 4)] *)
Fixpoint nibbles (n : nat) (digits : list Z) (x : Z) : list Z :=
  match n with
  | O => []
  | S n => digit digits (Z.shiftr x 60) :: nibbles n digits (u64 (Z.shiftl x 4))
  end.

Definition printptr (digits : list Z) (x : Z) : list Z := [48; 120] ++ nibbles 16 digits x.

Inductive arg := Num (v : Z) | Str (s : option (list Z)).

Definition num (args : list arg) : outcome (Z * list arg) :=
  match args with Num v :: args => Ret (v, args) | _ => Undef "va_arg" end.

Definition str (args : list arg) : outcome (list Z * list arg) :=
  match args with
  | Str s :: args => Ret (default [40; 110; 117; 108; 108; 41] s, args)     (* "(null)" *)
  | _ => Undef "va_arg"
  end.

(** What follows a percent sign: an integer of a type, in a base; with how many
    more bytes of the format. *)
Inductive conv :=
| CInt (ty : Z -> Z) (base : Z) (sign : bool)
| CPtr | CChar | CStr | CPercent
| CUnknown.

Definition longlong (v : Z) : Z := i64 (u64 v).

Definition conversion (c0 c1 c2 : Z) : conv * nat :=
  if c0 =? 100 then (CInt i32 10 true, 0%nat)                                              (* d *)
  else if (c0 =? 108) && (c1 =? 100) then (CInt longlong 10 true, 1%nat)                   (* ld *)
  else if (c0 =? 108) && (c1 =? 108) && (c2 =? 100) then (CInt longlong 10 true, 2%nat)    (* lld *)
  else if c0 =? 117 then (CInt u32 10 false, 0%nat)                                        (* u *)
  else if (c0 =? 108) && (c1 =? 117) then (CInt longlong 10 false, 1%nat)
  else if (c0 =? 108) && (c1 =? 108) && (c2 =? 117) then (CInt longlong 10 false, 2%nat)
  else if c0 =? 120 then (CInt u32 16 false, 0%nat)                                        (* x *)
  else if (c0 =? 108) && (c1 =? 120) then (CInt longlong 16 false, 1%nat)
  else if (c0 =? 108) && (c1 =? 108) && (c2 =? 120) then (CInt longlong 16 false, 2%nat)
  else if c0 =? 112 then (CPtr, 0%nat)
  else if c0 =? 99 then (CChar, 0%nat)
  else if c0 =? 115 then (CStr, 0%nat)
  else if c0 =? 37 then (CPercent, 0%nat)
  else (CUnknown, 0%nat).

Definition convert (digits : list Z) (c : conv) (c0 : Z) (args : list arg) : outcome (list Z * list arg) :=
  match c with
  | CInt ty base sign => '(v, args) ← num args; out ← printint digits (ty v) base sign; Ret (out, args)
  | CPtr => '(v, args) ← num args; Ret (printptr digits (u64 v), args)
  | CChar => '(v, args) ← num args; Ret ([i32 v], args)
  | CStr => str args
  | CPercent => Ret ([37], args)
  | CUnknown => Ret ([37; c0], args)
  end.

(** What reaches the uart or the file for an int: the kernel's [consputc] takes
    0x100 for an erased character, the user's [putc] takes a char. *)
Definition BACKSPACE : Z := 256.
Definition consputc (c : Z) : list Z := if c =? BACKSPACE then [8; 32; 8] else [u8 c].
Definition putc (c : Z) : list Z := [u8 c].

(** The next bytes of the format, NUL at its end. *)
Definition c1_of (f : list Z) : Z := default 0 (f !! 0%nat).
Definition c2_of (f : list Z) : Z := if c1_of f =? 0 then 0 else default 0 (f !! 1%nat).

(** The kernel's [printf], with the index [i] as the rest of the format. *)
Fixpoint kprintf (digits : list Z) (fmt : list Z) (args : list arg) : outcome (list Z) :=
  match fmt with
  | [] => Ret []
  | cx :: fmt =>
      if negb (cx =? 37) then out ← kprintf digits fmt args; Ret (cx :: out)
      else
        match fmt with
        | [] => Ret []
        | c0 :: fmt =>
            let '(c, more) := conversion c0 (c1_of fmt) (c2_of fmt) in
            '(here, args) ← convert digits c c0 args;
            out ← match more, fmt with
                  | 1%nat, _ :: fmt => kprintf digits fmt args
                  | 2%nat, _ :: _ :: fmt => kprintf digits fmt args
                  | _, _ => kprintf digits fmt args
                  end;
            Ret (here ++ out)
        end
  end.

(** The user's [vprintf]: [state] is '%' after a percent sign. *)
Fixpoint vprintf (digits : list Z) (fmt : list Z) (state : bool) (args : list arg) : outcome (list Z) :=
  match fmt with
  | [] => Ret []
  | c0 :: fmt =>
      if negb state then
        if c0 =? 37 then vprintf digits fmt true args
        else out ← vprintf digits fmt false args; Ret (c0 :: out)
      else
        let '(c, more) := conversion c0 (c1_of fmt) (c2_of fmt) in
        '(here, args) ← convert digits c c0 args;
        out ← match more, fmt with
              | 1%nat, _ :: fmt => vprintf digits fmt false args
              | 2%nat, _ :: _ :: fmt => vprintf digits fmt false args
              | _, _ => vprintf digits fmt false args
              end;
        Ret (here ++ out)
  end.

(** [atoi] of ulib.c: the int arithmetic wraps around. *)
Fixpoint atoi_from (n : Z) (s : list Z) : Z :=
  match s with
  | c :: s => if (48 <=? c) && (c <=? 57) then atoi_from (i32 (n * 10 + c - 48)) s else n
  | [] => n
  end.

Definition atoi (s : list Z) : Z := atoi_from 0 s.

End Printf.
