(* ===== verification/PrintfFacts.v ===== *)
(** * Formatted output: digits, the buffer of printint, and the two printfs

    [printint] prints exactly its number and stays in its buffer, [atoi] reads a
    printed number back, and the kernel's printf puts out what the user's does. *)
From S2P Require Import Prelude Printf.
Import Printf.

#[local] Open Scope Z_scope.

Module PrintfFacts.

(** ** Digits *)

(** The values of the digits [put_digits] stores, least significant first. *)
Fixpoint digs (fuel : nat) (base x : Z) : list Z :=
  x mod base ::
  match fuel with
  | O => []
  | S fuel => if x / base =? 0 then [] else digs fuel base (x / base)
  end.

Fixpoint value (base : Z) (ds : list Z) : Z :=
  match ds with [] => 0 | d :: ds => d + base * value base ds end.

Lemma put_digits_digs digits fuel base x :
  put_digits fuel digits base x = digit digits <$> digs fuel base x.
Proof.
  revert x. induction fuel as [|fuel IH]; intros x; [done|]. cbn [put_digits digs].
  rewrite fmap_cons. f_equal. case_match; [done|]. apply IH.
Qed.

Lemma div_lt_pow base n x : 2 <= base -> 0 <= x < base ^ Z.of_nat (S n) -> 0 <= x / base < base ^ Z.of_nat n.
Proof.
  intros Hb Hx. rewrite Nat2Z.inj_succ, Z.pow_succ_r in Hx by lia.
  split; [apply Z.div_pos; lia|]. apply Z.div_lt_upper_bound; lia.
Qed.

Lemma digs_value fuel base x :
  2 <= base -> 0 <= x < base ^ Z.of_nat (S fuel) -> value base (digs fuel base x) = x.
Proof.
  intros Hb. revert x. induction fuel as [|fuel IH]; intros x Hx; cbn [digs value].
  - rewrite Z.pow_1_r in Hx. rewrite Z.mod_small; lia.
  - pose proof (Z.div_mod x base ltac:(lia)) as Hd. destruct (Z.eqb_spec (x / base) 0) as [E|E].
    + cbn [value]. lia.
    + rewrite IH by (by apply div_lt_pow). lia.
Qed.

Lemma digs_range fuel base x : 0 < base -> Forall (fun d => 0 <= d < base) (digs fuel base x).
Proof.
  intros Hb. revert x. induction fuel as [|fuel IH]; intros x; cbn [digs];
    (constructor; [by apply Z.mod_pos_bound|]); [done|]. case_match; [done|apply IH].
Qed.

Lemma digs_length fuel base x n :
  2 <= base -> 0 <= x < base ^ Z.of_nat (S n) -> (length (digs fuel base x) <= S n)%nat.
Proof.
  intros Hb. revert x n. induction fuel as [|fuel IH]; intros x n Hx; cbn [digs length]; [lia|].
  destruct (Z.eqb_spec (x / base) 0) as [E|E]; [simpl; lia|].
  destruct n as [|n].
  - rewrite Z.pow_1_r in Hx. by rewrite Z.div_small in E by lia.
  - specialize (IH (x / base) n (div_lt_pow _ _ _ Hb Hx)). lia.
Qed.

(** No leading zero. *)
Lemma digs_last fuel base x :
  2 <= base -> 0 < x < base ^ Z.of_nat (S fuel) -> last (digs fuel base x) <> Some 0.
Proof.
  intros Hb. revert x. induction fuel as [|fuel IH]; intros x Hx; cbn [digs].
  - rewrite Z.pow_1_r in Hx. cbn [last]. rewrite Z.mod_small by lia. intros [= ->]. lia.
  - destruct (Z.eqb_spec (x / base) 0) as [E|E].
    + cbn [last]. apply Z.div_small_iff in E; [|lia]. rewrite Z.mod_small by lia. intros [= ->]. lia.
    + pose proof (div_lt_pow base (S fuel) x Hb ltac:(lia)) as Hd.
      specialize (IH (x / base) ltac:(lia)).
      destruct (digs fuel base (x / base)) as [|y l] eqn:El; [by destruct fuel|].
      rewrite last_cons. destruct (last (y :: l)) eqn:Ell; [done|]. by apply last_None in Ell.
Qed.

Lemma pow64 base : 2 <= base -> 2 ^ 64 <= base ^ Z.of_nat 64.
Proof. intros Hb. apply Z.pow_le_mono_l. lia. Qed.

(** What [printint] divides: a magnitude, and whether there is a sign. *)
Definition negative (xx : Z) (sign : bool) : bool := sign && (xx <? 0).
Definition magnitude (xx : Z) (sign : bool) : Z := u64 (if negative xx sign then - xx else xx).

Lemma i64_u64 z : u64 (i64 z) = u64 z.
Proof.
  unfold i64, wrapu. rewrite <- (Z.mod_add (_ - _) 1) by lia.
  replace ((z + 2 ^ 63) mod 2 ^ 64 - 2 ^ 63 + 1 * 2 ^ 64) with ((z + 2 ^ 63) mod 2 ^ 64 + 2 ^ 63) by lia.
  rewrite Z.add_mod_idemp_l by lia. replace (z + 2 ^ 63 + 2 ^ 63) with (z + 1 * 2 ^ 64) by lia.
  apply Z.mod_add. lia.
Qed.

Lemma magnitude_range xx sign :
  - 2 ^ 63 <= xx < 2 ^ 64 ->
  0 <= magnitude xx sign < 2 ^ 64 /\ (negative xx sign = true -> magnitude xx sign <= 2 ^ 63).
Proof.
  intros Hx. unfold magnitude. split; [apply wrapu_range; lia|]. intros Hn. rewrite Hn.
  unfold negative in Hn. to_prop. rewrite wrapu_small; lia.
Qed.

Definition sign_of (xx : Z) (sign : bool) : list Z := if negative xx sign then [45] else [].

Lemma printint_fits xx base sign :
  base = 10 \/ base = 16 -> - 2 ^ 63 <= xx < 2 ^ 64 ->
  (length (sign_of xx sign) + length (digs 63 base (magnitude xx sign)) <= BUFLEN)%nat.
Proof.
  intros Hb Hx. destruct (magnitude_range xx sign Hx) as [Hm Hmn].
  assert (forall n y, magnitude xx sign <= y -> y < base ^ Z.of_nat (S n) ->
    (length (digs 63 base (magnitude xx sign)) <= S n)%nat) as Hlen.
  { intros n y Hy Hlt. apply digs_length; [destruct Hb; lia|]. lia. }
  unfold sign_of, BUFLEN. destruct (negative xx sign); cbn [length].
  - specialize (Hmn eq_refl). apply le_n_S, (Hlen 18%nat (2 ^ 63)); [lia|by destruct Hb as [-> | ->]].
  - apply (Hlen 19%nat (2 ^ 64 - 1)); [lia|by destruct Hb as [-> | ->]].
Qed.

Lemma printint_shape digits xx base sign :
  base = 10 \/ base = 16 -> - 2 ^ 63 <= xx < 2 ^ 64 ->
  printint digits xx base sign
  = Ret (sign_of xx sign ++ reverse (digit digits <$> digs 63 base (magnitude xx sign))).
Proof.
  intros Hb Hx. unfold printint. fold (negative xx sign). pose proof (printint_fits xx base sign Hb Hx) as Hf.
  assert (u64 (if negative xx sign then i64 (- xx) else xx) = magnitude xx sign) as ->.
  { unfold magnitude. destruct (negative xx sign); [apply i64_u64|done]. }
  fold (sign_of xx sign). rewrite put_digits_digs. cbn zeta.
  rewrite (proj2 (Nat.ltb_ge _ _)) by (rewrite length_app, length_fmap; lia).
  rewrite reverse_app. unfold sign_of. by destruct (negative xx sign).
Qed.

(** (C30) In base 10 and 16 and for every 64-bit number [printint] stays inside its
    20 bytes and puts out a minus sign exactly for a negative number printed as
    signed, and then the number's digits, without a leading zero. *)
Theorem printint_exact digits xx base sign :
  base = 10 \/ base = 16 -> - 2 ^ 63 <= xx < 2 ^ 64 ->
  exists ds, printint digits xx base sign = Ret (sign_of xx sign ++ reverse (digit digits <$> ds)) /\
    (length (sign_of xx sign) + length ds <= BUFLEN)%nat /\
    Forall (fun d => 0 <= d < base) ds /\ value base ds = magnitude xx sign /\
    (last ds = Some 0 -> ds = [0]).
Proof.
  intros Hb Hx. exists (digs 63 base (magnitude xx sign)).
  pose proof (printint_shape digits xx base sign Hb Hx) as Hp. destruct (magnitude_range xx sign Hx) as [Hm _].
  assert (magnitude xx sign < base ^ Z.of_nat 64) as Hlt.
  { eapply Z.lt_le_trans; [apply Hm|]. apply pow64; destruct Hb; lia. }
  split; [done|]. split; [by eapply printint_fits|].
  split; [apply digs_range; destruct Hb; lia|].
  split; [apply digs_value; destruct Hb; lia|]. intros Hl.
  destruct (Z.eq_dec (magnitude xx sign) 0) as [->|Hne]; [by destruct Hb as [-> | ->]|].
  by apply digs_last in Hl; [|destruct Hb; lia|lia].
Qed.

Lemma printint_exact_witness :
  printint kdigits (- 2 ^ 63) 10 true
  = Ret [45; 57; 50; 50; 51; 51; 55; 50; 48; 51; 54; 56; 53; 52; 55; 55; 53; 56; 48; 56] /\
  exists ds, printint kdigits (- 2 ^ 63) 10 true = Ret (sign_of (- 2 ^ 63) true ++ reverse (digit kdigits <$> ds)) /\
    (length (sign_of (- 2 ^ 63) true) + length ds <= BUFLEN)%nat /\
    Forall (fun d => 0 <= d < 10) ds /\ value 10 ds = magnitude (- 2 ^ 63) true /\
    (last ds = Some 0 -> ds = [0]).
Proof. split; [reflexivity|]. apply printint_exact; [by left|lia]. Defined.

(** ** atoi *)

(** The number that digits read from the left make, after [n]. *)
Definition number (n : Z) (ds : list Z) : Z := fold_left (fun n d => 10 * n + d) ds n.

Lemma number_ge ds n : 0 <= n -> Forall (fun d => 0 <= d < 10) ds -> n <= number n ds.
Proof.
  intros Hn Hf. revert n Hn. induction Hf as [|d ds Hd _ IH]; intros n Hn; [done|]. cbn.
  specialize (IH (10 * n + d) ltac:(lia)). unfold number in IH. lia.
Qed.

Lemma number_value ds : number 0 (reverse ds) = value 10 ds.
Proof.
  induction ds as [|d ds IH]; [done|]. unfold number in *. rewrite reverse_cons, fold_left_app, IH. cbn. lia.
Qed.

Lemma udigit_at d : 0 <= d < 10 -> digit udigits d = 48 + d.
Proof.
  intros Hd. assert (d = 0 \/ d = 1 \/ d = 2 \/ d = 3 \/ d = 4 \/ d = 5 \/ d = 6 \/ d = 7 \/ d = 8 \/ d = 9) as H
    by lia. by repeat destruct H as [-> | H]; [..|subst].
Qed.

Lemma atoi_from_digits ds n rest :
  Forall (fun d => 0 <= d < 10) ds -> 0 <= n -> number n ds < 2 ^ 31 ->
  atoi_from n ((digit udigits <$> ds) ++ rest) = atoi_from (number n ds) rest.
Proof.
  intros Hf. revert n. induction Hf as [|d ds Hd Hf IH]; intros n Hn Hlt; [done|].
  cbn [number fold_left] in *. pose proof (number_ge ds (10 * n + d) ltac:(lia) Hf) as Hge.
  unfold number in Hge. rewrite fmap_cons, (udigit_at d Hd). cbn [app atoi_from].
  rewrite (proj2 (andb_true_iff _ _)) by (split; lia).
  rewrite i32_small by lia. replace (n * 10 + (48 + d) - 48) with (10 * n + d) by lia.
  apply IH; [lia|done].
Qed.

(** Text that does not go on with a digit. *)
Definition no_digit (rest : list Z) : Prop :=
  match rest with c :: _ => (48 <=? c) && (c <=? 57) = false | [] => True end.

(** [atoi] reads back every non-negative int that the user's printf writes with
    %d or %u, whatever follows it that is not a digit. *)
Theorem atoi_reads_printed x sign rest :
  0 <= x < 2 ^ 31 -> no_digit rest ->
  exists s, printint udigits x 10 sign = Ret s /\ atoi (s ++ rest) = x.
Proof.
  intros Hx Hr. rewrite printint_shape by (auto || lia). eexists. split; [done|].
  assert (negative x sign = false) as Hn by (unfold negative; destruct sign; lia || done).
  unfold sign_of, magnitude. rewrite Hn, app_nil_l, wrapu_small by lia.
  rewrite <- fmap_reverse. unfold atoi.
  assert (number 0 (reverse (digs 63 10 x)) = x) as Hv.
  { rewrite number_value. apply digs_value; [lia|]. split; [lia|].
    eapply Z.lt_le_trans; [apply Hx|]. transitivity (2 ^ 64); [done|]. by apply pow64. }
  rewrite atoi_from_digits; [|apply Forall_reverse, digs_range; lia|lia|lia].
  rewrite Hv. destruct rest as [|c rest]; [done|]. cbn [no_digit] in Hr. cbn [atoi_from]. by rewrite Hr.
Qed.

Lemma atoi_reads_printed_witness :
  exists s, printint udigits 2147483647 10 true = Ret s /\ atoi (s ++ [32]) = 2147483647.
Proof. apply (atoi_reads_printed 2147483647 true [32]); [lia|done]. Defined.

(** ** The two printfs *)

(** The user's digits above 9 are capitals. *)
Definition same_digit (a b : Z) : Prop := a = b \/ 97 <= a <= 102 /\ b = a - 32.

(** Both fail alike, or both put out the same up to that. *)
Definition same_output (a b : outcome (list Z)) : Prop :=
  match a, b with
  | Ret x, Ret y => Forall2 same_digit x y
  | Undef v, Undef w => v = w
  | _, _ => False
  end.

Lemma same_digit_refl x : Forall2 same_digit x x.
Proof. induction x; constructor; [by left|done]. Qed.

Lemma same_digit_digits d : same_digit (digit kdigits d) (digit udigits d).
Proof.
  unfold digit. generalize (Z.to_nat d). intros n.
  do 16 (destruct n as [|n]; [cbn; unfold same_digit; lia|]). by left.
Qed.

Lemma bind_same {A} (R : A -> A -> Prop) (a b : outcome A) (f g : A -> outcome (list Z)) :
  match a, b with Ret x, Ret y => R x y | Undef v, Undef w => v = w | _, _ => False end ->
  (forall x y, R x y -> same_output (f x) (g y)) ->
  same_output (mbind f a) (mbind g b).
Proof. destruct a, b; cbn; intros H Hfg; try done. by apply Hfg. Qed.

Lemma printint_same xx base sign :
  same_output (printint kdigits xx base sign) (printint udigits xx base sign).
Proof.
  unfold printint. rewrite !put_digits_digs, !length_app, !length_fmap. case_match; [done|].
  apply Forall2_reverse, Forall2_app; [|apply same_digit_refl]. apply Forall2_fmap_l, Forall2_fmap_r.
  apply Forall_Forall2_diag, Forall_true. apply same_digit_digits.
Qed.

Lemma nibbles_same n x : Forall2 same_digit (nibbles n kdigits x) (nibbles n udigits x).
Proof. revert x. induction n as [|n IH]; intros x; constructor; [apply same_digit_digits|apply IH]. Qed.

(** The results of a conversion: the same arguments are left. *)
Definition same_here (x y : list Z * list arg) : Prop := Forall2 same_digit x.1 y.1 /\ x.2 = y.2.

Lemma convert_same c c0 args :
  match convert kdigits c c0 args, convert udigits c c0 args with
  | Ret x, Ret y => same_here x y
  | Undef v, Undef w => v = w
  | _, _ => False
  end.
Proof.
  destruct c as [ty base sign| | | | |]; cbn [convert]; try (split; [apply same_digit_refl|done]).
  - destruct (num args) as [[v args']| |] eqn:E; cbn; [|by destruct args as [|[]]|done].
    pose proof (printint_same (ty v) base sign) as H.
    destruct (printint kdigits _ _ _), (printint udigits _ _ _); cbn in *; by try split.
  - destruct (num args) as [[v args']| |] eqn:E; cbn; [|by destruct args as [|[]]|done].
    split; [|done]. change (Forall2 same_digit (printptr kdigits (u64 v)) (printptr udigits (u64 v))).
    unfold printptr. apply Forall2_app; [apply same_digit_refl|apply nibbles_same].
  - destruct (num args) as [[v args']| |] eqn:E; cbn; [split; [apply same_digit_refl|done]|by destruct args as [|[]]|done].
  - destruct (str args) as [[v args']| |] eqn:E; cbn; [split; [apply same_digit_refl|done]|by destruct args as [|[]]|done].
Qed.

(** The kernel's printf, which skips over a conversion by moving its index, and
    the user's, which keeps a state, put out the same for every format and all
    arguments, or both ask for an argument that is not there; the user's
    hexadecimal digits are capitals. *)
Theorem printf_kernel_user fmt args :
  same_output (kprintf kdigits fmt args) (vprintf udigits fmt false args).
Proof.
  revert args. induction fmt as [fmt IH] using (induction_ltof1 _ (@length Z)); unfold ltof in IH. intros args.
  destruct fmt as [|cx fmt]; [constructor|]. cbn [kprintf vprintf negb].
  destruct (cx =? 37) eqn:Ec; cbn [negb].
  - destruct fmt as [|c0 fmt]; [constructor|]. cbn [vprintf negb].
    destruct (conversion c0 (c1_of fmt) (c2_of fmt)) as [c more].
    apply (bind_same same_here); [apply convert_same|]. intros [x args1] [y args2] [Hxy [= <-]]. cbn [fst] in Hxy.
    apply (bind_same (Forall2 same_digit)).
    + destruct more as [|[|[|more]]]; destruct fmt as [|c1 fmt]; try destruct fmt as [|c2 fmt]; apply IH; cbn; lia.
    + intros x' y' Hxy'. by apply Forall2_app.
  - apply (bind_same (Forall2 same_digit)); [apply IH; cbn; lia|]. intros x y Hxy.
    constructor; [by left|done].
Qed.

End PrintfFacts.
