(* ===== verification/Syscall.v ===== *)
(** * System call arguments and dispatch (xv6-memory-management/kernel/syscall.c)

    The trapframe's argument registers a0 to a5 are a list of 64-bit words;
    user memory is read through [Vm].  update_read_count is in [Sysfile]. *)
From S2P Require Import Prelude Mem Vm.

#[local] Open Scope Z_scope.

Module Syscall.
Import Mem Vm.

(** [n] bytes as a number, little-endian. *)
Fixpoint le (n : nat) (bytes : list Z) : Z :=
  match n, bytes with
  | S n, b :: bytes => b + 256 * le n bytes
  | _, _ => 0
  end.

Section args.
Context (kend : Z) (use_clock : bool).

Definition argraw (regs : list Z) (n : nat) : outcome Z :=
  match take 6 regs !! n with Some a => Ret a | None => Panic "argraw" end.

Definition argint (regs : list Z) (n : nat) : outcome Z := a ← argraw regs n; Ret (i32 a).
Definition argaddr (regs : list Z) (n : nat) : outcome Z := argraw regs n.

(** The word at [addr]; [None] for -1. *)
Definition fetchaddr (addr : Z) (v : vm) : outcome (option Z * vm) :=
  let p := cur v in
  if (sz p <=? addr) || (sz p <? u64 (addr + 8)) then Ret (None, v)
  else
    '(b, v) ← copyin kend use_clock 9%nat (pagetable p) addr 8 v;
    Ret (option_map (le 8) b, v).

(** The string at [addr], without its NUL, whose length the code returns. *)
Definition fetchstr (addr max : Z) (v : vm) : outcome (option (list Z) * vm) :=
  let p := cur v in
  '(b, v) ← copyinstr kend use_clock (S (Z.to_nat max)) (pagetable p) addr max v;
  Ret (option_map (@removelast Z) b, v).

Definition argstr (regs : list Z) (n : nat) (max : Z) (v : vm) : outcome (option (list Z) * vm) :=
  a ← argaddr regs n; fetchstr a max v.

End args.

(** [syscall]: the number is the low half of a7; the result goes to a0.  The
    table has an entry for some of the numbers below [nelem]. *)
Definition syscall {S} (nelem : Z) (syscalls : Z -> option (S -> outcome (Z * S))) (a7 : Z) (s : S)
    : outcome (Z * S) :=
  let num := i32 a7 in
  if (0 <? num) && (num <? nelem) then
    match syscalls num with
    | Some f => '(r, s) ← f s; Ret (u64 r, s)
    | None => Ret (u64 (-1), s)
    end
  else Ret (u64 (-1), s).

End Syscall.
