(* ===== verification/Exec.v ===== *)
(** * exec (xv6-memory-management/kernel: exec.c, elf.h, proc.c, sys_exec
    of sysfile.c and safestrcpy of string.c)

    A program is not loaded: its segments are noted, and only a guard page and
    the stack are allocated.  The state is the paging state of [Vm], the file
    system of [Fs] with the inode pointers that [Vm] knows only by the bytes of
    their files, and the fields of the process that exec sets. *)
From S2P Require Import Prelude Mem Vm Syscall Buf Fs Dir FsBytes.

#[local] Open Scope Z_scope.

Module Exec.
Import Mem Vm.

(** ** elf.h *)

Definition ELF_MAGIC : Z := 1179403647.    (* 0x464C457F *)
Definition ELF_PROG_LOAD : Z := 1.

Record elfhdr := mk_elfhdr { magic : Z; elf_entry : Z; phoff : Z; phnum : Z }.
Record proghdr := mk_proghdr {
  ptype : Z; pflags : Z; poff : Z; vaddr : Z; pfilesz : Z; pmemsz : Z
}.

Definition SIZEOF_ELFHDR : Z := 64.
Definition SIZEOF_PROGHDR : Z := 56.

(** The number of [n] bytes from offset [o]. *)
Definition field (bytes : list Z) (o n : nat) : Z := Syscall.le n (drop o bytes).

Definition elfhdr_of (b : list Z) : elfhdr :=
  mk_elfhdr (field b 0 4) (field b 24 8) (field b 32 8) (field b 56 2).
Definition proghdr_of (b : list Z) : proghdr :=
  mk_proghdr (field b 0 4) (field b 4 4) (field b 8 8) (field b 16 8) (field b 32 8) (field b 40 8).

(** A 64-bit word as it is stored. *)
Definition le64 (x : Z) : list Z := (fun i => x / 256 ^ Z.of_nat i mod 256) <$> seq 0 8.

(** ** Constants (param.h) *)

Definition MAXARG : nat := 32.
Definition USERSTACK : Z := 1.
Definition NSEGS : nat := 16.

(** ** State *)

Record xstate := mk_xstate {
  xvm : vm;
  xfs : Fs.fs;
  x_execip : option nat;      (* p->execip *)
  x_swapip : option nat;      (* p->swapip *)
  cwd : nat;
  pid : Z;
  name : list Z;
  tf_epc : Z;
  tf_a1 : Z
}.

Definition set_vm (v : vm) (x : xstate) : xstate := {| x with xvm := v |}.
Definition set_fs (s : Fs.fs) (x : xstate) : xstate := {| x with xfs := s |}.
Definition set_cur (p : vproc) (x : xstate) : xstate := let v := xvm x in set_vm {| v with cur := p |} x.
Definition set_ph (s : phys) (x : xstate) : xstate := let v := xvm x in set_vm {| v with ph := s |} x.

Definition flags2perm (flags : Z) : Z :=
  let perm := if has_flag flags 1 then PTE_X else 0 in
  if has_flag flags 2 then Z.lor perm PTE_W else perm.

(** The copy of at most [n - 1] bytes of a string, which ends before a NUL. *)
Definition safestrcpy (t : list Z) (n : nat) : list Z := take (n - 1) t.

(** [for(last=s=path; *s; s++) if( *s == '/') last = s+1;] *)
Fixpoint last_elem (last s : list Z) : list Z :=
  match s with
  | [] => last
  | c :: s => last_elem (if c =? 47 then s else last) s
  end.

Section exec.
(** [trampoline]: the linker's symbol; [trapframe]: p->trapframe, a page. *)
Context (kend : Z) (use_clock : bool) (trampoline trapframe : Z).

(** ** A process's page table (proc.c) *)

Definition proc_pagetable (s : phys) : outcome (Z * phys) :=
  let '(pagetable, s) := uvmcreate s in
  if pagetable =? 0 then Ret (0, s)
  else
    '(r, s) ← mappages pagetable TRAMPOLINE PGSIZE trampoline (Z.lor PTE_R PTE_X) s;
    if r <? 0 then s ← uvmfree kend pagetable 0 s; Ret (0, s)
    else
      '(r, s) ← mappages pagetable TRAPFRAME PGSIZE trapframe (Z.lor PTE_R PTE_W) s;
      if r <? 0 then
        s ← uvmunmap kend pagetable TRAMPOLINE 1 false s;
        s ← uvmfree kend pagetable 0 s;
        Ret (0, s)
      else Ret (pagetable, s).

Definition proc_freepagetable (pagetable sz : Z) (s : phys) : outcome phys :=
  s ← uvmunmap kend pagetable TRAMPOLINE 1 false s;
  s ← uvmunmap kend pagetable TRAPFRAME 1 false s;
  uvmfree kend pagetable sz s.

(** ** The program headers *)

(** The checks on a loadable segment; [false] is [goto bad]. *)
Definition seg_ok (ph : proghdr) : bool :=
  negb (pmemsz ph <? pfilesz ph) && negb (u64 (vaddr ph + pmemsz ph) <? vaddr ph) &&
  (vaddr ph mod PGSIZE =? 0).

(** [p->segs[p->nsegs++]], for at most 16 segments. *)
Definition note_seg (ph : proghdr) (segs : list seg) : list seg :=
  if (length segs <? NSEGS)%nat then
    segs ++ [mk_seg (vaddr ph) (pmemsz ph) (pfilesz ph) (poff ph) (flags2perm (pflags ph))]
  else segs.

(** The loop over the headers from offset [off] on: whether it ended well, the
    segments noted, the size so far. *)
Fixpoint load_loop (n : nat) (ip : nat) (off sz : Z) (segs : list seg) (s : Fs.fs)
    : outcome (bool * list seg * Z * Fs.fs) :=
  match n with
  | O => Ret (true, segs, sz, s)
  | S n =>
      '(b, s) ← Fs.readi ip (u32 off) SIZEOF_PROGHDR s;
      if negb (Z.of_nat (length b) =? SIZEOF_PROGHDR) then Ret (false, segs, sz, s)
      else
        let ph := proghdr_of b in
        let off := i32 (off + SIZEOF_PROGHDR) in
        if negb (ptype ph =? ELF_PROG_LOAD) then load_loop n ip off sz segs s
        else if negb (seg_ok ph) then Ret (false, segs, sz, s)
        else
          let stop := u64 (vaddr ph + pmemsz ph) in
          load_loop n ip off (if sz <? stop then stop else sz) (note_seg ph segs) s
  end.

(** ** The stack *)

(** Push the strings from the [argc]th on: the stack pointer and their
    addresses, or [None] for [goto bad]. *)
Fixpoint push_args (argv : list (list Z)) (argc : nat) (pt sp stackbase : Z) (ustack : list Z) (v : vm)
    : outcome (option (Z * list Z) * vm) :=
  match argv with
  | [] => Ret (Some (sp, ustack), v)
  | arg :: argv =>
      if (MAXARG <=? argc)%nat then Ret (None, v)
      else
        let sp := u64 (sp - (Z.of_nat (length arg) + 1)) in
        let sp := sp - sp mod 16 in
        if sp <? stackbase then Ret (None, v)
        else
          '(r, v) ← copyout kend use_clock (S (length (arg ++ [0]))) pt sp (arg ++ [0]) v;
          if r <? 0 then Ret (None, v)
          else push_args argv (S argc) pt sp stackbase (ustack ++ [sp]) v
  end.

(** The strings, and below them the array of their addresses. *)
Definition push_argv (argv : list (list Z)) (pt sp stackbase : Z) (v : vm) : outcome (option Z * vm) :=
  '(r, v) ← push_args argv 0 pt sp stackbase [] v;
  match r with
  | None => Ret (None, v)
  | Some (sp, ustack) =>
      if (MAXARG <=? length ustack)%nat then Undef "ustack"
      else
        let bytes := concat (le64 <$> (ustack ++ [0])) in
        let sp := u64 (sp - Z.of_nat (length bytes)) in
        let sp := sp - sp mod 16 in
        if sp <? stackbase then Ret (None, v)
        else
          '(r, v) ← copyout kend use_clock (S (length bytes)) pt sp bytes v;
          if r <? 0 then Ret (None, v) else Ret (Some sp, v)
  end.

(** The guard page and the stack above [sz], with the arguments: the new size,
    and the stack pointer if that went well. *)
Definition user_stack (argv : list (list Z)) (pt sz : Z) (v : vm) : outcome (Z * option Z * vm) :=
  let sz := PGROUNDUP sz in
  '(sz1, v) ← uvmalloc kend use_clock pt sz (u64 (sz + (USERSTACK + 1) * PGSIZE)) PTE_W v;
  if sz1 =? 0 then Ret (sz, None, v)
  else
    s ← uvmclear pt (u64 (sz1 - (USERSTACK + 1) * PGSIZE)) (ph v);
    '(sp, v) ← push_argv argv pt sz1 (u64 (sz1 - USERSTACK * PGSIZE)) {| v with ph := s |};
    Ret (sz1, sp, v).

(** ** kexec *)

(** The failure of exec; [ip]: the inode while it is locked. *)
Definition bad (pagetable sz : Z) (ip : option nat) (x : xstate) : outcome (Z * xstate) :=
  s ← (if pagetable =? 0 then Ret (ph (xvm x)) else proc_freepagetable pagetable sz (ph (xvm x)));
  let x := set_ph s x in
  match ip with
  | None => Ret (-1, x)
  | Some ip => s ← Fs.iunlockput ip (xfs x); Ret (-1, set_fs s x)
  end.

(** The new image replaces the old one: its page table, size and registers, and
    empty swap records. *)
Definition commit (path : list Z) (pagetable sz sp epc : Z) (x : xstate) : outcome xstate :=
  let p := cur (xvm x) in
  let x := {| x with name := safestrcpy (last_elem path path) 16; tf_a1 := sp; tf_epc := epc |} in
  let q := {| p with pagetable := pagetable; sz := sz; tf_sp := sp;
                     heap_brk := u64 (sz - (USERSTACK + 1) * PGSIZE); page_seq_ctr := 1 |} in
  s ← proc_freepagetable (Vm.pagetable p) (Vm.sz p) (ph (xvm x));
  let q := {| q with swap_bitmap := replicate 128 0; swap_pages := 0;
                     pgmeta := replicate 1024 (free_meta 0); clock_hand := 0 |} in
  Ret (set_cur q (set_ph s x)).

(** [proc_swapon]; its result is not looked at. *)
Definition swapon (junk nm : list Z) (x : xstate) : outcome xstate :=
  '(_, i, s) ← Dir.alloc_swapfile (cwd x) (x_swapip x) (pid x) junk nm (xfs x);
  let p := cur (xvm x) in
  Ret (set_cur {| p with swapip := FsBytes.file_of s <$> i |} {| x with xfs := s; x_swapip := i |}).

(** [junk], [nm]: what the name arrays of namei and alloc_swapfile hold. *)
Definition kexec (path : list Z) (argv : list (list Z)) (junk nm : list Z) (x : xstate)
    : outcome (Z * xstate) :=
  '(ip, s) ← Dir.namei (cwd x) path nm (xfs x);
  match ip with
  | None => Ret (-1, set_fs s x)
  | Some ip =>
      s ← Fs.ilock ip s;
      '(b, s) ← Fs.readi ip 0 SIZEOF_ELFHDR s;
      let x := set_fs s x in
      let elf := elfhdr_of b in
      if negb (Z.of_nat (length b) =? SIZEOF_ELFHDR) || negb (magic elf =? ELF_MAGIC) then bad 0 0 (Some ip) x
      else
        '(pt, s) ← proc_pagetable (ph (xvm x));
        let x := set_ph s x in
        if pt =? 0 then bad 0 0 (Some ip) x
        else
          let x := {| x with x_execip := Some ip |} in
          '(ok, segs, sz, s) ← load_loop (Z.to_nat (phnum elf)) ip (i32 (phoff elf)) 0 [] (xfs x);
          let p := cur (xvm x) in
          let x := set_fs s (set_cur {| p with segs := segs; execip := Some (FsBytes.file_of s ip) |} x) in
          if negb ok then bad pt sz (Some ip) x
          else
            s ← Fs.iunlock ip (xfs x);
            let x := set_fs s x in
            '(sz, sp, v) ← user_stack argv pt sz (xvm x);
            let x := set_vm v x in
            match sp with
            | None => bad pt sz None x
            | Some sp =>
                x ← commit path pt sz sp (elf_entry elf) x;
                x ← swapon junk nm x;
                Ret (Z.of_nat (length argv), x)
            end
  end.

(** ** sys_exec *)

(** The pages of the arguments are freed in order. *)
Fixpoint free_args (pages : list Z) (s : phys) : outcome phys :=
  match pages with
  | [] => Ret s
  | page :: pages => s ← kfree kend page s; free_args pages s
  end.

(** The loop of sys_exec, with room for [n] more arguments: the strings, or
    [None] for [goto bad], and the pages that hold them. *)
Fixpoint fetch_args (n : nat) (uargv : Z) (pages : list Z) (args : list (list Z)) (v : vm)
    : outcome (option (list (list Z)) * list Z * vm) :=
  match n with
  | O => Ret (None, pages, v)
  | S n =>
      '(uarg, v) ← Syscall.fetchaddr kend use_clock uargv v;
      match uarg with
      | None => Ret (None, pages, v)
      | Some uarg =>
          if uarg =? 0 then Ret (Some args, pages, v)
          else
            let '(page, s) := kalloc (ph v) in
            let v := {| v with ph := s |} in
            if page =? 0 then Ret (None, pages, v)
            else
              '(str, v) ← Syscall.fetchstr kend use_clock uarg PGSIZE v;
              match str with
              | None => Ret (None, pages ++ [page], v)
              | Some str =>
                  let s := ph v in
                  let s := {| s with mem := put_bytes (mem s) page (str ++ [0]) |} in
                  fetch_args n (u64 (uargv + 8)) (pages ++ [page]) (args ++ [str]) {| v with ph := s |}
              end
      end
  end.

Definition sys_exec (regs : list Z) (junk nm : list Z) (x : xstate) : outcome (Z * xstate) :=
  uargv ← Syscall.argaddr regs 1;
  '(path, v) ← Syscall.argstr kend use_clock regs 0 128 (xvm x);
  let x := set_vm v x in
  match path with
  | None => Ret (-1, x)
  | Some path =>
      '(args, pages, v) ← fetch_args MAXARG uargv [] [] (xvm x);
      let x := set_vm v x in
      '(r, x) ← match args with
                | Some args => kexec path args junk nm x
                | None => Ret (-1, x)
                end;
      s ← free_args pages (ph (xvm x));
      Ret (r, set_ph s x)
  end.

End exec.
End Exec.
