(* ===== verification/ExecFacts.v ===== *)
(** * What the paging code leaves alone

    Allocation, eviction and page faults work on the page records of a process
    and on memory: its page table, size, heap, program and stack pointer stay. *)
From S2P Require Import Prelude Mem MemFacts Vm PageTable VmMap KallocSpec VmSpec VmSwap Syscall Exec.

Import Mem Vm.

#[local] Open Scope Z_scope.

Module VmFrame.

(** The fields that describe the process's image. *)
Definition image_of (p : vproc) : Z * Z * Z * option (list Z) * list seg * Z :=
  (pagetable p, sz p, heap_brk p, execip p, segs p, tf_sp p).

(** The same image: the fields may be mixed. *)
Definition same_image (p q : vproc) : Prop := image_of p = image_of q.

#[export] Instance same_image_equiv : Equivalence same_image.
Proof. unfold same_image. split; [done|by intros p q H|by intros p q r -> ->]. Qed.

Section frame.
Context (kend : Z) (use_clock : bool).

Lemma set_meta_image i e p : same_image (set_meta i e p) p.
Proof. done. Qed.

Lemma pgmeta_alloc_image va p : same_image (snd (pgmeta_alloc va p)) p.
Proof. unfold pgmeta_alloc. by repeat case_match. Qed.

Lemma update_meta_image i f p : same_image (update_meta i f p) p.
Proof. unfold update_meta. by repeat case_match. Qed.

Lemma swap_alloc_slot_image p : same_image (snd (swap_alloc_slot p)) p.
Proof. unfold swap_alloc_slot. by repeat case_match. Qed.

Lemma swap_free_slot_image i p : same_image (swap_free_slot i p) p.
Proof. unfold swap_free_slot. by repeat case_match. Qed.

Lemma clock_victim_image p : same_image (snd (clock_victim p)) p.
Proof. unfold clock_victim. by case_match. Qed.

Lemma note_resident_image i pm p : same_image (note_resident i pm p) p.
Proof.
  unfold note_resident. match goal with |- context [update_meta i ?f p] => pose proof (update_meta_image i f p) as H end.
  exact H.
Qed.

Lemma swap_out_image best e pa v ok v' :
  swap_out best e pa v = (ok, v') ->
  same_image (cur v') (cur v) /\ (forall v1, ok = Some v1 -> same_image (cur v1) (cur v)).
Proof.
  unfold swap_out. intros H. destruct (swapip (cur v)); [|by simplify_eq].
  pose proof (swap_alloc_slot_image (cur v)) as Ha.
  destruct (swap_alloc_slot (cur v)) as [[sl|] p]; cbn [snd] in Ha; [|simplify_eq; split; [exact Ha|done]].
  destruct (writei _ _ _ _) as [r file']. destruct (negb _).
  - simplify_eq/=. split; [|done]. by rewrite swap_free_slot_image.
  - simplify_eq/=. split; [done|]. intros v1 [= <-]. cbn. by rewrite <- Ha.
Qed.

(** A call that returns keeps the image. *)
Definition keeps {A} (f : vm -> outcome (A * vm)) : Prop :=
  forall v r v', f v = Ret (r, v') -> same_image (cur v') (cur v).

Lemma try_evict_one_keeps : keeps (try_evict_one kend use_clock).
Proof.
  intros v r v' H. unfold try_evict_one in H.
  destruct (if use_clock then clock_victim (cur v) else (fifo_victim (cur v), cur v)) as [best p] eqn:Eb.
  assert (same_image p (cur v)) as <-.
  { destruct use_clock; [|by simplify_eq]. pose proof (clock_victim_image (cur v)) as Hc. by rewrite Eb in Hc. }
  clear Eb. destruct best as [best|]; [|by simplify_eq]. cbn [cur ph] in H.
  destruct (pgmeta p !! best) as [e|]; [|done]. apply outcome_bind_inv in H as ([pte s] & _ & H).
  destruct (_ || _); [by simplify_eq|]. destruct (if _ : bool then _ else _) as [ok v_fail] eqn:Eok.
  assert (same_image (cur v_fail) p /\ forall v1, ok = Some v1 -> same_image (cur v1) p) as [Hf Hok].
  { destruct (_ || _); [|simplify_eq; split; [done|by intros v1 [= <-]]]. by apply swap_out_image in Eok. }
  destruct ok as [v1|]; [|by simplify_eq]. rewrite <- (Hok v1 eq_refl).
  apply outcome_bind_inv in H as (s1 & _ & H). destruct (pgmeta (cur v1) !! best); by simplify_eq.
Qed.

Lemma kalloc_or_evict_keeps : keeps (kalloc_or_evict kend use_clock).
Proof.
  intros v r v' H. unfold kalloc_or_evict in H. destruct (kalloc (ph v)) as [page s].
  destruct (negb _); [by simplify_eq|]. apply outcome_bind_inv in H as ([r1 v1] & H1 & H).
  apply try_evict_one_keeps in H1. destruct (r1 =? 0); [destruct (kalloc (ph v1))|]; by simplify_eq.
Qed.

(** The steps of a call: a page taken, other calls on memory, a result. *)
Ltac steps H :=
  repeat first
  [ apply outcome_bind_inv in H as (? & ? & H)
  | progress cbn [cur ph room] in H
  | progress simplify_eq
  | match type of H with (match ?x with _ => _ end) = _ => destruct x eqn:? end ].

Lemma uvmalloc_loop_keeps fuel : forall pt a oldsz newsz xperm,
  keeps (uvmalloc_loop kend use_clock fuel pt a oldsz newsz xperm).
Proof.
  induction fuel as [|fuel IH]; intros pt a oldsz newsz xperm v r v' H; cbn [uvmalloc_loop] in H;
    (destruct (a <? newsz); [|by simplify_eq]); [done|].
  apply outcome_bind_inv in H as ([page v1] & H1 & H). apply kalloc_or_evict_keeps in H1. rewrite <- H1.
  destruct (page =? 0); [steps H; done|]. apply outcome_bind_inv in H as ([r2 s2] & _ & H).
  destruct (negb _); [steps H; done|]. pose proof (pgmeta_alloc_image a (cur v1)) as Ha.
  destruct (pgmeta_alloc a (cur v1)) as [i p]. cbn [snd] in Ha. rewrite <- Ha. apply IH in H. cbn [cur] in H. rewrite H.
  destruct i as [i|]; [|done]. match goal with |- context [update_meta ?i ?f ?p] => exact (update_meta_image i f p) end.
Qed.

Lemma uvmalloc_keeps pt oldsz newsz xperm : keeps (uvmalloc kend use_clock pt oldsz newsz xperm).
Proof.
  intros v r v' H. unfold uvmalloc in H. destruct (newsz <? oldsz); [by simplify_eq|]. by eapply uvmalloc_loop_keeps.
Qed.

(** ** Page faults *)

Lemma fault_present_image pte va_pg w sg v r v' :
  fault_present pte va_pg w sg v = (r, v') -> same_image (cur v') (cur v).
Proof.
  unfold fault_present. intros H. pose proof (pgmeta_alloc_image va_pg (cur v)) as Ha.
  destruct (_ && _ && _).
  - destruct (pgmeta_alloc va_pg (cur v)) as [i p]. simplify_eq/=. rewrite <- Ha. apply update_meta_image.
  - destruct (_ && _ && _); by simplify_eq.
Qed.

Lemma fault_swapin_keeps pt va_pg i s : keeps (fault_swapin kend use_clock pt va_pg i s).
Proof.
  intros v r v' H. unfold fault_swapin in H. apply outcome_bind_inv in H as ([page v1] & H1 & H).
  apply kalloc_or_evict_keeps in H1. rewrite <- H1. destruct (page =? 0); [by simplify_eq|].
  destruct (pgmeta (cur v1) !! i) as [e|]; [|done]. destruct (swapip (cur v1)) as [file|]; [|done].
  destruct (negb _); [steps H; done|]. apply outcome_bind_inv in H as ([r2 s2] & _ & H).
  destruct (negb _); [steps H; done|]. cbn zeta in H.
  match type of H with context [update_meta ?i ?f ?q] =>
    assert (same_image (update_meta i f q) (cur v1)) as Hu; [rewrite (update_meta_image i f q)|injection H as <- <-; exact Hu]
  end.
  match goal with |- context [swap_free_slot ?k ?q] => pose proof (swap_free_slot_image k q) as Hs end.
  case_match; exact Hs.
Qed.

Lemma fault_exec_keeps pt va_pg w i s exe : keeps (fault_exec kend use_clock pt va_pg w i s exe).
Proof.
  intros v r v' H. unfold fault_exec in H. apply outcome_bind_inv in H as ([page v1] & H1 & H).
  apply kalloc_or_evict_keeps in H1. rewrite <- H1. destruct (page =? 0); [by simplify_eq|]. cbn zeta in H.
  destruct (_ && negb _); [steps H; done|]. destruct (_ && negb _); [steps H; done|].
  apply outcome_bind_inv in H as ([r2 s2] & _ & H). destruct (negb _); [steps H; done|].
  pose proof (pgmeta_alloc_image va_pg (cur v1)) as Ha. destruct i as [i|].
  - simplify_eq. apply note_resident_image.
  - destruct (pgmeta_alloc va_pg (cur v1)) as [i p]. simplify_eq. cbn [snd] in Ha. rewrite <- Ha. apply note_resident_image.
Qed.

Lemma fault_anon_keeps pt va_pg : keeps (fault_anon kend use_clock pt va_pg).
Proof.
  intros v r v' H. unfold fault_anon in H. pose proof (pgmeta_alloc_image va_pg (cur v)) as Ha.
  destruct (pgmeta_alloc va_pg (cur v)) as [i p]. cbn [snd] in Ha. rewrite <- Ha.
  apply outcome_bind_inv in H as ([page v1] & H1 & H). apply kalloc_or_evict_keeps in H1. cbn [cur] in H1. rewrite <- H1.
  destruct (page =? 0); [by simplify_eq|]. apply outcome_bind_inv in H as ([r2 s2] & _ & H).
  destruct (negb _); [steps H; done|]. simplify_eq. apply note_resident_image.
Qed.

Lemma vmfault_keeps pt fva w : keeps (vmfault kend use_clock pt fva w).
Proof.
  intros v r v' H. unfold vmfault in H. destruct (MAXVA <=? fva); [by simplify_eq|].
  apply outcome_bind_inv in H as ([pte s] & _ & H). destruct (_ && _).
  { destruct (fault_present _ _ _ _ _) as [r1 v1] eqn:E. simplify_eq. by eapply fault_present_image. }
  destruct (i ← _; _) as [s0|].
  - destruct (execip (cur v)); [|by simplify_eq]. destruct (pgmeta_find _ _); [|by eapply fault_exec_keeps].
    match type of H with (if ?b then _ else _) = _ => destruct b end; [by eapply fault_swapin_keeps|by eapply fault_exec_keeps].
  - destruct (_ || _); [by eapply fault_anon_keeps|by simplify_eq].
Qed.

Lemma copyout_keeps fuel : forall pt dst src, keeps (copyout kend use_clock fuel pt dst src).
Proof.
  induction fuel as [|fuel IH]; intros pt dst [|b src] v r v' H; cbn [copyout] in H; try (by simplify_eq).
  destruct (MAXVA <=? _); [by simplify_eq|]. apply outcome_bind_inv in H as (v1 & H1 & H).
  assert (same_image (cur v1) (cur v)) as <-.
  { match type of H1 with (if ?b then _ else _) = _ => destruct b end; [|by simplify_eq]. apply outcome_bind_inv in H1 as ([r1 v2] & H1 & H2). simplify_eq.
    by eapply vmfault_keeps. }
  match type of H with (if ?b then _ else _) = _ => destruct b end; [by simplify_eq|]. apply outcome_bind_inv in H as ([pte s] & _ & H).
  match type of H with (if ?b then _ else _) = _ => destruct b end; [by simplify_eq|]. apply IH in H. done.
Qed.

End frame.
End VmFrame.

(** ** exec: the stack it builds and the headers it reads

    With enough free pages the guard page and the stack are mapped and the
    arguments are where main will find them; the program headers of a file are
    read into segments, and a file can stop the kernel. *)
Import Mem Vm Exec.


Module ExecFacts.

Section stack.
Context (kend : Z) (Hkend : 4096 <= kend <= PHYSTOP) (use_clock : bool).

Local Notation vm_inv := (vm_inv kend).

(** ** Fresh pages *)

(** Taking a page, clearing it and mapping it for the user. *)
Lemma fresh_page own q l s r va pm :
  vm_inv own (q :: l) s r -> 0 <= va < MAXVA -> va mod 4096 = 0 -> entry s r va = None ->
  0 <= pm < 1024 -> has_flag pm PTE_U = true -> (3 <= length l)%nat ->
  exists s1 s2 own2 l2, kalloc s = (q, s1) /\ q <> 0 /\ is_page q /\
    mappages r va PGSIZE q pm (zero_page q s1) = Ret (0, s2) /\ vm_inv own2 l2 s2 r /\
    (length l <= length l2 + 2)%nat /\
    forall va', 0 <= va' < MAXVA ->
      entry s2 r va' = if va' / 4096 =? va / 4096 then Some (mk_pte q pm) else entry s r va'.
Proof.
  intros Hvi Hva Hal Hnone Hpm Hu Hl.
  destruct (kalloc_inv kend Hkend _ _ _ _ Hvi) as (s1 & Hk & Hrq & Hfq & Hvi1 & Hm1).
  set (own1 := use_page q Other own) in *. assert (own1 q = Other) as Hq1 by apply use_page_same.
  destruct (fill_page kend own1 l s1 r q (memset (mem s1) q 0 PGSIZE) Hvi1 Hq1) as [Hvi2 Hpl].
  { intros x Hx. apply memset_out. apply page_of_put; [apply Hrq|done]. }
  assert (forall va', entry (zero_page q s1) r va' = entry s r va') as Hent.
  { intros va'. apply entry_leaf. cbn [zero_page mem]. rewrite (proj2 (Hpl va')).
    apply (tables_kept_pte kend own); [apply Hvi|]. intros x Hx. apply Hm1. intros Heq. by rewrite Heq, Hfq in Hx. }
  pose proof (ram_is_page kend Hkend q Hrq) as Hpq.
  destruct (mappages_page kend Hkend own1 l (zero_page q s1) r va q pm) as
    (rc & s2 & own2 & l2 & used & Hmp & [-> Hused] & Hvi3 & _ & _ & Hres); try done; [by rewrite Hent|].
  rewrite length_app in Hl. destruct Hres as [(-> & He & _)|(_ & -> & _)]; [|simpl in Hl; lia].
  exists s1, s2, own2, l2. split_and!; try done; [by apply (ram_nonzero kend Hkend)|rewrite length_app; lia|].
  intros va' Hva'. by rewrite He, Hent.
Qed.

(** What an allocation changes in the process: its page records. *)
Definition same_but_meta (v v' : vm) : Prop :=
  room v' = room v /\ exists m c, let p := cur v in cur v' = {| p with pgmeta := m; page_seq_ctr := c |}.

Lemma same_but_meta_refl v : same_but_meta v v.
Proof. split; [done|]. exists (pgmeta (cur v)), (page_seq_ctr (cur v)). by destruct (cur v). Qed.

Lemma same_but_meta_trans v v' v'' : same_but_meta v v' -> same_but_meta v' v'' -> same_but_meta v v''.
Proof.
  intros [H1 (m & c & H2)] [H3 (m' & c' & H4)]. split; [congruence|]. exists m', c'. cbn zeta in *.
  by rewrite H4, H2.
Qed.

Lemma pgmeta_alloc_meta va p : exists m, snd (pgmeta_alloc va p) = {| p with pgmeta := m |}.
Proof.
  unfold pgmeta_alloc. repeat case_match; try (exists (pgmeta p); by destruct p). by eexists.
Qed.

Lemma update_meta_meta i f p : exists m, update_meta i f p = {| p with pgmeta := m |}.
Proof. unfold update_meta. repeat case_match; try (exists (pgmeta p); by destruct p). by eexists. Qed.

Lemma kalloc_or_evict_free v q l own r :
  vm_inv own (q :: l) (ph v) r -> forall s1, kalloc (ph v) = (q, s1) ->
  kalloc_or_evict kend use_clock v = Ret (q, {| v with ph := s1 |}).
Proof.
  intros Hvi s1 Hk. destruct (kalloc_inv kend Hkend _ _ _ _ Hvi) as (_ & _ & Hrq & _).
  unfold kalloc_or_evict. rewrite Hk. by rewrite (proj2 (Z.eqb_neq q 0) (ram_nonzero kend Hkend q Hrq)).
Qed.

(** The pages of [a, a + 4096 n) hold entries of fresh pages with permissions [pm]. *)
Definition mapped (s s' : phys) (r a : Z) (n : nat) (pm : Z) : Prop :=
  forall va, 0 <= va < MAXVA ->
    if in_range a n va then exists q, is_page q /\ entry s' r va = Some (mk_pte q pm)
    else entry s' r va = entry s r va.

(** What exec maps for the stack: readable, writable, of the user. *)
Definition STACK_PERM : Z := Z.lor (Z.lor PTE_R PTE_U) PTE_W.

Lemma in_range_S a n va : a mod 4096 = 0 ->
  in_range a (S n) va = (va / 4096 =? a / 4096) || in_range (a + 4096) n va.
Proof.
  intros Ha. unfold in_range. rewrite (proj2 (page_step a Ha)).
  destruct (Z.leb_spec (a / 4096) (va / 4096)), (Z.ltb_spec (va / 4096) (a / 4096 + Z.of_nat (S n))),
    (Z.eqb_spec (va / 4096) (a / 4096)), (Z.leb_spec (a / 4096 + 1) (va / 4096)),
    (Z.ltb_spec (va / 4096) (a / 4096 + 1 + Z.of_nat n)); simpl; try done; lia.
Qed.

Lemma uvmalloc_pages n : forall fuel own l v r a oldsz,
  vm_inv own l (ph v) r -> a mod 4096 = 0 -> 0 <= a -> a + 4096 * Z.of_nat n <= MAXVA ->
  (forall va, 0 <= va < MAXVA -> in_range a n va = true -> entry (ph v) r va = None) ->
  (4 * n <= length l)%nat -> (n < fuel)%nat ->
  exists v' own' l',
    uvmalloc_loop kend use_clock fuel r a oldsz (a + 4096 * Z.of_nat n) PTE_W v = Ret (a + 4096 * Z.of_nat n, v') /\
    vm_inv own' l' (ph v') r /\ same_but_meta v v' /\ mapped (ph v) (ph v') r a n STACK_PERM.
Proof.
  induction n as [|n IH]; intros fuel own l v r a oldsz Hvi Hal Ha Hend Hnone Hl Hfuel.
  - replace (a + 4096 * Z.of_nat 0) with a by lia. exists v, own, l. destruct fuel as [|fuel]; [lia|].
    cbn [uvmalloc_loop]. rewrite Z.ltb_irrefl. split_and!; try done; [apply same_but_meta_refl|].
    intros va Hva. unfold in_range. replace (a / 4096 + Z.of_nat 0) with (a / 4096) by lia.
    destruct (Z.leb_spec (a / 4096) (va / 4096)), (Z.ltb_spec (va / 4096) (a / 4096)); try done; lia.
  - destruct fuel as [|fuel]; [lia|]. cbn [uvmalloc_loop]. rewrite (proj2 (Z.ltb_lt _ _)) by lia.
    destruct l as [|q l]; [simpl in Hl; lia|]. cbn [length] in Hl. fold STACK_PERM.
    destruct (page_step a Hal) as [Hal' Hdiv].
    destruct (fresh_page own q l (ph v) r a STACK_PERM) as
      (s1 & s2 & own2 & l2 & Hk & Hq0 & Hpq & Hmp & Hvi2 & Hl2 & Hent); try done; [lia| |lia|].
    { apply Hnone; [lia|]. rewrite in_range_S by done. by rewrite Z.eqb_refl. }
    rewrite (kalloc_or_evict_free v q l own r Hvi s1 Hk). cbn [mbind outcome_bind].
    rewrite (proj2 (Z.eqb_neq q 0) Hq0). cbn [ph cur]. rewrite Hmp. cbn [mbind outcome_bind].
    rewrite Z.eqb_refl. cbn [negb].
    set (next := match pgmeta_alloc a (cur v) with (i, p) => _ end).
    assert (exists v1, same_but_meta v v1 /\ ph v1 = s2 /\
      next = uvmalloc_loop kend use_clock fuel r (u64 (a + PGSIZE)) oldsz (a + 4096 * Z.of_nat (S n)) PTE_W v1)
      as (v1 & Hs1 & Hp1 & ->).
    { destruct (pgmeta_alloc a (cur v)) as [i p] eqn:Ea. destruct (pgmeta_alloc_meta a (cur v)) as [m Em].
      rewrite Ea in Em. cbn [snd] in Em. subst p. unfold next. destruct i as [i|].
      - match goal with |- context [update_meta ?i ?f ?p] => destruct (update_meta_meta i f p) as [m' ->] end.
        eexists (mk_vm s2 _ (room v)). split_and!; [|done|reflexivity].
        split; [done|]. by exists m', (u64 (page_seq_ctr (cur v) + 1)).
      - eexists (mk_vm s2 _ (room v)). split_and!; [|done|reflexivity].
        split; [done|]. exists m, (page_seq_ctr (cur v)). by destruct (cur v). }
    rewrite wrapu_small by (rewrite MAXVA_eq in Hend; unfold PGSIZE; lia).
    change PGSIZE with 4096. replace (a + 4096 * Z.of_nat (S n)) with (a + 4096 + 4096 * Z.of_nat n) by lia.
    destruct (IH fuel own2 l2 v1 r (a + 4096) oldsz) as (v' & own' & l' & Hrun & Hvi' & Hs' & Hm');
      try done; try lia; [by rewrite Hp1| |].
    { intros va Hva Hin. rewrite Hp1, Hent by done.
      unfold in_range in Hin. rewrite (proj2 (Z.eqb_neq _ _)) by (to_prop; lia).
      apply Hnone; [done|]. rewrite in_range_S by done. unfold in_range. by rewrite Hin, orb_true_r. }
    exists v', own', l'. split_and!; [done|done|by eapply same_but_meta_trans|].
    intros va Hva. specialize (Hm' va Hva). rewrite in_range_S by done.
    destruct (in_range (a + 4096) n va) eqn:E; [by rewrite orb_true_r|]. rewrite orb_false_r, Hm', Hp1, Hent by done.
    destruct (va / 4096 =? a / 4096); [by exists q|done].
Qed.

(** ** The guard page and the stack *)

Lemma has_flag_clear x f g : 0 <= g -> Z.land f g = 0 -> has_flag (Z.land x (Z.lnot g)) f = has_flag x f.
Proof.
  intros Hg Hfg. unfold has_flag. do 2 f_equal. rewrite <- Z.land_assoc, (Z.land_comm (Z.lnot g)).
  rewrite <- Z.ldiff_land. f_equal. symmetry. apply Z.bits_inj'. intros k Hk. rewrite Z.ldiff_spec.
  pose proof (f_equal (fun z => Z.testbit z k) Hfg) as H. cbn in H. rewrite Z.land_spec, Z.bits_0 in H.
  by destruct (Z.testbit f k), (Z.testbit g k).
Qed.

Lemma uvmclear_spec own l s r va e :
  vm_inv own l s r -> 0 <= va < MAXVA -> entry s r va = Some e -> 0 <= e < 2 ^ 64 ->
  exists s', uvmclear r va s = Ret s' /\ vm_inv own l s' r /\
    (forall va', 0 <= va' < MAXVA -> va' / 4096 <> va / 4096 -> entry s' r va' = entry s r va') /\
    exists e', entry s' r va = Some e' /\ has_flag e' PTE_U = false.
Proof.
  intros Hvi Hva He Hr. pose proof He as He0. apply entry_some in He0 as [Hel Hv].
  unfold leaf in Hel, Hv. destruct (pte_addr (mem s) r va) as [a|] eqn:Ha; [|by rewrite has_flag_0 in Hv].
  unfold uvmclear. rewrite walk_ok by done. rewrite (walk_lookup kend own) by apply Hvi. rewrite Ha.
  cbn [mbind outcome_bind default from_option id].
  destruct (pte_addr_pos kend Hkend _ _ _ _ _ (vi_pt _ _ _ _ _ Hvi) Ha) as (_ & _ & _ & _ & _ & Hnz & _).
  rewrite (proj2 (Z.eqb_neq a 0) Hnz). rewrite <- Hel. eexists. split; [done|].
  set (e' := Z.land e (Z.lnot PTE_U)).
  assert (has_flag e' PTE_U = false) as Hu.
  { unfold e', has_flag. rewrite <- Z.land_assoc, (Z.land_comm (Z.lnot _)), Z.land_lnot_diag, Z.land_0_r. done. }
  assert (has_flag e' PTE_V = true) as Hv'.
  { unfold e'. by rewrite has_flag_clear, Hel. }
  destruct (store_inv kend Hkend own own l s r va e' a) as (Hvi' & Hl & _); try done; try apply Hvi.
  { intros q Hq. by eapply free_not_table. }
  { split; [apply Z.land_nonneg; left; lia|]. apply Z.le_lt_trans with e; [|lia]. apply Z.ldiff_le; [lia|].
    unfold e'. rewrite Z.ldiff_land, (Z.land_comm e), <- Z.land_assoc, Z.land_lnot_diag. apply Z.land_0_r. }
  { intros _ Hu'. congruence. }
  split; [done|]. split.
  - intros va' Hva' Hne. unfold entry. rewrite Hl by done. by rewrite (proj2 (Z.eqb_neq _ _) Hne).
  - exists e'. split; [|done]. unfold entry. rewrite Hl by done. rewrite Z.eqb_refl. by rewrite Hv'.
Qed.

(** ** The arguments *)

(** Where the strings go, and the last of the addresses. *)
Definition place (n sp : Z) : Z := (sp - n) - (sp - n) mod 16.

Fixpoint places (argv : list (list Z)) (sp : Z) : list Z :=
  match argv with
  | [] => []
  | arg :: argv => let a := place (Z.of_nat (length arg) + 1) sp in a :: places argv a
  end.

Fixpoint bottom (argv : list (list Z)) (sp : Z) : Z :=
  match argv with
  | [] => sp
  | arg :: argv => bottom argv (place (Z.of_nat (length arg) + 1) sp)
  end.

Lemma place_le n sp : 0 <= n -> place n sp <= sp - n.
Proof. intros Hn. unfold place. pose proof (Z.mod_pos_bound (sp - n) 16). lia. Qed.

Lemma bottom_le argv sp : bottom argv sp <= sp.
Proof.
  revert sp. induction argv as [|arg argv IH]; intros sp; [done|]. cbn [bottom].
  pose proof (place_le (Z.of_nat (length arg) + 1) sp). specialize (IH (place (Z.of_nat (length arg) + 1) sp)). lia.
Qed.

Lemma length_places argv sp : length (places argv sp) = length argv.
Proof. revert sp. induction argv as [|arg argv IH]; intros sp; simpl; congruence. Qed.

(** Bytes just written are seen; bytes elsewhere are seen as before. *)
Lemma uview_written s r dst src :
  (forall va, dst <= va < dst + Z.of_nat (length src) ->
     uread s r va = Some (default 0 (src !! Z.to_nat (va - dst)))) ->
  uview s r dst (length src) = Some <$> src.
Proof.
  intros H. apply list_eq_same_length with (length src); [by rewrite length_fmap|by unfold uview; rewrite length_fmap, length_seq|].
  intros i x y Hi Hx Hy. unfold uview in Hx. rewrite list_lookup_fmap, lookup_seq_lt in Hx by done.
  simpl in Hx. rewrite H in Hx by lia. replace (Z.to_nat (dst + Z.of_nat i - dst)) with i in Hx by lia.
  rewrite list_lookup_fmap in Hy. destruct (src !! i); simplify_eq/=. done.
Qed.

Lemma uview_kept s s' r a n :
  (forall va, a <= va < a + Z.of_nat n -> uread s' r va = uread s r va) -> uview s' r a n = uview s r a n.
Proof. intros H. apply list_fmap_ext. intros i k [-> Hi]%lookup_seq. apply H. lia. Qed.

(** The stack pages [base, top) of page table [pt]. *)
Definition stack_pages (pt base top : Z) (s : phys) : Prop :=
  forall va, base <= va < top -> user_page s pt va true.

Lemma push_args_spec pt base top argv : forall argc sp ust own l v,
  (argc + length argv <= MAXARG)%nat -> Forall (fun arg => (length arg < 4096)%nat) argv ->
  4096 <= base -> base <= sp <= top -> top <= MAXVA -> vm_inv own l (ph v) pt -> stack_pages pt base top (ph v) ->
  exists s', push_args kend use_clock argv argc pt sp base ust v =
      Ret (if base <=? bottom argv sp then Some (bottom argv sp, ust ++ places argv sp) else None, {| v with ph := s' |}) /\
    vm_inv own l s' pt /\ (forall va, entry s' pt va = entry (ph v) pt va) /\
    (forall va, sp <= va < MAXVA -> uread s' pt va = uread (ph v) pt va) /\
    (base <= bottom argv sp -> forall i a arg, places argv sp !! i = Some a -> argv !! i = Some arg ->
       a + Z.of_nat (length arg) < sp /\ bottom argv sp <= a /\ uview s' pt a (length (arg ++ [0])) = Some <$> (arg ++ [0])).
Proof.
  induction argv as [|arg argv IH]; intros argc sp ust own l v Hargc Hlen Hbase Hsp Htop Hvi Hpages.
  - exists (ph v). cbn [push_args bottom places]. rewrite (proj2 (Z.leb_le _ _)), app_nil_r by lia.
    split_and!; try done. by destruct v.
  - apply Forall_cons in Hlen as [Hla Hlen]. cbn [push_args bottom places length] in *.
    rewrite (proj2 (Nat.leb_gt _ _)) by lia.
    set (n := Z.of_nat (length arg) + 1). rewrite wrapu_small by (rewrite MAXVA_eq in Htop; lia).
    fold (place n sp). set (a := place n sp). pose proof (place_le n sp ltac:(lia)) as Ha. fold a in Ha.
    pose proof (bottom_le argv a) as Hb. destruct (Z.ltb_spec a base) as [Hlow|Hlow].
    { exists (ph v). rewrite (proj2 (Z.leb_gt _ _)) by lia. split_and!; try done; [by destruct v|lia]. }
    assert (Z.of_nat (length (arg ++ [0])) = n) as Hn by (rewrite length_app; simpl; lia).
    destruct (copyout_spec kend Hkend use_clock (S (length (arg ++ [0]))) own l v pt a (arg ++ [0]))
      as (s1 & Hc & Hvi1 & He1 & Hu1); [done|lia|lia|lia| |].
    { intros va Hva. apply Hpages. lia. }
    rewrite Hc. cbn [mbind outcome_bind]. change (0 <? 0) with false. cbv iota.
    destruct (IH (S argc) a (ust ++ [a]) own l {| v with ph := s1 |}) as (s' & Hrun & Hvi' & He' & Hu' & Hp');
      try done; try lia.
    { intros va Hva. destruct (Hpages va Hva) as (e & He & H). exists e. cbn [ph]. by rewrite He1. }
    cbn [ph] in *. exists s'. split; [by rewrite Hrun, <- app_assoc|]. split; [done|].
    split; [intros va; by rewrite He', He1|]. split.
    + intros va Hva. rewrite Hu', Hu1 by lia. rewrite (proj2 (Z.ltb_ge _ _)) by lia. by rewrite andb_false_r.
    + intros Hbot [|i] b arg' Hi Harg; simplify_eq/=.
      * split; [lia|]. split; [done|]. apply uview_written. intros va Hva. rewrite Hu', Hu1 by lia.
        rewrite (proj2 (Z.leb_le _ _)), (proj2 (Z.ltb_lt _ _)) by lia. done.
      * destruct (Hp' Hbot i b arg' Hi Harg) as (? & ? & ?). split_and!; [lia|done|done].
Qed.

(** The array of the addresses, 0 at its end, and where it goes. *)
Definition argv_bytes (argv : list (list Z)) (top : Z) : list Z := concat (le64 <$> (places argv top ++ [0])).
Definition argv_at (argv : list (list Z)) (top : Z) : Z :=
  place (8 * (Z.of_nat (length argv) + 1)) (bottom argv top).

Lemma length_argv_bytes argv top : Z.of_nat (length (argv_bytes argv top)) = 8 * (Z.of_nat (length argv) + 1).
Proof.
  assert (forall l, length (concat (le64 <$> l)) = 8 * length l)%nat as Hl.
  { intros l. induction l as [|x l IH]; [done|]. change (length (le64 x ++ concat (le64 <$> l)) = 8 * S (length l))%nat. rewrite length_app, IH.
    unfold le64. rewrite length_fmap, length_seq. simpl. lia. }
  unfold argv_bytes. rewrite Hl, length_app, length_places. cbn [length]. lia.
Qed.

(** What main sees above the stack pointer [sp]. *)
Definition args_seen (s : phys) (pt : Z) (argv : list (list Z)) (top sp : Z) : Prop :=
  uview s pt sp (length (argv_bytes argv top)) = Some <$> argv_bytes argv top /\
  forall i a arg, places argv top !! i = Some a -> argv !! i = Some arg ->
    uview s pt a (length (arg ++ [0])) = Some <$> (arg ++ [0]).

Lemma push_argv_spec pt base top argv own l v :
  (length argv < MAXARG)%nat -> Forall (fun arg => (length arg < 4096)%nat) argv ->
  4096 <= base -> base <= top -> top <= MAXVA -> vm_inv own l (ph v) pt -> stack_pages pt base top (ph v) ->
  exists s', push_argv kend use_clock argv pt top base v =
      Ret (if base <=? argv_at argv top then Some (argv_at argv top) else None, {| v with ph := s' |}) /\
    vm_inv own l s' pt /\ (forall va, entry s' pt va = entry (ph v) pt va) /\
    (base <= argv_at argv top -> args_seen s' pt argv top (argv_at argv top)).
Proof.
  intros Hargc Hlen Hbase Htop Hmax Hvi Hpages. unfold push_argv.
  destruct (push_args_spec pt base top argv 0 top [] own l v) as (s1 & Hrun & Hvi1 & He1 & _ & Hp);
    try done; try lia. rewrite Hrun. cbn [mbind outcome_bind app]. clear Hrun.
  pose proof (place_le (8 * (Z.of_nat (length argv) + 1)) (bottom argv top) ltac:(lia)) as Hpl.
  fold (argv_at argv top) in Hpl. pose proof (bottom_le argv top) as Hbt.
  destruct (Z.leb_spec base (bottom argv top)) as [Hfit|Hno].
  2:{ exists s1. rewrite (proj2 (Z.leb_gt _ _)) by lia. split_and!; try done. lia. }
  rewrite (proj2 (Nat.leb_gt _ _)) by (by rewrite length_places). fold (argv_bytes argv top).
  rewrite length_argv_bytes. unfold MAXARG in Hargc.
  rewrite wrapu_small by (rewrite MAXVA_eq in Hmax; lia).
  change (bottom argv top - 8 * (Z.of_nat (length argv) + 1) - (bottom argv top - 8 * (Z.of_nat (length argv) + 1)) mod 16)
    with (argv_at argv top).
  destruct (Z.ltb_spec (argv_at argv top) base) as [Hlow|Hlow].
  { exists s1. rewrite (proj2 (Z.leb_gt _ _)) by lia. split_and!; try done. lia. }
  rewrite (proj2 (Z.leb_le _ _)) by lia. pose proof (length_argv_bytes argv top) as Hlb.
  destruct (copyout_spec kend Hkend use_clock (S (length (argv_bytes argv top))) own l {| v with ph := s1 |} pt
    (argv_at argv top) (argv_bytes argv top)) as (s2 & Hc & Hvi2 & He2 & Hu2); [done|lia|lia|lia| |].
  { intros va Hva. destruct (Hpages va ltac:(lia)) as (e & He & H). exists e. cbn [ph]. by rewrite He1. }
  rewrite Hc. cbn [mbind outcome_bind ph]. change (0 <? 0) with false. cbv iota.
  exists s2. split; [done|]. split; [done|]. split; [intros va; by rewrite He2, He1|]. intros _. split.
  - apply uview_written. intros va Hva. rewrite Hu2 by lia.
    by rewrite (proj2 (Z.leb_le _ _)), (proj2 (Z.ltb_lt _ _)) by lia.
  - intros i a arg Ha Harg. destruct (Hp Hfit i a arg Ha Harg) as (H1 & H2 & <-).
    apply uview_kept. intros va Hva. rewrite length_app in Hva. simpl in Hva. rewrite Hu2 by lia.
    rewrite (proj2 (Z.ltb_ge _ _)) by lia. by rewrite andb_false_r.
Qed.

Lemma roundup_page a : 0 <= a <= MAXVA -> PGROUNDUP a mod 4096 = 0 /\ a <= PGROUNDUP a < a + 4096 /\ 0 <= PGROUNDUP a.
Proof.
  intros Ha. rewrite MAXVA_eq in Ha. rewrite roundup_eq by lia.
  pose proof (Z.mod_pos_bound (a + 4095) 4096 ltac:(lia)). pose proof (Z.div_mod (a + 4095) 4096 ltac:(lia)).
  split; [|lia]. replace (a + 4095 - (a + 4095) mod 4096) with ((a + 4095) / 4096 * 4096) by lia. by apply Z.mod_mul.
Qed.

Lemma in_range_pages a n va : a mod 4096 = 0 -> in_range a n va = true <-> a <= va < a + 4096 * Z.of_nat n.
Proof.
  intros Ha. unfold in_range. rewrite andb_true_iff, Z.leb_le, Z.ltb_lt.
  pose proof (Z.div_mod a 4096 ltac:(lia)). pose proof (Z.div_mod va 4096 ltac:(lia)).
  pose proof (Z.mod_pos_bound va 4096 ltac:(lia)). lia.
Qed.

Lemma roundup_aligned a : a mod 4096 = 0 -> 0 <= a <= MAXVA -> PGROUNDUP a = a.
Proof.
  intros Hal Ha. destruct (roundup_page a Ha) as (H1 & H2 & _).
  pose proof (Z.div_mod a 4096 ltac:(lia)). pose proof (Z.div_mod (PGROUNDUP a) 4096 ltac:(lia)). lia.
Qed.

(** (C8) exec's stack: with eight free pages, two pages are mapped above the program,
    the lower of which the user cannot touch; the arguments are accepted exactly if
    they fit into the other, and then the stack pointer is aligned to 16 bytes and
    points to the array of the arguments' addresses, which ends with 0, and every
    string is at its address with its NUL. *)
Theorem exec_builds_stack own l v pt size argv :
  vm_inv own l (ph v) pt -> (8 <= length l)%nat ->
  0 <= size <= MAXVA -> PGROUNDUP size + 8192 <= MAXVA ->
  (forall va, PGROUNDUP size <= va < PGROUNDUP size + 8192 -> entry (ph v) pt va = None) ->
  (length argv < MAXARG)%nat -> Forall (fun arg => (length arg < 4096)%nat) argv ->
  let top := PGROUNDUP size + 8192 in let sp := argv_at argv top in
  exists v' own' l', user_stack kend use_clock argv pt size v
      = Ret (top, if PGROUNDUP size + 4096 <=? sp then Some sp else None, v') /\
    vm_inv own' l' (ph v') pt /\ same_but_meta v v' /\
    walkaddr pt (PGROUNDUP size) (ph v') = 0 /\
    (PGROUNDUP size + 4096 <= sp -> sp mod 16 = 0 /\ args_seen (ph v') pt argv top sp).
Proof.
  intros Hvi Hl Hs Htop Hnone Hargc Hlen. cbn zeta. unfold user_stack.
  set (base := PGROUNDUP size) in *.
  destruct (roundup_page size Hs) as (Hal & Hb0 & _). fold base in Hal, Hb0.
  assert (PGROUNDUP base = base) as Hrb by (apply roundup_aligned; [done|lia]).
  change ((USERSTACK + 1) * PGSIZE) with 8192. change (USERSTACK * PGSIZE) with 4096.
  rewrite MAXVA_eq in Htop. rewrite (wrapu_small 64 (base + 8192)) by lia. rewrite <- MAXVA_eq in Htop.
  unfold uvmalloc. rewrite (proj2 (Z.ltb_ge _ _)), Hrb by lia.
  replace ((base + 8192 - base) / PGSIZE + 1) with 3 by (replace (base + 8192 - base) with 8192 by lia; done).
  change (S (Z.to_nat 3)) with 4%nat. replace (base + 8192) with (base + 4096 * Z.of_nat 2) by lia.
  destruct (uvmalloc_pages 2 4 own l v pt base base) as (v1 & own1 & l1 & Hrun & Hvi1 & Hs1 & Hm1); try done; try lia.
  { intros va Hva Hin. apply Hnone. by apply (in_range_pages base 2 va Hal) in Hin. }
  rewrite Hrun. cbn [mbind outcome_bind]. rewrite (proj2 (Z.eqb_neq _ _)) by lia.
  replace (u64 (base + 4096 * Z.of_nat 2 - 8192)) with base
    by (rewrite wrapu_small; rewrite MAXVA_eq in Htop; lia).
  replace (u64 (base + 4096 * Z.of_nat 2 - 4096)) with (base + 4096)
    by (rewrite wrapu_small; rewrite MAXVA_eq in Htop; lia).
  destruct (page_step base Hal) as [Hal1 Hdiv1].
  assert (forall va, base <= va < base + 8192 -> exists q, is_page q /\ entry (ph v1) pt va = Some (mk_pte q STACK_PERM)) as Hnew.
  { intros va Hva. specialize (Hm1 va ltac:(lia)). rewrite (proj2 (in_range_pages base 2 va Hal)) in Hm1 by lia. done. }
  destruct (Hnew base ltac:(lia)) as (q & Hq & He).
  destruct (uvmclear_spec own1 l1 (ph v1) pt base _ Hvi1 ltac:(lia) He ltac:(by apply mk_pte_range))
    as (s2 & Hc & Hvi2 & Hother & (e' & He' & Hu')).
  rewrite Hc. cbn [mbind outcome_bind].
  destruct (push_argv_spec pt (base + 4096) (base + 4096 * Z.of_nat 2) argv own1 l1 {| v1 with ph := s2 |})
    as (s3 & Hp & Hvi3 & He3 & Hargs); try done; try lia.
  { intros va Hva. unfold user_page. cbn [ph]. rewrite Hother; [|lia|].
    - destruct (Hnew va ltac:(lia)) as (q' & Hq' & Hqe). exists (mk_pte q' STACK_PERM). split; [done|].
      rewrite !has_flag_mk_pte; [done|done|done|by vm_compute|done|done|by vm_compute].
    - pose proof (Z.div_le_mono (base + 4096) va 4096 ltac:(lia) ltac:(lia)). lia. }
  rewrite Hp. cbn [mbind outcome_bind]. eexists _, own1, l1. split; [done|]. cbn [ph].
  split; [done|]. split; [done|]. split.
  - rewrite (walkaddr_entry kend Hkend own1 l1) by (done || lia). cbn [ph] in He3. by rewrite He3, He', Hu'.
  - intros Hfit. split; [|by apply Hargs]. unfold argv_at, place. set (x := bottom argv _ - _).
    replace (x - x mod 16) with (x / 16 * 16) by (pose proof (Z.div_mod x 16 ltac:(lia)); lia). by apply Z.mod_mul.
Qed.

End stack.
End ExecFacts.
