(* ===== verification/ExecImage.v ===== *)
(** * exec: program files

    The headers of a program file are read as what they were written from; what a
    failing exec leaves of its caller, and a file that stops the kernel. *)
From S2P Require Import Prelude Mem MemFacts Vm PageTable VmMap KallocSpec VmSpec Buf Fs FsFacts FsBytes Dir DirFacts File FileWrite Syscall Exec ExecFacts.

Import Mem Vm FsFacts FsFile FsBytes FileWrite VmFrame Exec.

#[local] Open Scope Z_scope.

Module ExecImage.

(** ** Little-endian numbers *)

Definition le_bytes (n : nat) (x : Z) : list Z := (fun i => x / 256 ^ Z.of_nat i mod 256) <$> seq 0 n.

Lemma le_bytes_S n x : le_bytes (S n) x = x mod 256 :: le_bytes n (x / 256).
Proof.
  unfold le_bytes. cbn [seq fmap list_fmap]. rewrite Z.pow_0_r, Z.div_1_r. f_equal.
  rewrite <- seq_shift. rewrite <- list_fmap_compose. apply list_fmap_ext. intros i k _. cbn.
  rewrite Nat2Z.inj_succ, Z.pow_succ_r by lia. by rewrite Z.div_div by lia.
Qed.

Lemma length_le_bytes n x : length (le_bytes n x) = n.
Proof. unfold le_bytes. by rewrite length_fmap, length_seq. Qed.

Lemma le_le_bytes n : forall x rest, 0 <= x < 256 ^ Z.of_nat n -> Syscall.le n (le_bytes n x ++ rest) = x.
Proof.
  induction n as [|n IH]; intros x rest Hx.
  - cbn. rewrite Z.pow_0_r in Hx. lia.
  - rewrite le_bytes_S. cbn [app Syscall.le]. rewrite IH.
    + pose proof (Z.div_mod x 256). lia.
    + rewrite Nat2Z.inj_succ, Z.pow_succ_r in Hx by lia.
      split; [apply Z.div_pos; lia|apply Z.div_lt_upper_bound; lia].
Qed.

(** A structure's bytes, from the sizes and values of its fields. *)
Definition struct (fs : list (nat * Z)) : list Z := concat ((fun f => le_bytes f.1 f.2) <$> fs).

Definition offset (fs : list (nat * Z)) (i : nat) : nat := sum_list (fst <$> take i fs).

Lemma length_struct fs : length (struct fs) = sum_list (fst <$> fs).
Proof.
  induction fs as [|[n x] fs IH]; [done|]. change (struct ((n, x) :: fs)) with (le_bytes n x ++ struct fs).
  rewrite length_app, length_le_bytes, IH. done.
Qed.

Lemma field_struct fs i n x rest :
  fs !! i = Some (n, x) -> 0 <= x < 256 ^ Z.of_nat n -> field (struct fs ++ rest) (offset fs i) n = x.
Proof.
  intros Hi Hx. rewrite <- (take_drop_middle _ _ _ Hi) at 1. unfold struct. rewrite fmap_app, concat_app, fmap_cons.
  fold (struct (take i fs)). change (concat (?a :: ?l)) with (a ++ concat l).
  unfold field. rewrite <- !app_assoc. unfold offset. rewrite <- length_struct, drop_app_length.
  by apply le_le_bytes.
Qed.

(** ** Program files *)

(** The bytes of a program header; exec ignores the physical address and the alignment. *)
Definition proghdr_fields (pa al : Z) (h : proghdr) : list (nat * Z) :=
  [(4, ptype h); (4, pflags h); (8, poff h); (8, vaddr h); (8, pa); (8, pfilesz h); (8, pmemsz h); (8, al)]%nat.
Definition proghdr_bytes (pa al : Z) (h : proghdr) : list Z := struct (proghdr_fields pa al h).

(** The ELF header of a file with [n] program headers right behind it; [other]: what
    stands in the fields that exec ignores. *)
Definition elfhdr_fields (other entry : Z) (n : nat) : list (nat * Z) :=
  [(4, ELF_MAGIC); (20, other); (8, entry); (8, 64%Z); (16, other); (2, Z.of_nat n); (6, other)]%nat.
Definition elfhdr_bytes (other entry : Z) (n : nat) : list Z := struct (elfhdr_fields other entry n).

(** A program file: its headers, with the fields [(pa, al)] of each, and the rest. *)
Definition image (other entry : Z) (phs : list (proghdr * (Z * Z))) (data : list Z) : list Z :=
  elfhdr_bytes other entry (length phs) ++
  concat ((fun h => proghdr_bytes h.2.1 h.2.2 h.1) <$> phs) ++ data.

(** The fields are in the ranges of their types. *)
Definition ph_range (h : proghdr) : Prop :=
  0 <= ptype h < 2 ^ 32 /\ 0 <= pflags h < 2 ^ 32 /\ 0 <= poff h < 2 ^ 64 /\ 0 <= vaddr h < 2 ^ 64 /\
  0 <= pfilesz h < 2 ^ 64 /\ 0 <= pmemsz h < 2 ^ 64.

Lemma proghdr_roundtrip pa al h : ph_range h -> proghdr_of (proghdr_bytes pa al h) = h.
Proof.
  intros (H1 & H2 & H3 & H4 & H5 & H6). unfold proghdr_of, proghdr_bytes. set (fs := proghdr_fields pa al h).
  rewrite <- (app_nil_r (struct fs)). destruct h. f_equal.
  - by apply (field_struct fs 0).
  - by apply (field_struct fs 1).
  - by apply (field_struct fs 2).
  - by apply (field_struct fs 3).
  - by apply (field_struct fs 5).
  - by apply (field_struct fs 6).
Qed.

Lemma elfhdr_roundtrip other entry n rest :
  0 <= entry < 2 ^ 64 -> Z.of_nat n < 2 ^ 16 ->
  elfhdr_of (elfhdr_bytes other entry n ++ rest) = mk_elfhdr ELF_MAGIC entry 64 (Z.of_nat n).
Proof.
  intros He Hn. unfold elfhdr_of, elfhdr_bytes. set (fs := elfhdr_fields other entry n). f_equal.
  - by apply (field_struct fs 2).
  - apply (field_struct fs 5); [done|]. lia.
Qed.

Lemma length_elfhdr other entry n : length (elfhdr_bytes other entry n) = 64%nat.
Proof. apply length_struct. Qed.

Lemma length_proghdr pa al h : length (proghdr_bytes pa al h) = 56%nat.
Proof. apply length_struct. Qed.

(** ** Reading a file *)

Lemma vm_readi_slice F off n :
  0 <= off -> 0 <= n -> off + n <= Z.of_nat (length F) -> Z.of_nat (length F) < 2 ^ 32 ->
  Vm.readi F off n = take (Z.to_nat n) (drop (Z.to_nat off) F).
Proof.
  intros H1 H2 H3 H4. unfold Vm.readi. rewrite wrapu_small by lia.
  rewrite !(proj2 (Z.ltb_ge _ _)) by lia. done.
Qed.

Section headers.
Context (ds : Z) (s : Fs.fs) (ip : nat) (Hio : inode_ok ds s ip).

Lemma file_short : Z.of_nat (length (file_of s ip)) <= 274432.
Proof.
  pose proof (io_size _ _ _ Hio) as H. unfold file_of. rewrite length_bytes_from.
  change (Fs.MAXFILE * Buf.BSIZE) with 274432 in H. lia.
Qed.

(** A part of the file. *)
Lemma readi_part pre b post n :
  file_of s ip = pre ++ b ++ post -> n = Z.of_nat (length b) ->
  Fs.readi ip (Z.of_nat (length pre)) n s = Ret (b, s).
Proof.
  intros HF ->. pose proof file_short as Hl. rewrite HF, !length_app in Hl.
  rewrite (readi_spec ds) by (done || lia). rewrite HF, vm_readi_slice by (rewrite ?length_app; lia).
  by rewrite !Nat2Z.id, drop_app_length, take_app_length.
Qed.

Definition loadable (phs : list proghdr) : list proghdr := List.filter (fun h => ptype h =? ELF_PROG_LOAD) phs.

(** The segments noted, and the end of the highest one. *)
Definition segments (phs : list proghdr) : list seg :=
  take NSEGS ((fun h => mk_seg (vaddr h) (pmemsz h) (pfilesz h) (poff h) (flags2perm (pflags h))) <$> loadable phs).
Definition program_size (phs : list proghdr) : Z :=
  fold_left (fun sz h => Z.max sz (u64 (vaddr h + pmemsz h))) (loadable phs) 0.

Lemma segs_noted phs : forall segs, (length segs <= NSEGS)%nat ->
  fold_left (fun segs h => note_seg h segs) phs segs =
  take NSEGS (segs ++ ((fun h => mk_seg (vaddr h) (pmemsz h) (pfilesz h) (poff h) (flags2perm (pflags h))) <$> phs)).
Proof.
  induction phs as [|h phs IH]; intros segs Hl; cbn [fold_left].
  - by rewrite app_nil_r, take_ge.
  - rewrite fmap_cons. unfold note_seg at 2. destruct (Nat.ltb_spec (length segs) NSEGS).
    + rewrite IH by (rewrite length_app; simpl; lia). by rewrite <- app_assoc.
    + rewrite IH by done. rewrite !take_app_le by lia. done.
Qed.

Lemma load_loop_reads bs : forall pre post segs sz,
  file_of s ip = pre ++ concat bs ++ post -> Forall (fun b => length b = 56%nat) bs ->
  let lds := loadable (proghdr_of <$> bs) in
  exists segs' sz', load_loop (length bs) ip (Z.of_nat (length pre)) sz segs s
      = Ret (forallb seg_ok lds, segs', sz', s) /\
    (forallb seg_ok lds = true ->
       segs' = fold_left (fun segs h => note_seg h segs) lds segs /\
       sz' = fold_left (fun sz h => Z.max sz (u64 (vaddr h + pmemsz h))) lds sz).
Proof.
  induction bs as [|b bs IH]; intros pre post segs sz HF Hb; cbn zeta.
  - by exists segs, sz.
  - apply Forall_cons in Hb as [Hlb Hb]. change (concat (b :: bs)) with (b ++ concat bs) in HF.
    rewrite <- app_assoc in HF. pose proof file_short as Hs. rewrite HF, !length_app in Hs.
    cbn [length load_loop]. rewrite (wrapu_small 32) by lia.
    rewrite (readi_part pre b (concat bs ++ post)) by (done || unfold SIZEOF_PROGHDR; lia).
    cbn [mbind outcome_bind]. rewrite Hlb. cbn [negb]. change (Z.of_nat 56 =? SIZEOF_PROGHDR) with true. cbn [negb].
    rewrite i32_small by (unfold SIZEOF_PROGHDR; lia).
    replace (Z.of_nat (length pre) + SIZEOF_PROGHDR) with (Z.of_nat (length (pre ++ b)))
      by (rewrite length_app, Hlb; unfold SIZEOF_PROGHDR; lia).
    rewrite (app_assoc pre b) in HF. rewrite fmap_cons. unfold loadable. cbn [List.filter]. fold (loadable (proghdr_of <$> bs)).
    destruct (ptype (proghdr_of b) =? ELF_PROG_LOAD); cbn [negb]; [|by apply (IH _ post)].
    cbn [forallb fold_left]. destruct (seg_ok (proghdr_of b)); cbn [negb andb]; [|by exists segs, sz].
    replace (if sz <? _ then _ else sz) with (Z.max sz (u64 (vaddr (proghdr_of b) + pmemsz (proghdr_of b))))
      by (destruct (Z.ltb_spec sz (u64 (vaddr (proghdr_of b) + pmemsz (proghdr_of b)))); lia).
    by apply (IH _ post).
Qed.

Lemma exec_headers other entry phs data :
  file_of s ip = image other entry phs data ->
  0 <= entry < 2 ^ 64 -> Z.of_nat (length phs) < 2 ^ 16 -> Forall (fun h => ph_range h.1) phs ->
  exists hdr, Fs.readi ip 0 SIZEOF_ELFHDR s = Ret (hdr, s) /\ Z.of_nat (length hdr) = SIZEOF_ELFHDR /\
    elfhdr_of hdr = mk_elfhdr ELF_MAGIC entry 64 (Z.of_nat (length phs)) /\
    exists segs sz, load_loop (length phs) ip 64 0 [] s = Ret (forallb seg_ok (loadable phs.*1), segs, sz, s) /\
      (forallb seg_ok (loadable phs.*1) = true -> segs = segments phs.*1 /\ sz = program_size phs.*1).
Proof.
  intros HF He Hn Hr. unfold image in HF. exists (elfhdr_bytes other entry (length phs)).
  split; [by apply (readi_part [] _ _ _ HF)|]. split; [done|].
  split; [rewrite <- (app_nil_r (elfhdr_bytes _ _ _)); by apply elfhdr_roundtrip|].
  set (bs := (fun h => proghdr_bytes h.2.1 h.2.2 h.1) <$> phs) in *.
  assert (proghdr_of <$> bs = phs.*1) as Hbs.
  { subst bs. rewrite <- list_fmap_compose. apply list_fmap_ext. intros k h Hk. cbn.
    apply proghdr_roundtrip. by eapply Forall_lookup_1 in Hr; [|exact Hk]. }
  destruct (load_loop_reads bs (elfhdr_bytes other entry (length phs)) data [] 0 HF) as (segs & sz & Hl & Hok).
  { apply Forall_fmap, Forall_true. intros h. apply length_proghdr. }
  rewrite Hbs in *. rewrite length_elfhdr in Hl. unfold bs in Hl. rewrite length_fmap in Hl.
  exists segs, sz. split; [exact Hl|]. intros Hseg. destruct (Hok Hseg) as [-> ->]. split; [|done].
  rewrite segs_noted by (simpl; lia). done.
Qed.

End headers.

(** The headers of every program file, whatever stands in the fields exec
    ignores, are read back as they were written: the loop notes exactly the first
    sixteen loadable segments and the end of the highest one, or stops at a header
    whose sizes or address are not allowed. *)
Theorem exec_reads_headers ds s ip other entry phs data :
  inode_ok ds s ip -> file_of s ip = image other entry phs data ->
  0 <= entry < 2 ^ 64 -> Z.of_nat (length phs) < 2 ^ 16 -> Forall (fun h => ph_range h.1) phs ->
  exists hdr, Fs.readi ip 0 SIZEOF_ELFHDR s = Ret (hdr, s) /\
    elfhdr_of hdr = mk_elfhdr ELF_MAGIC entry 64 (Z.of_nat (length phs)) /\
    exists segs sz, load_loop (length phs) ip 64 0 [] s = Ret (forallb seg_ok (loadable phs.*1), segs, sz, s) /\
      (forallb seg_ok (loadable phs.*1) = true -> segs = segments phs.*1 /\ sz = program_size phs.*1).
Proof.
  intros Hio HF He Hn Hr. destruct (exec_headers ds s ip Hio other entry phs data HF He Hn Hr) as (hdr & H1 & _ & H).
  by exists hdr.
Qed.

(** ** exec on a program file *)

Lemma ilock_locked i s s' : Fs.ilock i s = Ret s' -> 0 < Fs.ref (Fs.geti s' i) /\ Fs.locked (Fs.geti s' i) = true.
Proof.
  unfold Fs.ilock. intros H. destruct (Z.ltb_spec (Fs.ref (Fs.geti s i)) 1) as [|Hr]; [done|].
  assert (i < length (Fs.itable s))%nat as Hi.
  { destruct (decide (i < length (Fs.itable s))%nat); [done|]. unfold Fs.geti in Hr.
    rewrite lookup_ge_None_2 in Hr by lia. cbn in Hr. lia. }
  destruct (Fs.locked (Fs.geti s i)); [done|]. rewrite !geti_seti_eq in H by done.
  cbn [Fs.valid] in H. destruct (Fs.valid (Fs.geti s i)).
  - injection H as <-. rewrite geti_seti_eq by done. cbn. split; [lia|done].
  - destruct (Fs.type _ =? 0) eqn:E; [done|]. injection H as <-.
    rewrite geti_seti_eq by (unfold Fs.seti; cbn; by rewrite length_insert). cbn. split; [lia|done].
Qed.

Section kexec.
Context (kend : Z) (use_clock : bool) (trampoline trapframe : Z).

(** exec has found the file [ip] and a page table. *)
Record found (ds : Z) (path nm : list Z) (x : xstate) (ip : nat) (s : Fs.fs) (pt : Z) (p : phys)
    (other entry : Z) (phs : list (proghdr * (Z * Z))) (data : list Z) : Prop := {
  fo_ip : exists s1, Dir.namei (cwd x) path nm (xfs x) = Ret (Some ip, s1) /\ Fs.ilock ip s1 = Ret s;
  fo_ok : inode_ok ds s ip;
  fo_file : file_of s ip = image other entry phs data;
  fo_pt : proc_pagetable kend trampoline trapframe (ph (xvm x)) = Ret (pt, p) /\ pt <> 0;
  fo_range : 0 <= entry < 2 ^ 64 /\ Z.of_nat (length phs) < 2 ^ 16 /\ Forall (fun h => ph_range h.1) phs;
  fo_segs : forallb seg_ok (loadable phs.*1) = true
}.

(** The state in which the stack is built: the segments and the inode are
    already those of the new program. *)
Definition noted (ip : nat) (s : Fs.fs) (p : phys) (exe : list Z) (segs : list seg) (x : xstate) : xstate :=
  let c := cur (xvm x) in
  let v := mk_vm p {| c with segs := segs; execip := Some exe |} (room (xvm x)) in
  {| x with xvm := v; xfs := set_locked false ip s; x_execip := Some ip |}.

(** The rest of exec. *)
Definition kexec_rest (path : list Z) (argv : list (list Z)) (junk nm : list Z) (pt size entry : Z) (x : xstate)
    : outcome (Z * xstate) :=
  '(sz, sp, v) ← user_stack kend use_clock argv pt size (xvm x);
  let x := set_vm v x in
  match sp with
  | None => bad kend pt sz None x
  | Some sp =>
      x ← commit kend path pt sz sp entry x;
      x ← swapon junk nm x;
      Ret (Z.of_nat (length argv), x)
  end.

Lemma kexec_found ds path argv junk nm x ip s pt p other entry phs data :
  found ds path nm x ip s pt p other entry phs data ->
  kexec kend use_clock trampoline trapframe path argv junk nm x =
  kexec_rest path argv junk nm pt (program_size phs.*1) entry
    (noted ip s p (image other entry phs data) (segments phs.*1) x).
Proof.
  intros [(s1 & Hn & Hl) Hio HF [Hpt Hpt0] (He & Hlen & Hr) Hseg].
  destruct (exec_headers ds s ip Hio other entry phs data HF He Hlen Hr) as
    (hdr & Hrd & Hlh & Hh & segs & sz & Hld & Hok). destruct (Hok Hseg) as [-> ->]. rewrite Hseg in Hld.
  unfold kexec. rewrite Hn. cbn [mbind outcome_bind]. rewrite Hl. cbn [mbind outcome_bind].
  rewrite Hrd. cbn [mbind outcome_bind]. rewrite Hlh, Hh. cbn [magic phnum phoff elf_entry].
  rewrite !Z.eqb_refl. cbn [negb orb]. change (xvm (set_fs s x)) with (xvm x). rewrite Hpt. cbn [mbind outcome_bind].
  rewrite (proj2 (Z.eqb_neq pt 0) Hpt0). change (i32 64) with 64. rewrite Nat2Z.id.
  match goal with |- context [load_loop _ ip 64 0 [] ?t] => change t with s end.
  rewrite Hld. cbn [mbind outcome_bind negb]. rewrite HF.
  match goal with |- context [Fs.iunlock ip ?t] => change t with s end.
  destruct (ilock_locked _ _ _ Hl) as [Href Hlk]. rewrite (iunlock_ret ip s Href Hlk). reflexivity.
Qed.

(** A program file can stop the kernel: exec checks neither the address nor the
    size of a segment against the size of the address space, and when the program
    ends above it and a page is free, mapping the stack panics. *)
Theorem exec_large_program_panics ds path argv junk nm x ip s pt p other entry phs data :
  found ds path nm x ip s pt p other entry phs data ->
  MAXVA <= program_size phs.*1 -> program_size phs.*1 + 3 * 4096 < 2 ^ 64 -> freelist p <> 0 ->
  kexec kend use_clock trampoline trapframe path argv junk nm x = Panic "walk".
Proof.
  intros Hf Hbig Hmax Hfree. rewrite (kexec_found _ _ _ _ _ _ _ _ _ _ _ _ _ _ Hf). unfold kexec_rest, user_stack.
  set (size := program_size phs.*1) in *. unfold uvmalloc. change ((USERSTACK + 1) * PGSIZE) with 8192.
  rewrite MAXVA_eq in Hbig. pose proof (Z.mod_pos_bound (size + 4095) 4096 ltac:(lia)).
  pose proof (Z.div_mod (size + 4095) 4096 ltac:(lia)). set (base := PGROUNDUP size).
  assert (base = (size + 4095) / 4096 * 4096) as Hb by (unfold base; rewrite roundup_eq by lia; lia).
  assert (base mod 4096 = 0) as Hal by (rewrite Hb; by apply Z.mod_mul).
  assert (PGROUNDUP base = base) as Hrr.
  { assert ((base + 4095) mod 4096 = 4095) as Hm by (rewrite Hb, Z.add_comm, Z.mod_add by lia; done).
    rewrite roundup_eq, Hm by lia. lia. }
  rewrite wrapu_small by lia. rewrite (proj2 (Z.ltb_ge _ _)), Hrr by lia. cbn [uvmalloc_loop].
  rewrite (proj2 (Z.ltb_lt _ _)) by lia. unfold kalloc_or_evict, kalloc. cbn [noted xvm ph].
  rewrite (proj2 (Z.eqb_neq _ _) Hfree). cbn [mbind outcome_bind].
  rewrite (proj2 (Z.eqb_neq _ _) Hfree). cbn [negb mbind outcome_bind]. rewrite (proj2 (Z.eqb_neq _ _) Hfree).
  unfold mappages. change (base mod PGSIZE) with (base mod 4096). rewrite Hal.
  change (Z.to_nat (PGSIZE / PGSIZE)) with 1%nat. cbn [negb Z.eqb map_loop].
  unfold walk. rewrite (proj2 (Z.leb_le _ _)) by (rewrite MAXVA_eq; lia). done.
Qed.

(** ** A failing exec *)

Lemma push_args_keeps argv : forall argc pt sp base ust, keeps (push_args kend use_clock argv argc pt sp base ust).
Proof.
  induction argv as [|arg argv IH]; intros argc pt sp base ust v r v' H; cbn [push_args] in H; [by simplify_eq|].
  destruct (_ <=? _)%nat; [by simplify_eq|]. cbn zeta in H. destruct (_ <? base); [by simplify_eq|].
  apply outcome_bind_inv in H as ([r1 v1] & H1 & H). apply copyout_keeps in H1. rewrite <- H1.
  destruct (r1 <? 0); [by simplify_eq|]. by eapply IH.
Qed.

Lemma push_argv_keeps argv pt sp base : keeps (push_argv kend use_clock argv pt sp base).
Proof.
  intros v r v' H. unfold push_argv in H. apply outcome_bind_inv in H as ([r1 v1] & H1 & H).
  apply push_args_keeps in H1. rewrite <- H1. destruct r1 as [[sp1 ust]|]; [|by simplify_eq].
  destruct (_ <=? _)%nat; [done|]. cbn zeta in H. destruct (_ <? base); [by simplify_eq|].
  apply outcome_bind_inv in H as ([r2 v2] & H2 & H). apply copyout_keeps in H2. rewrite <- H2.
  destruct (r2 <? 0); by simplify_eq.
Qed.

Lemma user_stack_keeps argv pt size : keeps (fun v => '(sz, sp, v) ← user_stack kend use_clock argv pt size v; Ret (sz, sp, v)).
Proof.
  intros v r v' H. apply outcome_bind_inv in H as ([[sz sp] v1] & H1 & H). simplify_eq. unfold user_stack in H1.
  apply outcome_bind_inv in H1 as ([sz1 v2] & H2 & H). apply uvmalloc_keeps in H2. rewrite <- H2.
  destruct (sz1 =? 0); [by simplify_eq|]. apply outcome_bind_inv in H as (s1 & _ & H).
  apply outcome_bind_inv in H as ([sp1 v3] & H3 & H). simplify_eq. by apply push_argv_keeps in H3.
Qed.

(** A program that fails to start leaves its caller damaged: when exec returns -1
    because the stack could not be built (the arguments do not fit, or no memory),
    the caller goes on with its page table, size and registers, but its segments and
    its executable are those of the program that did not start, and the reference
    to that file is kept. *)
Theorem failed_exec_spoils_caller ds path argv junk nm x ip s pt p other entry phs data x' :
  found ds path nm x ip s pt p other entry phs data ->
  kexec kend use_clock trampoline trapframe path argv junk nm x = Ret (-1, x') ->
  let c := cur (xvm x) in
  image_of (cur (xvm x')) = (pagetable c, sz c, heap_brk c, Some (image other entry phs data), segments phs.*1, tf_sp c) /\
  x_execip x' = Some ip /\ Fs.ref (Fs.geti (xfs x') ip) = Fs.ref (Fs.geti s ip) /\
  name x' = name x /\ tf_epc x' = tf_epc x /\ tf_a1 x' = tf_a1 x.
Proof.
  intros Hf H. cbn zeta. rewrite (kexec_found _ _ _ _ _ _ _ _ _ _ _ _ _ _ Hf) in H. unfold kexec_rest in H.
  apply outcome_bind_inv in H as ([[sz1 sp] v] & Hu & H). destruct sp as [sp|].
  { exfalso. apply outcome_bind_inv in H as (x1 & _ & H). apply outcome_bind_inv in H as (x2 & _ & H).
    injection H as H _. lia. }
  assert (same_image (cur v) (cur (xvm (noted ip s p (image other entry phs data) (segments phs.*1) x)))) as Hi.
  { by apply (user_stack_keeps argv pt (program_size phs.*1) _ (sz1, None)); rewrite Hu. }
  unfold bad in H. apply outcome_bind_inv in H as (s1 & _ & H). injection H as <-. cbn.
  split; [exact Hi|]. split_and!; try done. unfold set_locked. destruct (fo_ip _ _ _ _ _ _ _ _ _ _ _ _ Hf) as (s0 & _ & Hl).
  destruct (ilock_locked _ _ _ Hl) as [Hr _]. rewrite geti_seti_eq; [done|].
  destruct (decide (ip < length (Fs.itable s))%nat); [done|]. unfold Fs.geti in Hr.
  rewrite lookup_ge_None_2 in Hr by lia. cbn in Hr. lia.
Qed.

End kexec.
End ExecImage.

(** ** exec: the theorems at a small machine

    The disk of [SwapFile] with a program in its only inode, and a machine with 16 free
    pages. *)
Import Mem Vm FsFacts FsFile FsBytes FsRun FileWrite Exec ExecFacts ExecImage.


Module ExecRun.

(** A loadable segment, and a header that is none. *)
Definition demo_seg (vaddr size : Z) : proghdr := mk_proghdr 1 5 176 vaddr size size.
Definition demo_note : proghdr := mk_proghdr 4 0 0 0 0 0.

Definition demo_phs (vaddr : Z) : list (proghdr * (Z * Z)) := [(demo_note, (7, 8)); (demo_seg vaddr 4, (0, 4096))].
Definition demo_image (vaddr : Z) : list Z := image 3 0 (demo_phs vaddr) [1; 2; 3; 4].

Definition demo_disk (vaddr : Z) : Fs.fs :=
  match Fs.writei 0 0 (demo_image vaddr) SwapFile.demo_fs with Ret (_, s) => s | _ => SwapFile.demo_fs end.

(** The caller's page table, made by exec's own code. *)
Definition TRAMP : Z := 2147487744.
Definition demo_caller : Z * phys :=
  match proc_pagetable demo_kend TRAMP (fst demo_page) (snd demo_page) with Ret r => r | _ => (0, demo_boot) end.

Definition demo_x (vaddr : Z) : xstate :=
  {| xvm := mk_vm (snd demo_caller) (demo_proc (fst demo_caller) 0) 0;
     xfs := demo_disk vaddr; x_execip := None; x_swapip := None; cwd := 0; pid := 3; name := [];
     tf_epc := 0; tf_a1 := 0 |}.

Definition code {A} (o : outcome (Z * A)) : option Z + string :=
  match o with Ret (r, _) => inl (Some r) | Panic m => inr m | Undef m => inr m end.

Definition wrote_all (v : Z) : bool :=
  match code (Fs.writei 0 0 (demo_image v) SwapFile.demo_fs) with inl (Some n) => n =? 180 | _ => false end.

Lemma demo_disk_ok v : wrote_all v = true ->
  fs_ok 10 (demo_disk v) /\ inode_ok 10 (demo_disk v) 0 /\ file_of (demo_disk v) 0 = demo_image v.
Proof.
  intros Hc. destruct (files_refine_bytes 10 SwapFile.demo_fs 0 0 demo_fs_ok demo_inode_ok ltac:(lia)) as [_ H].
  destruct (H (demo_image v)) as (tot & room & s' & E & Hr & Hw & H1 & H2 & _); [done|].
  unfold demo_disk. unfold wrote_all in Hc. rewrite E in Hc |- *. cbn [code] in Hc. apply Z.eqb_eq in Hc as ->. split; [done|]. split; [done|].
  unfold Vm.writei in Hw. change (file_of SwapFile.demo_fs 0) with (@nil Z) in Hw.
  change (length (demo_image v)) with 180%nat in Hw. cbn [length] in Hw.
  change (Vm.MAXFILE * Vm.BSIZE <? 0 + Z.of_nat 180) with false in Hw.
  change ((Z.of_nat 0 <? 0) || (u32 (0 + Z.of_nat 180) <? 0)) with false in Hw. cbv iota in Hw.
  injection Hw as Ht ->. set (k := Z.to_nat (Z.min _ _)) in *. assert (k = 180%nat) as -> by lia.
  rewrite ?take_nil, ?drop_nil, ?app_nil_r. apply take_ge. done.
Qed.

(** Naming and locking the root inode, which is the first of the table. *)
Definition lock_root (s : Fs.fs) : Fs.fs :=
  let n := Fs.geti s 0 in Fs.seti 0 {| n with Fs.ref := 2; Fs.locked := true |} s.

Definition root_ready (s : Fs.fs) : bool :=
  bool_decide (find_idx (Fs.same_inode 1 1) (Fs.itable s) = Some 0%nat) &&
  (Fs.ref (Fs.geti s 0) =? 1) && negb (Fs.locked (Fs.geti s 0)) && Fs.valid (Fs.geti s 0).

Lemma root_found s nm : root_ready s = true ->
  exists s1, Dir.namei 0 [47] nm s = Ret (Some 0%nat, s1) /\ Fs.ilock 0 s1 = Ret (lock_root s).
Proof.
  unfold root_ready. rewrite !andb_true_iff. intros [[[Hfi Href] Hlk] Hval].
  apply bool_decide_eq_true in Hfi. apply Z.eqb_eq in Href. apply negb_true_iff in Hlk.
  pose proof (find_idx_lt _ _ _ Hfi) as Hlt. unfold lock_root. set (n := Fs.geti s 0) in *.
  exists (Fs.seti 0 {| n with Fs.ref := 2 |} s). split.
  - unfold Dir.namei, Dir.namex. cbn [List.hd]. rewrite bool_decide_true by done.
    unfold Fs.iget, Fs.ROOTDEV, Fs.ROOTINO. rewrite Hfi. fold n. by rewrite Href.
  - unfold Fs.ilock. rewrite !geti_seti_eq by done. cbn [Fs.ref Fs.locked].
    rewrite Hlk. change (2 <? 1) with false. cbv iota. rewrite geti_seti_eq by (unfold Fs.seti; cbn; by rewrite length_insert).
    cbn [Fs.valid]. rewrite Hval. unfold Fs.seti. cbn [Fs.itable]. by rewrite list_insert_insert_eq.
Qed.

Lemma lock_root_ok s : fs_ok 10 s -> inode_ok 10 s 0 ->
  inode_ok 10 (lock_root s) 0 /\ file_of (lock_root s) 0 = file_of s 0.
Proof.
  intros Hok Hio. unfold lock_root. set (n := Fs.geti s 0).
  by destruct (seti_ok 10 s 0 {| n with Fs.ref := 2; Fs.locked := true |} Hok Hio eq_refl eq_refl eq_refl) as (_ & ? & ? & _).
Qed.

Definition demo_new : Z * phys :=
  match proc_pagetable demo_kend TRAMP (fst demo_page) (snd demo_caller) with Ret r => r | _ => (0, demo_boot) end.

(** What is checked by computation of the machine with segment address [v]. *)
Definition demo_checks (v : Z) : bool :=
  wrote_all v && root_ready (demo_disk v) && forallb seg_ok (loadable (demo_phs v).*1).

Lemma returned {A} (o : outcome A) d : returns o = true -> o = Ret (match o with Ret r => r | _ => d end).
Proof. by destruct o. Qed.

Lemma demo_range v : 0 <= v < 2 ^ 64 -> Forall (fun h => ph_range h.1) (demo_phs v).
Proof.
  intros Hv. unfold demo_phs. rewrite !Forall_cons. unfold ph_range, demo_note, demo_seg.
  cbn [fst ptype pflags poff vaddr pfilesz pmemsz]. split_and!; try lia. apply Forall_nil_2.
Qed.

Lemma demo_found v : 0 <= v < 2 ^ 64 -> demo_checks v = true ->
  returns (proc_pagetable demo_kend TRAMP (fst demo_page) (snd demo_caller)) = true -> (fst demo_new =? 0) = false ->
  found demo_kend TRAMP (fst demo_page) 10 [47] (replicate 14 0) (demo_x v) 0 (lock_root (demo_disk v))
    (fst demo_new) (snd demo_new) 3 0 (demo_phs v) [1; 2; 3; 4].
Proof.
  intros Hv Hc Hret Hpt. unfold demo_checks in Hc. rewrite !andb_true_iff in Hc.
  destruct Hc as [[Hw Hroot] Hseg].
  destruct (demo_disk_ok v Hw) as (Hok & Hio & HF).
  destruct (lock_root_ok (demo_disk v) Hok Hio) as [Hio' HF'].
  constructor.
  - exact (root_found (demo_disk v) _ Hroot).
  - exact Hio'.
  - by rewrite HF'.
  - change (ph (xvm (demo_x v))) with (snd demo_caller). split; [|by apply Z.eqb_neq].
    rewrite <- surjective_pairing. unfold demo_new.
    exact (returned (proc_pagetable demo_kend TRAMP (fst demo_page) (snd demo_caller)) (0, demo_boot) Hret).
  - split; [lia|]. split; [reflexivity|]. exact (demo_range v Hv).
  - exact Hseg.
Qed.

(** A segment at the end of the address space: 2^38. *)
Lemma exec_large_program_panics_witness :
  kexec demo_kend false TRAMP (fst demo_page) [47] [[65]] [] (replicate 14 0) (demo_x (2 ^ 38)) = Panic "walk".
Proof.
  refine (exec_large_program_panics demo_kend false TRAMP (fst demo_page) 10 [47] [[65]] [] (replicate 14 0)
    (demo_x (2 ^ 38)) 0 (lock_root (demo_disk (2 ^ 38))) (fst demo_new) (snd demo_new) 3 0 (demo_phs (2 ^ 38)) [1; 2; 3; 4] _ _ _ _).
  - apply demo_found; [lia|vm_compute; reflexivity|vm_compute; reflexivity|vm_compute; reflexivity].
  - vm_compute. discriminate.
  - vm_compute. reflexivity.
  - apply Z.eqb_neq. vm_compute. reflexivity.
Defined.

Lemma exec_reads_headers_witness :
  exists hdr, Fs.readi 0 0 SIZEOF_ELFHDR (demo_disk 8192) = Ret (hdr, demo_disk 8192) /\
    elfhdr_of hdr = mk_elfhdr ELF_MAGIC 0 64 2 /\
    exists segs sz, load_loop 2 0 64 0 [] (demo_disk 8192) = Ret (true, segs, sz, demo_disk 8192) /\
      segs = [mk_seg 8192 4 4 176 8] /\ sz = 8196.
Proof.
  destruct (demo_disk_ok 8192 ltac:(vm_compute; reflexivity)) as (_ & Hio & HF).
  destruct (exec_reads_headers 10 (demo_disk 8192) 0 3 0 (demo_phs 8192) [1; 2; 3; 4] Hio HF ltac:(lia) ltac:(simpl; lia))
    as (hdr & H1 & H2 & segs & sz & H3 & H4).
  - apply demo_range. lia.
  - exists hdr. split; [exact H1|]. split; [exact H2|]. exists segs, sz. split; [exact H3|]. exact (H4 eq_refl).
Defined.

(** The arguments do not fit on the stack. *)
Definition big_args : list (list Z) := [replicate 4096 65].

Lemma big_args_fail :
  code (kexec demo_kend false TRAMP (fst demo_page) [47] big_args [] (replicate 14 0) (demo_x 8192)) = inl (Some (-1)).
Proof. vm_compute. reflexivity. Qed.

Lemma code_ret {A} (o : outcome (Z * A)) r : code o = inl (Some r) -> exists x, o = Ret (r, x).
Proof. destruct o as [[r' x]| |]; [|done|done]. intros [= ->]. by exists x. Qed.

Lemma failed_exec_spoils_caller_witness : exists x',
  kexec demo_kend false TRAMP (fst demo_page) [47] big_args [] (replicate 14 0) (demo_x 8192) = Ret (-1, x') /\
  segs (cur (xvm (demo_x 8192))) = [] /\ segs (cur (xvm x')) = [mk_seg 8192 4 4 176 8] /\
  pagetable (cur (xvm x')) = fst demo_caller.
Proof.
  destruct (code_ret _ _ big_args_fail) as [x' E]. exists x'. split; [exact E|]. split; [reflexivity|].
  destruct (failed_exec_spoils_caller demo_kend false TRAMP (fst demo_page) 10 [47] big_args [] (replicate 14 0)
    (demo_x 8192) 0 (lock_root (demo_disk 8192)) (fst demo_new) (snd demo_new) 3 0 (demo_phs 8192) [1; 2; 3; 4] x') as [Hi _].
  - apply demo_found; [lia|vm_compute; reflexivity|vm_compute; reflexivity|vm_compute; reflexivity].
  - exact E.
  - split; [exact (f_equal (fun t => t.1.2) Hi)|exact (f_equal (fun t => t.1.1.1.1.1) Hi)].
Defined.

(** ** The stack of a new page table *)

Definition demo_argv : list (list Z) := [[108; 115]; [45; 108]].

Lemma exec_builds_stack_witness :
  let v := mk_vm (snd demo_pt) (demo_proc 0 0) 0 in
  exists v', user_stack demo_kend false demo_argv (fst demo_pt) 5000 v = Ret (16384, Some 16320, v') /\
    walkaddr (fst demo_pt) 8192 (ph v') = 0 /\
    uview (ph v') (fst demo_pt) 16368 3 = Some <$> [108; 115; 0].
Proof.
  set (v := mk_vm (snd demo_pt) (demo_proc 0 0) 0).
  destruct (kinit_spec demo_kend demo_kend_ok (mk_phys (fun _ => 0) 0)) as (s0 & E0 & Hf).
  destruct (uvmcreate_inv demo_kend demo_kend_ok demo_boot (hd 0 (all_pages demo_kend)) (tail (all_pages demo_kend)))
    as (s1 & E1 & Hvi & _ & Hent).
  { unfold demo_boot. rewrite E0. exact Hf. }
  assert (demo_pt = (hd 0 (all_pages demo_kend), s1)) as Ept by exact E1.
  destruct (exec_builds_stack demo_kend demo_kend_ok false
      (fresh_own (tail (all_pages demo_kend)) (hd 0 (all_pages demo_kend))) (tail (all_pages demo_kend)) v (fst demo_pt) 5000 demo_argv)
    as (v' & own' & l' & Hrun & _ & _ & Hguard & Hargs).
  - unfold v. cbn [ph]. rewrite Ept. exact Hvi.
  - vm_compute. lia.
  - vm_compute. split; discriminate.
  - vm_compute. discriminate.
  - intros va _. unfold v. cbn [ph]. rewrite Ept. apply Hent.
  - simpl. unfold MAXARG. lia.
  - unfold demo_argv. rewrite !Forall_cons. cbn [length]. split_and!; [lia|lia|apply Forall_nil_2].
  - exists v'. split; [exact Hrun|]. split; [exact Hguard|].
    destruct (Hargs ltac:(vm_compute; discriminate)) as [_ [_ Hstr]].
    exact (Hstr 0%nat 16368 [108; 115] eq_refl eq_refl).
Defined.

(** ** A run to the end

    The program is a regular file: the one that alloc_swapfile makes. *)
Definition program_disk : Fs.fs :=
  match Dir.alloc_swapfile 0 None 3 [] (replicate 14 0) SwapFile.demo_fs with
  | Ret (_, Some i, s) => match Fs.writei i 0 (demo_image 8192) s with Ret (_, s) => s | _ => s end
  | _ => SwapFile.demo_fs
  end.

(** argc, the size, the stack pointer, the segments, the swap file, and the first
    argument as it is read back at its address. *)
Definition demo_exec : outcome (Z * (Z * Z * list seg * option (list Z)) * option (list Z)) :=
  let x := {| xvm := mk_vm (snd demo_caller) (demo_proc (fst demo_caller) 0) 0;
              xfs := program_disk; x_execip := None; x_swapip := None; cwd := 0; pid := 100; name := [];
              tf_epc := 7; tf_a1 := 0 |} in
  '(argc, x) ← kexec demo_kend false TRAMP (fst demo_page) (Dir.swap_path 3 []) demo_argv [] (replicate 14 0) x;
  let c := cur (xvm x) in
  '(arg, _) ← copyin demo_kend false 4 (pagetable c) 20464 3 (xvm x);
  Ret (argc, (sz c, tf_sp c, segs c, swapip c), arg).

Example exec_starts_program :
  demo_exec = Ret (2, (20480, 20416, [mk_seg 8192 4 4 176 8], Some []), Some [108; 115; 0]).
Proof. vm_compute. reflexivity. Qed.

End ExecRun.
