(* ===== verification/Spinlock.v ===== *)
(** * Spin locks (xv6-memory-management/kernel: spinlock.c, proc.h)

    The fields of a lock and of a hart, the functions of spinlock.c, and their runs
    on several harts: one step for every access to memory the harts share.  The
    fences make the accesses happen in this order; a lock's name is not modelled. *)
From S2P Require Import Prelude.

#[local] Open Scope Z_scope.

Module Spinlock.

(** [cpu]: the hart that holds the lock; [intr]: whether the hart takes interrupts. *)
Record spinlock := mk_spinlock { locked : Z; cpu : option nat }.
Record hart := mk_hart { noff : Z; intena : bool; intr : bool }.

Definition initlock : spinlock := mk_spinlock 0 None.

(** ** The functions *)

Definition push_off (c : hart) : hart :=
  let old := intr c in
  let c := {| c with intr := false |} in
  let c := if noff c =? 0 then {| c with intena := old |} else c in
  {| c with noff := i32 (noff c + 1) |}.

Definition pop_off (c : hart) : outcome hart :=
  if intr c then Panic "pop_off - interruptible"
  else if noff c <? 1 then Panic "pop_off"
  else
    let c := {| c with noff := i32 (noff c - 1) |} in
    Ret (if (noff c =? 0) && intena c then {| c with intr := true |} else c).

(** [me]: the hart that asks. *)
Definition holding (me : nat) (lk : spinlock) : bool :=
  negb (locked lk =? 0) && bool_decide (cpu lk = Some me).

(** The atomic swap: what was in [locked], and the lock with a 1 there. *)
Definition test_and_set (lk : spinlock) : Z * spinlock := (locked lk, {| lk with locked := 1 |}).

(** ** Runs

    Where a hart is in acquire or release: before the swap, after a swap that found
    0, after [lk->cpu = 0], after the lock is free; [Dead] after a panic. *)
Inductive point :=
| Run
| Spin (l : nat)      (* acquire: while(__sync_lock_test_and_set(..) != 0) *)
| Taken (l : nat)     (* acquire: lk->cpu = mycpu() *)
| Disown (l : nat)    (* release: lk->cpu = 0 *)
| Unlock (l : nat)    (* release: __sync_lock_release(&lk->locked) *)
| Pop                 (* release: pop_off() *)
| Dead (msg : string).

#[export] Instance point_eq_dec : EqDecision point.
Proof. solve_decision. Defined.

(** [held]: the locks for which a hart's acquire has returned and its release was
    not called; [pushes]: its calls of push_off outside acquire less those of pop_off. *)
Record sys := mk_sys {
  harts : nat -> hart;
  locks : nat -> spinlock;
  points : nat -> point;
  held : nat -> list nat;
  pushes : nat -> nat
}.

Definition boot : sys :=
  mk_sys (fun _ => mk_hart 0 false false) (fun _ => initlock) (fun _ => Run) (fun _ => []) (fun _ => 0%nat).

Definition at_point (h : nat) (p : point) (s : sys) : sys := {| s with points := <[h := p]> (points s) |}.
Definition set_hart (h : nat) (c : hart) (s : sys) : sys := {| s with harts := <[h := c]> (harts s) |}.
Definition set_lock (l : nat) (k : spinlock) (s : sys) : sys := {| s with locks := <[l := k]> (locks s) |}.
Definition set_held (h : nat) (ls : list nat) (s : sys) : sys := {| s with held := <[h := ls]> (held s) |}.
Definition set_pushes (h : nat) (n : nat) (s : sys) : sys := {| s with pushes := <[h := n]> (pushes s) |}.

Definition acquire_start (h l : nat) (s : sys) : sys :=
  let s := set_hart h (push_off (harts s h)) s in
  at_point h (if holding h (locks s l) then Dead "acquire" else Spin l) s.

Definition acquire_swap (h l : nat) (s : sys) : sys :=
  let '(old, lk) := test_and_set (locks s l) in
  let s := set_lock l lk s in
  if negb (old =? 0) then s else at_point h (Taken l) s.

Definition acquire_end (h l : nat) (s : sys) : sys :=
  let lk := locks s l in
  at_point h Run (set_held h (l :: held s h) (set_lock l {| lk with cpu := Some h |} s)).

Definition release_start (h l : nat) (s : sys) : sys :=
  if holding h (locks s l) then
    at_point h (Disown l) (set_held h (filter (fun k => k <> l) (held s h)) s)
  else at_point h (Dead "release") s.

Definition release_disown (h l : nat) (s : sys) : sys :=
  let lk := locks s l in at_point h (Unlock l) (set_lock l {| lk with cpu := None |} s).

Definition release_unlock (h l : nat) (s : sys) : sys :=
  let lk := locks s l in at_point h Pop (set_lock l {| lk with locked := 0 |} s).

Definition do_pop (h : nat) (s : sys) : sys :=
  match pop_off (harts s h) with
  | Ret c => at_point h Run (set_hart h c s)
  | Panic m | Undef m => at_point h (Dead m) s
  end.

(** What the rest of the kernel may do: call acquire and release for any lock, and
    nest push_off and pop_off; outside all of them it may turn interrupts on and
    off, which a trap and the return from it do too.  [NCALLS] bounds the nesting,
    far from the limit of an int. *)
Definition NCALLS : Z := 1000000.
Definition depth (h : nat) (s : sys) : nat := length (held s h) + pushes s h.

Inductive step : sys -> sys -> Prop :=
| SAcquire h l s : points s h = Run -> Z.of_nat (depth h s) < NCALLS -> step s (acquire_start h l s)
| SSwap h l s : points s h = Spin l -> step s (acquire_swap h l s)
| SOwn h l s : points s h = Taken l -> step s (acquire_end h l s)
| SRelease h l s : points s h = Run -> step s (release_start h l s)
| SDisown h l s : points s h = Disown l -> step s (release_disown h l s)
| SUnlock h l s : points s h = Unlock l -> step s (release_unlock h l s)
| SPop h s : points s h = Pop -> step s (do_pop h s)
| SPush h s : points s h = Run -> Z.of_nat (depth h s) < NCALLS ->
    step s (set_pushes h (S (pushes s h)) (set_hart h (push_off (harts s h)) s))
| SPull h s n : points s h = Run -> pushes s h = S n -> step s (set_pushes h n (do_pop h s))
| SIntr h b s : points s h = Run -> depth h s = 0%nat ->
    step s (let c := harts s h in set_hart h {| c with intr := b |} s).

End Spinlock.
