(* ===== verification/SpinlockFacts.v ===== *)
(** * Spin locks: mutual exclusion, and interrupts *)
From S2P Require Import Prelude Spinlock.
Import Spinlock.

#[local] Open Scope Z_scope.

Module SpinlockFacts.

(** [h] has swapped its 1 into lock [l] and not yet released it. *)
Definition owns (s : sys) (h l : nat) : Prop :=
  l ∈ held s h \/ points s h = Taken l \/ points s h = Disown l \/ points s h = Unlock l.

(** How far inside acquire or release a hart has counted itself. *)
Definition inside (p : point) : Z :=
  match p with Run => 0 | Dead m => if String.eqb m "acquire" then 1 else 0 | _ => 1 end.

Record inv (s : sys) : Prop := {
  in_one : forall h h' l, owns s h l -> owns s h' l -> h = h';
  in_locked : forall l, locked (locks s l) = 0 /\ (forall h, ~ owns s h l) \/
                        locked (locks s l) = 1 /\ (exists h, owns s h l);
  in_cpu : forall h l, cpu (locks s l) = Some h <-> l ∈ held s h \/ points s h = Disown l;
  in_held : forall h, NoDup (held s h) /\
    (forall l, points s h = Taken l \/ points s h = Disown l \/ points s h = Unlock l -> l ∉ held s h);
  in_noff : forall h, noff (harts s h) = Z.of_nat (depth h s) + inside (points s h);
  in_depth : forall h, Z.of_nat (depth h s) <= NCALLS /\ (inside (points s h) = 1 -> Z.of_nat (depth h s) < NCALLS);
  in_intr : forall h, 0 < noff (harts s h) -> intr (harts s h) = false
}.

Lemma boot_ok : inv boot.
Proof.
  constructor; cbn.
  - unfold owns. cbn. set_solver.
  - intros l. left. unfold owns. cbn. set_solver.
  - intros h l. unfold initlock. cbn. set_solver.
  - intros h. split; [constructor|]. set_solver.
  - done.
  - intros h. unfold depth, NCALLS. cbn. lia.
  - lia.
Qed.

(** ** One step

    A step of hart [h] that leaves the locks owned alone. *)

Lemma owns_other s s' h h' l :
  h' <> h -> held s' h' = held s h' -> points s' h' = points s h' -> owns s' h' l <-> owns s h' l.
Proof. intros _ Hh Hp. unfold owns. by rewrite Hh, Hp. Qed.

Lemma push_off_ok c :
  0 <= noff c <= NCALLS -> noff (push_off c) = noff c + 1 /\ intr (push_off c) = false.
Proof.
  intros Hn. unfold NCALLS in Hn. unfold push_off. cbn. destruct (noff c =? 0); cbn; (split; [|done]); apply i32_small; lia.
Qed.

Lemma pop_off_ok c :
  0 < noff c <= NCALLS + 1 -> intr c = false ->
  exists c', pop_off c = Ret c' /\ noff c' = noff c - 1 /\ (0 < noff c' -> intr c' = false).
Proof.
  intros Hn Hi. unfold NCALLS in Hn. unfold pop_off. rewrite Hi, (proj2 (Z.ltb_ge _ _)) by lia. cbn.
  rewrite i32_small by lia. eexists. split; [reflexivity|].
  destruct (Z.eqb_spec (noff c - 1) 0) as [E|E]; cbn; [|done].
  destruct (intena c); cbn; (split; [done|lia]).
Qed.

(** Case analysis of the fields of an updated system. *)
Ltac upd :=
  unfold at_point, set_hart, set_lock, set_held, set_pushes, depth in *; cbn in *;
  unfold insert, fn_insert in *; cbn in *; repeat case_decide; subst.

Lemma acquire_start_inv s h l : inv s -> points s h = Run -> Z.of_nat (depth h s) < NCALLS -> inv (acquire_start h l s).
Proof.
  intros [I1 I2 I3 I4 I5 I6 I7] Hp Hd.
  assert (noff (harts s h) = Z.of_nat (depth h s)) as Hn.
  { rewrite I5, Hp. cbn. lia. }
  destruct (push_off_ok (harts s h) ltac:(lia)) as [Hn' Hi']. unfold acquire_start.
  revert Hn' Hi'. generalize (push_off (harts s h)). intros c Hn' Hi'.
  assert (forall q, (q = Spin l \/ q = Dead "acquire") -> let s' := at_point h q (set_hart h c s) in
    (forall h' l', owns s' h' l' <-> owns s h' l') /\ inv s') as H.
  { intros q Hq s'.
    assert (forall h' l', owns s' h' l' <-> owns s h' l') as Ho.
    { intros h' l'. unfold s', owns. upd; [|done]. rewrite Hp. destruct Hq as [-> | ->]; naive_solver. }
    split; [done|]. constructor.
    - intros a b k. rewrite !Ho. apply I1.
    - intros k. setoid_rewrite Ho. apply I2.
    - intros a k. specialize (I3 a k). unfold s'. upd; [|done]. rewrite Hp in I3. destruct Hq as [-> | ->]; naive_solver.
    - intros a. destruct (I4 a) as [H1 H2]. split; [done|]. unfold s'. upd; [|done]. destruct Hq as [-> | ->]; naive_solver.
    - intros a. unfold s'. upd; [|by apply I5]. assert (inside q = 1) as -> by (by destruct Hq as [-> | ->]).
      rewrite Hn'. unfold depth in Hn. lia.
    - intros a. destruct (I6 a) as [H1 H2]. split; [exact H1|]. unfold s'. upd; [|done]. intros _. exact Hd.
    - intros a. unfold s'. upd; [|by apply I7]. done. }
  apply H. destruct (holding h _); auto.
Qed.

Lemma acquire_swap_inv s h l : inv s -> points s h = Spin l -> inv (acquire_swap h l s).
Proof.
  intros [I1 I2 I3 I4 I5 I6 I7] Hp. unfold acquire_swap, test_and_set.
  destruct (I2 l) as [[Hl Hno]|[Hl Hown]]; rewrite Hl.
  - cbn [Z.eqb negb].
    set (s' := at_point h (Taken l) _).
    assert (forall h' l', owns s' h' l' <-> owns s h' l' \/ h' = h /\ l' = l) as Ho.
    { intros h' l'. unfold s', owns. upd; [|naive_solver]. rewrite Hp. naive_solver. }
    constructor.
    + intros a b k. rewrite !Ho. intros [Ha|[-> ->]] [Hb|[-> Hk]]; subst; [by eapply I1| | |done].
      * by destruct (Hno a).
      * by destruct (Hno b).
    + intros k. setoid_rewrite Ho. unfold s'. upd.
      * right. split; [done|]. exists h. by right.
      * destruct (I2 k) as [[H1 H2]|[H1 [a Ha]]]; [left|right]; (split; [done|]); naive_solver.
    + intros a k. specialize (I3 a k). unfold s'. upd; rewrite ?Hp in *; naive_solver.
    + intros a. destruct (I4 a) as [H1 H2]. split; [done|]. unfold s'. upd; [|done].
      intros k [[= ->]|[?|?]]; [|done|done]. intros Hin. apply (Hno a). by left.
    + intros a. specialize (I5 a). unfold s'. upd; [|done]. rewrite Hp in I5. done.
    + intros a. specialize (I6 a). unfold s'. upd; [|done]. rewrite Hp in I6. done.
    + intros a. exact (I7 a).
  - cbn [Z.eqb negb]. change (negb false) with true. cbn.
    assert (forall k, locks (set_lock l {| locked := 1; cpu := cpu (locks s l) |} s) k = locks s k) as He.
    { intros k. upd; [|done]. destruct (locks s k). cbn in *. by subst. }
    constructor; try done.
    + intros k. rewrite He. apply I2.
    + intros a k. rewrite He. apply I3.
Qed.

Lemma acquire_end_inv s h l : inv s -> points s h = Taken l -> inv (acquire_end h l s).
Proof.
  intros [I1 I2 I3 I4 I5 I6 I7] Hp. unfold acquire_end. set (s' := at_point h Run _).
  assert (owns s h l) as Hown by (right; by left).
  assert (forall h' l', owns s' h' l' <-> owns s h' l') as Ho.
  { intros h' l'. unfold s', owns. upd; [|done]. rewrite Hp, elem_of_cons. naive_solver. }
  constructor.
  - intros a b k. rewrite !Ho. apply I1.
  - intros k. setoid_rewrite Ho. unfold s'. upd; [|apply I2]. destruct (I2 k) as [[H1 H2]|H]; [by destruct (H2 h)|by right].
  - intros a k. specialize (I3 a k). destruct (decide (k = l)) as [->|Hk].
    + assert (cpu (locks s' l) = Some h) as -> by (unfold s'; upd; done).
      destruct (decide (a = h)) as [->|Hne].
      * split; [|done]. intros _. left. unfold s'. upd; try done; apply list_elem_of_here.
      * split; [congruence|]. intros H. destruct Hne. apply (I1 a h l); [|done]. apply Ho. unfold owns. tauto.
    + unfold s'. upd; rewrite ?elem_of_cons; rewrite ?Hp in I3; naive_solver.
  - intros a. destruct (I4 a) as [H1 H2]. unfold s'. upd; [|done]. split; [|naive_solver].
    constructor; [|done]. apply H2. by left.
  - intros a. specialize (I5 a). unfold s'. upd; [|done]. rewrite Hp in I5. cbn in I5. rewrite I5. cbn [length inside]. lia.
  - intros a. specialize (I6 a). unfold s'. upd; [|done]. rewrite Hp in I6. cbn in I6. split; [|done].
    destruct I6 as [_ H]. specialize (H eq_refl). cbn [length]. lia.
  - intros a. exact (I7 a).
Qed.

Lemma length_filter_ne (l : nat) ks : NoDup ks -> l ∈ ks -> S (length (filter (fun k => k <> l) ks)) = length ks.
Proof.
  induction 1 as [|k ks Hk Hnd IH]; [set_solver|]. intros [->|Hin]%elem_of_cons.
  - rewrite filter_cons_False by auto. cbn. f_equal. f_equal.
    clear -Hk. induction ks as [|j ks IH]; [done|]. rewrite filter_cons_True by set_solver. f_equal. apply IH. set_solver.
  - rewrite filter_cons_True by (intros ->; done). cbn. by rewrite IH.
Qed.

Lemma holding_iff s h l : inv s -> points s h = Run -> holding h (locks s l) = true <-> l ∈ held s h.
Proof.
  intros [I1 I2 I3 I4 I5 I6 I7] Hp. unfold holding. rewrite andb_true_iff, negb_true_iff, Z.eqb_neq, bool_decide_eq_true.
  rewrite I3, Hp. split; [intros [_ [H|H]]; [done|done]|]. intros Hin. split; [|by left].
  destruct (I2 l) as [[_ Hno]|[-> _]]; [|done]. destruct (Hno h). by left.
Qed.

Lemma release_start_inv s h l : inv s -> points s h = Run -> inv (release_start h l s).
Proof.
  intros Hinv Hp. pose proof (holding_iff s h l Hinv Hp) as Hhold. destruct Hinv as [I1 I2 I3 I4 I5 I6 I7].
  unfold release_start. destruct (holding h (locks s l)) eqn:E.
  - apply proj1 in Hhold. specialize (Hhold eq_refl). set (s' := at_point h _ _).
    assert (forall h' l', owns s' h' l' <-> owns s h' l') as Ho.
    { intros h' l'. unfold s', owns. upd; [|done]. rewrite Hp, list_elem_of_filter.
      destruct (decide (l' = l)) as [->|]; naive_solver. }
    destruct (I4 h) as [Hnd _]. pose proof (length_filter_ne l (held s h) Hnd Hhold) as Hlen.
    constructor.
    + intros a b k. rewrite !Ho. apply I1.
    + intros k. setoid_rewrite Ho. apply I2.
    + intros a k. specialize (I3 a k). unfold s'. upd; [|done]. rewrite Hp in I3. rewrite list_elem_of_filter.
      destruct (decide (k = l)) as [->|]; naive_solver.
    + intros a. destruct (I4 a) as [H1 H2]. unfold s'. upd; [|done]. split; [by apply NoDup_filter|].
      intros k. rewrite list_elem_of_filter. naive_solver.
    + intros a. specialize (I5 a). unfold s'. upd; [|done]. rewrite Hp in I5. cbn in I5. rewrite I5. cbn [length inside]. lia.
    + intros a. specialize (I6 a). unfold s'. upd; [|done]. lia.
    + intros a. exact (I7 a).
  - assert (forall h' l', owns (at_point h (Dead "release") s) h' l' <-> owns s h' l') as Ho.
    { intros h' l'. unfold owns. upd; [|done]. rewrite Hp. naive_solver. }
    constructor.
    + intros a b k. rewrite !Ho. apply I1.
    + intros k. setoid_rewrite Ho. apply I2.
    + intros a k. specialize (I3 a k). upd; [|done]. rewrite Hp in I3. naive_solver.
    + intros a. destruct (I4 a) as [H1 H2]. split; [done|]. upd; [|done]. naive_solver.
    + intros a. specialize (I5 a). upd; [|done]. rewrite Hp in I5. done.
    + intros a. specialize (I6 a). upd; [|done]. split; [apply I6|done].
    + intros a. exact (I7 a).
Qed.

Lemma release_disown_inv s h l : inv s -> points s h = Disown l -> inv (release_disown h l s).
Proof.
  intros [I1 I2 I3 I4 I5 I6 I7] Hp. unfold release_disown. set (s' := at_point h _ _).
  assert (forall h' l', owns s' h' l' <-> owns s h' l') as Ho.
  { intros h' l'. unfold s', owns. upd; [|done]. rewrite Hp. naive_solver. }
  constructor.
  - intros a b k. rewrite !Ho. apply I1.
  - intros k. setoid_rewrite Ho. unfold s'. upd; [|apply I2]. apply I2.
  - intros a k. specialize (I3 a k). destruct (decide (k = l)) as [->|Hk].
    + destruct (I4 h) as [_ Hni]. specialize (Hni l ltac:(auto)).
      assert (cpu (locks s' l) = None) as -> by (unfold s'; upd; done). split; [done|]. intros H. exfalso.
      assert (a = h) as -> by (apply (I1 a h l); [apply Ho; unfold owns; tauto|right; right; by left]).
      destruct H as [H|H]; [done|]. unfold s' in H. upd; done.
    + unfold s'. upd; rewrite ?Hp in I3; naive_solver.
  - intros a. destruct (I4 a) as [H1 H2]. split; [done|]. unfold s'. upd; [|done]. intros k Hk. apply H2. naive_solver.
  - intros a. specialize (I5 a). unfold s'. upd; [|done]. rewrite Hp in I5. done.
  - intros a. specialize (I6 a). unfold s'. upd; [|done]. rewrite Hp in I6. done.
  - intros a. exact (I7 a).
Qed.

Lemma release_unlock_inv s h l : inv s -> points s h = Unlock l -> inv (release_unlock h l s).
Proof.
  intros [I1 I2 I3 I4 I5 I6 I7] Hp. unfold release_unlock. set (s' := at_point h _ _).
  assert (owns s h l) as Hown by (right; right; by right).
  assert (forall h' l', owns s' h' l' <-> owns s h' l' /\ ~ (h' = h /\ l' = l)) as Ho.
  { intros h' l'. unfold s', owns. destruct (I4 h') as [_ H2]. specialize (H2 l').
    upd; [rewrite Hp in *|]; naive_solver. }
  constructor.
  - intros a b k. rewrite !Ho. intros [Ha _] [Hb _]. by eapply I1.
  - intros k. setoid_rewrite Ho. unfold s'. upd.
    + left. split; [done|]. intros a [Ha Hne]. apply Hne. split; [by eapply I1|done].
    + destruct (I2 k) as [[H1 H2]|[H1 [a Ha]]]; [left|right]; (split; [done|]); naive_solver.
  - intros a k. specialize (I3 a k). unfold s'. upd; rewrite ?Hp in *; naive_solver.
  - intros a. destruct (I4 a) as [H1 H2]. split; [done|]. unfold s'. upd; [|done]. naive_solver.
  - intros a. specialize (I5 a). unfold s'. upd; [|done]. rewrite Hp in I5. done.
  - intros a. specialize (I6 a). unfold s'. upd; [|done]. rewrite Hp in I6. done.
  - intros a. exact (I7 a).
Qed.

(** A step that changes only hart [h]'s own state. *)
Record moved (h : nat) (c : hart) (p : point) (n : nat) (s s' : sys) : Prop := {
  mv_hart : forall a, harts s' a = if decide (a = h) then c else harts s a;
  mv_point : forall a, points s' a = if decide (a = h) then p else points s a;
  mv_pushes : forall a, pushes s' a = if decide (a = h) then n else pushes s a;
  mv_same : forall a, held s' a = held s a /\ locks s' a = locks s a
}.

Lemma moved_inv h c p n s s' :
  moved h c p n s s' -> inv s -> points s h = Run \/ points s h = Pop -> p = Run \/ p = Pop ->
  Z.of_nat (length (held s h) + n) <= NCALLS -> (p = Pop -> Z.of_nat (length (held s h) + n) < NCALLS) ->
  noff c = Z.of_nat (length (held s h) + n) + inside p -> (0 < noff c -> intr c = false) -> inv s'.
Proof.
  intros [M1 M2 M3 M4] [I1 I2 I3 I4 I5 I6 I7] Hp Hq Hn1 Hn2 Hc Hi.
  assert (forall a, held s' a = held s a) as Mh by apply M4. assert (forall a, locks s' a = locks s a) as Ml by apply M4.
  assert (forall q k, q = Run \/ q = Pop -> q <> Taken k /\ q <> Disown k /\ q <> Unlock k) as Hfree by (by intros q k [-> | ->]).
  assert (forall a k, (points s' a = Taken k \/ points s' a = Disown k \/ points s' a = Unlock k) <->
                      (points s a = Taken k \/ points s a = Disown k \/ points s a = Unlock k)) as Hpt.
  { intros a k. rewrite M2. case_decide; [|done]. subst a. pose proof (Hfree _ k Hp). pose proof (Hfree _ k Hq). tauto. }
  assert (forall a k, owns s' a k <-> owns s a k) as Ho by (intros a k; unfold owns; by rewrite Mh, Hpt).
  constructor.
  - intros a b k. rewrite !Ho. apply I1.
  - intros k. rewrite Ml. setoid_rewrite Ho. apply I2.
  - intros a k. rewrite Ml, Mh, M2, I3. case_decide; [|done]. subst a.
    pose proof (Hfree _ k Hp). pose proof (Hfree _ k Hq). tauto.
  - intros a. rewrite Mh. setoid_rewrite Hpt. apply I4.
  - intros a. unfold depth. rewrite M1, M2, M3, Mh. case_decide; [by subst|apply I5].
  - intros a. unfold depth. rewrite M2, M3, Mh. case_decide; [|apply I6]. subst a. split; [done|].
    destruct Hq as [-> | ->]; [done|auto].
  - intros a. rewrite M1. case_decide; [by subst|apply I7].
Qed.

Lemma do_pop_moved s h : inv s -> points s h = Run /\ (0 < pushes s h)%nat \/ points s h = Pop ->
  exists c, pop_off (harts s h) = Ret c /\ moved h c Run (pushes s h) s (do_pop h s) /\
    noff c = noff (harts s h) - 1 /\ (0 < noff c -> intr c = false).
Proof.
  intros [I1 I2 I3 I4 I5 I6 I7] Hp.
  assert (0 < noff (harts s h) <= NCALLS + 1) as Hn.
  { destruct (I6 h) as [H1 H2]. rewrite I5. unfold depth in *.
    destruct Hp as [[-> Hq]| ->]; cbn; lia. }
  destruct (pop_off_ok (harts s h) Hn) as (c & Hc & H1 & H2); [apply I7; lia|].
  exists c. split; [done|]. split; [|done]. unfold do_pop. rewrite Hc. constructor; intros a; upd; try done.
Qed.

Lemma step_inv s s' : inv s -> step s s' -> inv s'.
Proof.
  intros Hinv Hstep. pose proof (in_noff _ Hinv) as Hnoff. pose proof (in_depth _ Hinv) as Hdep.
  destruct Hstep as [h l s Hp Hd|h l s Hp|h l s Hp|h l s Hp|h l s Hp|h l s Hp|h s Hp|h s Hp Hd|h s n Hp Hn|h b s Hp Hd].
  - by apply acquire_start_inv.
  - by apply acquire_swap_inv.
  - by apply acquire_end_inv.
  - by apply release_start_inv.
  - by apply release_disown_inv.
  - by apply release_unlock_inv.
  - destruct (do_pop_moved s h Hinv ltac:(auto)) as (c & _ & Hm & Hc & Hi). specialize (Hnoff h). specialize (Hdep h).
    rewrite Hp in Hnoff. cbn in Hnoff. unfold depth in *.
    eapply (moved_inv h c Run (pushes s h)); [done|done|auto|auto|lia|done|cbn; lia|done].
  - specialize (Hnoff h). rewrite Hp in Hnoff. cbn in Hnoff. unfold depth in *.
    destruct (push_off_ok (harts s h) ltac:(lia)) as [H1 H2].
    eapply (moved_inv h (push_off (harts s h)) Run (S (pushes s h))); [|done|auto|auto|lia|done|rewrite H1; cbn [inside]; lia|done].
    constructor; intros a; upd; done.
  - destruct (do_pop_moved s h Hinv) as (c & _ & Hm & Hc & Hi); [left; split; [done|lia]|]. specialize (Hnoff h). specialize (Hdep h).
    rewrite Hp in Hnoff. cbn in Hnoff. unfold depth in *.
    eapply (moved_inv h c Run n); [|done|auto|auto|lia|done|cbn; lia|done].
    destruct Hm as [M1 M2 M3 M4]. constructor; intros a; [apply M1|apply M2| |apply M4].
    cbn. unfold insert, fn_insert. rewrite M3. repeat case_decide; congruence.
  - specialize (Hnoff h). rewrite Hp in Hnoff. cbn in Hnoff. unfold depth in *.
    eapply (moved_inv h _ Run (pushes s h)); [|done|auto|auto|apply Hdep|done| |].
    + constructor; intros a; upd; try done; repeat case_decide; done.
    + cbn. lia.
    + cbn. lia.
Qed.

Lemma runs_ok s : rtc step boot s -> inv s.
Proof. intros H. eapply rtc_invariant; [|exact H|apply boot_ok]. intros ? ? Hi Hs. by eapply step_inv. Qed.

(** (C17) Spin locks exclude each other: on any number of harts and in every
    interleaving of the shared accesses, a lock is held by one hart at most, a hart
    holds a lock with interrupts off, and [holding] answers yes exactly to the hart
    that holds the lock. *)
Theorem spinlock_mutual_exclusion s :
  rtc step boot s ->
  (forall h h' l, l ∈ held s h -> l ∈ held s h' -> h = h') /\
  (forall h l, l ∈ held s h -> intr (harts s h) = false) /\
  (forall h l, points s h = Run -> holding h (locks s l) = true <-> l ∈ held s h) /\
  (forall h h' l, l ∈ held s h -> points s h' <> Taken l).
Proof.
  intros H. pose proof (runs_ok s H) as Hinv. pose proof Hinv as [I1 I2 I3 I4 I5 I6 I7]. split_and!.
  - intros h h' l Hh Hh'. apply (I1 h h' l); by left.
  - intros h l Hh. apply I7. rewrite I5. unfold depth. destruct (held s h); [set_solver|]. cbn [length].
    destruct (points s h) as [| | | | | |m]; cbn; [..|destruct (String.eqb m "acquire")]; lia.
  - intros h l Hp. by apply holding_iff.
  - intros h h' l Hh Hp. assert (h = h') as -> by (apply (I1 h h' l); [by left|right; by left]).
    destruct (I4 h') as [_ Hn]. apply (Hn l); auto.
Qed.

(** The panics of the spin locks are exact: acquire panics exactly when the hart
    already holds the lock, release exactly when it does not, and no pop_off ever
    panics. *)
Theorem spinlock_panics_exactly s :
  rtc step boot s ->
  (forall h l, points s h = Run -> points (acquire_start h l s) h = (if bool_decide (l ∈ held s h) then Dead "acquire" else Spin l)) /\
  (forall h l, points s h = Run -> points (release_start h l s) h = (if bool_decide (l ∈ held s h) then Disown l else Dead "release")) /\
  (forall h, points s h = Pop \/ points s h = Run /\ (0 < pushes s h)%nat -> returns (pop_off (harts s h)) = true).
Proof.
  intros H. pose proof (runs_ok s H) as Hinv. split_and!.
  - intros h l Hp. unfold acquire_start. cbn. rewrite fn_lookup_insert.
    pose proof (holding_iff s h l Hinv Hp) as Hh. change (locks (set_hart h (push_off (harts s h)) s) l) with (locks s l).
    case_bool_decide; [by rewrite (proj2 Hh)|]. destruct (holding h (locks s l)); [|done]. by destruct H0; apply Hh.
  - intros h l Hp. unfold release_start. pose proof (holding_iff s h l Hinv Hp) as Hh.
    case_bool_decide; [rewrite (proj2 Hh) by done; cbn; by rewrite fn_lookup_insert|].
    destruct (holding h (locks s l)); [by destruct H0; apply Hh|]. cbn. by rewrite fn_lookup_insert.
  - intros h Hp. destruct (do_pop_moved s h Hinv) as (c & -> & _); [tauto|done].
Qed.

(** A free lock is there for the taking: the swap of a hart that waits for it wins. *)
Lemma free_lock_taken s h l :
  rtc step boot s -> points s h = Spin l -> (forall h', ~ owns s h' l) <-> points (acquire_swap h l s) h = Taken l.
Proof.
  intros H Hp. destruct (in_locked _ (runs_ok s H) l) as [[Hl Hno]|[Hl [a Ha]]]; unfold acquire_swap, test_and_set; rewrite Hl.
  - cbn. rewrite fn_lookup_insert. done.
  - change (negb (1 =? 0)) with true. cbn. rewrite Hp. split; [|done]. intros Hno. by destruct (Hno a).
Qed.

(** Hart 0 holds lock 5, and hart 1 waits for it. *)
Definition hart0_holds : sys := acquire_end 0 5 (acquire_swap 0 5 (acquire_start 0 5 boot)).
Definition contended : sys := acquire_swap 1 5 (acquire_start 1 5 hart0_holds).

Lemma contended_reached : rtc step boot contended.
Proof.
  apply (rtc_l _ _ (acquire_start 0 5 boot)); [apply SAcquire; vm_compute; done|].
  apply (rtc_l _ _ (acquire_swap 0 5 (acquire_start 0 5 boot))); [apply SSwap; vm_compute; done|].
  apply (rtc_l _ _ hart0_holds); [apply SOwn; vm_compute; done|].
  apply (rtc_l _ _ (acquire_start 1 5 hart0_holds)); [apply SAcquire; vm_compute; done|].
  apply rtc_once, SSwap. vm_compute. done.
Qed.

Lemma spinlock_mutual_exclusion_witness :
  5%nat ∈ held contended 0%nat /\ points contended 1%nat = Spin 5 /\
  intr (harts contended 0%nat) = false /\ 5%nat ∉ held contended 1%nat.
Proof.
  assert (5%nat ∈ held contended 0%nat) as H by (vm_compute; constructor).
  destruct (spinlock_mutual_exclusion contended contended_reached) as (H1 & H2 & _).
  split_and!; [exact H|vm_compute; reflexivity|exact (H2 0%nat 5%nat H)|]. intros H'. discriminate (H1 0%nat 1%nat 5%nat H H').
Defined.

Lemma spinlock_panics_exactly_witness :
  points (acquire_start 0 5 contended) 0%nat = Dead "acquire" /\
  points (release_start 0 6 contended) 0%nat = Dead "release".
Proof.
  destruct (spinlock_panics_exactly contended contended_reached) as (H1 & H2 & _).
  assert (points contended 0%nat = Run) as Hp by (vm_compute; reflexivity).
  split; [rewrite (H1 0%nat 5%nat Hp)|rewrite (H2 0%nat 6%nat Hp)]; vm_compute; reflexivity.
Defined.

End SpinlockFacts.
