(* ===== verification/Console.v ===== *)
(** * The console (xv6-memory-management/kernel: console.c, uart.c)

    [cons] is the ring of typed bytes: committed from [c_r] to [c_w], the line
    being edited from [c_w] to [c_e].  A call holds its lock from its start, or
    from its return from [sleep], to its next [sleep] or its return; one such run
    is one function here, as for pipes.  What [killed], [either_copyin] and
    [either_copyout] answer, and what the uart's registers hold, are arguments. *)
From S2P Require Import Prelude.

#[local] Open Scope Z_scope.

Module Console.

Definition INPUT_BUF_SIZE : Z := 128.
Definition BACKSPACE : Z := 256.

(** [C(x)]: control-x. *)
Definition C (x : Z) : Z := x - 64.
Definition ctrl_D : Z := C 68.
Definition ctrl_H : Z := C 72.
Definition ctrl_P : Z := C 80.
Definition ctrl_U : Z := C 85.
Definition DEL : Z := 127.
Definition NL : Z := 10.
Definition CR : Z := 13.

(** [buf] holds chars, unsigned on RISC-V; the indexes are uints. *)
Record cons := mk_cons { c_buf : list Z; c_r : Z; c_w : Z; c_e : Z }.

Definition slot (i : Z) : nat := Z.to_nat (i mod INPUT_BUF_SIZE).
Definition at_slot (s : cons) (i : Z) : Z := default 0 (c_buf s !! slot i).

(** ** Output: what is stored to the transmit register *)

Definition uartputc_sync (c : Z) : list Z := [wrapu 8 c].

Definition consputc (c : Z) : list Z :=
  if c =? BACKSPACE then uartputc_sync 8 ++ uartputc_sync 32 ++ uartputc_sync 8 else uartputc_sync c.

(** What an interrupt does besides changing [cons]. *)
Inductive event := Echo (c : Z) | Procdump | Wakeup.

#[export] Instance event_eq_dec : EqDecision event.
Proof. solve_decision. Defined.

(** ** consoleintr *)

(** [case C('U')]: the loop ends by [cons.w] at the latest. *)
Fixpoint kill_loop (fuel : nat) (s : cons) : cons * list event :=
  match fuel with
  | O => (s, [])
  | S fuel =>
      if negb (c_e s =? c_w s) && negb (at_slot s (wrapu 32 (c_e s - 1)) =? NL) then
        let '(s, evs) := kill_loop fuel {| s with c_e := wrapu 32 (c_e s - 1) |} in
        (s, (Echo <$> consputc BACKSPACE) ++ evs)
      else (s, [])
  end.

Definition erase (s : cons) : cons * list event :=
  if negb (c_e s =? c_w s) then ({| s with c_e := wrapu 32 (c_e s - 1) |}, Echo <$> consputc BACKSPACE)
  else (s, []).

Definition store (c : Z) (s : cons) : cons :=
  {| s with c_buf := <[slot (c_e s) := wrapu 8 c]> (c_buf s); c_e := wrapu 32 (c_e s + 1) |}.

Definition type_char (c : Z) (s : cons) : cons * list event :=
  if negb (c =? 0) && (wrapu 32 (c_e s - c_r s) <? INPUT_BUF_SIZE) then
    let c := if c =? CR then NL else c in
    let echo := Echo <$> consputc c in
    let s := store c s in
    if (c =? NL) || (c =? ctrl_D) || (wrapu 32 (c_e s - c_r s) =? INPUT_BUF_SIZE) then
      ({| s with c_w := c_e s |}, echo ++ [Wakeup])
    else (s, echo)
  else (s, []).

Definition consoleintr (c : Z) (s : cons) : cons * list event :=
  if c =? ctrl_P then (s, [Procdump])
  else if c =? ctrl_U then kill_loop (Z.to_nat (wrapu 32 (c_e s - c_w s))) s
  else if (c =? ctrl_H) || (c =? DEL) then erase s
  else type_char c s.

(** ** consoleread *)

(** How a run ends: -1, asleep with [n] bytes to read, or the result. *)
Inductive read_end := RKilled | RSleep (n : Z) | RDone (ret : Z).

(** [ok i]: whether the copy of one byte to [dst + i] succeeds.  The list is what
    left the buffer, in order.  [n] only counts down, so it is its own fuel. *)
Fixpoint read_loop (fuel : nat) (killed : bool) (ok : Z -> bool) (target n : Z) (s : cons)
    : read_end * list Z * cons :=
  match fuel with
  | O => (RDone (i32 (target - n)), [], s)
  | S fuel =>
      if c_r s =? c_w s then ((if killed then RKilled else RSleep n), [], s)
      else
        let c := at_slot s (c_r s) in
        let s := {| s with c_r := wrapu 32 (c_r s + 1) |} in
        if c =? ctrl_D then
          if wrapu 32 n <? target then (RDone (i32 (target - n)), [], {| s with c_r := wrapu 32 (c_r s - 1) |})
          else (RDone (i32 (target - n)), [c], s)
        else if negb (ok (target - n)) then (RDone (i32 (target - n)), [c], s)
        else
          let n := n - 1 in
          if c =? NL then (RDone (i32 (target - n)), [c], s)
          else let '(end_, out, s) := read_loop fuel killed ok target n s in (end_, c :: out, s)
  end.

(** A run of a call that asked for [target] bytes and has [n] left. *)
Definition consoleread_run (killed : bool) (ok : Z -> bool) (target n : Z) (s : cons)
    : read_end * list Z * cons :=
  read_loop (Z.to_nat n) killed ok target n s.

(** ** uartwrite and consolewrite *)

(** [WSpin]: an FCFS build's user process, which lets the lock go and takes it
    again; [sent]: the bytes stored to the transmit register. *)
Inductive write_end := WSleep (i : Z) | WSpin (i : Z) | WDone.

Fixpoint uart_loop (fuel : nat) (spin : bool) (buf : list Z) (n i tx_busy : Z) : write_end * list Z * Z :=
  match fuel with
  | O => (WDone, [], tx_busy)
  | S fuel =>
      if negb (tx_busy =? 0) then ((if spin then WSpin i else WSleep i), [], tx_busy)
      else
        let '(end_, sent, tx_busy) := uart_loop fuel spin buf n (i + 1) 1 in
        (end_, default 0 (buf !! Z.to_nat i) :: sent, tx_busy)
  end.

Definition uartwrite_run (fcfs : bool) (pid : Z) (buf : list Z) (n i tx_busy : Z) : write_end * list Z * Z :=
  uart_loop (Z.to_nat (n - i)) (fcfs && (2 <? pid)) buf n i tx_busy.

(** The chunk [consolewrite] takes at [i]. *)
Definition chunk (n i : Z) : Z := if 32 >? n - i then n - i else 32.

(** The head of its loop: the next chunk's bytes, or the call's result; the byte at
    [src + j] is [src j], and [ok j nn] whether [either_copyin] of [nn] bytes from
    there succeeds. *)
Definition consolewrite_head (src : Z -> Z) (ok : Z -> Z -> bool) (n i : Z) : list Z + Z :=
  if i <? n then
    let nn := chunk n i in
    if ok i nn then inl (src <$> seqZ i nn) else inr i
  else inr i.

(** ** The console and the processes that use it *)

Inductive reader :=
| NotReading
| Reading (ok : Z -> bool) (target n : Z) (asleep : bool).

(** [WHead]: at the head of consolewrite's loop; [WUart]: in uartwrite for the
    chunk [buf] of [nn] bytes fetched at [i], [k] of them stored; [WRet]: returned. *)
Inductive writer :=
| WHead (pid : Z) (src : Z -> Z) (ok : Z -> Z -> bool) (n i : Z)
| WUart (pid : Z) (src : Z -> Z) (ok : Z -> Z -> bool) (n i : Z) (buf : list Z) (k : Z) (asleep : bool)
| WRet (ret : Z).

(** The calls of consolewrite, their stores to the transmit register, and the
    transmitter's interrupts. *)
Inductive tx_event := Call (t : nat) | Put (t : nat) (c : Z) | Idle.

Record sys := mk_sys {
  the_cons : cons;
  readers : list reader;
  typed : list Z;          (* every byte the uart received *)
  taken : list Z;          (* every byte that left the buffer *)
  tx_busy : Z;
  writers : list writer;
  tx_log : list tx_event   (* newest last *)
}.

Definition wake_reader (x : reader) : reader :=
  match x with Reading ok target n _ => Reading ok target n false | NotReading => NotReading end.

Definition wake_writer (x : writer) : writer :=
  match x with WUart pid src ok n i buf k _ => WUart pid src ok n i buf k false | _ => x end.

(** One received byte: consoleintr, and the readers its wakeup wakes.  What it
    echoes goes to the transmit register by [uartputc_sync], which polls the line
    status and leaves [tx_busy] alone; the interrupts that causes are among those
    of [uart_idle], which may come at any time. *)
Definition sys_intr (c : Z) (s : sys) : sys :=
  let '(k, evs) := consoleintr c (the_cons s) in
  {| s with the_cons := k; typed := typed s ++ [c];
            readers := if decide (Wakeup ∈ evs) then wake_reader <$> readers s else readers s |}.

(** [uartintr]: the transmitter's interrupt, when the line status says it is idle;
    the bytes received follow, one [sys_intr] each. *)
Definition uart_idle (s : sys) : sys :=
  {| s with tx_busy := 0; writers := wake_writer <$> writers s; tx_log := tx_log s ++ [Idle] |}.

Definition uartintr (idle : bool) (received : list Z) (s : sys) : sys :=
  foldl (fun s c => sys_intr c s) (if idle then uart_idle s else s) received.

Definition after_read (x : reader) (end_ : read_end) : reader :=
  match x, end_ with Reading ok target _ _, RSleep n => Reading ok target n true | _, _ => NotReading end.

(** [calm]: no byte arrives when it could fill the buffer.  [fcfs]: the build. *)
Inductive step (fcfs calm : bool) : relation sys :=
| c_uartintr s idle received :
    (calm = true -> wrapu 32 (c_e (the_cons s) - c_r (the_cons s)) + Z.of_nat (length received) < INPUT_BUF_SIZE) ->
    Forall (fun c => 0 <= c < 256) received ->
    step fcfs calm s (uartintr idle received s)
| c_read_start s t ok n :
    readers s !! t = Some NotReading -> - 2 ^ 31 <= n < 2 ^ 31 ->
    step fcfs calm s {| s with readers := <[t := Reading ok (wrapu 32 n) n false]> (readers s) |}
| c_read s t ok target n killed end_ out k :
    readers s !! t = Some (Reading ok target n false) ->
    consoleread_run killed ok target n (the_cons s) = (end_, out, k) ->
    step fcfs calm s {| s with the_cons := k; taken := taken s ++ out;
      readers := <[t := after_read (Reading ok target n false) end_]> (readers s) |}
| c_kill s t :
    step fcfs calm s {| s with readers := alter wake_reader t (readers s); writers := alter wake_writer t (writers s) |}
| c_write_start s t pid src ok n ret :
    writers s !! t = Some (WRet ret) ->
    step fcfs calm s {| s with writers := <[t := WHead pid src ok n 0]> (writers s);
      tx_log := tx_log s ++ [Call t] |}
| c_write_head s t pid src ok n i :
    writers s !! t = Some (WHead pid src ok n i) ->
    step fcfs calm s {| s with writers := <[t :=
      match consolewrite_head src ok n i with
      | inl buf => WUart pid src ok n i buf 0 false
      | inr ret => WRet ret
      end]> (writers s) |}
| c_write s t pid src ok n i buf k end_ sent busy :
    writers s !! t = Some (WUart pid src ok n i buf k false) ->
    uartwrite_run fcfs pid buf (chunk n i) k (tx_busy s) = (end_, sent, busy) ->
    step fcfs calm s {| s with tx_busy := busy; tx_log := tx_log s ++ (Put t <$> sent);
      writers := <[t :=
        match end_ with
        | WSleep k => WUart pid src ok n i buf k true
        | WSpin k => WUart pid src ok n i buf k false
        | WDone => WHead pid src ok n (i + chunk n i)
        end]> (writers s) |}.

(** [uartinit] and [consoleinit]: the buffer is in the zeroed data segment. *)
Definition boot (nreaders nwriters : nat) : sys :=
  mk_sys (mk_cons (replicate 128 0) 0 0 0) (replicate nreaders NotReading) [] [] 0 (replicate nwriters (WRet 0)) [].

End Console.
