(* ===== verification/ConsoleFacts.v ===== *)
(** * The console: its buffer, its line editor, and no wakeup lost *)
From S2P Require Import Prelude Console.
Import Console.

#[local] Open Scope Z_scope.

Module ConsoleFacts.

(** The buffer holds [ready], then the [line] being edited. *)
Record holds (s : cons) (ready line : list Z) : Prop := {
  h_buf : length (c_buf s) = 128%nat;
  h_r : 0 <= c_r s < 2 ^ 32;
  h_w : c_w s = wrapu 32 (c_r s + Z.of_nat (length ready));
  h_e : c_e s = wrapu 32 (c_r s + Z.of_nat (length (ready ++ line)));
  h_fit : (length (ready ++ line) <= 128)%nat;
  h_at : forall k c, (ready ++ line) !! k = Some c -> c_buf s !! slot (c_r s + Z.of_nat k) = Some c
}.

(** ** Indexes that wrap around *)

Lemma cons_slot_wrap a : slot (wrapu 32 a) = slot a.
Proof.
  unfold slot, wrapu, INPUT_BUF_SIZE. f_equal. symmetry. apply Znumtheory.Zmod_div_mod; [lia|lia|].
  exists (2 ^ 25). lia.
Qed.

Lemma cons_slot_wrap_add a b : slot (wrapu 32 a + b) = slot (a + b).
Proof.
  rewrite <- (cons_slot_wrap (wrapu 32 a + b)). unfold wrapu. rewrite Zplus_mod_idemp_l. apply cons_slot_wrap.
Qed.

Lemma wrap_sub a j k : 0 <= j - k < 2 ^ 32 -> wrapu 32 (wrapu 32 (a + j) - wrapu 32 (a + k)) = j - k.
Proof.
  intros H. unfold wrapu. rewrite Zminus_mod_idemp_l, Zminus_mod_idemp_r.
  replace (a + j - (a + k)) with (j - k) by lia. by apply Z.mod_small.
Qed.

Lemma wrap_inj a j k : 0 <= j - k < 2 ^ 32 -> (wrapu 32 (a + j) =? wrapu 32 (a + k)) = (j =? k).
Proof.
  intros H. apply eq_true_iff_eq. rewrite !Z.eqb_eq. split; [|by intros ->]. intros E.
  pose proof (wrap_sub a j k H) as Hs. rewrite E, Z.sub_diag in Hs. unfold wrapu in Hs. rewrite Z.mod_0_l in Hs by lia. lia.
Qed.

Lemma cons_slot_inj a j k : 0 <= j - k < 128 -> slot (a + j) = slot (a + k) -> j = k.
Proof.
  unfold slot, INPUT_BUF_SIZE. intros H E. pose proof (Z.mod_pos_bound (a + j) 128). pose proof (Z.mod_pos_bound (a + k) 128).
  pose proof (Z.div_mod (a + j) 128). pose proof (Z.div_mod (a + k) 128). lia.
Qed.

Section Held.
Context (s : cons) (ready line : list Z) (H : holds s ready line).

Lemma r_wraps : c_r s = wrapu 32 (c_r s + 0).
Proof. rewrite Z.add_0_r, wrapu_small; [done|]. apply (h_r _ _ _ H). Qed.

Lemma used_count : wrapu 32 (c_e s - c_r s) = Z.of_nat (length (ready ++ line)).
Proof. pose proof (h_fit _ _ _ H). rewrite (h_e _ _ _ H). rewrite r_wraps at 2. rewrite wrap_sub; lia. Qed.

Lemma line_count : wrapu 32 (c_e s - c_w s) = Z.of_nat (length line).
Proof.
  pose proof (h_fit _ _ _ H) as Hf. rewrite length_app in Hf. rewrite (h_e _ _ _ H), (h_w _ _ _ H), length_app. rewrite wrap_sub; lia.
Qed.

Lemma line_empty : (c_e s =? c_w s) = bool_decide (line = []).
Proof.
  pose proof (h_fit _ _ _ H) as Hf. rewrite length_app in Hf. rewrite (h_e _ _ _ H), (h_w _ _ _ H), length_app. rewrite wrap_inj by lia.
  destruct line; cbn [length]; [rewrite bool_decide_eq_true_2 by done|rewrite bool_decide_eq_false_2 by done];
    [apply Z.eqb_eq|apply Z.eqb_neq]; lia.
Qed.

Lemma ready_empty : (c_r s =? c_w s) = bool_decide (ready = []).
Proof.
  pose proof (h_fit _ _ _ H) as Hf. rewrite length_app in Hf. rewrite Z.eqb_sym, (h_w _ _ _ H). rewrite r_wraps at 2. rewrite wrap_inj by lia.
  destruct ready; cbn [length]; [rewrite bool_decide_eq_true_2 by done|rewrite bool_decide_eq_false_2 by done];
    [apply Z.eqb_eq|apply Z.eqb_neq]; lia.
Qed.

End Held.

(** One byte less in the line being edited. *)
Lemma holds_erase s ready line c :
  holds s ready (line ++ [c]) -> let s' := {| s with c_e := wrapu 32 (c_e s - 1) |} in
  holds s' ready line /\ at_slot s (c_e s') = c.
Proof.
  intros [H1 H2 H3 H4 H5 H6] s'. rewrite app_assoc in *.
  assert (c_e s' = wrapu 32 (c_r s + Z.of_nat (length (ready ++ line)))) as He.
  { unfold s'. cbn. rewrite H4, (length_app _ [c]). unfold wrapu. rewrite Zminus_mod_idemp_l. f_equal. cbn. lia. }
  split.
  - constructor; cbn; try done; [rewrite length_app in H5; cbn in H5; lia|].
    intros k d Hk. apply H6. by apply lookup_app_l_Some.
  - unfold at_slot. rewrite He, cons_slot_wrap. rewrite (H6 (length (ready ++ line)) c); [done|]. by rewrite list_lookup_middle.
Qed.

(** One byte more. *)
Lemma holds_store s ready line c :
  holds s ready line -> (length (ready ++ line) < 128)%nat -> 0 <= c < 256 -> holds (store c s) ready (line ++ [c]).
Proof.
  intros [H1 H2 H3 H4 H5 H6] Hlt Hc.
  assert (slot (c_e s) = slot (c_r s + Z.of_nat (length (ready ++ line)))) as Hs by (by rewrite H4, cons_slot_wrap).
  constructor; cbn; rewrite ?app_assoc; [by rewrite length_insert|done|done| | |].
  - rewrite H4, (length_app _ [c]). unfold wrapu. rewrite Zplus_mod_idemp_l. f_equal. cbn. lia.
  - rewrite length_app. cbn. lia.
  - intros k d Hk. rewrite Hs. apply lookup_app_Some in Hk as [Hk|[Hk Hd]].
    + rewrite list_lookup_insert_ne; [by apply H6|]. apply lookup_lt_Some in Hk. intros E. apply cons_slot_inj in E; lia.
    + apply list_lookup_singleton_Some in Hd as [Hd ->]. replace k with (length (ready ++ line)) by lia.
      rewrite wrapu_small by lia. apply list_lookup_insert_eq. rewrite H1. unfold slot, INPUT_BUF_SIZE.
      pose proof (Z.mod_pos_bound (c_r s + Z.of_nat (length (ready ++ line))) 128). lia.
Qed.

(** The line becomes part of what can be read. *)
Lemma holds_commit s ready line : holds s ready line -> holds {| s with c_w := c_e s |} (ready ++ line) [].
Proof. intros [H1 H2 H3 H4 H5 H6]. constructor; cbn; rewrite ?app_nil_r; done. Qed.

(** The oldest byte leaves. *)
Lemma holds_take s c ready line :
  holds s (c :: ready) line ->
  at_slot s (c_r s) = c /\ holds {| s with c_r := wrapu 32 (c_r s + 1) |} ready line.
Proof.
  intros [H1 H2 H3 H4 H5 H6]. split.
  - unfold at_slot. pose proof (H6 0%nat c eq_refl) as H. rewrite Z.add_0_r in H. by rewrite H.
  - cbn in *. constructor; cbn; [done|apply wrapu_range; lia| | |lia|].
    + rewrite H3. unfold wrapu. rewrite Zplus_mod_idemp_l. f_equal. lia.
    + rewrite H4. unfold wrapu. rewrite Zplus_mod_idemp_l. f_equal. lia.
    + intros k d Hk. rewrite <- (H6 (S k) d Hk), cons_slot_wrap_add. do 2 f_equal. lia.
Qed.

(** ** consoleintr edits the line *)

(** The bytes echoed for an erased character. *)
Definition rub : list event := [Echo 8; Echo 32; Echo 8].

(** What a key does to the bytes that can be read and the line being edited. *)
Definition key (c : Z) (ready line : list Z) : list Z * list Z * list event :=
  if c =? ctrl_P then (ready, line, [Procdump])
  else if c =? ctrl_U then (ready, [], concat ((fun _ => rub) <$> line))
  else if (c =? ctrl_H) || (c =? DEL) then
    match line with [] => (ready, [], []) | _ => (ready, removelast line, rub) end
  else if (c =? 0) || bool_decide (length (ready ++ line) = 128%nat) then (ready, line, [])
  else
    let c := if c =? CR then NL else c in
    if (c =? NL) || (c =? ctrl_D) || bool_decide (length (ready ++ line) = 127%nat)
    then (ready ++ line ++ [c], [], [Echo c; Wakeup])
    else (ready, line ++ [c], [Echo c]).

Lemma rubs_snoc (line : list Z) c : concat ((fun _ => rub) <$> (line ++ [c])) = rub ++ concat ((fun _ => rub) <$> line).
Proof. induction line as [|d line IH]; [done|]. cbn [fmap list_fmap concat app]. by rewrite IH. Qed.

Lemma kill_loop_spec line : forall s ready, holds s ready line -> Forall (fun c => c <> NL) line ->
  exists s', kill_loop (length line) s = (s', concat ((fun _ => rub) <$> line)) /\ holds s' ready [].
Proof.
  induction line as [|c line IH] using rev_ind; intros s ready H Hl; [by exists s|].
  apply Forall_app in Hl as [Hl Hc]. apply Forall_cons_1 in Hc as [Hc _].
  destruct (holds_erase s ready line c H) as [He Ha]. destruct (IH _ _ He Hl) as (s' & Hk & Hs'). exists s'. split; [|done].
  rewrite length_app, Nat.add_comm. cbn -[consputc]. rewrite (line_empty s ready (line ++ [c]) H), bool_decide_eq_false_2 by (by destruct line).
  cbn in Ha. rewrite Ha. rewrite (proj2 (Z.eqb_neq _ _) Hc). cbn -[consputc]. rewrite Hk.
  by rewrite rubs_snoc.
Qed.

Lemma type_char_key s ready line c :
  holds s ready line -> Forall (fun c => c <> NL) line -> 0 <= c < 256 ->
  let k := if (c =? 0) || bool_decide (length (ready ++ line) = 128%nat) then (ready, line, [])
    else
      let c := if c =? CR then NL else c in
      if (c =? NL) || (c =? ctrl_D) || bool_decide (length (ready ++ line) = 127%nat)
      then (ready ++ line ++ [c], [], [Echo c; Wakeup])
      else (ready, line ++ [c], [Echo c]) in
  exists s', type_char c s = (s', snd k) /\ holds s' (fst (fst k)) (snd (fst k)) /\
    Forall (fun c => c <> NL) (snd (fst k)).
Proof.
  intros H Hl Hc. pose proof (h_fit _ _ _ H) as Hfit. unfold type_char. rewrite (used_count s ready line H).
  destruct (c =? 0); [by eexists|]. cbn [negb andb orb].
  case_bool_decide as Hfull; [rewrite Hfull; by eexists|].
  rewrite (proj2 (Z.ltb_lt _ _)) by (unfold INPUT_BUF_SIZE; lia). cbn zeta.
  assert (0 <= (if c =? CR then NL else c) < 256) as Hc' by (destruct (c =? CR); unfold NL; lia).
  revert Hc'. generalize (if c =? CR then NL else c). clear c Hc. intros c Hc.
  pose proof (holds_store s ready line c H ltac:(lia) Hc) as Hst.
  rewrite (used_count _ _ _ Hst). change (store c s) with (store c s).
  assert (Echo <$> consputc c = [Echo c]) as ->.
  { unfold consputc, uartputc_sync, BACKSPACE. rewrite (proj2 (Z.eqb_neq _ _)) by lia. by rewrite wrapu_small by lia. }
  assert ((Z.of_nat (length (ready ++ line ++ [c])) =? INPUT_BUF_SIZE) = bool_decide (length (ready ++ line) = 127%nat)) as ->.
  { rewrite app_assoc, (length_app _ [c]). unfold INPUT_BUF_SIZE. cbn.
    case_bool_decide; [apply Z.eqb_eq|apply Z.eqb_neq]; lia. }
  destruct (Z.eqb_spec c NL) as [->|Hnl]; cbn [orb].
  { eexists. split; [reflexivity|]. split; [|constructor]. apply holds_commit in Hst. exact Hst. }
  destruct ((c =? ctrl_D) || _).
  - eexists. split; [reflexivity|]. split; [|constructor]. apply holds_commit in Hst. exact Hst.
  - eexists. split; [reflexivity|]. split; [exact Hst|]. cbn. apply Forall_app. split; [done|]. by constructor.
Qed.

Lemma consoleintr_key s ready line c :
  holds s ready line -> Forall (fun c => c <> NL) line -> 0 <= c < 256 ->
  exists s', consoleintr c s = (s', snd (key c ready line)) /\
    holds s' (fst (fst (key c ready line))) (snd (fst (key c ready line))) /\
    Forall (fun c => c <> NL) (snd (fst (key c ready line))).
Proof.
  intros H Hl Hc. unfold consoleintr, key. destruct (c =? ctrl_P); [by eexists|]. destruct (c =? ctrl_U).
  { rewrite (line_count s ready line H), Nat2Z.id. destruct (kill_loop_spec line s ready H Hl) as (s' & -> & Hs'). by exists s'. }
  destruct ((c =? ctrl_H) || (c =? DEL)).
  { unfold erase. rewrite (line_empty s ready line H). destruct line as [|d line] using rev_ind; [by eexists|].
    rewrite bool_decide_eq_false_2 by (by destruct line). apply Forall_app in Hl as [Hl _]. cbn -[consputc].
    destruct (holds_erase s ready line d H) as [He _]. eexists. split; [|split].
    - f_equal. destruct line; done.
    - destruct line; cbn [app fst snd]; rewrite ?removelast_last; [done|].
      change (z :: line ++ [d]) with ((z :: line) ++ [d]). by rewrite removelast_last.
    - destruct line; cbn [app fst snd]; [constructor|]. change (z :: line ++ [d]) with ((z :: line) ++ [d]). by rewrite removelast_last. }
  by apply type_char_key.
Qed.
(** ** consoleread takes a line *)

(** Not the end of a line, and not the end of the input. *)
Definition plain (c : Z) : Prop := c <> NL /\ c <> ctrl_D.

Lemma read_loop_plain killed ok target p : forall n s ready line,
  holds s (p ++ ready) line -> Forall plain p -> Z.of_nat (length p) <= n ->
  (forall k, target - n <= k < target - n + Z.of_nat (length p) -> ok k = true) ->
  exists s', holds s' ready line /\
    read_loop (Z.to_nat n) killed ok target n s =
    let '(end_, out, s'') := read_loop (Z.to_nat (n - Z.of_nat (length p))) killed ok target (n - Z.of_nat (length p)) s' in
    (end_, p ++ out, s'').
Proof.
  induction p as [|c p IH]; intros n s ready line H Hp Hn Hok.
  - exists s. split; [done|]. cbn [length app]. change (Z.of_nat 0) with 0. rewrite Z.sub_0_r. by destruct (read_loop _ _ _ _ _ _) as [[? ?] ?].
  - apply Forall_cons in Hp as [[Hc1 Hc2] Hp]. destruct (holds_take s c (p ++ ready) line H) as [Ha Ht]. cbn [length] in Hn, Hok.
    destruct (IH (n - 1) _ _ _ Ht Hp ltac:(lia)) as (s' & Hs' & Hr); [intros k Hk; apply Hok; lia|].
    exists s'. split; [done|]. replace (Z.to_nat n) with (S (Z.to_nat (n - 1))) by lia. cbn [read_loop].
    rewrite (ready_empty s _ _ H), bool_decide_eq_false_2 by done. rewrite Ha, (proj2 (Z.eqb_neq _ _) Hc2), Hok by lia.
    cbn [negb]. rewrite (proj2 (Z.eqb_neq _ _) Hc1), Hr. cbn [length].
    replace (n - 1 - Z.of_nat (length p)) with (n - Z.of_nat (S (length p))) by lia.
    clear Hr. destruct (read_loop _ _ _ _ _ s') as [[e o] t]. reflexivity.
Qed.

(** What a run does with the byte [c] that is next when [n] bytes are wanted. *)
Lemma read_loop_byte killed ok target n s c ready line :
  holds s (c :: ready) line -> 0 < n -> n <= target < 2 ^ 31 ->
  exists s', (c = ctrl_D -> n < target -> holds s' (c :: ready) line) /\ (c <> ctrl_D \/ n = target -> holds s' ready line) /\
    (c = ctrl_D -> read_loop (Z.to_nat n) killed ok target n s =
       (RDone (target - n), (if n <? target then [] else [c]), s')) /\
    (c <> ctrl_D -> ok (target - n) = false -> read_loop (Z.to_nat n) killed ok target n s = (RDone (target - n), [c], s')) /\
    (c = NL -> ok (target - n) = true -> read_loop (Z.to_nat n) killed ok target n s = (RDone (target - n + 1), [c], s')).
Proof.
  intros H Hn Ht. destruct (holds_take s c ready line H) as [Ha Hs].
  assert (wrapu 32 (wrapu 32 (c_r s + 1) - 1) = c_r s) as Hback.
  { unfold wrapu. rewrite Zminus_mod_idemp_l. replace (c_r s + 1 - 1) with (c_r s) by lia. apply Z.mod_small, (h_r _ _ _ H). }
  assert (i32 (target - n) = target - n) as Hret by (apply i32_small; lia).
  assert (i32 (target - (n - 1)) = target - n + 1) as Hret1 by (rewrite i32_small; lia).
  replace (Z.to_nat n) with (S (Z.to_nat (n - 1))) by lia. cbn [read_loop].
  rewrite (ready_empty s _ _ H), bool_decide_eq_false_2, Ha by done.
  rewrite (wrapu_small 32 n) by lia.
  exists (if (c =? ctrl_D) && (n <? target) then s else {| s with c_r := wrapu 32 (c_r s + 1) |}).
  split_and!.
  - intros -> Hlt. by rewrite Z.eqb_refl, (proj2 (Z.ltb_lt _ _) Hlt).
  - intros [Hc|Hc]; [by rewrite (proj2 (Z.eqb_neq _ _) Hc)|]. by rewrite (proj2 (Z.ltb_ge n target)), andb_false_r by lia.
  - intros ->. rewrite Z.eqb_refl. cbn [andb]. destruct (n <? target); rewrite Hret; [|done]. cbn. rewrite Hback. by destruct s.
  - intros Hc Hk. rewrite (proj2 (Z.eqb_neq _ _) Hc), Hk. cbn. by rewrite Hret.
  - intros -> Hk. rewrite Hk. cbn. by rewrite Hret1.
Qed.

(** A read of the console takes what is ready up to the end of the first line:
    with [p] the plain bytes before it that fit in the [n] bytes wanted, a run
    returns [p] and the newline; returns [p] alone and keeps the ^D for the next
    call, or takes it when nothing at all was read, which returns 0; stops after
    [n] bytes; sleeps when the committed bytes run out, having taken them; or, when
    a byte cannot be copied out, returns the count before it and loses the byte. *)
Theorem console_reads_line (ok : Z -> bool) (target n : Z) (s : cons) (p ready line : list Z) :
  holds s (p ++ ready) line -> Forall plain p -> 0 < n <= target -> target < 2 ^ 31 -> Z.of_nat (length p) <= n ->
  (forall k, target - n <= k < target - n + Z.of_nat (length p) -> ok k = true) ->
  let got := target - n + Z.of_nat (length p) in
  (Z.of_nat (length p) = n -> exists s', holds s' ready line /\ consoleread_run false ok target n s = (RDone target, p, s')) /\
  (ready = [] -> Z.of_nat (length p) < n -> exists s', holds s' [] line /\
     consoleread_run false ok target n s = (RSleep (n - Z.of_nat (length p)), p, s')) /\
  (forall q, ready = NL :: q -> Z.of_nat (length p) < n -> ok got = true -> exists s', holds s' q line /\
     consoleread_run false ok target n s = (RDone (got + 1), p ++ [NL], s')) /\
  (forall q, ready = ctrl_D :: q -> Z.of_nat (length p) < n -> 0 < got -> exists s', holds s' ready line /\
     consoleread_run false ok target n s = (RDone got, p, s')) /\
  (forall q, ready = ctrl_D :: q -> got = 0 -> exists s', holds s' q line /\
     consoleread_run false ok target n s = (RDone 0, [ctrl_D], s')) /\
  (forall c q, ready = c :: q -> c <> ctrl_D -> Z.of_nat (length p) < n -> ok got = false -> exists s', holds s' q line /\
     consoleread_run false ok target n s = (RDone got, p ++ [c], s')).
Proof.
  intros H Hp Hn Ht Hlen Hok got. unfold consoleread_run.
  destruct (read_loop_plain false ok target p n s ready line H Hp Hlen Hok) as (s1 & H1 & ->).
  set (m := n - Z.of_nat (length p)). assert (target - m = got) as Hm by lia.
  split_and!.
  - intros E. exists s1. split; [done|]. assert (m = 0) as -> by lia. change (Z.to_nat 0) with 0%nat. cbn [read_loop]. rewrite app_nil_r, Z.sub_0_r. by rewrite i32_small by lia.
  - intros -> Hlt. exists s1. split; [done|]. replace (Z.to_nat m) with (S (Z.to_nat (m - 1))) by lia. cbn [read_loop].
    rewrite (ready_empty s1 _ _ H1), bool_decide_eq_true_2 by done. by rewrite app_nil_r.
  - intros q -> Hlt Hg. destruct (read_loop_byte false ok target m s1 _ _ _ H1 ltac:(lia) ltac:(lia)) as (s2 & _ & H2 & _ & _ & Hr).
    exists s2. split; [apply H2; by left|]. rewrite Hr by (rewrite ?Hm; done). by rewrite Hm.
  - intros q -> Hlt Hg. destruct (read_loop_byte false ok target m s1 _ _ _ H1 ltac:(lia) ltac:(lia)) as (s2 & H2 & _ & Hr & _ & _).
    exists s2. split; [apply H2; [done|lia]|]. rewrite Hr by done. rewrite (proj2 (Z.ltb_lt _ _)) by lia. by rewrite Hm, app_nil_r.
  - intros q -> Hg. assert (length p = 0%nat /\ n = target) as [Hp0 ->] by lia. apply nil_length_inv in Hp0 as ->.
    destruct (read_loop_byte false ok target m s1 _ _ _ H1 ltac:(lia) ltac:(lia)) as (s2 & _ & H2 & Hr & _ & _).
    exists s2. split; [apply H2; right; lia|]. rewrite Hr by done. rewrite (proj2 (Z.ltb_ge _ _)) by lia. by rewrite Hm, Hg.
  - intros c q -> Hc Hlt Hg. destruct (read_loop_byte false ok target m s1 _ _ _ H1 ltac:(lia) ltac:(lia)) as (s2 & _ & H2 & _ & Hr & _).
    exists s2. split; [apply H2; by left|]. rewrite Hr by (rewrite ?Hm; done). by rewrite Hm.
Qed.

End ConsoleFacts.
