(* ===== verification/ConsoleRun.v ===== *)
(** * The console and its users: what readers get, what writers send *)
From S2P Require Import Prelude Console ConsoleFacts.
Import Console ConsoleFacts.

#[local] Open Scope Z_scope.

Module ConsoleRun.

(** ** The input, cooked *)

(** The lines finished so far and the line being edited, with room for any number. *)
Definition cook1 (st : list Z * list Z) (c : Z) : list Z * list Z :=
  let '(done_, line) := st in
  if (c =? ctrl_P) || (c =? 0) then (done_, line)
  else if c =? ctrl_U then (done_, [])
  else if (c =? ctrl_H) || (c =? DEL) then (done_, removelast line)
  else
    let c := if c =? CR then NL else c in
    if (c =? NL) || (c =? ctrl_D) then (done_ ++ line ++ [c], []) else (done_, line ++ [c]).

Definition cooked (typed : list Z) : list Z * list Z := foldl cook1 ([], []) typed.

Lemma key_cook c t ready line :
  (length (ready ++ line) < 127)%nat ->
  cook1 (t ++ ready, line) c = (t ++ fst (fst (key c ready line)), snd (fst (key c ready line))).
Proof.
  intros H. unfold cook1, key. rewrite !bool_decide_eq_false_2, !orb_false_r by lia.
  destruct (c =? ctrl_P); [done|]. destruct (Z.eqb_spec c 0) as [->|H0]; [done|]. cbn [orb].
  destruct (c =? ctrl_U); [done|].
  destruct ((c =? ctrl_H) || (c =? DEL)); [by destruct line|]. cbn zeta.
  destruct (_ || _); [|done]. cbn. by rewrite <- (assoc_L (++)).
Qed.

Lemma key_ready c ready line : Wakeup ∉ snd (key c ready line) -> fst (fst (key c ready line)) = ready.
Proof.
  unfold key. destruct (c =? ctrl_P); [done|]. destruct (c =? ctrl_U); [done|].
  destruct ((c =? ctrl_H) || (c =? DEL)); [by destruct line|]. destruct ((c =? 0) || _); [done|]. cbn zeta.
  destruct (_ || _ || _); [|done]. cbn. set_solver.
Qed.

Lemma key_length c ready line :
  (length (ready ++ line) < 128)%nat ->
  (length (fst (fst (key c ready line)) ++ snd (fst (key c ready line))) <= S (length (ready ++ line)))%nat.
Proof.
  intros H. unfold key. destruct (c =? ctrl_P); [cbn; lia|]. destruct (c =? ctrl_U); [cbn; rewrite app_nil_r, length_app; lia|].
  destruct ((c =? ctrl_H) || (c =? DEL)).
  { destruct line as [|d line] using rev_ind; [cbn; lia|]. clear. destruct (line ++ [d]) eqn:E; [by destruct line|].
    rewrite <- E. cbn. rewrite removelast_last, !length_app. lia. }
  destruct ((c =? 0) || _); [cbn; lia|]. cbn zeta.
  destruct (_ || _ || _); cbn; rewrite ?app_nil_r, ?app_assoc, ?length_app; cbn; lia.
Qed.

(** ** A run of consoleread, whatever happens in it *)

Lemma read_loop_split killed ok target fuel : forall n s ready line end_ out s',
  holds s ready line -> Z.to_nat n = fuel -> read_loop fuel killed ok target n s = (end_, out, s') ->
  exists rest, ready = out ++ rest /\ holds s' rest line /\ (forall m, end_ = RSleep m -> rest = [] /\ 0 < m <= n).
Proof.
  induction fuel as [|fuel IH]; intros n s ready line end_ out s' H Hf Hr; cbn in Hr; [injection Hr as <- <- <-; eexists; by split_and!|].
  rewrite (ready_empty s _ _ H) in Hr. case_bool_decide as Hre.
  { subst ready. injection Hr as <- <- <-. exists []. split_and!; [done|done|]. intros m Hm. split; [done|].
    destruct killed; [done|]. injection Hm as <-. lia. }
  destruct ready as [|c ready]; [done|]. destruct (holds_take s c ready line H) as [Ha Ht]. rewrite Ha in Hr.
  destruct (c =? ctrl_D).
  { destruct (_ <? target); injection Hr as <- <- <-; [|exists ready; by split_and!].
    exists (c :: ready). split_and!; [done| |done]. cbn.
    replace (wrapu 32 (wrapu 32 (c_r s + 1) - 1)) with (c_r s); [by destruct s|].
    unfold wrapu. rewrite Zminus_mod_idemp_l. replace (c_r s + 1 - 1) with (c_r s) by lia. symmetry. apply Z.mod_small, (h_r _ _ _ H). }
  destruct (ok _); cbn [negb] in Hr; [|injection Hr as <- <- <-; exists ready; by split_and!].
  destruct (c =? NL); [injection Hr as <- <- <-; exists ready; by split_and!|].
  destruct (read_loop fuel killed ok target (n - 1) _) as [[e o] s1] eqn:E. injection Hr as <- <- <-.
  destruct (IH (n - 1) _ _ _ _ _ _ Ht ltac:(lia) E) as (rest & -> & Hs & Hm). exists rest. split_and!; [done|done|].
  intros m Hem. destruct (Hm m Hem) as [? ?]. split; [done|lia].
Qed.

(** ** Readers *)

Record rinv (calm : bool) (s : sys) : Prop := {
  ri_typed : exists ready line, holds (the_cons s) ready line /\ Forall (fun c => c <> NL) line /\
    (calm = true -> (taken s ++ ready, line) = cooked (typed s)) /\
    (forall t ok target n, readers s !! t = Some (Reading ok target n true) -> ready = [])
}.

Lemma boot_rinv calm nr nw : rinv calm (boot nr nw).
Proof.
  constructor. exists [], []. split_and!; [|done|done|].
  - constructor; cbn [boot the_cons c_buf c_r c_w c_e length app]; [by rewrite length_replicate|lia|done|done|lia|done].
  - intros t ok target n H. cbn in H. by apply lookup_replicate in H as [? _].
Qed.

Lemma awake_all s t x : (wake_reader <$> readers s) !! t = Some x -> forall ok target n, x <> Reading ok target n true.
Proof. intros H. rewrite list_lookup_fmap in H. by destruct (readers s !! t) as [[]|]; simplify_eq/=. Qed.

Lemma sys_intr_rinv calm c s :
  rinv calm s -> 0 <= c < 256 -> (calm = true -> wrapu 32 (c_e (the_cons s) - c_r (the_cons s)) < 127) ->
  rinv calm (sys_intr c s) /\
  (wrapu 32 (c_e (the_cons s) - c_r (the_cons s)) < 128 ->
   wrapu 32 (c_e (the_cons (sys_intr c s)) - c_r (the_cons (sys_intr c s))) <= wrapu 32 (c_e (the_cons s) - c_r (the_cons s)) + 1).
Proof.
  intros [(ready & line & H & Hl & Hc & Ha)] Hb Hcalm. rewrite (used_count _ _ _ H) in *. unfold sys_intr.
  destruct (consoleintr_key _ _ _ c H Hl Hb) as (k & Hk & Hh & Hl'). rewrite Hk. cbn [the_cons].
  rewrite (used_count _ _ _ Hh). split; [|intros Hlt; pose proof (key_length c ready line); lia].
  constructor. eexists _, _. cbn. split_and!; [exact Hh|exact Hl'| |].
  - intros Ht. unfold cooked. rewrite foldl_snoc. fold (cooked (typed s)). rewrite <- (Hc Ht). symmetry. apply key_cook.
    specialize (Hcalm Ht). lia.
  - case_decide as Hw; intros t ok target n Hr; [by destruct (awake_all _ _ _ Hr ok target n)|].
    rewrite (key_ready _ _ _ Hw). by eapply Ha.
Qed.

Lemma uartintr_rinv calm idle received s :
  rinv calm s -> Forall (fun c => 0 <= c < 256) received ->
  (calm = true -> wrapu 32 (c_e (the_cons s) - c_r (the_cons s)) + Z.of_nat (length received) < INPUT_BUF_SIZE) ->
  rinv calm (uartintr idle received s).
Proof.
  intros H Hb Hcalm. unfold uartintr.
  assert (rinv calm (if idle then uart_idle s else s)) as H0 by (destruct idle; [destruct H as [H]; by constructor|done]).
  assert (the_cons (if idle then uart_idle s else s) = the_cons s) as Hs by (by destruct idle).
  rewrite <- Hs in Hcalm. revert H0 Hcalm. generalize (if idle then uart_idle s else s). clear H s Hs idle.
  unfold INPUT_BUF_SIZE. induction Hb as [|c received Hc Hb IH]; intros s H Hcalm; [done|]. cbn [foldl].
  cbn [length] in Hcalm. destruct (sys_intr_rinv calm c s H Hc) as [H1 H2]; [intros Ht; specialize (Hcalm Ht); lia|].
  apply IH; [done|]. intros Ht. specialize (Hcalm Ht). specialize (H2 ltac:(lia)). lia.
Qed.

Lemma step_rinv fcfs calm s s' : rinv calm s -> step fcfs calm s s' -> rinv calm s'.
Proof.
  intros H Hstep. destruct Hstep as [s idle received Hcalm Hb|s t ok n Ht Hn|s t ok target n killed end_ out k Ht Hr|s t|s t pid src ok n ret Ht|s t pid src ok n i Ht|s t pid src ok n i buf k end_ sent busy Ht Hw].
  - by apply uartintr_rinv.
  - destruct H as [(ready & line & H & Hl & Hc & Ha)]. constructor. exists ready, line. cbn. split_and!; [done|done|done|].
    intros u ok' target n' Hu. apply list_lookup_insert_Some in Hu as [(-> & Hx & _)|[_ Hu]]; [done|by eapply Ha].
  - destruct H as [(ready & line & H & Hl & Hc & Ha)]. constructor.
    destruct (read_loop_split _ _ _ _ _ _ _ _ _ _ _ H eq_refl Hr) as (rest & -> & Hh & Hm). exists rest, line. cbn.
    split_and!; [done|done|intros Hcm; by rewrite <- (assoc_L (++)), Hc|].
    intros u ok' target' n' Hu. apply list_lookup_insert_Some in Hu as [(-> & Hx & _)|[_ Hu]].
    + destruct end_; cbn in Hx; try done. injection Hx as <- <- <-. by destruct (Hm n0 eq_refl).
    + specialize (Ha _ _ _ _ Hu). by apply app_eq_nil in Ha as [_ ->].
  - destruct H as [(ready & line & H & Hl & Hc & Ha)]. constructor. exists ready, line. cbn. split_and!; [done|done|done|].
    intros u ok' target n' Hu. destruct (decide (u = t)) as [->|Hne]; [|rewrite list_lookup_alter_ne in Hu by done; by eapply Ha].
    rewrite list_lookup_alter in Hu. destruct (decide (t = t)); [|done]. by destruct (readers s !! t) as [[]|].
  - destruct H as [H]. by constructor.
  - destruct H as [H]. by constructor.
  - destruct H as [H]. by constructor.
Qed.

Lemma runs_rinv fcfs calm nr nw s : rtc (step fcfs calm) (boot nr nw) s -> rinv calm s.
Proof. intros H. eapply rtc_invariant; [|exact H|apply boot_rinv]. intros ? ? Hi Hs. by eapply step_rinv. Qed.

(** (C13) What is typed is what is read, cooked, in runs in which no byte arrives that
    could fill the 128-byte buffer (when it is full consoleintr drops what is typed,
    and a key that fills it wakes the readers before the line is finished): in every interleaving of interrupts, reads, writes and kills
    the bytes the readers took followed by those they can take are exactly the
    finished lines of the typed input after erasing and killing, and the rest of
    the buffer is the line being edited. *)
Theorem console_input_cooked (fcfs : bool) (nr nw : nat) (s : sys) :
  rtc (step fcfs true) (boot nr nw) s ->
  exists ready line, holds (the_cons s) ready line /\ (taken s ++ ready, line) = cooked (typed s).
Proof. intros H. destruct (runs_rinv _ _ _ _ _ H) as [(ready & line & Hh & _ & Hc & _)]. exists ready, line. by split; [|apply Hc]. Qed.

(** No reader sleeps on input that is there: whatever arrives and however full
    the buffer is, a reader that is asleep and has not been woken has nothing to
    read; and a key that ends a line wakes every reader. *)
Theorem console_no_lost_wakeup (fcfs calm : bool) (nr nw : nat) (s : sys) :
  rtc (step fcfs calm) (boot nr nw) s ->
  (forall t ok target n, readers s !! t = Some (Reading ok target n true) -> c_r (the_cons s) = c_w (the_cons s)) /\
  (forall c t x, (c = NL \/ c = CR \/ c = ctrl_D) -> wrapu 32 (c_e (the_cons s) - c_r (the_cons s)) < INPUT_BUF_SIZE ->
     readers (sys_intr c s) !! t = Some x ->
     (forall ok target n, x <> Reading ok target n true) /\ c_r (the_cons (sys_intr c s)) <> c_w (the_cons (sys_intr c s))).
Proof.
  intros H. destruct (runs_rinv _ _ _ _ _ H) as [(ready & line & Hh & Hl & _ & Ha)]. split.
  - intros t ok target n Ht. specialize (Ha _ _ _ _ Ht). apply Z.eqb_eq. rewrite (ready_empty _ _ _ Hh). by apply bool_decide_eq_true_2.
  - intros c t x Hc Hroom. rewrite (used_count _ _ _ Hh) in Hroom. unfold INPUT_BUF_SIZE in Hroom. unfold sys_intr.
    assert (0 <= c < 256) as Hb by (unfold NL, CR, ctrl_D, C in Hc; lia).
    destruct (consoleintr_key _ _ _ c Hh Hl Hb) as (k & Hk & Hkh & _). rewrite Hk. cbn [readers the_cons].
    assert (key c ready line = (ready ++ line ++ [if c =? CR then NL else c], [], [Echo (if c =? CR then NL else c); Wakeup])) as Hkey.
    { unfold key. rewrite (bool_decide_eq_false_2 (_ = 128%nat)) by lia. by destruct Hc as [->|[->| ->]]. }
    rewrite Hkey in *. cbn [fst snd] in *. rewrite decide_True by set_solver. intros Hx. split; [by eapply awake_all|].
    apply Z.eqb_neq. rewrite (ready_empty _ _ _ Hkh). apply bool_decide_eq_false_2. by destruct ready, line.
Qed.

(** ** The buffer is well-formed *)

Definition is_char (c : Z) : bool := (0 <=? c) && (c <? 256).
Definition is_uint (z : Z) : bool := (0 <=? z) && (z <? 2 ^ 32).

(** A [cons] the code can work with, as a test. *)
Definition cons_wf (s : cons) : bool :=
  (length (c_buf s) =? 128)%nat && forallb is_char (c_buf s) &&
  is_uint (c_r s) && is_uint (c_w s) && is_uint (c_e s) &&
  (wrapu 32 (c_w s - c_r s) + wrapu 32 (c_e s - c_w s) =? wrapu 32 (c_e s - c_r s)) &&
  (wrapu 32 (c_e s - c_r s) <=? INPUT_BUF_SIZE) &&
  forallb (fun k => negb (at_slot s (c_w s + k) =? NL)) (seqZ 0 (wrapu 32 (c_e s - c_w s))).

Lemma is_uint_iff z : is_uint z = true <-> 0 <= z < 2 ^ 32.
Proof. unfold is_uint. rewrite andb_true_iff, Z.leb_le, Z.ltb_lt. done. Qed.

(** The bytes from [i], [n] of them. *)
Definition bytes_from (s : cons) (i n : Z) : list Z := (fun k => at_slot s (i + k)) <$> seqZ 0 n.

Lemma wf_holds s : cons_wf s = true ->
  forallb is_char (c_buf s) = true /\
  exists ready line, holds s ready line /\ Forall (fun c => c <> NL) line.
Proof.
  unfold cons_wf. rewrite !andb_true_iff, !is_uint_iff, Nat.eqb_eq, Z.eqb_eq, Z.leb_le, !forallb_forall.
  intros (((((((Hlen & Hch) & Hr) & Hw) & He) & Hsum) & Hfit) & Hnl). split; [done|].
  pose proof (wrapu_range 32 (c_w s - c_r s) ltac:(lia)) as HA. pose proof (wrapu_range 32 (c_e s - c_w s) ltac:(lia)) as HB.
  set (a := wrapu 32 (c_w s - c_r s)) in *. set (b := wrapu 32 (c_e s - c_w s)) in *. unfold INPUT_BUF_SIZE in Hfit.
  exists (bytes_from s (c_r s) a), (bytes_from s (c_r s + a) b).
  assert (forall i n, length (bytes_from s i n) = Z.to_nat n) as Hln.
  { intros i n. unfold bytes_from. by rewrite length_fmap, length_seqZ. }
  assert (c_w s = wrapu 32 (c_r s + a)) as Ew.
  { unfold a, wrapu. rewrite Zplus_mod_idemp_r. replace (c_r s + (c_w s - c_r s)) with (c_w s) by lia. symmetry. by apply Z.mod_small. }
  assert (c_e s = wrapu 32 (c_r s + (a + b))) as Ee.
  { rewrite Hsum. unfold wrapu. rewrite Zplus_mod_idemp_r. replace (c_r s + (c_e s - c_r s)) with (c_e s) by lia. symmetry. by apply Z.mod_small. }
  split; [|apply Forall_forall; unfold bytes_from; intros c Hc; apply list_elem_of_fmap in Hc as (k & -> & Hk)].
  - constructor; rewrite ?length_app, ?Hln; [done|done| | |lia|].
    + by rewrite Z2Nat.id by lia.
    + by rewrite <- Z2Nat.inj_add, Z2Nat.id by lia.
    + assert (forall i n k c, bytes_from s i n !! k = Some c -> c_buf s !! slot (i + Z.of_nat k) = Some c) as Hat.
      { intros i n k c Hk. unfold bytes_from in Hk. rewrite list_lookup_fmap in Hk. destruct (seqZ 0 n !! k) as [j|] eqn:Ej; [|done].
        apply lookup_seqZ in Ej as [-> _]. injection Hk as <-. unfold at_slot. rewrite Z.add_0_l.
        assert (is_Some (c_buf s !! slot (i + Z.of_nat k))) as [c ->]; [|done]. apply lookup_lt_is_Some_2. rewrite Hlen.
        unfold slot, INPUT_BUF_SIZE. pose proof (Z.mod_pos_bound (i + Z.of_nat k) 128). lia. }
      intros k c Hk. apply lookup_app_Some in Hk as [Hk|[Hk1 Hk]]; [by eapply Hat|]. rewrite Hln in *.
      rewrite <- (Hat _ _ _ _ Hk). do 2 f_equal. lia.
  - specialize (Hnl k). rewrite negb_true_iff, Z.eqb_neq in Hnl. unfold at_slot in *. rewrite Ew, cons_slot_wrap_add in Hnl. apply Hnl.
    by apply list_elem_of_In.
Qed.

Lemma holds_wf s ready line :
  holds s ready line -> Forall (fun c => c <> NL) line -> forallb is_char (c_buf s) = true -> cons_wf s = true.
Proof.
  intros H Hl Hch. pose proof (used_count _ _ _ H) as Hu. pose proof (line_count _ _ _ H) as Hn. pose proof (h_fit _ _ _ H) as Hfit.
  pose proof (h_r _ _ _ H) as Hr. assert (wrapu 32 (c_w s - c_r s) = Z.of_nat (length ready)) as Ha.
  { rewrite length_app in Hfit. rewrite (h_w _ _ _ H). rewrite (r_wraps _ _ _ H) at 2. rewrite wrap_sub; lia. }
  unfold cons_wf. rewrite Ha, Hu, Hn, Hch, (h_buf _ _ _ H), !andb_true_iff, !is_uint_iff, Z.eqb_eq, Z.leb_le, forallb_forall.
  unfold INPUT_BUF_SIZE. rewrite length_app in *. split_and!; try done; try lia.
  1-4: rewrite ?(h_w _ _ _ H), ?(h_e _ _ _ H); apply wrapu_range; lia.
  intros k Hk. apply list_elem_of_In, elem_of_seqZ in Hk. rewrite negb_true_iff, Z.eqb_neq.
  destruct (lookup_lt_is_Some_2 line (Z.to_nat k)) as [c Hc]; [lia|].
  assert (at_slot s (c_w s + k) = c) as ->; [|by eapply Forall_lookup_1 in Hl].
  unfold at_slot. rewrite (h_w _ _ _ H), cons_slot_wrap_add.
  pose proof (h_at _ _ _ H (length ready + Z.to_nat k)%nat c) as Hat. rewrite lookup_app_r in Hat by lia.
  replace (length ready + Z.to_nat k - length ready)%nat with (Z.to_nat k) in Hat by lia.
  replace (c_r s + Z.of_nat (length ready) + k) with (c_r s + Z.of_nat (length ready + Z.to_nat k)) by lia. by rewrite Hat.
Qed.

(** Every byte stored is a char. *)
Lemma chars_insert l i c : forallb is_char l = true -> forallb is_char (<[i := wrapu 8 c]> l) = true.
Proof.
  rewrite !forallb_forall. intros H x Hx. apply list_elem_of_In, list_elem_of_lookup in Hx as [k Hk].
  apply list_lookup_insert_Some in Hk as [(-> & <- & _)|[_ Hk]].
  - unfold is_char. pose proof (wrapu_range 8 c ltac:(lia)). apply andb_true_iff. split; [apply Z.leb_le|apply Z.ltb_lt]; lia.
  - apply H, list_elem_of_In. by eapply list_elem_of_lookup_2.
Qed.

Lemma kill_loop_buf fuel : forall s, c_buf (fst (kill_loop fuel s)) = c_buf s.
Proof.
  induction fuel as [|fuel IH]; intros s; [done|]. cbn [kill_loop]. destruct (_ && _); [|done].
  specialize (IH {| s with c_e := wrapu 32 (c_e s - 1) |}). by destruct (kill_loop _ _).
Qed.

Lemma consoleintr_chars c s : forallb is_char (c_buf s) = true -> forallb is_char (c_buf (fst (consoleintr c s))) = true.
Proof.
  intros H. unfold consoleintr, erase, type_char.
  destruct (c =? ctrl_P); [done|]. destruct (c =? ctrl_U); [by rewrite kill_loop_buf|].
  destruct (_ || _); [by destruct (negb _)|]. destruct (_ && _); [|done]. cbn zeta.
  destruct (_ || _); by apply chars_insert.
Qed.

Lemma read_loop_buf killed ok target fuel : forall n s, c_buf (snd (read_loop fuel killed ok target n s)) = c_buf s.
Proof.
  induction fuel as [|fuel IH]; intros n s; [done|]. cbn [read_loop]. destruct (_ =? c_w s); [done|]. cbn zeta.
  destruct (_ =? ctrl_D); [by destruct (_ <? target)|]. destruct (negb _); [done|]. destruct (_ =? NL); [done|].
  specialize (IH (n - 1) {| s with c_r := wrapu 32 (c_r s + 1) |}). by destruct (read_loop _ _ _ _ _ _) as [[? ?] ?].
Qed.

(** (C38) The console's buffer stays well-formed, as the test [cons_wf] decides it:
    128 chars, indexes that are uints, the committed part and the line inside the
    buffer however the indexes wrap around, and no newline in the line being edited.
    It is so at boot, after any key and after any run of consoleread, whatever it
    was asked. *)
Theorem console_wellformed (s : cons) :
  cons_wf (the_cons (boot 0 0)) = true /\
  (cons_wf s = true ->
   (forall c, is_char c = true -> cons_wf (fst (consoleintr c s)) = true) /\
   (forall killed ok target n, cons_wf (snd (consoleread_run killed ok target n s)) = true)).
Proof.
  split; [vm_compute; reflexivity|]. intros Hwf. destruct (wf_holds s Hwf) as (Hch & ready & line & H & Hl). split.
  - intros c Hc. unfold is_char in Hc. apply andb_true_iff in Hc as [Hc1%Z.leb_le Hc2%Z.ltb_lt].
    pose proof (consoleintr_chars c s Hch) as Hch'. destruct (consoleintr_key s ready line c H Hl ltac:(lia)) as (s' & E & Hs' & Hl').
    rewrite E in *. by eapply holds_wf.
  - intros killed ok target n. pose proof (read_loop_buf killed ok target (Z.to_nat n) n s) as Hb. unfold consoleread_run in *.
    destruct (read_loop (Z.to_nat n) killed ok target n s) as [[e o] s'] eqn:E.
    destruct (read_loop_split _ _ _ _ _ _ _ _ _ _ _ H eq_refl E) as (rest & _ & Hs' & _). cbn in *.
    eapply holds_wf; [exact Hs'|done|]. by rewrite Hb.
Qed.

(** ** Writers *)

(** The transmitter as the log shows it: whether the last byte stored has been
    sent; no more log after a store to a busy transmitter. *)
Definition replay1 (st : option bool) (ev : tx_event) : option bool :=
  match st, ev with
  | Some busy, Call _ => Some busy
  | Some false, Put _ _ => Some true
  | Some _, Idle => Some false
  | _, _ => None
  end.

Definition replay (log : list tx_event) : option bool := foldl replay1 (Some false) log.

(** What [t] has stored since its call of consolewrite. *)
Definition since1 (t : nat) (acc : list Z) (ev : tx_event) : list Z :=
  match ev with
  | Call u => if decide (u = t) then [] else acc
  | Put u c => if decide (u = t) then acc ++ [c] else acc
  | Idle => acc
  end.

Definition since_call (t : nat) (log : list tx_event) : list Z := foldl (since1 t) [] log.

(** Where a writer is, and what it has stored. *)
Definition writer_ok (s : sys) (t : nat) (x : writer) : Prop :=
  match x with
  | WHead _ src _ n i => 0 <= i /\ i <= Z.max 0 n /\ since_call t (tx_log s) = src <$> seqZ 0 i
  | WUart _ src _ n i buf k asleep =>
      0 <= i < n /\ 0 <= k <= chunk n i /\ buf = src <$> seqZ i (chunk n i) /\
      since_call t (tx_log s) = src <$> seqZ 0 (i + k) /\ (asleep = true -> tx_busy s <> 0 /\ k < chunk n i)
  | WRet _ => True
  end.

Record winv (s : sys) : Prop := {
  wi_replay : replay (tx_log s) = Some (negb (tx_busy s =? 0));
  wi_writers : forall t x, writers s !! t = Some x -> writer_ok s t x
}.

Lemma boot_winv nr nw : winv (boot nr nw).
Proof. constructor; [done|]. intros t x H. cbn in H. apply lookup_replicate in H as [-> _]. done. Qed.

Lemma chunk_pos n i : i < n -> 0 < chunk n i <= 32 /\ i + chunk n i <= n.
Proof. intros H. unfold chunk. destruct (Z.gtb_spec 32 (n - i)); lia. Qed.

Lemma seqZ_snoc m k : 0 <= k -> seqZ m (k + 1) = seqZ m k ++ [m + k].
Proof.
  intros H. rewrite seqZ_app by lia. f_equal.
Qed.

(** A run of uartwrite that has a byte to store: it waits, or stores that byte. *)
Lemma uartwrite_spec fcfs pid buf n i busy end_ sent busy' :
  i <= n -> uartwrite_run fcfs pid buf n i busy = (end_, sent, busy') ->
  (i = n /\ end_ = WDone /\ sent = [] /\ busy' = busy) \/
  (i < n /\ busy <> 0 /\ (end_ = WSleep i \/ end_ = WSpin i) /\ sent = [] /\ busy' = busy) \/
  (i < n /\ busy = 0 /\ sent = [default 0 (buf !! Z.to_nat i)] /\ busy' = 1 /\
   (i + 1 = n /\ end_ = WDone \/ i + 1 < n /\ (end_ = WSleep (i + 1) \/ end_ = WSpin (i + 1)))).
Proof.
  intros Hi. unfold uartwrite_run. destruct (Z.eqb_spec i n) as [->|Hne].
  { rewrite Z.sub_diag. intros [= <- <- <-]. by left. }
  replace (Z.to_nat (n - i)) with (S (Z.to_nat (n - (i + 1)))) by lia. cbn [uart_loop].
  destruct (Z.eqb_spec busy 0) as [->|Hb]; cbn [negb].
  - destruct (Z.to_nat (n - (i + 1))) as [|f] eqn:Ef; cbn.
    + intros [= <- <- <-]. right. right. (split; [lia|]); (do 3 (split; [done|])). left. split; [lia|done].
    + destruct (fcfs && _); intros [= <- <- <-]; right; right; (split; [lia|]); (do 3 (split; [done|])); right; (split; [lia|auto]).
  - intros H. right. left. destruct (fcfs && _); injection H as <- <- <-; split_and!; auto; lia.
Qed.

Lemma since_app t log evs : since_call t (log ++ evs) = foldl (since1 t) (since_call t log) evs.
Proof. unfold since_call. by rewrite foldl_app. Qed.

Lemma writer_ok_asleep s t x : writer_ok s t x -> writer_ok s t (wake_writer x).
Proof. destruct x; cbn; [done| |done]. intros (H1 & H2 & H3 & H4 & _). (do 4 (split; [done|])). done. Qed.

(** The other writers see the log grow by events that are not theirs. *)
Lemma writer_ok_other s s' t x u evs :
  writer_ok s t x -> t <> u -> tx_log s' = tx_log s ++ evs -> (evs = [Call u] \/ exists cs, evs = Put u <$> cs) ->
  (tx_busy s <> 0 -> tx_busy s' <> 0) -> writer_ok s' t x.
Proof.
  intros Hx Hne Hlog Hevs Hb.
  assert (since_call t (tx_log s') = since_call t (tx_log s)) as Hs.
  { rewrite Hlog, since_app. generalize (since_call t (tx_log s)). intros l.
    destruct Hevs as [-> |[cs ->]]; cbn; [by rewrite decide_False|]. clear Hlog. revert l.
    induction cs as [|c cs IH]; intros l; [done|]. cbn. rewrite decide_False by done. apply IH. }
  destruct x; cbn in *; rewrite ?Hs; [done| |done]. destruct Hx as (H1 & H2 & H3 & H4 & H5). (do 4 (split; [done|])). intros Ha. destruct (H5 Ha) as [? ?]. split; [by apply Hb|done].
Qed.

Lemma uartintr_writers idle received s :
  tx_log (uartintr idle received s) = tx_log s ++ (if idle then [Idle] else []) /\
  tx_busy (uartintr idle received s) = (if idle then 0 else tx_busy s) /\
  writers (uartintr idle received s) = (if idle then wake_writer <$> writers s else writers s).
Proof.
  unfold uartintr. assert (forall s0, let s1 := foldl (fun s c => sys_intr c s) s0 received in
    tx_log s1 = tx_log s0 /\ tx_busy s1 = tx_busy s0 /\ writers s1 = writers s0) as H.
  { induction received as [|c received IH]; intros s0; [done|]. cbn. destruct (IH (sys_intr c s0)) as (-> & -> & ->).
    unfold sys_intr. by destruct (consoleintr _ _). }
  destruct (H (if idle then uart_idle s else s)) as (-> & -> & ->). destruct idle; cbn; by rewrite ?app_nil_r.
Qed.

Lemma replay_snoc log ev : replay (log ++ [ev]) = replay1 (replay log) ev.
Proof. unfold replay. by rewrite foldl_snoc. Qed.

Lemma winv_insert s s' u x evs :
  winv s -> writers s' = <[u := x]> (writers s) -> tx_log s' = tx_log s ++ evs ->
  (evs = [Call u] \/ exists cs, evs = Put u <$> cs) -> (tx_busy s <> 0 -> tx_busy s' <> 0) ->
  replay (tx_log s') = Some (negb (tx_busy s' =? 0)) -> writer_ok s' u x -> winv s'.
Proof.
  intros [Hr Hw] Hws Hlog Hevs Hb Hr' Hx. constructor; [done|]. intros t y Hy. rewrite Hws in Hy.
  apply list_lookup_insert_Some in Hy as [(<- & <- & _)|[Hne Hy]]; [done|]. apply (writer_ok_other s s' t y u evs); [by apply Hw|done..].
Qed.

Lemma write_winv fcfs s t pid src ok n i buf k end_ sent busy :
  winv s -> writers s !! t = Some (WUart pid src ok n i buf k false) ->
  uartwrite_run fcfs pid buf (chunk n i) k (tx_busy s) = (end_, sent, busy) ->
  winv {| s with tx_busy := busy; tx_log := tx_log s ++ (Put t <$> sent);
    writers := <[t := match end_ with
                      | WSleep k => WUart pid src ok n i buf k true
                      | WSpin k => WUart pid src ok n i buf k false
                      | WDone => WHead pid src ok n (i + chunk n i)
                      end]> (writers s) |}.
Proof.
  intros H Ht Hw. pose proof (wi_writers _ H _ _ Ht) as (Hi & Hk & Hbuf & Hs & _). pose proof (wi_replay _ H) as Hrep.
  destruct (chunk_pos n i ltac:(lia)) as [Hc1 Hc2].
  destruct (uartwrite_spec _ _ _ _ _ _ _ _ _ (proj2 Hk) Hw) as [(-> & -> & -> & ->)|[(Hlt & Hb & He & -> & ->)|(Hlt & Hb & -> & -> & He)]].
  - eapply (winv_insert s _ t _ []); [done|done|done|by right; exists []|done|cbn; by rewrite app_nil_r|].
    cbn [writer_ok tx_log fmap list_fmap]. rewrite app_nil_r, Hs. split_and!; [lia|lia|done].
  - eapply (winv_insert s _ t _ []); [done|done|done|by right; exists []|done|cbn; by rewrite app_nil_r|].
    destruct He as [-> | ->]; cbn [writer_ok tx_log tx_busy fmap list_fmap]; rewrite app_nil_r; split_and!; try done; lia.
  - assert (since_call t (tx_log s ++ [Put t (default 0 (buf !! Z.to_nat k))]) = src <$> seqZ 0 (i + (k + 1))) as Hs'.
    { rewrite since_app. cbn. rewrite decide_True by done. rewrite Hs. replace (i + (k + 1)) with (i + k + 1) by lia.
      rewrite (seqZ_snoc 0 (i + k)), fmap_app by lia. f_equal. cbn. rewrite Hbuf, list_lookup_fmap, (proj2 (lookup_seqZ _ _ _ (i + k))) by lia.
      cbn. f_equal. }
    eapply (winv_insert s _ t _ [Put t (default 0 (buf !! Z.to_nat k))]); [done|done|done|by right; eexists [_]|done| |].
    + cbn [tx_log tx_busy fmap list_fmap]. rewrite replay_snoc, Hrep, Hb. done.
    + destruct He as [[E ->]|[E [-> | ->]]]; cbn [writer_ok tx_log tx_busy fmap list_fmap]; rewrite Hs'.
      * rewrite E. split_and!; [lia|lia|done].
      * split_and!; try done; lia.
      * split_and!; try done; lia.
Qed.

Lemma step_winv fcfs calm s s' : winv s -> step fcfs calm s s' -> winv s'.
Proof.
  intros H Hstep. destruct Hstep as [s idle received Hcalm Hb|s t ok n Ht Hn|s t ok target n killed end_ out k Ht Hr|s t|s t pid src ok n ret Ht|s t pid src ok n i Ht|s t pid src ok n i buf k end_ sent busy Ht Hw].
  - destruct (uartintr_writers idle received s) as (El & Eb & Ew). destruct H as [Hr Hw]. constructor.
    + rewrite El, Eb. destruct idle; [rewrite replay_snoc, Hr; by destruct (negb _)|by rewrite app_nil_r].
    + rewrite Ew. intros t x Hx. destruct idle.
      * rewrite list_lookup_fmap in Hx. destruct (writers s !! t) as [y|] eqn:Ey; [|done]. injection Hx as <-.
        specialize (Hw _ _ Ey). destruct y; cbn in *; rewrite ?El, ?since_app; cbn; [done| |done].
        destruct Hw as (H1 & H2 & H3 & H4 & _). (do 4 (split; [done|])). done.
      * specialize (Hw _ _ Hx). destruct x; cbn in *; rewrite ?El, ?Eb, ?app_nil_r; done.
  - destruct H as [Hr Hw]. by constructor.
  - destruct H as [Hr' Hw]. by constructor.
  - destruct H as [Hr Hw]. constructor; [done|]. cbn. intros u x Hx. destruct (decide (u = t)) as [->|Hne].
    + rewrite list_lookup_alter in Hx. destruct (decide (t = t)); [|done]. destruct (writers s !! t) as [y|] eqn:Ey; [|done].
      injection Hx as <-. apply writer_ok_asleep. by apply (Hw t y).
    + rewrite list_lookup_alter_ne in Hx by done. by apply (Hw u x).
  - eapply (winv_insert s _ t _ [Call t]); [done|done|done|by left|done| |].
    + cbn. rewrite replay_snoc, (wi_replay _ H). by destruct (negb _).
    + cbn [writer_ok tx_log]. rewrite since_app. cbn [foldl since1]. rewrite decide_True by done. split_and!; [lia|lia|done].
  - pose proof (wi_writers _ H _ _ Ht) as (Hi & Hn & Hs).
    eapply (winv_insert s _ t _ []); [done|done|cbn; by rewrite app_nil_r|by right; exists []|done|apply H|].
    unfold consolewrite_head. destruct (Z.ltb_spec i n) as [Hlt|]; [|done]. cbn zeta. destruct (ok i _); [|done].
    destruct (chunk_pos n i Hlt) as [Hc1 Hc2]. cbn. rewrite Z.add_0_r. split_and!; try done; lia.
  - by eapply write_winv.
Qed.

Lemma runs_winv fcfs calm nr nw s : rtc (step fcfs calm) (boot nr nw) s -> winv s.
Proof. intros H. eapply rtc_invariant; [|exact H|apply boot_winv]. intros ? ? Hi Hs. by eapply step_winv. Qed.

(** (C39) What is written is what is sent, one byte for each interrupt of an idle
    transmitter: in every interleaving of any number of writers, uartwrite never
    stores a byte while the one before it is being sent; a writer asleep waits for a
    byte that is being sent; and a call of consolewrite has stored, in order, the
    first bytes of its source: all of them when it returns [n], and those before
    the chunk that could not be copied in when it returns less. *)
Theorem console_writes_in_order (fcfs calm : bool) (nr nw : nat) (s : sys) :
  rtc (step fcfs calm) (boot nr nw) s ->
  replay (tx_log s) = Some (negb (tx_busy s =? 0)) /\
  (forall t pid src ok n i buf k, writers s !! t = Some (WUart pid src ok n i buf k true) -> tx_busy s <> 0) /\
  (forall t pid src ok n i ret, writers s !! t = Some (WHead pid src ok n i) -> consolewrite_head src ok n i = inr ret ->
     since_call t (tx_log s) = src <$> seqZ 0 ret /\ 0 <= ret <= Z.max 0 n /\
     (ret = Z.max 0 n \/ ok ret (Z.min 32 (n - ret)) = false)).
Proof.
  intros H. destruct (runs_winv _ _ _ _ _ H) as [Hr Hw]. split_and!; [done| |].
  - intros t pid src ok n i buf k Ht. by apply (Hw _ _ Ht).
  - intros t pid src ok n i ret Ht Hret. destruct (Hw _ _ Ht) as (H1 & H2 & H3). unfold consolewrite_head in Hret.
    destruct (Z.ltb_spec i n) as [Hlt|Hge].
    + cbn zeta in Hret. destruct (ok i (chunk n i)) eqn:E; [done|]. injection Hret as <-. split_and!; try done.
      right. replace (Z.min 32 (n - i)) with (chunk n i); [done|]. unfold chunk. destruct (Z.gtb_spec 32 (n - i)); lia.
    + injection Hret as <-. split_and!; try done. left. lia.
Qed.

(** ** A session

    A reader waits for a line; h, x, backspace, i, carriage return and y are typed;
    the reader takes its line.  Meanwhile a writer sends two bytes. *)
Definition typing : list Z := [104; 120; 8; 105; 13; 121].
Definition yes : Z -> bool := fun _ => true.

Definition asleep : sys :=
  let s := boot 1 1 in
  let s := {| s with readers := [Reading yes 10 10 false] |} in
  {| s with readers := [Reading yes 10 10 true] |}.

Definition typed_line : sys := uartintr false typing asleep.

Definition run_read (killed : bool) (t : nat) (s : sys) : sys :=
  match readers s !! t with
  | Some (Reading ok target n false) =>
      let '(end_, out, k) := consoleread_run killed ok target n (the_cons s) in
      {| s with the_cons := k; taken := taken s ++ out;
                readers := <[t := after_read (Reading ok target n false) end_]> (readers s) |}
  | _ => s
  end.

Definition line_read : sys := run_read false 0 typed_line.

Lemma run_read_step fcfs calm killed t s ok target n :
  readers s !! t = Some (Reading ok target n false) -> step fcfs calm s (run_read killed t s).
Proof.
  intros H. unfold run_read. rewrite H. destruct (consoleread_run _ _ _ _ _) as [[e o] k] eqn:E. by eapply c_read.
Qed.

Lemma asleep_reached fcfs calm : rtc (step fcfs calm) (boot 1 1) asleep.
Proof.
  eapply rtc_l; [apply (c_read_start _ _ (boot 1 1) 0 yes 10); [reflexivity|lia]|].
  eapply rtc_l; [eapply (c_read _ _ _ 0 yes 10 10 false); vm_compute; reflexivity|]. apply rtc_refl.
Qed.

Lemma line_read_reached fcfs calm : rtc (step fcfs calm) (boot 1 1) line_read.
Proof.
  transitivity asleep; [apply asleep_reached|].
  apply (rtc_l _ _ typed_line); [apply c_uartintr|].
  { intros _. vm_compute. reflexivity. }
  { unfold typing. repeat constructor; lia. }
  apply rtc_once, (run_read_step _ _ _ _ typed_line yes 10 10). vm_compute. reflexivity.
Qed.

Lemma console_input_cooked_witness :
  exists ready line, holds (the_cons line_read) ready line /\ ([104; 105; 10] ++ ready, line) = ([104; 105; 10], [121]).
Proof.
  pose proof (console_input_cooked false 1 1 line_read (line_read_reached false true)) as (ready & line & H & E).
  exists ready, line. split; [exact H|].
  assert (taken line_read = [104; 105; 10]) as Ht by (vm_compute; reflexivity). rewrite Ht in E. rewrite E. vm_compute. reflexivity.
Defined.

Lemma console_no_lost_wakeup_witness :
  readers asleep = [Reading yes 10 10 true] /\ c_r (the_cons asleep) = c_w (the_cons asleep) /\
  readers (sys_intr NL asleep) = [Reading yes 10 10 false].
Proof.
  split; [reflexivity|]. split; [|vm_compute; reflexivity].
  apply (proj1 (console_no_lost_wakeup false false 1 1 asleep (asleep_reached false false)) 0%nat yes 10 10). reflexivity.
Defined.

Lemma console_wellformed_witness : cons_wf (fst (consoleintr 65 (the_cons typed_line))) = true.
Proof.
  assert (cons_wf (the_cons typed_line) = true) as H by (vm_compute; reflexivity).
  exact (proj1 (proj2 (console_wellformed (the_cons typed_line)) H) 65 eq_refl).
Defined.

Lemma typed_line_holds : holds (the_cons typed_line) ([104; 105] ++ [NL]) [121].
Proof.
  constructor; try (vm_compute; reflexivity).
  - change (c_r (the_cons typed_line)) with 0. lia.
  - cbn. lia.
  - intros k c Hk. do 4 (destruct k as [|k]; [injection Hk as <-; vm_compute; reflexivity|]). done.
Qed.

Lemma console_reads_line_witness :
  exists s', holds s' [] [121] /\ consoleread_run false yes 10 10 (the_cons typed_line) = (RDone 3, [104; 105; 10], s').
Proof.
  apply (proj1 (proj2 (proj2 (console_reads_line yes 10 10 (the_cons typed_line) [104; 105] [NL] [121] typed_line_holds
    ltac:(repeat constructor; discriminate) ltac:(lia) ltac:(lia) ltac:(cbn; lia) ltac:(reflexivity)))) [] eq_refl); [cbn; lia|reflexivity].
Defined.

Definition letters : Z -> Z := fun i => 65 + i.
Definition all_ok : Z -> Z -> bool := fun _ _ => true.

Definition two_sent : sys :=
  {| (boot 1 1) with tx_busy := 1; writers := [WHead 3 letters all_ok 2 2]; tx_log := [Call 0; Put 0 65; Idle; Put 0 66] |}.

Lemma two_sent_reached : rtc (step false false) (boot 1 1) two_sent.
Proof.
  eapply rtc_l; [apply (c_write_start _ _ (boot 1 1) 0 3 letters all_ok 2 0); reflexivity|].
  eapply rtc_l; [eapply (c_write_head _ _ _ 0 3 letters all_ok 2 0); reflexivity|].
  eapply rtc_l; [eapply (c_write _ _ _ 0 3 letters all_ok 2 0 [65; 66] 0); vm_compute; reflexivity|].
  eapply rtc_l; [apply (c_uartintr _ _ _ true []); [done|constructor]|].
  eapply rtc_l; [eapply (c_write _ _ _ 0 3 letters all_ok 2 0 [65; 66] 1); vm_compute; reflexivity|]. apply rtc_refl.
Qed.

Lemma console_writes_in_order_witness : since_call 0 (tx_log two_sent) = letters <$> seqZ 0 2.
Proof.
  apply (proj2 (proj2 (console_writes_in_order false false 1 1 two_sent two_sent_reached)) 0%nat 3 letters all_ok 2 2 2); reflexivity.
Defined.

End ConsoleRun.
