(* ===== verification/Sleeplock.v ===== *)
(** * Sleep locks (xv6-memory-management/kernel: sleeplock.c, and sleep and wakeup of proc.c)

    One sleep lock and the NPROC processes that use it.  A step is what a process
    does between two operations on spin locks; a spin lock is its holder, as the
    files on spin locks justify.  Besides the calls of the lock, a process may be
    asleep on another channel, and be killed, at any time. *)
From S2P Require Import Prelude.

#[local] Open Scope Z_scope.

Module Sleeplock.

Definition NPROC : nat := 64.

(** [locked] and [pid] of struct sleeplock. *)
Record sleeplock := mk_sleeplock { locked : Z; lk_pid : Z }.

Definition initsleeplock : sleeplock := mk_sleeplock 0 0.

Inductive procstate := SLEEPING | RUNNABLE | RUNNING.
Inductive channel := NoChan | TheLock | OtherChan.

#[export] Instance procstate_eq_dec : EqDecision procstate.
Proof. solve_decision. Defined.
#[export] Instance channel_eq_dec : EqDecision channel.
Proof. solve_decision. Defined.

(** Where a process is. *)
Inductive place :=
| Out                    (* it does not hold the sleep lock *)
| In                     (* acquiresleep has returned, releasesleep was not called *)
| AWait                  (* acquiresleep, sleep: acquire(&lk->lk) *)
| ATest                  (* acquiresleep: while (lk->locked), holding lk->lk *)
| SWait                  (* sleep: acquire(&p->lock) *)
| SDrop                  (* sleep: release(lk) *)
| SSched                 (* sleep: p->chan = chan; p->state = SLEEPING; sched() *)
| Parked                 (* sleep: in sched() *)
| STidy                  (* sleep: p->chan = 0; release(&p->lock) *)
| ADone                  (* acquiresleep: release(&lk->lk) *)
| RWait                  (* releasesleep: acquire(&lk->lk) *)
| RFree                  (* releasesleep: lk->locked = 0; lk->pid = 0 *)
| WNext (q : nat)        (* wakeup: the loop at proc[q] *)
| WHas (q : nat)         (* wakeup: holding the lock of proc[q] *)
| HWait (inside : bool)  (* holdingsleep: acquire(&lk->lk), called from In or Out *)
| HTest (inside : bool).

#[export] Instance place_eq_dec : EqDecision place.
Proof. solve_decision. Defined.

Record sys := mk_sys {
  lk : sleeplock;
  lk_lock : option nat;             (* the holder of lk->lk *)
  p_lock : nat -> option nat;       (* the holder of proc[q].lock *)
  state : nat -> procstate;
  chan : nat -> channel;
  place_of : nat -> place
}.

Definition go (p : nat) (x : place) (s : sys) : sys := {| s with place_of := <[p := x]> (place_of s) |}.
Definition hold_lk (h : option nat) (s : sys) : sys := {| s with lk_lock := h |}.
Definition hold_p (q : nat) (h : option nat) (s : sys) : sys := {| s with p_lock := <[q := h]> (p_lock s) |}.
Definition set_state (p : nat) (x : procstate) (s : sys) : sys := {| s with state := <[p := x]> (state s) |}.
Definition set_chan (p : nat) (c : channel) (s : sys) : sys := {| s with chan := <[p := c]> (chan s) |}.

(** acquire of the two kinds of spin lock: [None] while another holds it. *)
Definition get_lk (p : nat) (s : sys) : option sys :=
  match lk_lock s with None => Some (hold_lk (Some p) s) | Some _ => None end.
Definition get_p (p q : nat) (s : sys) : option sys :=
  match p_lock s q with None => Some (hold_p q (Some p) s) | Some _ => None end.

(** The body of wakeup's loop under the lock of [proc[q]]. *)
Definition wake_one (q : nat) (s : sys) : sys :=
  if decide (state s q = SLEEPING /\ chan s q = TheLock) then set_state q RUNNABLE s else s.

Section WithPids.
Context (pid : nat -> Z).

Definition take_lock (p : nat) (s : sys) : sys := {| s with lk := mk_sleeplock 1 (pid p) |}.
Definition free_lock (s : sys) : sys := {| s with lk := mk_sleeplock 0 0 |}.

(** [r] of holdingsleep. *)
Definition holdingsleep (p : nat) (s : sys) : bool :=
  negb (locked (lk s) =? 0) && (lk_pid (lk s) =? pid p).

(** The next step of [p] inside a call; [None] when it waits, or is in no call. *)
Definition next (p : nat) (s : sys) : option sys :=
  match place_of s p with
  | Out | In => None
  | AWait => go p ATest <$> get_lk p s
  | ATest =>
      Some (if negb (locked (lk s) =? 0) then go p SWait s else go p ADone (take_lock p s))
  | SWait => go p SDrop <$> get_p p p s
  | SDrop => Some (go p SSched (hold_lk None s))
  | SSched => Some (go p Parked (hold_p p None (set_state p SLEEPING (set_chan p TheLock s))))
  | Parked => (* the scheduler *)
      if decide (state s p = RUNNABLE) then go p STidy <$> (set_state p RUNNING <$> get_p p p s) else None
  | STidy => Some (go p AWait (hold_p p None (set_chan p NoChan s)))
  | ADone => Some (go p In (hold_lk None s))
  | RWait => go p RFree <$> get_lk p s
  | RFree => Some (go p (WNext 0) (free_lock s))
  | WNext q =>
      if (q <? NPROC)%nat then
        if decide (q = p) then Some (go p (WNext (S q)) s)
        else go p (WHas q) <$> get_p p q s
      else Some (go p Out (hold_lk None s))
  | WHas q => Some (go p (WNext (S q)) (hold_p q None (wake_one q s)))
  | HWait b => go p (HTest b) <$> get_lk p s
  | HTest b => Some (go p (if b then In else Out) (hold_lk None s))
  end.

(** A step of the system: of a process inside a call, a new call, a kill, or what
    a process does outside the calls, sleeping on another channel included. *)
Inductive step : relation sys :=
| sl_next p s s' : (p < NPROC)%nat -> next p s = Some s' -> step s s'
| sl_acquire p s : (p < NPROC)%nat -> place_of s p = Out -> state s p = RUNNING -> step s (go p AWait s)
| sl_release p s : (p < NPROC)%nat -> place_of s p = In -> state s p = RUNNING -> step s (go p RWait s)
| sl_holding p (b : bool) s :
    (p < NPROC)%nat -> place_of s p = (if b then In else Out) -> state s p = RUNNING -> step s (go p (HWait b) s)
| sl_kill p s : p_lock s p = None -> state s p = SLEEPING -> step s (set_state p RUNNABLE s)
| sl_other p (x : procstate) (c : channel) s :
    place_of s p = Out \/ place_of s p = In -> p_lock s p = None -> c <> TheLock ->
    step s (set_state p x (set_chan p c s)).

Definition boot : sys :=
  mk_sys initsleeplock None (fun _ => None) (fun _ => RUNNING) (fun _ => NoChan) (fun _ => Out).

End WithPids.

End Sleeplock.
