(* ===== verification/SleeplockFacts.v ===== *)
(** * Sleep locks: exclusion, no wakeup lost, no deadlock *)
From S2P Require Import Prelude Sleeplock.
Import Sleeplock.

#[local] Open Scope Z_scope.

Module SleeplockFacts.

(** ** What a place in the code holds *)

Definition holds_lk (x : place) : bool :=
  match x with ATest | SWait | SDrop | ADone | RFree | WNext _ | WHas _ | HTest _ => true | _ => false end.

Definition holds_p (x : place) (p q : nat) : bool :=
  match x with
  | SDrop | SSched | STidy => bool_decide (q = p)
  | WHas k => bool_decide (q = k)
  | _ => false
  end.

(** The sleep lock itself. *)
Definition has (x : place) : bool :=
  match x with ADone | In | RWait | RFree => true | HWait b | HTest b => b | _ => false end.

(** In wakeup, with the process [q] still to come. *)
Definition wakes (x : place) (q : nat) : bool :=
  match x with WNext k | WHas k => (k <=? q)%nat | _ => false end.

(** Asleep on the lock, or on the way there. *)
Definition waits_at (x : place) (st : procstate) : bool :=
  match x with
  | SWait | SDrop | SSched => true
  | Parked => bool_decide (st = SLEEPING)
  | _ => false
  end.

Definition waits (s : sys) (q : nat) : bool := waits_at (place_of s q) (state s q).

(** Places where a process may not be running. *)
Definition idle (x : place) : bool := match x with Out | In | Parked => true | _ => false end.
Definition on_chan (x : place) : bool := match x with Parked | STidy => true | _ => false end.

Section Facts.
Context (pid : nat -> Z) (pid_inj : forall p q, pid p = pid q -> p = q).

Record inv (s : sys) : Prop := {
  v_range : forall p, (NPROC <= p)%nat -> place_of s p = Out;
  v_lk : forall p, lk_lock s = Some p <-> holds_lk (place_of s p) = true;
  v_p : forall p q, p_lock s q = Some p <-> holds_p (place_of s p) p q = true;
  v_free : locked (lk s) = 0 -> lk_pid (lk s) = 0 /\ forall p, has (place_of s p) = false;
  v_held : locked (lk s) <> 0 -> exists p, has (place_of s p) = true /\ lk_pid (lk s) = pid p;
  v_one : forall p q, has (place_of s p) = true -> has (place_of s q) = true -> p = q;
  v_wait : forall q, waits s q = true -> locked (lk s) <> 0 \/ exists r, wakes (place_of s r) q = true;
  v_run : forall p, idle (place_of s p) = false -> state s p = RUNNING;
  v_chan : forall p, chan s p = TheLock <-> on_chan (place_of s p) = true;
  v_parked : forall p, place_of s p = Parked -> state s p <> RUNNING
}.

Lemma sl_boot_inv : inv boot.
Proof. constructor; cbn; try done. Qed.

Ltac upd :=
  unfold go, hold_lk, hold_p, set_state, set_chan, take_lock, free_lock, waits in *; cbn in *;
  unfold insert, fn_insert in *; cbn in *; repeat case_decide; subst; cbn in *.

(** ** Moving one process *)

(** [p] goes to [x], which holds and waits for as much as its place did. *)
Lemma go_inv s p x :
  inv s -> (p < NPROC)%nat -> holds_lk x = holds_lk (place_of s p) -> (forall q, holds_p x p q = holds_p (place_of s p) p q) ->
  has x = has (place_of s p) -> on_chan x = on_chan (place_of s p) -> (idle x = false -> state s p = RUNNING) ->
  (match x with SWait => locked (lk s) <> 0 | SDrop | SSched | Parked => False | _ => True end) ->
  (forall q, waits s q = true -> wakes (place_of s p) q = true -> wakes x q = true) ->
  inv (go p x s).
Proof.
  intros [Ir Il Ip If Ih Io Iw Irun Ic Ik] Hp Hlk Hpl Hhas Hch Hrun Hx Hwk. constructor.
  - intros q Hq. upd; [lia|auto].
  - intros q. upd; rewrite ?Hlk; apply Il.
  - intros q k. upd; rewrite ?Hpl; apply Ip.
  - intros H. destruct (If H) as [H1 H2]. split; [done|]. intros q. upd; rewrite ?Hhas; apply H2.
  - intros H. destruct (Ih H) as (q & H1 & H2). exists q. split; [|done]. upd; rewrite ?Hhas; done.
  - intros q k. pose proof (Io q k). upd; rewrite ?Hhas; auto.
  - intros q Hq. assert (waits s q = true \/ locked (lk s) <> 0) as [Hw|]; [|clear Hq|by left].
    { upd; [|by left]. destruct x; try done. by right. }
    destruct (Iw q Hw) as [H|(r & Hr)]; [by left|]. right. exists r. upd; [by apply Hwk|done].
  - intros q. upd; auto.
  - intros q. upd; rewrite ?Hch; apply Ic.
  - intros q Hq. pose proof (Ik q). upd; auto.
Qed.

(** [p] takes or drops the lock of the sleep lock. *)
Lemma lk_inv s p x h :
  inv s -> (p < NPROC)%nat ->
  (h = Some p /\ lk_lock s = None /\ holds_lk x = true \/ h = None /\ holds_lk (place_of s p) = true /\ holds_lk x = false) ->
  (forall q, holds_p x p q = holds_p (place_of s p) p q) -> has x = has (place_of s p) ->
  on_chan x = on_chan (place_of s p) -> (idle x = false -> state s p = RUNNING) ->
  (match x with SWait | SDrop | Parked => False | SSched => waits s p = true | _ => True end) ->
  (forall q, waits s q = true -> wakes (place_of s p) q = false \/ wakes x q = true) ->
  inv (go p x (hold_lk h s)).
Proof.
  intros [Ir Il Ip If Ih Io Iw Irun Ic Ik] Hp Hlk Hpl Hhas Hch Hrun Hx Hwk. constructor.
  - intros q Hq. upd; [lia|auto].
  - intros q. pose proof (Il q). pose proof (Il p). destruct Hlk as [(-> & H1 & H2)|(-> & H1 & H2)]; upd.
    + split; done.
    + rewrite H1 in *. split; [congruence|]. intros Hq. by apply H in Hq.
    + rewrite H2. done.
    + split; [done|]. intros Hq. apply H in Hq. apply H0 in H1. congruence.
  - intros q k. upd; rewrite ?Hpl; apply Ip.
  - intros H. destruct (If H) as [H1 H2]. split; [done|]. intros q. upd; rewrite ?Hhas; apply H2.
  - intros H. destruct (Ih H) as (q & H1 & H2). exists q. split; [|done]. upd; rewrite ?Hhas; done.
  - intros q k. pose proof (Io q k). upd; rewrite ?Hhas; auto.
  - intros q Hq. assert (waits s q = true) as Hw by (upd; [by destruct x|done]). clear Hq.
    destruct (Iw q Hw) as [H|(r & Hr)]; [by left|]. right. exists r. specialize (Hwk q Hw). upd; [|done]. destruct Hwk; congruence.
  - intros q. upd; auto.
  - intros q. upd; rewrite ?Hch; apply Ic.
  - intros q Hq. pose proof (Ik q). upd; auto.
Qed.

(** [p] takes or drops the lock of [proc[k]], and may change its own state and channel. *)
Lemma proc_inv s p x k h st c :
  inv s -> (p < NPROC)%nat ->
  (h = Some p /\ p_lock s k = None /\ (forall q, holds_p x p q = bool_decide (q = k)) /\ (forall q, holds_p (place_of s p) p q = false) \/
   h = None /\ (forall q, holds_p (place_of s p) p q = bool_decide (q = k)) /\ (forall q, holds_p x p q = false)) ->
  holds_lk x = holds_lk (place_of s p) -> has x = has (place_of s p) ->
  (c = TheLock <-> on_chan x = true) -> (idle x = false -> st = RUNNING) -> (x = Parked -> st <> RUNNING) ->
  (waits_at x st = true -> waits s p = true) ->
  (forall q, waits s q = true -> wakes (place_of s p) q = true -> wakes x q = true) ->
  inv (go p x (hold_p k h (set_state p st (set_chan p c s)))).
Proof.
  intros [Ir Il Ip If Ih Io Iw Irun Ic Ik] Hp Hpl Hlk Hhas Hch Hrun Hnr Hx Hwk. constructor.
  - intros q Hq. upd; [lia|auto].
  - intros q. upd; rewrite ?Hlk; apply Il.
  - intros q j. pose proof (Ip q j) as Hq. pose proof (Ip p k) as Hpk.
    destruct Hpl as [(-> & H1 & H2 & H3)|(-> & H1 & H2)]; upd;
      rewrite ?H1, ?H2, ?H3, ?bool_decide_eq_true in *; try done; try naive_solver.
  - intros H. destruct (If H) as [H1 H2]. split; [done|]. intros q. upd; rewrite ?Hhas; apply H2.
  - intros H. destruct (Ih H) as (q & H1 & H2). exists q. split; [|done]. upd; rewrite ?Hhas; done.
  - intros q j. pose proof (Io q j). upd; rewrite ?Hhas; auto.
  - intros q Hq. assert (waits s q = true) as Hw by (upd; auto). clear Hq.
    destruct (Iw q Hw) as [H|(r & Hr)]; [by left|]. right. exists r. specialize (Hwk q Hw). upd; [|done]. auto.
  - intros q. upd; auto.
  - intros q. upd; [done|apply Ic].
  - intros q Hq. pose proof (Ik q). upd; auto.
Qed.

Lemma unlocked_proc s p k : inv s -> holds_p (place_of s p) p k = true -> forall r, holds_p (place_of s r) r k = true -> r = p.
Proof. intros I H r Hr. apply (v_p s I) in H, Hr. congruence. Qed.

Lemma lk_holder s p : inv s -> holds_lk (place_of s p) = true -> forall r, holds_lk (place_of s r) = true -> r = p.
Proof. intros I H r Hr. apply (v_lk s I) in H, Hr. congruence. Qed.

Lemma wakes_lk x q : wakes x q = true -> holds_lk x = true.
Proof. by destruct x. Qed.

(** wakeup passes [k]. *)
Lemma wake_inv s p k : inv s -> (p < NPROC)%nat -> place_of s p = WHas k -> inv (go p (WNext (S k)) (hold_p k None (wake_one k s))).
Proof.
  intros I Hp Hpl. pose proof I as [Ir Il Ip If Ih Io Iw Irun Ic Ik].
  assert (state s p = RUNNING) as Hrunp by (apply Irun; by rewrite Hpl).
  assert (forall q, (q = k /\ state s k = SLEEPING /\ chan s k = TheLock) /\ state (wake_one k s) q = RUNNABLE \/
                    ~ (q = k /\ state s k = SLEEPING /\ chan s k = TheLock) /\ state (wake_one k s) q = state s q) as Hst.
  { clear. intros q. unfold wake_one. destruct (decide (state s k = SLEEPING /\ chan s k = TheLock)) as [[H1 H2]|H]; [|by right; naive_solver].
    destruct (decide (q = k)) as [->|Hne]; [left|right]; cbn; unfold insert, fn_insert;
      [by rewrite decide_True|rewrite decide_False by done; naive_solver]. }
  assert (p_lock (wake_one k s) = p_lock s /\ lk (wake_one k s) = lk s /\ lk_lock (wake_one k s) = lk_lock s /\
          chan (wake_one k s) = chan s /\ place_of (wake_one k s) = place_of s) as (E1 & E2 & E3 & E4 & E5).
  { unfold wake_one. by destruct (decide (_ /\ _)). }
  constructor; unfold go, hold_p, waits; cbn; rewrite ?E1, ?E2, ?E3, ?E4, ?E5; unfold insert, fn_insert.
  - intros q Hq. case_decide; [lia|auto].
  - intros q. case_decide; [subst|apply Il]. rewrite Il, Hpl. done.
  - intros q j. pose proof (Ip q j) as Hq. pose proof (Ip p k) as Hpk. rewrite Hpl in Hpk.
    repeat case_decide; subst; rewrite ?Hpl in *; cbn in *; rewrite ?bool_decide_eq_true in *; naive_solver.
  - intros H. destruct (If H) as [H1 H2]. split; [done|]. intros q. case_decide; [done|apply H2].
  - intros H. destruct (Ih H) as (q & H1 & H2). exists q. split; [|done]. case_decide; [subst; by rewrite Hpl in H1|done].
  - intros q j Hq Hj. repeat case_decide; subst; try done. by apply Io.
  - intros q Hq. case_decide; [done|].
    assert (waits s q = true /\ q <> k) as [Hw Hne].
    { unfold waits. destruct (Hst q) as [[Hd Est]|[Hd Est]]; rewrite Est in Hq.
      { destruct Hd as (-> & Hd1 & Hd2). apply Ic in Hd2. by destruct (place_of s k). }
      split; [done|]. intros ->. destruct (place_of s k) eqn:Ek; try done; cbn in Hq.
      - assert (k = p) by (apply (lk_holder s p I); [by rewrite Hpl|by rewrite Ek]). done.
      - assert (k = p) by (apply (lk_holder s p I); [by rewrite Hpl|by rewrite Ek]). done.
      - assert (k = p) by (apply (unlocked_proc s p k I); [rewrite Hpl; by apply bool_decide_eq_true|rewrite Ek; by apply bool_decide_eq_true]). done.
      - apply Hd. split_and!; [done|by apply bool_decide_eq_true in Hq|]. apply Ic. by rewrite Ek. }
    destruct (Iw q Hw) as [H'|(r & Hr)]; [by left|]. right. exists r.
    assert (r = p) as -> by (apply (lk_holder s p I); [by rewrite Hpl|by eapply wakes_lk]).
    rewrite decide_True by done. rewrite Hpl in Hr. cbn -[Nat.leb] in *. apply Nat.leb_le in Hr. apply Nat.leb_le. lia.
  - intros q Hq. assert (state s q = RUNNING) as Hr by (case_decide; [by subst|by apply Irun]).
    destruct (Hst q) as [[(-> & Hd & _) _]|[_ ->]]; congruence.
  - intros q. case_decide; [subst|apply Ic]. rewrite Ic, Hpl. done.
  - intros q Hq. case_decide; [done|]. destruct (Hst q) as [[_ ->]|[_ ->]]; [done|by apply Ik].
Qed.

(** The lock changes hands under lk->lk. *)
Lemma take_inv s p : inv s -> (p < NPROC)%nat -> place_of s p = ATest -> locked (lk s) = 0 -> inv (go p ADone (take_lock pid p s)).
Proof.
  intros I Hp Hpl H0. pose proof I as [Ir Il Ip If Ih Io Iw Irun Ic Ik]. destruct (If H0) as [_ Hno]. constructor.
  - intros q Hq. upd; [lia|auto].
  - intros q. upd; [|apply Il]. by rewrite Il, Hpl.
  - intros q k. upd; [|apply Ip]. by rewrite Ip, Hpl.
  - done.
  - intros _. exists p. upd; done.
  - intros q k. pose proof (Hno q). pose proof (Hno k). upd; congruence.
  - intros q Hq. by left.
  - intros q. upd; [|auto]. intros _. apply Irun. by rewrite Hpl.
  - intros q. upd; [|apply Ic]. by rewrite Ic, Hpl.
  - intros q Hq. pose proof (Ik q). upd; auto.
Qed.

Lemma free_inv s p : inv s -> (p < NPROC)%nat -> place_of s p = RFree -> inv (go p (WNext 0) (free_lock s)).
Proof.
  intros I Hp Hpl. pose proof I as [Ir Il Ip If Ih Io Iw Irun Ic Ik]. constructor.
  - intros q Hq. upd; [lia|auto].
  - intros q. upd; [|apply Il]. by rewrite Il, Hpl.
  - intros q k. upd; [|apply Ip]. by rewrite Ip, Hpl.
  - intros _. split; [done|]. intros q. upd; [done|]. destruct (has (place_of s q)) eqn:E; [|done].
    destruct H. apply Io; [by rewrite Hpl|done].
  - done.
  - intros q k. upd; try done. apply Io.
  - intros q Hq. right. exists p. upd; done.
  - intros q. upd; [|auto]. intros _. apply Irun. by rewrite Hpl.
  - intros q. upd; [|apply Ic]. by rewrite Ic, Hpl.
  - intros q Hq. pose proof (Ik q). upd; auto.
Qed.

(** A change of the state or channel of a process that is not in a call, or asleep. *)
Lemma other_inv s p st c :
  inv s -> idle (place_of s p) = true -> (c = TheLock <-> chan s p = TheLock) ->
  (waits_at (place_of s p) st = true -> waits s p = true) -> (place_of s p = Parked -> st <> RUNNING) ->
  inv (set_state p st (set_chan p c s)).
Proof.
  intros [Ir Il Ip If Ih Io Iw Irun Ic Ik] Hid Hc Hw Hk. constructor; try done.
  - intros q Hq. apply Iw. upd; auto.
  - intros q Hq. pose proof (Irun q Hq). upd; congruence.
  - intros q. pose proof (Ic q). upd; tauto.
  - intros q Hq. pose proof (Ik q). upd; auto.
Qed.

Lemma inv_ext s s' :
  inv s -> lk s' = lk s -> lk_lock s' = lk_lock s -> (forall q, p_lock s' q = p_lock s q) -> (forall q, state s' q = state s q) ->
  (forall q, chan s' q = chan s q) -> (forall q, place_of s' q = place_of s q) -> inv s'.
Proof.
  intros [Ir Il Ip If Ih Io Iw Irun Ic Ik] E1 E2 E3 E4 E5 E6.
  constructor; unfold waits in *; rewrite ?E1, ?E2; setoid_rewrite E6; auto.
  all: intros; rewrite ?E3, ?E4, ?E5 in *; auto.
Qed.

(** [next] at the places that change the locks of processes: [proc_inv] up to fields
    set to what they were. *)
Ltac by_proc x k h st c :=
  match goal with
  | I : inv ?s |- inv (go ?p _ _) =>
      apply (inv_ext (go p x (hold_p k h (set_state p st (set_chan p c s)))));
      [apply (proc_inv s p x k h st c I) | try done; intros ?; upd; done ..]
  end.

Lemma next_inv s p s' : inv s -> (p < NPROC)%nat -> next pid p s = Some s' -> inv s'.
Proof.
  intros I Hp. pose proof (v_run s I p) as Hr. pose proof (v_chan s I p) as Hc.
  unfold next, get_lk, get_p. destruct (place_of s p) eqn:E; try done; cbn [idle on_chan] in Hr, Hc.
  - destruct (lk_lock s) eqn:El; [done|]. intros [= <-]. apply lk_inv; rewrite ?E; auto.
  - intros [= <-]. destruct (Z.eqb_spec (locked (lk s)) 0) as [H0|H0]; cbn [negb]; [by apply take_inv|].
    apply go_inv; rewrite ?E; auto.
  - destruct (p_lock s p) eqn:El; [done|]. intros [= <-]. by_proc SDrop p (Some p) (state s p) (chan s p); unfold waits; rewrite ?E; auto; try done.
  - intros [= <-]. apply lk_inv; unfold waits; rewrite ?E; auto.
  - intros [= <-]. by_proc Parked p (@None nat) SLEEPING TheLock; unfold waits; rewrite ?E; auto; try done.
  - case_decide as Hst; [|done]. destruct (p_lock s p) eqn:El; [done|]. intros [= <-].
    by_proc STidy p (Some p) RUNNING (chan s p); unfold waits; rewrite ?E; auto; try done.
  - intros [= <-]. by_proc AWait p (@None nat) (state s p) NoChan; unfold waits; rewrite ?E; auto; try done.
  - intros [= <-]. apply lk_inv; rewrite ?E; auto; try done.
  - destruct (lk_lock s) eqn:El; [done|]. intros [= <-]. apply lk_inv; rewrite ?E; auto.
  - intros [= <-]. by apply free_inv.
  - destruct (Nat.ltb_spec q NPROC) as [Hq|Hq].
    + case_decide as Hqp.
      * intros [= <-]. subst q. apply go_inv; rewrite ?E; auto. intros q Hw Hk. cbn -[Nat.leb] in *.
        apply Nat.leb_le in Hk. apply Nat.leb_le. assert (q <> p); [|lia]. intros ->. unfold waits in Hw. by rewrite E in Hw.
      * destruct (p_lock s q) eqn:El; [done|]. intros [= <-].
        by_proc (WHas q) q (Some p) (state s p) (chan s p); unfold waits; rewrite ?E; auto; try done.
    + intros [= <-]. apply lk_inv; rewrite ?E; auto.
      intros k Hw. left. cbn -[Nat.leb]. apply Nat.leb_gt. destruct (decide (k < NPROC)%nat); [lia|].
      unfold waits in Hw. rewrite (v_range s I k) in Hw by lia. done.
  - intros [= <-]. by apply wake_inv.
  - destruct (lk_lock s) eqn:El; [done|]. intros [= <-]. apply lk_inv; rewrite ?E; auto.
  - intros [= <-]. apply lk_inv; rewrite ?E; destruct inside; auto; done.
Qed.

Lemma sl_step_inv s s' : inv s -> step pid s s' -> inv s'.
Proof.
  intros I Hs. destruct Hs as [p s s' Hp Hn|p s Hp Hpl Hst|p s Hp Hpl Hst|p b s Hp Hpl Hst|p s Hl Hst|p x c s Hpl Hl Hc].
  - by eapply next_inv.
  - apply go_inv; rewrite ?Hpl; auto.
  - apply go_inv; rewrite ?Hpl; auto.
  - apply go_inv; rewrite ?Hpl; destruct b; auto.
  - apply (inv_ext (set_state p RUNNABLE (set_chan p (chan s p) s))); try done; [|intros q; by upd].
    apply other_inv; [done| |done| |done].
    + destruct (idle (place_of s p)) eqn:E; [done|]. by rewrite (v_run s I p E) in Hst.
    + unfold waits. rewrite Hst. by destruct (place_of s p).
  - apply other_inv; [done|by destruct Hpl as [-> | ->]| |by destruct Hpl as [-> | ->]|by destruct Hpl as [-> | ->]].
    pose proof (v_chan s I p). destruct Hpl as [Hpl|Hpl]; rewrite Hpl in H; naive_solver.
Qed.

Lemma sl_runs_inv s : rtc (step pid) boot s -> inv s.
Proof. intros H. eapply rtc_invariant; [|exact H|apply sl_boot_inv]. intros ? ? Hi Hs. by eapply sl_step_inv. Qed.

(** (C18) Sleep locks exclude each other: in every interleaving, kills and sleeps on
    other channels included, at most one process is between the end of its
    acquiresleep and the store of its releasesleep that frees the lock, the lock is
    then marked with that process's pid, and holdingsleep answers yes exactly to it. *)
Theorem sleeplock_exclusion s :
  rtc (step pid) boot s ->
  (forall p q, place_of s p = In -> has (place_of s q) = true -> p = q) /\
  (forall p, place_of s p = In -> locked (lk s) <> 0 /\ lk_pid (lk s) = pid p) /\
  (forall p b, place_of s p = HTest b -> holdingsleep pid p s = b).
Proof.
  intros H. pose proof (sl_runs_inv s H) as I.
  assert (forall p, has (place_of s p) = true -> locked (lk s) <> 0 /\ lk_pid (lk s) = pid p) as Hh.
  { intros p Hp. destruct (decide (locked (lk s) = 0)) as [E|E]; [by rewrite (proj2 (v_free s I E) p) in Hp|].
    destruct (v_held s I E) as (q & Hq & Hpid). by rewrite (v_one s I p q Hp Hq). }
  split_and!.
  - intros p q Hp Hq. apply (v_one s I); [by rewrite Hp|done].
  - intros p Hp. apply Hh. by rewrite Hp.
  - intros p b Hp. unfold holdingsleep. destruct b.
    + destruct (Hh p) as [H1 H2]; [by rewrite Hp|]. by rewrite (proj2 (Z.eqb_neq _ _) H1), H2, Z.eqb_refl.
    + destruct (Z.eqb_spec (locked (lk s)) 0) as [E|E]; [done|]. destruct (v_held s I E) as (q & Hq & ->). cbn.
      apply Z.eqb_neq. intros Epid%pid_inj. subst q. by rewrite Hp in Hq.
Qed.

(** (C19) No wakeup of a sleep lock is lost, and no process that uses it is stuck: a
    process asleep on the lock, or past the test that sends it to sleep, has the lock
    held by another or the loop of a releaser's wakeup still to reach it; and while
    any process is inside a call, some process inside a call can take its next step
    or the lock is held by a process that is in no call. *)
Theorem sleeplock_no_lost_wakeup s :
  rtc (step pid) boot s ->
  (forall q, place_of s q = Parked /\ state s q = SLEEPING \/ place_of s q = SSched ->
     (exists p, p <> q /\ has (place_of s p) = true) \/ (exists r, r <> q /\ wakes (place_of s r) q = true)) /\
  (forall p, place_of s p <> Out -> place_of s p <> In ->
     (exists q, (q < NPROC)%nat /\ is_Some (next pid q s)) \/ (exists h, place_of s h = In)).
Proof.
  intros H. pose proof (sl_runs_inv s H) as I. split.
  - intros q Hq. assert (waits s q = true) as Hw.
    { unfold waits. destruct Hq as [[-> ->] | ->]; done. }
    assert (has (place_of s q) = false /\ forall k, wakes (place_of s q) k = false) as [Hnh Hnw] by (by destruct Hq as [[-> _] | ->]).
    destruct (v_wait s I q Hw) as [Hl|(r & Hr)].
    + left. destruct (v_held s I Hl) as (p & Hp & _). exists p. split; [|done]. intros ->. congruence.
    + right. exists r. split; [|done]. intros ->. by rewrite Hnw in Hr.
  - intros p Hout Hin.
    assert (forall q, place_of s q <> Out -> (q < NPROC)%nat) as Hrange.
    { intros q Hq. destruct (decide (q < NPROC)%nat) as [|Hge]; [done|]. destruct Hq. apply (v_range s I). lia. }
    assert (forall q, is_Some (next pid q s) -> (exists q, (q < NPROC)%nat /\ is_Some (next pid q s)) \/ (exists h, place_of s h = In)) as Hgo.
    { intros q Hq. left. exists q. split; [|done]. apply Hrange. intros E. unfold next in Hq. rewrite E in Hq. by destruct Hq. }
    (* a holder of a process's lock can go on *)
    destruct (decide (Exists (fun q => is_Some (p_lock s q)) (seq 0 NPROC))) as [Hbusy|Hfree].
    { apply Exists_exists in Hbusy as (q & _ & r & Hqr). apply (v_p s I) in Hqr. apply (Hgo r). unfold next.
      destruct (place_of s r); try done; eexists; reflexivity. }
    assert (forall q, (q < NPROC)%nat -> p_lock s q = None) as Hnone.
    { intros q Hq. destruct (p_lock s q) as [r|] eqn:Eq; [|done]. destruct Hfree. apply Exists_exists. exists q.
      split; [apply elem_of_seq; lia|by eexists]. }
    clear Hfree. rename Hnone into Hfree.
    assert (forall q, holds_lk (place_of s q) = true -> is_Some (next pid q s)) as Hlk.
    { intros q Hq. unfold next, get_p. destruct (place_of s q) eqn:E; try done; try (eexists; reflexivity).
      - rewrite (Hfree q); [by eexists|]. apply Hrange. by rewrite E.
      - destruct (Nat.ltb_spec q0 NPROC) as [Hlt|]; [|by eexists]. case_decide; [by eexists|]. rewrite (Hfree q0) by done. by eexists. }
    destruct (lk_lock s) as [h|] eqn:El; [apply (Hgo h), Hlk; by apply (v_lk s I)|].
    assert (forall q, get_lk q s = Some (hold_lk (Some q) s)) as Hget by (intros q; unfold get_lk; by rewrite El).
    destruct (place_of s p) eqn:E; try done; try (apply (Hgo p); unfold next; rewrite E, ?Hget; by eexists);
      try (apply (Hgo p), Hlk; by rewrite E).
    destruct (state s p) eqn:Est.
    + (* asleep: the lock is held *)
      destruct (v_wait s I p) as [Hl|(r & Hr)]; [unfold waits; by rewrite E, Est| |].
      2: { apply wakes_lk in Hr. apply (v_lk s I) in Hr. congruence. }
      destruct (v_held s I Hl) as (h & Hh & _). destruct (place_of s h) eqn:Eh; try done; [by right; exists h|..].
      all: apply (Hgo h); unfold next; rewrite Eh, ?Hget; by eexists.
    + apply (Hgo p). unfold next. rewrite E, Est. unfold get_p. rewrite (Hfree p); [by eexists|]. apply Hrange. by rewrite E.
    + by destruct (v_parked s I p E).
Qed.

End Facts.

(** ** Two processes

    Process 0 holds the lock and process 1 goes to sleep on it; then process 0
    releases it, up to the start of wakeup's loop. *)
Definition demo_pid (p : nat) : Z := Z.of_nat p + 1.

(** The processes of the list take their next steps. *)
Fixpoint advance (ps : list nat) (s : sys) : sys :=
  match ps with [] => s | p :: ps => advance ps (default s (next demo_pid p s)) end.

Lemma advance_reached ps s s' :
  rtc (step demo_pid) s s' -> Forall (fun p => (p < NPROC)%nat) ps -> rtc (step demo_pid) s (advance ps s').
Proof.
  intros H Hps. revert s' H. induction Hps as [|p ps Hp Hps IH]; intros s' H; [done|]. cbn [advance]. apply IH.
  destruct (next demo_pid p s') as [t|] eqn:E; [|done]. eapply rtc_r; [exact H|by eapply sl_next].
Qed.

Definition taken : sys := advance [0; 0; 0]%nat (go 0 AWait boot).
Definition contended : sys := advance [1; 1; 1; 1; 1]%nat (go 1 AWait taken).
Definition released : sys := advance [0; 0]%nat (go 0 RWait contended).

Lemma sl_contended_reached : rtc (step demo_pid) boot contended.
Proof.
  unfold contended, taken. apply advance_reached; [|unfold NPROC; repeat constructor; lia].
  eapply rtc_r; [apply advance_reached; [apply rtc_once, sl_acquire|]|apply sl_acquire];
    try done; unfold NPROC; repeat constructor; lia.
Qed.

Lemma released_reached : rtc (step demo_pid) boot released.
Proof.
  unfold released. apply advance_reached; [|unfold NPROC; repeat constructor; lia].
  eapply rtc_r; [apply sl_contended_reached|]. apply sl_release; [unfold NPROC; lia|vm_compute; reflexivity..].
Qed.

Lemma demo_pid_inj p q : demo_pid p = demo_pid q -> p = q.
Proof. unfold demo_pid. lia. Qed.

Lemma sleeplock_exclusion_witness :
  place_of contended 0%nat = In /\ lk_pid (lk contended) = 1 /\ has (place_of contended 1%nat) = false.
Proof.
  assert (place_of contended 0%nat = In) as H0 by (vm_compute; reflexivity).
  destruct (sleeplock_exclusion demo_pid demo_pid_inj contended sl_contended_reached) as (H1 & H2 & _).
  split; [exact H0|]. split; [exact (proj2 (H2 0%nat H0))|]. vm_compute. reflexivity.
Defined.

Lemma sleeplock_no_lost_wakeup_witness :
  place_of released 1%nat = Parked /\ state released 1%nat = SLEEPING /\ locked (lk released) = 0 /\
  ((exists p, p <> 1%nat /\ has (place_of released p) = true) \/ (exists r, r <> 1%nat /\ wakes (place_of released r) 1 = true)).
Proof.
  assert (place_of released 1%nat = Parked /\ state released 1%nat = SLEEPING) as [H1 H2] by (split; vm_compute; reflexivity).
  split; [exact H1|]. split; [exact H2|]. split; [vm_compute; reflexivity|].
  exact (proj1 (sleeplock_no_lost_wakeup demo_pid released released_reached) 1%nat (or_introl (conj H1 H2))).
Defined.

End SleeplockFacts.
