(* ===== verification/Virtio.v ===== *)
(** * The disk driver (xv6-memory-management/kernel: virtio_disk.c, virtio.h)

    The descriptors, the two rings and the book-keeping of [disk], and the calls of
    virtio_disk_rw that share them with the interrupt handler and the device.  A call
    holds vdisk_lock from its start, or from its return from [sleep], to its next
    [sleep] or its return; one such run is one function here.  What the device does
    to the medium and to a request's data is a parameter, [serve]; it finds requests
    by following the descriptors, as the virtio specification has it.  An array of
    NUM entries is a function of the index, except [free], which is scanned. *)
From S2P Require Import Prelude.

#[local] Open Scope Z_scope.

Module Virtio.

Definition NUM : nat := 8.
Definition BSIZE : Z := 1024.
Definition VRING_DESC_F_NEXT : Z := 1.
Definition VRING_DESC_F_WRITE : Z := 2.
Definition VIRTIO_BLK_T_IN : Z := 0.
Definition VIRTIO_BLK_T_OUT : Z := 1.
Definition SIZEOF_BLK_REQ : Z := 16.

(** The addresses the driver puts in descriptors: [&disk.ops[i]], [b->data] and
    [&disk.info[i].status]. *)
Inductive dma := Null | Op (i : nat) | Data (b : nat) | Status (i : nat).

#[export] Instance dma_eq_dec : EqDecision dma.
Proof. solve_decision. Defined.

Record virtq_desc := mk_desc { addr : dma; len : Z; flags : Z; next : nat }.
Record virtio_blk_req := mk_req { type : Z; reserved : Z; sector : Z }.
Record info_t := mk_info { i_b : option nat; i_status : Z }.

Record disk := mk_disk {
  desc : nat -> virtq_desc;
  avail_idx : Z; avail_ring : nat -> nat;     (* disk.avail *)
  used_idx' : Z; used_ring : nat -> nat;      (* disk.used: idx and the ids *)
  free : list bool;
  used_idx : Z;
  info : nat -> info_t;
  ops : nat -> virtio_blk_req
}.

Definition slot (i : Z) : nat := Z.to_nat (i mod 8).

(** ** Descriptors *)

Definition alloc_desc (d : disk) : option nat * disk :=
  match find_idx (fun f => f) (free d) with
  | Some i => (Some i, {| d with free := <[i := false]> (free d) |})
  | None => (None, d)
  end.

Definition free_desc (i : nat) (d : disk) : outcome disk :=
  if (NUM <=? i)%nat then Panic "free_desc 1"
  else if default false (free d !! i) then Panic "free_desc 2"
  else Ret {| d with desc := <[i := mk_desc Null 0 0 0]> (desc d); free := <[i := true]> (free d) |}.

Fixpoint free_chain (fuel : nat) (i : nat) (d : disk) : outcome disk :=
  match fuel with
  | O => Undef "free_chain"
  | S fuel =>
      let flag := flags (desc d i) in
      let nxt := next (desc d i) in
      d ← free_desc i d;
      if negb (Z.land flag VRING_DESC_F_NEXT =? 0) then free_chain fuel nxt d else Ret d
  end.

Fixpoint free_all (idx : list nat) (d : disk) : outcome disk :=
  match idx with [] => Ret d | i :: idx => d ← free_desc i d; free_all idx d end.

(** The loop of alloc3_desc with [got] allocated and [k] to go; [None]: -1, and
    whether free_desc, and so a wakeup, was called. *)
Fixpoint alloc_loop (k : nat) (got : list nat) (d : disk) : outcome (option (list nat) * bool * disk) :=
  match k with
  | O => Ret (Some got, false, d)
  | S k =>
      match alloc_desc d with
      | (Some i, d) => alloc_loop k (got ++ [i]) d
      | (None, d) => d ← free_all got d; Ret (None, negb (bool_decide (got = [])), d)
      end
  end.

Definition alloc3_desc (d : disk) : outcome (option (list nat) * bool * disk) := alloc_loop 3 [] d.

(** ** virtio_disk_rw *)

Record buf := mk_buf { b_disk : Z; blockno : Z; data : list Z }.

Definition rw_sector (b : buf) : Z := wrapu 32 (blockno b * (BSIZE / 512)).

(** The three descriptors of a request, its header and its entry in [info]. *)
Definition format (i0 i1 i2 : nat) (b : nat) (sector : Z) (write : bool) (d : disk) : disk :=
  let op := mk_req (if write then VIRTIO_BLK_T_OUT else VIRTIO_BLK_T_IN) 0 sector in
  let d := {| d with ops := <[i0 := op]> (ops d) |} in
  let d := {| d with desc := <[i0 := mk_desc (Op i0) SIZEOF_BLK_REQ VRING_DESC_F_NEXT i1]> (desc d) |} in
  let fl := if write then 0 else VRING_DESC_F_WRITE in
  let d := {| d with desc := <[i1 := mk_desc (Data b) BSIZE (Z.lor fl VRING_DESC_F_NEXT) i2]> (desc d) |} in
  let d := {| d with desc := <[i2 := mk_desc (Status i0) 1 VRING_DESC_F_WRITE 0]> (desc d) |} in
  {| d with info := <[i0 := mk_info (Some b) 255]> (info d) |}.

(** The request becomes visible to the device. *)
Definition publish (i0 : nat) (d : disk) : disk :=
  let d := {| d with avail_ring := <[slot (avail_idx d) := i0]> (avail_ring d) |} in
  {| d with avail_idx := wrapu 16 (avail_idx d + 1) |}.

(** ** The interrupt handler

    The buffers completed, in order; [fuel]: the entries of the used ring. *)
Fixpoint intr_loop (fuel : nat) (d : disk) : outcome (list nat * disk) :=
  if used_idx d =? used_idx' d then Ret ([], d)
  else
    match fuel with
    | O => Undef "virtio_disk_intr"
    | S fuel =>
        let id := used_ring d (slot (used_idx d)) in
        if negb (i_status (info d id) =? 0) then Panic "virtio_disk_intr status"
        else
          match i_b (info d id) with
          | None => Undef "b"
          | Some b =>
              '(bs, d) ← intr_loop fuel {| d with used_idx := wrapu 16 (used_idx d + 1) |};
              Ret (b :: bs, d)
          end
    end.

Definition virtio_disk_intr (d : disk) : outcome (list nat * disk) :=
  intr_loop (Z.to_nat (wrapu 16 (used_idx' d - used_idx d))) d.

(** ** Calls, interrupts and the device *)

Inductive place :=
| Idle
| GetDesc (b : nat) (write : bool) (asleep : bool)                    (* while(1): alloc3_desc *)
| Wait (b : nat) (write : bool) (idx : list nat) (asleep : bool).     (* while(b->disk == 1) *)

(** A request as the device sees it: type, sector, buffer, bytes, and where the
    status goes. *)
Record request := mk_request { r_type : Z; r_sector : Z; r_buf : nat; r_len : Z; r_status : nat }.

Definition is_next (x : virtq_desc) : bool := negb (Z.land (flags x) VRING_DESC_F_NEXT =? 0).

Definition fetch (h : nat) (d : disk) : option request :=
  let d0 := desc d h in
  let d1 := desc d (next d0) in
  let d2 := desc d (next d1) in
  match addr d0, addr d1, addr d2 with
  | Op i, Data b, Status j =>
      if is_next d0 && is_next d1 && negb (is_next d2)
      then Some (mk_request (type (ops d i)) (sector (ops d i)) b (len d1) j) else None
  | _, _, _ => None
  end.

Section Device.
Context {M : Type}.
Context (serve : Z -> Z -> Z -> list Z -> M -> M * list Z * Z).

(** A request served: its type and sector, the data before and after, and the status
    the device reports, 0 for success. *)
Record job := mk_job { j_type : Z; j_sector : Z; j_before : list Z; j_after : list Z; j_status : Z }.

Record sys := mk_sys {
  dk : disk;
  bufs : nat -> buf;
  procs : nat -> place;
  medium : M;
  seen : Z;                   (* the device: how far it has read the avail ring *)
  pending : list nat;         (* the heads it has read and not completed *)
  jobs : nat -> list job      (* the requests served for a buffer's current call *)
}.

Definition wake_free (x : place) : place := match x with GetDesc b w _ => GetDesc b w false | _ => x end.
Definition wake_buf (bs : list nat) (x : place) : place :=
  match x with Wait b w idx a => Wait b w idx (a && negb (bool_decide (b ∈ bs))) | _ => x end.

Definition set_proc (p : nat) (x : place) (s : sys) : sys := {| s with procs := <[p := x]> (procs s) |}.
Definition wake_if (c : bool) (s : sys) : sys :=
  if c then {| s with procs := fun q => wake_free (procs s q) |} else s.

(** A run of the allocation loop; on success it ends asleep in the last loop, which
    finds [b->disk] 1. *)
Definition rw_start (p b : nat) (write : bool) (s : sys) : outcome sys :=
  '(r, woke, d) ← alloc3_desc (dk s);
  match r with
  | None => Ret (set_proc p (GetDesc b write true) (wake_if woke {| s with dk := d |}))
  | Some idx =>
      match idx with
      | [i0; i1; i2] =>
          let d := publish i0 (format i0 i1 i2 b (rw_sector (bufs s b)) write d) in
          let x := bufs s b in
          Ret (set_proc p (Wait b write idx true)
                 {| s with dk := d; bufs := <[b := {| x with b_disk := 1 |}]> (bufs s);
                           jobs := <[b := []]> (jobs s) |})
      | _ => Undef "idx"
      end
  end.

(** A run of the last loop, and what follows it. *)
Definition rw_end (p b : nat) (write : bool) (idx : list nat) (s : sys) : outcome sys :=
  if b_disk (bufs s b) =? 1 then Ret (set_proc p (Wait b write idx true) s)
  else
    let i0 := default 0%nat (idx !! 0%nat) in
    let d := dk s in
    let d := {| d with info := <[i0 := mk_info None (i_status (info d i0))]> (info d) |} in
    d ← free_chain NUM i0 d;
    Ret (set_proc p Idle (wake_if true {| s with dk := d |})).

(** The handler's [b->disk = 0; wakeup(b)] for each buffer. *)
Definition complete (bs : list nat) (s : sys) : sys :=
  {| s with bufs := fun b => let x := bufs s b in if decide (b ∈ bs) then {| x with b_disk := 0 |} else x;
            procs := fun q => wake_buf bs (procs s q) |}.

Definition sys_intr (s : sys) : outcome sys :=
  '(bs, d) ← virtio_disk_intr (dk s); Ret (complete bs {| s with dk := d |}).

(** The device reads the next entry of the avail ring; it serves a request it has
    read, in any order, and puts it in the used ring. *)
Definition dev_read (s : sys) : sys :=
  {| s with pending := pending s ++ [avail_ring (dk s) (slot (seen s))]; seen := wrapu 16 (seen s + 1) |}.

Definition dev_serve (h : nat) (s : sys) : option sys :=
  let d := dk s in
  r ← fetch h d;
  let x := bufs s (r_buf r) in
  let '(m, after, status) := serve (r_type r) (r_sector r) (r_len r) (data x) (medium s) in
  let after := if r_type r =? VIRTIO_BLK_T_IN then after else data x in
  let st := info d (r_status r) in
  Some {| s with
    dk := {| d with info := <[r_status r := {| st with i_status := status |}]> (info d);
                    used_ring := <[slot (used_idx' d) := h]> (used_ring d);
                    used_idx' := wrapu 16 (used_idx' d + 1) |};
    bufs := <[r_buf r := {| x with data := after |}]> (bufs s);
    medium := m;
    pending := filter (fun k => k <> h) (pending s);
    jobs := <[r_buf r := jobs s (r_buf r) ++ [mk_job (r_type r) (r_sector r) (data x) after status]]> (jobs s) |}.

Definition uses (x : place) : option nat :=
  match x with Idle => None | GetDesc b _ _ | Wait b _ _ _ => Some b end.

(** The callers hold the buffer's sleep lock, so one call at a time has it, and it is
    changed outside the calls only. *)
Inductive step : relation sys :=
| d_call p b write s :
    procs s p = Idle -> (forall q, uses (procs s q) <> Some b) -> step s (set_proc p (GetDesc b write false) s)
| d_start p b write s s' :
    procs s p = GetDesc b write false -> rw_start p b write s = Ret s' -> step s s'
| d_end p b write idx s s' :
    procs s p = Wait b write idx false -> rw_end p b write idx s = Ret s' -> step s s'
| d_intr s s' : sys_intr s = Ret s' -> step s s'
| d_read s : seen s <> avail_idx (dk s) -> step s (dev_read s)
| d_serve h s s' : h ∈ pending s -> dev_serve h s = Some s' -> step s s'
| d_kill p s : step s (set_proc p (match procs s p with GetDesc b w _ => GetDesc b w false | Wait b w i _ => Wait b w i false | Idle => Idle end) s)
| d_use b x s : (forall q, uses (procs s q) <> Some b) -> b_disk x = b_disk (bufs s b) ->
    step s {| s with bufs := <[b := x]> (bufs s) |}.

End Device.

(** ** virtio_disk_init

    What the device's registers read as; [r_status2] is the second read of STATUS. *)
Record regs := mk_regs {
  r_magic : Z; r_version : Z; r_device_id : Z; r_vendor_id : Z;
  r_features : Z; r_status2 : Z; r_queue_ready : Z; r_queue_max : Z
}.

(** [~(1 << k)] on the features. *)
Definition clear_bit (f k : Z) : Z := Z.ldiff f (Z.shiftl 1 k).

Definition driver_features (f : Z) : Z :=
  foldl clear_bit f [5; 7; 11; 12; 27; 29; 28].

Definition DRIVER_OK : Z := 4.
Definition FEATURES_OK : Z := 8.

(** The stores to the registers, by offset and in order; [pages] is what the three
    calls of kalloc return. *)
Definition virtio_disk_init (r : regs) (pages : Z * Z * Z) : outcome (list (Z * Z)) :=
  let '(pd, pa, pu) := pages in
  if negb (r_magic r =? 0x74726976) || negb (r_version r =? 2) || negb (r_device_id r =? 2) ||
     negb (r_vendor_id r =? 0x554d4551) then Panic "could not find virtio disk"
  else if Z.land (r_status2 r) FEATURES_OK =? 0 then Panic "virtio disk FEATURES_OK unset"
  else if negb (r_queue_ready r =? 0) then Panic "virtio disk should not be ready"
  else if r_queue_max r =? 0 then Panic "virtio disk has no queue 0"
  else if r_queue_max r <? Z.of_nat NUM then Panic "virtio disk max queue too short"
  else if (pd =? 0) || (pa =? 0) || (pu =? 0) then Panic "virtio disk kalloc"
  else
    let lo a := wrapu 32 a in
    let hi a := wrapu 32 (Z.shiftr a 32) in
    Ret [(0x70, 0); (0x70, 1); (0x70, 3); (0x20, wrapu 32 (driver_features (r_features r))); (0x70, 11);
         (0x30, 0); (0x38, Z.of_nat NUM); (0x80, lo pd); (0x84, hi pd); (0x90, lo pa); (0x94, hi pa);
         (0xa0, lo pu); (0xa4, hi pu); (0x44, 1); (0x70, Z.lor (r_status2 r) DRIVER_OK)].

(** The queue at the end of virtio_disk_init. *)
Definition disk_boot : disk :=
  mk_disk (fun _ => mk_desc Null 0 0 0) 0 (fun _ => 0%nat) 0 (fun _ => 0%nat) (replicate NUM true) 0
    (fun _ => mk_info None 0) (fun _ => mk_req 0 0 0).

Definition boot {M} (m : M) (blocks : nat -> buf) : sys :=
  mk_sys disk_boot blocks (fun _ => Idle) m 0 [] (fun _ => []).

End Virtio.
