(* ===== verification/VirtioFacts.v ===== *)
(** * The disk driver: descriptors, rings and the interrupt handler, one call at a time *)
From S2P Require Import Prelude Virtio.
Import Virtio.

#[local] Open Scope Z_scope.

Module VirtioFacts.

(** ** Descriptors *)

(** [d'] differs from [d] in [desc] and [free] only. *)
Record same_rest (d d' : disk) : Prop := {
  sr_avail : avail_idx d' = avail_idx d; sr_avail_ring : avail_ring d' = avail_ring d;
  sr_used' : used_idx' d' = used_idx' d; sr_used_ring : used_ring d' = used_ring d;
  sr_used : used_idx d' = used_idx d; sr_info : info d' = info d; sr_ops : ops d' = ops d;
  sr_len : length (free d') = length (free d)
}.

Lemma same_rest_trans d d' d'' : same_rest d d' -> same_rest d' d'' -> same_rest d d''.
Proof. intros [] []. constructor; congruence. Qed.

Lemma free_desc_ok i d :
  length (free d) = NUM -> free d !! i = Some false ->
  exists d', free_desc i d = Ret d' /\ same_rest d d' /\ free d' = <[i := true]> (free d) /\
    (forall j, j <> i -> desc d' j = desc d j).
Proof.
  intros Hlen Hi. unfold free_desc. apply lookup_lt_Some in Hi as Hlt. rewrite Hlen in Hlt.
  rewrite (proj2 (Nat.leb_gt _ _)) by done. rewrite Hi. cbn. eexists. split; [reflexivity|].
  split; [constructor; cbn; auto; by rewrite length_insert|]. split; [done|]. intros j Hj. cbn. by rewrite fn_lookup_insert_ne.
Qed.

Lemma free_all_ok idx : forall d,
  length (free d) = NUM -> NoDup idx -> (forall i, i ∈ idx -> free d !! i = Some false) ->
  exists d', free_all idx d = Ret d' /\ same_rest d d' /\
    (forall j, free d' !! j = if decide (j ∈ idx) then Some true else free d !! j) /\
    (forall j, j ∉ idx -> desc d' j = desc d j).
Proof.
  induction idx as [|i idx IH]; intros d Hlen Hnd Hf.
  - exists d. split_and!; [done|by constructor|intros j; by rewrite decide_False by set_solver|done].
  - apply NoDup_cons in Hnd as [Hni Hnd]. destruct (free_desc_ok i d Hlen (Hf i ltac:(left))) as (d1 & E1 & R1 & F1 & D1).
    destruct (IH d1) as (d2 & E2 & R2 & F2 & D2).
    { by rewrite (sr_len _ _ R1). }
    { done. }
    { intros j Hj. rewrite F1, list_lookup_insert_ne by (intros ->; done). apply Hf. by right. }
    exists d2. cbn [free_all]. rewrite E1. cbn. split_and!; [done|by eapply same_rest_trans| |].
    + intros j. rewrite F2, F1. destruct (decide (j = i)) as [->|Hne].
      * rewrite decide_False, decide_True by set_solver. apply list_lookup_insert_eq. eapply lookup_lt_Some, Hf. left.
      * rewrite list_lookup_insert_ne by done. destruct (decide (j ∈ idx)); [by rewrite decide_True by set_solver|].
        by rewrite decide_False by set_solver.
    + intros j Hj. rewrite D2, D1 by set_solver. done.
Qed.

(** The free descriptors. *)
Definition free_count (d : disk) : nat := countb (fun f => f) (free d).

Lemma alloc_desc_ok d :
  (exists i, alloc_desc d = (Some i, {| d with free := <[i := false]> (free d) |}) /\ free d !! i = Some true) \/
  (alloc_desc d = (None, d) /\ free_count d = 0%nat).
Proof.
  unfold alloc_desc. destruct (find_idx _ _) as [i|] eqn:E.
  - left. exists i. split; [done|]. apply find_idx_hit in E as (x & Hx & ->). done.
  - right. split; [done|]. apply countb_zero. apply (proj1 (find_idx_None _ _) E).
Qed.

Lemma alloc_loop_ok k : forall got d,
  length (free d) = NUM -> NoDup got -> (forall i, i ∈ got -> free d !! i = Some false) ->
  exists r woke d', alloc_loop k got d = Ret (r, woke, d') /\ same_rest d d' /\
  match r with
  | Some idx => woke = false /\ desc d' = desc d /\ exists new, idx = got ++ new /\ length new = k /\ NoDup (got ++ new) /\
      (forall i, i ∈ new -> free d !! i = Some true) /\
      (forall j, free d' !! j = if decide (j ∈ new) then Some false else free d !! j) /\ free_count d = (free_count d' + k)%nat
  | None => (free_count d < k)%nat /\
      (forall j, free d' !! j = if decide (j ∈ got) then Some true else free d !! j) /\
      (forall j, j ∉ got -> free d !! j <> Some true -> desc d' j = desc d j)
  end.
Proof.
  induction k as [|k IH]; intros got d Hlen Hnd Hgot; cbn [alloc_loop].
  - exists (Some got), false, d. split; [done|]. split; [by constructor|]. split; [done|]. split; [done|]. exists [].
    rewrite app_nil_r. split_and!; try done. set_solver.
  - destruct (alloc_desc_ok d) as [(i & -> & Hi)|[-> Hc]].
    + assert (i ∉ got) as Hni by (intros Hin; rewrite (Hgot i Hin) in Hi; done).
      set (d1 := {| d with free := _ |}).
      assert (length (free d1) = NUM) as Hl1 by (unfold d1; cbn; by rewrite length_insert).
      assert (free_count d = S (free_count d1)) as Hc1.
      { unfold free_count, d1. cbn [free]. pose proof (countb_insert (fun f => f) (free d) i true false Hi) as H. cbn [Nat.b2n] in H. lia. }
      destruct (IH (got ++ [i]) d1 Hl1) as (r & woke & d' & E & R & Hr).
      { apply NoDup_app. split_and!; [done| |repeat constructor; set_solver]. set_solver. }
      { intros j Hj. unfold d1. cbn. destruct (decide (j = i)) as [->|Hne].
        - apply list_lookup_insert_eq. by eapply lookup_lt_Some.
        - rewrite list_lookup_insert_ne by done. apply Hgot. set_solver. }
      exists r, woke, d'. split; [done|]. split; [eapply same_rest_trans; [|exact R]; constructor; try done; by rewrite Hl1|].
      assert (forall j, free d1 !! j = if decide (j = i) then Some false else free d !! j) as Hf1.
      { intros j. unfold d1. cbn. case_decide as Hj; [subst j; apply list_lookup_insert_eq; by eapply lookup_lt_Some|].
        by apply list_lookup_insert_ne. }
      destruct r as [idx|].
      * destruct Hr as (-> & Hd & new & -> & Hlen' & Hnd' & Hnew & Hf & Hcount). rewrite <- (assoc_L (++)) in *. cbn in *.
        split; [done|]. split; [done|]. exists (i :: new). split_and!; [done|cbn; lia|done| | |lia].
        -- intros j [->|Hj]%elem_of_cons; [done|]. specialize (Hnew j Hj). rewrite Hf1 in Hnew. by case_decide.
        -- intros j. rewrite Hf, Hf1. destruct (decide (j ∈ new)); [by rewrite decide_True by set_solver|].
           destruct (decide (j = i)) as [->|]; [by rewrite decide_True by set_solver|by rewrite decide_False by set_solver].
      * destruct Hr as (Hc' & Hf & Hd). split_and!; [lia| |].
        -- intros j. rewrite Hf, Hf1. destruct (decide (j = i)) as [->|]; [by rewrite decide_True, decide_False by set_solver|].
           destruct (decide (j ∈ got)); [by rewrite decide_True by set_solver|by rewrite decide_False by set_solver].
        -- intros j Hj Hfj. destruct (decide (j = i)) as [->|Hne]; [done|]. rewrite Hd; [done|set_solver|].
           rewrite Hf1, decide_False by done. done.
    + destruct (free_all_ok got d Hlen Hnd Hgot) as (d' & E & R & F & D). rewrite E. cbn.
      eexists None, _, d'. split; [reflexivity|]. split; [done|]. split_and!; [lia|done|]. intros j Hj _. by apply D.
Qed.

(** Three descriptors linked as a request. *)
Record chain (d : disk) (b : nat) (write : bool) (sec : Z) (i0 i1 i2 : nat) : Prop := {
  ch_0 : desc d i0 = mk_desc (Op i0) SIZEOF_BLK_REQ VRING_DESC_F_NEXT i1;
  ch_1 : desc d i1 = mk_desc (Data b) BSIZE (if write then 1 else 3) i2;
  ch_2 : desc d i2 = mk_desc (Status i0) 1 VRING_DESC_F_WRITE 0;
  ch_op : ops d i0 = mk_req (if write then VIRTIO_BLK_T_OUT else VIRTIO_BLK_T_IN) 0 sec
}.

Lemma ring_chain_ext d d' b write sec i0 i1 i2 :
  chain d b write sec i0 i1 i2 -> (forall j, j ∈ [i0; i1; i2] -> desc d' j = desc d j) -> ops d' i0 = ops d i0 ->
  chain d' b write sec i0 i1 i2.
Proof. intros [] Hd Ho. constructor; rewrite ?Hd, ?Ho by set_solver; done. Qed.

Lemma free_chain_all d b write sec i0 i1 i2 :
  chain d b write sec i0 i1 i2 -> NoDup [i0; i1; i2] -> length (free d) = NUM ->
  (forall i, i ∈ [i0; i1; i2] -> free d !! i = Some false) -> free_chain NUM i0 d = free_all [i0; i1; i2] d.
Proof.
  intros [C0 C1 C2 _] Hnd Hlen Hf. apply NoDup_cons in Hnd as [H0 Hnd]. apply NoDup_cons in Hnd as [H1 _].
  destruct (free_desc_ok i0 d Hlen (Hf i0 ltac:(set_solver))) as (d1 & E1 & R1 & F1 & D1).
  destruct (free_desc_ok i1 d1) as (d2 & E2 & R2 & F2 & D2).
  { by rewrite (sr_len _ _ R1). }
  { rewrite F1, list_lookup_insert_ne by set_solver. apply Hf. set_solver. }
  unfold NUM. cbn [free_chain free_all]. rewrite C0. cbn [flags next]. rewrite E1. cbn.
  rewrite (D1 i1), C1 by set_solver. cbn [flags next]. rewrite E2. cbn.
  replace (negb (Z.land (if write then 1 else 3) VRING_DESC_F_NEXT =? 0)) with true by (by destruct write).
  rewrite (D2 i2), (D1 i2), C2 by set_solver. cbn [flags next]. change (negb (Z.land VRING_DESC_F_WRITE VRING_DESC_F_NEXT =? 0)) with false.
  cbn. by destruct (free_desc i2 d2).
Qed.

Lemma fetch_chain d b write sec i0 i1 i2 :
  chain d b write sec i0 i1 i2 ->
  fetch i0 d = Some (mk_request (if write then VIRTIO_BLK_T_OUT else VIRTIO_BLK_T_IN) sec b BSIZE i0).
Proof.
  intros [C0 C1 C2 C3]. unfold fetch. rewrite C0. cbn [next]. rewrite C1. cbn [next]. rewrite C2. cbn. rewrite C3.
  by destruct write.
Qed.

(** ** Rings *)

(** The entries from index [from] up to [to]. *)
Definition entries (ring : nat -> nat) (from to : Z) : list nat :=
  (fun k => ring (slot (from + k))) <$> seqZ 0 (wrapu 16 (to - from)).

Definition is_u16 (z : Z) : Prop := 0 <= z < 2 ^ 16.

Lemma ring_slot_wrap a : slot (wrapu 16 a) = slot a.
Proof.
  unfold slot, wrapu. f_equal. symmetry. apply Znumtheory.Zmod_div_mod; [lia|lia|]. exists (2 ^ 13). lia.
Qed.

Lemma ring_slot_wrap_add a b : slot (wrapu 16 a + b) = slot (a + b).
Proof. rewrite <- (ring_slot_wrap (wrapu 16 a + b)). unfold wrapu. rewrite Zplus_mod_idemp_l. apply ring_slot_wrap. Qed.

Lemma ring_slot_inj a j k : - 8 < j - k < 8 -> slot (a + j) = slot (a + k) -> j = k.
Proof.
  unfold slot. intros H E. pose proof (Z.mod_pos_bound (a + j) 8). pose proof (Z.mod_pos_bound (a + k) 8).
  pose proof (Z.div_mod (a + j) 8). pose proof (Z.div_mod (a + k) 8). lia.
Qed.

Lemma entries_length ring from to : Z.of_nat (length (entries ring from to)) = wrapu 16 (to - from).
Proof. unfold entries. rewrite length_fmap, length_seqZ. pose proof (wrapu_range 16 (to - from)). lia. Qed.

Lemma entries_ext ring ring' from to :
  (forall k, 0 <= k < wrapu 16 (to - from) -> ring' (slot (from + k)) = ring (slot (from + k))) ->
  entries ring' from to = entries ring from to.
Proof. intros H. apply list_fmap_ext. intros i k Hk. apply lookup_seqZ in Hk as [-> Hk]. apply H. lia. Qed.

Lemma entries_push ring from to h :
  is_u16 from -> is_u16 to -> (length (entries ring from to) < 8)%nat ->
  entries (<[slot to := h]> ring) from (wrapu 16 (to + 1)) = entries ring from to ++ [h].
Proof.
  intros Hf Ht Hlen. pose proof (entries_length ring from to) as Hl.
  assert (wrapu 16 (wrapu 16 (to + 1) - from) = wrapu 16 (to - from) + 1) as Hw.
  { unfold wrapu in *. rewrite Zminus_mod_idemp_l. replace (to + 1 - from) with (to - from + 1) by lia.
    rewrite <- Zplus_mod_idemp_l. apply Z.mod_small. lia. }
  assert (slot to = slot (from + wrapu 16 (to - from))) as Hto.
  { rewrite <- (ring_slot_wrap (from + _)). unfold wrapu. rewrite Zplus_mod_idemp_r. replace (from + (to - from)) with to by lia.
    symmetry. apply ring_slot_wrap. }
  assert (entries (<[slot to:=h]> ring) from to = entries ring from to) as He.
  { apply entries_ext. intros k Hk. apply fn_lookup_insert_ne. rewrite Hto. intros E. apply ring_slot_inj in E; lia. }
  rewrite <- He. unfold entries at 1. rewrite Hw, seqZ_app, fmap_app by lia. f_equal.
  rewrite seqZ_cons by lia. change (Z.pred 1) with 0. cbn. rewrite Z.add_0_l, <- Hto. by rewrite fn_lookup_insert.
Qed.

Lemma entries_nil ring from : entries ring from from = [].
Proof. unfold entries. by rewrite Z.sub_diag. Qed.

Lemma entries_pop ring from to :
  is_u16 from -> is_u16 to -> from <> to ->
  entries ring from to = ring (slot from) :: entries ring (wrapu 16 (from + 1)) to.
Proof.
  intros Hf Ht Hne. unfold is_u16 in *. pose proof (wrapu_range 16 (to - from) ltac:(lia)) as Hr.
  assert (0 < wrapu 16 (to - from)) as Hpos.
  { assert (wrapu 16 (to - from) <> 0); [|lia]. unfold wrapu. intros E. apply Z.mod_divide in E as [q Hq]; [|lia]. lia. }
  assert (wrapu 16 (to - wrapu 16 (from + 1)) = wrapu 16 (to - from) - 1) as Hw.
  { unfold wrapu in *. rewrite Zminus_mod_idemp_r. replace (to - (from + 1)) with (to - from - 1) by lia.
    rewrite <- Zminus_mod_idemp_l. apply Z.mod_small. lia. }
  unfold entries. rewrite Hw, seqZ_cons by lia. cbn. f_equal; [by rewrite Z.add_0_r|].
  rewrite <- (Z.add_1_r 0) at 1. change (Z.succ 0) with (0 + 1). rewrite Z.add_comm.
  replace (seqZ (1 + 0) (Z.pred (wrapu 16 (to - from)))) with (Z.add 1 <$> seqZ 0 (wrapu 16 (to - from) - 1)).
  - rewrite <- list_fmap_compose. apply list_fmap_ext. intros i k _. cbn. rewrite ring_slot_wrap_add. do 2 f_equal. lia.
  - rewrite fmap_add_seqZ. f_equal. 
Qed.

Lemma entries_used ring from to :
  is_u16 from -> is_u16 to -> from = to \/ exists h, entries ring from to = h :: entries ring (wrapu 16 (from + 1)) to.
Proof. intros Hf Ht. destruct (decide (from = to)); [by left|right]. eexists. by apply entries_pop. Qed.

(** ** The interrupt handler *)

Lemma intr_loop_ok ids : forall d,
  is_u16 (used_idx d) -> is_u16 (used_idx' d) -> ids = entries (used_ring d) (used_idx d) (used_idx' d) ->
  (forall h, h ∈ ids -> i_status (info d h) = 0 /\ is_Some (i_b (info d h))) ->
  intr_loop (length ids) d = Ret (omap (fun h => i_b (info d h)) ids, {| d with used_idx := used_idx' d |}).
Proof.
  induction ids as [|h ids IH]; intros d Hu Hu' He Hids.
  - assert (used_idx d = used_idx' d) as E.
    { destruct (decide (used_idx d = used_idx' d)) as [|Hne]; [done|]. rewrite entries_pop in He; done. }
    cbn. rewrite E, Z.eqb_refl. do 2 f_equal. destruct d. cbn in *. by subst.
  - assert (used_idx d <> used_idx' d) as Hne by (intros E; rewrite E, entries_nil in He; done).
    rewrite entries_pop in He by done. injection He as -> He. cbn [length intr_loop]. rewrite (proj2 (Z.eqb_neq _ _) Hne).
    destruct (Hids (used_ring d (slot (used_idx d)))) as [Hst [b Hb]]; [left|]. rewrite Hst, Hb. cbn [negb Z.eqb].
    change (negb true) with false. cbn iota.
    rewrite (IH {| d with used_idx := wrapu 16 (used_idx d + 1) |}); [|apply wrapu_range; lia|done|done|].
    + cbn. by rewrite Hb.
    + intros h Hh. apply Hids. by right.
Qed.

Lemma virtio_disk_intr_ok d :
  is_u16 (used_idx d) -> is_u16 (used_idx' d) ->
  (forall h, h ∈ entries (used_ring d) (used_idx d) (used_idx' d) -> i_status (info d h) = 0 /\ is_Some (i_b (info d h))) ->
  virtio_disk_intr d = Ret (omap (fun h => i_b (info d h)) (entries (used_ring d) (used_idx d) (used_idx' d)),
                            {| d with used_idx := used_idx' d |}).
Proof.
  intros H1 H2 H3. unfold virtio_disk_intr. rewrite <- (entries_length (used_ring d)), Nat2Z.id. by apply intr_loop_ok.
Qed.

Lemma intr_loop_fails ids : forall d,
  is_u16 (used_idx d) -> is_u16 (used_idx' d) -> ids = entries (used_ring d) (used_idx d) (used_idx' d) ->
  (forall h, h ∈ ids -> is_Some (i_b (info d h))) -> Exists (fun h => i_status (info d h) <> 0) ids ->
  intr_loop (length ids) d = Panic "virtio_disk_intr status".
Proof.
  induction ids as [|h ids IH]; intros d Hu Hu' He Hids Hx; [by apply Exists_nil in Hx|].
  assert (used_idx d <> used_idx' d) as Hne by (intros E; rewrite E, entries_nil in He; done).
  rewrite entries_pop in He by done. injection He as -> He. cbn [length intr_loop]. rewrite (proj2 (Z.eqb_neq _ _) Hne).
  destruct (Z.eqb_spec (i_status (info d (used_ring d (slot (used_idx d))))) 0) as [E|E]; [|done]. cbn [negb].
  destruct (Hids (used_ring d (slot (used_idx d)))) as [b Hb]; [left|]. rewrite Hb.
  apply Exists_cons in Hx as [Hx|Hx]; [done|].
  rewrite (IH {| d with used_idx := wrapu 16 (used_idx d + 1) |}); [done|apply wrapu_range; lia|done|done| |done].
  intros h Hh. apply Hids. by right.
Qed.

Lemma virtio_disk_intr_fails d :
  is_u16 (used_idx d) -> is_u16 (used_idx' d) ->
  (forall h, h ∈ entries (used_ring d) (used_idx d) (used_idx' d) -> is_Some (i_b (info d h))) ->
  Exists (fun h => i_status (info d h) <> 0) (entries (used_ring d) (used_idx d) (used_idx' d)) ->
  virtio_disk_intr d = Panic "virtio_disk_intr status".
Proof.
  intros H1 H2 H3 H4. unfold virtio_disk_intr. rewrite <- (entries_length (used_ring d)), Nat2Z.id. by apply intr_loop_fails.
Qed.

(** ** Initialisation *)

(** The driver asks for features the device offers, and for none of the seven that
    it cannot work with. *)
Lemma driver_features_bits f k :
  0 <= k -> Z.testbit (driver_features f) k = Z.testbit f k && negb (bool_decide (k ∈ [5; 7; 11; 12; 27; 29; 28])).
Proof.
  intros Hk. unfold driver_features, clear_bit. cbn [foldl]. rewrite !Z.ldiff_spec.
  assert (forall j, 0 <= j -> Z.testbit (Z.shiftl 1 j) k = bool_decide (k = j)) as Hs.
  { intros j Hj. rewrite Z.shiftl_spec by done. case_bool_decide as E; [subst; by rewrite Z.sub_diag|].
    destruct (decide (k < j)); [by apply Z.testbit_neg_r; lia|]. change 1 with (2 ^ 0). apply Z.pow2_bits_false. lia. }
  rewrite !Hs by lia. destruct (Z.testbit f k); [|done]. cbn [andb].
  destruct (decide (k ∈ [5; 7; 11; 12; 27; 29; 28])) as [Hin|Hin];
    [rewrite (bool_decide_eq_true_2 (k ∈ _)) by done|rewrite (bool_decide_eq_false_2 (k ∈ _)) by done].
  - rewrite !elem_of_cons, elem_of_nil in Hin. destruct_or! Hin; subst; done.
  - repeat (rewrite bool_decide_eq_false_2 by set_solver). done.
Qed.

End VirtioFacts.
