(* ===== verification/VirtioRun.v ===== *)
(** * The disk driver: no panic, every request served once, no wakeup lost *)
From S2P Require Import Prelude Virtio VirtioFacts.
Import Virtio VirtioFacts.

#[local] Open Scope Z_scope.

Module VirtioRun.

Section Run.
Context {M : Type} (serve : Z -> Z -> Z -> list Z -> M -> M * list Z * Z).

Implicit Types (s : sys (M:=M)).

(** The heads on their way to the device, and those it has completed. *)
Definition to_do s : list nat := entries (avail_ring (dk s)) (seen s) (avail_idx (dk s)) ++ pending s.
Definition completed s : list nat := entries (used_ring (dk s)) (used_idx (dk s)) (used_idx' (dk s)).

Definition rw_type (w : bool) : Z := if w then VIRTIO_BLK_T_OUT else VIRTIO_BLK_T_IN.

(** A request that was served, once. *)
Definition served (d : disk) (x : buf) (js : list job) (w : bool) (i0 : nat) : Prop :=
  exists before, js = [mk_job (rw_type w) (rw_sector x) before (data x) (i_status (info d i0))].

(** What holds of a call that waits for its request. *)
Record waiting (d : disk) (x : buf) (js : list job) (todo comp : list nat) (b : nat) (w : bool) (i0 i1 i2 : nat) (a : bool) : Prop := {
  w_nodup : NoDup [i0; i1; i2];
  w_taken : forall i, i ∈ [i0; i1; i2] -> free d !! i = Some false;
  w_chain : chain d b w (rw_sector x) i0 i1 i2;
  w_info : i_b (info d i0) = Some b;
  w_phase : (i0 ∈ todo /\ b_disk x = 1 /\ js = []) \/
            (i0 ∈ comp /\ b_disk x = 1 /\ served d x js w i0) \/
            (i0 ∉ todo /\ i0 ∉ comp /\ b_disk x = 0 /\ a = false /\ served d x js w i0 /\ i_status (info d i0) = 0)
}.

Definition waiting_in s b w i0 i1 i2 a : Prop := waiting (dk s) (bufs s b) (jobs s b) (to_do s) (completed s) b w i0 i1 i2 a.

Record inv s : Prop := {
  v_len : length (free (dk s)) = NUM;
  v_idx : is_u16 (avail_idx (dk s)) /\ is_u16 (used_idx (dk s)) /\ is_u16 (used_idx' (dk s)) /\ is_u16 (seen s);
  v_wait : forall p b w idx a, procs s p = Wait b w idx a -> exists i0 i1 i2, idx = [i0; i1; i2] /\ waiting_in s b w i0 i1 i2 a;
  v_heads : forall h, h ∈ to_do s ++ completed s -> exists p b w i1 i2 a, procs s p = Wait b w [h; i1; i2] a;
  v_nodup : NoDup (to_do s ++ completed s);
  v_disj : forall p q b w idx a b' w' idx' a' i, procs s p = Wait b w idx a -> procs s q = Wait b' w' idx' a' ->
    i ∈ idx -> i ∈ idx' -> p = q;
  v_bufs : forall p q b, uses (procs s p) = Some b -> uses (procs s q) = Some b -> p = q;
  v_cover : forall i, free (dk s) !! i = Some false -> exists p b w idx a, procs s p = Wait b w idx a /\ i ∈ idx;
  v_asleep : forall p b w, procs s p = GetDesc b w true -> (free_count (dk s) < 3)%nat
}.

Lemma disk_boot_inv m blocks : inv (boot m blocks).
Proof.
  constructor; try done.
  - intros h Hh. by apply elem_of_nil in Hh.
  - constructor.
  - intros i Hi. cbn in Hi. do 8 (destruct i as [|i]; [done|]). done.
Qed.

(** ** Consequences *)

Lemma head_owner s h : inv s -> h ∈ to_do s ++ completed s ->
  exists p b w i1 i2 a, procs s p = Wait b w [h; i1; i2] a /\ waiting_in s b w h i1 i2 a.
Proof.
  intros I Hh. destruct (v_heads s I h Hh) as (p & b & w & i1 & i2 & a & Hp). exists p, b, w, i1, i2, a. split; [done|].
  destruct (v_wait s I _ _ _ _ _ Hp) as (j0 & j1 & j2 & Hi & Hw). by injection Hi as <- <- <-.
Qed.

(** Heads are descriptors that are taken. *)
Lemma head_taken s h : inv s -> h ∈ to_do s ++ completed s -> free (dk s) !! h = Some false.
Proof.
  intros I Hh. destruct (head_owner s h I Hh) as (p & b & w & i1 & i2 & a & _ & Hw). apply (w_taken _ _ _ _ _ _ _ _ _ _ _ Hw). left.
Qed.

(** A ring has disk_room for one more head. *)
Lemma disk_room s l h : inv s -> NoDup l -> (forall x, x ∈ l -> x ∈ to_do s ++ completed s) -> (h < NUM)%nat -> h ∉ l -> (length l < 8)%nat.
Proof.
  intros I Hnd Hl Hh Hn. assert (NoDup (h :: l)) as Hnd' by (by constructor).
  assert (forall x, x ∈ h :: l -> x ∈ seq 0 8) as Hsub.
  { intros x [->|Hx]%elem_of_cons; [apply elem_of_seq; unfold NUM in Hh; lia|]. apply elem_of_seq.
    apply Hl, (head_taken s x I), lookup_lt_Some in Hx. rewrite (v_len s I) in Hx. unfold NUM in Hx. lia. }
  pose proof (NoDup_submseteq _ _ Hnd' Hsub) as Hs. apply submseteq_length in Hs. cbn in Hs. lia.
Qed.

Lemma waiting_ext d d' x js todo todo' comp comp' b w i0 i1 i2 a :
  waiting d x js todo comp b w i0 i1 i2 a ->
  (forall i, i ∈ [i0; i1; i2] -> free d' !! i = free d !! i /\ desc d' i = desc d i) ->
  ops d' i0 = ops d i0 -> info d' i0 = info d i0 -> (i0 ∈ todo' <-> i0 ∈ todo) -> (i0 ∈ comp' <-> i0 ∈ comp) ->
  waiting d' x js todo' comp' b w i0 i1 i2 a.
Proof.
  intros [W1 W2 W3 W4 W5] Hi Ho Hn Ht Hc. constructor; [done| | |by rewrite Hn|].
  - intros i Hin. rewrite (proj1 (Hi i Hin)). by apply W2.
  - eapply ring_chain_ext; [exact W3| |done]. intros j Hj. by apply Hi.
  - unfold served. rewrite Hn, Ht, Hc. exact W5.
Qed.

(** The calls that wait are the same in [s'], one by one. *)
Lemma wait_ext s s' p b w idx a :
  inv s -> procs s p = Wait b w idx a ->
  (forall i, i ∈ idx -> free (dk s') !! i = free (dk s) !! i /\ desc (dk s') i = desc (dk s) i) ->
  (forall i, i ∈ idx -> ops (dk s') i = ops (dk s) i /\ info (dk s') i = info (dk s) i) ->
  bufs s' b = bufs s b -> jobs s' b = jobs s b ->
  (forall i, i ∈ idx -> (i ∈ to_do s' <-> i ∈ to_do s) /\ (i ∈ completed s' <-> i ∈ completed s)) ->
  exists i0 i1 i2, idx = [i0; i1; i2] /\ waiting_in s' b w i0 i1 i2 a.
Proof.
  intros I Hp Hi Ho Hb Hj Hm. destruct (v_wait s I _ _ _ _ _ Hp) as (i0 & i1 & i2 & -> & Hw).
  exists i0, i1, i2. split; [done|]. unfold waiting_in. rewrite Hb, Hj. eapply waiting_ext; [exact Hw|done|..]; first [by apply Ho; left | by apply Hm; left].
Qed.

Lemma set_proc_other p x s q : q <> p -> procs (set_proc p x s) q = procs s q.
Proof. intros H. unfold set_proc. cbn. by apply fn_lookup_insert_ne. Qed.

Lemma set_proc_same p x s : procs (set_proc p x s) p = x.
Proof. unfold set_proc. cbn. apply fn_lookup_insert. Qed.

(** A call that does not wait for a request changes to another that does not. *)
Lemma replace_inv s p x :
  inv s -> (forall b w idx a, procs s p <> Wait b w idx a) -> (forall b w idx a, x <> Wait b w idx a) ->
  (forall b, uses x = Some b -> forall q, q <> p -> uses (procs s q) <> Some b) ->
  (forall b w, x = GetDesc b w true -> (free_count (dk s) < 3)%nat) -> inv (set_proc p x s).
Proof.
  intros I Hp Hx Hu Hc.
  assert (forall q b w idx a, procs (set_proc p x s) q = Wait b w idx a <-> procs s q = Wait b w idx a) as Hw.
  { intros q b w idx a. destruct (decide (q = p)) as [->|Hne]; [|by rewrite set_proc_other].
    rewrite set_proc_same. split; intros H; exfalso; [by apply (Hx b w idx a)|by apply (Hp b w idx a)]. }
  constructor; try apply I.
  - intros q b w idx a. rewrite Hw. apply (v_wait s I).
  - intros h Hh. destruct (v_heads s I h Hh) as (q & b & w & i1 & i2 & a & Hq). exists q, b, w, i1, i2, a. by apply Hw.
  - intros q r b w idx a b' w' idx' a' i. rewrite !Hw. apply (v_disj s I).
  - intros q r b. destruct (decide (q = p)) as [->|Hq], (decide (r = p)) as [->|Hr]; try done;
      rewrite ?set_proc_same, ?set_proc_other by done.
    + intros H1 H2. by destruct (Hu b H1 r Hr).
    + intros H1 H2. by destruct (Hu b H2 q Hq).
    + apply (v_bufs s I).
  - intros i Hi. destruct (v_cover s I i Hi) as (q & b & w & idx & a & Hq & Hin). exists q, b, w, idx, a. by rewrite Hw.
  - intros q b w. destruct (decide (q = p)) as [->|Hq]; [rewrite set_proc_same; apply Hc|rewrite set_proc_other by done; apply (v_asleep s I)].
Qed.

(** Waking the calls that wait for descriptors. *)
Lemma wake_if_inv c s : inv s -> inv (wake_if c s).
Proof.
  intros I. destruct c; [|done].
  assert (forall q b w idx a, procs (wake_if true s) q = Wait b w idx a <-> procs s q = Wait b w idx a) as Hw.
  { intros q b w idx a. cbn. destruct (procs s q); cbn; split; congruence. }
  constructor; try apply I.
  - intros q b w idx a. rewrite Hw. apply (v_wait s I).
  - intros h Hh. destruct (v_heads s I h Hh) as (q & b & w & i1 & i2 & a & Hq). exists q, b, w, i1, i2, a. by apply Hw.
  - intros q r b w idx a b' w' idx' a' i. rewrite !Hw. apply (v_disj s I).
  - intros q r b Hq Hr. apply (v_bufs s I q r b); cbn in *; [by destruct (procs s q)|by destruct (procs s r)].
  - intros i Hi. destruct (v_cover s I i Hi) as (q & b & w & idx & a & Hq & Hin). exists q, b, w, idx, a. by rewrite Hw.
  - intros q b w H. cbn in H. by destruct (procs s q).
Qed.

(** The free descriptors cleared, as a failing alloc3_desc does. *)
Lemma cleared_inv s d :
  inv s -> same_rest (dk s) d -> free d = free (dk s) -> (forall j, free (dk s) !! j <> Some true -> desc d j = desc (dk s) j) ->
  inv {| s with dk := d |}.
Proof.
  intros I [R1 R2 R3 R4 R5 R6 R7 R8] Hf Hd.
  assert (to_do {| s with dk := d |} = to_do s /\ completed {| s with dk := d |} = completed s) as [Ht Hc].
  { unfold to_do, completed. cbn. by rewrite R1, R2, R3, R4, R5. }
  constructor; cbn; rewrite ?Ht, ?Hc, ?R1, ?R3, ?R5, ?Hf; try apply I.
  - intros q b w idx a Hq. eapply (wait_ext s); [done|exact Hq| | |done|done|by rewrite Ht, Hc].
    + intros i Hi. cbn. rewrite Hf. split; [done|]. apply Hd.
      destruct (v_wait s I _ _ _ _ _ Hq) as (i0 & i1 & i2 & -> & Hw). by rewrite (w_taken _ _ _ _ _ _ _ _ _ _ _ Hw i Hi).
    + intros i Hi. cbn. by rewrite R6, R7.
  - unfold free_count in *. cbn. rewrite Hf. apply I.
Qed.

(** A request published by [p], whose descriptors were free. *)
Definition submitted (p b : nat) (w : bool) (i0 i1 i2 : nat) (d : disk) s : sys :=
  let x := bufs s b in
  set_proc p (Wait b w [i0; i1; i2] true)
    {| s with dk := publish i0 (format i0 i1 i2 b (rw_sector x) w d);
              bufs := <[b := {| x with b_disk := 1 |}]> (bufs s); jobs := <[b := []]> (jobs s) |}.

Lemma format_chain i0 i1 i2 b sec w d : NoDup [i0; i1; i2] -> chain (format i0 i1 i2 b sec w d) b w sec i0 i1 i2.
Proof.
  intros Hnd. apply NoDup_cons in Hnd as [H0 Hnd]. apply NoDup_cons in Hnd as [H1 _].
  assert (i1 <> i0 /\ i2 <> i0 /\ i2 <> i1) as (? & ? & ?) by set_solver.
  constructor; cbn; rewrite ?fn_lookup_insert_ne, ?fn_lookup_insert by done; [done| |done|done]. by destruct w.
Qed.

Lemma format_other i0 i1 i2 b sec w d j : j ∉ [i0; i1; i2] ->
  desc (format i0 i1 i2 b sec w d) j = desc d j /\ info (format i0 i1 i2 b sec w d) j = info d j /\
  ops (format i0 i1 i2 b sec w d) j = ops d j.
Proof.
  intros Hj. assert (j <> i0 /\ j <> i1 /\ j <> i2) as (? & ? & ?) by set_solver.
  cbn. rewrite !fn_lookup_insert_ne by done. done.
Qed.

Lemma submit_inv s p b w i0 i1 i2 d :
  inv s -> procs s p = GetDesc b w false -> same_rest (dk s) d -> desc d = desc (dk s) -> NoDup [i0; i1; i2] ->
  (forall i, i ∈ [i0; i1; i2] -> free (dk s) !! i = Some true) ->
  (forall j, free d !! j = if decide (j ∈ [i0; i1; i2]) then Some false else free (dk s) !! j) ->
  (free_count d <= free_count (dk s))%nat -> inv (submitted p b w i0 i1 i2 d s).
Proof.
  intros I Hp [R1 R2 R3 R4 R5 R6 R7 R8] Hd Hnd Hfree Hf Hcount. set (s' := submitted _ _ _ _ _ _ _ _).
  assert (forall h, h ∈ [i0; i1; i2] -> h ∉ to_do s ++ completed s) as Hfresh.
  { intros h Hh Hin. apply (head_taken s h I) in Hin. rewrite (Hfree h Hh) in Hin. done. }
  destruct (v_idx s I) as (X1 & X2 & X3 & X4). pose proof (v_nodup s I) as Hnodup.
  assert (length (entries (avail_ring (dk s)) (seen s) (avail_idx (dk s))) < 8)%nat as Hroom.
  { apply (disk_room s _ i0 I).
    - apply NoDup_app in Hnodup as [H _]. unfold to_do in H. by apply NoDup_app in H as [H _].
    - intros h Hh. unfold to_do. set_solver.
    - rewrite <- (v_len s I). eapply lookup_lt_Some, (Hfree i0). left.
    - intros Hin. apply (Hfresh i0); [left|]. unfold to_do. set_solver. }
  assert (completed s' = completed s) as Hc by (unfold completed; cbn; by rewrite R3, R4, R5).
  assert (to_do s' ≡ₚ i0 :: to_do s) as Ht.
  { unfold to_do. cbn. rewrite R1, R2, entries_push by done. rewrite <- (assoc_L (++)). cbn. symmetry. apply Permutation_middle. }
  assert (forall h, h ∉ [i0; i1; i2] -> h ∈ to_do s' <-> h ∈ to_do s) as Ht'.
  { intros h Hh. rewrite Ht. set_solver. }
  assert (forall q, q <> p -> forall b', uses (procs s q) = Some b' -> b' <> b) as Hb.
  { intros q Hq b' Hu ->. apply Hq, (v_bufs s I q p b); [done|by rewrite Hp]. }
  assert (forall q c v idx a, q <> p -> procs s q = Wait c v idx a -> forall i, i ∈ idx -> i ∉ [i0; i1; i2]) as Hdis.
  { intros q c v idx a Hq Hw i Hi Hin. destruct (v_wait s I _ _ _ _ _ Hw) as (j0 & j1 & j2 & -> & W).
    pose proof (w_taken _ _ _ _ _ _ _ _ _ _ _ W i Hi). pose proof (Hfree i Hin). congruence. }
  constructor.
  - cbn. rewrite R8. apply I.
  - cbn. rewrite R3, R5, R1. split_and!; [apply wrapu_range; lia|done..].
  - intros q c v idx a Hq. destruct (decide (q = p)) as [->|Hne].
    + unfold s', submitted in Hq. rewrite set_proc_same in Hq. injection Hq as <- <- <- <-.
      exists i0, i1, i2. split; [done|]. constructor; [done| | | |].
      * intros i Hi. cbn. rewrite Hf. by rewrite decide_True.
      * cbn. rewrite fn_lookup_insert. eapply ring_chain_ext; [by apply (format_chain i0 i1 i2 b (rw_sector (bufs s b)) w d)|done|done].
      * cbn. by rewrite fn_lookup_insert.
      * left. cbn. rewrite !fn_lookup_insert. split; [|done]. rewrite Ht. left.
    + unfold s', submitted in Hq. rewrite set_proc_other in Hq by done. cbn in Hq.
      assert (c <> b) as Hcb by (apply (Hb q Hne c); by rewrite Hq).
      eapply (wait_ext s); [done|exact Hq| | | | |].
      * intros i Hi. pose proof (Hdis _ _ _ _ _ Hne Hq i Hi) as Hn. cbn [s' submitted set_proc dk publish free desc].
        change (free (format i0 i1 i2 b (rw_sector (bufs s b)) w d)) with (free d). rewrite Hf, decide_False by done.
        split; [done|]. rewrite <- Hd. by apply format_other.
      * intros i Hi. pose proof (Hdis _ _ _ _ _ Hne Hq i Hi) as Hn. rewrite <- R6, <- R7.
        split; apply (format_other i0 i1 i2 b (rw_sector (bufs s b)) w d i Hn).
      * cbn. by rewrite fn_lookup_insert_ne.
      * cbn. by rewrite fn_lookup_insert_ne.
      * intros i Hi. rewrite Hc, Ht' by (by eapply Hdis). done.
  - intros h Hh. rewrite Hc, Ht in Hh. cbn in Hh. apply elem_of_cons in Hh as [->|Hh].
    + exists p, b, w, i1, i2, true. unfold s', submitted. by rewrite set_proc_same.
    + destruct (v_heads s I h Hh) as (q & c & v & j1 & j2 & a & Hq). exists q, c, v, j1, j2, a.
      unfold s', submitted. rewrite set_proc_other; [done|]. intros ->. by rewrite Hp in Hq.
  - rewrite Hc, Ht. cbn. constructor; [|done]. apply Hfresh. left.
  - intros q r c v idx a c' v' idx' a' i Hq Hr Hi Hi'. unfold s', submitted in Hq, Hr.
    destruct (decide (q = p)) as [->|Hqp], (decide (r = p)) as [->|Hrp]; [done|..].
    + rewrite set_proc_same in Hq. rewrite set_proc_other in Hr by done. injection Hq as <- <- <- <-.
      by destruct (Hdis r _ _ _ _ Hrp Hr i Hi').
    + rewrite set_proc_same in Hr. rewrite set_proc_other in Hq by done. injection Hr as <- <- <- <-.
      by destruct (Hdis q _ _ _ _ Hqp Hq i Hi).
    + rewrite set_proc_other in Hr, Hq by done. by eapply (v_disj s I q r).
  - intros q r c Hq Hr. apply (v_bufs s I q r c).
    + destruct (decide (q = p)) as [->|Hne]; [|unfold s', submitted in Hq; by rewrite set_proc_other in Hq].
      unfold s', submitted in Hq. rewrite set_proc_same in Hq. by rewrite Hp.
    + destruct (decide (r = p)) as [->|Hne]; [|unfold s', submitted in Hr; by rewrite set_proc_other in Hr].
      unfold s', submitted in Hr. rewrite set_proc_same in Hr. by rewrite Hp.
  - intros i Hi. change (free (dk s')) with (free d) in Hi. rewrite Hf in Hi. case_decide as Hin.
    + exists p, b, w, [i0; i1; i2], true. unfold s', submitted. by rewrite set_proc_same.
    + destruct (v_cover s I i Hi) as (q & c & v & idx & a & Hq & Hiq). exists q, c, v, idx, a. split; [|done].
      unfold s', submitted. rewrite set_proc_other; [done|]. intros ->. by rewrite Hp in Hq.
  - intros q c v Hq. destruct (decide (q = p)) as [->|Hne]; unfold s', submitted in Hq.
    + by rewrite set_proc_same in Hq.
    + rewrite set_proc_other in Hq by done. pose proof (v_asleep s I q c v Hq). change (free_count (dk s')) with (free_count d). lia.
Qed.

Lemma start_inv s p b w :
  inv s -> procs s p = GetDesc b w false -> exists s', rw_start p b w s = Ret s' /\ inv s'.
Proof.
  intros I Hp. unfold rw_start, alloc3_desc.
  destruct (alloc_loop_ok 3 [] (dk s) (v_len s I)) as (r & woke & d & -> & R & Hr); [constructor|set_solver|].
  cbn [mbind outcome_bind]. destruct r as [idx|].
  - destruct Hr as (-> & Hd & new & -> & Hlen & Hnd & Hnew & Hf & Hcount). cbn [app] in *.
    destruct new as [|i0 [|i1 [|i2 [|]]]]; try done. eexists. split; [reflexivity|].
    apply (submit_inv s p b w i0 i1 i2 d); try done. lia.
  - destruct Hr as (Hc & Hf & Hd). eexists. split; [reflexivity|].
    assert (free d = free (dk s)) as Hfree.
    { apply list_eq. intros i. rewrite Hf. by rewrite decide_False by set_solver. }
    apply replace_inv.
    + apply wake_if_inv, cleared_inv; [done|done|done|]. intros j Hj. apply Hd; [set_solver|done].
    + intros b' w' idx a H. destruct woke; cbn in H; by rewrite Hp in H.
    + done.
    + intros c [= <-] q Hq Hu. apply Hq, (v_bufs s I q p b); [|by rewrite Hp].
      destruct woke; cbn in Hu; [|done]. by destruct (procs s q).
    + intros c v _. assert (dk (wake_if woke {| s with dk := d |}) = d) as -> by (by destruct woke).
      unfold free_count in *. by rewrite Hfree.
Qed.

(** [p] looks at its buffer again and goes back to sleep, or is woken. *)
Lemma rewait_inv s p b w idx a a' :
  inv s -> procs s p = Wait b w idx a -> (a' = true -> b_disk (bufs s b) = 1) -> inv (set_proc p (Wait b w idx a') s).
Proof.
  intros I Hp Ha. destruct (v_wait s I _ _ _ _ _ Hp) as (i0 & i1 & i2 & -> & W).
  assert (forall q c v jdx e, procs (set_proc p (Wait b w [i0; i1; i2] a') s) q = Wait c v jdx e ->
    exists e', procs s q = Wait c v jdx e' /\ (q <> p -> e = e')) as Hw.
  { intros q c v jdx e. destruct (decide (q = p)) as [->|Hne]; [rewrite set_proc_same; intros [= <- <- <- <-]; by exists a|].
    rewrite set_proc_other by done. intros H. by exists e. }
  assert (forall q c v jdx e, procs s q = Wait c v jdx e -> exists e', procs (set_proc p (Wait b w [i0; i1; i2] a') s) q = Wait c v jdx e') as Hw'.
  { intros q c v jdx e Hq. destruct (decide (q = p)) as [->|Hne]; [|exists e; by rewrite set_proc_other].
    rewrite set_proc_same. rewrite Hp in Hq. injection Hq as <- <- <- <-. by exists a'. }
  assert (forall q, uses (procs (set_proc p (Wait b w [i0; i1; i2] a') s) q) = uses (procs s q)) as Hu.
  { intros q. destruct (decide (q = p)) as [->|Hne]; [by rewrite set_proc_same, Hp|by rewrite set_proc_other]. }
  constructor; try apply I.
  - intros q c v jdx e Hq. destruct (Hw _ _ _ _ _ Hq) as (e' & Hq' & He).
    destruct (v_wait s I _ _ _ _ _ Hq') as (j0 & j1 & j2 & -> & W'). exists j0, j1, j2. split; [done|].
    destruct (decide (q = p)) as [->|Hne]; [|by rewrite (He Hne)].
    rewrite set_proc_same in Hq. injection Hq as <- <- <- <- <- <-. destruct W' as [W1 W2 W3 W4 W5]. constructor; try done.
    destruct W5 as [H|[H|(H1 & H2 & H3 & H4 & H5 & H6)]]; [by left|by right; left|]. right; right. split_and!; try done.
    destruct a'; [|done]. rewrite Ha in H3 by done. done.
  - intros h Hh. destruct (v_heads s I h Hh) as (q & c & v & j1 & j2 & e & Hq). destruct (Hw' _ _ _ _ _ Hq) as [e' Hq'].
    by exists q, c, v, j1, j2, e'.
  - intros q r c v jdx e c' v' jdx' e' i Hq Hr. destruct (Hw _ _ _ _ _ Hq) as (? & Hq' & _). destruct (Hw _ _ _ _ _ Hr) as (? & Hr' & _).
    by eapply (v_disj s I).
  - intros q r c. rewrite !Hu. apply (v_bufs s I).
  - intros i Hi. destruct (v_cover s I i Hi) as (q & c & v & jdx & e & Hq & Hin). destruct (Hw' _ _ _ _ _ Hq) as [e' Hq']. by exists q, c, v, jdx, e'.
  - intros q c v Hq. destruct (decide (q = p)) as [->|Hne]; [by rewrite set_proc_same in Hq|].
    rewrite set_proc_other in Hq by done. by apply (v_asleep s I q c v).
Qed.

(** [p] is done: its descriptors, which no ring mentions any more, are free again. *)
Lemma leave_inv s p b w i0 i1 i2 a d :
  inv s -> procs s p = Wait b w [i0; i1; i2] a -> b_disk (bufs s b) <> 1 ->
  avail_idx d = avail_idx (dk s) -> avail_ring d = avail_ring (dk s) -> used_idx' d = used_idx' (dk s) ->
  used_ring d = used_ring (dk s) -> used_idx d = used_idx (dk s) -> ops d = ops (dk s) -> length (free d) = NUM ->
  (forall j, j <> i0 -> info d j = info (dk s) j) ->
  (forall j, free d !! j = if decide (j ∈ [i0; i1; i2]) then Some true else free (dk s) !! j) ->
  (forall j, j ∉ [i0; i1; i2] -> desc d j = desc (dk s) j) ->
  inv (set_proc p Idle (wake_if true {| s with dk := d |})).
Proof.
  intros I Hp Hbd R1 R2 R3 R4 R5 R6 R7 Hinfo Hfree Hdesc. set (s' := set_proc _ _ _).
  assert (to_do s' = to_do s /\ completed s' = completed s) as [Ht Hc].
  { unfold to_do, completed. cbn. by rewrite R1, R2, R3, R4, R5. }
  assert (forall q c v idx e, procs s' q = Wait c v idx e <-> q <> p /\ procs s q = Wait c v idx e) as Hw.
  { intros q c v idx e. unfold s'. destruct (decide (q = p)) as [->|Hne]; [rewrite set_proc_same; naive_solver|].
    rewrite set_proc_other by done. cbn. destruct (procs s q); cbn; naive_solver. }
  assert (forall q c v idx e i, q <> p -> procs s q = Wait c v idx e -> i ∈ idx -> i ∉ [i0; i1; i2]) as Hdis.
  { intros q c v idx e i Hq Hwq Hi Hin. apply Hq. by eapply (v_disj s I q p). }
  constructor; rewrite ?Ht, ?Hc.
  - done.
  - cbn. rewrite R1, R3, R5. apply (v_idx s I).
  - intros q c v idx e Hq. apply Hw in Hq as [Hne Hq]. eapply (wait_ext s); [done|exact Hq| | |done|done|by rewrite Ht, Hc].
    + intros i Hi. pose proof (Hdis _ _ _ _ _ i Hne Hq Hi) as Hn. cbn. rewrite Hfree, Hdesc by done. by rewrite decide_False.
    + intros i Hi. pose proof (Hdis _ _ _ _ _ i Hne Hq Hi) as Hn. cbn. rewrite R6, Hinfo by set_solver. done.
  - intros h Hh. destruct (head_owner s h I Hh) as (q & c & v & j1 & j2 & e & Hq & W). exists q, c, v, j1, j2, e. apply Hw.
    split; [|done]. intros ->. rewrite Hp in Hq. injection Hq as -> -> -> -> -> ->.
    destruct (w_phase _ _ _ _ _ _ _ _ _ _ _ W) as [(_ & H & _)|[(_ & H & _)|(H1 & H2 & _)]]; [done|done|set_solver].
  - apply (v_nodup s I).
  - intros q r c v idx e c' v' idx' e' i Hq Hr. apply Hw in Hq as [_ Hq], Hr as [_ Hr]. by eapply (v_disj s I).
  - intros q r c Hq Hr. assert (forall q, uses (procs s' q) = Some c -> uses (procs s q) = Some c) as Hu.
    { intros k. unfold s'. destruct (decide (k = p)) as [->|Hne]; [by rewrite set_proc_same|]. rewrite set_proc_other by done.
      cbn. by destruct (procs s k). }
    apply (v_bufs s I q r c); by apply Hu.
  - intros i Hi. change (free (dk s')) with (free d) in Hi. rewrite Hfree in Hi. case_decide as Hin; [done|].
    destruct (v_cover s I i Hi) as (q & c & v & idx & e & Hq & Hiq). exists q, c, v, idx, e. rewrite Hw. split_and!; [|done|done].
    intros ->. rewrite Hp in Hq. injection Hq as <- <- <- <-. done.
  - intros q c v Hq. unfold s' in Hq. destruct (decide (q = p)) as [->|Hne]; [by rewrite set_proc_same in Hq|].
    rewrite set_proc_other in Hq by done. cbn in Hq. by destruct (procs s q).
Qed.

Lemma end_inv s p b w idx : inv s -> procs s p = Wait b w idx false -> exists s', rw_end p b w idx s = Ret s' /\ inv s'.
Proof.
  intros I Hp. unfold rw_end. destruct (Z.eqb_spec (b_disk (bufs s b)) 1) as [H1|H1].
  - eexists. split; [reflexivity|]. by eapply rewait_inv.
  - destruct (v_wait s I _ _ _ _ _ Hp) as (i0 & i1 & i2 & -> & [W1 W2 W3 W4 W5]).
    change (default 0%nat ([i0; i1; i2] !! 0%nat)) with i0. cbn zeta.
    match goal with |- context [free_chain NUM i0 ?d] => set (d1 := d) end.
    assert (chain d1 b w (rw_sector (bufs s b)) i0 i1 i2) as Hch by (eapply ring_chain_ext; [exact W3|done|done]).
    rewrite (free_chain_all d1 b w _ i0 i1 i2 Hch W1 (v_len s I) W2).
    destruct (free_all_ok [i0; i1; i2] d1 (v_len s I) W1 W2) as (d & -> & [R1 R2 R3 R4 R5 R6 R7 R8] & Hf & Hd). cbn [mbind outcome_bind].
    eexists. split; [reflexivity|]. eapply leave_inv; try done; [by rewrite R8; apply I|].
    intros j Hj. rewrite R6. cbn. by rewrite fn_lookup_insert_ne.
Qed.

(** ** The interrupt handler *)

(** The buffers whose requests are in the used ring. *)
Definition done_bufs s : list nat := omap (fun h => i_b (info (dk s) h)) (completed s).

Lemma done_bufs_iff s p b w i0 i1 i2 a :
  inv s -> procs s p = Wait b w [i0; i1; i2] a -> b ∈ done_bufs s <-> i0 ∈ completed s.
Proof.
  intros I Hp. destruct (v_wait s I _ _ _ _ _ Hp) as (? & ? & ? & [= <- <- <-] & W). unfold done_bufs. split.
  - intros (h & Hb & Hh)%list_elem_of_omap || intros (h & Hh & Hb)%list_elem_of_omap.
    destruct (head_owner s h I) as (q & c & v & j1 & j2 & e & Hq & W'); [set_solver|].
    assert (Some c = Some b) as [= ->] by (rewrite <- (w_info _ _ _ _ _ _ _ _ _ _ _ W'); done).
    assert (q = p) as -> by (apply (v_bufs s I q p b); [by rewrite Hq|by rewrite Hp]). rewrite Hp in Hq. by injection Hq as -> -> -> -> ->.
  - intros Hh. apply list_elem_of_omap. exists i0. split; [done|]. apply (w_info _ _ _ _ _ _ _ _ _ _ _ W).
Qed.

(** A request the device has completed and reported as failed. *)
Definition failed s : Prop :=
  exists p b w idx a j, procs s p = Wait b w idx a /\ b_disk (bufs s b) = 1 /\ jobs s b = [j] /\ j_status j <> 0.

(** A completed request's owner, and its job. *)
Lemma completed_job s h : inv s -> h ∈ completed s ->
  is_Some (i_b (info (dk s) h)) /\
  exists p b w idx a j, procs s p = Wait b w idx a /\ b_disk (bufs s b) = 1 /\ jobs s b = [j] /\ j_status j = i_status (info (dk s) h).
Proof.
  intros I Hh. destruct (head_owner s h I) as (q & b & w & i1 & i2 & a & Hq & W); [set_solver|].
  split; [rewrite (w_info _ _ _ _ _ _ _ _ _ _ _ W); by eexists|].
  destruct (w_phase _ _ _ _ _ _ _ _ _ _ _ W) as [(H & _)|[(_ & Hd & before & Hj)|(_ & H & _)]]; [|by eauto 10|done].
  pose proof (v_nodup s I) as Hnd. apply NoDup_app in Hnd as (_ & Hnd & _). by destruct (Hnd h H).
Qed.

Lemma failed_completed s : inv s -> failed s <-> Exists (fun h => i_status (info (dk s) h) <> 0) (completed s).
Proof.
  intros I. rewrite Exists_exists. split.
  - intros (p & b & w & idx & a & j & Hp & Hd & Hj & Hs). destruct (v_wait s I _ _ _ _ _ Hp) as (i0 & i1 & i2 & -> & W).
    destruct (w_phase _ _ _ _ _ _ _ _ _ _ _ W) as [(_ & _ & H)|[(Hc & _ & before & Hj')|(_ & _ & H & _)]]; [congruence| |congruence].
    exists i0. split; [done|]. rewrite Hj' in Hj. by injection Hj as <-.
  - intros (h & Hh & Hs). destruct (completed_job s h I Hh) as (_ & p & b & w & idx & a & j & ? & ? & ? & E).
    exists p, b, w, idx, a, j. split_and!; congruence.
Qed.

Lemma intr_fails s : inv s -> failed s -> sys_intr s = Panic "virtio_disk_intr status".
Proof.
  intros I Hf. destruct (v_idx s I) as (X1 & X2 & X3 & X4). unfold sys_intr.
  rewrite virtio_disk_intr_fails; [done|done|done| |by apply failed_completed].
  intros h Hh. by apply completed_job.
Qed.

Lemma intr_inv s : inv s -> ~ failed s -> exists s', sys_intr s = Ret s' /\ inv s'.
Proof.
  intros I Hnf. destruct (v_idx s I) as (X1 & X2 & X3 & X4). unfold sys_intr.
  assert (forall h, h ∈ completed s -> i_status (info (dk s) h) = 0) as Hst.
  { intros h Hh. destruct (decide (i_status (info (dk s) h) = 0)) as [|Hne]; [done|].
    destruct Hnf. apply failed_completed; [done|]. apply Exists_exists. by exists h. }
  rewrite (virtio_disk_intr_ok (dk s) X2 X3).
  2: { intros h Hh. fold (completed s) in Hh. split; [by apply Hst|by apply completed_job]. }
  fold (completed s). fold (done_bufs s). cbn [mbind outcome_bind]. eexists. split; [reflexivity|]. set (s' := complete _ _).
  assert (to_do s' = to_do s /\ completed s' = []) as [Ht Hc].
  { split; [done|]. unfold completed. cbn. apply entries_nil. }
  assert (forall q c v idx e, procs s' q = Wait c v idx e ->
    exists e', procs s q = Wait c v idx e' /\ e = e' && negb (bool_decide (c ∈ done_bufs s))) as Hw.
  { intros q c v idx e H. cbn in H. destruct (procs s q); cbn in H; try done. injection H as <- <- <- <-. by eexists. }
  assert (forall q c v idx e, procs s q = Wait c v idx e -> exists e', procs s' q = Wait c v idx e') as Hw'.
  { intros q c v idx e H. cbn. rewrite H. by eexists. }
  constructor; rewrite ?Ht, ?Hc, ?app_nil_r.
  - apply (v_len s I).
  - cbn. done.
  - intros q c v idx e Hq. destruct (Hw _ _ _ _ _ Hq) as (e' & Hq' & ->).
    destruct (v_wait s I _ _ _ _ _ Hq') as (i0 & i1 & i2 & -> & W). exists i0, i1, i2. split; [done|].
    pose proof (done_bufs_iff s q c v i0 i1 i2 e' I Hq') as Hdone. destruct W as [W1 W2 W3 W4 W5].
    unfold waiting_in. rewrite Ht, Hc. cbn [s' complete dk bufs jobs].
    destruct (decide (c ∈ done_bufs s)) as [Hin|Hin].
    + apply Hdone in Hin as Hcomp. constructor; [done|done|by eapply ring_chain_ext|done|]. cbn [b_disk]. right; right.
      destruct W5 as [(H & _)|[(_ & H1 & H2)|(_ & H & _)]]; [|split_and!|done].
      * pose proof (v_nodup s I) as Hnd. apply NoDup_app in Hnd as (_ & Hnd & _). by destruct (Hnd i0 H).
      * intros H. pose proof (v_nodup s I) as Hnd. apply NoDup_app in Hnd as (_ & Hnd & _). by destruct (Hnd i0 H).
      * set_solver.
      * done.
      * rewrite bool_decide_eq_true_2 by done. by rewrite andb_false_r.
      * exact H2.
      * by apply Hst.
    + assert (i0 ∉ completed s) as Hcomp by (intros H; apply Hin; by apply Hdone). rewrite bool_decide_eq_false_2 by done.
      rewrite andb_true_r. constructor; [done|done|by eapply ring_chain_ext|done|].
      destruct W5 as [H|[(H & _)|(H1 & _ & H2)]]; [by left|done|]. right; right. split; [done|]. split; [set_solver|done].
  - intros h Hh. destruct (v_heads s I h) as (q & c & v & i1 & i2 & e & Hq); [set_solver|]. destruct (Hw' _ _ _ _ _ Hq) as [e' Hq'].
    by exists q, c, v, i1, i2, e'.
  - pose proof (v_nodup s I) as Hnd. by apply NoDup_app in Hnd as (Hnd & _).
  - intros q r c v idx e c' v' idx' e' i Hq Hr. destruct (Hw _ _ _ _ _ Hq) as (? & Hq' & _). destruct (Hw _ _ _ _ _ Hr) as (? & Hr' & _).
    by eapply (v_disj s I).
  - intros q r c Hq Hr. apply (v_bufs s I q r c); cbn in *; [by destruct (procs s q)|by destruct (procs s r)].
  - intros i Hi. destruct (v_cover s I i Hi) as (q & c & v & idx & e & Hq & Hin). destruct (Hw' _ _ _ _ _ Hq) as [e' Hq'].
    by exists q, c, v, idx, e'.
  - intros q c v Hq. apply (v_asleep s I q c v). cbn in Hq. by destruct (procs s q).
Qed.

(** ** The device *)

(** A change to what is on its way, for the same calls. *)
Lemma rings_inv s s' :
  inv s -> (forall q, procs s' q = procs s q) -> free (dk s') = free (dk s) ->
  is_u16 (avail_idx (dk s')) /\ is_u16 (used_idx (dk s')) /\ is_u16 (used_idx' (dk s')) /\ is_u16 (seen s') ->
  to_do s' ++ completed s' ≡ₚ to_do s ++ completed s ->
  (forall q b w i0 i1 i2 a, procs s q = Wait b w [i0; i1; i2] a -> waiting_in s b w i0 i1 i2 a -> waiting_in s' b w i0 i1 i2 a) -> inv s'.
Proof.
  intros I Hp Hf Hidx Hperm Hw.
  constructor; try setoid_rewrite Hp; rewrite ?Hf, ?Hperm; try apply I; try done.
  - intros q b w idx a Hq. destruct (v_wait s I _ _ _ _ _ Hq) as (i0 & i1 & i2 & -> & W). exists i0, i1, i2. split; [done|]. by eapply Hw.
  - intros h Hh. rewrite Hperm in Hh. by apply (v_heads s I).
  - unfold free_count. rewrite Hf. apply (v_asleep s I).
Qed.

Lemma read_inv s : inv s -> seen s <> avail_idx (dk s) -> inv (dev_read s).
Proof.
  intros I Hne. destruct (v_idx s I) as (X1 & X2 & X3 & X4).
  assert (to_do (dev_read s) ≡ₚ to_do s) as Ht.
  { unfold to_do. cbn. rewrite (entries_pop _ (seen s)) by done. cbn.
    rewrite (assoc_L (++)), (comm (++) _ [_]). done. }
  apply (rings_inv s); try done.
  - cbn. split_and!; try done. apply wrapu_range; lia.
  - by rewrite Ht.
  - intros q b w i0 i1 i2 a Hq W. unfold waiting_in. eapply waiting_ext; [exact W|done|done|done| |done]. by rewrite Ht.
Qed.

Lemma serve_inv s h : inv s -> h ∈ pending s -> exists s', dev_serve serve h s = Some s' /\ inv s'.
Proof.
  intros I Hh. destruct (v_idx s I) as (X1 & X2 & X3 & X4). pose proof (v_nodup s I) as Hnd.
  assert (h ∈ to_do s) as Htodo by (unfold to_do; set_solver).
  destruct (head_owner s h I) as (p & b & w & i1 & i2 & a & Hp & W); [set_solver|]. pose proof W as [W1 W2 W3 W4 W5].
  assert (h ∉ completed s) as Hnc by (apply NoDup_app in Hnd as (_ & Hnd & _); by apply Hnd).
  destruct W5 as [(_ & Hd & Hj)|[(H & _)|(H & _)]]; [|done|done].
  unfold dev_serve. rewrite (fetch_chain _ _ _ _ _ _ _ W3). cbn [mbind option_bind r_type r_sector r_len r_buf r_status].
  destruct (serve _ _ _ _ _) as [[m after] status] eqn:Es.
  eexists. split; [reflexivity|]. set (s' := mk_sys _ _ _ _ _ _ _).
  assert (length (completed s) < 8)%nat as Hroom.
  { apply (disk_room s _ h I); [by apply NoDup_app in Hnd as (_ & _ & Hnd)|set_solver| |done].
    rewrite <- (v_len s I). eapply lookup_lt_Some, (head_taken s h I). set_solver. }
  assert (completed s' = completed s ++ [h]) as Hc by (unfold completed; cbn; by apply entries_push).
  assert (pending s ≡ₚ h :: filter (fun k => k <> h) (pending s)) as Hpend.
  { apply NoDup_app in Hnd as (Hnd & _). apply NoDup_app in Hnd as (_ & _ & Hnd). revert Hnd Hh. clear.
    induction (pending s) as [|k l IH]; [set_solver|]. intros Hnd Hh. apply NoDup_cons in Hnd as [Hk Hnd].
    destruct (decide (k = h)) as [->|Hne].
    - rewrite filter_cons_False by auto. f_equiv. clear -Hk. induction l as [|j l IH]; [done|].
      rewrite filter_cons_True by set_solver. f_equiv. apply IH. set_solver.
    - rewrite filter_cons_True by done. rewrite (Permutation_swap k h). f_equiv. apply IH; [done|set_solver]. }
  assert (to_do s ≡ₚ h :: to_do s') as Ht.
  { unfold to_do at 1. rewrite Hpend. unfold to_do, s'. cbn. symmetry. apply Permutation_middle. }
  apply (rings_inv s); try done.
  - cbn. split_and!; try done. apply wrapu_range; lia.
  - rewrite Hc, Ht. rewrite (assoc_L (++)). rewrite (comm (++) _ [h]). done.
  - intros q c v j0 j1 j2 e Hq Wq. unfold waiting_in. rewrite Hc.
    destruct (decide (q = p)) as [->|Hne].
    + rewrite Hp in Hq. injection Hq as <- <- <- <- <- <-. constructor; [done|done| | |].
      * cbn. rewrite fn_lookup_insert. destruct W3 as [C0 C1 C2 C3]. constructor; cbn; done.
      * cbn. by rewrite fn_lookup_insert.
      * right; left. split; [set_solver|]. unfold served. cbn. rewrite !fn_lookup_insert, Hj. cbn.
        split; [exact Hd|]. by exists (data (bufs s b)).
    + assert (j0 <> h) as Hj0.
      { intros ->. apply Hne. eapply (v_disj s I q p); [exact Hq|exact Hp|left|left]. }
      assert (c <> b) as Hcb.
      { intros ->. apply Hne. apply (v_bufs s I q p b); [by rewrite Hq|by rewrite Hp]. }
      cbn [s' bufs jobs]. rewrite !fn_lookup_insert_ne by done. eapply waiting_ext; [exact Wq|done|done| | |].
      * cbn. by rewrite fn_lookup_insert_ne.
      * rewrite Ht. set_solver.
      * set_solver.
Qed.

(** ** All steps *)

Lemma disk_step_inv s s' : inv s -> step serve s s' -> inv s'.
Proof.
  intros I Hs. destruct Hs as [p b w s Hp Hb|p b w s s' Hp Hr|p b w idx s s' Hp Hr|s s' Hr|s Hr|h s s' Hh Hr|p s|b x s Hb Hx].
  - apply replace_inv; try done; [by rewrite Hp|]. intros c [= <-] q _. apply Hb.
  - destruct (start_inv s p b w I Hp) as (t & Ht & It). rewrite Ht in Hr. by injection Hr as <-.
  - destruct (end_inv s p b w idx I Hp) as (t & Ht & It). rewrite Ht in Hr. by injection Hr as <-.
  - destruct (intr_inv s I) as (t & Ht & It); [|rewrite Ht in Hr; by injection Hr as <-].
    intros Hf. rewrite (intr_fails s I Hf) in Hr. done.
  - by apply read_inv.
  - destruct (serve_inv s h I Hh) as (t & Ht & It). rewrite Ht in Hr. by injection Hr as <-.
  - destruct (procs s p) as [|b w a|b w idx a] eqn:Hp.
    + apply replace_inv; try done. by rewrite Hp.
    + apply replace_inv; try done; [by rewrite Hp|]. intros c [= <-] q Hq Hu. apply Hq, (v_bufs s I q p b); [done|by rewrite Hp].
    + by eapply rewait_inv.
  - constructor; try apply I. intros q c v idx e Hq. cbn in Hq. eapply (wait_ext s); [done|exact Hq|done|done| |done|done].
    cbn. apply fn_lookup_insert_ne. intros ->. apply (Hb q). by rewrite Hq.
Qed.

Lemma disk_runs_inv m blocks s : rtc (step serve) (boot m blocks) s -> inv s.
Proof. intros H. eapply rtc_invariant; [|exact H|apply disk_boot_inv]. intros ? ? Hi Hs. by eapply disk_step_inv. Qed.

(** (C22) The disk driver and the device never trip over each other: with any number
    of calls, interrupts at any time and requests served in any order, no call
    panics or reads an entry that is not there (a descriptor is never freed twice),
    the device finds a well-formed request at every head it was given, and the
    interrupt handler panics exactly if the device has reported failure of a request
    that is still to be handled. *)
Theorem virtio_no_panic m blocks s :
  rtc (step serve) (boot m blocks) s ->
  (forall p b w, procs s p = GetDesc b w false -> returns (rw_start p b w s) = true) /\
  (forall p b w idx, procs s p = Wait b w idx false -> returns (rw_end p b w idx s) = true) /\
  (forall h, h ∈ pending s -> is_Some (dev_serve serve h s)) /\
  (failed s /\ sys_intr s = Panic "virtio_disk_intr status" \/ ~ failed s /\ returns (sys_intr s) = true).
Proof.
  intros H. pose proof (disk_runs_inv m blocks s H) as I. split_and!.
  - intros p b w Hp. by destruct (start_inv s p b w I Hp) as (t & -> & _).
  - intros p b w idx Hp. by destruct (end_inv s p b w idx I Hp) as (t & -> & _).
  - intros h Hh. destruct (serve_inv s h I Hh) as (t & -> & _). by eexists.
  - assert (failed s \/ ~ failed s) as [Hf|Hf].
    { rewrite (failed_completed s I). destruct (decide (Exists (fun h => i_status (info (dk s) h) <> 0) (completed s))); auto. }
    + left. split; [done|by apply intr_fails].
    + right. split; [done|]. by destruct (intr_inv s I Hf) as (t & -> & _).
Qed.

(** (C4) A call of virtio_disk_rw is one operation of the disk: when the driver has
    told a call that its request is finished, exactly one request was served for it
    since it was published, of the type and for the sector of the call, on the data
    the buffer then had, the device reported success, and the buffer holds what that
    request left; before, none or that one was served. *)
Theorem virtio_rw_is_one_request m blocks s p b w idx a :
  rtc (step serve) (boot m blocks) s -> procs s p = Wait b w idx a ->
  (b_disk (bufs s b) = 0 -> exists before, jobs s b = [mk_job (rw_type w) (rw_sector (bufs s b)) before (data (bufs s b)) 0]) /\
  (b_disk (bufs s b) <> 0 -> b_disk (bufs s b) = 1 /\ (jobs s b = [] \/
     exists before st, jobs s b = [mk_job (rw_type w) (rw_sector (bufs s b)) before (data (bufs s b)) st])).
Proof.
  intros H Hp. pose proof (disk_runs_inv m blocks s H) as I. destruct (v_wait s I _ _ _ _ _ Hp) as (i0 & i1 & i2 & -> & W).
  destruct (w_phase _ _ _ _ _ _ _ _ _ _ _ W) as [(_ & H1 & H2)|[(_ & H1 & before & H2)|(_ & _ & H1 & _ & (before & H2) & H3)]].
  - rewrite H1. split; [done|]. intros _. split; [done|by left].
  - rewrite H1. split; [done|]. intros _. split; [done|]. right. by eexists _, _.
  - rewrite H1, H2, H3. split; [intros _; by eexists|done].
Qed.

Lemma few_free (l : list bool) : (countb (fun f => f) l < length l)%nat -> exists i, l !! i = Some false.
Proof.
  induction l as [|x l IH]; [cbn; lia|]. rewrite countb_cons. destruct x; [|by exists 0%nat]. cbn [Nat.b2n length]. intros Hlt.
  destruct IH as [i Hi]; [lia|]. by exists (S i).
Qed.

(** No wakeup of the disk is lost: a call asleep on its buffer has a request on
    its way to the device or in the used ring; one asleep for descriptors finds fewer
    than three free, with another call in flight; so while a call is in progress, a
    call can go on, the device has an entry to read or a request to serve, or an
    interrupt is due. *)
Theorem virtio_no_lost_wakeup m blocks s :
  rtc (step serve) (boot m blocks) s ->
  (forall p b w idx, procs s p = Wait b w idx true -> b_disk (bufs s b) = 1 /\ exists h, idx !! 0%nat = Some h /\ h ∈ to_do s ++ completed s) /\
  (forall p b w, procs s p = GetDesc b w true -> (free_count (dk s) < 3)%nat /\ exists q c v idx a, procs s q = Wait c v idx a) /\
  (forall p, procs s p <> Idle ->
     (exists q b w, procs s q = GetDesc b w false) \/ (exists q b w idx, procs s q = Wait b w idx false) \/
     seen s <> avail_idx (dk s) \/ pending s <> [] \/ used_idx (dk s) <> used_idx' (dk s)).
Proof.
  intros H. pose proof (disk_runs_inv m blocks s H) as I.
  assert (forall p b w idx, procs s p = Wait b w idx true -> b_disk (bufs s b) = 1 /\ exists h, idx !! 0%nat = Some h /\ h ∈ to_do s ++ completed s) as H1.
  { intros p b w idx Hp. destruct (v_wait s I _ _ _ _ _ Hp) as (i0 & i1 & i2 & -> & W).
    destruct (w_phase _ _ _ _ _ _ _ _ _ _ _ W) as [(Hi & Hd & _)|[(Hi & Hd & _)|(_ & _ & _ & Hf & _)]]; [..|done];
      (split; [done|]); exists i0; (split; [done|set_solver]). }
  assert (forall p b w, procs s p = GetDesc b w true -> (free_count (dk s) < 3)%nat /\ exists q c v idx a, procs s q = Wait c v idx a) as H2.
  { intros p b w Hp. pose proof (v_asleep s I p b w Hp) as Hc. split; [done|].
    destruct (few_free (free (dk s))) as [i Hi]; [rewrite (v_len s I); unfold free_count in Hc; unfold NUM; lia|].
    destruct (v_cover s I i Hi) as (q & c & v & idx & a & Hq & _). by exists q, c, v, idx, a. }
  split_and!; [exact H1|exact H2|]. intros p Hp.
  assert (forall q c v idx, procs s q = Wait c v idx true -> seen s <> avail_idx (dk s) \/ pending s <> [] \/ used_idx (dk s) <> used_idx' (dk s)) as H3.
  { intros q c v idx Hq. destruct (H1 q c v idx Hq) as (_ & h & _ & Hh).
    destruct (decide (seen s = avail_idx (dk s))) as [E1|]; [|by left].
    destruct (decide (used_idx (dk s) = used_idx' (dk s))) as [E2|]; [|by right; right].
    right; left. intros E3. unfold to_do, completed in Hh. rewrite E1, E2, E3, !entries_nil in Hh. set_solver. }
  destruct (procs s p) as [|b w [|]|b w idx [|]] eqn:E; [done| |by left; exists p, b, w| |by right; left; exists p, b, w, idx].
  - destruct (H2 p b w E) as (_ & q & c & v & idx & [|] & Hq); [by right; right; eapply H3|by right; left; exists q, c, v, idx].
  - right; right. by eapply H3.
Qed.

End Run.

(** ** Two reads

    A disk whose every sector holds its number; two processes read blocks 5 and 6. *)
Definition numbered (ty sec n : Z) (xs : list Z) (m : Z) : Z * list Z * Z :=
  if ty =? VIRTIO_BLK_T_IN then (m + 1, [sec], 0) else (m + 1, xs, 0).

Definition blocks (b : nat) : buf := mk_buf 0 (Z.of_nat b + 5) [].

(** One event of a run: [None] where it cannot happen. *)
Inductive event := ECall (p b : nat) (w : bool) | ERun (p : nat) | EIntr | ERead | EServe (h : nat).

Definition act (e : event) (s : sys) : option (sys (M:=Z)) :=
  match e with
  | ECall p b w => Some (set_proc p (GetDesc b w false) s)
  | ERun p =>
      match procs s p with
      | GetDesc b w false => match rw_start p b w s with Ret s' => Some s' | _ => None end
      | Wait b w idx false => match rw_end p b w idx s with Ret s' => Some s' | _ => None end
      | _ => None
      end
  | EIntr => match sys_intr s with Ret s' => Some s' | _ => None end
  | ERead => if decide (seen s = avail_idx (dk s)) then None else Some (dev_read s)
  | EServe h => if decide (h ∈ pending s) then dev_serve numbered h s else None
  end.

Fixpoint acts (es : list event) (s : sys) : sys :=
  match es with [] => s | e :: es => acts es (default s (act e s)) end.

(** A list of events that are not calls is a run. *)
Lemma acts_reached es : forall s, Forall (fun e => match e with ECall _ _ _ => False | _ => True end) es ->
  rtc (step numbered) s (acts es s).
Proof.
  induction es as [|e es IH]; intros s Hes; [done|]. apply Forall_cons_1 in Hes as [He Hes]. cbn [acts].
  destruct (act e s) as [t|] eqn:E; [|by apply IH]. eapply rtc_l; [|by apply IH]. cbn [default].
  destruct e as [|p| | |h]; cbn [act] in E; [done|..].
  - destruct (procs s p) as [|b w [|]|b w idx [|]] eqn:Ep; try done.
    + destruct (rw_start p b w s) eqn:Er; try done. injection E as <-. by eapply d_start.
    + destruct (rw_end p b w idx s) eqn:Er; try done. injection E as <-. by eapply d_end.
  - destruct (sys_intr s) eqn:Er; try done. injection E as <-. by apply d_intr.
  - destruct (decide (seen s = avail_idx (dk s))); [done|]. injection E as <-. by apply d_read.
  - case_decide; [|done]. by eapply d_serve.
Qed.

Definition called : sys := set_proc 1 (GetDesc 1 false false) (set_proc 0 (GetDesc 0 false false) (boot 0 blocks)).
Definition asleep2 : sys := acts [ERun 0; ERun 1; ERead] called.
Definition answered : sys := acts [ERead; EServe 3; EServe 0; EIntr] asleep2.

Lemma called_reached : rtc (step numbered) (boot 0 blocks) called.
Proof.
  eapply rtc_l; [apply (d_call _ 0 0 false); [done|intros q; done]|]. apply rtc_once, d_call; [done|].
  intros q. destruct (decide (q = 0%nat)) as [->|Hq]; [by rewrite set_proc_same|]. by rewrite set_proc_other.
Qed.

Lemma asleep2_reached : rtc (step numbered) (boot 0 blocks) asleep2.
Proof. etransitivity; [apply called_reached|]. apply acts_reached. repeat constructor. Qed.

Lemma answered_reached : rtc (step numbered) (boot 0 blocks) answered.
Proof. etransitivity; [apply asleep2_reached|]. apply acts_reached. repeat constructor. Qed.

Lemma virtio_no_panic_witness :
  returns (rw_end 0 0 false [0; 1; 2]%nat answered) = true /\ pending asleep2 = [0%nat] /\ is_Some (dev_serve numbered 0 asleep2).
Proof.
  split; [|split; [vm_compute; reflexivity|]].
  - apply (proj1 (proj2 (virtio_no_panic numbered 0 blocks answered answered_reached)) 0%nat 0%nat false [0; 1; 2]%nat).
    vm_compute. reflexivity.
  - apply (proj1 (proj2 (proj2 (virtio_no_panic numbered 0 blocks asleep2 asleep2_reached))) 0%nat).
    assert (pending asleep2 = [0%nat]) as -> by (vm_compute; reflexivity). left.
Defined.

Lemma virtio_rw_is_one_request_witness :
  procs answered 1%nat = Wait 1 false [3; 4; 5]%nat false /\ data (bufs answered 1%nat) = [12] /\
  exists before, jobs answered 1%nat = [mk_job 0 12 before (data (bufs answered 1%nat)) 0].
Proof.
  assert (procs answered 1%nat = Wait 1 false [3; 4; 5]%nat false) as Hp by (vm_compute; reflexivity).
  split; [exact Hp|]. split; [vm_compute; reflexivity|].
  assert (b_disk (bufs answered 1%nat) = 0) as Hd by (vm_compute; reflexivity).
  assert (rw_sector (bufs answered 1%nat) = 12) as Hs by (vm_compute; reflexivity).
  rewrite <- Hs. exact (proj1 (virtio_rw_is_one_request numbered 0 blocks answered 1 1 false _ false answered_reached Hp) Hd).
Defined.

Lemma virtio_no_lost_wakeup_witness :
  procs asleep2 0%nat = Wait 0 false [0; 1; 2]%nat true /\ b_disk (bufs asleep2 0%nat) = 1.
Proof.
  assert (procs asleep2 0%nat = Wait 0 false [0; 1; 2]%nat true) as Hp by (vm_compute; reflexivity).
  split; [exact Hp|].
  exact (proj1 (proj1 (virtio_no_lost_wakeup numbered 0 blocks asleep2 asleep2_reached) 0%nat 0%nat false [0; 1; 2]%nat Hp)).
Defined.

End VirtioRun.
